(* ===== verification/_CoqProject ===== *)
-Q . S2P
Prelude.v
Bytes.v
Bitmap.v
Phys.v
Dma.v
Block.v
BlockAlloc.v
FileTable.v
Vfs.v
VfsSpec.v
Mem.v
Heap.v
Utf8.v
StyxMessage.v
Fmt.v
Styx.v
Json.v
Str.v
Http.v
Api.v
Sse.v
ApiClient.v
Nvme.v
NvmeDriver.v
Der.v
Dns.v
Sqlite.v
Agent.v
AgentSpec.v
Shm.v
Clock.v
Bridge.v
SqliteInit.v
Line.v
Virtqueue.v
VirtioNet.v
Pci.v
Paging.v
Interrupts.v
Boot.v
Timer.v
Net.v
Rng.v
LuaAlloc.v
Lua.v
LuaRun.v
Commands.v
