(* ===== verification/Prelude.v ===== *)
(** * A verification of the OSqlite kernel

    OSqlite is a bare-metal x86-64 kernel whose only storage is one SQLite
    database, with a 9P2000 file server, a client of a language-model API, an
    agent that works on the database, and Lua scripts.  This library models
    the Rust code of [src/kernel/src] and proves what makes it correct.  Paths
    below are relative to that directory.

    ** How the model reads

    Every Rust function is one Definition or Fixpoint under its own name, with
    the guards, the early returns and the order of effects of the source.
    This file has the vocabulary: [out] is a value, an [Err] or a kernel panic;
    [st] is a computation that returns its state with every outcome, since
    what an early return leaves behind is part of the behaviour.  A machine
    word is a [Z] whose wrap-around ([wrap32], [wrap64], [sat_add64], ...) is
    written where the source has it; a checked operation that overflows is a
    panic.  Byte strings are [list Z] (Bytes.v), Rust's strings are their UTF-8
    bytes (Utf8.v, Str.v, Fmt.v), raw memory is a finite map from addresses to
    bytes (Mem.v).  Locks make each operation of a component one step, except
    in Lua.v, where they are modelled because a long jump leaves them held.

    Code outside the repository is a class of operations with the laws the
    program relies on, and each class has an instance in which the theorems
    are run: the block device ([Block.BlockDevice], with the RAM disk), the
    NVMe controller ([NvmeDriver.Controller]), the PCI bus ([Pci.Bus]), the C
    library SQLite ([Sqlite.Engine], [SqliteInit.Library]), the TCP/IP library
    ([Net.Library]), the Lua interpreter ([Lua.LuaApi], [LuaRun.Runtime]).
    What happens on a network connection is a [session], the outcomes of the
    calls made, in order; the clock, the random draws and the registers of a
    device are functions or sequences given to the code that reads them.

    ** The parts

    Memory.  Bitmap.v is the bit vector the two page-granular allocators share.
    Phys.v ([mem/phys.rs]) hands out pages; Dma.v ([mem/dma.rs]) and Heap.v
    ([mem/heap.rs]) take theirs from it, Paging.v ([mem/paging.rs]) unmaps guard
    pages, and LuaAlloc.v ([lua/alloc.rs]) counts what a script holds of the heap.

    Storage.  Block.v ([storage/block_device.rs], [mock_device.rs]), BlockAlloc.v
    ([storage/block_alloc.rs]) and FileTable.v ([storage/file_table.rs]) carry
    Vfs.v and VfsSpec.v ([vfs/sqlite_vfs.rs]): files as block ranges that grow by
    moving.  Shm.v and Clock.v are the lock slots and the date of the same file.
    Bridge.v ([sqlite/vfs_bridge.rs]) is what SQLite calls; Sqlite.v
    ([sqlite/ffi.rs], [mod.rs]) is what the kernel calls; SqliteInit.v joins
    them.

    Files over 9P.  StyxMessage.v ([fs/styx/message.rs]) parses and encodes;
    Styx.v ([namespace.rs], [server.rs]) walks, opens, reads and writes a tree of
    callbacks.

    The API client.  Json.v, Http.v, Api.v, Sse.v and ApiClient.v ([api/*.rs]) build
    requests, read responses and streams; Dns.v ([net/dns.rs]), Net.v
    ([net/stack.rs], [tls.rs]), Der.v ([crypto/der.rs]) and Rng.v ([crypto/mod.rs])
    serve the connection.  Agent.v and AgentSpec.v ([shell/agent.rs]) run the
    conversation and its tools on the database.

    People and scripts.  Line.v ([shell/line.rs], the serial port), Commands.v
    ([shell/commands.rs], [mod.rs]), Lua.v ([lua/builtins.rs]) and LuaRun.v
    ([lua/mod.rs], [repl.rs]).

    Hardware.  Nvme.v and NvmeDriver.v ([drivers/nvme]), Virtqueue.v and
    VirtioNet.v ([drivers/virtio]), Pci.v, Interrupts.v and Timer.v
    ([arch/x86_64]), Boot.v ([main.rs]), which composes Phys, Paging and
    Interrupts.

    ** What is proved

    Storage, from the bottom up: the counters and bitmaps agree in every
    reachable state ([Phys.reachable_wf]); live heap blocks are disjoint
    ([heap_reachable_disjoint]); a VFS write is a splice of the file's bytes
    and touches no other file ([vfs_write_correct]); files never share a block
    ([vfs_reachable_consistent]); a sync survives a power cycle
    ([vfs_sync_durable]); and the whole interface SQLite sees is a map from
    names to contents, over every lawful history of calls, errors included
    ([bridge_refines_files]).  On top of a database that answers SQL, the
    tools of the agent ([agent_tools_refine], [agent_sql_literals]) and those
    of scripts ([lua_files_refine], [lua_sql_faithful]) are maps of files too,
    and the script a person stores is the one that is shown
    ([shell_store_cat]).

    Languages and protocols: JSON ([json_complete], [json_total],
    [json_strings_utf8]), the request text ([api_request_denotes]), the streamed
    answer however the network cuts it ([api_chunking],
    [agentic_stream_decodes]), certificates ([der_extract_correct]), DNS
    ([dns_response_correct], [dns_cache_sound]), 9P ([styx_end_to_end]), and the
    conversation as a whole ([agent_conversation]).

    Concurrency: the queues of the NVMe controller ([nvme_queue_fifo]), the
    virtqueues ([virtqueue_correct]) and the receive path of the card
    ([virtio_receive_in_order]) under every interleaving with the device; the
    lock slots under every interleaving of clients ([shm_mutual_exclusion]).

    Bounds and endings: the memory and the restrictions of a script
    ([lua_alloc_bounded], [agent_runs_restricted], [lua_ask_spaced]); the line
    editor ([line_edit_correct]); the clock and the waits on it
    ([clock_calibrated], [net_waits_end]); the guarded stacks of boot
    ([boot_guards_stacks]).

    Some theorems state what the code does where that is not what it means to
    do: an NVMe controller that follows its specification is never initialised
    ([nvme_new_fails]); a clock in 12-hour mode loses the afternoon
    ([clock_loses_pm]); a lock request past the last slot keeps what it took
    ([shm_lock_leaks]).

    ** Fuel

    Recursion that is not structural takes fuel, and a theorem says how much is
    enough: [json_total] (one unit per input byte and one more),
    [agent_conversation] and [api_retry_bounded] (the twenty turns and the
    retries of the source), [clock_calibrated] and [net_waits_end] (the rounds
    that fit in the time limit).  A wait that polls a device is a function of
    the answers the device gives; where the answers run out the outcome says so
    (the time-out after [NvmeDriver]'s [polls], the [None] of
    [ApiClient.claude_request_plain], the error of [LuaRun.repl_loop]), never a
    made-up result.

    ** Not modelled

    The vendored C sources (SQLite, Lua) and the crates (smoltcp,
    embedded-tls, limine) are parameters.  [continue_boot] in [main.rs] probes
    the drivers and starts the shell: it is the composition of modelled parts
    with console messages.  The CPUID reads, the halt loops and the panic
    handler are instructions without a result the program computes with.  The
    adapter [net/device.rs] implements the traits of the TCP/IP crate, each
    method one call of the driver of VirtioNet.v; the digest of a certificate
    pin is a call of the sha2 crate.  Memory fences and cache flushes have no effect in a model in
    which a step is atomic; the orderings they enforce are the orders of the
    steps.  Tests and the build script are not part of the kernel. *)
From stdpp Require Export prelude gmap strings list list_numbers fin_sets.
From Stdlib Require Export ZArith Lia.

Open Scope Z_scope.

(** [lia] decides the division and remainder by constants that word and
    block arithmetic uses. *)
Ltac Zify.zify_post_hook ::= Z.to_euclidean_division_equations.

(** ** Outcomes of Rust code: a value, an error value, or a kernel panic. *)
Inductive out (E A : Type) : Type :=
| Ok (a : A)
| Err (e : E)
| Panic.
Arguments Ok {E A} a.
Arguments Err {E A} e.
Arguments Panic {E A}.

#[export] Instance out_ret E : MRet (out E) := fun _ a => Ok a.
#[export] Instance out_bind E : MBind (out E) := fun A B k m =>
  match m with
  | Ok a => k a
  | Err e => Err e
  | Panic => Panic
  end.
#[export] Instance out_fmap E : FMap (out E) := fun A B f m =>
  match m with
  | Ok a => Ok (f a)
  | Err e => Err e
  | Panic => Panic
  end.
#[export] Instance out_eq_dec E A `{EqDecision E, EqDecision A} : EqDecision (out E A).
Proof. solve_decision. Defined.

(** [Result::map_err]. *)
Definition map_err {E F A} (f : E -> F) (m : out E A) : out F A :=
  match m with
  | Ok a => Ok a
  | Err e => Err (f e)
  | Panic => Panic
  end.

(** [Option::ok_or]. *)
Definition ok_or {E A} (o : option A) (e : E) : out E A :=
  match o with
  | Some a => Ok a
  | None => Err e
  end.

(** An indexing expression: [None] is an out-of-bounds panic. *)
Definition or_panic {E A} (o : option A) : out E A :=
  match o with
  | Some a => Ok a
  | None => Panic
  end.

(** ** Stateful code.  The state is returned with every outcome: what an
    early return leaves behind is part of the behaviour. *)
Definition st (S E A : Type) : Type := S -> out E A * S.

#[export] Instance st_ret S E : MRet (st S E) := fun _ a s => (Ok a, s).
#[export] Instance st_bind S E : MBind (st S E) := fun A B k m s =>
  match m s with
  | (Ok a, s') => k a s'
  | (Err e, s') => (Err e, s')
  | (Panic, s') => (Panic, s')
  end.

Definition st_get {S E} : st S E S := fun s => (Ok s, s).
Definition st_put {S E} (s : S) : st S E unit := fun _ => (Ok tt, s).
Definition st_err {S E A} (e : E) : st S E A := fun s => (Err e, s).
Definition st_panic {S E A} : st S E A := fun s => (Panic, s).
Definition st_lift {S E A} (m : out E A) : st S E A := fun s => (m, s).

(** The caught form of a computation: its error becomes a value, as in
    [match f() { Ok(x) => .., Err(e) => .. }]. *)
Definition st_try {S E F A} (m : st S E A) : st S F (A + E) := fun s =>
  match m s with
  | (Ok a, s') => (Ok (inl a), s')
  | (Err e, s') => (Ok (inr e), s')
  | (Panic, s') => (Panic, s')
  end.

Definition st_map_err {S E F A} (f : E -> F) (m : st S E A) : st S F A := fun s =>
  let '(r, s') := m s in (map_err f r, s').

(** Running a computation on a component of a larger state. *)
Definition st_zoom {S T E A} (get : T -> S) (set : S -> T -> T) (m : st S E A) : st T E A :=
  fun t => let '(r, s') := m (get t) in (r, set s' t).

(** ** Machine integers.  The shipped image is a release build
    ([GNUmakefile]: [cargo build --release]), where [+], [-] and [*] wrap. *)
Definition u8_max : Z := 2 ^ 8.
Definition wrap8 (z : Z) : Z := z mod 2 ^ 8.
Definition wrap16 (z : Z) : Z := z mod 2 ^ 16.
Definition wrap32 (z : Z) : Z := z mod 2 ^ 32.
Definition wrap64 (z : Z) : Z := z mod 2 ^ 64.

Declare Scope rust_scope.
Delimit Scope rust_scope with rust.
Notation "a ⊞ b" := (wrap64 (a + b)) (at level 50, left associativity) : rust_scope.
Notation "a ⊟ b" := (wrap64 (a - b)) (at level 50, left associativity) : rust_scope.
Notation "a ⊠ b" := (wrap64 (a * b)) (at level 40, left associativity) : rust_scope.
Open Scope rust_scope.

(** [u64::saturating_sub], [saturating_add], [saturating_mul]. *)
Definition sat_sub (a b : Z) : Z := Z.max 0 (a - b).
Definition sat_add64 (a b : Z) : Z := Z.min (2 ^ 64 - 1) (a + b).
Definition sat_mul64 (a b : Z) : Z := Z.min (2 ^ 64 - 1) (a * b).

(** [!x] on a 64-bit word. *)
Definition not64 (x : Z) : Z := Z.lxor x (Z.ones 64).

(** The type invariants of the unsigned integer types. *)
Definition is_u8 (z : Z) : Prop := 0 <= z < 2 ^ 8.
Definition is_u16 (z : Z) : Prop := 0 <= z < 2 ^ 16.
Definition is_u32 (z : Z) : Prop := 0 <= z < 2 ^ 32.
Definition is_u64 (z : Z) : Prop := 0 <= z < 2 ^ 64.

Create HintDb rust.

Lemma wrap64_small z : 0 <= z < 2 ^ 64 -> wrap64 z = z.
Proof. apply Z.mod_small. Qed.
Lemma wrap32_small z : 0 <= z < 2 ^ 32 -> wrap32 z = z.
Proof. apply Z.mod_small. Qed.
Lemma wrap16_small z : 0 <= z < 2 ^ 16 -> wrap16 z = z.
Proof. apply Z.mod_small. Qed.
Lemma wrap8_small z : 0 <= z < 2 ^ 8 -> wrap8 z = z.
Proof. apply Z.mod_small. Qed.
Lemma wrap64_range z : 0 <= wrap64 z < 2 ^ 64.
Proof. by apply Z.mod_pos_bound. Qed.
Lemma wrap32_range z : 0 <= wrap32 z < 2 ^ 32.
Proof. by apply Z.mod_pos_bound. Qed.
Lemma wrap16_range z : 0 <= wrap16 z < 2 ^ 16.
Proof. by apply Z.mod_pos_bound. Qed.

(** Removes every wrap-around that [lia] shows to be the identity. *)
Ltac unwrap :=
  repeat match goal with
  | |- context [wrap64 ?e] => rewrite (wrap64_small e) by lia
  | H : context [wrap64 ?e] |- _ => rewrite (wrap64_small e) in H by lia
  end.

(** ** Loops.  [for x in l { body }] over an accumulator; the body may
    return an error or panic. *)
Fixpoint for_each {E X S} (body : X -> S -> out E S) (l : list X) (s : S) : out E S :=
  match l with
  | [] => Ok s
  | x :: l' => s' ← body x s; for_each body l' s'
  end.

(** [for i in lo..hi]. *)
Definition for_range {E S} (lo hi : Z) (body : Z -> S -> out E S) (s : S) : out E S :=
  for_each body (seqZ lo (hi - lo)) s.

(** [for x in l { if p(x) { return Some(x) } }]. *)
Fixpoint find_first {E X} (p : X -> out E bool) (l : list X) : out E (option X) :=
  match l with
  | [] => Ok None
  | x :: l' => b ← p x; if (b : bool) then Ok (Some x) else find_first p l'
  end.

(** The effectful loop. *)
Fixpoint st_for {S E X} (body : X -> st S E unit) (l : list X) : st S E unit :=
  match l with
  | [] => mret tt
  | x :: l' => _ ← body x; st_for body l'
  end.

(** The effectful loop over an accumulator. *)
Fixpoint st_fold {S E X A} (body : X -> A -> st S E A) (l : list X) (a : A) : st S E A :=
  match l with
  | [] => mret a
  | x :: l' => a' ← body x a; st_fold body l' a'
  end.

Definition st_range {S E A} (lo hi : Z) (body : Z -> A -> st S E A) (a : A) : st S E A :=
  st_fold body (seqZ lo (hi - lo)) a.

Lemma for_each_app {E X S} (body : X -> S -> out E S) l1 l2 s :
  for_each body (l1 ++ l2) s = (s' ← for_each body l1 s; for_each body l2 s').
Proof.
  revert s. induction l1 as [|x l1 IH]; intros s; [done|]. simpl.
  destruct (body x s); simpl; [apply IH | done | done].
Qed.

Lemma for_each_seqZ_inv {E S} (I : Z -> S -> Prop) (body : Z -> S -> out E S) (n : nat) :
  forall lo s,
  I lo s ->
  (forall i s, lo <= i < lo + Z.of_nat n -> I i s ->
     exists s', body i s = Ok s' /\ I (i + 1) s') ->
  exists s', for_each body (seqZ lo (Z.of_nat n)) s = Ok s' /\ I (lo + Z.of_nat n) s'.
Proof.
  induction n as [|n IH]; intros lo s H0 Hstep.
  - exists s. split; [done|]. by rewrite Z.add_0_r.
  - rewrite seqZ_cons by lia. simpl.
    destruct (Hstep lo s) as (s1 & -> & H1); [lia|done|]. simpl.
    replace (Z.pred (Z.of_nat (Datatypes.S n))) with (Z.of_nat n) by lia.
    destruct (IH (Z.succ lo) s1) as (s' & -> & HI); [done| |].
    + intros i t Hi. apply Hstep. lia.
    + exists s'. split; [done|].
      by replace (lo + Z.of_nat (Datatypes.S n)) with (Z.succ lo + Z.of_nat n) by lia.
Qed.

(** The invariant rule of [for i in lo..hi]. *)
Lemma for_range_inv {E S} (I : Z -> S -> Prop) lo hi (body : Z -> S -> out E S) s :
  lo <= hi ->
  I lo s ->
  (forall i s, lo <= i < hi -> I i s -> exists s', body i s = Ok s' /\ I (i + 1) s') ->
  exists s', for_range lo hi body s = Ok s' /\ I hi s'.
Proof.
  intros Hle H0 Hstep. unfold for_range.
  destruct (for_each_seqZ_inv I body (Z.to_nat (hi - lo)) lo s H0) as (s' & Hs' & HI).
  - intros i t Hi. apply Hstep. lia.
  - rewrite Z2Nat.id in Hs', HI by lia. exists s'. split; [done|].
    by replace hi with (lo + (hi - lo)) by lia.
Qed.

(** The rule of the search loop when the test never fails. *)
Lemma find_first_spec {E X} (p : X -> out E bool) (q : X -> bool) l :
  (forall x, x ∈ l -> p x = Ok (q x)) ->
  find_first p l = Ok (list_find (fun x => q x = true) l ≫= fun '(_, x) => Some x).
Proof.
  induction l as [|x l IH]; intros Hp; [done|]. simpl.
  rewrite (Hp x) by (left). simpl. destruct (q x) eqn:Hq; simpl.
  - destruct (decide (q x = true)); [done|congruence].
  - rewrite IH by (intros; apply Hp; by right).
    destruct (decide (q x = true)); [congruence|].
    by destruct (list_find (fun x => q x = true) l) as [[? ?]|].
Qed.

(** ** Weakest preconditions: [m] run from [s] does not panic, and ends in
    [Q] with a value or in [X] with an error. *)
Definition wp {S E A} (m : st S E A) (Q : A -> S -> Prop) (X : E -> S -> Prop) (s : S) : Prop :=
  match m s with
  | (Ok a, s') => Q a s'
  | (Err e, s') => X e s'
  | (Panic, _) => False
  end.

Lemma wp_ret {S E A} (a : A) (Q : A -> S -> Prop) (X : E -> S -> Prop) s :
  Q a s -> wp (mret a) Q X s.
Proof. done. Qed.

Lemma wp_err {S E A} (e : E) (Q : A -> S -> Prop) (X : E -> S -> Prop) s :
  X e s -> wp (st_err e) Q X s.
Proof. done. Qed.

(** One step of a run that succeeds. *)
Lemma bind_step {S E A B} (f : st S E A) (k : A -> st S E B) s a s' : f s = (Ok a, s') -> (f ≫= k) s = k a s'.
Proof. unfold mbind, st_bind. by intros ->. Qed.

Lemma wp_bind {S E A B} (m : st S E A) (k : A -> st S E B) Q X s :
  wp m (fun a => wp (k a) Q X) X s -> wp (m ≫= k) Q X s.
Proof. unfold wp, mbind, st_bind. destruct (m s) as [[a|e|] s']; done. Qed.

Lemma wp_lift {S E A} (m : out E A) (Q : A -> S -> Prop) X a s :
  m = Ok a -> Q a s -> wp (st_lift m) Q X s.
Proof. by intros ->. Qed.

Lemma wp_mono {S E A} (m : st S E A) (Q Q' : A -> S -> Prop) (X X' : E -> S -> Prop) s :
  wp m Q X s -> (forall a s', Q a s' -> Q' a s') -> (forall e s', X e s' -> X' e s') ->
  wp m Q' X' s.
Proof. unfold wp. destruct (m s) as [[a|e|] s']; auto. Qed.

Lemma wp_eq {S E A} (m : st S E A) Q X s r :
  wp m Q X s -> m s = r ->
  match r with (Ok a, s') => Q a s' | (Err e, s') => X e s' | (Panic, _) => False end.
Proof. by intros H <-. Qed.

Lemma wp_map_err {S E F A} (f : E -> F) (m : st S E A) Q X s :
  wp m Q (fun e => X (f e)) s -> wp (st_map_err f m) Q X s.
Proof. unfold wp, st_map_err. destruct (m s) as [[a|e|] s']; done. Qed.

Lemma wp_try {S E F A} (m : st S E A) (Q : A + E -> S -> Prop) (X : F -> S -> Prop) s :
  wp m (fun a => Q (inl a)) (fun e => Q (inr e)) s -> wp (st_try m) Q X s.
Proof. unfold wp, st_try. destruct (m s) as [[a|e|] s']; done. Qed.

Lemma wp_get {S E} (Q : S -> S -> Prop) (X : E -> S -> Prop) s : Q s s -> wp st_get Q X s.
Proof. done. Qed.

Lemma wp_put {S E} (t : S) (Q : unit -> S -> Prop) (X : E -> S -> Prop) s :
  Q tt t -> wp (st_put t) Q X s.
Proof. done. Qed.

(** The invariant rule of an effectful [for i in lo..hi]. *)
Lemma wp_range {S E A} (I : Z -> A -> S -> Prop) (X : E -> S -> Prop) lo hi
    (body : Z -> A -> st S E A) a s :
  lo <= hi ->
  I lo a s ->
  (forall i a s, lo <= i < hi -> I i a s -> wp (body i a) (I (i + 1)) X s) ->
  wp (st_range lo hi body a) (I hi) X s.
Proof.
  intros Hle. unfold st_range. remember (Z.to_nat (hi - lo)) as n eqn:Hn.
  replace (hi - lo) with (Z.of_nat n) by lia. assert (hi = lo + Z.of_nat n) as -> by lia.
  clear Hn Hle. revert lo a s. induction n as [|n IH]; intros lo a s H0 Hstep.
  - simpl. unfold wp. simpl. by rewrite Z.add_0_r.
  - rewrite seqZ_cons by lia. cbn [st_fold]. apply wp_bind.
    eapply wp_mono; [apply (Hstep lo a s); [lia|done]| |done].
    intros a' s' H1. replace (Z.pred (Z.of_nat (Datatypes.S n))) with (Z.of_nat n) by lia.
    replace (lo + Z.of_nat (Datatypes.S n)) with (Z.succ lo + Z.of_nat n) by lia.
    apply IH; [done|]. intros i t u Hi. apply Hstep. lia.
Qed.

(** Consecutive integers as a finite set: [lo, lo + 1, .., lo + n - 1].  The
    set is sealed, so that conversion never enumerates it. *)
Definition zrange_def (lo n : Z) : gset Z := list_to_set (seqZ lo n).
Definition zrange_aux : seal zrange_def. Proof. by eexists. Qed.
Definition zrange : Z -> Z -> gset Z := zrange_aux.(unseal).
Definition zrange_eq : zrange = zrange_def := zrange_aux.(seal_eq).

Lemma elem_of_zrange i lo n : i ∈ zrange lo n <-> lo <= i < lo + n.
Proof. rewrite zrange_eq. unfold zrange_def. rewrite elem_of_list_to_set, elem_of_seqZ. lia. Qed.

Lemma size_zrange lo n : 0 <= n -> Z.of_nat (size (zrange lo n)) = n.
Proof.
  intros Hn. rewrite zrange_eq. unfold zrange_def. rewrite size_list_to_set by apply NoDup_seqZ.
  rewrite length_seqZ. lia.
Qed.

#[export] Instance zrange_set_unfold i lo n :
  SetUnfoldElemOf i (zrange lo n) (lo <= i < lo + n).
Proof. constructor. apply elem_of_zrange. Qed.

(** Equality of integer sets, element by element, with ranges as bounds. *)
Ltac zset_ext j :=
  apply set_eq; intros j;
  rewrite ?elem_of_union, ?elem_of_intersection, ?elem_of_difference, ?elem_of_singleton,
    ?elem_of_union, ?elem_of_zrange.

(** ** Alignment: [(x + a - 1) & !(a - 1)] with [a] a power of two. *)
Definition align_up64 (x a : Z) : Z := Z.land ((x ⊞ a) ⊟ 1) (not64 (a ⊟ 1)).

Lemma land_not_ones x k :
  0 <= k <= 64 -> 0 <= x < 2 ^ 64 -> Z.land x (not64 (2 ^ k - 1)) = x / 2 ^ k * 2 ^ k.
Proof.
  intros Hk Hx. rewrite <- Z.shiftr_div_pow2, <- Z.shiftl_mul_pow2 by lia.
  replace (2 ^ k - 1) with (Z.ones k) by (rewrite Z.ones_equiv; lia).
  apply Z.bits_inj'. intros j Hj. unfold not64.
  rewrite Z.land_spec, Z.lxor_spec, Z.shiftl_spec by done.
  destruct (decide (j < k)).
  - rewrite !Z.ones_spec_low by lia. rewrite (Z.testbit_neg_r _ (j - k)) by lia.
    by rewrite xorb_nilpotent, andb_false_r.
  - rewrite (Z.ones_spec_high k) by lia. rewrite Z.shiftr_spec by lia.
    replace (j - k + k) with j by lia.
    destruct (decide (j < 64)).
    + rewrite Z.ones_spec_low by lia. by rewrite andb_true_r.
    + destruct (decide (x = 0)) as [->|]; [by rewrite Z.bits_0|].
      rewrite (Z.bits_above_log2 x j); [done|lia|].
      apply Z.lt_le_trans with 64; [|lia]. apply Z.log2_lt_pow2; lia.
Qed.

Lemma align_up64_spec x k :
  0 <= k < 64 -> 0 <= x -> x + 2 ^ k <= 2 ^ 64 - 1 ->
  x <= align_up64 x (2 ^ k) < x + 2 ^ k /\ (2 ^ k | align_up64 x (2 ^ k)) /\
  forall p, (2 ^ k | p) -> x <= p -> align_up64 x (2 ^ k) <= p.
Proof.
  intros Hk Hx Hov. unfold align_up64.
  assert (0 < 2 ^ k) as Hpos by (apply Z.pow_pos_nonneg; lia).
  set (a := 2 ^ k) in *. unwrap. subst a. rewrite land_not_ones by lia. set (a := 2 ^ k) in *.
  pose proof (Z.div_mod (x + a - 1) a ltac:(lia)) as Hdiv.
  pose proof (Z.mod_pos_bound (x + a - 1) a Hpos) as Hmod.
  split; [nia|]. split; [by apply Z.divide_factor_r|].
  intros p [q ->] Hp. apply Z.mul_le_mono_nonneg_r; [lia|].
  apply Z.lt_succ_r, Z.div_lt_upper_bound; nia.
Qed.

Lemma pow2_u64_exp a :
  (0 <? a) && (a =? 2 ^ Z.log2 a) = true -> a < 2 ^ 64 -> exists k, 0 <= k < 64 /\ a = 2 ^ k.
Proof.
  intros [H1%Z.ltb_lt H2%Z.eqb_eq]%andb_true_iff Hlt. exists (Z.log2 a). split; [|done].
  split; [apply Z.log2_nonneg|]. by apply Z.log2_lt_pow2.
Qed.
