(* ===== verification/Bytes.v ===== *)
(** * Byte strings

    Slices with Rust's bounds checks, in-place copies ([copy_from_slice] into a
    sub-slice), little- and big-endian integers.  A byte is a [Z] in [0, 256). *)
From S2P Require Import Prelude.

Definition zlen {A} (l : list A) : Z := Z.of_nat (length l).
Definition bytes_ok (l : list Z) : Prop := Forall is_u8 l.

(** The [n] elements from offset [off]. *)
Definition slice {A} (l : list A) (off n : Z) : list A :=
  take (Z.to_nat n) (drop (Z.to_nat off) l).

(** [l] with the elements from offset [off] overwritten by [new]. *)
Definition splice {A} (l : list A) (off : Z) (new : list A) : list A :=
  take (Z.to_nat off) l ++ new ++ drop (Z.to_nat off + length new) l.

(** [&l[a..b]]: a panic when [a > b] or [b > l.len()]. *)
Definition index_range {E A} (l : list A) (a b : Z) : out E (list A) :=
  if (a <=? b) && (b <=? zlen l) then Ok (slice l a (b - a)) else Panic.

(** [&l[a..]]. *)
Definition index_from {E A} (l : list A) (a : Z) : out E (list A) := index_range l a (zlen l).

(** [l[i]]. *)
Definition index {E A} (l : list A) (i : Z) : out E A :=
  if 0 <=? i then or_panic (l !! Z.to_nat i) else Panic.

(** [l[a..b].copy_from_slice(new)] with [b - a == new.len()]. *)
Definition copy_into {E A} (l : list A) (a b : Z) (new : list A) : out E (list A) :=
  if (a <=? b) && (b <=? zlen l) && (zlen new =? b - a) then Ok (splice l a new) else Panic.

(** [z.to_le_bytes()] of an [n]-byte integer. *)
Fixpoint le_bytes (n : nat) (z : Z) : list Z :=
  match n with
  | O => []
  | S n => z mod 256 :: le_bytes n (z / 256)
  end.

(** [from_le_bytes]. *)
Fixpoint from_le (l : list Z) : Z :=
  match l with
  | [] => 0
  | b :: l => b + 256 * from_le l
  end.

(** [from_be_bytes]. *)
Definition from_be (l : list Z) : Z := from_le (reverse l).

(** ** Lemmas *)
Lemma zlen_app {A} (l1 l2 : list A) : zlen (l1 ++ l2) = zlen l1 + zlen l2.
Proof. unfold zlen. rewrite length_app. lia. Qed.
Lemma zlen_cons {A} (x : A) l : zlen (x :: l) = 1 + zlen l.
Proof. unfold zlen. simpl. lia. Qed.
Lemma zlen_nil {A} : zlen (@nil A) = 0.
Proof. done. Qed.
Lemma zlen_nonneg {A} (l : list A) : 0 <= zlen l.
Proof. unfold zlen. lia. Qed.
Lemma zlen_replicate {A} n (x : A) : zlen (replicate n x) = Z.of_nat n.
Proof. unfold zlen. by rewrite length_replicate. Qed.
Lemma zlen_take {A} n (l : list A) : zlen (take n l) = Z.min (Z.of_nat n) (zlen l).
Proof. unfold zlen. rewrite length_take. lia. Qed.
Lemma zlen_drop {A} n (l : list A) : zlen (drop n l) = Z.max 0 (zlen l - Z.of_nat n).
Proof. unfold zlen. rewrite length_drop. lia. Qed.
Lemma zlen_0_nil {A} (l : list A) : zlen l = 0 -> l = [].
Proof. unfold zlen. destruct l; simpl; [done|lia]. Qed.
Lemma zlen_le_bytes n z : zlen (le_bytes n z) = Z.of_nat n.
Proof. unfold zlen. f_equal. revert z. induction n; intros; simpl; auto. Qed.
Lemma length_le_bytes n z : length (le_bytes n z) = n.
Proof. revert z. induction n; intros; simpl; auto. Qed.
Lemma zlen_slice {A} (l : list A) off n :
  0 <= off -> 0 <= n -> zlen (slice l off n) = Z.max 0 (Z.min n (zlen l - off)).
Proof. intros. unfold slice. rewrite zlen_take, zlen_drop. lia. Qed.
Lemma zlen_splice {A} (l : list A) off new :
  0 <= off -> off + zlen new <= zlen l -> zlen (splice l off new) = zlen l.
Proof. intros. unfold splice. rewrite !zlen_app, zlen_take, zlen_drop. unfold zlen in *. lia. Qed.

Create Rewrite HintDb len.
#[export] Hint Rewrite @zlen_app @zlen_cons @zlen_nil @zlen_replicate @zlen_take @zlen_drop
  zlen_le_bytes @length_app @length_take @length_drop @length_replicate length_le_bytes : len.

(** Length goals: normalise every length and call [lia]. *)
Ltac len := autorewrite with len in *; unfold zlen in *; try lia.

Lemma slice_all {A} (l : list A) n : zlen l <= n -> slice l 0 n = l.
Proof. intros. unfold slice. rewrite drop_0. apply take_ge. unfold zlen in *. lia. Qed.

Lemma slice_nil {A} (l : list A) off : slice l off 0 = [].
Proof. done. Qed.

Lemma slice_slice {A} (l : list A) a n b m :
  0 <= a -> 0 <= b -> 0 <= m -> b + m <= n -> slice (slice l a n) b m = slice l (a + b) m.
Proof.
  intros. unfold slice. rewrite skipn_firstn_comm, drop_drop, take_take.
  f_equal; [lia|f_equal; lia].
Qed.

Lemma slice_app_l {A} (l1 l2 : list A) off n :
  0 <= off -> 0 <= n -> off + n <= zlen l1 -> slice (l1 ++ l2) off n = slice l1 off n.
Proof.
  intros. unfold slice. rewrite drop_app_le by (unfold zlen in *; lia).
  rewrite take_app_le; [done|]. rewrite length_drop. unfold zlen in *. lia.
Qed.

Lemma slice_app_r {A} (l1 l2 : list A) off n :
  zlen l1 <= off -> slice (l1 ++ l2) off n = slice l2 (off - zlen l1) n.
Proof.
  intros. unfold slice. rewrite drop_app_ge by (unfold zlen in *; lia).
  f_equal. f_equal. unfold zlen in *. lia.
Qed.

Lemma lookup_slice {A} (l : list A) off n i :
  0 <= off -> (i < Z.to_nat n)%nat -> slice l off n !! i = l !! (Z.to_nat off + i)%nat.
Proof. intros. unfold slice. by rewrite lookup_take_lt, lookup_drop by done. Qed.

Lemma slice_lookup_ge {A} (l : list A) off n i :
  (Z.to_nat n <= i)%nat -> slice l off n !! i = None.
Proof. intros. unfold slice. by rewrite lookup_take_ge by lia. Qed.

Lemma lookup_splice_old {A} (l : list A) off new i :
  0 <= off -> off + zlen new <= zlen l ->
  ~ (off <= Z.of_nat i < off + zlen new) -> splice l off new !! i = l !! i.
Proof.
  intros H0 Hb Hi. unfold splice, zlen in *. destruct (decide (Z.of_nat i < off)).
  - rewrite lookup_app_l by (rewrite length_take; lia). by rewrite lookup_take_lt by lia.
  - rewrite lookup_app_r by (rewrite length_take; lia). rewrite length_take.
    rewrite lookup_app_r by lia. rewrite lookup_drop. f_equal. lia.
Qed.

Lemma lookup_splice_new {A} (l : list A) off new i :
  0 <= off -> off + zlen new <= zlen l ->
  off <= Z.of_nat i < off + zlen new -> splice l off new !! i = new !! (i - Z.to_nat off)%nat.
Proof.
  intros H0 Hb Hi. unfold splice, zlen in *.
  rewrite lookup_app_r by (rewrite length_take; lia). rewrite length_take.
  rewrite lookup_app_l by lia. f_equal. lia.
Qed.

(** Reading back what was written, and reading beside it. *)
Lemma slice_splice_same {A} (l : list A) off new :
  0 <= off -> off + zlen new <= zlen l -> slice (splice l off new) off (zlen new) = new.
Proof.
  intros H0 Hb. apply list_eq. intros i. destruct (decide (Z.of_nat i < zlen new)).
  - rewrite lookup_slice by lia. rewrite lookup_splice_new by lia. f_equal. lia.
  - rewrite slice_lookup_ge by lia. symmetry. apply lookup_ge_None. unfold zlen in *. lia.
Qed.

Lemma slice_splice_disjoint {A} (l : list A) off new a n :
  0 <= off -> off + zlen new <= zlen l -> 0 <= a -> 0 <= n ->
  a + n <= off \/ off + zlen new <= a -> slice (splice l off new) a n = slice l a n.
Proof.
  intros H0 Hb Ha Hn Hd. apply list_eq. intros i. destruct (decide (Z.of_nat i < n)).
  - rewrite !lookup_slice by lia. apply lookup_splice_old; [done|done|lia].
  - by rewrite !slice_lookup_ge by lia.
Qed.

(** A write inside a window is a write of the window. *)
Lemma slice_splice_inside {A} (l : list A) off new a n :
  0 <= a -> a <= off -> off + zlen new <= a + n -> a + n <= zlen l ->
  slice (splice l off new) a n = splice (slice l a n) (off - a) new.
Proof.
  intros Ha Ho Hn Hb. apply list_eq. intros i.
  assert (zlen (slice l a n) = n) as Hlen by (rewrite zlen_slice; pose proof (zlen_nonneg new); lia).
  pose proof (zlen_nonneg new). destruct (decide (Z.of_nat i < n)) as [Hi|Hi].
  - rewrite lookup_slice by lia.
    destruct (decide (off - a <= Z.of_nat i < off - a + zlen new)).
    + rewrite !lookup_splice_new by lia. f_equal. lia.
    + rewrite !lookup_splice_old by lia. by rewrite lookup_slice by lia.
  - rewrite slice_lookup_ge by lia. symmetry. apply lookup_ge_None.
    assert (zlen (splice (slice l a n) (off - a) new) = n) by (rewrite zlen_splice; lia).
    unfold zlen in *. lia.
Qed.

Lemma splice_slice_id {A} (l : list A) off n :
  0 <= off -> 0 <= n -> off + n <= zlen l -> splice l off (slice l off n) = l.
Proof.
  intros. assert (zlen (slice l off n) = n) as Hlen by (rewrite zlen_slice; lia).
  apply list_eq. intros i. destruct (decide (off <= Z.of_nat i < off + n)).
  - rewrite lookup_splice_new by lia. rewrite lookup_slice by lia. f_equal. lia.
  - rewrite lookup_splice_old by lia. done.
Qed.

Lemma slice_concat {A} (l : list A) off n m :
  0 <= off -> 0 <= n -> 0 <= m -> slice l off n ++ slice l (off + n) m = slice l off (n + m).
Proof.
  intros. unfold slice. rewrite (Z2Nat.inj_add n m) by lia.
  rewrite (Z2Nat.inj_add off n) by lia. rewrite <- drop_drop.
  by rewrite take_take_drop.
Qed.

Lemma splice_app {A} (l1 l2 new : list A) off :
  zlen l1 = off -> splice (l1 ++ l2) off new = l1 ++ new ++ drop (length new) l2.
Proof.
  intros <-. unfold splice, zlen. rewrite Nat2Z.id, take_app_length. do 2 f_equal.
  rewrite drop_app_ge by lia. f_equal. lia.
Qed.

(** Two adjacent writes are one. *)
Lemma splice_splice_adj {A} (l a b : list A) off :
  0 <= off -> off + zlen a + zlen b <= zlen l ->
  splice (splice l off a) (off + zlen a) b = splice l off (a ++ b).
Proof.
  intros H0 Hb. pose proof (zlen_nonneg a). pose proof (zlen_nonneg b).
  assert (zlen (splice l off a) = zlen l) as Hl by (apply zlen_splice; lia).
  apply list_eq. intros i.
  destruct (decide (off + zlen a <= Z.of_nat i < off + zlen a + zlen b)) as [Hi|Hi].
  - rewrite lookup_splice_new, (lookup_splice_new l) by (rewrite ?zlen_app; lia).
    rewrite lookup_app_r by (unfold zlen in *; lia). f_equal. unfold zlen in *. lia.
  - rewrite lookup_splice_old by lia. destruct (decide (off <= Z.of_nat i < off + zlen a)).
    + rewrite !lookup_splice_new by (rewrite ?zlen_app; lia).
      by rewrite lookup_app_l by (unfold zlen in *; lia).
    + by rewrite !lookup_splice_old by (rewrite ?zlen_app; lia).
Qed.

Lemma splice_0 {A} (l new : list A) : splice l 0 new = new ++ drop (length new) l.
Proof. done. Qed.

Lemma splice_nil {A} (l : list A) off : 0 <= off <= zlen l -> splice l off [] = l.
Proof. intros. unfold splice. simpl. rewrite Nat.add_0_r. apply take_drop. Qed.

(** [c'] differs from [c] inside [lo, hi) only. *)
Definition same_outside {A} (c c' : list A) (lo hi : Z) : Prop :=
  zlen c' = zlen c /\ forall i, ~ (lo <= Z.of_nat i < hi) -> c' !! i = c !! i.

Lemma same_outside_refl {A} (c : list A) lo hi : same_outside c c lo hi.
Proof. by split. Qed.

Lemma same_outside_splice {A} (c new : list A) off lo hi :
  0 <= off -> off + zlen new <= zlen c -> lo <= off -> off + zlen new <= hi ->
  same_outside c (splice c off new) lo hi.
Proof.
  intros. split; [by apply zlen_splice|]. intros i Hi. apply lookup_splice_old; lia.
Qed.

Lemma same_outside_trans {A} (c1 c2 c3 : list A) lo hi :
  same_outside c1 c2 lo hi -> same_outside c2 c3 lo hi -> same_outside c1 c3 lo hi.
Proof. intros [H1 H2] [H3 H4]. split; [lia|]. intros i Hi. by rewrite H4, H2. Qed.

Lemma same_outside_mono {A} (c c' : list A) lo hi lo' hi' :
  same_outside c c' lo hi -> lo' <= lo -> hi <= hi' -> same_outside c c' lo' hi'.
Proof. intros [H1 H2] Hl Hh. split; [done|]. intros i Hi. apply H2. lia. Qed.

Lemma same_outside_slice {A} (c c' : list A) lo hi off n :
  same_outside c c' lo hi -> 0 <= off -> 0 <= n -> off + n <= lo \/ hi <= off ->
  slice c' off n = slice c off n.
Proof.
  intros [Hl Hc] H0 Hn Hd. apply list_eq. intros i. destruct (decide (Z.of_nat i < n)).
  - rewrite !lookup_slice by lia. apply Hc. lia.
  - by rewrite !slice_lookup_ge by lia.
Qed.

Lemma splice_slice_outside {A} (c c' : list A) lo n :
  same_outside c c' lo (lo + n) -> 0 <= lo -> 0 <= n -> lo + n <= zlen c ->
  splice c lo (slice c' lo n) = c'.
Proof.
  intros [Hl Hc] H0 Hn Hb. assert (zlen (slice c' lo n) = n) as Hs by (rewrite zlen_slice; lia).
  apply list_eq. intros i. destruct (decide (lo <= Z.of_nat i < lo + n)).
  - rewrite lookup_splice_new by lia. rewrite lookup_slice by lia. f_equal. lia.
  - rewrite lookup_splice_old by lia. symmetry. by apply Hc.
Qed.

(** Reading a window, changing it and writing it back changes just that part. *)
Lemma splice_window {A} (c new : list A) lo n off :
  0 <= lo -> 0 <= off -> off + zlen new <= n -> lo + n <= zlen c ->
  splice c lo (splice (slice c lo n) off new) = splice c (lo + off) new.
Proof.
  intros Hlo Hoff Hn Hb. pose proof (zlen_nonneg new).
  assert (same_outside c (splice c (lo + off) new) lo (lo + n)) as Hso
    by (apply same_outside_splice; lia).
  rewrite <- (splice_slice_outside c _ lo n Hso) by lia.
  f_equal. rewrite slice_splice_inside by lia. f_equal. lia.
Qed.

Lemma slice_prefix {A} (l : list A) off m n :
  0 <= off -> 0 <= m <= n -> slice l off m = slice (slice l off n) 0 m.
Proof. intros. rewrite slice_slice by lia. by rewrite Z.add_0_r. Qed.

(** Rust's checked slicing inside the bounds. *)
Lemma index_range_ok {E A} (l : list A) a b :
  0 <= a <= b -> b <= zlen l -> index_range (E:=E) l a b = Ok (slice l a (b - a)).
Proof.
  intros. unfold index_range.
  destruct (Z.leb_spec a b), (Z.leb_spec b (zlen l)); [done|lia..].
Qed.

Lemma copy_into_ok {E A} (l : list A) a b new :
  0 <= a <= b -> b <= zlen l -> zlen new = b - a -> copy_into (E:=E) l a b new = Ok (splice l a new).
Proof.
  intros ? ? Hn. unfold copy_into. rewrite Hn.
  destruct (Z.leb_spec a b), (Z.leb_spec b (zlen l)), (Z.eqb_spec (b - a) (b - a)); [done|lia..].
Qed.

Lemma splice_all {A} (l new : list A) : zlen new = zlen l -> splice l 0 new = new.
Proof.
  intros H. unfold splice. simpl. rewrite drop_ge, app_nil_r; [done|]. unfold zlen in *. lia.
Qed.

Lemma bytes_ok_slice l off n : bytes_ok l -> bytes_ok (slice l off n).
Proof. intros. by apply Forall_take, Forall_drop. Qed.

Lemma bytes_ok_splice l off new : bytes_ok l -> bytes_ok new -> bytes_ok (splice l off new).
Proof. intros. apply Forall_app; split; [by apply Forall_take|]. apply Forall_app; split; [done|by apply Forall_drop]. Qed.

Lemma bytes_ok_replicate n : bytes_ok (replicate n 0).
Proof. by apply Forall_replicate. Qed.

(** *** Integers *)
Lemma le_bytes_ok n z : bytes_ok (le_bytes n z).
Proof.
  revert z. induction n as [|n IH]; intros z; simpl; constructor; [|apply IH].
  apply Z.mod_pos_bound. done.
Qed.

Lemma from_le_bound l : bytes_ok l -> 0 <= from_le l < 256 ^ zlen l.
Proof.
  induction 1 as [|b l Hb Hl IH]; [done|]. simpl. rewrite zlen_cons.
  rewrite Z.pow_add_r by (pose proof (zlen_nonneg l); lia). change (256 ^ 1) with 256.
  unfold is_u8 in Hb. lia.
Qed.

Lemma from_le_bytes n z : from_le (le_bytes n z) = z mod 256 ^ Z.of_nat n.
Proof.
  revert z. induction n as [|n IH]; intros z; [by rewrite Z.mod_1_r|].
  cbn [le_bytes from_le]. rewrite IH, Nat2Z.inj_succ, Z.pow_succ_r by lia.
  rewrite Z.rem_mul_r; [lia|done|]. apply Z.pow_pos_nonneg; lia.
Qed.

Lemma from_le_bytes_id n z : 0 <= z < 256 ^ Z.of_nat n -> from_le (le_bytes n z) = z.
Proof. intros. rewrite from_le_bytes. by apply Z.mod_small. Qed.

(** Reads one field of a record laid out as a concatenation of fields. *)
Ltac slice_field :=
  repeat match goal with
  | |- context [slice (le_bytes ?n ?z ++ ?l) ?off ?m] =>
      first [ rewrite (slice_app_l (le_bytes n z) l off m) by (rewrite ?zlen_le_bytes; lia)
            | rewrite (slice_app_r (le_bytes n z) l off m) by (rewrite ?zlen_le_bytes; lia);
              rewrite (zlen_le_bytes n z);
              let o := eval vm_compute in (off - Z.of_nat n) in
              change (off - Z.of_nat n) with o ]
  | |- context [slice (le_bytes ?n ?z) 0 ?m] =>
      rewrite (slice_all (le_bytes n z) m) by (rewrite zlen_le_bytes; lia)
  | |- context [from_le (le_bytes ?n ?z)] => rewrite (from_le_bytes_id n z) by lia
  end.

Lemma le_bytes_from n l : bytes_ok l -> length l = n -> le_bytes n (from_le l) = l.
Proof.
  intros Hok <-. induction Hok as [|b l Hb Hl IH]; [done|]. simpl. unfold is_u8 in Hb.
  replace ((b + 256 * from_le l) mod 256) with b by lia.
  replace ((b + 256 * from_le l) / 256) with (from_le l) by lia. by rewrite IH.
Qed.

(** *** Big-endian *)
Lemma from_be_snoc l b : from_be (l ++ [b]) = from_be l * 256 + b.
Proof. unfold from_be. rewrite reverse_snoc. cbn [from_le]. lia. Qed.

Lemma from_be_bound l : bytes_ok l -> 0 <= from_be l < 256 ^ zlen l.
Proof.
  intros Hl. unfold from_be. replace (zlen l) with (zlen (reverse l)) by (unfold zlen; by rewrite length_reverse).
  apply from_le_bound. by apply Forall_reverse.
Qed.

Lemma lor_shift8 a b : 0 <= a -> is_u8 b -> Z.lor (Z.shiftl a 8) b = a * 256 + b.
Proof.
  intros Ha Hb. pose proof (Z.add_lor_land (Z.shiftl a 8) b) as Hadd.
  rewrite (Z.shiftl_mul_pow2 a 8) in Hadd at 3 by lia.
  assert (Z.land (Z.shiftl a 8) b = 0) as Hl; [|lia].
  apply Z.bits_inj'. intros i Hi. rewrite Z.land_spec, Z.bits_0.
  destruct (Z.lt_ge_cases i 8); [by rewrite Z.shiftl_spec_low|].
  rewrite <- (Z.mod_small b (2 ^ 8)) by (unfold is_u8 in Hb; lia).
  by rewrite Z.mod_pow2_bits_high, andb_false_r by lia.
Qed.

Lemma index_lookup {E A} (l : list A) i x : 0 <= i -> l !! Z.to_nat i = Some x -> index (E := E) l i = Ok x.
Proof. intros Hi Hl. unfold index. destruct (Z.leb_spec 0 i); [by rewrite Hl|lia]. Qed.

(** Reading the middle of a buffer [pre ++ mid ++ post]. *)
Lemma index_mid {E} (l pre mid post : list Z) a b :
  l = pre ++ mid ++ post -> a = zlen pre -> b = zlen pre + zlen mid ->
  index_range (E:=E) l a b = Ok mid.
Proof.
  intros -> -> ->. pose proof (zlen_nonneg pre). pose proof (zlen_nonneg mid). pose proof (zlen_nonneg post).
  rewrite index_range_ok by (rewrite ?zlen_app; lia). f_equal. unfold slice, zlen.
  rewrite Nat2Z.id, drop_app_length.
  replace (Z.to_nat _) with (length mid) by lia. apply take_app_length.
Qed.

Lemma index_at {E} (l pre : list Z) z post a :
  l = pre ++ [z] ++ post -> a = zlen pre -> index (E:=E) l a = Ok z.
Proof.
  intros -> ->. unfold index. rewrite (proj2 (Z.leb_le _ _) (zlen_nonneg pre)). unfold zlen.
  rewrite Nat2Z.id, lookup_app_r, Nat.sub_diag by lia. done.
Qed.

Definition be_bytes (n : nat) (z : Z) : list Z := reverse (le_bytes n z).
Lemma zlen_be_bytes n z : zlen (be_bytes n z) = Z.of_nat n.
Proof. unfold be_bytes, zlen. by rewrite length_reverse, length_le_bytes. Qed.
Lemma from_be_bytes_id n z : 0 <= z < 256 ^ Z.of_nat n -> from_be (be_bytes n z) = z.
Proof. intros. unfold from_be, be_bytes. rewrite reverse_involutive. by apply from_le_bytes_id. Qed.
