(* ===== verification/Bitmap.v ===== *)
(** * Word bitmaps

    The bitmap of 64-bit words that [storage/block_alloc.rs] (one bit per
    data block) and [mem/phys.rs] (one bit per page) share: testing, setting
    and clearing a bit by [word = idx / 64], [bit = idx % 64], the search for
    the first used bit of a run and the marking of a run. *)
From S2P Require Import Prelude.

(** [bitmap[word] & (1u64 << bit) != 0], with the bounds check of the index. *)
Definition bit_test {E} (bm : list Z) (idx : Z) : out E bool :=
  w ← or_panic (bm !! Z.to_nat (idx / 64));
  Ok (negb (Z.land w (Z.shiftl 1 (idx mod 64)) =? 0)).

(** [bitmap[word] |= 1u64 << bit]. *)
Definition bit_set {E} (bm : list Z) (idx : Z) : out E (list Z) :=
  w ← or_panic (bm !! Z.to_nat (idx / 64));
  Ok (<[Z.to_nat (idx / 64) := Z.lor w (Z.shiftl 1 (idx mod 64))]> bm).

(** [bitmap[word] &= !(1u64 << bit)]. *)
Definition bit_clear {E} (bm : list Z) (idx : Z) : out E (list Z) :=
  w ← or_panic (bm !! Z.to_nat (idx / 64));
  Ok (<[Z.to_nat (idx / 64) := Z.land w (not64 (Z.shiftl 1 (idx mod 64)))]> bm).

(** [for i in 0..count { let idx = start + i; if used(idx) { .. break } }]:
    the first used index of the run, or [None] when the run is free. *)
Definition first_used {E} (bm : list Z) (start count : Z) : out E (option Z) :=
  find_first (bit_test bm) ((fun i => start ⊞ i) <$> seqZ 0 count).

(** [for i in 0..count { bitmap[..] |= .. }]. *)
Definition set_run {E} (bm : list Z) (start count : Z) : out E (list Z) :=
  for_range 0 count (fun i bm => bit_set bm (start ⊞ i)) bm.

(** ** The abstract view: which bits are set. *)
Definition bit_at (bm : list Z) (i : Z) : bool :=
  match bm !! Z.to_nat (i / 64) with
  | Some w => Z.testbit w (i mod 64)
  | None => false
  end.

Definition words_ok (bm : list Z) : Prop := Forall is_u64 bm.

(** The used indices among the first [n].  The set is sealed: reasoning goes
    through [elem_of_used], and conversion never enumerates a bitmap. *)
Definition used_def (bm : list Z) (n : Z) : gset Z :=
  filter (fun i => bit_at bm i = true) (zrange 0 n).
Definition used_aux : seal used_def. Proof. by eexists. Qed.
Definition used : list Z -> Z -> gset Z := used_aux.(unseal).
Definition used_eq : used = used_def := used_aux.(seal_eq).

(** ** Lemmas *)
Lemma words_ok_lookup bm k w : words_ok bm -> bm !! k = Some w -> is_u64 w.
Proof. apply Forall_lookup_1. Qed.

Lemma land_bit_testbit w b :
  0 <= b -> negb (Z.land w (Z.shiftl 1 b) =? 0) = Z.testbit w b.
Proof.
  intros Hb. rewrite Z.shiftl_1_l.
  destruct (Z.testbit w b) eqn:Ht.
  - apply negb_true_iff, Z.eqb_neq. intros H0.
  apply (f_equal (fun z => Z.testbit z b)) in H0.
  rewrite Z.land_spec, Z.pow2_bits_true, Ht, Z.bits_0 in H0; [done|lia].
  - apply negb_false_iff, Z.eqb_eq. apply Z.bits_inj'. intros j Hj.
  rewrite Z.land_spec, Z.bits_0. destruct (decide (j = b)) as [->|Hne].
    + by rewrite Ht.
    + by rewrite Z.pow2_bits_false, andb_false_r.
Qed.

Lemma testbit_set w b j :
  0 <= b -> 0 <= j ->
  Z.testbit (Z.lor w (Z.shiftl 1 b)) j = bool_decide (j = b) || Z.testbit w j.
Proof.
  intros Hb Hj. rewrite Z.lor_spec, Z.shiftl_1_l, Z.pow2_bits_eqb by lia.
  rewrite orb_comm. f_equal. case_bool_decide; [subst; apply Z.eqb_refl|].
  by apply Z.eqb_neq.
Qed.

Lemma testbit_clear w b j :
  0 <= b < 64 -> 0 <= j < 64 ->
  Z.testbit (Z.land w (not64 (Z.shiftl 1 b))) j = negb (bool_decide (j = b)) && Z.testbit w j.
Proof.
  intros Hb Hj. unfold not64.
  rewrite Z.land_spec, Z.lxor_spec, Z.shiftl_1_l, Z.pow2_bits_eqb by lia.
  rewrite Z.ones_spec_low by lia. rewrite xorb_true_r, andb_comm. f_equal.
  f_equal. case_bool_decide; [subst; apply Z.eqb_refl|].
  by apply Z.eqb_neq.
Qed.

Lemma is_u64_bits w : is_u64 w <-> 0 <= w /\ forall j, 64 <= j -> Z.testbit w j = false.
Proof.
  unfold is_u64. split.
  - intros [H1 H2]. split; [done|]. intros j Hj.
  destruct (decide (w = 0)) as [->|]; [apply Z.bits_0|].
  apply Z.bits_above_log2; [done|]. apply Z.log2_lt_pow2; [lia|].
    eapply Z.lt_le_trans; [exact H2|]. by apply Z.pow_le_mono_r.
  - intros [H1 H2]. split; [done|].
  destruct (decide (w = 0)) as [->|]; [done|].
  apply Z.log2_lt_pow2; [lia|]. apply Z.nle_gt. intros Hle.
    specialize (H2 _ Hle). rewrite Z.bit_log2 in H2; [done|lia].
Qed.

Lemma is_u64_set w b : is_u64 w -> 0 <= b < 64 -> is_u64 (Z.lor w (Z.shiftl 1 b)).
Proof.
  rewrite !is_u64_bits. intros [Hw Hbits] Hb. split.
  - apply Z.lor_nonneg. split; [done|]. rewrite Z.shiftl_1_l. apply Z.pow_nonneg. lia.
  - intros j Hj. rewrite testbit_set by lia. rewrite Hbits by done.
  rewrite bool_decide_false by lia. done.
Qed.

Lemma is_u64_clear w b : is_u64 w -> 0 <= b < 64 -> is_u64 (Z.land w (not64 (Z.shiftl 1 b))).
Proof.
  rewrite !is_u64_bits. intros [Hw Hbits] Hb. split.
  - apply Z.land_nonneg. by left.
  - intros j Hj. by rewrite Z.land_spec, Hbits.
Qed.

Section bitmap.
Context {E : Type}.
Implicit Types bm : list Z.

Lemma word_lookup bm i :
    0 <= i < 64 * Z.of_nat (length bm) -> is_Some (bm !! Z.to_nat (i / 64)).
Proof. intros Hi. apply lookup_lt_is_Some. lia. Qed.

Lemma bit_test_ok bm i :
    0 <= i < 64 * Z.of_nat (length bm) -> bit_test (E:=E) bm i = Ok (bit_at bm i).
Proof.
  intros Hi. unfold bit_test, bit_at. destruct (word_lookup bm i Hi) as [w ->]. simpl.
  by rewrite land_bit_testbit by lia.
Qed.

Lemma bit_test_oob bm i :
    64 * Z.of_nat (length bm) <= i -> bit_test (E:=E) bm i = Panic.
Proof.
  intros Hi. unfold bit_test. rewrite lookup_ge_None_2 by lia. done.
Qed.

Lemma bit_set_ok bm i :
    0 <= i < 64 * Z.of_nat (length bm) -> words_ok bm ->
    exists bm', bit_set (E:=E) bm i = Ok bm' /\ length bm' = length bm /\ words_ok bm' /\
      forall j, 0 <= j -> bit_at bm' j = bool_decide (j = i) || bit_at bm j.
Proof.
  intros Hi Hok. unfold bit_set. destruct (word_lookup bm i Hi) as [w Hw]. rewrite Hw. simpl.
  assert (is_u64 w) by (eapply Forall_lookup_1; eauto).
  eexists. split; [done|]. split; [by rewrite length_insert|]. split.
  { apply Forall_insert; [done|]. apply is_u64_set; [done|]. apply Z.mod_pos_bound. lia. }
  intros j Hj. unfold bit_at.
  destruct (decide (i / 64 = j / 64)) as [Heq|Hne].
  - rewrite <- Heq, list_lookup_insert_eq, Hw by (apply lookup_lt_is_Some; eauto).
      rewrite testbit_set by lia. f_equal. apply bool_decide_ext. lia.
  - rewrite list_lookup_insert_ne by lia. rewrite bool_decide_false by congruence. done.
Qed.

Lemma bit_clear_ok bm i :
    0 <= i < 64 * Z.of_nat (length bm) -> words_ok bm ->
    exists bm', bit_clear (E:=E) bm i = Ok bm' /\ length bm' = length bm /\ words_ok bm' /\
      forall j, 0 <= j -> bit_at bm' j = negb (bool_decide (j = i)) && bit_at bm j.
Proof.
  intros Hi Hok. unfold bit_clear. destruct (word_lookup bm i Hi) as [w Hw]. rewrite Hw. simpl.
  assert (is_u64 w) by (eapply Forall_lookup_1; eauto).
  eexists. split; [done|]. split; [by rewrite length_insert|]. split.
  { apply Forall_insert; [done|]. apply is_u64_clear; [done|]. apply Z.mod_pos_bound. lia. }
  intros j Hj. unfold bit_at.
  destruct (decide (i / 64 = j / 64)) as [Heq|Hne].
  - rewrite <- Heq, list_lookup_insert_eq, Hw by (apply lookup_lt_is_Some; eauto).
      rewrite testbit_clear by (split; lia). f_equal. f_equal. apply bool_decide_ext. lia.
  - rewrite list_lookup_insert_ne by lia. rewrite bool_decide_false by congruence. done.
Qed.

Lemma bit_at_replicate_0 n i : bit_at (replicate n 0) i = false.
Proof.
  unfold bit_at. destruct (replicate n 0 !! _) as [w|] eqn:Hw; [|done].
  apply lookup_replicate in Hw as [-> _]. apply Z.bits_0.
Qed.
End bitmap.

(** ** Runs *)
Definition run_free (bm : list Z) (start count : Z) : Prop :=
  forall j, start <= j < start + count -> bit_at bm j = false.

#[export] Instance run_free_dec bm start count : Decision (run_free bm start count).
Proof.
  refine (cast_if (decide (Forall (fun j => bit_at bm j = false) (seqZ start count))));
  unfold run_free; rewrite Forall_forall in *; setoid_rewrite elem_of_seqZ in f || setoid_rewrite elem_of_seqZ in n; naive_solver.
Defined.

Section runs.
Context {E : Type}.
Implicit Types bm : list Z.

Lemma run_seq_wrap start count :
    0 <= start -> start + count <= 2 ^ 64 ->
    (fun i => start ⊞ i) <$> seqZ 0 count = seqZ start count.
Proof.
  intros H1 H2. trans (Z.add start <$> seqZ 0 count); [|by rewrite fmap_add_seqZ, Z.add_0_r].
  apply list_fmap_ext. intros k i Hk.
  apply list_elem_of_lookup_2, elem_of_seqZ in Hk. by unwrap.
Qed.

Lemma first_used_cases bm start count :
    0 <= start -> 0 <= count -> start + count <= 64 * Z.of_nat (length bm) ->
    start + count <= 2 ^ 64 ->
    (first_used (E:=E) bm start count = Ok None /\ run_free bm start count) \/
    (exists idx, first_used (E:=E) bm start count = Ok (Some idx) /\
       start <= idx < start + count /\ bit_at bm idx = true /\ run_free bm start (idx - start)).
Proof.
  intros H0 Hc Hlen Hov. unfold first_used. rewrite run_seq_wrap by done.
  rewrite (find_first_spec _ (bit_at bm)).
    2:{ intros i Hi%elem_of_seqZ. apply bit_test_ok. lia. }
  destruct (list_find _ _) as [[k idx]|] eqn:Hf; simpl.
  - right. exists idx. apply list_find_Some in Hf as (Hk & Hb & Hbefore).
      apply lookup_seqZ in Hk as [-> Hk].
      split; [done|]. split; [lia|]. split; [done|].
      intros j Hj. specialize (Hbefore (Z.to_nat (j - start)) j).
      destruct (bit_at bm j) eqn:Hbj; [|done]. exfalso. apply Hbefore.
      + apply lookup_seqZ. lia.
      + lia.
      + done.
  - left. split; [done|]. apply list_find_None in Hf. rewrite Forall_forall in Hf.
      intros j Hj. specialize (Hf j). rewrite elem_of_seqZ in Hf.
      destruct (bit_at bm j); [|done]. exfalso. apply Hf; [lia|done].
Qed.

Lemma set_run_ok bm start count :
    0 <= start -> 0 <= count -> start + count <= 64 * Z.of_nat (length bm) ->
    start + count <= 2 ^ 64 -> words_ok bm ->
    exists bm', set_run (E:=E) bm start count = Ok bm' /\ length bm' = length bm /\ words_ok bm' /\
      forall j, 0 <= j -> bit_at bm' j = bool_decide (start <= j < start + count) || bit_at bm j.
Proof.
  intros H0 Hc Hlen Hov Hok. unfold set_run.
  apply (for_range_inv (fun i bm' => length bm' = length bm /\ words_ok bm' /\
      forall j, 0 <= j -> bit_at bm' j = bool_decide (start <= j < start + i) || bit_at bm j) 0 count);
      [done| |].
  - split; [done|]. split; [done|]. intros j Hj. rewrite bool_decide_false by lia. done.
  - intros i t Hi (Hlt & Hokt & Hbits). unwrap.
      destruct (bit_set_ok (E:=E) t (start + i)) as (t' & -> & Hlt' & Hokt' & Hbits'); [lia|done|].
      exists t'. split; [done|]. split; [congruence|]. split; [done|].
      intros j Hj. rewrite Hbits', Hbits, orb_assoc by done. f_equal.
      repeat case_bool_decide; try done; lia.
Qed.
End runs.

Lemma elem_of_used bm n i : i ∈ used bm n <-> 0 <= i < n /\ bit_at bm i = true.
Proof. rewrite used_eq. unfold used_def. rewrite elem_of_filter, elem_of_zrange, Z.add_0_l. tauto. Qed.

Lemma used_size_bound bm n : 0 <= n -> 0 <= Z.of_nat (size (used bm n)) <= n.
Proof.
  intros Hn. split; [lia|]. rewrite <- (size_zrange 0 n) at 2 by done.
  apply Nat2Z.inj_le, subseteq_size. intros j. rewrite elem_of_used, elem_of_zrange. lia.
Qed.

Lemma used_set_run bm bm' n start count :
  0 <= start -> start + count <= n ->
  (forall j, 0 <= j -> bit_at bm' j = bool_decide (start <= j < start + count) || bit_at bm j) ->
  used bm' n = used bm n ∪ zrange start count.
Proof.
  intros H0 Hn Hbits. apply set_eq. intros j.
  rewrite elem_of_union, !elem_of_used, elem_of_zrange.
  destruct (decide (0 <= j)) as [Hj|]; [|lia]. rewrite Hbits by done.
  rewrite orb_true_iff, bool_decide_eq_true. destruct (bit_at bm j); intuition lia.
Qed.

Lemma size_union_disjoint (X Y : gset Z) :
  X ## Y -> Z.of_nat (size (X ∪ Y)) = Z.of_nat (size X) + Z.of_nat (size Y).
Proof. intros. rewrite size_union by done. lia. Qed.

Lemma run_free_disjoint bm n start count :
  run_free bm start count -> used bm n ## zrange start count.
Proof.
  intros Hf j [_ Hj]%elem_of_used Hr%elem_of_zrange. rewrite Hf in Hj; [done|lia].
Qed.

(** A bitmap of well-formed words is determined by its bits. *)
Lemma bitmap_ext bm1 bm2 :
  length bm1 = length bm2 -> words_ok bm1 -> words_ok bm2 ->
  (forall j, 0 <= j < 64 * Z.of_nat (length bm1) -> bit_at bm1 j = bit_at bm2 j) ->
  bm1 = bm2.
Proof.
  intros Hlen H1 H2 Hbits. apply (list_eq_same_length _ _ (length bm1)); [by rewrite Hlen|reflexivity|].
  intros k w1 w2 Hk Hw1 Hw2.
  destruct (proj1 (is_u64_bits w1) (words_ok_lookup _ _ _ H1 Hw1)) as [Hn1 Hh1].
  destruct (proj1 (is_u64_bits w2) (words_ok_lookup _ _ _ H2 Hw2)) as [Hn2 Hh2].
  apply Z.bits_inj'. intros j Hj.
  destruct (decide (j < 64)) as [Hj64|]; [|by rewrite Hh1, Hh2 by lia].
  specialize (Hbits (64 * Z.of_nat k + j)). unfold bit_at in Hbits.
  replace (Z.to_nat ((64 * Z.of_nat k + j) / 64)) with k in Hbits by lia.
  replace ((64 * Z.of_nat k + j) mod 64) with j in Hbits by lia.
  rewrite Hw1, Hw2 in Hbits. apply Hbits. lia.
Qed.

Lemma used_ext bm1 bm2 n :
  length bm1 = length bm2 -> words_ok bm1 -> words_ok bm2 -> n = 64 * Z.of_nat (length bm1) ->
  used bm1 n = used bm2 n -> bm1 = bm2.
Proof.
  intros Hlen H1 H2 -> Heq. apply bitmap_ext; [done..|]. intros j Hj.
  assert (j ∈ used bm1 (64 * Z.of_nat (length bm1)) <->
          j ∈ used bm2 (64 * Z.of_nat (length bm1))) as Hiff by (by rewrite Heq).
  rewrite !elem_of_used in Hiff. destruct (bit_at bm1 j), (bit_at bm2 j); [done| | |done]; exfalso.
  - destruct Hiff as [Hiff _]. by destruct Hiff.
  - destruct Hiff as [_ Hiff]. by destruct Hiff.
Qed.

Lemma used_set_bit bm bm' n i :
  0 <= i < n ->
  (forall j, 0 <= j -> bit_at bm' j = bool_decide (j = i) || bit_at bm j) ->
  used bm' n = {[i]} ∪ used bm n.
Proof.
  intros Hi Hbits. apply set_eq. intros j.
  rewrite elem_of_union, elem_of_singleton, !elem_of_used.
  destruct (decide (0 <= j)); [|lia]. rewrite Hbits by done.
  rewrite orb_true_iff, bool_decide_eq_true. intuition lia.
Qed.

Lemma used_clear_bit bm bm' n i :
  (forall j, 0 <= j -> bit_at bm' j = negb (bool_decide (j = i)) && bit_at bm j) ->
  used bm' n = used bm n ∖ {[i]}.
Proof.
  intros Hbits. apply set_eq. intros j.
  rewrite elem_of_difference, elem_of_singleton, !elem_of_used.
  destruct (decide (0 <= j)); [|lia]. rewrite Hbits by done.
  rewrite andb_true_iff, negb_true_iff, bool_decide_eq_false. tauto.
Qed.

Lemma size_insert_Z (X : gset Z) i :
  i ∉ X -> Z.of_nat (size ({[i]} ∪ X)) = Z.of_nat (size X) + 1.
Proof.
  intros Hi. rewrite size_union by (intros j ->%elem_of_singleton; done).
  rewrite size_singleton. lia.
Qed.

Lemma size_delete_Z (X : gset Z) i :
  i ∈ X -> Z.of_nat (size (X ∖ {[i]})) = Z.of_nat (size X) - 1.
Proof.
  intros. assert (X = {[i]} ∪ X ∖ {[i]}) as HX by (apply union_difference_L; intros j ->%elem_of_singleton; done).
  rewrite HX at 2. rewrite size_insert_Z; [lia|].
  intros [_ Hn]%elem_of_difference. by apply Hn, elem_of_singleton.
Qed.

Lemma size_difference_le (X Y : gset Z) : (size (X ∖ Y) <= size X)%nat.
Proof. apply subseteq_size. intros j. rewrite elem_of_difference. tauto. Qed.

Lemma bit_at_true_used bm n i : 0 <= i < n -> bit_at bm i = true -> i ∈ used bm n.
Proof. intros. by apply elem_of_used. Qed.

Lemma bit_at_false_used bm n i : bit_at bm i = false -> i ∉ used bm n.
Proof. intros Hb [_ ?]%elem_of_used. congruence. Qed.

#[export] Hint Resolve bit_at_true_used bit_at_false_used : rust.
