(* ===== verification/Phys.v ===== *)
(** * Physical page allocator ([mem/phys.rs])

    [AllocatorInner] with its operations [init], [mark_used],
    [alloc_pages_contiguous], [alloc_page] and [free_pages]; the spin lock
    around it makes each operation atomic.  The abstract view of a state is
    the set of used pages ([used_pages]). *)
From S2P Require Import Prelude Bitmap.

Module Phys.

Inductive AllocError := OutOfMemory | InvalidAlignment | InvalidSize.

#[export] Instance AllocError_eq_dec : EqDecision AllocError.
Proof. solve_decision. Defined.

Definition PAGE_SIZE : Z := 4096.
Definition MAX_PAGES : Z := 1024 * 1024.
Definition BITMAP_WORDS : Z := MAX_PAGES / 64.

Record AllocatorInner := mkInner {
  bitmap : list Z;
  total_pages : Z;
  free_pages_count : Z;
}.

Definition new : AllocatorInner := {|
  bitmap := replicate (Z.to_nat BITMAP_WORDS) 0xFFFFFFFFFFFFFFFF;
  total_pages := 0;
  free_pages_count := 0;
|}.

(** [usize::is_power_of_two]. *)
Definition is_power_of_two (a : Z) : bool := (0 <? a) && (a =? 2 ^ Z.log2 a).

(** Frees one page of a usable region, if it is not free yet. *)
Definition init_page (page : Z) (acc : list Z * Z) : out Empty_set (list Z * Z) :=
  let '(bm, free) := acc in
  b ← bit_test bm page;
  if (b : bool) then bm' ← bit_clear bm page; Ok (bm', free ⊞ 1)
  else Ok (bm, free).

Definition init_region (region : Z * Z) (acc : list Z * Z) : out Empty_set (list Z * Z) :=
  let '(base, length) := region in
  let start_page := ((base ⊞ PAGE_SIZE) ⊟ 1) / PAGE_SIZE in
  let end_page := (base ⊞ length) / PAGE_SIZE in
  for_range start_page (Z.min end_page MAX_PAGES) init_page acc.

Definition init (regions : list (Z * Z)) (s : AllocatorInner) : out Empty_set AllocatorInner :=
  acc ← for_each init_region regions (bitmap s, free_pages_count s);
  let max_addr := foldr (fun r m => Z.max (fst r ⊞ snd r) m) 0 regions in
  Ok {| bitmap := fst acc;
        total_pages := Z.min (max_addr / PAGE_SIZE) MAX_PAGES;
        free_pages_count := snd acc |}.

(** Marks one page as used, if it is tracked and free. *)
Definition mark_page (page : Z) (acc : list Z * Z) : out Empty_set (list Z * Z) :=
  let '(bm, free) := acc in
  if page <? MAX_PAGES then
    b ← bit_test bm page;
    if (b : bool) then Ok (bm, free)
    else bm' ← bit_set bm page; Ok (bm', free ⊟ 1)
  else Ok (bm, free).

Definition mark_used (base count : Z) (s : AllocatorInner) : out Empty_set AllocatorInner :=
  let start_page := base / PAGE_SIZE in
  acc ← for_range start_page (start_page ⊞ count) mark_page (bitmap s, free_pages_count s);
  Ok {| bitmap := fst acc; total_pages := total_pages s; free_pages_count := snd acc |}.

(** The search loop [while candidate + count <= inner.total_pages]: it
    returns the page index of the run that is found.  [fuel] bounds the
    iterations; [alloc_first_fit] shows that the fuel chosen by
    [alloc_pages_contiguous] never runs out. *)
Fixpoint scan (fuel : nat) (bm : list Z) (total count align candidate : Z)
    : out AllocError Z :=
  match fuel with
  | O => Panic
  | S fuel =>
      if candidate ⊞ count <=? total then
        let aligned := align_up64 candidate align in
        if total <? aligned ⊞ count then Err OutOfMemory
        else
          u ← first_used bm aligned count;
          match u with
          | Some page => scan fuel bm total count align (page ⊞ 1)
          | None => Ok aligned
          end
      else Err OutOfMemory
  end.

Definition alloc_pages_contiguous (count align : Z) : st AllocatorInner AllocError Z := fun s =>
  if count =? 0 then (Err InvalidSize, s)
  else if negb (is_power_of_two align) then (Err InvalidAlignment, s)
  else if free_pages_count s <? count then (Err OutOfMemory, s)
  else
    match scan (S (Z.to_nat (total_pages s))) (bitmap s) (total_pages s) count align 0 with
    | Ok aligned =>
        match set_run (bitmap s) aligned count with
        | Ok bm =>
            (Ok (aligned ⊠ PAGE_SIZE),
             {| bitmap := bm; total_pages := total_pages s;
                free_pages_count := free_pages_count s ⊟ count |})
        | Err e => (Err e, s)
        | Panic => (Panic, s)
        end
    | Err e => (Err e, s)
    | Panic => (Panic, s)
    end.

Definition alloc_page : st AllocatorInner AllocError Z := alloc_pages_contiguous 1 1.

(** Frees one page, if it is tracked and used. *)
Definition free_page (page : Z) (acc : list Z * Z) : out Empty_set (list Z * Z) :=
  let '(bm, free) := acc in
  if page <? MAX_PAGES then
    b ← bit_test bm page;
    if (b : bool) then bm' ← bit_clear bm page; Ok (bm', free ⊞ 1)
    else Ok (bm, free)
  else Ok (bm, free).

Definition free_pages (base count : Z) (s : AllocatorInner) : out Empty_set AllocatorInner :=
  let start_page := base / PAGE_SIZE in
  acc ← for_range 0 count (fun i => free_page (start_page ⊞ i)) (bitmap s, free_pages_count s);
  Ok {| bitmap := fst acc; total_pages := total_pages s; free_pages_count := snd acc |}.

Definition free_count (s : AllocatorInner) : Z := free_pages_count s.
Definition total_count (s : AllocatorInner) : Z := total_pages s.

(** ** Abstract view and invariant *)
Definition used_pages (s : AllocatorInner) : gset Z := used (bitmap s) MAX_PAGES.

(** The bitmap part of the invariant: the free counter counts the clear bits. *)
Definition acc_wf (acc : list Z * Z) : Prop :=
  Z.of_nat (length (fst acc)) = BITMAP_WORDS /\ words_ok (fst acc) /\
  snd acc = MAX_PAGES - Z.of_nat (size (used (fst acc) MAX_PAGES)).

Definition wf (s : AllocatorInner) : Prop :=
  acc_wf (bitmap s, free_pages_count s) /\ 0 <= total_pages s <= MAX_PAGES.

(** A run of [count] pages that [alloc_pages_contiguous] may hand out. *)
Definition candidate_run (s : AllocatorInner) (count align p : Z) : Prop :=
  0 <= p /\ (align | p) /\ p + count <= total_pages s /\ run_free (bitmap s) p count.

(** ** Lemmas *)
Lemma MAX_PAGES_eq : MAX_PAGES = 1048576.
Proof. done. Qed.

Lemma MAX_PAGES_nonneg : 0 <= MAX_PAGES.
Proof. done. Qed.

Lemma acc_wf_len acc : acc_wf acc -> 64 * Z.of_nat (length (fst acc)) = MAX_PAGES.
Proof. intros (-> & _). reflexivity. Qed.

Lemma acc_wf_free acc : acc_wf acc -> 0 <= snd acc <= MAX_PAGES.
Proof.
  intros (_ & _ & ->). pose proof (used_size_bound (fst acc) MAX_PAGES MAX_PAGES_nonneg). pose proof MAX_PAGES_eq. lia.
Qed.

Lemma clear_page_wf bm free page :
  acc_wf (bm, free) -> 0 <= page < MAX_PAGES -> bit_at bm page = true ->
  exists bm', bit_clear (E:=Empty_set) bm page = Ok bm' /\ acc_wf (bm', free ⊞ 1) /\
    used bm' MAX_PAGES = used bm MAX_PAGES ∖ {[page]}.
Proof.
  intros Hwf Hp Hb. pose proof (acc_wf_len _ Hwf) as Hlen. destruct Hwf as (Hl & Hok & Hfree).
  simpl in *. destruct (bit_clear_ok (E:=Empty_set) bm page) as (bm' & -> & Hl' & Hok' & Hbits); [lia|done|].
  assert (used bm' MAX_PAGES = used bm MAX_PAGES ∖ {[page]}) as Hu by (by apply used_clear_bit).
  exists bm'. split; [done|]. split; [|done].
  split; [cbn [fst]; by rewrite Hl'|]. split; [done|]. cbn [fst snd].
  pose proof (used_size_bound bm MAX_PAGES MAX_PAGES_nonneg). pose proof MAX_PAGES_eq.
  rewrite Hu, size_delete_Z by eauto with rust. unwrap. lia.
Qed.

Lemma set_page_wf bm free page :
  acc_wf (bm, free) -> 0 <= page < MAX_PAGES -> bit_at bm page = false ->
  exists bm', bit_set (E:=Empty_set) bm page = Ok bm' /\ acc_wf (bm', free ⊟ 1) /\
    used bm' MAX_PAGES = {[page]} ∪ used bm MAX_PAGES.
Proof.
  intros Hwf Hp Hb. pose proof (acc_wf_len _ Hwf) as Hlen. destruct Hwf as (Hl & Hok & Hfree).
  simpl in *. destruct (bit_set_ok (E:=Empty_set) bm page) as (bm' & -> & Hl' & Hok' & Hbits); [lia|done|].
  assert (used bm' MAX_PAGES = {[page]} ∪ used bm MAX_PAGES) as Hu by (by apply used_set_bit).
  exists bm'. split; [done|]. split; [|done].
  split; [cbn [fst]; by rewrite Hl'|]. split; [done|]. cbn [fst snd].
  pose proof (used_size_bound bm' MAX_PAGES MAX_PAGES_nonneg). pose proof MAX_PAGES_eq.
  rewrite Hu, size_insert_Z in * by eauto with rust. unwrap. lia.
Qed.

Lemma init_page_ok page acc :
  acc_wf acc -> 0 <= page < MAX_PAGES ->
  exists acc', init_page page acc = Ok acc' /\ acc_wf acc' /\
    used (fst acc') MAX_PAGES = used (fst acc) MAX_PAGES ∖ {[page]}.
Proof.
  intros Hwf Hp. destruct acc as [bm free]. unfold init_page.
  pose proof (acc_wf_len _ Hwf). simpl in *. rewrite bit_test_ok by lia. simpl.
  destruct (bit_at bm page) eqn:Hb.
  - destruct (clear_page_wf bm free page) as (bm' & -> & ? & ?); [done..|]. simpl. eauto.
  - exists (bm, free). split; [done|]. split; [done|]. simpl.
    apply (bit_at_false_used _ MAX_PAGES) in Hb. zset_ext j. split; [|tauto].
    intros Hj. split; [done|]. by intros ->.
Qed.

Lemma free_page_ok page acc :
  acc_wf acc -> 0 <= page ->
  exists acc', free_page page acc = Ok acc' /\ acc_wf acc' /\
    used (fst acc') MAX_PAGES = used (fst acc) MAX_PAGES ∖ {[page]}.
Proof.
  intros Hwf Hp. destruct acc as [bm free]. unfold free_page.
  destruct (Z.ltb_spec page MAX_PAGES) as [Hlt|Hge].
  - apply (init_page_ok page (bm, free)); [done|lia].
  - exists (bm, free). split; [done|]. split; [done|]. simpl.
    zset_ext j. rewrite elem_of_used. intuition lia.
Qed.

Lemma mark_page_ok page acc :
  acc_wf acc -> 0 <= page ->
  exists acc', mark_page page acc = Ok acc' /\ acc_wf acc' /\
    used (fst acc') MAX_PAGES = used (fst acc) MAX_PAGES ∪ (zrange page 1 ∩ zrange 0 MAX_PAGES).
Proof.
  intros Hwf Hp. destruct acc as [bm free]. unfold mark_page.
  pose proof (acc_wf_len _ Hwf) as Hlen. simpl in Hlen.
  destruct (Z.ltb_spec page MAX_PAGES) as [Hlt|Hge].
  - rewrite bit_test_ok by lia. simpl. destruct (bit_at bm page) eqn:Hb.
    + exists (bm, free). split; [done|]. split; [done|]. simpl.
      apply (bit_at_true_used bm MAX_PAGES) in Hb; [|lia].
      zset_ext j. split; [by left|]. intros [|[Hj _]]; [done|]. by replace j with page by lia.
    + destruct (set_page_wf bm free page) as (bm' & -> & ? & Hu); [done|lia|done|].
      exists (bm', free ⊟ 1). split; [done|]. split; [done|]. simpl. rewrite Hu.
      zset_ext j. intuition lia.
  - exists (bm, free). split; [done|]. split; [done|]. simpl.
    zset_ext j. intuition lia.
Qed.

(** A page range of the loops: the invariant of every [for] above. *)
Lemma page_loop_ok (body : Z -> list Z * Z -> out Empty_set (list Z * Z)) lo hi acc :
  0 <= lo <= hi ->
  (forall page acc, acc_wf acc -> lo <= page < hi ->
     exists acc', body page acc = Ok acc' /\ acc_wf acc' /\
       used (fst acc') MAX_PAGES = used (fst acc) MAX_PAGES ∖ {[page]}) ->
  acc_wf acc ->
  exists acc', for_range lo hi body acc = Ok acc' /\ acc_wf acc' /\
    used (fst acc') MAX_PAGES = used (fst acc) MAX_PAGES ∖ zrange lo (hi - lo).
Proof.
  intros Hlo Hbody Hwf.
  apply (for_range_inv (fun i acc' => acc_wf acc' /\
    used (fst acc') MAX_PAGES = used (fst acc) MAX_PAGES ∖ zrange lo (i - lo)) lo hi); [lia| |].
  - split; [done|]. zset_ext j. intuition lia.
  - intros i t Hi [Hwft Hu]. destruct (Hbody i t Hwft Hi) as (t' & -> & Hwft' & Hu').
    exists t'. split; [done|]. split; [done|]. rewrite Hu', Hu. zset_ext j. intuition lia.
Qed.

Lemma for_range_empty {E S} lo hi (body : Z -> S -> out E S) s :
  hi <= lo -> for_range lo hi body s = Ok s.
Proof. intros H. unfold for_range. by rewrite seqZ_nil by lia. Qed.

(** The pages of a usable region that [init] frees: whole pages only. *)
Definition region_ok (r : Z * Z) : Prop :=
  0 <= fst r /\ 0 <= snd r /\ fst r + snd r < 2 ^ 64 - 4096.
Definition region_first (r : Z * Z) : Z := (fst r + 4095) / 4096.
Definition region_end (r : Z * Z) : Z := Z.min ((fst r + snd r) / 4096) MAX_PAGES.
Definition region_pages (r : Z * Z) : gset Z :=
  zrange (region_first r) (region_end r - region_first r).

Lemma init_region_ok r acc :
  region_ok r -> acc_wf acc ->
  exists acc', init_region r acc = Ok acc' /\ acc_wf acc' /\
    used (fst acc') MAX_PAGES = used (fst acc) MAX_PAGES ∖ region_pages r.
Proof.
  destruct r as [base len]. intros (Hb & Hl & Hov) Hwf. simpl in *.
  unfold init_region, PAGE_SIZE, region_pages, region_first, region_end. simpl. unwrap.
  replace (base + 4096 - 1) with (base + 4095) by lia.
  set (lo := (base + 4095) / 4096). set (hi := Z.min ((base + len) / 4096) MAX_PAGES).
  destruct (decide (lo <= hi)) as [Hle|Hgt].
  - apply page_loop_ok; [split; [lia|done]| |done].
    intros page t Ht Hp. apply init_page_ok; [done|lia].
  - exists acc. rewrite for_range_empty by lia. split; [done|]. split; [done|].
    zset_ext j. intuition lia.
Qed.

Lemma init_regions_ok rs acc :
  Forall region_ok rs -> acc_wf acc ->
  exists acc', for_each init_region rs acc = Ok acc' /\ acc_wf acc' /\
    used (fst acc') MAX_PAGES = used (fst acc) MAX_PAGES ∖ ⋃ (region_pages <$> rs).
Proof.
  intros Hrs. revert acc. induction Hrs as [|r rs Hr Hrs IH]; intros acc Hwf; simpl.
  - exists acc. split; [done|]. split; [done|]. zset_ext j. rewrite elem_of_empty. tauto.
  - destruct (init_region_ok r acc Hr Hwf) as (acc1 & -> & Hwf1 & Hu1). simpl.
    destruct (IH acc1 Hwf1) as (acc2 & -> & Hwf2 & Hu2).
    exists acc2. split; [done|]. split; [done|]. rewrite Hu2, Hu1. zset_ext j. tauto.
Qed.

(** The search loop finds the lowest candidate run at or above [c]. *)
Lemma scan_spec s count align fuel c :
  wf s -> 0 < count <= MAX_PAGES -> is_power_of_two align = true -> align < 2 ^ 64 ->
  0 <= c <= MAX_PAGES + 1 -> Z.max 0 (total_pages s - c) < Z.of_nat fuel ->
  (forall q, candidate_run s count align q -> c <= q) ->
  (exists p, scan fuel (bitmap s) (total_pages s) count align c = Ok p /\
     candidate_run s count align p /\ forall q, candidate_run s count align q -> p <= q) \/
  (scan fuel (bitmap s) (total_pages s) count align c = Err OutOfMemory /\
     forall q, ~ candidate_run s count align q).
Proof.
  intros [Hacc Htot] Hcount Hpow Halign. destruct (pow2_u64_exp align Hpow Halign) as (k & Hk & ->).
  pose proof (acc_wf_len _ Hacc) as Hlen. simpl in Hlen. pose proof MAX_PAGES_eq as Hmax.
  revert c. induction fuel as [|fuel IH]; intros c Hc Hfuel Hlow; [lia|].
  simpl. unwrap. destruct (Z.leb_spec (c + count) (total_pages s)) as [Hle|Hgt].
  2:{ right. split; [done|]. intros q Hq. pose proof (Hlow q Hq). destruct Hq as (_ & _ & Hq & _). lia. }
  assert (2 ^ k <= 2 ^ 63) as Hk63 by (apply Z.pow_le_mono_r; lia).
  destruct (align_up64_spec c k) as (Hal & Hdiv & Hleast); [lia..|].
  set (al := align_up64 c (2 ^ k)) in *. unwrap.
  assert (forall q, candidate_run s count (2 ^ k) q -> al <= q) as Hlow'.
  { intros q Hq. apply Hleast; [apply Hq|by apply Hlow]. }
  destruct (Z.ltb_spec (total_pages s) (al + count)) as [Hover|Hin].
  { right. split; [done|]. intros q Hq. pose proof (Hlow' q Hq). destruct Hq as (_ & _ & Hq & _). lia. }
  destruct (first_used_cases (E:=AllocError) (bitmap s) al count) as [[-> Hfree]|(idx & -> & Hidx & Hb & _)];
    [lia..| |]; simpl.
  - left. exists al. split; [done|]. split; [|done]. repeat split; [lia|done|lia|done].
  - unwrap. apply IH; [lia|lia|]. intros q Hq. pose proof (Hlow' q Hq).
    destruct Hq as (_ & _ & _ & Hfree). destruct (decide (q <= idx)); [|lia].
    rewrite Hfree in Hb; [done|lia].
Qed.

Lemma candidate_fits s count align p :
  wf s -> 0 <= count -> candidate_run s count align p -> count <= free_pages_count s.
Proof.
  intros [(_ & _ & Hfree) Htot] Hc (Hp & _ & Hend & Hrun). simpl in Hfree. rewrite Hfree.
  pose proof (run_free_disjoint _ MAX_PAGES _ _ Hrun) as Hdisj.
  pose proof (size_union_disjoint _ _ Hdisj) as Hsz. rewrite size_zrange in Hsz by done.
  assert (size (used (bitmap s) MAX_PAGES ∪ zrange p count) <= size (zrange 0 MAX_PAGES))%nat as Hle.
  { apply subseteq_size. intros j. rewrite elem_of_union, elem_of_used, !elem_of_zrange. lia. }
  pose proof (size_zrange 0 MAX_PAGES MAX_PAGES_nonneg). lia.
Qed.

(** What a successful allocation of [count] pages at page [p] changes. *)
Definition alloc_post (s : AllocatorInner) (count p : Z) (s' : AllocatorInner) : Prop :=
  wf s' /\ used_pages s' = used_pages s ∪ zrange p count /\
  free_pages_count s' = free_pages_count s - count /\ total_pages s' = total_pages s.

Lemma alloc_cases s count align :
  wf s -> 0 < count -> is_u64 align -> is_power_of_two align = true ->
  (exists p s', alloc_pages_contiguous count align s = (Ok (p * 4096), s') /\
     candidate_run s count align p /\ (forall q, candidate_run s count align q -> p <= q) /\
     alloc_post s count p s') \/
  (alloc_pages_contiguous count align s = (Err OutOfMemory, s) /\
     forall q, ~ candidate_run s count align q).
Proof.
  intros Hwf Hc Hal Hpow. pose proof (acc_wf_free _ (proj1 Hwf)) as Hfb. simpl in Hfb.
  unfold alloc_pages_contiguous. destruct (Z.eqb_spec count 0); [lia|]. rewrite Hpow. simpl negb.
  destruct (Z.ltb_spec (free_pages_count s) count) as [Hlt|Hge].
  { right. split; [done|]. intros q Hq. apply candidate_fits in Hq; [lia|done|lia]. }
  pose proof MAX_PAGES_eq. pose proof (proj2 Hwf) as Htot. destruct Hal as [_ Hal].
  destruct (scan_spec s count align (S (Z.to_nat (total_pages s))) 0)
    as [(p & Hscan & Hp & Hleast)|[Hscan Hnone]]; [done|lia|done|done|lia|lia|by intros q [? _]| |];
    rewrite Hscan; [|by right].
  left. destruct Hp as (Hp0 & Hdiv & Hend & Hrun). destruct Hwf as [Hacc _].
  pose proof (acc_wf_len _ Hacc) as Hlen. destruct Hacc as (Hl & Hok & Hfree). simpl in *.
  destruct (set_run_ok (E:=AllocError) (bitmap s) p count) as (bm & -> & Hl' & Hok' & Hbits); [lia..|done|].
  eexists p, _. split; [unfold PAGE_SIZE; unwrap; done|]. split; [done|]. split; [done|].
  assert (used bm MAX_PAGES = used (bitmap s) MAX_PAGES ∪ zrange p count) as Hu.
  { apply used_set_run; [done|lia|done]. }
  unfold alloc_post, wf, acc_wf. simpl. unfold used_pages. simpl. unwrap.
  rewrite Hl', Hu, size_union_disjoint, size_zrange by first [lia | by apply run_free_disjoint].
  repeat split; [done|done|lia..].
Qed.

Lemma free_pages_ok s base count :
  wf s -> 0 <= base -> 0 <= count -> base / 4096 + count <= 2 ^ 64 ->
  exists s', free_pages base count s = Ok s' /\ wf s' /\ total_pages s' = total_pages s /\
    used_pages s' = used_pages s ∖ zrange (base / 4096) count.
Proof.
  intros [Hacc Htot] Hb Hc Hov. unfold free_pages, PAGE_SIZE. set (p := base / 4096) in *.
  destruct (for_range_inv (fun i acc => acc_wf acc /\
    used (fst acc) MAX_PAGES = used (bitmap s) MAX_PAGES ∖ zrange p i) 0 count
    (fun i => free_page (p ⊞ i)) (bitmap s, free_pages_count s)) as (acc & -> & Hwf & Hu); [done| | |].
  - split; [done|]. zset_ext j. intuition lia.
  - intros i t Hi [Ht Hut]. unwrap.
    destruct (free_page_ok (p + i) t) as (t' & -> & Ht' & Hut'); [done|lia|].
    exists t'. split; [done|]. split; [done|]. rewrite Hut', Hut. zset_ext j. intuition lia.
  - simpl. eexists. split; [done|]. split; [|done]. split; [by destruct acc|done].
Qed.

Lemma mark_used_ok s base count :
  wf s -> 0 <= base -> 0 <= count -> base / 4096 + count < 2 ^ 64 ->
  exists s', mark_used base count s = Ok s' /\ wf s' /\ total_pages s' = total_pages s /\
    used_pages s' = used_pages s ∪ (zrange (base / 4096) count ∩ zrange 0 MAX_PAGES).
Proof.
  intros [Hacc Htot] Hb Hc Hov. unfold mark_used, PAGE_SIZE. set (p := base / 4096) in *.
  destruct (for_range_inv (fun i acc => acc_wf acc /\
    used (fst acc) MAX_PAGES =
      used (bitmap s) MAX_PAGES ∪ (zrange p (i - p) ∩ zrange 0 MAX_PAGES)) p (p ⊞ count)
    mark_page (bitmap s, free_pages_count s)) as (acc & -> & Hwf & Hu); [unwrap; lia| | |].
  - split; [done|]. zset_ext j. intuition lia.
  - intros i t Hi [Ht Hut].
    destruct (mark_page_ok i t) as (t' & -> & Ht' & Hut'); [done|lia|].
    exists t'. split; [done|]. split; [done|]. rewrite Hut', Hut. zset_ext j.
    rewrite ?elem_of_zrange. intuition lia.
  - simpl. eexists. split; [done|]. split; [split; [by destruct acc|done]|]. split; [done|].
    unfold used_pages. simpl. rewrite Hu. unwrap. by replace (p + count - p) with count by lia.
Qed.

Lemma replicate_ones_used n :
  used (replicate n (Z.ones 64)) (64 * Z.of_nat n) = zrange 0 (64 * Z.of_nat n).
Proof.
  apply set_eq. intros j. rewrite elem_of_used, elem_of_zrange. split; [lia|]. intros Hj.
  split; [lia|]. unfold bit_at. rewrite lookup_replicate_2 by lia. apply Z.ones_spec_low. lia.
Qed.

Lemma new_wf : wf new.
Proof.
  assert (forall n, MAX_PAGES = 64 * Z.of_nat n -> acc_wf (replicate n (Z.ones 64), 0)) as Hgen.
  { intros n Hn. unfold acc_wf, BITMAP_WORDS. cbn [fst snd].
    rewrite length_replicate. split; [lia|]. split; [by apply Forall_replicate|].
    rewrite Hn, replicate_ones_used, size_zrange; lia. }
  split; [|done]. by apply (Hgen (Z.to_nat BITMAP_WORDS)).
Qed.

Definition regions_max (rs : list (Z * Z)) : Z := foldr (fun r m => Z.max (fst r + snd r) m) 0 rs.

Lemma regions_max_wrap rs :
  Forall region_ok rs ->
  foldr (fun r m => Z.max (fst r ⊞ snd r) m) 0 rs = regions_max rs /\ 0 <= regions_max rs.
Proof.
  induction 1 as [|r rs (H1 & H2 & H3) Hrs [IH IH']]; [done|]. simpl. rewrite IH.
  unwrap. split; [done|]. unfold regions_max in *. lia.
Qed.

Lemma init_ok s rs :
  wf s -> Forall region_ok rs ->
  exists s', init rs s = Ok s' /\ wf s' /\
    total_pages s' = Z.min (regions_max rs / 4096) MAX_PAGES /\
    used_pages s' = used_pages s ∖ ⋃ (region_pages <$> rs).
Proof.
  intros [Hacc Htot] Hrs. unfold init.
  destruct (init_regions_ok rs (bitmap s, free_pages_count s) Hrs Hacc) as (acc & -> & Hwf & Hu). simpl.
  destruct (regions_max_wrap rs Hrs) as [-> Hmax].
  eexists. split; [done|]. split; [|done]. pose proof MAX_PAGES_eq.
  split; [by destruct acc|]. simpl. unfold PAGE_SIZE. lia.
Qed.

(** ** The contract of [alloc_pages_contiguous] on every branch. *)
Definition alloc_spec (s : AllocatorInner) (count align : Z)
    (r : out AllocError Z * AllocatorInner) : Prop :=
  match r with
  | (Ok addr, s') => exists p, addr = p * 4096 /\ candidate_run s count align p /\
      (forall q, candidate_run s count align q -> p <= q) /\ alloc_post s count p s'
  | (Err InvalidSize, s') => count = 0 /\ s' = s
  | (Err InvalidAlignment, s') => count <> 0 /\ is_power_of_two align = false /\ s' = s
  | (Err OutOfMemory, s') => count <> 0 /\ is_power_of_two align = true /\ s' = s /\
      forall q, ~ candidate_run s count align q
  | (Panic, _) => False
  end.

(** One operation of the allocator, with the ranges the callers pass. *)
Inductive step : AllocatorInner -> AllocatorInner -> Prop :=
| step_init rs s s' : Forall region_ok rs -> init rs s = Ok s' -> step s s'
| step_mark base count s s' : 0 <= base -> 0 <= count -> base / 4096 + count < 2 ^ 64 ->
    mark_used base count s = Ok s' -> step s s'
| step_alloc count align s : is_u64 count -> is_u64 align ->
    step s (snd (alloc_pages_contiguous count align s))
| step_free base count s s' : 0 <= base -> 0 <= count -> base / 4096 + count <= 2 ^ 64 ->
    free_pages base count s = Ok s' -> step s s'.

(** A 16-page machine: pages 1 to 16 are usable. *)
Definition demo : AllocatorInner :=
  match init [(4096, 16 * 4096)] new with Ok s => s | _ => new end.

Lemma demo_wf : wf demo.
Proof.
  unfold demo. destruct (init_ok new [(4096, 16 * 4096)]) as (s & -> & Hwf & _); [apply new_wf| |done].
  repeat constructor; simpl; lia.
Qed.

Lemma alloc_spec_holds s count align :
  wf s -> is_u64 count -> is_u64 align ->
  alloc_spec s count align (alloc_pages_contiguous count align s).
Proof.
  intros Hwf Hc Hal. destruct (decide (count = 0)) as [->|Hne]; [done|].
  destruct (is_power_of_two align) eqn:Hpow.
  - destruct (alloc_cases s count align) as [(p & s' & -> & Hp)|[-> Hnone]];
      [done|unfold is_u64 in Hc; lia|done|done| |].
    + exists p. by destruct Hp.
    + by repeat split.
  - unfold alloc_pages_contiguous. rewrite (proj2 (Z.eqb_neq _ _) Hne), Hpow. simpl. done.
Qed.

Lemma free_undoes s count align addr s' :
  wf s -> is_u64 count -> is_u64 align ->
  alloc_pages_contiguous count align s = (Ok addr, s') ->
  free_pages addr count s' = Ok s.
Proof.
  intros Hwf Hc Hal Halloc. pose proof (alloc_spec_holds s count align Hwf Hc Hal) as Hspec.
  rewrite Halloc in Hspec. destruct Hspec as (p & -> & (Hp & _ & Hend & Hrun) & _ & Hwf' & Hu & Hf & Ht).
  pose proof MAX_PAGES_eq. pose proof (proj2 Hwf). unfold is_u64 in Hc.
  destruct (free_pages_ok s' (p * 4096) count) as (s2 & -> & Hwf2 & Ht2 & Hu2); [done|lia..|].
  rewrite Z.div_mul, Hu in Hu2 by done. f_equal.
  assert (used_pages s2 = used_pages s) as Heq.
  { rewrite Hu2. apply (run_free_disjoint _ MAX_PAGES) in Hrun. unfold used_pages in *.
    zset_ext j. specialize (Hrun j). rewrite elem_of_zrange in Hrun. tauto. }
  destruct s as [bm tot fr], s2 as [bm2 tot2 fr2]. unfold used_pages in Heq. simpl in *.
  destruct Hwf as [(Hl & Hok & Hfr) _], Hwf2 as [(Hl2 & Hok2 & Hfr2) _]. simpl in *.
  assert (bm2 = bm) as ->.
  { apply (used_ext _ _ MAX_PAGES); [lia|done|done| |done]. by rewrite Hl2. }
  f_equal; congruence.
Qed.

Lemma step_wf s s' : step s s' -> wf s -> wf s'.
Proof.
  intros [rs t t' Hrs Hi|base count t t' ?? Hov Hm|count align t Hc Hal|base count t t' ?? Hov Hf] Hwf.
  - destruct (init_ok t rs) as (? & ? & ? & _); [done..|congruence].
  - destruct (mark_used_ok t base count) as (? & ? & ? & _); [done..|congruence].
  - pose proof (alloc_spec_holds t count align Hwf Hc Hal) as Hspec.
    destruct (alloc_pages_contiguous count align t) as [[addr|[]|] t']; simpl in *;
      [|by intuition subst..].
    destruct Hspec as (p & _ & _ & _ & Hpost). apply Hpost.
  - destruct (free_pages_ok t base count) as (? & ? & ? & _); [done..|congruence].
Qed.

Lemma rtc_step_wf s s' : rtc step s s' -> wf s -> wf s'.
Proof. induction 1; eauto using step_wf. Qed.

(** ** Properties *)

(** [alloc_pages_contiguous] is first fit and complete: on success it
    returns the lowest aligned free run below [total_pages], marks exactly that
    run as used and lowers the free counter by [count]; it fails with
    [OutOfMemory] exactly when no such run exists, reports the two argument
    errors, changes nothing on an error, and never panics or loops. *)
Theorem alloc_first_fit s count align :
  wf s -> is_u64 count -> is_u64 align ->
  alloc_spec s count align (alloc_pages_contiguous count align s).
Proof. apply alloc_spec_holds. Qed.

Lemma alloc_first_fit_witness :
  wf demo /\ alloc_spec demo 3 4 (alloc_pages_contiguous 3 4 demo).
Proof.
  split; [apply demo_wf|].
  apply (alloc_first_fit demo 3 4); [apply demo_wf|unfold is_u64; lia|unfold is_u64; lia].
Defined.

(** Freeing what was just allocated restores the allocator exactly, bit
    for bit and counter included. *)
Theorem free_undoes_alloc s count align addr s' :
  wf s -> is_u64 count -> is_u64 align ->
  alloc_pages_contiguous count align s = (Ok addr, s') ->
  free_pages addr count s' = Ok s.
Proof. apply free_undoes. Qed.

Lemma free_undoes_alloc_witness :
  exists s', alloc_pages_contiguous 3 4 demo = (Ok (4 * 4096), s') /\
    free_pages (4 * 4096) 3 s' = Ok demo.
Proof.
  eexists. split; [by vm_compute|].
  apply (free_undoes_alloc demo 3 4); [apply demo_wf|unfold is_u64; lia|unfold is_u64; lia|by vm_compute].
Defined.

(** A double free is harmless: freeing a range twice gives the state of
    freeing it once. *)
Theorem free_pages_idempotent s base count :
  wf s -> 0 <= base -> 0 <= count -> base / 4096 + count <= 2 ^ 64 ->
  (s1 ← free_pages base count s; free_pages base count s1) = free_pages base count s.
Proof.
  intros Hwf Hb Hc Hov.
  destruct (free_pages_ok s base count) as (s1 & -> & Hwf1 & Ht1 & Hu1); [done..|]. simpl.
  destruct (free_pages_ok s1 base count) as (s2 & -> & Hwf2 & Ht2 & Hu2); [done..|]. f_equal.
  assert (used_pages s2 = used_pages s1) as Heq by (rewrite Hu2, Hu1; zset_ext j; tauto).
  destruct s1 as [bm tot fr], s2 as [bm2 tot2 fr2]. unfold used_pages in Heq. simpl in *.
  destruct Hwf1 as [(Hl & Hok & Hfr) _], Hwf2 as [(Hl2 & Hok2 & Hfr2) _]. simpl in *.
  assert (bm2 = bm) as ->.
  { apply (used_ext _ _ MAX_PAGES); [lia|done|done| |done]. by rewrite Hl2. }
  f_equal; congruence.
Qed.

Lemma free_pages_idempotent_witness :
  (s1 ← free_pages 8192 2 demo; free_pages 8192 2 s1) = free_pages 8192 2 demo.
Proof. apply (free_pages_idempotent demo 8192 2); [apply demo_wf|lia|lia|vm_compute; congruence]. Defined.

(** C11.  Every state reachable from [new] by the allocator's operations
    satisfies the invariant: well-formed words, and a free counter that equals
    the number of clear bits. *)
Theorem reachable_wf s : rtc step new s -> wf s.
Proof.
  intros Hr. apply (rtc_step_wf new s Hr), new_wf.
Qed.

Lemma reachable_wf_witness : rtc step new demo /\ wf demo.
Proof.
  assert (rtc step new demo) as Hr.
  { apply rtc_once, (step_init [(4096, 16 * 4096)]); [repeat constructor; simpl; lia|by vm_compute]. }
  split; [done|]. by apply (reachable_wf demo).
Defined.

End Phys.
