(* ===== verification/Dma.v ===== *)
(** * DMA buffers ([mem/dma.rs])

    A [DmaBuf] owns its pages, so the model keeps the [len] bytes it views in
    the record itself.  [with_dma] is the scope of a local buffer: allocated and
    zeroed at the [let], dropped on every way out that does not panic. *)
From S2P Require Import Prelude Bytes Bitmap Phys.

Module Dma.

Record DmaBuf := mkBuf {
  phys : Z;
  data : list Z;
  page_count : Z;
}.

Definition len (b : DmaBuf) : Z := zlen (data b).

Definition alloc_aligned (size page_align : Z) : st Phys.AllocatorInner Phys.AllocError DmaBuf :=
  if size =? 0 then st_err Phys.InvalidSize
  else
    let page_count := ((size ⊞ Phys.PAGE_SIZE) ⊟ 1) / Phys.PAGE_SIZE in
    phys ← Phys.alloc_pages_contiguous page_count page_align;
    mret {| phys := phys; data := replicate (Z.to_nat size) 0; page_count := page_count |}.

Definition alloc (size : Z) : st Phys.AllocatorInner Phys.AllocError DmaBuf :=
  if size =? 0 then st_err Phys.InvalidSize
  else
    let page_count := ((size ⊞ Phys.PAGE_SIZE) ⊟ 1) / Phys.PAGE_SIZE in
    phys ← Phys.alloc_pages_contiguous page_count 1;
    mret {| phys := phys; data := replicate (Z.to_nat size) 0; page_count := page_count |}.

(** [copy_from_slice]: asserts that the data fits. *)
Definition copy_from_slice {E} (b : DmaBuf) (src : list Z) : out E DmaBuf :=
  if zlen src <=? len b then
    Ok {| phys := phys b; data := splice (data b) 0 src; page_count := page_count b |}
  else Panic.

(** [copy_to_slice]: asserts that the range is inside the buffer. *)
Definition copy_to_slice {E} (b : DmaBuf) (dest : list Z) (offset n : Z) : out E (list Z) :=
  if offset ⊞ n <=? len b then Ok (splice dest 0 (slice (data b) offset n)) else Panic.

Definition set_data (b : DmaBuf) (d : list Z) : DmaBuf :=
  {| phys := phys b; data := d; page_count := page_count b |}.

(** [impl Drop for DmaBuf]. *)
Definition drop_buf (b : DmaBuf) (s : Phys.AllocatorInner) : out Empty_set Phys.AllocatorInner :=
  Phys.free_pages (phys b) (page_count b) s.

(** The hardware a storage operation runs on: the device and the page pool. *)
Record hw (D : Type) := mkHw { dev : D; pages : Phys.AllocatorInner }.
Arguments mkHw {D} _ _.
Arguments dev {D} _.
Arguments pages {D} _.

(** [{ let b = DmaBuf::alloc(size).map_err(f)?; body }]. *)
Definition with_dma {D E A} (f : Phys.AllocError -> E) (size : Z) (body : DmaBuf -> st (hw D) E A)
    : st (hw D) E A := fun w =>
  match alloc size (pages w) with
  | (Ok b, p) =>
      match body b (mkHw (dev w) p) with
      | (Panic, w') => (Panic, w')
      | (r, w') =>
          match drop_buf b (pages w') with
          | Ok p' => (r, mkHw (dev w') p')
          | _ => (Panic, w')
          end
      end
  | (Err e, p) => (Err (f e), mkHw (dev w) p)
  | (Panic, p) => (Panic, mkHw (dev w) p)
  end.

(** ** Properties of the bracket *)
Definition pages_for (size : Z) : Z := (size + 4095) / 4096.

(** A run of pages is free for a buffer of [size] bytes. *)
Definition room (s : Phys.AllocatorInner) (size : Z) : Prop :=
  exists p, Phys.candidate_run s (pages_for size) 1 p.

Lemma alloc_ok s size :
  Phys.wf s -> 0 < size < 2 ^ 63 ->
  (exists b s', alloc size s = (Ok b, s') /\ data b = replicate (Z.to_nat size) 0 /\
     Phys.wf s' /\ drop_buf b s' = Ok s) \/
  (alloc size s = (Err Phys.OutOfMemory, s) /\ ~ room s size).
Proof.
  intros Hwf Hs. unfold alloc, Phys.PAGE_SIZE. destruct (Z.eqb_spec size 0); [lia|]. unwrap.
  replace (size + 4096 - 1) with (size + 4095) by lia.
  assert (is_u64 ((size + 4095) / 4096)) as Hu by (unfold is_u64; lia).
  destruct (Phys.alloc_cases s ((size + 4095) / 4096) 1) as [(p & s' & Ha & _ & _ & Hpost)|[Ha Hnone]];
    [done|lia|unfold is_u64; lia|done| |].
  - left. cbn -[Phys.alloc_pages_contiguous]. unfold mbind, st_bind. rewrite Ha.
    eexists _, s'. split; [done|]. split; [done|]. split; [apply Hpost|].
    unfold drop_buf. simpl. apply (Phys.free_undoes s _ 1); [done|done|unfold is_u64; lia|done].
  - right. cbn -[Phys.alloc_pages_contiguous]. unfold mbind, st_bind. rewrite Ha.
    split; [done|]. intros [q Hq]. by apply (Hnone q).
Qed.

(** The bracket leaves the page pool exactly as it was, whatever the body
    returns, provided the body itself leaves the pool it was given alone. *)
Lemma with_dma_ok {D E A} (f : Phys.AllocError -> E) size (body : DmaBuf -> st (hw D) E A) w :
  Phys.wf (pages w) -> 0 < size < 2 ^ 63 ->
  (with_dma f size body w = (Err (f Phys.OutOfMemory), w) /\ ~ room (pages w) size) \/
  exists b p, data b = replicate (Z.to_nat size) 0 /\ Phys.wf p /\
    forall r d', body b (mkHw (dev w) p) = (r, mkHw d' p) -> r <> Panic ->
      with_dma f size body w = (r, mkHw d' (pages w)).
Proof.
  intros Hwf Hs. unfold with_dma.
  destruct (alloc_ok (pages w) size) as [(b & p & -> & Hd & Hp & Hdrop)|[-> Hno]]; [done|done| |].
  - right. exists b, p. split; [done|]. split; [done|]. intros r d' -> Hr. simpl. rewrite Hdrop.
    by destruct r.
  - left. by destruct w.
Qed.

Lemma wp_with_dma {D E A} (f : Phys.AllocError -> E) size (body : DmaBuf -> st (hw D) E A)
    (Q : A -> hw D -> Prop) (X : E -> hw D -> Prop) w :
  Phys.wf (pages w) -> 0 < size < 2 ^ 63 ->
  (~ room (pages w) size -> X (f Phys.OutOfMemory) w) ->
  (forall b p, data b = replicate (Z.to_nat size) 0 -> Phys.wf p ->
     wp (body b) (fun a w' => pages w' = p /\ Q a (mkHw (dev w') (pages w)))
       (fun e w' => pages w' = p /\ X e (mkHw (dev w') (pages w))) (mkHw (dev w) p)) ->
  wp (with_dma f size body) Q X w.
Proof.
  intros Hwf Hs Hoom Hbody.
  destruct (with_dma_ok f size body w) as [[Heq Hno]|(b & p & Hd & Hp & Heq)]; [done|done| |].
  - unfold wp. rewrite Heq. auto.
  - specialize (Hbody b p Hd Hp). unfold wp in *.
    destruct (body b (mkHw (dev w) p)) as [[a|e|] [d' p']] eqn:Hb; [| |done];
      simpl in Hbody; destruct Hbody as [-> HQ]; rewrite (Heq _ d' eq_refl); done.
Qed.

Lemma copy_from_slice_ok {E} b src :
  zlen src <= len b ->
  copy_from_slice (E:=E) b src = Ok (set_data b (splice (data b) 0 src)).
Proof. intros H. unfold copy_from_slice. destruct (Z.leb_spec (zlen src) (len b)); [done|lia]. Qed.

Lemma copy_to_slice_ok {E} b dest off n :
  0 <= off -> 0 <= n -> off + n <= len b -> len b < 2 ^ 64 ->
  copy_to_slice (E:=E) b dest off n = Ok (splice dest 0 (slice (data b) off n)).
Proof.
  intros. unfold copy_to_slice. unwrap. destruct (Z.leb_spec (off + n) (len b)); [done|lia].
Qed.

End Dma.
