(* ===== verification/Block.v ===== *)
(** * Block devices ([storage/block_device.rs], [storage/mock_device.rs])

    The trait [BlockDevice] as a class of operations, what the storage layer
    relies on as a class of laws, and the RAM disk, which satisfies them. *)
From S2P Require Import Prelude Bytes Bitmap Phys.
From S2P Require Export Dma.
Export Dma(DmaBuf, data, set_data, hw, mkHw, dev, pages, with_dma, room, wp_with_dma).

Inductive NvmeError :=
| ControllerFatal
| Timeout
| CommandFailed (status : Z)
| DeviceNotFound
| NotInitialized
| OutOfMemory
| MediaError.

Class BlockDevice (D : Type) := {
  read_blocks : Z -> Z -> DmaBuf -> st (hw D) NvmeError DmaBuf;
  write_blocks : Z -> Z -> DmaBuf -> st (hw D) NvmeError unit;
  dev_flush : st (hw D) NvmeError unit;
  dev_block_size : D -> Z;
  dev_total_blocks : D -> Z;
}.

(** The block range [lba, lba + n) is on the device. *)
Definition in_range {D} `{BlockDevice D} (d : D) (lba n : Z) : Prop :=
  0 <= lba /\ lba + n <= dev_total_blocks d.

(** What clients rely on.  A device shows a flat array of bytes
    ([contents]); a flush makes it survive a power cycle ([power_cycle]).  An
    operation may fail at any time unless the device is [reliable]; a failed
    read changes nothing, and a failed write changes nothing outside its range.
    [io_limit] bounds the bytes of one transfer. *)
Class BlockDeviceSpec (D : Type) `{BlockDevice D} := {
  dev_ok : D -> Prop;
  contents : D -> list Z;
  durable : D -> list Z;
  reliable : D -> Prop;
  io_limit : D -> Z;
  power_cycle : D -> D;
  same_kind d d' : Prop :=
    dev_ok d' /\ dev_block_size d' = dev_block_size d /\ dev_total_blocks d' = dev_total_blocks d /\
    io_limit d' = io_limit d /\ (reliable d -> reliable d');
  law_geometry d : dev_ok d ->
    0 < dev_block_size d < 2 ^ 32 /\ 0 <= dev_total_blocks d /\ bytes_ok (contents d) /\
    zlen (contents d) = dev_total_blocks d * dev_block_size d /\ zlen (contents d) < 2 ^ 63;
  law_read d p lba n b : dev_ok d -> Phys.wf p -> 0 <= lba -> 0 < n < 2 ^ 16 ->
    (lba + n) * dev_block_size d < 2 ^ 64 -> n * dev_block_size d <= io_limit d ->
    zlen (data b) = n * dev_block_size d ->
    exists r d', read_blocks lba n b (mkHw d p) = (r, mkHw d' p) /\ same_kind d d' /\
      contents d' = contents d /\ durable d' = durable d /\
      match r with
      | Ok b' => in_range d lba n /\
          b' = set_data b (slice (contents d) (lba * dev_block_size d) (n * dev_block_size d))
      | Err _ => reliable d -> ~ in_range d lba n
      | Panic => False
      end;
  law_write d p lba n b : dev_ok d -> Phys.wf p -> 0 <= lba -> 0 < n < 2 ^ 16 ->
    (lba + n) * dev_block_size d < 2 ^ 64 -> n * dev_block_size d <= io_limit d ->
    zlen (data b) = n * dev_block_size d -> bytes_ok (data b) ->
    exists r d', write_blocks lba n b (mkHw d p) = (r, mkHw d' p) /\ same_kind d d' /\
      match r with
      | Ok _ => in_range d lba n /\
          contents d' = splice (contents d) (lba * dev_block_size d) (data b)
      | Err _ => (reliable d -> ~ in_range d lba n) /\
          (contents d' = contents d \/
           in_range d lba n /\ exists new, zlen new = n * dev_block_size d /\
             contents d' = splice (contents d) (lba * dev_block_size d) new)
      | Panic => False
      end;
  law_flush d p : dev_ok d -> Phys.wf p ->
    exists r d', dev_flush (mkHw d p) = (r, mkHw d' p) /\ same_kind d d' /\
      contents d' = contents d /\
      match r with
      | Ok _ => durable d' = contents d
      | Err _ => ~ reliable d
      | Panic => False
      end;
  law_power_cycle d : dev_ok d -> same_kind d (power_cycle d) /\ contents (power_cycle d) = durable d;
}.

Lemma same_kind_refl `{BlockDeviceSpec D} d : dev_ok d -> same_kind d d.
Proof. by repeat split. Qed.

Lemma same_kind_trans `{BlockDeviceSpec D} d1 d2 d3 :
  same_kind d1 d2 -> same_kind d2 d3 -> same_kind d1 d3.
Proof.
  intros (? & ? & ? & ? & ?) (? & ? & ? & ? & ?). split; [done|]. repeat split; [congruence..|auto].
Qed.

Section rules.
Context `{BlockDeviceSpec D}.

Lemma wp_read lba n b (Q : DmaBuf -> hw D -> Prop) X w :
  dev_ok (dev w) -> Phys.wf (pages w) -> 0 <= lba -> 0 < n < 2 ^ 16 ->
  (lba + n) * dev_block_size (dev w) < 2 ^ 64 ->
  n * dev_block_size (dev w) <= io_limit (dev w) ->
  zlen (data b) = n * dev_block_size (dev w) ->
  (forall d', same_kind (dev w) d' -> contents d' = contents (dev w) -> durable d' = durable (dev w) ->
    (in_range (dev w) lba n ->
     Q (set_data b (slice (contents (dev w)) (lba * dev_block_size (dev w))
         (n * dev_block_size (dev w)))) (mkHw d' (pages w))) /\
    (forall e, (reliable (dev w) -> ~ in_range (dev w) lba n) -> X e (mkHw d' (pages w)))) ->
  wp (read_blocks lba n b) Q X w.
Proof.
  destruct w as [d p]. simpl. intros Hd Hp Hl Hn Ho Hlim Hb HQ.
  pose proof (law_read d p lba n b Hd Hp Hl Hn Ho Hlim Hb) as (r & d' & Heq & Hk & Hc & Hdur & Hr).
  unfold wp. rewrite Heq. specialize (HQ d' Hk Hc Hdur). destruct HQ as [HQ HX].
  destruct r as [b'|e|]; [|by apply HX|done]. destruct Hr as [Hin ->]. by apply HQ.
Qed.

Lemma wp_write lba n b (Q : unit -> hw D -> Prop) X w :
  dev_ok (dev w) -> Phys.wf (pages w) -> 0 <= lba -> 0 < n < 2 ^ 16 ->
  (lba + n) * dev_block_size (dev w) < 2 ^ 64 ->
  n * dev_block_size (dev w) <= io_limit (dev w) ->
  zlen (data b) = n * dev_block_size (dev w) -> bytes_ok (data b) ->
  (forall d', same_kind (dev w) d' ->
    (in_range (dev w) lba n ->
     contents d' = splice (contents (dev w)) (lba * dev_block_size (dev w)) (data b) ->
     Q tt (mkHw d' (pages w))) /\
    (forall e, (reliable (dev w) -> ~ in_range (dev w) lba n) ->
      (contents d' = contents (dev w) \/
       in_range (dev w) lba n /\ exists new, zlen new = n * dev_block_size (dev w) /\
             contents d' = splice (contents (dev w)) (lba * dev_block_size (dev w)) new) ->
      X e (mkHw d' (pages w)))) ->
  wp (write_blocks lba n b) Q X w.
Proof.
  destruct w as [d p]. simpl. intros Hd Hp Hl Hn Ho Hlim Hb Hby HQ.
  pose proof (law_write d p lba n b Hd Hp Hl Hn Ho Hlim Hb Hby) as (r & d' & Heq & Hk & Hr).
  unfold wp. rewrite Heq. destruct (HQ d' Hk) as [HQ1 HX].
  destruct r as [[]|e|]; [| |done]; destruct Hr as [Hr1 Hr2]; auto.
Qed.

Lemma wp_flush (Q : unit -> hw D -> Prop) X w :
  dev_ok (dev w) -> Phys.wf (pages w) ->
  (forall d', same_kind (dev w) d' -> contents d' = contents (dev w) ->
    (durable d' = contents (dev w) -> Q tt (mkHw d' (pages w))) /\
    (forall e, ~ reliable (dev w) -> X e (mkHw d' (pages w)))) ->
  wp dev_flush Q X w.
Proof.
  destruct w as [d p]. simpl. intros Hd Hp HQ.
  pose proof (law_flush d p Hd Hp) as (r & d' & Heq & Hk & Hc & Hr).
  unfold wp. rewrite Heq. destruct (HQ d' Hk Hc) as [HQ1 HX].
  destruct r as [[]|e|]; [by apply HQ1|by apply HX|done].
Qed.
End rules.

(** ** The RAM disk *)
Module RamDisk.

Record RamDisk := mkRam {
  rdata : list Z;
  block_size : Z;
  total_blocks : Z;
  flush_count : Z;
}.

Definition new (total_blocks block_size : Z) : RamDisk :=
  let total_bytes := total_blocks ⊠ block_size in
  {| rdata := replicate (Z.to_nat total_bytes) 0; block_size := block_size;
     total_blocks := total_blocks; flush_count := 0 |}.

Definition read_raw {E} (d : RamDisk) (offset n : Z) : out E (list Z) :=
  index_range (rdata d) offset (offset ⊞ n).

Definition read_blocks (lba n : Z) (b : DmaBuf) : st (hw RamDisk) NvmeError DmaBuf := fun w =>
  let d := dev w in
  let start := lba ⊠ block_size d in
  let len := n ⊠ block_size d in
  if zlen (rdata d) <? start ⊞ len then (Err MediaError, w)
  else
    let copy_len := Z.min len (zlen (data b)) in
    (src ← index_range (rdata d) start (start ⊞ copy_len);
     dst ← copy_into (data b) 0 copy_len src;
     Ok (set_data b dst), w).

Definition write_blocks (lba n : Z) (b : DmaBuf) : st (hw RamDisk) NvmeError unit := fun w =>
  let d := dev w in
  let start := lba ⊠ block_size d in
  let len := n ⊠ block_size d in
  if zlen (rdata d) <? start ⊞ len then (Err MediaError, w)
  else
    let copy_len := Z.min len (zlen (data b)) in
    match src ← index_range (data b) 0 copy_len;
          copy_into (rdata d) start (start ⊞ copy_len) src with
    | Ok c => (Ok tt, mkHw (mkRam c (block_size d) (total_blocks d) (flush_count d)) (pages w))
    | Err e => (Err e, w)
    | Panic => (Panic, w)
    end.

Definition flush : st (hw RamDisk) NvmeError unit := fun w =>
  let d := dev w in
  (Ok tt, mkHw (mkRam (rdata d) (block_size d) (total_blocks d) (flush_count d ⊞ 1)) (pages w)).

#[export] Instance ram_device : BlockDevice RamDisk := {
  Block.read_blocks := read_blocks;
  Block.write_blocks := write_blocks;
  dev_flush := flush;
  dev_block_size := block_size;
  dev_total_blocks := total_blocks;
}.

Definition ok (d : RamDisk) : Prop :=
  0 < block_size d < 2 ^ 32 /\ 0 <= total_blocks d /\ bytes_ok (rdata d) /\
  zlen (rdata d) = total_blocks d * block_size d /\ zlen (rdata d) < 2 ^ 63.

(** The bounds check is the range condition of the law. *)
Lemma bounds_check d lba n :
  ok d -> 0 <= lba -> 0 < n < 2 ^ 16 -> (lba + n) * block_size d < 2 ^ 64 ->
  lba ⊠ block_size d = lba * block_size d /\ n ⊠ block_size d = n * block_size d /\
  (zlen (rdata d) <? (lba ⊠ block_size d) ⊞ (n ⊠ block_size d)) =
    negb (bool_decide (in_range d lba n)).
Proof.
  intros (Hbs & Ht & _ & Hlen & _) Hl Hn Hov.
  rewrite !wrap64_small by nia. split; [done|]. split; [done|].
  unfold in_range. simpl. rewrite Hlen.
  destruct (Z.ltb_spec (total_blocks d * block_size d) (lba * block_size d + n * block_size d));
    case_bool_decide; simpl; try done; exfalso; nia.
Qed.

#[export] Program Instance ram_spec : BlockDeviceSpec RamDisk := {
  dev_ok := ok;
  contents := rdata;
  durable := rdata;
  reliable _ := True;
  io_limit _ := 2 ^ 63;
  power_cycle d := d;
}.
Next Obligation. intros d Hd. exact Hd. Qed.
Next Obligation.
  intros d p lba n b Hd Hp Hl Hn Hov _ Hlen. simpl in *.
  destruct (bounds_check d lba n Hd Hl Hn Hov) as (He1 & He2 & Hc).
  unfold read_blocks. simpl. rewrite Hc, He1, He2, Hlen, Z.min_id.
  case_bool_decide as Hr; simpl.
  - pose proof Hd as (Hbs & Ht & _ & Hz & Hmax). destruct Hr as [_ Hr]. simpl in Hr.
    rewrite wrap64_small by nia. rewrite index_range_ok by nia. simpl.
    replace (lba * block_size d + n * block_size d - lba * block_size d) with (n * block_size d) by lia.
    rewrite copy_into_ok by (rewrite ?zlen_slice; nia). simpl.
    eexists _, d. split; [done|]. split; [done|]. split; [done|]. split; [done|].
    split; [split; simpl; nia|]. by rewrite splice_all by (rewrite ?zlen_slice; nia).
  - eexists _, d. split; [done|]. by split; [done|].
Qed.
Next Obligation.
  intros d p lba n b Hd Hp Hl Hn Hov _ Hlen Hb. simpl in *.
  destruct (bounds_check d lba n Hd Hl Hn Hov) as (He1 & He2 & Hc).
  unfold write_blocks. simpl. rewrite Hc, He1, He2, Hlen, Z.min_id.
  case_bool_decide as Hr; simpl.
  - pose proof Hd as (Hbs & Ht & Hok & Hz & Hmax). destruct Hr as [_ Hr]. simpl in Hr.
    rewrite wrap64_small by nia. rewrite index_range_ok by nia. simpl.
    rewrite Z.sub_0_r, slice_all by lia. rewrite copy_into_ok by nia.
    eexists _, _. split; [done|]. split.
    + split; [|done]. unfold ok. simpl. rewrite zlen_splice by nia.
      repeat split; [lia..| |done|done]. by apply bytes_ok_splice.
    + split; [split; simpl; nia|done].
  - eexists _, d. split; [done|]. split; [done|]. by split; [|left].
Qed.
Next Obligation.
  intros d p Hd Hp. eexists _, _. split; [done|]. split; [|done]. by split.
Qed.
Next Obligation. intros d Hd. split; [|done]. done. Qed.

Lemma new_ok n bs : 0 < bs < 2 ^ 32 -> 0 <= n -> n * bs < 2 ^ 63 -> ok (new n bs).
Proof.
  intros Hb Hn Hov. unfold ok, new. cbn [block_size total_blocks rdata].
  rewrite wrap64_small by nia. rewrite zlen_replicate, Z2Nat.id by nia.
  split; [done|]. split; [done|]. split; [apply bytes_ok_replicate|done].
Qed.

End RamDisk.

#[export] Existing Instance RamDisk.ram_device.
#[export] Existing Instance RamDisk.ram_spec.
