(* ===== verification/BlockAlloc.v ===== *)
(** * On-disk block allocator ([storage/block_alloc.rs])

    The superblock and its byte layout, the in-memory allocator with
    [format], [load], [alloc], [free] and [flush], its invariant, and the disk
    image the bitmap is written to and read back from. *)
From S2P Require Import Prelude Bytes Bitmap Phys Block.

Module BlockAlloc.

Inductive AllocError := OutOfSpace | InvalidSize | Fragmented.

Definition SUPERBLOCK_MAGIC : Z := 0x000001534F4E5648.
Definition SUPERBLOCK_VERSION : Z := 1.

(** [#[repr(C)] struct Superblock]: 72 bytes of fields and 4008 of padding. *)
Record Superblock := mkSb {
  magic : Z;
  version : Z;
  sb_block_size : Z;
  total_blocks : Z;
  sb_bitmap_start_lba : Z;
  bitmap_block_count : Z;
  file_table_start_lba : Z;
  file_table_block_count : Z;
  sb_data_start_lba : Z;
  sb_data_block_count : Z;
}.

Definition is_valid (sb : Superblock) : bool :=
  (magic sb =? SUPERBLOCK_MAGIC) && (version sb =? SUPERBLOCK_VERSION).

(** The bytes of a superblock in memory. *)
Definition sb_bytes (sb : Superblock) : list Z :=
  le_bytes 8 (magic sb) ++ le_bytes 4 (version sb) ++ le_bytes 4 (sb_block_size sb) ++
  le_bytes 8 (total_blocks sb) ++ le_bytes 8 (sb_bitmap_start_lba sb) ++
  le_bytes 8 (bitmap_block_count sb) ++ le_bytes 8 (file_table_start_lba sb) ++
  le_bytes 8 (file_table_block_count sb) ++ le_bytes 8 (sb_data_start_lba sb) ++
  le_bytes 8 (sb_data_block_count sb) ++ replicate (Z.to_nat 4008) 0.

(** [&*(buf.as_ptr() as *const Superblock)]. *)
Definition sb_of_bytes (b : list Z) : Superblock := {|
  magic := from_le (slice b 0 8);
  version := from_le (slice b 8 4);
  sb_block_size := from_le (slice b 12 4);
  total_blocks := from_le (slice b 16 8);
  sb_bitmap_start_lba := from_le (slice b 24 8);
  bitmap_block_count := from_le (slice b 32 8);
  file_table_start_lba := from_le (slice b 40 8);
  file_table_block_count := from_le (slice b 48 8);
  sb_data_start_lba := from_le (slice b 56 8);
  sb_data_block_count := from_le (slice b 64 8);
|}.

Record BlockAllocator := mkAlloc {
  bitmap : list Z;
  data_block_count : Z;
  data_start_lba : Z;
  bitmap_start_lba : Z;
  bitmap_on_disk_blocks : Z;
  block_size : Z;
  free_count : Z;
  dirty : bool;
}.

Definition new : BlockAllocator := {|
  bitmap := []; data_block_count := 0; data_start_lba := 0; bitmap_start_lba := 0;
  bitmap_on_disk_blocks := 0; block_size := 4096; free_count := 0; dirty := false;
|}.

Definition bitmap_words (data_blocks : Z) : Z := (data_blocks ⊞ 63) / 64.

Definition init_for_test (data_blocks block_size data_start_lba : Z) : BlockAllocator := {|
  bitmap := replicate (Z.to_nat (bitmap_words data_blocks)) 0;
  data_block_count := data_blocks;
  data_start_lba := data_start_lba;
  bitmap_start_lba := 1;
  bitmap_on_disk_blocks := 1;
  block_size := block_size;
  free_count := data_blocks;
  dirty := false;
|}.

(** [word.count_ones()]. *)
Definition count_ones (w : Z) : Z :=
  Z.of_nat (length (filter (fun i => Z.testbit w i = true) (seqZ 0 64))).

Definition oom (_ : Phys.AllocError) : NvmeError := OutOfMemory.

Section device.
Context `{BlockDevice D}.

Definition format (total_blocks block_size : Z) : st (hw D) NvmeError BlockAllocator :=
  let data_bits_per_block := block_size ⊠ 8 in
  let approx_data := (total_blocks ⊟ 1) ⊟ 1 in
  if data_bits_per_block =? 0 then st_panic
  else
    let bitmap_blocks := ((approx_data ⊞ data_bits_per_block) ⊟ 1) / data_bits_per_block in
    let data_start := (1 ⊞ bitmap_blocks) ⊞ 1 in
    let data_blocks := sat_sub total_blocks data_start in
    let sb := {| magic := SUPERBLOCK_MAGIC; version := SUPERBLOCK_VERSION;
                 sb_block_size := block_size; total_blocks := total_blocks;
                 sb_bitmap_start_lba := 1; bitmap_block_count := bitmap_blocks;
                 file_table_start_lba := 1 ⊞ bitmap_blocks; file_table_block_count := 1;
                 sb_data_start_lba := data_start; sb_data_block_count := data_blocks |} in
    with_dma oom block_size (fun buf =>
      buf ← st_lift (Dma.copy_from_slice buf (sb_bytes sb));
      _ ← write_blocks 0 1 buf;
      with_dma oom block_size (fun zero_buf =>
        _ ← st_range 0 bitmap_blocks (fun i _ => write_blocks (1 ⊞ i) 1 zero_buf) tt;
        _ ← write_blocks (1 ⊞ bitmap_blocks) 1 zero_buf;
        _ ← dev_flush;
        mret {| bitmap := replicate (Z.to_nat (bitmap_words data_blocks)) 0;
                data_block_count := data_blocks; data_start_lba := data_start;
                bitmap_start_lba := 1; bitmap_on_disk_blocks := bitmap_blocks;
                block_size := block_size; free_count := data_blocks; dirty := false |})).

(** The words of one bitmap block, [for w in 0..words_per_block]. *)
Definition load_words (src : list Z) (word_offset words_per_block words : Z) (bm : list Z)
    : out NvmeError (list Z) :=
  for_range 0 words_per_block (fun w bm =>
    if word_offset ⊞ w <? words then
      let off := w ⊠ 8 in
      b ← index_range src off (off ⊞ 8);
      Ok (<[Z.to_nat (word_offset ⊞ w) := from_le b]> bm)
    else Ok bm) bm.

Definition count_free (bm : list Z) (words n : Z) : Z :=
  foldr (fun '(i, word) acc =>
    let valid_bits :=
      if i =? words - 1 then (if n mod 64 =? 0 then 64 else n mod 64) else 64 in
    (valid_bits ⊟ count_ones word) ⊞ acc) 0 (zip (seqZ 0 (zlen bm)) bm).

Definition load : st (hw D) NvmeError BlockAllocator := fun w0 =>
  let block_size := dev_block_size (dev w0) in
  with_dma oom block_size (fun buf =>
    buf ← read_blocks 0 1 buf;
    let sb := sb_of_bytes (data buf) in
    if negb (is_valid sb) then st_err MediaError
    else
      let words := bitmap_words (sb_data_block_count sb) in
      with_dma oom block_size (fun bitmap_buf =>
        let words_per_block := block_size / 8 in
        acc ← st_range 0 (bitmap_block_count sb) (fun blk '(bb, bm) =>
          bb ← read_blocks (sb_bitmap_start_lba sb ⊞ blk) 1 bb;
          bm ← st_lift (load_words (data bb) (blk ⊠ words_per_block) words_per_block words bm);
          mret (bb, bm)) (bitmap_buf, replicate (Z.to_nat words) 0);
        mret {| bitmap := snd acc; data_block_count := sb_data_block_count sb;
                data_start_lba := sb_data_start_lba sb;
                bitmap_start_lba := sb_bitmap_start_lba sb;
                bitmap_on_disk_blocks := bitmap_block_count sb; block_size := block_size;
                free_count := count_free (snd acc) words (sb_data_block_count sb);
                dirty := false |})) w0.

(** The words of one bitmap block copied into the buffer. *)
Definition store_words (bm : list Z) (word_offset words_per_block : Z) (buf : list Z)
    : out NvmeError (list Z) :=
  for_range 0 words_per_block (fun w s =>
    if word_offset ⊞ w <? zlen bm then
      word ← or_panic (bm !! Z.to_nat (word_offset ⊞ w));
      let off := w ⊠ 8 in
      copy_into s off (off ⊞ 8) (le_bytes 8 word)
    else Ok s) buf.

Definition flush (a : BlockAllocator) : st (hw D) NvmeError BlockAllocator :=
  if negb (dirty a) then mret a
  else
    with_dma oom (block_size a) (fun buf =>
      let words_per_block := block_size a / 8 in
      _ ← st_range 0 (bitmap_on_disk_blocks a) (fun blk buf =>
        let word_offset := blk ⊠ words_per_block in
        let zeroed := replicate (length (data buf)) 0 in
        s ← st_lift (store_words (bitmap a) word_offset words_per_block zeroed);
        let buf := set_data buf s in
        _ ← write_blocks (bitmap_start_lba a ⊞ blk) 1 buf;
        mret buf) buf;
      mret {| bitmap := bitmap a; data_block_count := data_block_count a;
              data_start_lba := data_start_lba a; bitmap_start_lba := bitmap_start_lba a;
              bitmap_on_disk_blocks := bitmap_on_disk_blocks a; block_size := block_size a;
              free_count := free_count a; dirty := false |}).
End device.

(** [while start + count <= total]: the first free run.  [alloc_complete]
    shows that the fuel [alloc] chooses never runs out. *)
Fixpoint scan (fuel : nat) (bm : list Z) (total count start : Z) : out AllocError Z :=
  match fuel with
  | O => Panic
  | S fuel =>
      if start ⊞ count <=? total then
        u ← first_used bm start count;
        match u with
        | Some idx => scan fuel bm total count (idx ⊞ 1)
        | None => Ok start
        end
      else Err OutOfSpace
  end.

Definition alloc (count : Z) : st BlockAllocator AllocError Z := fun a =>
  if count =? 0 then (Err InvalidSize, a)
  else if free_count a <? count then (Err OutOfSpace, a)
  else
    match scan (S (Z.to_nat (data_block_count a))) (bitmap a) (data_block_count a) count 0 with
    | Ok start =>
        match set_run (bitmap a) start count with
        | Ok bm =>
            (Ok start,
             {| bitmap := bm; data_block_count := data_block_count a;
                data_start_lba := data_start_lba a; bitmap_start_lba := bitmap_start_lba a;
                bitmap_on_disk_blocks := bitmap_on_disk_blocks a; block_size := block_size a;
                free_count := free_count a ⊟ count; dirty := true |})
        | Err e => (Err e, a)
        | Panic => (Panic, a)
        end
    | Err e => (Err e, a)
    | Panic => (Panic, a)
    end.

(** One iteration of [free]: an already free or untracked block is skipped. *)
Definition free_block (idx : Z) (acc : list Z * Z) : out Empty_set (list Z * Z) :=
  let '(bm, freed) := acc in
  if idx / 64 <? zlen bm then
    b ← bit_test bm idx;
    if (b : bool) then bm' ← bit_clear bm idx; Ok (bm', freed ⊞ 1) else Ok (bm, freed)
  else Ok (bm, freed).

Definition free (start count : Z) (a : BlockAllocator) : out Empty_set BlockAllocator :=
  acc ← for_range 0 count (fun i => free_block (start ⊞ i)) (bitmap a, 0);
  Ok {| bitmap := fst acc; data_block_count := data_block_count a;
        data_start_lba := data_start_lba a; bitmap_start_lba := bitmap_start_lba a;
        bitmap_on_disk_blocks := bitmap_on_disk_blocks a; block_size := block_size a;
        free_count := free_count a ⊞ snd acc; dirty := true |}.

Definition to_lba (a : BlockAllocator) (data_block : Z) : Z := data_start_lba a ⊞ data_block.

(** ** Abstract view and invariant *)
Definition used_blocks (a : BlockAllocator) : gset Z := used (bitmap a) (data_block_count a).

(** Every data block has its bit, no other bit is set, and the counter counts
    the free blocks. *)
Definition wf (a : BlockAllocator) : Prop :=
  0 <= data_block_count a < 2 ^ 58 /\
  zlen (bitmap a) = (data_block_count a + 63) / 64 /\
  words_ok (bitmap a) /\
  (forall j, data_block_count a <= j -> bit_at (bitmap a) j = false) /\
  free_count a = data_block_count a - Z.of_nat (size (used_blocks a)).

(** The layout fields, which no operation on the bitmap changes. *)
Definition same_layout (a a' : BlockAllocator) : Prop :=
  data_block_count a' = data_block_count a /\ data_start_lba a' = data_start_lba a /\
  bitmap_start_lba a' = bitmap_start_lba a /\
  bitmap_on_disk_blocks a' = bitmap_on_disk_blocks a /\ block_size a' = block_size a.

Definition free_run (a : BlockAllocator) (p count : Z) : Prop :=
  0 <= p /\ p + count <= data_block_count a /\ run_free (bitmap a) p count.

Lemma wf_free_bound a : wf a -> 0 <= free_count a <= data_block_count a.
Proof.
  intros (Hn & _ & _ & _ & ->). pose proof (used_size_bound (bitmap a) (data_block_count a)).
  unfold used_blocks. lia.
Qed.

Lemma ba_scan_spec a count fuel c :
  wf a -> 0 < count <= data_block_count a -> 0 <= c <= data_block_count a + 1 ->
  Z.max 0 (data_block_count a - c) < Z.of_nat fuel ->
  (forall q, free_run a q count -> c <= q) ->
  (exists p, scan fuel (bitmap a) (data_block_count a) count c = Ok p /\
     free_run a p count /\ forall q, free_run a q count -> p <= q) \/
  (scan fuel (bitmap a) (data_block_count a) count c = Err OutOfSpace /\
     forall q, ~ free_run a q count).
Proof.
  intros (Hn & Hlen & _) Hcount. unfold zlen in Hlen.
  revert c. induction fuel as [|fuel IH]; intros c Hc Hfuel Hlow; [lia|].
  simpl. unwrap. destruct (Z.leb_spec (c + count) (data_block_count a)) as [Hle|Hgt].
  2:{ right. split; [done|]. intros q Hq. pose proof (Hlow q Hq). destruct Hq as (_ & Hq & _). lia. }
  destruct (first_used_cases (E:=AllocError) (bitmap a) c count) as [[-> Hfree]|(idx & -> & Hidx & Hb & _)];
    [lia..| |]; simpl.
  - left. exists c. by repeat split; [lia..| | ].
  - unwrap. apply IH; [lia|lia|]. intros q Hq. pose proof (Hlow q Hq).
    destruct Hq as (_ & _ & Hfree). destruct (decide (q <= idx)); [|lia].
    rewrite Hfree in Hb; [done|lia].
Qed.

Lemma free_run_fits a p count : wf a -> 0 <= count -> free_run a p count -> count <= free_count a.
Proof.
  intros (Hn & _ & _ & _ & ->) Hc (Hp & Hend & Hrun).
  pose proof (run_free_disjoint _ (data_block_count a) _ _ Hrun) as Hdisj.
  pose proof (size_union_disjoint _ _ Hdisj) as Hsz. rewrite size_zrange in Hsz by done.
  assert (size (used_blocks a ∪ zrange p count) <= size (zrange 0 (data_block_count a)))%nat as Hle.
  { apply subseteq_size. intros j. unfold used_blocks.
    rewrite elem_of_union, elem_of_used, !elem_of_zrange. lia. }
  apply Nat2Z.inj_le in Hle. rewrite size_zrange in Hle by lia. unfold used_blocks in *. lia.
Qed.

Lemma ba_alloc_cases a count :
  wf a -> 0 < count < 2 ^ 64 ->
  (exists p a', alloc count a = (Ok p, a') /\ free_run a p count /\
     (forall q, free_run a q count -> p <= q) /\ wf a' /\ same_layout a a' /\ dirty a' = true /\
     used_blocks a' = used_blocks a ∪ zrange p count /\ free_count a' = free_count a - count) \/
  (alloc count a = (Err OutOfSpace, a) /\ forall q, ~ free_run a q count).
Proof.
  intros Hwf Hc. pose proof (wf_free_bound a Hwf) as Hfb. unfold alloc.
  destruct (Z.eqb_spec count 0); [lia|].
  destruct (Z.ltb_spec (free_count a) count) as [Hlt|Hge].
  { right. split; [done|]. intros q Hq. apply free_run_fits in Hq; [lia|done|lia]. }
  destruct (ba_scan_spec a count (S (Z.to_nat (data_block_count a))) 0)
    as [(p & Hscan & Hp & Hleast)|[Hscan Hnone]]; [done|lia|lia|lia|by intros q [? _]| |];
    rewrite Hscan; [|by right].
  left. pose proof Hp as (Hp0 & Hend & Hrun). destruct Hwf as (Hn & Hlen & Hok & Hhi & Hfree).
  destruct (set_run_ok (E:=AllocError) (bitmap a) p count) as (bm & -> & Hl' & Hok' & Hbits);
    [lia|lia|unfold zlen in *; lia|lia|done|].
  eexists p, _. split; [unwrap; done|]. split; [done|]. split; [done|].
  assert (used bm (data_block_count a) = used (bitmap a) (data_block_count a) ∪ zrange p count) as Hu
    by (by apply used_set_run).
  unfold wf, used_blocks in *. simpl. rewrite Hu, size_union_disjoint, size_zrange
    by first [lia | by apply run_free_disjoint].
  split; [|repeat split; lia]. unfold zlen in *. rewrite Hl'.
  repeat split; [lia|lia|lia|done| |lia]. intros j Hj. rewrite Hbits, Hhi by lia.
  by rewrite bool_decide_false by lia.
Qed.

Lemma free_block_ok n idx bm freed :
  0 <= idx -> words_ok bm -> zlen bm = (n + 63) / 64 -> 0 <= n < 2 ^ 58 -> 0 <= freed < 2 ^ 63 ->
  (forall j, n <= j -> bit_at bm j = false) ->
  exists bm', free_block idx (bm, freed) =
      Ok (bm', freed + (Z.of_nat (size (used bm n)) - Z.of_nat (size (used bm' n)))) /\
    words_ok bm' /\ zlen bm' = zlen bm /\ (forall j, n <= j -> bit_at bm' j = false) /\
    used bm' n = used bm n ∖ {[idx]}.
Proof.
  intros Hi Hok Hlen Hn Hfr Hhi. unfold free_block.
  assert (forall b, bit_at bm idx = false -> Ok (E:=Empty_set) (bm, freed) = Ok (bm, freed + (b - b)) /\
    used bm n = used bm n ∖ {[idx]}) as Hskip.
  { intros b Hb. split; [do 2 f_equal; lia|]. apply (bit_at_false_used _ n) in Hb.
    zset_ext j. split; [|tauto]. intros Hj. split; [done|]. by intros ->. }
  destruct (Z.ltb_spec (idx / 64) (zlen bm)) as [Hin|Hout].
  2:{ destruct (Hskip (Z.of_nat (size (used bm n)))) as [-> Hu]; [|by exists bm].
      apply Hhi. lia. }
  unfold zlen in *. rewrite bit_test_ok by lia. simpl. destruct (bit_at bm idx) eqn:Hb.
  - destruct (bit_clear_ok (E:=Empty_set) bm idx) as (bm' & -> & Hl' & Hok' & Hbits); [lia|done|].
    simpl. assert (0 <= idx < n) as Hr.
    { destruct (decide (idx < n)); [lia|]. rewrite Hhi in Hb; [done|lia]. }
    assert (used bm' n = used bm n ∖ {[idx]}) as Hu by (by apply used_clear_bit).
    exists bm'. rewrite Hu, size_delete_Z by eauto with rust. split; [unwrap; do 2 f_equal; lia|].
    split; [done|]. split; [lia|]. split; [|done].
    intros j Hj. rewrite Hbits, Hhi by lia. apply andb_false_r.
  - destruct (Hskip (Z.of_nat (size (used bm n))) eq_refl) as [-> Hu]. by exists bm.
Qed.

Lemma free_ok a start count :
  wf a -> 0 <= start -> 0 <= count -> start + count <= 2 ^ 64 ->
  exists a', free start count a = Ok a' /\ wf a' /\ same_layout a a' /\ dirty a' = true /\
    used_blocks a' = used_blocks a ∖ zrange start count.
Proof.
  intros (Hn & Hlen & Hok & Hhi & Hfree) H0 Hc Hov. unfold free.
  set (n := data_block_count a) in *.
  pose proof (used_size_bound (bitmap a) n ltac:(lia)) as Hsz.
  destruct (for_range_inv (fun i acc => words_ok (fst acc) /\ zlen (fst acc) = zlen (bitmap a) /\
    (forall j, n <= j -> bit_at (fst acc) j = false) /\
    snd acc = Z.of_nat (size (used (bitmap a) n)) - Z.of_nat (size (used (fst acc) n)) /\
    used (fst acc) n = used (bitmap a) n ∖ zrange start i) 0 count
    (fun i => free_block (start ⊞ i)) (bitmap a, 0)) as (acc & -> & Hok' & Hl' & Hhi' & Hfr & Hu);
    [done| | |].
  - simpl. split; [done|]. split; [done|]. split; [done|]. split; [lia|]. zset_ext j. intuition lia.
  - intros i [bm fr] Hi (Hokt & Hlt & Hhit & Hfrt & Hut). cbn [fst snd] in *. unwrap.
    assert (size (used bm n) <= size (used (bitmap a) n))%nat as Hle.
    { rewrite Hut. apply size_difference_le. }
    destruct (free_block_ok n (start + i) bm fr) as (bm' & -> & ? & ? & ? & Hu'); [lia|done|lia..|done|].
    eexists. split; [done|]. simpl. split; [done|]. split; [lia|]. split; [done|]. split; [lia|].
    rewrite Hu', Hut. zset_ext j. intuition lia.
  - simpl. eexists. split; [done|].
    assert (size (used (fst acc) n) <= size (used (bitmap a) n))%nat as Hle.
    { rewrite Hu. apply size_difference_le. }
    unfold wf, used_blocks in *. simpl. fold n. fold n in Hfree.
    split; [|by repeat split]. repeat split; [lia|lia|lia|done|done|]. rewrite Hfree, Hfr. unwrap. lia.
Qed.

(** ** The disk image of the bitmap *)
Definition word (bm : list Z) (i : nat) : Z := default 0 (bm !! i).

(** The bytes of [n] words from word [wo]; words past the end are zero. *)
Definition image (bm : list Z) (wo n : nat) : list Z :=
  flat_map (fun i => le_bytes 8 (word bm i)) (seq wo n).

(** The words stored at byte offset [off] of a disk. *)
Definition disk_words (c : list Z) (off : Z) (n : nat) : list Z :=
  (fun i => from_le (slice c (off + 8 * Z.of_nat i) 8)) <$> seq 0 n.

Lemma image_S bm wo n : image bm wo (S n) = image bm wo n ++ le_bytes 8 (word bm (wo + n)).
Proof. unfold image. rewrite seq_S, flat_map_app. cbn [flat_map]. by rewrite app_nil_r. Qed.

Lemma image_app bm wo n m : image bm wo (n + m) = image bm wo n ++ image bm (wo + n) m.
Proof. unfold image. by rewrite seq_app, flat_map_app. Qed.

Lemma zlen_image bm wo n : zlen (image bm wo n) = 8 * Z.of_nat n.
Proof. induction n as [|n IH]; [done|]. rewrite image_S, zlen_app, IH, zlen_le_bytes. lia. Qed.

Lemma image_ok bm wo n : bytes_ok (image bm wo n).
Proof.
  induction n as [|n IH]; [constructor|]. rewrite image_S.
  apply Forall_app. split; [done|apply le_bytes_ok].
Qed.

Lemma slice_image bm wo n k m :
  (k + m <= n)%nat -> slice (image bm wo n) (8 * Z.of_nat k) (8 * Z.of_nat m) = image bm (wo + k) m.
Proof.
  intros H. replace n with (k + (m + (n - k - m)))%nat by lia.
  rewrite image_app, slice_app_r by (rewrite zlen_image; lia). rewrite zlen_image, Z.sub_diag.
  rewrite image_app, slice_app_l by (rewrite ?zlen_image; lia).
  apply slice_all. rewrite zlen_image. lia.
Qed.

Lemma store_words_ok bm wo wpb :
  0 <= wo -> 0 <= wpb -> wo + wpb < 2 ^ 60 ->
  store_words bm wo wpb (replicate (Z.to_nat (8 * wpb)) 0) =
    Ok (image bm (Z.to_nat wo) (Z.to_nat wpb)).
Proof.
  intros Hwo Hw Hov. unfold store_words.
  destruct (for_range_inv (E:=NvmeError) (fun w s =>
    s = image bm (Z.to_nat wo) (Z.to_nat w) ++ replicate (Z.to_nat (8 * (wpb - w))) 0) 0 wpb
    (fun w s => if wo ⊞ w <? zlen bm then
      word ← or_panic (bm !! Z.to_nat (wo ⊞ w));
      copy_into s (w ⊠ 8) ((w ⊠ 8) ⊞ 8) (le_bytes 8 word) else Ok s)
    (replicate (Z.to_nat (8 * wpb)) 0)) as (s & -> & Hs); [done| | |].
  - simpl. by rewrite Z.sub_0_r.
  - intros w s Hlt ->. unwrap. replace (Z.to_nat (w + 1)) with (S (Z.to_nat w)) by lia.
    rewrite image_S.
    assert (word bm (Z.to_nat wo + Z.to_nat w) = word bm (Z.to_nat (wo + w))) as ->
      by (f_equal; lia).
    replace (replicate (Z.to_nat (8 * (wpb - w))) 0)
      with (replicate 8 0 ++ replicate (Z.to_nat (8 * (wpb - (w + 1)))) 0)
      by (rewrite <- replicate_add; f_equal; lia).
    unfold word. destruct (Z.ltb_spec (wo + w) (zlen bm)) as [Hin|Hout].
    + destruct (lookup_lt_is_Some_2 bm (Z.to_nat (wo + w))) as [x Hx]; [unfold zlen in *; lia|].
      rewrite Hx. cbn -[replicate le_bytes]. eexists. split; [|done].
      rewrite copy_into_ok; rewrite ?zlen_app, ?zlen_image, ?zlen_replicate, ?zlen_le_bytes; [|lia..].
      f_equal. rewrite splice_app by (rewrite zlen_image; lia).
      by rewrite length_le_bytes, <- app_assoc.
    + eexists. split; [done|]. rewrite lookup_ge_None_2 by (unfold zlen in *; lia).
      cbn [default from_option]. by rewrite <- app_assoc.
  - f_equal. rewrite Hs, Z.sub_diag. simpl. by rewrite app_nil_r.
Qed.

Lemma load_words_ok src wo wpb bm words :
  0 <= wo -> 0 <= wpb -> wo + wpb < 2 ^ 60 -> zlen src = 8 * wpb -> zlen bm = words ->
  exists bm', load_words src wo wpb words bm = Ok bm' /\ zlen bm' = words /\
    forall i, bm' !! i =
      if decide (wo <= Z.of_nat i < Z.min (wo + wpb) words)
      then Some (from_le (slice src (8 * (Z.of_nat i - wo)) 8)) else bm !! i.
Proof.
  intros Hwo Hw Hov Hsrc Hbm. unfold load_words.
  destruct (for_range_inv (E:=NvmeError) (fun w bm' => zlen bm' = words /\ forall i, bm' !! i =
      if decide (wo <= Z.of_nat i < Z.min (wo + w) words)
      then Some (from_le (slice src (8 * (Z.of_nat i - wo)) 8)) else bm !! i) 0 wpb
    (fun w bm => if wo ⊞ w <? words then
      b ← index_range src (w ⊠ 8) ((w ⊠ 8) ⊞ 8);
      Ok (<[Z.to_nat (wo ⊞ w) := from_le b]> bm) else Ok bm) bm)
    as (bm' & -> & Hl & Hbm'); [done| | |by exists bm'].
  - split; [done|]. intros i. rewrite decide_False by lia. done.
  - intros w t Hlt (Hl & Ht). unwrap. destruct (Z.ltb_spec (wo + w) words) as [Hin|Hout].
    + rewrite index_range_ok by lia. cbn [mbind out_bind]. eexists. split; [done|].
      split; [unfold zlen in *; by rewrite length_insert|]. intros i.
      destruct (decide (i = Z.to_nat (wo + w))) as [->|Hne].
      * rewrite list_lookup_insert_eq by (unfold zlen in *; lia).
        rewrite decide_True by lia. f_equal. f_equal. f_equal; lia.
      * rewrite list_lookup_insert_ne by done. rewrite Ht.
        destruct (decide _), (decide _); try done; lia.
    + eexists. split; [done|]. split; [done|]. intros i. rewrite Ht.
      destruct (decide _), (decide _); try done; lia.
Qed.

(** ** Counting: [load] recomputes the free counter. *)
Definition ones (bm : list Z) : Z := foldr (fun w acc => count_ones w + acc) 0 bm.

Lemma ones_snoc bm w : ones (bm ++ [w]) = ones bm + count_ones w.
Proof. induction bm as [|x bm IH]; simpl in *; [lia|]. rewrite IH. lia. Qed.

Lemma used_size_ones bm : words_ok bm -> Z.of_nat (size (used bm (64 * zlen bm))) = ones bm.
Proof.
  induction bm as [|w bm IH] using rev_ind; intros Hok.
  { pose proof (used_size_bound [] 0). simpl. change (64 * zlen []) with 0. lia. }
  apply Forall_app in Hok as [Hok Hw]. rewrite ones_snoc, <- IH, zlen_app by done.
  set (L := zlen bm). assert (0 <= L) by apply zlen_nonneg.
  set (top := (list_to_set ((fun i => 64 * L + i) <$> filter (fun i => Z.testbit w i = true) (seqZ 0 64)) : gset Z)).
  assert (forall j, 0 <= j -> bit_at (bm ++ [w]) j =
    if decide (j < 64 * L) then bit_at bm j else if decide (j < 64 * L + 64) then Z.testbit w (j mod 64)
    else false) as Hbit.
  { intros j Hj. unfold bit_at. subst L. unfold zlen in *. destruct (decide _).
    - by rewrite lookup_app_l by lia.
    - destruct (decide _); [|by rewrite lookup_ge_None_2 by (rewrite length_app; simpl; lia)].
      rewrite lookup_app_r by lia. by replace (Z.to_nat (j / 64) - length bm)%nat with 0%nat by lia. }
  assert (used (bm ++ [w]) (64 * (L + zlen [w])) = used bm (64 * L) ∪ top) as ->.
  { zset_ext j. rewrite !elem_of_used. unfold top.
    rewrite elem_of_list_to_set, list_elem_of_fmap.
    setoid_rewrite list_elem_of_filter. setoid_rewrite elem_of_seqZ.
    change (zlen [w]) with 1. destruct (decide (0 <= j)) as [H0|]; [|split; [lia|]; intros [?|(?&?&?&?)]; lia].
    rewrite Hbit by done. split.
    - intros [Hj Hb]. destruct (decide (j < 64 * L)); [by left|]. right.
      rewrite decide_True in Hb by lia. exists (j mod 64). repeat split; [lia|done|lia..].
    - intros [[Hj Hb]|(i & -> & Hb & Hi)].
      + split; [lia|]. by rewrite decide_True by lia.
      + split; [lia|]. rewrite decide_False, decide_True by lia.
        by replace ((64 * L + i) mod 64) with i by lia. }
  rewrite size_union.
  - unfold top. rewrite size_list_to_set.
    + rewrite length_fmap. unfold count_ones. lia.
    + apply NoDup_fmap_2; [intros ???; lia|]. apply NoDup_filter, NoDup_seqZ.
  - intros j Hj%elem_of_used. unfold top. rewrite elem_of_list_to_set, list_elem_of_fmap.
    setoid_rewrite list_elem_of_filter. setoid_rewrite elem_of_seqZ. intros (i & -> & _ & Hi). lia.
Qed.

Lemma used_tail bm n m : n <= m -> (forall j, n <= j -> bit_at bm j = false) -> used bm m = used bm n.
Proof.
  intros Hle Hhi. zset_ext j. rewrite !elem_of_used. split; [|intuition lia].
  intros [Hj Hb]. destruct (decide (j < n)); [intuition lia|]. rewrite Hhi in Hb; [done|lia].
Qed.

Definition valid_bits (n words i : Z) : Z :=
  if i =? words - 1 then (if n mod 64 =? 0 then 64 else n mod 64) else 64.

Lemma count_free_wrap n words k bm :
  foldr (fun '(i, word) acc => (valid_bits n words i ⊟ count_ones word) ⊞ acc) 0
    (zip (seqZ k (zlen bm)) bm) =
  wrap64 (foldr (fun i acc => valid_bits n words i + acc) 0 (seqZ k (zlen bm)) - ones bm).
Proof.
  revert k. induction bm as [|w bm IH]; intros k; [done|].
  rewrite zlen_cons, seqZ_cons by (pose proof (zlen_nonneg bm); lia).
  replace (Z.pred (1 + zlen bm)) with (zlen bm) by lia. cbn [zip zip_with foldr ones]. 
  rewrite IH. unfold wrap64. fold (ones bm). lia.
Qed.

Lemma valid_bits_sum n k : forall m, 0 <= n -> 0 <= k -> k + Z.of_nat m = (n + 63) / 64 -> 64 * k <= n ->
  foldr (fun i acc => valid_bits n ((n + 63) / 64) i + acc) 0 (seqZ k (Z.of_nat m)) = n - 64 * k.
Proof.
  intros m Hn. revert k. induction m as [|m IH]; intros k Hk Hm Hle; [simpl; lia|].
  rewrite seqZ_cons by lia. cbn [foldr].
  replace (Z.pred (Z.of_nat (S m))) with (Z.of_nat m) by lia.
  destruct (decide (m = O)) as [->|Hne].
  - simpl. unfold valid_bits. rewrite (proj2 (Z.eqb_eq k _)) by lia.
    destruct (Z.eqb_spec (n mod 64) 0); lia.
  - rewrite IH by lia. unfold valid_bits. rewrite (proj2 (Z.eqb_neq k _)) by lia. lia.
Qed.

Lemma count_free_ok a :
  wf a -> count_free (bitmap a) ((data_block_count a + 63) / 64) (data_block_count a) = free_count a.
Proof.
  intros (Hn & Hlen & Hok & Hhi & ->).
  change (count_free (bitmap a) ((data_block_count a + 63) / 64) (data_block_count a)) with
    (foldr (fun '(i, word) acc =>
       (valid_bits (data_block_count a) ((data_block_count a + 63) / 64) i ⊟ count_ones word) ⊞ acc)
     0 (zip (seqZ 0 (zlen (bitmap a))) (bitmap a))).
  rewrite count_free_wrap, <- used_size_ones by done. unfold zlen in *.
  rewrite valid_bits_sum by lia.
  rewrite (used_tail _ (data_block_count a)) by first [lia | done].
  unfold used_blocks. pose proof (used_size_bound (bitmap a) (data_block_count a)). unwrap. lia.
Qed.

Definition sb_ok (sb : Superblock) : Prop :=
  is_u64 (magic sb) /\ is_u32 (version sb) /\ is_u32 (sb_block_size sb) /\
  is_u64 (total_blocks sb) /\ is_u64 (sb_bitmap_start_lba sb) /\ is_u64 (bitmap_block_count sb) /\
  is_u64 (file_table_start_lba sb) /\ is_u64 (file_table_block_count sb) /\
  is_u64 (sb_data_start_lba sb) /\ is_u64 (sb_data_block_count sb).

Lemma sb_roundtrip sb rest : sb_ok sb -> sb_of_bytes (sb_bytes sb ++ rest) = sb.
Proof.
  unfold sb_ok, is_u32, is_u64, sb_of_bytes, sb_bytes. intros H.
  rewrite <- !app_assoc. slice_field. by destruct sb.
Qed.

Lemma zlen_sb_bytes sb : zlen (sb_bytes sb) = 4080.
Proof. unfold sb_bytes. rewrite !zlen_app, !zlen_le_bytes, zlen_replicate. done. Qed.

Lemma sb_bytes_ok sb : bytes_ok (sb_bytes sb).
Proof.
  unfold sb_bytes. repeat apply Forall_app_2; try apply le_bytes_ok. apply bytes_ok_replicate.
Qed.

Lemma image_zero wo n m : image (replicate m 0) wo n = replicate (8 * n) 0.
Proof.
  induction n as [|n IH]; [done|]. rewrite image_S, IH.
  replace (word (replicate m 0) (wo + n)) with 0.
  - replace (8 * S n)%nat with (8 * n + 8)%nat by lia. by rewrite replicate_add.
  - unfold word. destruct (replicate m 0 !! (wo + n)%nat) eqn:He; [|done].
    by apply lookup_replicate_1 in He as [-> _].
Qed.

(** ** Flush, load and format on a lawful device *)
Section disk.
Context `{BlockDeviceSpec D}.

(** The allocator's geometry fits the device it is stored on. *)
Definition layout_ok (a : BlockAllocator) (d : D) : Prop :=
  dev_ok d /\ block_size a = dev_block_size d /\ block_size a mod 8 = 0 /\
  4096 <= block_size a <= io_limit d /\
  1 <= bitmap_start_lba a /\ 0 <= bitmap_on_disk_blocks a /\
  (data_block_count a + 63) / 64 <= bitmap_on_disk_blocks a * (block_size a / 8) /\
  bitmap_start_lba a + bitmap_on_disk_blocks a <= dev_total_blocks d.

Definition region_off (a : BlockAllocator) : Z := bitmap_start_lba a * block_size a.
Definition region_len (a : BlockAllocator) : Z := bitmap_on_disk_blocks a * block_size a.
Definition region_image (a : BlockAllocator) : list Z :=
  image (bitmap a) 0 (Z.to_nat (bitmap_on_disk_blocks a * (block_size a / 8))).

(** The superblock on the disk [c] gives the layout of [a]. *)
Definition header_ok (c : list Z) (a : BlockAllocator) : Prop :=
  let sb := sb_of_bytes (slice c 0 (block_size a)) in
  is_valid sb = true /\ sb_data_block_count sb = data_block_count a /\
  sb_data_start_lba sb = data_start_lba a /\ sb_bitmap_start_lba sb = bitmap_start_lba a /\
  bitmap_block_count sb = bitmap_on_disk_blocks a.

(** The disk image [c] describes the allocator [a]. *)
Definition on_disk (c : list Z) (a : BlockAllocator) : Prop :=
  header_ok c a /\ slice c (region_off a) (region_len a) = region_image a.

Definition clean (a : BlockAllocator) : BlockAllocator := {|
  bitmap := bitmap a; data_block_count := data_block_count a;
  data_start_lba := data_start_lba a; bitmap_start_lba := bitmap_start_lba a;
  bitmap_on_disk_blocks := bitmap_on_disk_blocks a; block_size := block_size a;
  free_count := free_count a; dirty := false |}.

Lemma zlen_region_image a d : layout_ok a d -> zlen (region_image a) = region_len a.
Proof.
  intros (_ & Hbs & Hm & Hsz & Hst & Hnb & _). unfold region_image, region_len.
  rewrite zlen_image. rewrite Z2Nat.id by nia. nia.
Qed.

Lemma ba_region_in_disk a d :
  layout_ok a d -> 4096 <= region_off a /\ 0 <= region_len a /\
  region_off a + region_len a <= zlen (contents d) /\
  zlen (contents d) < 2 ^ 63.
Proof.
  intros (Hd & Hbs & Hm & Hsz & Hst & Hnb & _ & Hfit). unfold region_off, region_len.
  destruct (law_geometry d Hd) as (Hg1 & Hg2 & _ & Hz & Hz2). rewrite Hz. nia.
Qed.

Lemma ba_layout_ok_kind a d d' : layout_ok a d -> same_kind d d' -> layout_ok a d'.
Proof.
  intros (Hd & Hbs & Hm & Hsz & Hst & Hnb & Hw & Hfit) (Hd' & Hb & Ht & Hl & _).
  unfold layout_ok. rewrite Hb, Ht, Hl. tauto.
Qed.

Lemma ba_flush_ok a w :
  Phys.wf (pages w) -> layout_ok a (dev w) ->
  wp (flush a)
    (fun a' w' => pages w' = pages w /\ same_kind (dev w) (dev w') /\ a' = clean a /\
       contents (dev w') =
         if dirty a then splice (contents (dev w)) (region_off a) (region_image a)
         else contents (dev w))
    (fun e w' => pages w' = pages w /\ same_kind (dev w) (dev w') /\
       same_outside (contents (dev w)) (contents (dev w')) (region_off a)
         (region_off a + region_len a) /\
       (reliable (dev w) -> e = OutOfMemory /\ ~ room (pages w) (block_size a))) w.
Proof.
  intros Hp Hlay. pose proof Hlay as (Hd & Hbs & Hm & Hsz & Hst & Hnb & _ & Hfit).
  pose proof (same_kind_refl (dev w) Hd) as Hrefl.
  pose proof (ba_region_in_disk a _ Hlay) as (Hr1 & Hr0 & Hr2 & Hr3). unfold flush.
  destruct (dirty a) eqn:Hdirty; simpl.
  2:{ apply wp_ret. repeat split; try done; try apply Hrefl. destruct a; simpl in *; by subst. }
  set (bs := block_size a) in *. set (wpb := bs / 8) in *. set (nb := bitmap_on_disk_blocks a) in *.
  set (s0 := bitmap_start_lba a) in *.
  assert (region_off a = s0 * bs) as Hro by done. assert (region_len a = nb * bs) as Hrl by done.
  assert (bs = 8 * wpb) as Hbw by (subst wpb; lia).
  destruct (law_geometry _ Hd) as (Hg1 & Hg2 & Hgb & Hz & _).
  assert (nb * bs < 2 ^ 63) as Hnbb by lia.
  apply wp_with_dma; [done|lia| |].
  { intros Hno. split; [done|]. split; [done|]. by split; [apply same_outside_refl|]. }
  intros b p Hdata Hwfp. apply wp_bind.
  eapply wp_mono; [apply (wp_range (fun blk buf w' => pages w' = p /\ same_kind (dev w) (dev w') /\
     zlen (data buf) = bs /\
     contents (dev w') = splice (contents (dev w)) (region_off a) (image (bitmap a) 0 (Z.to_nat (blk * wpb))))
     (fun _ w' => pages w' = p /\ same_kind (dev w) (dev w') /\
       same_outside (contents (dev w)) (contents (dev w')) (region_off a)
         (region_off a + region_len a) /\ ~ reliable (dev w))); [done| |]| |].
  - cbn [pages dev]. split; [done|]. split; [done|]. split; [rewrite Hdata, zlen_replicate; lia|].
    change (image (bitmap a) 0 (Z.to_nat (0 * wpb))) with (@nil Z). rewrite splice_nil; [done|]. lia.
  - intros blk buf [d' p'] Hblk (Hpp & Hk & Hlen & Hcont). cbn [pages dev] in *. subst p'.
    assert (blk * wpb + wpb <= nb * wpb) as Hin by nia.
    assert (0 <= blk * wpb) by nia. assert (nb * wpb < 2 ^ 60) by nia.
    assert ((s0 + blk) * bs = region_off a + 8 * (blk * wpb)) as Hoff by (rewrite Hro, Hbw; ring).
    assert ((blk + 1) * wpb = blk * wpb + wpb) as Hnext by ring.
    assert (region_len a = 8 * (nb * wpb)) as Hlen8 by (rewrite Hrl, Hbw; ring).
    rewrite (wrap64_small (blk * wpb)) by lia.
    assert (replicate (length (data buf)) 0 = replicate (Z.to_nat (8 * wpb)) 0) as ->
      by (f_equal; unfold zlen in *; lia).
    rewrite store_words_ok by lia.
    apply wp_bind. eapply wp_lift; [done|]. apply wp_bind.
    pose proof Hk as (Hd' & Hb' & Ht' & Hl' & Hrel').
    assert (zlen (contents d') = zlen (contents (dev w))) as Hzc.
    { destruct (law_geometry d' Hd') as (_ & _ & _ & Hzz & _). rewrite Hzz, Hz. congruence. }
    assert (s0 + nb < 2 ^ 63) by nia. rewrite (wrap64_small (s0 + blk)) by lia.
    apply wp_write; cbn [dev pages data set_data];
      [done|done|lia|lia|rewrite Hb', <- Hbs; lia|rewrite Hb', Hl'; lia
      |rewrite zlen_image, Hb', <- Hbs; lia|apply image_ok|].
    intros d2 Hk2. rewrite Hb', <- Hbs. split.
    + intros _ Hc2. apply wp_ret. cbn [dev pages data set_data]. split; [done|].
      split; [by eapply same_kind_trans|]. split; [rewrite zlen_image; lia|].
      rewrite Hc2, Hcont.
      replace ((s0 + blk) * bs) with (region_off a + zlen (image (bitmap a) 0 (Z.to_nat (blk * wpb))))
        by (rewrite zlen_image; lia).
      rewrite splice_splice_adj.
      * f_equal. replace (Z.to_nat ((blk + 1) * wpb)) with (Z.to_nat (blk * wpb) + Z.to_nat wpb)%nat by lia.
        by rewrite image_app.
      * lia.
      * rewrite !zlen_image. lia.
    + intros e Herr Hc2. cbn [dev pages]. split; [done|]. split; [by eapply same_kind_trans|].
      assert (same_outside (contents (dev w)) (contents d') (region_off a) (region_off a + region_len a)) as Hso.
      { rewrite Hcont. apply same_outside_splice; rewrite ?zlen_image; lia. }
      split.
      * destruct Hc2 as [->|(_ & new & Hnew & ->)]; [done|]. eapply same_outside_trans; [done|].
        apply same_outside_splice; rewrite ?Hzc, ?Hnew; lia.
      * intros Hrel. apply Herr; [by apply Hrel'|]. unfold in_range. rewrite Ht'. lia.
  - intros buf w' (Hp' & Hk & Hlen & Hcont). apply wp_ret. cbn [dev pages].
    split; [done|]. split; [done|]. split; [done|]. split; [done|]. by rewrite Hcont.
  - intros e w' (Hp' & Hk & Hso & Hr). cbn [dev pages].
    split; [done|]. split; [done|]. split; [done|]. split; [done|]. intros Hrel. by destruct Hr.
Qed.

Lemma image_word bm wo n k :
  words_ok bm -> (k < n)%nat -> from_le (slice (image bm wo n) (8 * Z.of_nat k) 8) = word bm (wo + k).
Proof.
  intros Hok Hk. change 8 with (8 * Z.of_nat 1) at 2. rewrite slice_image by lia.
  unfold image. cbn [seq flat_map]. rewrite app_nil_r. apply from_le_bytes_id.
  unfold word. destruct (bm !! (wo + k)%nat) as [x|] eqn:Hx; [|done].
  apply (words_ok_lookup _ _ _ Hok Hx).
Qed.

(** The slice of the region that the block [blk] holds. *)
Lemma region_block c a d blk :
  layout_ok a d -> zlen c = zlen (contents d) ->
  slice c (region_off a) (region_len a) = region_image a ->
  0 <= blk < bitmap_on_disk_blocks a ->
  slice c ((bitmap_start_lba a + blk) * block_size a) (block_size a) =
    image (bitmap a) (Z.to_nat (blk * (block_size a / 8))) (Z.to_nat (block_size a / 8)).
Proof.
  intros Hlay Hc Himg Hblk. pose proof (ba_region_in_disk a d Hlay) as (Hr1 & Hr0 & Hr2 & Hr3).
  destruct Hlay as (Hd & Hbs & Hm & Hsz & Hst & Hnb & _).
  assert (block_size a = 8 * (block_size a / 8)) as Hbw by lia.
  assert (0 <= blk * block_size a /\ blk * block_size a + block_size a <= region_len a) as Hin
    by (unfold region_len; nia).
  replace ((bitmap_start_lba a + blk) * block_size a) with (region_off a + blk * block_size a)
    by (unfold region_off; ring).
  rewrite <- (slice_slice c (region_off a) (region_len a)) by lia. rewrite Himg.
  set (wpb := block_size a / 8) in *. unfold region_image. fold wpb.
  assert (0 <= blk * wpb /\ blk * wpb + wpb <= bitmap_on_disk_blocks a * wpb) by nia.
  replace (blk * block_size a) with (8 * Z.of_nat (Z.to_nat (blk * wpb))) by (rewrite Hbw; lia).
  replace (block_size a) with (8 * Z.of_nat (Z.to_nat wpb)) by lia.
  rewrite slice_image by lia. done.
Qed.

(** The layout [format] computes for [total] blocks of [bs] bytes. *)
Definition fmt_bitmap_blocks (total bs : Z) : Z := (total - 2 + bs * 8 - 1) / (bs * 8).
Definition fmt_data_start (total bs : Z) : Z := 2 + fmt_bitmap_blocks total bs.
Definition fmt_sb (total bs : Z) : Superblock := {|
  magic := SUPERBLOCK_MAGIC; version := SUPERBLOCK_VERSION; sb_block_size := bs;
  total_blocks := total; sb_bitmap_start_lba := 1;
  bitmap_block_count := fmt_bitmap_blocks total bs;
  file_table_start_lba := 1 + fmt_bitmap_blocks total bs; file_table_block_count := 1;
  sb_data_start_lba := fmt_data_start total bs;
  sb_data_block_count := Z.max 0 (total - fmt_data_start total bs) |}.
Definition fmt_alloc (total bs : Z) : BlockAllocator := {|
  bitmap := replicate (Z.to_nat ((Z.max 0 (total - fmt_data_start total bs) + 63) / 64)) 0;
  data_block_count := Z.max 0 (total - fmt_data_start total bs);
  data_start_lba := fmt_data_start total bs; bitmap_start_lba := 1;
  bitmap_on_disk_blocks := fmt_bitmap_blocks total bs; block_size := bs;
  free_count := Z.max 0 (total - fmt_data_start total bs); dirty := false |}.
(** The bytes it writes, from the start of the device. *)
Definition fmt_bytes (total bs : Z) : list Z :=
  (sb_bytes (fmt_sb total bs) ++ replicate (Z.to_nat (bs - 4080)) 0) ++
  replicate (Z.to_nat ((fmt_bitmap_blocks total bs + 1) * bs)) 0.

Lemma fmt_bounds total bs :
  4096 <= bs -> 2 <= total -> total * bs < 2 ^ 63 ->
  0 <= fmt_bitmap_blocks total bs <= total - 2 /\ total < 2 ^ 51 /\
  Z.max 0 (total - fmt_data_start total bs) <= fmt_bitmap_blocks total bs * (bs * 8).
Proof.
  intros Hbs Ht Hov. assert (total < 2 ^ 51) by nia. unfold fmt_data_start, fmt_bitmap_blocks.
  set (q := bs * 8) in *. assert (32768 <= q) by lia.
  pose proof (Z.div_mod (total - 2 + q - 1) q ltac:(lia)) as Hdm.
  pose proof (Z.mod_pos_bound (total - 2 + q - 1) q ltac:(lia)) as Hmb.
  set (b := (total - 2 + q - 1) / q) in *. clearbody b q.
  assert (0 <= b) by nia. assert (b <= total - 2) by nia. nia.
Qed.

Lemma fmt_sb_ok total bs :
  4096 <= bs < 2 ^ 32 -> 2 <= total -> total * bs < 2 ^ 63 -> sb_ok (fmt_sb total bs).
Proof.
  intros Hbs Ht Hov. pose proof (fmt_bounds total bs ltac:(lia) Ht Hov) as (Hb & Ht2 & _).
  unfold sb_ok, is_u32, is_u64, fmt_sb, fmt_data_start. simpl.
  unfold SUPERBLOCK_MAGIC, SUPERBLOCK_VERSION, fmt_data_start. lia.
Qed.

Lemma zlen_fmt_bytes total bs :
  4096 <= bs -> 2 <= total -> total * bs < 2 ^ 63 ->
  zlen (fmt_bytes total bs) = (fmt_bitmap_blocks total bs + 2) * bs.
Proof.
  intros Hbs Ht Hov. pose proof (fmt_bounds total bs Hbs Ht Hov) as (Hb & _).
  unfold fmt_bytes. rewrite !zlen_app, !zlen_replicate, zlen_sb_bytes. nia.
Qed.

Lemma fmt_alloc_wf total bs :
  4096 <= bs -> 2 <= total -> total * bs < 2 ^ 63 -> wf (fmt_alloc total bs).
Proof.
  intros Hbs Ht Hov. pose proof (fmt_bounds total bs Hbs Ht Hov) as (Hb & Ht2 & _).
  unfold wf, used_blocks, fmt_alloc. simpl. unfold fmt_data_start.
  split; [lia|]. split; [rewrite zlen_replicate; lia|]. split; [by apply Forall_replicate|].
  split; [intros; apply bit_at_replicate_0|].
  assert (used (replicate (Z.to_nat ((Z.max 0 (total - (2 + fmt_bitmap_blocks total bs)) + 63) / 64)) 0)
    (Z.max 0 (total - (2 + fmt_bitmap_blocks total bs))) = ∅) as ->; [|rewrite size_empty; lia].
  apply set_eq. intros j. rewrite elem_of_used, bit_at_replicate_0, elem_of_empty. split; [by intros [_ ?]|done].
Qed.

(** What was just formatted describes the allocator [format] returns, and the
    file table block is zero. *)
Lemma fmt_on_disk total bs c :
  4096 <= bs < 2 ^ 32 -> bs mod 8 = 0 -> 2 <= total -> total * bs = zlen c -> zlen c < 2 ^ 63 ->
  on_disk (splice c 0 (fmt_bytes total bs)) (fmt_alloc total bs) /\
  slice (splice c 0 (fmt_bytes total bs)) ((1 + fmt_bitmap_blocks total bs) * bs) bs =
    replicate (Z.to_nat bs) 0.
Proof.
  intros Hbs Hm Ht Hc Hov. rewrite <- Hc in Hov.
  pose proof (fmt_bounds total bs ltac:(lia) Ht Hov) as (Hb & Ht2 & _).
  pose proof (zlen_fmt_bytes total bs ltac:(lia) Ht Hov) as Hz.
  set (nb := fmt_bitmap_blocks total bs) in *.
  assert ((nb + 2) * bs <= zlen c) by nia.
  assert (forall off n, 0 <= off -> 0 <= n -> off + n <= (nb + 2) * bs ->
    slice (splice c 0 (fmt_bytes total bs)) off n = slice (fmt_bytes total bs) off n) as Hsl.
  { intros off n Hoff Hn Hle. rewrite <- (slice_splice_same c 0 (fmt_bytes total bs)) at 2 by lia.
    by rewrite slice_slice by lia. }
  assert (zlen (sb_bytes (fmt_sb total bs) ++ replicate (Z.to_nat (bs - 4080)) 0) = bs) as Hhd
    by (rewrite zlen_app, zlen_sb_bytes, zlen_replicate; lia).
  assert (forall k m, 0 <= k -> 0 <= m -> k + m <= (nb + 1) * bs ->
    slice (fmt_bytes total bs) (bs + k) m = replicate (Z.to_nat m) 0) as Hzero.
  { intros k m Hk Hm' Hle. unfold fmt_bytes. rewrite slice_app_r by lia. rewrite Hhd. fold nb.
    unfold slice. rewrite drop_replicate, take_replicate. f_equal. lia. }
  split.
  - unfold on_disk, header_ok. change (block_size (fmt_alloc total bs)) with bs.
    rewrite Hsl by nia. unfold fmt_bytes at 1 2 3 4 5. rewrite slice_app_l by lia.
    rewrite slice_all by lia. rewrite sb_roundtrip by (apply fmt_sb_ok; done).
    repeat split; try done.
    unfold region_off, region_len, region_image. cbn [bitmap_start_lba block_size bitmap_on_disk_blocks bitmap fmt_alloc].
    fold nb. assert (bs = 8 * (bs / 8)) as Hb8 by lia. assert (0 <= nb * bs) by nia.
    rewrite Hsl by nia. replace (1 * bs) with (bs + 0) by lia. rewrite Hzero by nia.
    rewrite image_zero. f_equal.
    replace (nb * bs) with (8 * (nb * (bs / 8))) by (rewrite Hb8 at 2; ring). lia.
  - rewrite Hsl by nia. replace ((1 + nb) * bs) with (bs + nb * bs) by ring. apply Hzero; nia.
Qed.

Lemma format_ok w total :
  Phys.wf (pages w) -> dev_ok (dev w) -> total = dev_total_blocks (dev w) -> 2 <= total ->
  4096 <= dev_block_size (dev w) <= io_limit (dev w) -> dev_block_size (dev w) mod 8 = 0 ->
  wp (format total (dev_block_size (dev w)))
    (fun a w' => pages w' = pages w /\ same_kind (dev w) (dev w') /\
       a = fmt_alloc total (dev_block_size (dev w)) /\ durable (dev w') = contents (dev w') /\
       contents (dev w') = splice (contents (dev w)) 0 (fmt_bytes total (dev_block_size (dev w))))
    (fun e w' => pages w' = pages w /\ same_kind (dev w) (dev w') /\
       (reliable (dev w) -> e = OutOfMemory)) w.
Proof.
  intros Hp Hd Htot Ht Hsz Hm.
  pose proof (law_geometry _ Hd) as (Hg1 & Hg2 & Hgb & Hz & Hz2).
  set (bs := dev_block_size (dev w)) in *. rewrite <- Htot in Hz.
  pose proof (fmt_bounds total bs ltac:(lia) Ht ltac:(lia)) as (Hb & Ht2 & Hcap).
  pose proof (zlen_fmt_bytes total bs ltac:(lia) Ht ltac:(lia)) as Hzf.
  set (nb := fmt_bitmap_blocks total bs) in *.
  assert (0 <= (nb + 2) * bs <= zlen (contents (dev w))) as Hfit by nia.
  set (hd := sb_bytes (fmt_sb total bs) ++ replicate (Z.to_nat (bs - 4080)) 0).
  assert (zlen hd = bs) as Hhd by (unfold hd; rewrite zlen_app, zlen_sb_bytes, zlen_replicate; lia).
  assert (total * bs < 2 ^ 63) as Htb by lia.
  pose proof (same_kind_refl (dev w) Hd) as Hrefl.
  unfold format. rewrite (wrap64_small (bs * 8)) by lia.
  rewrite (wrap64_small (total - 1)) by lia. rewrite (wrap64_small (total - 1 - 1)) by lia.
  rewrite (wrap64_small (total - 1 - 1 + bs * 8)) by lia.
  rewrite (wrap64_small (total - 1 - 1 + bs * 8 - 1)) by lia.
  destruct (Z.eqb_spec (bs * 8) 0); [lia|].
  replace ((total - 1 - 1 + bs * 8 - 1) / (bs * 8)) with nb by (unfold nb, fmt_bitmap_blocks; f_equal; lia).
  rewrite (wrap64_small (1 + nb)) by lia. rewrite (wrap64_small (1 + nb + 1)) by lia.
  replace (1 + nb + 1) with (fmt_data_start total bs) by (unfold fmt_data_start; fold nb; lia).
  change (sat_sub total (fmt_data_start total bs)) with (Z.max 0 (total - fmt_data_start total bs)).
  apply wp_with_dma; [done|lia|by repeat split|].
  intros b p Hdata Hwfp. apply wp_bind.
  change {| magic := SUPERBLOCK_MAGIC; version := SUPERBLOCK_VERSION; sb_block_size := bs;
    total_blocks := total; sb_bitmap_start_lba := 1; bitmap_block_count := nb;
    file_table_start_lba := 1 + nb; file_table_block_count := 1;
    sb_data_start_lba := fmt_data_start total bs;
    sb_data_block_count := Z.max 0 (total - fmt_data_start total bs) |} with (fmt_sb total bs).
  eapply wp_lift.
  { apply Dma.copy_from_slice_ok. unfold Dma.len. rewrite Hdata, zlen_replicate, zlen_sb_bytes. lia. }
  assert (splice (data b) 0 (sb_bytes (fmt_sb total bs)) = hd) as Hhdeq.
  { rewrite Hdata, splice_0, drop_replicate. unfold hd. do 2 f_equal.
    pose proof (zlen_sb_bytes (fmt_sb total bs)) as Hzs. unfold zlen in Hzs.
    revert Hzs. generalize (length (sb_bytes (fmt_sb total bs))). lia. }
  rewrite Hhdeq. apply wp_bind.
  apply wp_write; cbn [dev pages data set_data]; fold bs; [done|done|lia|lia|lia|lia|lia| |].
  { apply Forall_app_2; [apply sb_bytes_ok|apply bytes_ok_replicate]. }
  intros d1 Hk1. split.
  2:{ intros e He _. split; [done|]. split; [done|]. split; [done|]. intros Hr. exfalso.
      apply He; [done|]. unfold in_range. lia. }
  intros _ Hc1. rewrite Z.mul_0_l in Hc1.
  apply wp_with_dma; cbn [pages dev]; [done|lia|intros _; split; [done|]; split; [done|]; by split|].
  intros zb p2 Hzd Hwfp2. apply wp_bind.
  assert (Hinv : forall i w', 0 <= i < nb + 1 -> pages w' = p2 -> same_kind (dev w) (dev w') ->
    contents (dev w') = splice (contents (dev w)) 0 (hd ++ replicate (Z.to_nat (i * bs)) 0) ->
    wp (write_blocks (1 + i) 1 zb)
      (fun _ w'' => pages w'' = p2 /\ same_kind (dev w) (dev w'') /\
        contents (dev w'') = splice (contents (dev w)) 0 (hd ++ replicate (Z.to_nat ((i + 1) * bs)) 0))
      (fun e w'' => pages w'' = p2 /\ same_kind (dev w) (dev w'') /\ ~ reliable (dev w)) w').
  { intros i [d' p'] Hi Hpp Hk Hc. cbn [dev pages] in *. subst p'.
    pose proof Hk as (Hd' & Hb' & Ht' & Hl' & Hrel'). fold bs in Hb'.
    assert (0 <= i * bs /\ i * bs + bs <= (nb + 1) * bs) as Hib by nia.
    apply wp_write; cbn [dev pages]; rewrite ?Hb';
      [done|done|lia|lia|lia|rewrite Hl'; lia|rewrite Hzd, zlen_replicate; lia
      |rewrite Hzd; apply bytes_ok_replicate|].
    intros d2 Hk2. split.
    - intros _ Hc2. cbn [dev pages]. split; [done|]. split; [by eapply same_kind_trans|].
      rewrite Hc2, Hc, Hzd.
      replace ((1 + i) * bs) with (0 + zlen (hd ++ replicate (Z.to_nat (i * bs)) 0))
        by (rewrite zlen_app, zlen_replicate; lia).
      rewrite splice_splice_adj by (rewrite ?zlen_app, ?zlen_replicate; lia).
      rewrite <- app_assoc, <- replicate_add. do 3 f_equal. lia.
    - intros e He _. cbn [dev pages]. split; [done|]. split; [by eapply same_kind_trans|].
      intros Hrel. apply He; [by apply Hrel'|]. unfold in_range. rewrite Ht', <- Htot. lia. }
  eapply wp_mono; [apply (wp_range (fun i _ w' => pages w' = p2 /\ same_kind (dev w) (dev w') /\
      contents (dev w') = splice (contents (dev w)) 0 (hd ++ replicate (Z.to_nat (i * bs)) 0))
     (fun _ w' => pages w' = p2 /\ same_kind (dev w) (dev w') /\ ~ reliable (dev w))); [lia| |]| |].
  - cbn [dev pages]. split; [done|]. split; [done|]. rewrite Hc1. simpl. by rewrite app_nil_r.
  - intros i _ w' Hi (Hp' & Hk' & Hc'). rewrite wrap64_small by lia. apply Hinv; [lia|assumption..].
  - intros _ w' (Hp' & Hk' & Hc'). apply wp_bind.
    eapply wp_mono; [apply (Hinv nb); [lia|assumption..]| |].
    + intros _ w2 (Hp2 & Hk2 & Hc2). apply wp_bind.
      destruct w2 as [d2 p2']. cbn [dev pages] in *. subst p2'.
      apply wp_flush; cbn [dev pages]; [apply Hk2|done|].
      intros d3 Hk3 Hc3. split.
      * intros Hdur. apply wp_ret. cbn [dev pages]. split; [done|]. split; [done|].
        split; [done|]. split; [by eapply same_kind_trans|]. split.
        { unfold fmt_alloc, bitmap_words. fold nb. unfold fmt_data_start in *. fold nb in Hcap |- *.
          rewrite wrap64_small by lia. done. }
        split; [congruence|]. rewrite Hc3, Hc2. reflexivity.
      * intros e He. cbn [dev pages]. split; [done|]. split; [done|]. split; [done|].
        split; [by eapply same_kind_trans|]. intros Hr. destruct He. by apply Hk2.
    + intros e w2 (Hp2 & Hk2 & Hr2). cbn [dev pages]. split; [done|]. split; [done|].
      split; [done|]. split; [done|]. intros Hr. by destruct Hr2.
  - intros e w2 (Hp2 & Hk2 & Hr2). cbn [dev pages]. split; [done|]. split; [done|].
    split; [done|]. split; [done|]. intros Hr. by destruct Hr2.
Qed.

Lemma ba_load_ok a w :
  Phys.wf (pages w) -> layout_ok a (dev w) -> wf a -> on_disk (contents (dev w)) a ->
  wp load
    (fun a' w' => pages w' = pages w /\ same_kind (dev w) (dev w') /\
       contents (dev w') = contents (dev w) /\ durable (dev w') = durable (dev w) /\ a' = clean a)
    (fun e w' => pages w' = pages w /\ same_kind (dev w) (dev w') /\
       contents (dev w') = contents (dev w) /\ (reliable (dev w) -> e = OutOfMemory)) w.
Proof.
  intros Hp Hlay Hwf ((Hval & Hn & Hds & Hbs0 & Hnb0) & Himg).
  pose proof Hlay as (Hd & Hbs & Hm & Hsz & Hst & Hnb & Hcap & Hfit).
  pose proof (same_kind_refl (dev w) Hd) as Hrefl.
  pose proof (ba_region_in_disk a _ Hlay) as (Hr1 & Hr0 & Hr2 & Hr3).
  pose proof (law_geometry _ Hd) as (Hg1 & Hg2 & Hgb & Hz & _).
  unfold load, wp. apply (wp_with_dma (D:=D)); [done|lia| |].
  { intros _. by repeat split. }
  rewrite <- Hbs. intros b p Hdata Hwfp. apply wp_bind.
  apply wp_read; cbn [dev pages]; rewrite <- ?Hbs; [done|done|lia|lia|lia|lia| |].
  { rewrite Hdata, zlen_replicate. lia. }
  intros d1 Hk1 Hc1 Hdur1. split.
  2:{ intros e He. split; [done|]. split; [done|]. split; [done|]. split; [done|].
      intros Hrel. exfalso. apply He; [done|]. unfold in_range. nia. }
  intros _. cbn [data set_data]. rewrite Z.mul_0_l, Z.mul_1_l.
  rewrite Hval. cbn [negb]. rewrite Hn, Hds, Hbs0, Hnb0.
  pose proof Hwf as (Hnr & Hlen & Hok & _). unfold bitmap_words. rewrite wrap64_small by lia.
  set (words := (data_block_count a + 63) / 64) in *.
  destruct Hk1 as (Hd1 & Hb1 & Ht1 & Hl1 & Hrel1).
  apply wp_with_dma; cbn [pages dev]; [done|lia| |].
  { intros _. by repeat split. }
  intros b2 p2 Hdata2 Hwfp2.
  set (wpb := block_size a / 8) in *. set (nb := bitmap_on_disk_blocks a) in *.
  assert (region_len a = nb * block_size a) as Hrl by done.
  assert (region_off a = bitmap_start_lba a * block_size a) as Hro by done.
  assert (block_size a = 8 * wpb) as Hbw by (subst wpb; lia).
  apply wp_bind.
  eapply wp_mono; [apply (wp_range (fun blk '(bb, bm) w' => pages w' = p2 /\ same_kind d1 (dev w') /\
     contents (dev w') = contents (dev w) /\ durable (dev w') = durable (dev w) /\
     zlen (data bb) = block_size a /\ zlen bm = words /\
     forall i, Z.of_nat i < words ->
       bm !! i = Some (if decide (Z.of_nat i < blk * wpb) then word (bitmap a) i else 0))
     (fun _ w' => pages w' = p2 /\ same_kind d1 (dev w') /\
       contents (dev w') = contents (dev w) /\ ~ reliable (dev w))); [done| |]| |].
  - cbn [pages dev]. split; [done|]. split; [by apply same_kind_refl|]. split; [done|]. split; [done|].
    split; [rewrite Hdata2, zlen_replicate; lia|]. split; [rewrite zlen_replicate; lia|].
    intros i Hi. rewrite lookup_replicate_2 by lia. rewrite decide_False by lia. done.
  - intros blk [bb bm] [d' p'] Hblk (Hpp & Hk & Hcont & Hdur & Hlenb & Hlenm & Hbm). cbn [pages dev] in *.
    subst p'. destruct Hk as (Hd' & Hb' & Ht' & Hl' & Hrel').
    assert (blk * wpb + wpb <= nb * wpb) as Hin by nia.
    assert (0 <= blk * wpb) by nia. assert (nb * wpb < 2 ^ 60) by nia.
    assert (bitmap_start_lba a + nb < 2 ^ 63) by nia.
    assert ((bitmap_start_lba a + blk) * block_size a = region_off a + blk * block_size a) as Hoff
      by (rewrite Hro; ring).
    assert (blk * block_size a + block_size a <= nb * block_size a) by nia.
    rewrite (wrap64_small (_ + blk)) by lia.
    apply wp_bind. apply wp_read; cbn [dev pages]; rewrite ?Hb', ?Hb1, <- ?Hbs;
      [done|done|lia|lia|lia|rewrite Hl', Hl1; lia|lia|].
    intros d2 (Hd2 & Hb2 & Ht2 & Hl2 & Hrel2) Hc2 Hdur2. split.
    2:{ intros e He. cbn [dev pages]. split; [done|]. split; [|split; [congruence|]].
        - repeat split; [done|congruence..|auto].
        - intros Hrel. apply He; [auto|]. unfold in_range. rewrite Ht', Ht1. lia. }
    intros _. cbn [data set_data]. rewrite Z.mul_1_l, Hcont, (region_block _ a (dev w)) by done.
    fold wpb. rewrite (wrap64_small (blk * wpb)) by lia.
    destruct (load_words_ok (image (bitmap a) (Z.to_nat (blk * wpb)) (Z.to_nat wpb)) (blk * wpb) wpb bm words)
      as (bm' & Heq & Hl'' & Hbm'); [lia|lia|lia|rewrite zlen_image; lia|done|].
    apply wp_bind. eapply wp_lift; [done|]. apply wp_ret. cbn [dev pages data set_data].
    split; [done|]. split; [repeat split; [done|congruence..|auto]|]. split; [congruence|].
    split; [congruence|]. split; [rewrite zlen_image; lia|]. split; [done|].
    assert ((blk + 1) * wpb = blk * wpb + wpb) as Hnext by ring.
    intros i Hi. rewrite Hbm'. destruct (decide (blk * wpb <= Z.of_nat i < _)) as [Hin'|Hout].
    + rewrite decide_True by lia. f_equal.
      replace (8 * (Z.of_nat i - blk * wpb)) with (8 * Z.of_nat (i - Z.to_nat (blk * wpb))) by lia.
      rewrite image_word by first [done|lia]. f_equal. lia.
    + rewrite Hbm by done. f_equal. destruct (decide _), (decide _); try done; lia.
  - intros [bb bm] w' (Hp' & Hk & Hcont & Hdur & _ & Hlenm & Hbm). apply wp_ret. cbn [dev pages snd].
    destruct Hk as (Hd' & Hb' & Ht' & Hl' & Hrel').
    split; [done|]. split; [done|]. split; [done|]. split; [repeat split; [done|congruence..|auto]|].
    split; [done|]. split; [done|].
    assert (bm = bitmap a) as ->.
    { apply (list_eq_same_length _ _ (Z.to_nat words)); [unfold zlen in *; lia..|].
      intros i x y Hi Hx Hy. rewrite Hbm, decide_True in Hx by lia. unfold word in Hx.
      rewrite Hy in Hx. by injection Hx. }
    unfold words. rewrite count_free_ok by done. by destruct a.
  - intros e w' (Hp' & Hk & Hcont & Hr). cbn [dev pages].
    destruct Hk as (Hd' & Hb' & Ht' & Hl' & Hrel').
    split; [done|]. split; [done|]. split; [done|]. split; [repeat split; [done|congruence..|auto]|].
    split; [done|]. intros Hrel. by destruct Hr.
Qed.

(** A flushed region makes the disk describe the allocator. *)
Lemma ba_on_disk_written a d :
  layout_ok a d -> header_ok (contents d) a ->
  on_disk (splice (contents d) (region_off a) (region_image a)) (clean a).
Proof.
  intros Hlay Hh. pose proof (ba_region_in_disk a d Hlay) as (Hr1 & Hr0 & Hr2 & Hr3).
  pose proof (zlen_region_image a d Hlay) as Hz. pose proof Hlay as (Hd & Hbs & Hm & Hsz & Hst & Hnb & _).
  split.
  - unfold header_ok. change (block_size (clean a)) with (block_size a).
    rewrite slice_splice_disjoint; [exact Hh|lia|lia|lia|lia|]. left. unfold region_off. nia.
  - change (region_off (clean a)) with (region_off a). change (region_len (clean a)) with (region_len a).
    change (region_image (clean a)) with (region_image a). rewrite <- Hz.
    apply slice_splice_same; lia.
Qed.

End disk.

(** ** Properties *)

(** The contract of [alloc] on every branch. *)
Definition alloc_spec (a : BlockAllocator) (count : Z) (r : out AllocError Z * BlockAllocator) : Prop :=
  match r with
  | (Ok p, a') => free_run a p count /\ (forall q, free_run a q count -> p <= q) /\
      wf a' /\ same_layout a a' /\ dirty a' = true /\
      used_blocks a' = used_blocks a ∪ zrange p count /\ free_count a' = free_count a - count
  | (Err InvalidSize, a') => count = 0 /\ a' = a
  | (Err OutOfSpace, a') => count <> 0 /\ a' = a /\ forall q, ~ free_run a q count
  | (Err Fragmented, _) => False
  | (Panic, _) => False
  end.

(** A 100-block allocator with blocks 0 to 15 and 20 used. *)
Definition demo : BlockAllocator :=
  let a := snd (alloc 16 (init_for_test 100 4096 10)) in
  let a := snd (alloc 5 a) in
  match free 16 4 a with Ok a => a | _ => a end.

Lemma init_for_test_wf n bs s : 0 <= n < 2 ^ 58 -> wf (init_for_test n bs s).
Proof.
  intros Hn. unfold wf, init_for_test, used_blocks, bitmap_words. simpl. unwrap.
  split; [done|]. split; [rewrite zlen_replicate; lia|]. split; [by apply Forall_replicate|].
  split; [intros; apply bit_at_replicate_0|].
  assert (used (replicate (Z.to_nat ((n + 63) / 64)) 0) n = ∅) as ->; [|rewrite size_empty; lia].
  apply set_eq. intros j. rewrite elem_of_used, bit_at_replicate_0, elem_of_empty.
  split; [by intros [_ ?]|done].
Qed.

Lemma ba_alloc_spec_holds a count : wf a -> 0 <= count < 2 ^ 64 -> alloc_spec a count (alloc count a).
Proof.
  intros Hwf Hc. destruct (decide (count = 0)) as [->|Hne]; [done|].
  destruct (ba_alloc_cases a count Hwf ltac:(lia)) as [(p & a' & -> & H)|[-> H]]; simpl; [done|].
  by repeat split.
Qed.

Lemma alloc_wf a count : wf a -> 0 <= count < 2 ^ 64 -> wf (snd (alloc count a)).
Proof.
  intros Hwf Hc. pose proof (ba_alloc_spec_holds a count Hwf Hc) as H.
  destruct (alloc count a) as [[p|[]|] a']; simpl in *;
    [apply H|by destruct H as (_ & -> & _)|by destruct H as (_ & ->)|done|done].
Qed.

Lemma ba_demo_wf : wf demo.
Proof.
  unfold demo. assert (wf (snd (alloc 5 (snd (alloc 16 (init_for_test 100 4096 10)))))) as H.
  { do 2 (apply alloc_wf; [|lia]). apply init_for_test_wf. lia. }
  destruct (free_ok _ 16 4 H) as (a' & -> & Hwf & _); [lia|lia|lia|done].
Qed.

(** [alloc] is first fit and complete: it returns the lowest free run of
    [count] blocks, marks exactly that run used and lowers the counter by
    [count]; it fails with [OutOfSpace] exactly when there is no such run, it
    never returns [Fragmented], changes nothing on an error, and terminates. *)
Theorem block_alloc_first_fit a count :
  wf a -> 0 <= count < 2 ^ 64 -> alloc_spec a count (alloc count a).
Proof. apply ba_alloc_spec_holds. Qed.

Lemma block_alloc_first_fit_witness :
  wf demo /\ fst (alloc 4 demo) = Ok 16 /\ alloc_spec demo 4 (alloc 4 demo).
Proof.
  split; [apply ba_demo_wf|]. split; [by vm_compute|].
  apply (block_alloc_first_fit demo 4); [apply ba_demo_wf|lia].
Defined.

(** [free] clears exactly the given blocks, keeps the counter equal to
    the number of free blocks even for blocks that are already free or beyond
    the device (a double free is harmless), and freeing what [alloc] returned
    restores the set of used blocks and the counter. *)
Theorem block_free_spec a start count :
  wf a -> 0 <= start -> 0 <= count -> start + count < 2 ^ 64 ->
  exists a', free start count a = Ok a' /\ wf a' /\ same_layout a a' /\
    used_blocks a' = used_blocks a ∖ zrange start count /\
    (forall a0, wf a0 -> alloc count a0 = (Ok start, a) ->
       bitmap a' = bitmap a0 /\ free_count a' = free_count a0).
Proof.
  intros Hwf H0 Hc Hov. destruct (free_ok a start count) as (a' & -> & Hwf' & Hlay & _ & Hu); [done|lia..|].
  exists a'. split; [done|]. split; [done|]. split; [done|]. split; [done|].
  intros a0 Hwf0 Halloc. pose proof (ba_alloc_spec_holds a0 count Hwf0) as Hsp. rewrite Halloc in Hsp.
  destruct Hsp as (Hrun & _ & _ & Hlay0 & _ & Hu0 & _).
  { lia. }
  assert (data_block_count a' = data_block_count a0) as Hn by (destruct Hlay, Hlay0; congruence).
  assert (used_blocks a' = used_blocks a0) as Heq.
  { rewrite Hu, Hu0. destruct Hrun as (_ & _ & Hrun).
    apply (run_free_disjoint _ (data_block_count a0)) in Hrun. unfold used_blocks.
    zset_ext j. specialize (Hrun j). rewrite elem_of_zrange in Hrun. tauto. }
  destruct Hwf' as (? & Hl & Hok & Hhi & Hf), Hwf0 as (? & Hl0 & Hok0 & Hhi0 & Hf0).
  split; [|congruence]. unfold used_blocks, zlen in *. rewrite Hn in *.
  apply (used_ext _ _ (64 * Z.of_nat (length (bitmap a')))); [lia|done|done|done|].
  rewrite (used_tail (bitmap a') (data_block_count a0)), (used_tail (bitmap a0) (data_block_count a0)) by first [lia|done]. exact Heq.
Qed.


Lemma block_free_spec_witness :
  wf demo /\ exists a', free 2 30 demo = Ok a' /\ wf a' /\ same_layout demo a' /\
    used_blocks a' = used_blocks demo ∖ zrange 2 30 /\
    (forall a0, wf a0 -> alloc 30 a0 = (Ok 2, demo) -> bitmap a' = bitmap a0 /\ free_count a' = free_count a0).
Proof.
  split; [apply ba_demo_wf|]. apply (block_free_spec demo 2 30); [apply ba_demo_wf|lia..].
Defined.

Section disk_properties.
Context `{BlockDeviceSpec D}.

(** Durability of the allocator: after [flush], [load] on the same disk
    rebuilds the same allocator (bitmap, counter and layout), for any lawful
    device whose superblock describes it; the page pool is unchanged, and on a
    reliable device the only possible failure is running out of pages. *)
Theorem flush_then_load a w :
  Phys.wf (pages w) -> layout_ok a (dev w) -> wf a -> header_ok (contents (dev w)) a ->
  (dirty a = false -> on_disk (contents (dev w)) a) ->
  wp (_ ← flush a; load)
    (fun a' w' => a' = clean a /\ pages w' = pages w /\ on_disk (contents (dev w')) a)
    (fun e w' => pages w' = pages w /\ (reliable (dev w) -> e = OutOfMemory)) w.
Proof.
  intros Hp Hlay Hwf Hh Hcl. apply wp_bind.
  eapply wp_mono; [by apply ba_flush_ok| |].
  - intros a' w' (Hp' & Hk & -> & Hc).
    assert (on_disk (contents (dev w')) a) as Hon.
    { rewrite Hc. destruct (dirty a); [|by apply Hcl].
      destruct (ba_on_disk_written a (dev w) Hlay Hh) as [H1 H2]. by split. }
    eapply wp_mono; [apply ba_load_ok; [by rewrite Hp'|by eapply ba_layout_ok_kind|done|done]| |].
    + intros a'' w'' (Hp'' & _ & Hc'' & _ & ->). split; [done|]. split; [congruence|]. by rewrite Hc''.
    + intros e w'' (Hp'' & _ & _ & He). split; [congruence|]. intros Hr. apply He. by apply Hk.
  - intros e w' (Hp' & _ & _ & He). split; [done|]. intros Hr. by destruct (He Hr).
Qed.

(** [format] then [load]: the formatted device describes the allocator
    that [format] returns, which is well formed with every data block free, is
    durable, has a zeroed file-table block, and is what [load] reads back. *)
Theorem format_then_load w total :
  Phys.wf (pages w) -> dev_ok (dev w) -> total = dev_total_blocks (dev w) -> 2 <= total ->
  4096 <= dev_block_size (dev w) <= io_limit (dev w) -> dev_block_size (dev w) mod 8 = 0 ->
  wp (a ← format total (dev_block_size (dev w)); b ← load; mret (a, b))
    (fun '(a, b) w' => b = a /\ wf a /\ free_count a = data_block_count a /\
       layout_ok a (dev w') /\ on_disk (contents (dev w')) a /\
       durable (dev w') = contents (dev w') /\
       slice (contents (dev w')) ((1 + bitmap_on_disk_blocks a) * block_size a) (block_size a) =
         replicate (Z.to_nat (block_size a)) 0 /\
       pages w' = pages w)
    (fun e w' => pages w' = pages w /\ (reliable (dev w) -> e = OutOfMemory)) w.
Proof.
  intros Hp Hd Htot Ht Hsz Hm. pose proof (law_geometry _ Hd) as (Hg1 & Hg2 & _ & Hz & Hz2).
  rewrite <- Htot in Hz. assert (total * dev_block_size (dev w) < 2 ^ 63) as Hov by lia.
  assert (4096 <= dev_block_size (dev w)) as Hmin by lia.
  pose proof (fmt_bounds total (dev_block_size (dev w)) Hmin Ht Hov) as (Hb & Ht2 & Hcap).
  apply wp_bind. eapply wp_mono; [by apply format_ok| |].
  2:{ intros e w' (Hp' & _ & He). by split. }
  intros a w' (Hp' & Hk & Ha & Hdur & Hc).
  pose proof (fmt_alloc_wf total (dev_block_size (dev w)) Hmin Ht Hov) as Hwf.
  destruct (fmt_on_disk total (dev_block_size (dev w)) (contents (dev w))) as [Hon Hft]; [lia|done|done|done|done|].
  rewrite <- Ha, <- Hc in Hon. rewrite <- Hc in Hft.
  assert (layout_ok a (dev w')) as Hlay.
  { destruct Hk as (Hd' & Hb' & Ht' & Hl' & _). rewrite Ha. unfold layout_ok.
    cbn [fmt_alloc block_size bitmap_start_lba bitmap_on_disk_blocks data_block_count].
    rewrite Hb', Ht', Hl', <- Htot. split; [done|]. split; [done|]. split; [done|]. split; [done|].
    split; [done|]. split; [lia|]. split; [|lia].
    set (bs := dev_block_size (dev w)) in *. set (nb := fmt_bitmap_blocks total bs) in *.
    assert (bs = 8 * (bs / 8)) as Hb8 by lia. set (q := bs / 8) in *.
    assert (Z.max 0 (total - fmt_data_start total bs) <= 64 * (nb * q)) by nia. lia. }
  apply wp_bind. eapply wp_mono; [apply (ba_load_ok a); [by rewrite Hp'|done|by rewrite Ha|done]| |].
  - intros b w'' (Hp'' & Hk2 & Hc2 & Hd2 & ->). apply wp_ret.
    split; [by rewrite Ha|]. split; [by rewrite Ha|]. split; [by rewrite Ha|].
    split; [by eapply ba_layout_ok_kind|]. rewrite Hc2. split; [done|]. split; [congruence|].
    split; [by rewrite Ha|congruence].
  - intros e w'' (Hp'' & Hk2 & Hc2 & He). split; [congruence|]. intros Hr. apply He. by apply Hk.
Qed.

End disk_properties.

(** An 8-block RAM disk, blank and freshly formatted. *)
Definition blank : hw RamDisk.RamDisk := mkHw (RamDisk.new 8 4096) Phys.demo.
Definition formatted : hw RamDisk.RamDisk :=
  mkHw (RamDisk.mkRam (splice (RamDisk.rdata (RamDisk.new 8 4096)) 0 (fmt_bytes 8 4096)) 4096 8 1) Phys.demo.
Definition demo_disk : BlockAllocator := snd (alloc 3 (fmt_alloc 8 4096)).

Lemma formatted_ok : dev_ok (dev formatted) /\ header_ok (contents (dev formatted)) demo_disk.
Proof.
  pose proof (RamDisk.new_ok 8 4096 ltac:(lia) ltac:(lia) ltac:(lia)) as Hok.
  pose proof Hok as (_ & _ & Hb & Hz & _). simpl total_blocks in Hz. change (RamDisk.total_blocks (RamDisk.new 8 4096) * RamDisk.block_size (RamDisk.new 8 4096)) with 32768 in Hz.
  assert (bytes_ok (fmt_bytes 8 4096)) as Hfb.
  { apply Forall_app_2; [apply Forall_app_2; [apply sb_bytes_ok|]|]; apply bytes_ok_replicate. }
  pose proof (zlen_fmt_bytes 8 4096 ltac:(lia) ltac:(lia) ltac:(lia)) as Hzf.
  change ((fmt_bitmap_blocks 8 4096 + 2) * 4096) with 12288 in Hzf.
  split.
  - change (RamDisk.ok (dev formatted)). unfold RamDisk.ok, formatted.
    cbn [dev RamDisk.rdata RamDisk.block_size RamDisk.total_blocks].
    rewrite zlen_splice, Hz by (rewrite ?Hzf, ?Hz; lia). split; [lia|]. split; [lia|].
    split; [exact (bytes_ok_splice _ _ _ Hb Hfb)|lia].
  - destruct (fmt_on_disk 8 4096 (RamDisk.rdata (RamDisk.new 8 4096)))
      as [[Hh _] _]; [lia|done|lia|by rewrite Hz|by rewrite Hz|exact Hh].
Qed.

Lemma demo_disk_wf : wf demo_disk /\ layout_ok demo_disk (dev formatted).
Proof.
  split; [apply alloc_wf; [apply fmt_alloc_wf; lia|lia]|].
  split; [apply formatted_ok|]. vm_compute. repeat split; congruence.
Qed.

Lemma flush_then_load_witness :
  wp (_ ← flush demo_disk; load)
    (fun a' w' => a' = clean demo_disk /\ pages w' = Phys.demo /\ on_disk (contents (dev w')) demo_disk)
    (fun e w' => pages w' = Phys.demo /\ (reliable (dev formatted) -> e = OutOfMemory)) formatted.
Proof.
  apply (flush_then_load demo_disk formatted); [apply Phys.demo_wf|apply demo_disk_wf..|apply formatted_ok|].
  intros H. exfalso. revert H. by vm_compute.
Defined.

Lemma format_then_load_witness :
  wp (a ← format 8 (dev_block_size (dev blank)); b ← load; mret (a, b))
    (fun '(a, b) w' => b = a /\ wf a /\ free_count a = data_block_count a /\
       layout_ok a (dev w') /\ on_disk (contents (dev w')) a /\
       durable (dev w') = contents (dev w') /\
       slice (contents (dev w')) ((1 + bitmap_on_disk_blocks a) * block_size a) (block_size a) =
         replicate (Z.to_nat (block_size a)) 0 /\
       pages w' = pages blank)
    (fun e w' => pages w' = pages blank /\ (reliable (dev blank) -> e = OutOfMemory)) blank.
Proof.
  apply (format_then_load blank 8); [exact Phys.demo_wf|exact (RamDisk.new_ok 8 4096 ltac:(lia) ltac:(lia) ltac:(lia))|exact eq_refl|lia|vm_compute; split; congruence|vm_compute; exact eq_refl].
Defined.

End BlockAlloc.
