(* ===== verification/FileTable.v ===== *)
(** * File table ([storage/file_table.rs])

    42 entries of 96 bytes in the block after the bitmap: names, block ranges
    and lengths; lookup, creation and deletion, and the byte image that
    [flush] writes and [load] reads. *)
From S2P Require Import Prelude Bytes Phys Block.

Module FileTable.

Definition MAX_NAME_LEN : nat := 64.
Definition MAX_ENTRIES : nat := 42.
Definition ENTRY_SIZE : Z := 96.

Record FileEntry := mkEntry {
  name : list Z;
  start_block : Z;
  block_count : Z;
  byte_length : Z;
  flags : Z;
  reserved : Z;
}.

#[export] Instance FileEntry_eq_dec : EqDecision FileEntry.
Proof. solve_decision. Defined.

Definition empty : FileEntry := {|
  name := replicate MAX_NAME_LEN 0; start_block := 0; block_count := 0; byte_length := 0;
  flags := 0; reserved := 0;
|}.

Definition is_in_use (e : FileEntry) : bool := negb (Z.land (flags e) 1 =? 0).

Definition with_flags (e : FileEntry) (f : Z) : FileEntry :=
  mkEntry (name e) (start_block e) (block_count e) (byte_length e) f (reserved e).

Definition set_in_use (used : bool) (e : FileEntry) : FileEntry :=
  if used then with_flags e (Z.lor (flags e) 1)
  else with_flags e (Z.land (flags e) (Z.lxor 1 (Z.ones 32))).

(** [self.name.iter().position(|&b| b == 0).unwrap_or(MAX_NAME_LEN)]. *)
Definition name_bytes (e : FileEntry) : list Z :=
  let len := match list_find (fun b => b = 0) (name e) with
             | Some (i, _) => i
             | None => MAX_NAME_LEN
             end in
  take len (name e).

Definition set_name {E} (n : list Z) (e : FileEntry) : out E FileEntry :=
  let copy_len := Z.min (zlen n) (Z.of_nat MAX_NAME_LEN - 1) in
  nm ← copy_into (name e) 0 copy_len (slice n 0 copy_len);
  nm ← (if copy_len <? zlen nm then Ok (<[Z.to_nat copy_len := 0]> nm) else Panic);
  Ok (mkEntry nm (start_block e) (block_count e) (byte_length e) (flags e) (reserved e)).

Record FileTable := mkTable {
  entries : list FileEntry;
  file_table_lba : Z;
  block_size : Z;
  dirty : bool;
}.

Definition new (file_table_lba block_size : Z) : FileTable := {|
  entries := replicate MAX_ENTRIES empty; file_table_lba := file_table_lba;
  block_size := block_size; dirty := false;
|}.

Definition set_entries (t : FileTable) (es : list FileEntry) (d : bool) : FileTable :=
  mkTable es (file_table_lba t) (block_size t) d.

(** The [repr(C)] image of an entry. *)
Definition entry_bytes (e : FileEntry) : list Z :=
  name e ++ le_bytes 8 (start_block e) ++ le_bytes 8 (block_count e) ++
  le_bytes 8 (byte_length e) ++ le_bytes 4 (flags e) ++ le_bytes 4 (reserved e).

(** [ptr::read(src as *const FileEntry)]. *)
Definition entry_of_bytes (b : list Z) : FileEntry := {|
  name := slice b 0 64;
  start_block := from_le (slice b 64 8);
  block_count := from_le (slice b 72 8);
  byte_length := from_le (slice b 80 8);
  flags := from_le (slice b 88 4);
  reserved := from_le (slice b 92 4);
|}.

Definition oom (_ : Phys.AllocError) : NvmeError := OutOfMemory.

Definition load_entries (d : list Z) (es : list FileEntry) : out NvmeError (list FileEntry) :=
  for_range 0 (Z.of_nat MAX_ENTRIES) (fun i es =>
    let offset := i * ENTRY_SIZE in
    if offset + ENTRY_SIZE <=? zlen d
    then Ok (<[Z.to_nat i := entry_of_bytes (slice d offset ENTRY_SIZE)]> es)
    else Ok es) es.

Definition store_entries (es : list FileEntry) (d : list Z) : out NvmeError (list Z) :=
  for_range 0 (Z.of_nat MAX_ENTRIES) (fun i d =>
    let offset := i * ENTRY_SIZE in
    if offset + ENTRY_SIZE <=? zlen d
    then e ← or_panic (es !! Z.to_nat i); Ok (splice d offset (entry_bytes e))
    else Ok d) d.

Section device.
Context `{BlockDevice D}.

Definition load (file_table_lba block_size : Z) : st (hw D) NvmeError FileTable :=
  with_dma oom block_size (fun buf =>
    buf ← read_blocks file_table_lba 1 buf;
    let table := new file_table_lba block_size in
    es ← st_lift (load_entries (data buf) (entries table));
    mret (set_entries table es (dirty table))).

Definition flush (t : FileTable) : st (hw D) NvmeError FileTable :=
  if negb (dirty t) then mret t
  else
    with_dma oom (block_size t) (fun buf =>
      let zeroed := replicate (length (data buf)) 0 in
      d ← st_lift (store_entries (entries t) zeroed);
      _ ← write_blocks (file_table_lba t) 1 (set_data buf d);
      mret (set_entries t (entries t) false)).
End device.

(** The first entry in use with that name. *)
Definition named (n : list Z) (e : FileEntry) : Prop := is_in_use e = true /\ name_bytes e = n.
#[export] Instance named_dec n e : Decision (named n e) := and_dec _ _.

Definition lookup (t : FileTable) (n : list Z) : option (nat * FileEntry) :=
  list_find (named n) (entries t).

Definition create {E} (n : list Z) (start count : Z) (t : FileTable)
    : out E (option nat * FileTable) :=
  match list_find (fun e => is_in_use e = false) (entries t) with
  | None => Ok (None, t)
  | Some (slot, entry) =>
      entry ← set_name n entry;
      let entry := mkEntry (name entry) start count 0 (flags entry) (reserved entry) in
      let entry := set_in_use true entry in
      Ok (Some slot, set_entries t (<[slot := entry]> (entries t)) true)
  end.

Definition delete {E} (index : nat) (t : FileTable) : out E (option FileEntry * FileTable) :=
  if (MAX_ENTRIES <=? index)%nat then Ok (None, t)
  else
    e ← or_panic (entries t !! index);
    if negb (is_in_use e) then Ok (None, t)
    else Ok (Some e, set_entries t (<[index := empty]> (entries t)) true).

Definition get {E} (index : nat) (t : FileTable) : out E (option FileEntry) :=
  if (index <? MAX_ENTRIES)%nat then
    e ← or_panic (entries t !! index);
    Ok (if is_in_use e then Some e else None)
  else Ok None.

(** [if let Some(entry) = ft.get_mut(index) { update }]: the table is marked
    dirty when there is an entry. *)
Definition get_mut {E} (index : nat) (update : FileEntry -> FileEntry) (t : FileTable)
    : out E FileTable :=
  if (index <? MAX_ENTRIES)%nat then
    e ← or_panic (entries t !! index);
    Ok (if is_in_use e then set_entries t (<[index := update e]> (entries t)) true else t)
  else Ok t.

Definition mark_dirty (t : FileTable) : FileTable := set_entries t (entries t) true.

(** ** Invariant *)
Definition entry_ok (e : FileEntry) : Prop :=
  length (name e) = MAX_NAME_LEN /\ bytes_ok (name e) /\ is_u64 (start_block e) /\
  is_u64 (block_count e) /\ is_u64 (byte_length e) /\ is_u32 (flags e) /\ is_u32 (reserved e).

(** A name the table can store: at most 63 bytes, none of them NUL. *)
Definition name_ok (n : list Z) : Prop :=
  zlen n <= 63 /\ bytes_ok n /\ 0 ∉ n.

Definition wf (t : FileTable) : Prop :=
  length (entries t) = MAX_ENTRIES /\ Forall entry_ok (entries t) /\
  forall i j e1 e2, entries t !! i = Some e1 -> entries t !! j = Some e2 ->
    is_in_use e1 = true -> is_in_use e2 = true -> name_bytes e1 = name_bytes e2 -> i = j.

(** ** Lemmas *)
Lemma in_use_set e : is_in_use (set_in_use true e) = true.
Proof.
  unfold is_in_use, set_in_use. cbn [flags with_flags].
  destruct (Z.eqb_spec (Z.land (Z.lor (flags e) 1) 1) 0) as [H|]; [|done].
  assert (Z.testbit (Z.land (Z.lor (flags e) 1) 1) 0 = false) as Hb by (rewrite H; done).
  rewrite Z.land_spec, Z.lor_spec in Hb. by rewrite orb_true_r in Hb.
Qed.

Lemma flags_lor_u32 f : is_u32 f -> is_u32 (Z.lor f 1).
Proof.
  intros [H0 H1]. split; [apply Z.lor_nonneg; lia|].
  destruct (decide (f = 0)) as [->|]; [done|].
  assert (0 < Z.lor f 1) as Hpos.
  { assert (0 <= Z.lor f 1) by (apply Z.lor_nonneg; lia).
    destruct (decide (Z.lor f 1 = 0)) as [Hz|]; [|lia]. apply Z.lor_eq_0_iff in Hz. lia. }
  apply (proj2 (Z.log2_lt_pow2 _ 32 Hpos)). rewrite Z.log2_lor by lia.
  apply Z.max_lub_lt; [|done]. apply Z.log2_lt_pow2; lia.
Qed.

Lemma empty_ok : entry_ok empty.
Proof. repeat split; try done. apply bytes_ok_replicate. Qed.

Lemma name_bytes_take n rest : 0 ∉ n -> (length n < MAX_NAME_LEN)%nat -> forall s c l f r,
  name_bytes (mkEntry (n ++ 0 :: rest) s c l f r) = n.
Proof.
  intros Hn Hl s c l f r. unfold name_bytes. cbn [name].
  replace (list_find (fun b : Z => b = 0) (n ++ 0 :: rest)) with (Some (length n, 0)).
  - by rewrite take_app_length.
  - symmetry. apply list_find_Some. split; [|split; [done|]].
    + rewrite lookup_app_r by lia. by rewrite Nat.sub_diag.
    + intros j y Hy Hj ->. rewrite lookup_app_l in Hy by done.
      apply Hn. by eapply list_elem_of_lookup_2.
Qed.

Lemma set_name_ok {E} n e :
  entry_ok e -> bytes_ok n ->
  exists e', set_name (E:=E) n e = Ok e' /\ entry_ok e' /\ flags e' = flags e /\
    reserved e' = reserved e /\ (name_ok n -> name_bytes e' = n).
Proof.
  intros (Hl & Hb & Hs & Hc & Hlen & Hf & Hr) Hn. unfold set_name.
  set (cl := Z.min (zlen n) (Z.of_nat MAX_NAME_LEN - 1)).
  pose proof (zlen_nonneg n). assert (0 <= cl <= 63) as Hcl by (unfold cl, MAX_NAME_LEN; lia).
  assert (zlen (name e) = 64) as Hz by (unfold zlen; by rewrite Hl).
  assert (zlen (slice n 0 cl) = cl) as Hsl by (rewrite zlen_slice; unfold cl; lia).
  rewrite copy_into_ok by lia. cbn [mbind out_bind].
  rewrite zlen_splice by lia. rewrite Hz. destruct (Z.ltb_spec cl 64); [|lia].
  eexists. split; [done|]. split; [|split; [done|split; [done|]]].
  - unfold entry_ok. cbn. split; [|split; [|done]].
    + rewrite length_insert. apply Nat2Z.inj. fold (zlen (splice (name e) 0 (slice n 0 cl))).
      rewrite zlen_splice, Hz by lia. done.
    + apply Forall_insert; [|done]. apply bytes_ok_splice; [done|by apply bytes_ok_slice].
  - intros (Hn1 & _ & Hn0). assert (cl = zlen n) as Hcn by (unfold cl, MAX_NAME_LEN; lia).
    rewrite Hcn, slice_all by lia. rewrite splice_0.
    destruct (drop (length n) (name e)) as [|x rest] eqn:Hd.
    { exfalso. assert (length (drop (length n) (name e)) = 0%nat) as Hd0 by (by rewrite Hd).
      rewrite length_drop in Hd0. unfold zlen in *. lia. }
    replace (Z.to_nat (zlen n)) with (length n + 0)%nat by (unfold zlen; lia).
    rewrite insert_app_r. cbn [insert list_insert]. apply name_bytes_take; [done|].
    unfold zlen, MAX_NAME_LEN in *. lia.
Qed.

(** *** The disk image *)
Lemma zlen_entry_bytes e : entry_ok e -> zlen (entry_bytes e) = 96.
Proof.
  intros (Hl & _). unfold entry_bytes. rewrite !zlen_app, !zlen_le_bytes. unfold zlen.
  rewrite Hl. done.
Qed.

Lemma entry_bytes_ok e : entry_ok e -> bytes_ok (entry_bytes e).
Proof.
  intros (_ & Hb & _). unfold entry_bytes.
  apply Forall_app_2; [done|]. repeat apply Forall_app_2; apply le_bytes_ok.
Qed.

Lemma entry_roundtrip e : entry_ok e -> entry_of_bytes (entry_bytes e) = e.
Proof.
  intros (Hl & Hb & Hs & Hc & Hlen & Hf & Hr). unfold is_u64, is_u32 in *.
  assert (zlen (name e) = 64) as Hz by (unfold zlen; by rewrite Hl).
  unfold entry_of_bytes, entry_bytes.
  rewrite (slice_app_l (name e) _ 0 64), (slice_all (name e)) by lia.
  rewrite !(slice_app_r (name e)) by lia. rewrite Hz.
  change (64 - 64) with 0. change (72 - 64) with 8. change (80 - 64) with 16.
  change (88 - 64) with 24. change (92 - 64) with 28.
  slice_field. by destruct e.
Qed.

(** The image of a whole table block. *)
Definition table_image (es : list FileEntry) (bs : Z) : list Z :=
  concat (entry_bytes <$> es) ++ replicate (Z.to_nat (bs - 96 * zlen es)) 0.

Lemma zlen_entries es : Forall entry_ok es -> zlen (concat (entry_bytes <$> es)) = 96 * zlen es.
Proof.
  induction 1 as [|e es He Hes IH]; [done|].
  rewrite fmap_cons. cbn [concat]. rewrite zlen_app, zlen_cons, zlen_entry_bytes, IH by done. lia.
Qed.

Lemma zlen_table_image es bs :
  Forall entry_ok es -> 96 * zlen es <= bs -> zlen (table_image es bs) = bs.
Proof.
  intros Hes Hb. unfold table_image. rewrite zlen_app, zlen_entries, zlen_replicate by done.
  pose proof (zlen_nonneg es). lia.
Qed.

Lemma table_image_ok es bs : Forall entry_ok es -> bytes_ok (table_image es bs).
Proof.
  intros Hes. apply Forall_app_2; [|apply bytes_ok_replicate].
  apply Forall_concat, Forall_fmap. eapply Forall_impl; [done|]. apply entry_bytes_ok.
Qed.

Lemma take_S_entry es k e :
  es !! k = Some e -> concat (entry_bytes <$> take (S k) es) = concat (entry_bytes <$> take k es) ++ entry_bytes e.
Proof.
  intros He. rewrite (take_S_r _ _ e) by done. rewrite fmap_app, concat_app. cbn.
  by rewrite app_nil_r.
Qed.

Lemma store_entries_ok es bs :
  Forall entry_ok es -> length es = MAX_ENTRIES -> 4096 <= bs < 2 ^ 32 ->
  store_entries es (replicate (Z.to_nat bs) 0) = Ok (table_image es bs).
Proof.
  intros Hes Hl Hbs. unfold store_entries.
  destruct (for_range_inv (E:=NvmeError) (fun i d => d = table_image (take (Z.to_nat i) es) bs)
    0 (Z.of_nat MAX_ENTRIES)
    (fun i d => if i * ENTRY_SIZE + ENTRY_SIZE <=? zlen d
       then e ← or_panic (es !! Z.to_nat i); Ok (splice d (i * ENTRY_SIZE) (entry_bytes e)) else Ok d)
    (replicate (Z.to_nat bs) 0)) as (d & -> & ->); [done| | |].
  - unfold table_image. simpl. by rewrite Z.sub_0_r.
  - intros i d Hi ->. unfold MAX_ENTRIES in *.
    assert (Forall entry_ok (take (Z.to_nat i) es)) as Hft by (by apply Forall_take).
    assert (zlen (take (Z.to_nat i) es) = i) as Hzt by (rewrite zlen_take; unfold zlen; lia).
    rewrite zlen_table_image by first [done|lia]. unfold ENTRY_SIZE.
    destruct (Z.leb_spec (i * 96 + 96) bs); [|lia].
    destruct (lookup_lt_is_Some_2 es (Z.to_nat i)) as [e He]; [lia|]. rewrite He. cbn [or_panic mbind out_bind].
    eexists. split; [done|]. unfold table_image. replace (Z.to_nat (i + 1)) with (S (Z.to_nat i)) by lia.
    rewrite (take_S_entry _ _ e) by done.
    assert (entry_ok e) as Heok by exact (Forall_lookup_1 _ _ _ _ Hes He).
    rewrite splice_app by (rewrite zlen_entries by done; lia). rewrite <- app_assoc. do 2 f_equal.
    rewrite drop_replicate. f_equal.
    pose proof (zlen_entry_bytes e Heok) as Hze.
    assert (zlen (take (S (Z.to_nat i)) es) = i + 1) as -> by (rewrite zlen_take; unfold zlen; lia).
    rewrite Hzt. unfold zlen in Hze. lia.
  - f_equal. rewrite Nat2Z.id, <- Hl, firstn_all. done.
Qed.

Lemma slice_entry es bs i e :
  Forall entry_ok es -> es !! i = Some e ->
  slice (table_image es bs) (Z.of_nat i * 96) 96 = entry_bytes e.
Proof.
  intros Hes He. assert (entry_ok e) as Heok by exact (Forall_lookup_1 _ _ _ _ Hes He).
  pose proof (zlen_entry_bytes e Heok) as Hze.
  rewrite <- (take_drop_middle es i e He). unfold table_image.
  assert (Forall entry_ok (take i es)) as Hft by (by apply Forall_take).
  assert (zlen (take i es) = Z.of_nat i) as Hzt.
  { apply lookup_lt_Some in He. rewrite zlen_take. unfold zlen. lia. }
  rewrite fmap_app, concat_app, <- app_assoc, slice_app_r by (rewrite zlen_entries by done; lia).
  rewrite zlen_entries, Hzt by done. rewrite fmap_cons. cbn [concat]. rewrite <- app_assoc.
  replace (Z.of_nat i * 96 - 96 * Z.of_nat i) with 0 by lia.
  rewrite slice_app_l by lia. apply slice_all. lia.
Qed.

Lemma load_entries_ok es bs old :
  Forall entry_ok es -> length es = MAX_ENTRIES -> length old = MAX_ENTRIES -> 4096 <= bs ->
  load_entries (table_image es bs) old = Ok es.
Proof.
  intros Hes Hl Hold Hbs. unfold load_entries.
  destruct (for_range_inv (E:=NvmeError) (fun i t => length t = MAX_ENTRIES /\
      forall k, Z.of_nat k < i -> t !! k = es !! k) 0 (Z.of_nat MAX_ENTRIES)
    (fun i t => if i * ENTRY_SIZE + ENTRY_SIZE <=? zlen (table_image es bs)
       then Ok (<[Z.to_nat i := entry_of_bytes (slice (table_image es bs) (i * ENTRY_SIZE) ENTRY_SIZE)]> t)
       else Ok t) old) as (t & -> & Hlt & Ht); [done| | |].
  - split; [done|]. lia.
  - intros i t Hi [Hlt Ht]. unfold MAX_ENTRIES, ENTRY_SIZE in *.
    rewrite zlen_table_image by first [done|unfold zlen; lia].
    destruct (Z.leb_spec (i * 96 + 96) bs); [|lia].
    destruct (lookup_lt_is_Some_2 es (Z.to_nat i)) as [e He]; [lia|].
    assert (slice (table_image es bs) (i * 96) 96 = entry_bytes e) as ->.
    { rewrite <- (slice_entry es bs (Z.to_nat i) e) by done. f_equal. lia. }
    eexists. split; [done|]. split; [by rewrite length_insert|]. intros k Hk.
    rewrite entry_roundtrip by exact (Forall_lookup_1 _ _ _ _ Hes He).
    destruct (decide (k = Z.to_nat i)) as [->|Hne].
    + rewrite list_lookup_insert_eq by lia. done.
    + rewrite list_lookup_insert_ne by done. apply Ht. lia.
  - f_equal. apply list_eq. intros k. destruct (decide (Z.of_nat k < Z.of_nat MAX_ENTRIES)).
    + by apply Ht.
    + rewrite !lookup_ge_None_2 by lia. done.
Qed.

(** *** The table as a map from names to entries *)
Lemma lookup_Some t n i e :
  wf t -> lookup t n = Some (i, e) <-> entries t !! i = Some e /\ named n e.
Proof.
  intros (_ & _ & Huniq). unfold lookup. rewrite list_find_Some. split; [tauto|].
  intros [Hi Hn]. split; [done|]. split; [done|]. intros j y Hj Hlt Hy.
  enough (j = i) by lia. destruct Hn as [? Hn], Hy as [? Hy].
  eapply Huniq; eauto. congruence.
Qed.

Lemma lookup_ext t t' n :
  wf t -> wf t' ->
  (forall i e, named n e -> entries t' !! i = Some e <-> entries t !! i = Some e) ->
  lookup t' n = lookup t n.
Proof.
  intros Hwf Hwf' H. apply option_eq. intros [i e].
  rewrite !lookup_Some by done. specialize (H i e). tauto.
Qed.

Lemma lookup_None_named t n i e : lookup t n = None -> entries t !! i = Some e -> ~ named n e.
Proof.
  intros Hn He. apply list_find_None in Hn. rewrite Forall_forall in Hn.
  apply Hn. by eapply list_elem_of_lookup_2.
Qed.

(** Overwriting one slot keeps the table well formed when no other entry in
    use has the new name. *)
Lemma wf_insert t slot e d :
  wf t -> (slot < MAX_ENTRIES)%nat -> entry_ok e ->
  (forall j y, j <> slot -> entries t !! j = Some y -> is_in_use e = true -> is_in_use y = true ->
     name_bytes e <> name_bytes y) ->
  wf (set_entries t (<[slot := e]> (entries t)) d).
Proof.
  intros (Hl & Hok & Huniq) Hslot He Hfresh.
  split; [cbn [set_entries entries]; by rewrite length_insert|].
  split; [by apply Forall_insert|]. cbn [set_entries entries].
  intros i j e1 e2 H1 H2 Hu1 Hu2 Hn.
  apply list_lookup_insert_Some in H1 as [(-> & -> & _)|[Hi H1]];
  apply list_lookup_insert_Some in H2 as [(-> & -> & _)|[Hj H2]].
  - done.
  - exfalso. by apply (Hfresh j e2).
  - exfalso. by apply (Hfresh i e1).
  - by eapply Huniq.
Qed.

Lemma create_ok {E} n s c t :
  wf t -> name_ok n -> is_u64 s -> is_u64 c -> lookup t n = None ->
  (create (E:=E) n s c t = Ok (None, t) /\ Forall (fun e => is_in_use e = true) (entries t)) \/
  (exists slot e t', create (E:=E) n s c t = Ok (Some slot, t') /\
     (slot < MAX_ENTRIES)%nat /\ dirty t' = true /\ wf t' /\
     file_table_lba t' = file_table_lba t /\ block_size t' = block_size t /\
     (exists old, entries t !! slot = Some old /\ is_in_use old = false) /\
     entries t' = <[slot := e]> (entries t) /\
     named n e /\ start_block e = s /\ block_count e = c /\ byte_length e = 0 /\
     lookup t' n = Some (slot, e) /\ forall m, m <> n -> lookup t' m = lookup t m).
Proof.
  intros Hwf Hn Hs Hc Hno. pose proof Hwf as (Hl & Hok & Huniq). unfold create.
  destruct (list_find _ (entries t)) as [[slot old]|] eqn:Hf.
  2:{ left. split; [done|]. apply list_find_None in Hf. eapply Forall_impl; [done|].
      intros e He. cbn in *. destruct (is_in_use e); [done|by destruct He]. }
  right. apply list_find_Some in Hf as (Hslot & Hfree & _).
  pose proof (lookup_lt_Some _ _ _ Hslot) as Hlt. rewrite Hl in Hlt.
  assert (entry_ok old) as Hold by exact (Forall_lookup_1 _ _ _ _ Hok Hslot).
  destruct (set_name_ok (E:=E) n old Hold) as (e1 & -> & He1 & Hf1 & Hr1 & Hnm); [apply Hn|].
  cbn [mbind out_bind].
  set (e2 := set_in_use true (mkEntry (name e1) s c 0 (flags e1) (reserved e1))).
  assert (named n e2) as Hnamed.
  { split; [apply in_use_set|]. change (name_bytes e2) with (name_bytes e1). auto. }
  assert (entry_ok e2) as Hok2.
  { destruct He1 as (? & ? & _ & _ & _ & Hff & ?). repeat (split; [done|]).
    split; [by apply flags_lor_u32|done]. }
  assert (wf (set_entries t (<[slot:=e2]> (entries t)) true)) as Hwf'.
  { apply wf_insert; [done|done|done|]. intros j y Hj Hy _ Hu Heq.
    apply (lookup_None_named t n j y Hno Hy). split; [done|]. rewrite <- Heq. apply Hnamed. }
  exists slot, e2, (set_entries t (<[slot:=e2]> (entries t)) true).
  split; [done|]. split; [done|]. split; [done|]. split; [done|]. split; [done|]. split; [done|].
  split; [by exists old|]. split; [done|]. split; [done|]. split; [done|]. split; [done|].
  split; [done|]. split.
  - apply lookup_Some; [done|]. split; [|done]. cbn [set_entries entries].
    apply list_lookup_insert_eq. lia.
  - intros m Hm. apply lookup_ext; [done|done|]. intros i e He. cbn [set_entries entries].
    destruct (decide (i = slot)) as [->|Hne]; [|by rewrite list_lookup_insert_ne].
    rewrite list_lookup_insert_eq by lia. split.
    + intros [= <-]. destruct Hm. destruct Hnamed, He. congruence.
    + intros Hi. destruct He as [He _]. congruence.
Qed.

Lemma delete_ok {E} i e t :
  wf t -> entries t !! i = Some e -> is_in_use e = true ->
  exists t', delete (E:=E) i t = Ok (Some e, t') /\ wf t' /\ dirty t' = true /\
    file_table_lba t' = file_table_lba t /\ block_size t' = block_size t /\
    entries t' = <[i := empty]> (entries t) /\
    lookup t' (name_bytes e) = None /\
    forall m, m <> name_bytes e -> lookup t' m = lookup t m.
Proof.
  intros Hwf Hi Hu. pose proof Hwf as (Hl & Hok & Huniq). unfold delete.
  pose proof (lookup_lt_Some _ _ _ Hi) as Hlt. rewrite Hl in Hlt.
  destruct (Nat.leb_spec MAX_ENTRIES i); [lia|]. rewrite Hi. cbn [or_panic mbind out_bind]. rewrite Hu.
  assert (wf (set_entries t (<[i:=empty]> (entries t)) true)) as Hwf'.
  { apply wf_insert; [done|done|apply empty_ok|done]. }
  eexists. split; [done|]. split; [done|]. split; [done|]. split; [done|]. split; [done|].
  split; [done|]. split.
  - destruct (lookup _ (name_bytes e)) as [[j y]|] eqn:Hlk; [|done]. exfalso.
    apply lookup_Some in Hlk as [Hj [Huy Hny]]; [|done]. cbn [set_entries entries] in Hj.
    apply list_lookup_insert_Some in Hj as [(-> & <- & _)|[Hne Hj]]; [done|].
    apply Hne. by eapply Huniq.
  - intros m Hm. apply lookup_ext; [done|done|]. intros j y Hy. cbn [set_entries entries].
    destruct (decide (j = i)) as [->|Hne]; [|by rewrite list_lookup_insert_ne].
    rewrite list_lookup_insert_eq by lia. split.
    + intros [= <-]. by destruct Hy.
    + intros Hj. destruct Hy as [_ Hy]. congruence.
Qed.

(** An update that keeps name and flags keeps the names the table knows. *)
Lemma get_mut_ok {E} i e f t :
  wf t -> entries t !! i = Some e -> is_in_use e = true -> entry_ok (f e) ->
  name (f e) = name e -> flags (f e) = flags e ->
  exists t', get_mut (E:=E) i f t = Ok t' /\ wf t' /\ dirty t' = true /\
    file_table_lba t' = file_table_lba t /\ block_size t' = block_size t /\
    entries t' = <[i := f e]> (entries t).
Proof.
  intros Hwf Hi Hu Hok' Hn Hf. pose proof Hwf as (Hl & Hok & Huniq). unfold get_mut.
  pose proof (lookup_lt_Some _ _ _ Hi) as Hlt. rewrite Hl in Hlt.
  destruct (Nat.ltb_spec i MAX_ENTRIES); [|lia]. rewrite Hi. cbn [or_panic mbind out_bind]. rewrite Hu.
  eexists. split; [done|]. split; [|done]. apply wf_insert; [done|done|done|].
  intros j y Hj Hy _ Huy Heq. apply Hj. symmetry. eapply Huniq; [done|done|done|done|].
  rewrite <- Heq. unfold name_bytes. by rewrite Hn.
Qed.

(** ** Flush and load on a lawful device *)
Section disk.
Context `{BlockDeviceSpec D}.

Definition layout_ok (t : FileTable) (d : D) : Prop :=
  dev_ok d /\ block_size t = dev_block_size d /\ 4096 <= block_size t <= io_limit d /\
  0 <= file_table_lba t < dev_total_blocks d.

Definition region_off (t : FileTable) : Z := file_table_lba t * block_size t.
Definition image (t : FileTable) : list Z := table_image (entries t) (block_size t).
Definition on_disk (c : list Z) (t : FileTable) : Prop :=
  slice c (region_off t) (block_size t) = image t.
Definition clean (t : FileTable) : FileTable := set_entries t (entries t) false.

Lemma ft_layout_ok_kind t d d' : layout_ok t d -> same_kind d d' -> layout_ok t d'.
Proof.
  intros (Hd & Hb & Hs & Hf) (Hd' & Hb' & Ht' & Hl' & _).
  unfold layout_ok. rewrite Hb', Ht', Hl'. tauto.
Qed.

Lemma ft_region_in_disk t d :
  layout_ok t d -> 0 <= region_off t /\ region_off t + block_size t <= zlen (contents d) /\
  zlen (contents d) < 2 ^ 63 /\ block_size t < 2 ^ 32.
Proof.
  intros (Hd & Hbs & Hsz & Hlba). unfold region_off.
  destruct (law_geometry d Hd) as (Hg1 & Hg2 & _ & Hz & Hz2). rewrite Hz. nia.
Qed.

Lemma wf_image t : wf t -> 4096 <= block_size t ->
  zlen (image t) = block_size t /\ bytes_ok (image t).
Proof.
  intros (Hl & Hok & _) Hbs. split; [|by apply table_image_ok].
  apply zlen_table_image; [done|]. unfold zlen. rewrite Hl. unfold MAX_ENTRIES. lia.
Qed.

Lemma ft_flush_ok t w :
  Phys.wf (pages w) -> layout_ok t (dev w) -> wf t ->
  wp (flush t)
    (fun t' w' => pages w' = pages w /\ same_kind (dev w) (dev w') /\ t' = clean t /\
       contents (dev w') =
         if dirty t then splice (contents (dev w)) (region_off t) (image t) else contents (dev w))
    (fun e w' => pages w' = pages w /\ same_kind (dev w) (dev w') /\
       same_outside (contents (dev w)) (contents (dev w')) (region_off t)
         (region_off t + block_size t) /\
       (reliable (dev w) -> e = OutOfMemory)) w.
Proof.
  intros Hp Hlay Hwf. pose proof (ft_region_in_disk t _ Hlay) as (Hr1 & Hr2 & Hr3 & Hr4).
  destruct Hlay as (Hd & Hbs & Hsz & Hlba). pose proof (same_kind_refl (dev w) Hd) as Hrefl.
  destruct (wf_image t Hwf) as [Hzi Hbi]; [lia|].
  unfold flush. destruct (dirty t) eqn:Hdirty; cbn [negb].
  2:{ apply wp_ret. split; [done|]. split; [done|]. split; [|done]. destruct t. unfold clean.
      cbn in *. by subst. }
  apply wp_with_dma; [done|lia| |].
  { intros _. split; [done|]. split; [done|]. by split; [apply same_outside_refl|]. }
  intros b p Hdata Hwfp. rewrite Hdata, length_replicate. apply wp_bind.
  eapply wp_lift; [apply store_entries_ok; [apply Hwf|apply Hwf|lia]|].
  fold (image t). apply wp_bind.
  apply wp_write; cbn [dev pages data set_data]; rewrite <- ?Hbs;
    [done|done|lia|lia|unfold region_off in *; nia|lia|lia|done|].
  rewrite Z.mul_1_l. intros d' Hk. split.
  - intros _ Hc. apply wp_ret. cbn [dev pages]. by repeat (split; [done|]).
  - intros e He Hc. cbn [dev pages]. split; [done|]. split; [done|]. split; [done|]. split.
    + destruct Hc as [->|(_ & new & Hnew & ->)]; [apply same_outside_refl|].
      fold (region_off t). apply same_outside_splice; lia.
    + intros Hr. exfalso. apply He; [done|]. unfold in_range. lia.
Qed.

Lemma ft_load_ok t w :
  Phys.wf (pages w) -> layout_ok t (dev w) -> wf t -> on_disk (contents (dev w)) t ->
  wp (load (file_table_lba t) (block_size t))
    (fun t' w' => pages w' = pages w /\ same_kind (dev w) (dev w') /\
       contents (dev w') = contents (dev w) /\ durable (dev w') = durable (dev w) /\ t' = clean t)
    (fun e w' => pages w' = pages w /\ same_kind (dev w) (dev w') /\
       contents (dev w') = contents (dev w) /\ (reliable (dev w) -> e = OutOfMemory)) w.
Proof.
  intros Hp Hlay Hwf Hon. pose proof (ft_region_in_disk t _ Hlay) as (Hr1 & Hr2 & Hr3 & Hr4).
  destruct Hlay as (Hd & Hbs & Hsz & Hlba). pose proof (same_kind_refl (dev w) Hd) as Hrefl.
  unfold load. apply wp_with_dma; [done|lia|by repeat split|].
  intros b p Hdata Hwfp. apply wp_bind.
  apply wp_read; cbn [dev pages]; rewrite <- ?Hbs;
    [done|done|lia|lia|unfold region_off in *; nia|lia|rewrite Hdata, zlen_replicate; lia|].
  rewrite Z.mul_1_l. intros d' Hk Hc Hdur. split.
  - intros _. cbn [data set_data]. fold (region_off t). rewrite Hon. apply wp_bind.
    eapply wp_lift; [apply load_entries_ok; [apply Hwf|apply Hwf|done|lia]|].
    apply wp_ret. cbn [dev pages]. by repeat (split; [done|]).
  - intros e He. cbn [dev pages]. split; [done|]. split; [done|]. split; [done|]. split; [done|].
    intros Hr. exfalso. apply He; [done|]. unfold in_range. lia.
Qed.

Lemma ft_on_disk_written t d :
  layout_ok t d -> wf t -> on_disk (splice (contents d) (region_off t) (image t)) t.
Proof.
  intros Hlay Hwf. pose proof (ft_region_in_disk t d Hlay) as (Hr1 & Hr2 & Hr3 & Hr4).
  destruct (wf_image t Hwf) as [Hzi _]; [destruct Hlay; lia|].
  unfold on_disk. rewrite <- Hzi. apply slice_splice_same; lia.
Qed.

End disk.

(** ** Properties *)
Section properties.
Context `{BlockDeviceSpec D}.

(** The table is a map from names: on a well-formed table, creating a
    storable new name either reports that all 42 slots are in use, changing
    nothing, or adds exactly that name with an empty file over the given
    blocks; looking it up finds it, every other name is looked up as before,
    and deleting the new entry removes exactly that name again. *)
Theorem create_lookup_delete n s c t :
  wf t -> name_ok n -> is_u64 s -> is_u64 c -> lookup t n = None ->
  (create (E:=Empty_set) n s c t = Ok (None, t) /\ Forall (fun e => is_in_use e = true) (entries t)) \/
  exists slot e t1, create (E:=Empty_set) n s c t = Ok (Some slot, t1) /\ wf t1 /\
    lookup t1 n = Some (slot, e) /\ start_block e = s /\ block_count e = c /\ byte_length e = 0 /\
    (forall m, m <> n -> lookup t1 m = lookup t m) /\
    exists t2, delete (E:=Empty_set) slot t1 = Ok (Some e, t2) /\ wf t2 /\
      forall m, lookup t2 m = lookup t m.
Proof.
  intros Hwf Hn Hs Hc Hno.
  destruct (create_ok (E:=Empty_set) n s c t Hwf Hn Hs Hc Hno) as [Hfull|(slot & e & t1 & Hcr & _ & _ & Hwf1 &
    _ & _ & _ & He & [Hu Hnm] & Hst & Hbc & Hbl & Hlk & Hoth)]; [by left|]. right.
  exists slot, e, t1. repeat (split; [done|]).
  apply lookup_Some in Hlk as [Hi _]; [|done].
  destruct (delete_ok (E:=Empty_set) slot e t1 Hwf1 Hi Hu) as (t2 & Hd & Hwf2 & _ & _ & _ & _ & Hnone & Hm).
  exists t2. split; [done|]. split; [done|]. intros m. destruct (decide (m = n)) as [->|Hne].
  - rewrite Hno, <- Hnm. done.
  - rewrite Hm by congruence. by apply Hoth.
Qed.

(** [flush] then [load] on a lawful device gives the same table back,
    every byte of every entry, with the dirty flag clear. *)
Theorem table_flush_then_load t w :
  Phys.wf (pages w) -> layout_ok t (dev w) -> wf t ->
  (dirty t = false -> on_disk (contents (dev w)) t) ->
  wp (_ ← flush t; load (file_table_lba t) (block_size t))
    (fun t' w' => t' = clean t /\ pages w' = pages w)
    (fun e w' => pages w' = pages w /\ (reliable (dev w) -> e = OutOfMemory)) w.
Proof.
  intros Hp Hlay Hwf Hcl. apply wp_bind. eapply wp_mono; [by apply ft_flush_ok| |].
  - intros t' w' (Hp' & Hk & -> & Hc).
    assert (on_disk (contents (dev w')) t) as Hon.
    { rewrite Hc. destruct (dirty t); [by apply ft_on_disk_written|by apply Hcl]. }
    eapply wp_mono; [apply ft_load_ok; [by rewrite Hp'|by eapply ft_layout_ok_kind|done|done]| |].
    + intros t'' w'' (Hp'' & _ & _ & _ & ->). split; [done|congruence].
    + intros e w'' (Hp'' & _ & _ & He). split; [congruence|]. intros Hr. apply He. by apply Hk.
  - intros e w' (Hp' & _ & _ & He). by split.
Qed.

End properties.

(** A table with the file "main.db", and the 8-block RAM disk it is stored on. *)
Definition main_db : list Z := [109; 97; 105; 110; 46; 100; 98].
Definition demo : FileTable :=
  match create (E:=Empty_set) main_db 0 16 (new 2 4096) with
  | Ok (_, t) => t
  | _ => new 2 4096
  end.

Lemma ft_new_wf lba bs : wf (new lba bs).
Proof.
  split; [apply length_replicate|]. split; [apply Forall_replicate, empty_ok|].
  intros i j e1 e2 H1 _ Hu _ _. apply lookup_replicate_1 in H1 as [-> _]. done.
Qed.

Lemma lookup_new lba bs n : lookup (new lba bs) n = None.
Proof.
  apply list_find_None, Forall_replicate. intros [H _]. done.
Qed.

Lemma main_db_ok : name_ok main_db.
Proof. split; [done|]. split; [by repeat constructor|]. unfold main_db. rewrite !not_elem_of_cons. repeat split; try done. apply not_elem_of_nil. Qed.

Lemma ft_demo_wf : wf demo.
Proof.
  unfold demo. destruct (create_ok (E:=Empty_set) main_db 0 16 (new 2 4096)) as
    [[-> _]|(slot & e & t1 & -> & _ & _ & Hwf & _)]; [apply ft_new_wf|apply main_db_ok|done|done|apply lookup_new| |done].
  apply ft_new_wf.
Qed.

Lemma create_lookup_delete_witness :
  lookup (new 2 4096) main_db = None /\
  ((create (E:=Empty_set) main_db 0 16 (new 2 4096) = Ok (None, new 2 4096) /\
    Forall (fun e => is_in_use e = true) (entries (new 2 4096))) \/
  exists slot e t1, create (E:=Empty_set) main_db 0 16 (new 2 4096) = Ok (Some slot, t1) /\ wf t1 /\
    lookup t1 main_db = Some (slot, e) /\ start_block e = 0 /\ block_count e = 16 /\ byte_length e = 0 /\
    (forall m, m <> main_db -> lookup t1 m = lookup (new 2 4096) m) /\
    exists t2, delete (E:=Empty_set) slot t1 = Ok (Some e, t2) /\ wf t2 /\
      forall m, lookup t2 m = lookup (new 2 4096) m).
Proof.
  split; [apply lookup_new|].
  apply (create_lookup_delete main_db 0 16 (new 2 4096)); [apply ft_new_wf|apply main_db_ok|done|done|apply lookup_new].
Defined.

Definition blank : hw RamDisk.RamDisk := mkHw (RamDisk.new 8 4096) Phys.demo.

Lemma table_flush_then_load_witness :
  dirty demo = true /\
  wp (_ ← flush demo; load (file_table_lba demo) (block_size demo))
    (fun t' w' => t' = clean demo /\ pages w' = pages blank)
    (fun e w' => pages w' = pages blank /\ (reliable (dev blank) -> e = OutOfMemory)) blank.
Proof.
  split; [by vm_compute|].
  apply (table_flush_then_load demo blank); [exact Phys.demo_wf| |exact ft_demo_wf|].
  - split; [exact (RamDisk.new_ok 8 4096 ltac:(lia) ltac:(lia) ltac:(lia))|].
    vm_compute. repeat split; congruence.
  - intros H. exfalso. revert H. by vm_compute.
Defined.

End FileTable.
