(* ===== verification/Vfs.v ===== *)
(** * The SQLite VFS ([vfs/sqlite_vfs.rs])

    Chunked block I/O, and the file operations [open], [close], [read],
    [write] (with relocation when a file grows), [sync], [truncate], [delete]
    and [access] over the block allocator and the file table. *)
From S2P Require Import Prelude Bytes Bitmap Phys Block BlockAlloc FileTable.
Import BlockAlloc(BlockAllocator) FileTable(FileTable, FileEntry).

Module Vfs.

Definition MAX_BLOCKS_PER_IO : Z := 65535.

Definition SQLITE_OK : Z := 0.
Definition SQLITE_ERROR : Z := 1.
Definition SQLITE_BUSY : Z := 5.
Definition SQLITE_IOERR : Z := 10.
Definition SQLITE_FULL : Z := 13.
Definition SQLITE_CANTOPEN : Z := 14.
Definition SQLITE_IOERR_READ : Z := 266.
Definition SQLITE_IOERR_SHORT_READ : Z := 522.
Definition SQLITE_IOERR_WRITE : Z := 778.
Definition SQLITE_IOERR_FSYNC : Z := 1034.
Definition SQLITE_IOERR_NOMEM : Z := 3082.
Definition SQLITE_OPEN_CREATE : Z := 4.
Definition INITIAL_ALLOC_BLOCKS : Z := 16.

Record HeavenFile := mkFile {
  file_table_index : nat;
  start_lba : Z;
  block_count : Z;
  byte_length : Z;
  block_size : Z;
}.

Definition set_length (f : HeavenFile) (n : Z) : HeavenFile :=
  mkFile (file_table_index f) (start_lba f) (block_count f) n (block_size f).

Section chunked.
Context `{BlockDevice D}.

(** [while remaining > 0]; the fuel covers one iteration per 65535 blocks. *)
Fixpoint chunked_read_loop (fuel : nat) (remaining lba byte_offset total block_size : Z)
    (dma : DmaBuf) : st (hw D) unit DmaBuf :=
  match fuel with
  | O => st_panic
  | S fuel =>
      if 0 <? remaining then
        let chunk := Z.min remaining MAX_BLOCKS_PER_IO in
        let chunk_bytes := chunk ⊠ block_size in
        dma ←
          (if (remaining =? total) && (chunk =? total) then
             st_map_err (fun _ => tt) (read_blocks lba chunk dma)
           else
             with_dma (fun _ => tt) chunk_bytes (fun tmp =>
               tmp ← st_map_err (fun _ => tt) (read_blocks lba chunk tmp);
               src ← st_lift (index_range (data tmp) 0 chunk_bytes);
               d ← st_lift (copy_into (data dma) byte_offset (byte_offset ⊞ chunk_bytes) src);
               mret (set_data dma d)));
        chunked_read_loop fuel (remaining ⊟ chunk) (lba ⊞ chunk) (byte_offset ⊞ chunk_bytes)
          total block_size dma
      else mret dma
  end.

Definition chunks (block_count : Z) : nat := S (S (Z.to_nat (block_count / MAX_BLOCKS_PER_IO))).

Definition chunked_read (start_lba block_count block_size : Z) (dma : DmaBuf)
    : st (hw D) unit DmaBuf :=
  chunked_read_loop (chunks block_count) block_count start_lba 0 block_count block_size dma.

Fixpoint chunked_write_loop (fuel : nat) (remaining lba byte_offset total block_size : Z)
    (dma : DmaBuf) : st (hw D) unit unit :=
  match fuel with
  | O => st_panic
  | S fuel =>
      if 0 <? remaining then
        let chunk := Z.min remaining MAX_BLOCKS_PER_IO in
        let chunk_bytes := chunk ⊠ block_size in
        _ ←
          (if (remaining =? total) && (chunk =? total) then
             st_map_err (fun _ => tt) (write_blocks lba chunk dma)
           else
             with_dma (fun _ => tt) chunk_bytes (fun tmp =>
               src ← st_lift (index_range (data dma) byte_offset (byte_offset ⊞ chunk_bytes));
               d ← st_lift (copy_into (data tmp) 0 chunk_bytes src);
               st_map_err (fun _ => tt) (write_blocks lba chunk (set_data tmp d))));
        chunked_write_loop fuel (remaining ⊟ chunk) (lba ⊞ chunk) (byte_offset ⊞ chunk_bytes)
          total block_size dma
      else mret tt
  end.

Definition chunked_write (start_lba block_count block_size : Z) (dma : DmaBuf)
    : st (hw D) unit unit :=
  chunked_write_loop (chunks block_count) block_count start_lba 0 block_count block_size dma.
End chunked.

(** [NVME], the page pool and the two locked halves of [HeavenVfs]. *)
Record vfs (D : Type) := mkVfs {
  nvme : option D;
  pool : Phys.AllocatorInner;
  allocator : BlockAllocator;
  file_table : FileTable;
}.
Arguments mkVfs {D} _ _ _ _.
Arguments nvme {D} _.
Arguments pool {D} _.
Arguments allocator {D} _.
Arguments file_table {D} _.

Section vfs.
Context `{BlockDevice D}.

Definition set_allocator (a : BlockAllocator) (s : vfs D) : vfs D :=
  mkVfs (nvme s) (pool s) a (file_table s).
Definition set_table (t : FileTable) (s : vfs D) : vfs D :=
  mkVfs (nvme s) (pool s) (allocator s) t.
Definition set_hw (w : hw D) (s : vfs D) : vfs D :=
  mkVfs (Some (dev w)) (pages w) (allocator s) (file_table s).

(** [match NVME.lock().as_mut() { Some(n) => m, None => return none }]. *)
Definition with_nvme {A} (none : Z) (m : st (hw D) Z A) : st (vfs D) Z A := fun s =>
  match nvme s with
  | None => (Err none, s)
  | Some d => let '(r, w) := m (mkHw d (pool s)) in (r, set_hw w s)
  end.

(** An operation on the file table that reports only by its result. *)
Definition on_table {A} (f : FileTable -> out Z (A * FileTable)) : st (vfs D) Z A := fun s =>
  match f (file_table s) with
  | Ok (a, t) => (Ok a, set_table t s)
  | Err e => (Err e, s)
  | Panic => (Panic, s)
  end.

Definition get_mut (i : nat) (f : FileEntry -> FileEntry) : st (vfs D) Z unit :=
  on_table (fun t => t' ← FileTable.get_mut i f t; Ok (tt, t')).

Definition entry_set_length (n : Z) (e : FileEntry) : FileEntry :=
  FileTable.mkEntry (FileTable.name e) (FileTable.start_block e) (FileTable.block_count e) n
    (FileTable.flags e) (FileTable.reserved e).
Definition entry_set_range (s c : Z) (e : FileEntry) : FileEntry :=
  FileTable.mkEntry (FileTable.name e) s c (FileTable.byte_length e)
    (FileTable.flags e) (FileTable.reserved e).
Definition entry_set_size (c n : Z) (e : FileEntry) : FileEntry :=
  FileTable.mkEntry (FileTable.name e) (FileTable.start_block e) c n
    (FileTable.flags e) (FileTable.reserved e).

(** [self.allocator.lock().alloc(count)] with its error mapped. *)
Definition alloc_blocks (count : Z) (full : Z) : st (vfs D) Z Z := fun s =>
  match BlockAlloc.alloc count (allocator s) with
  | (Ok p, a) => (Ok p, set_allocator a s)
  | (Err _, a) => (Err full, set_allocator a s)
  | (Panic, a) => (Panic, set_allocator a s)
  end.

Definition free_blocks (start count : Z) : st (vfs D) Z unit := fun s =>
  match BlockAlloc.free start count (allocator s) with
  | Ok a => (Ok tt, set_allocator a s)
  | _ => (Panic, s)
  end.

Definition open (name : list Z) (open_flags : Z) : st (vfs D) Z HeavenFile :=
  s ← st_get;
  let block_size := BlockAlloc.block_size (allocator s) in
  match FileTable.lookup (file_table s) name with
  | Some (idx, entry) =>
      mret {| file_table_index := idx;
              start_lba := BlockAlloc.data_start_lba (allocator s) ⊞ FileTable.start_block entry;
              block_count := FileTable.block_count entry;
              byte_length := FileTable.byte_length entry;
              block_size := block_size |}
  | None =>
      if Z.land open_flags SQLITE_OPEN_CREATE =? 0 then st_err SQLITE_CANTOPEN
      else
        start_block ← alloc_blocks INITIAL_ALLOC_BLOCKS SQLITE_FULL;
        idx ← on_table (FileTable.create name start_block INITIAL_ALLOC_BLOCKS);
        match idx with
        | None => st_err SQLITE_FULL
        | Some idx =>
            mret {| file_table_index := idx;
                    start_lba := BlockAlloc.data_start_lba (allocator s) ⊞ start_block;
                    block_count := INITIAL_ALLOC_BLOCKS;
                    byte_length := 0;
                    block_size := block_size |}
        end
  end.

Definition close (file : HeavenFile) : st (vfs D) Z unit :=
  get_mut (file_table_index file) (entry_set_length (byte_length file)).

(** The result code and the caller's buffer; an [Err] leaves the buffer as it
    was. *)
Definition read (file : HeavenFile) (buf : list Z) (offset : Z) : st (vfs D) Z (Z * list Z) :=
  let amount := zlen buf in
  let bs := block_size file in
  let zeros := replicate (length buf) 0 in
  if byte_length file <=? offset then mret (SQLITE_IOERR_SHORT_READ, zeros)
  else if bs =? 0 then st_panic
  else
    let available := byte_length file - offset in
    let to_read := Z.min amount available in
    let start_block := offset / bs in
    let end_block := ((offset ⊞ to_read) ⊟ 1) / bs in
    let count := (end_block ⊟ start_block) ⊞ 1 in
    if block_count file <? start_block ⊞ count then mret (SQLITE_IOERR_SHORT_READ, zeros)
    else
      let lba := start_lba file ⊞ start_block in
      with_nvme SQLITE_IOERR
        (let dma_size := count ⊠ bs in
         with_dma (fun _ => SQLITE_IOERR_NOMEM) dma_size (fun dma =>
           dma ← st_map_err (fun _ => SQLITE_IOERR_READ) (chunked_read lba count bs dma);
           dst ← st_lift (index_range buf 0 to_read);
           dst ← st_lift (Dma.copy_to_slice dma dst (offset mod bs) to_read);
           let buf := splice buf 0 dst in
           if to_read <? amount
           then mret (SQLITE_IOERR_SHORT_READ,
                      splice buf to_read (replicate (Z.to_nat (amount - to_read)) 0))
           else mret (SQLITE_OK, buf))).

(** The copy of the old blocks, one block at a time through one buffer. *)
Definition copy_blocks (old_start new_start count bs : Z) : st (hw D) Z unit :=
  with_dma (fun _ => SQLITE_IOERR_NOMEM) bs (fun tmp =>
    _ ← st_range 0 count (fun blk tmp =>
      tmp ← st_map_err (fun _ => SQLITE_IOERR_READ) (read_blocks (old_start ⊞ blk) 1 tmp);
      _ ← st_map_err (fun _ => SQLITE_IOERR_WRITE) (write_blocks (new_start ⊞ blk) 1 tmp);
      mret tmp) tmp;
    mret tt).

(** Moves the file to [needed] new blocks, and returns the updated handle. *)
Definition grow (file : HeavenFile) (needed : Z) : st (vfs D) Z HeavenFile :=
  with_nvme SQLITE_IOERR (mret tt) ≫= fun _ =>
  new_start_block ← alloc_blocks needed SQLITE_FULL;
  s ← st_get;
  let dsl := BlockAlloc.data_start_lba (allocator s) in
  let old_data_start := start_lba file in
  let old_start_block := start_lba file ⊟ dsl in
  let old_block_count := block_count file in
  let new_data_start := dsl ⊞ new_start_block in
  r ← st_try (with_nvme SQLITE_IOERR
        (_ ← copy_blocks old_data_start new_data_start old_block_count (block_size file);
         st_map_err (fun _ => SQLITE_IOERR_FSYNC) dev_flush));
  match r with
  | inr code => _ ← free_blocks new_start_block needed; st_err code
  | inl _ =>
      let file := mkFile (file_table_index file) new_data_start needed (byte_length file)
                    (block_size file) in
      _ ← get_mut (file_table_index file) (entry_set_range new_start_block needed);
      _ ← free_blocks old_start_block old_block_count;
      mret file
  end.

(** The data transfer of [write]: directly when the range is made of whole
    blocks, by read-modify-write otherwise. *)
Definition write_range (lba count bs : Z) (bytes : list Z) (off : Z) : st (hw D) Z unit :=
  let amount := zlen bytes in
  let dma_size := count ⊠ bs in
  if (off =? 0) && (amount mod bs =? 0) then
    with_dma (fun _ => SQLITE_IOERR_NOMEM) dma_size (fun dma =>
      dma ← st_lift (Dma.copy_from_slice dma bytes);
      st_map_err (fun _ => SQLITE_IOERR_WRITE) (chunked_write lba count bs dma))
  else
    with_dma (fun _ => SQLITE_IOERR_NOMEM) dma_size (fun dma =>
      dma ← st_map_err (fun _ => SQLITE_IOERR_READ) (chunked_read lba count bs dma);
      d ← st_lift (copy_into (data dma) off (off ⊞ amount) bytes);
      st_map_err (fun _ => SQLITE_IOERR_WRITE) (chunked_write lba count bs (set_data dma d))).

(** [write] updates the caller's handle, also when it fails after the file
    has moved: the result is the handle with the code. *)
Definition write (file : HeavenFile) (bytes : list Z) (offset : Z) : st (vfs D) Z (Z * HeavenFile) :=
  let amount := zlen bytes in
  let bs := block_size file in
  if bs =? 0 then st_panic else
  let start_block := offset / bs in
  let end_block := ((offset ⊞ amount) ⊟ 1) / bs in
  let count := (end_block ⊟ start_block) ⊞ 1 in
  file ← (if block_count file <? start_block ⊞ count then grow file (start_block ⊞ count)
          else mret file);
  r ← st_try (with_nvme SQLITE_IOERR
        (write_range (start_lba file ⊞ start_block) count bs bytes (offset mod bs)));
  match r with
  | inr code => mret (code, file)
  | inl _ =>
      let new_end := offset ⊞ amount in
      mret (SQLITE_OK, if byte_length file <? new_end then set_length file new_end else file)
  end.

Definition sync (file : HeavenFile) : st (vfs D) Z unit :=
  with_nvme SQLITE_IOERR_FSYNC (mret tt) ≫= fun _ =>
  _ ← get_mut (file_table_index file) (entry_set_length (byte_length file));
  s ← st_get;
  a ← with_nvme SQLITE_IOERR_FSYNC (st_map_err (fun _ => SQLITE_IOERR_FSYNC) (BlockAlloc.flush (allocator s)));
  s ← st_get;
  _ ← st_put (set_allocator a s);
  t ← with_nvme SQLITE_IOERR_FSYNC (st_map_err (fun _ => SQLITE_IOERR_FSYNC) (FileTable.flush (file_table s)));
  s ← st_get;
  _ ← st_put (set_table t s);
  with_nvme SQLITE_IOERR_FSYNC (st_map_err (fun _ => SQLITE_IOERR_FSYNC) dev_flush).

Definition file_size (file : HeavenFile) : Z := byte_length file.

Definition truncate (file : HeavenFile) (size : Z) : st (vfs D) Z HeavenFile :=
  if byte_length file <? size then mret file
  else
    let file := set_length file size in
    let bs := block_size file in
    if negb (size =? 0) && (bs =? 0) then st_panic else
    let needed := if size =? 0 then 1 else ((size ⊞ bs) ⊟ 1) / bs in
    if needed <? block_count file then
      s ← st_get;
      let old_start_block := start_lba file ⊟ BlockAlloc.data_start_lba (allocator s) in
      let excess_start := old_start_block ⊞ needed in
      let excess_count := block_count file - needed in
      _ ← free_blocks excess_start excess_count;
      let file := mkFile (file_table_index file) (start_lba file) needed (byte_length file) bs in
      _ ← get_mut (file_table_index file) (entry_set_size needed size);
      mret file
    else mret file.

Definition delete (name : list Z) : st (vfs D) Z unit :=
  s ← st_get;
  match FileTable.lookup (file_table s) name with
  | Some (idx, entry) =>
      let start_block := FileTable.start_block entry in
      let block_count := FileTable.block_count entry in
      _ ← on_table (FileTable.delete idx);
      free_blocks start_block block_count
  | None => mret tt
  end.

Definition access (name : list Z) (s : vfs D) : bool :=
  bool_decide (is_Some (FileTable.lookup (file_table s) name)).
End vfs.

Lemma block_arith bs a k n :
  0 < bs -> 0 <= a -> 0 < k -> a + k <= n ->
  0 <= a * bs /\ 0 < k * bs /\ a * bs + k * bs <= n * bs /\ (a + k) * bs = a * bs + k * bs /\
  n <= n * bs.
Proof. intros. assert (0 <= n * (bs - 1)) by nia. split; [nia|]. split; [nia|]. split; [nia|]. split; nia. Qed.

Lemma range_bytes z lba n bs total :
  z = total * bs -> 0 <= bs -> lba + n <= total -> lba * bs + n * bs <= z.
Proof. intros -> Hb H. rewrite <- Z.mul_add_distr_r. by apply Z.mul_le_mono_nonneg_r. Qed.

Lemma mult_between bs q c : 0 < bs -> (c - 1) * bs < 0 + q * bs <= c * bs -> q = c.
Proof. intros. assert (c - 1 < q) by nia. assert (q <= c) by nia. lia. Qed.

(** ** Chunked transfers are one transfer *)
Section chunked_spec.
Context `{BlockDeviceSpec D}.

(** A range of [n] blocks the code can transfer: inside the address space,
    each chunk within the device's limit. *)
Definition io_ok (d : D) (lba n bs : Z) : Prop :=
  dev_ok d /\ bs = dev_block_size d /\ 0 <= lba /\ 0 < n /\ (lba + n) * bs < 2 ^ 63 /\
  Z.min n MAX_BLOCKS_PER_IO * bs <= io_limit d.

Lemma io_ok_kind d d' lba n bs : io_ok d lba n bs -> same_kind d d' -> io_ok d' lba n bs.
Proof.
  intros (? & -> & ? & ? & ? & ?) (? & Hb & _ & Hl & _). unfold io_ok. rewrite Hb, Hl. tauto.
Qed.

Lemma chunked_read_loop_ok d0 p0 l0 n bs dma0 fuel w done dma :
  io_ok d0 l0 n bs -> Phys.wf p0 -> zlen (data dma0) = n * bs ->
  pages w = p0 -> same_kind d0 (dev w) -> contents (dev w) = contents d0 ->
  0 <= done <= n -> (n - done + 65534) / 65535 + 1 <= Z.of_nat fuel ->
  data dma = splice (data dma0) 0 (slice (contents d0) (l0 * bs) (done * bs)) ->
  (0 < done -> l0 + done <= dev_total_blocks d0) ->
  wp (chunked_read_loop fuel (n - done) (l0 + done) (done * bs) n bs dma)
    (fun dma' w' => pages w' = p0 /\ same_kind d0 (dev w') /\ contents (dev w') = contents d0 /\
       in_range d0 l0 n /\ data dma' = slice (contents d0) (l0 * bs) (n * bs))
    (fun _ w' => pages w' = p0 /\ same_kind d0 (dev w') /\ contents (dev w') = contents d0) w.
Proof.
  intros Hio Hp Hlen0. pose proof Hio as (Hd & Hbs & Hl & Hn & Hov & Hlim).
  destruct (law_geometry d0 Hd) as (Hg1 & Hg2 & Hgb & Hz & Hz2). rewrite <- Hbs in Hg1, Hz.
  revert w done dma. induction fuel as [|fuel IH]; intros w done dma Hw Hk Hc Hdone Hfuel Hdata Hin.
  { exfalso. lia. }
  cbn [chunked_read_loop]. unfold MAX_BLOCKS_PER_IO in *.
  destruct (Z.ltb_spec 0 (n - done)) as [Hrem|Hrem].
  2:{ apply wp_ret. assert (done = n) as -> by lia.
      repeat (split; [done|]). split; [unfold in_range; lia|]. rewrite Hdata.
      pose proof (range_bytes _ l0 n bs (dev_total_blocks d0) Hz) as Hfit.
      apply splice_all. rewrite zlen_slice by lia. lia. }
  set (chunk := Z.min (n - done) 65535) in *. assert (0 < chunk <= n - done) as Hchunk by lia.
  assert (chunk < 2 ^ 16) by lia.
  destruct (block_arith bs done chunk n) as (? & ? & ? & Hadd & ?); [lia..|].
  destruct (block_arith bs l0 n (l0 + n)) as (? & ? & _ & Hadd3 & ?); [lia..|].
  assert ((l0 + done) * bs = l0 * bs + done * bs) as Hadd2 by ring.
  rewrite (wrap64_small (chunk * bs)) by lia. rewrite (wrap64_small (n - done - chunk)) by lia.
  rewrite (wrap64_small (l0 + done + chunk)) by lia. rewrite (wrap64_small (done * bs + chunk * bs)) by lia.
  pose proof Hk as (Hdw & Hbw & Htw & Hlw & Hrw).
  assert (chunk * bs <= io_limit d0) as Hlim'.
  { etrans; [|exact Hlim]. apply Z.mul_le_mono_nonneg_r; lia. }
  apply wp_bind.
  eapply (wp_mono _ (fun dma' w' => pages w' = p0 /\ same_kind d0 (dev w') /\
    contents (dev w') = contents d0 /\ in_range d0 (l0 + done) chunk /\
    data dma' = splice (data dma0) 0 (slice (contents d0) (l0 * bs) ((done + chunk) * bs))) _
    (fun _ w' => pages w' = p0 /\ same_kind d0 (dev w') /\ contents (dev w') = contents d0)).
  - assert (in_range d0 (l0 + done) chunk ->
      splice (data dma) (done * bs) (slice (contents d0) ((l0 + done) * bs) (chunk * bs)) =
      splice (data dma0) 0 (slice (contents d0) (l0 * bs) ((done + chunk) * bs))) as Hstep.
    { intros [_ Hr]. pose proof (range_bytes _ (l0 + done) chunk bs (dev_total_blocks d0) Hz) as Hfit.
      rewrite Hdata, Hadd, <- (slice_concat _ (l0 * bs) (done * bs)) by lia.
      rewrite <- splice_splice_adj by (rewrite ?zlen_slice; lia). f_equal; [|f_equal; lia].
      rewrite zlen_slice; lia. }
    destruct w as [d p]. cbn [dev pages] in *. subst p.
    destruct ((n - done =? n) && (chunk =? n)) eqn:Hsingle.
    + apply andb_true_iff in Hsingle as [Hs1%Z.eqb_eq Hs2%Z.eqb_eq].
      assert (done = 0) as -> by lia. apply wp_map_err.
      apply wp_read; cbn [dev pages]; rewrite ?Hbw, <- ?Hbs; [done|done|lia|lia|lia|lia| |].
      { rewrite Hdata, Z.mul_0_l, slice_nil, splice_nil by lia. lia. }
      intros d' Hk' Hc' _. rewrite Hc. split.
      * intros [_ Hr]. cbn [dev pages data set_data]. rewrite Htw in Hr.
        split; [done|]. split; [by eapply same_kind_trans|]. split; [congruence|].
        split; [unfold in_range; lia|]. rewrite Z.add_0_r, Z.add_0_l.
        pose proof (range_bytes _ l0 chunk bs (dev_total_blocks d0) Hz) as Hfit.
        rewrite splice_all; [done|]. rewrite zlen_slice by lia. lia.
      * intros _ _. cbn [dev pages]. split; [done|]. split; [by eapply same_kind_trans|congruence].
    + apply wp_with_dma; cbn [dev pages]; [done|lia|by intros _|].
      intros tmp q Htmp Hq. apply wp_bind. apply wp_map_err.
      apply wp_read; cbn [dev pages]; rewrite ?Hbw, <- ?Hbs; [done|done|lia|lia|lia|lia| |].
      { rewrite Htmp, zlen_replicate. lia. }
      intros d' Hk' Hc' _. rewrite Hc. split.
      * intros [_ Hr]. cbn [dev pages data set_data]. rewrite Htw in Hr.
        assert (in_range d0 (l0 + done) chunk) as Hrange by (unfold in_range; lia).
        pose proof (range_bytes _ (l0 + done) chunk bs (dev_total_blocks d0) Hz) as Hfit.
        set (src := slice (contents d0) ((l0 + done) * bs) (chunk * bs)) in *.
        assert (zlen src = chunk * bs) as Hsrc by (subst src; rewrite zlen_slice; lia).
        assert (zlen (data dma) = n * bs) as Hzd.
        { rewrite Hdata, zlen_splice; [done|lia|]. rewrite zlen_slice by lia. lia. }
        apply wp_bind. eapply wp_lift; [apply index_range_ok; lia|].
        rewrite Z.sub_0_r, slice_all by lia.
        apply wp_bind. eapply wp_lift; [apply copy_into_ok; lia|].
        apply wp_ret. cbn [dev pages data set_data].
        split; [done|]. split; [done|]. split; [by eapply same_kind_trans|]. split; [congruence|].
        split; [done|]. by apply Hstep.
      * intros _ _. cbn [dev pages]. split; [done|]. split; [done|]. split; [by eapply same_kind_trans|congruence].
  - intros dma' w' (Hw' & Hk' & Hc' & [_ Hr] & Hd').
    replace (n - done - chunk) with (n - (done + chunk)) by lia.
    replace (l0 + done + chunk) with (l0 + (done + chunk)) by lia. rewrite <- Hadd.
    apply IH; [done|done|done|lia| |done|intros _; lia].
    lia.
  - done.
Qed.

Lemma chunked_read_ok w lba n bs dma :
  Phys.wf (pages w) -> io_ok (dev w) lba n bs -> zlen (data dma) = n * bs ->
  wp (chunked_read lba n bs dma)
    (fun dma' w' => pages w' = pages w /\ same_kind (dev w) (dev w') /\
       contents (dev w') = contents (dev w) /\ in_range (dev w) lba n /\
       data dma' = slice (contents (dev w)) (lba * bs) (n * bs))
    (fun _ w' => pages w' = pages w /\ same_kind (dev w) (dev w') /\
       contents (dev w') = contents (dev w)) w.
Proof.
  intros Hp Hio Hlen. pose proof Hio as (Hd & _ & _ & Hn & _). unfold chunked_read.
  pose proof (chunked_read_loop_ok (dev w) (pages w) lba n bs dma (chunks n) w 0 dma) as Hloop.
  rewrite Z.sub_0_r, Z.add_0_r, Z.mul_0_l in Hloop.
  apply Hloop; [done|done|done|done|by apply same_kind_refl|done|lia| | |lia].
  - unfold chunks, MAX_BLOCKS_PER_IO. lia.
  - rewrite slice_nil, splice_nil; [done|]. pose proof (zlen_nonneg (data dma)). lia.
Qed.

Lemma chunked_write_loop_ok d0 p0 l0 n bs dma fuel w done :
  io_ok d0 l0 n bs -> Phys.wf p0 -> zlen (data dma) = n * bs -> bytes_ok (data dma) ->
  pages w = p0 -> same_kind d0 (dev w) ->
  0 <= done <= n -> (n - done + 65534) / 65535 + 1 <= Z.of_nat fuel ->
  (0 < done -> l0 + done <= dev_total_blocks d0) ->
  contents (dev w) = (if decide (done = 0) then contents d0
    else splice (contents d0) (l0 * bs) (slice (data dma) 0 (done * bs))) ->
  wp (chunked_write_loop fuel (n - done) (l0 + done) (done * bs) n bs dma)
    (fun _ w' => pages w' = p0 /\ same_kind d0 (dev w') /\ in_range d0 l0 n /\
       contents (dev w') = splice (contents d0) (l0 * bs) (data dma))
    (fun _ w' => pages w' = p0 /\ same_kind d0 (dev w') /\
       same_outside (contents d0) (contents (dev w')) (l0 * bs) (l0 * bs + n * bs)) w.
Proof.
  intros Hio Hp Hlen Hby. pose proof Hio as (Hd & Hbs & Hl & Hn & Hov & Hlim).
  destruct (law_geometry d0 Hd) as (Hg1 & Hg2 & Hgb & Hz & Hz2). rewrite <- Hbs in Hg1, Hz.
  revert w done. induction fuel as [|fuel IH]; intros w done Hw Hk Hdone Hfuel Hin Hc.
  { exfalso. lia. }
  cbn [chunked_write_loop]. unfold MAX_BLOCKS_PER_IO in *.
  destruct (Z.ltb_spec 0 (n - done)) as [Hrem|Hrem].
  2:{ apply wp_ret. assert (done = n) as -> by lia. rewrite decide_False in Hc by lia.
      repeat (split; [done|]). split; [unfold in_range; lia|]. by rewrite slice_all in Hc by lia. }
  set (chunk := Z.min (n - done) 65535) in *. assert (0 < chunk <= n - done) as Hchunk by lia.
  assert (chunk < 2 ^ 16) by lia.
  destruct (block_arith bs done chunk n) as (? & ? & ? & Hadd & ?); [lia..|].
  destruct (block_arith bs l0 n (l0 + n)) as (? & ? & _ & Hadd3 & ?); [lia..|].
  assert ((l0 + done) * bs = l0 * bs + done * bs) as Hadd2 by ring.
  rewrite (wrap64_small (chunk * bs)) by lia. rewrite (wrap64_small (n - done - chunk)) by lia.
  rewrite (wrap64_small (l0 + done + chunk)) by lia. rewrite (wrap64_small (done * bs + chunk * bs)) by lia.
  pose proof Hk as (Hdw & Hbw & Htw & Hlw & Hrw).
  assert (chunk * bs <= io_limit d0) as Hlim'.
  { etrans; [|exact Hlim]. apply Z.mul_le_mono_nonneg_r; lia. }
  set (piece := slice (data dma) (done * bs) (chunk * bs)).
  assert (zlen piece = chunk * bs) as Hpiece by (unfold piece; rewrite zlen_slice; lia).
  assert (forall d', in_range d0 (l0 + done) chunk ->
    contents d' = splice (contents (dev w)) ((l0 + done) * bs) piece ->
    contents d' = splice (contents d0) (l0 * bs) (slice (data dma) 0 ((done + chunk) * bs))) as Hstep.
  { intros d' [_ Hr] ->. pose proof (range_bytes _ (l0 + done) chunk bs (dev_total_blocks d0) Hz) as Hfit.
    rewrite Hadd, <- (slice_concat _ 0 (done * bs)), Z.add_0_l by lia. fold piece. rewrite Hc.
    destruct (decide (done = 0)) as [->|Hne].
    - rewrite Z.mul_0_l, slice_nil. cbn [app]. f_equal. lia.
    - rewrite <- splice_splice_adj by (rewrite ?zlen_slice; lia). f_equal.
      rewrite zlen_slice by lia. lia. }
  assert (same_outside (contents d0) (contents (dev w)) (l0 * bs) (l0 * bs + n * bs)) as Hsofar.
  { rewrite Hc. destruct (decide (done = 0)); [apply same_outside_refl|].
    pose proof (range_bytes _ l0 done bs (dev_total_blocks d0) Hz) as Hfit.
    apply same_outside_splice; rewrite ?zlen_slice by lia; lia. }
  assert (forall d', contents d' = contents (dev w) \/
     (in_range (dev w) (l0 + done) chunk /\ exists new, zlen new = chunk * bs /\
        contents d' = splice (contents (dev w)) ((l0 + done) * bs) new) ->
     same_outside (contents d0) (contents d') (l0 * bs) (l0 * bs + n * bs)) as Hfail.
  { intros d' [->|([_ Hr] & new & Hnew & ->)]; [done|]. eapply same_outside_trans; [done|].
    rewrite Htw in Hr. pose proof (range_bytes _ (l0 + done) chunk bs (dev_total_blocks d0) Hz) as Hfit.
    destruct Hsofar as [Hzs _]. apply same_outside_splice; lia. }
  apply wp_bind.
  eapply (wp_mono _ (fun _ w' => pages w' = p0 /\ same_kind d0 (dev w') /\
    in_range d0 (l0 + done) chunk /\
    contents (dev w') = splice (contents d0) (l0 * bs) (slice (data dma) 0 ((done + chunk) * bs))) _
    (fun _ w' => pages w' = p0 /\ same_kind d0 (dev w') /\
      same_outside (contents d0) (contents (dev w')) (l0 * bs) (l0 * bs + n * bs))).
  - destruct w as [d p]. cbn [dev pages] in *. subst p.
    destruct ((n - done =? n) && (chunk =? n)) eqn:Hsingle.
    + apply andb_true_iff in Hsingle as [Hs1%Z.eqb_eq Hs2%Z.eqb_eq].
      assert (done = 0) as Hd0 by lia. apply wp_map_err.
      assert (data dma = piece) as Hall by (unfold piece; rewrite Hd0, Z.mul_0_l, slice_all by lia; done).
      apply wp_write; cbn [dev pages]; rewrite ?Hbw, <- ?Hbs; [done|done|lia|lia|lia|lia|lia|done|].
      intros d' Hk'. split.
      * intros [_ Hr] Hc'. cbn [dev pages]. rewrite Htw in Hr.
        split; [done|]. split; [by eapply same_kind_trans|]. split; [unfold in_range; lia|].
        apply Hstep; [unfold in_range; lia|]. by rewrite Hc', Hall.
      * intros e _ Hc'. cbn [dev pages]. split; [done|]. split; [by eapply same_kind_trans|]. by apply Hfail.
    + apply wp_with_dma; cbn [dev pages]; [done|lia|by intros _|].
      intros tmp q Htmp Hq. apply wp_bind. eapply wp_lift; [apply index_range_ok; lia|].
      replace (done * bs + chunk * bs - done * bs) with (chunk * bs) by lia. fold piece.
      apply wp_bind. eapply wp_lift.
      { apply copy_into_ok; rewrite ?Htmp, ?zlen_replicate; lia. }
      rewrite splice_all by (rewrite Htmp, zlen_replicate; lia). apply wp_map_err.
      apply wp_write; cbn [dev pages data set_data]; rewrite ?Hbw, <- ?Hbs;
        [done|done|lia|lia|lia|lia|lia|by apply bytes_ok_slice|].
      intros d' Hk'. split.
      * intros [_ Hr] Hc'. cbn [dev pages]. rewrite Htw in Hr.
        split; [done|]. split; [done|]. split; [by eapply same_kind_trans|]. split; [unfold in_range; lia|].
        apply Hstep; [unfold in_range; lia|done].
      * intros e _ Hc'. cbn [dev pages]. split; [done|]. split; [done|].
        split; [by eapply same_kind_trans|]. by apply Hfail.
  - intros _ w' (Hw' & Hk' & [_ Hr] & Hd').
    replace (n - done - chunk) with (n - (done + chunk)) by lia.
    replace (l0 + done + chunk) with (l0 + (done + chunk)) by lia. rewrite <- Hadd.
    apply IH; [done|done|lia|lia|intros _; lia|]. by rewrite decide_False by lia.
  - done.
Qed.

Lemma chunked_write_ok w lba n bs dma :
  Phys.wf (pages w) -> io_ok (dev w) lba n bs -> zlen (data dma) = n * bs -> bytes_ok (data dma) ->
  wp (chunked_write lba n bs dma)
    (fun _ w' => pages w' = pages w /\ same_kind (dev w) (dev w') /\ in_range (dev w) lba n /\
       contents (dev w') = splice (contents (dev w)) (lba * bs) (data dma))
    (fun _ w' => pages w' = pages w /\ same_kind (dev w) (dev w') /\
       same_outside (contents (dev w)) (contents (dev w')) (lba * bs) (lba * bs + n * bs)) w.
Proof.
  intros Hp Hio Hlen Hby. pose proof Hio as (Hd & _ & _ & Hn & _). unfold chunked_write.
  pose proof (chunked_write_loop_ok (dev w) (pages w) lba n bs dma (chunks n) w 0) as Hloop.
  rewrite Z.sub_0_r, Z.add_0_r, Z.mul_0_l in Hloop.
  apply Hloop; [done|done|done|done|done|by apply same_kind_refl|lia| |lia|by rewrite decide_True].
  unfold chunks, MAX_BLOCKS_PER_IO. lia.
Qed.

Lemma write_range_ok w lba count bs bytes off :
  Phys.wf (pages w) -> io_ok (dev w) lba count bs -> 0 <= off < bs -> 0 < zlen bytes ->
  (count - 1) * bs < off + zlen bytes <= count * bs -> bytes_ok bytes ->
  wp (write_range lba count bs bytes off)
    (fun _ w' => pages w' = pages w /\ same_kind (dev w) (dev w') /\ in_range (dev w) lba count /\
       contents (dev w') = splice (contents (dev w)) (lba * bs + off) bytes)
    (fun code w' => code <> SQLITE_OK /\ pages w' = pages w /\ same_kind (dev w) (dev w') /\
       same_outside (contents (dev w)) (contents (dev w')) (lba * bs) (lba * bs + count * bs)) w.
Proof.
  intros Hp Hio Hoff Ham Hcount Hby. pose proof Hio as (Hd & Hbs & Hl & Hn & Hov & Hlim).
  destruct (law_geometry _ Hd) as (Hg1 & Hg2 & Hgb & Hz & Hz2). rewrite <- Hbs in Hg1, Hz.
  destruct (block_arith bs lba count (lba + count)) as (? & ? & _ & Hadd & ?); [lia..|].
  unfold write_range. rewrite (wrap64_small (count * bs)) by lia.
  pose proof (same_kind_refl (dev w) Hd) as Hrefl.
  assert (forall d' : D, same_kind (dev w) d' -> contents d' = contents (dev w) ->
    same_outside (contents (dev w)) (contents d') (lba * bs) (lba * bs + count * bs)) as Hsame.
  { intros d' _ ->. apply same_outside_refl. }
  destruct ((off =? 0) && (zlen bytes mod bs =? 0)) eqn:Hal.
  - apply andb_true_iff in Hal as [Ho0%Z.eqb_eq Hm0%Z.eqb_eq]. subst off. rewrite Z.add_0_r.
    assert (zlen bytes = count * bs) as Hfull.
    { apply Z.mod_divide in Hm0 as [q Hq]; [|lia]. rewrite Hq. f_equal. apply (mult_between bs); [lia|]. rewrite <- Hq. lia. }
    apply wp_with_dma; [done|lia|intros _; split; [done|]; split; [done|]; split; [done|apply same_outside_refl]|].
    intros dma q Hdata Hq. apply wp_bind. eapply wp_lift.
    { apply Dma.copy_from_slice_ok. unfold Dma.len. rewrite Hdata, zlen_replicate. lia. }
    rewrite splice_all by (rewrite Hdata, zlen_replicate; lia). apply wp_map_err.
    eapply wp_mono; [apply chunked_write_ok; cbn [dev pages data set_data]; [done|done|lia|done]| |];
      cbn [dev pages data set_data].
    + intros _ w' (Hp' & Hk & Hr & Hc). by repeat (split; [done|]).
    + intros _ w' (Hp' & Hk & Hr). by repeat (split; [done|]).
  - apply wp_with_dma; [done|lia|intros _; split; [done|]; split; [done|]; split; [done|apply same_outside_refl]|].
    intros dma q Hdata Hq. apply wp_bind. apply wp_map_err.
    eapply wp_mono; [apply chunked_read_ok; cbn [dev pages];
      [done|done|rewrite Hdata, zlen_replicate; lia]| |]; cbn [dev pages].
    2:{ intros _ w' (Hp' & Hk & Hc). repeat (split; [done|]). by apply Hsame. }
    intros dma' [d' q'] (Hp' & Hk & Hc & Hr & Hd'). cbn [dev pages] in *. subst q'.
    destruct Hr as [_ Hr]. pose proof (range_bytes _ lba count bs _ Hz) as Hfit.
    assert (zlen (data dma') = count * bs) as Hzd by (rewrite Hd', zlen_slice; lia).
    apply wp_bind. rewrite (wrap64_small (off + zlen bytes)) by lia.
    eapply wp_lift; [apply copy_into_ok; lia|]. apply wp_map_err.
    eapply wp_mono; [apply chunked_write_ok; cbn [dev pages data set_data]|..]; cbn [dev pages data set_data].
    + done.
    + by eapply io_ok_kind.
    + rewrite zlen_splice by lia. done.
    + apply bytes_ok_splice; [|done]. rewrite Hd'. by apply bytes_ok_slice.
    + intros _ w' (Hp2 & Hk2 & _ & Hc2). split; [done|]. split; [done|].
      split; [by eapply same_kind_trans|]. split; [unfold in_range; lia|].
      rewrite Hc2, Hc, Hd'. apply splice_window; lia.
    + intros _ w' (Hp2 & Hk2 & Hc2). split; [done|]. split; [done|]. split; [done|].
      split; [by eapply same_kind_trans|]. by rewrite <- Hc.
Qed.

Lemma copy_blocks_ok w old new count bs :
  Phys.wf (pages w) -> dev_ok (dev w) -> bs = dev_block_size (dev w) -> bs <= io_limit (dev w) ->
  0 <= old -> 0 <= new -> 0 < count -> old + count <= dev_total_blocks (dev w) ->
  new + count <= dev_total_blocks (dev w) -> old + count <= new \/ new + count <= old ->
  wp (copy_blocks old new count bs)
    (fun _ w' => pages w' = pages w /\ same_kind (dev w) (dev w') /\
       contents (dev w') = splice (contents (dev w)) (new * bs)
         (slice (contents (dev w)) (old * bs) (count * bs)))
    (fun _ w' => pages w' = pages w /\ same_kind (dev w) (dev w') /\
       same_outside (contents (dev w)) (contents (dev w')) (new * bs) (new * bs + count * bs)) w.
Proof.
  intros Hp Hd Hbs Hlim Ho Hn Hc Hof Hnf Hdis.
  destruct (law_geometry _ Hd) as (Hg1 & Hg2 & Hgb & Hz & Hz2). rewrite <- Hbs in Hg1, Hz.
  pose proof (same_kind_refl (dev w) Hd) as Hrefl. set (c0 := contents (dev w)) in *.
  pose proof (range_bytes _ old count bs _ Hz) as Hfo. pose proof (range_bytes _ new count bs _ Hz) as Hfn.
  assert (0 <= old * bs /\ 0 <= new * bs /\ count <= count * bs) as (? & ? & ?).
  { split; [|split]; [apply Z.mul_nonneg_nonneg; lia..|nia]. }
  assert (dev_total_blocks (dev w) < 2 ^ 63) as Htot by nia.
  unfold copy_blocks. apply wp_with_dma; [done|lia| |].
  { intros _. split; [done|]. split; [done|apply same_outside_refl]. }
  intros tmp q Htmp Hq. apply wp_bind.
  eapply wp_mono; [apply (wp_range (fun i tmp w' => pages w' = q /\ same_kind (dev w) (dev w') /\
      zlen (data tmp) = bs /\
      contents (dev w') = splice c0 (new * bs) (slice c0 (old * bs) (i * bs)))
    (fun _ w' => pages w' = q /\ same_kind (dev w) (dev w') /\
       same_outside c0 (contents (dev w')) (new * bs) (new * bs + count * bs))); [lia| |]| |].
  - cbn [dev pages]. split; [done|]. split; [done|]. split; [rewrite Htmp, zlen_replicate; lia|].
    rewrite Z.mul_0_l, slice_nil, splice_nil; [done|lia].
  - intros i t [d p] Hi (Hpp & Hk & Hlen & Hcont). cbn [dev pages] in *. subst p.
    destruct (block_arith bs i 1 count) as (? & ? & ? & Hadd & ?); [lia..|].
    pose proof Hk as (Hdw & Hbw & Htw & Hlw & Hrw).
    rewrite (wrap64_small (old + i)) by lia. rewrite (wrap64_small (new + i)) by lia.
    assert ((old + i) * bs = old * bs + i * bs) as Hoi by ring.
    assert ((new + i) * bs = new * bs + i * bs) as Hni by ring.
    assert (zlen (slice c0 (old * bs) (i * bs)) = i * bs) as Hzi by (rewrite zlen_slice; lia).
    assert (same_outside c0 (contents d) (new * bs) (new * bs + count * bs)) as Hso
      by (rewrite Hcont; apply same_outside_splice; lia).
    assert (old * bs + count * bs <= new * bs \/ new * bs + count * bs <= old * bs) as Hdisb.
    { rewrite <- !Z.mul_add_distr_r. destruct Hdis; [left|right]; apply Z.mul_le_mono_nonneg_r; lia. }
    apply wp_bind. apply wp_map_err.
    apply wp_read; cbn [dev pages]; rewrite ?Hbw, <- ?Hbs; [done|done|lia|lia|lia|lia|lia|].
    intros d' Hk' Hc' _. split.
    2:{ intros e _. cbn [dev pages]. split; [done|]. split; [by eapply same_kind_trans|]. by rewrite Hc'. }
    intros _. rewrite Z.mul_1_l in *. rewrite Hoi.
    assert (slice (contents d) (old * bs + i * bs) bs = slice c0 (old * bs + i * bs) bs) as Hsrc
      by (apply (same_outside_slice c0 _ _ _ _ _ Hso); lia).
    rewrite Hsrc. assert (zlen (slice c0 (old * bs + i * bs) bs) = bs) as Hzs by (rewrite zlen_slice; lia).
    pose proof Hk' as (Hd2 & Hb2 & Ht2 & Hl2 & Hr2).
    apply wp_bind. apply wp_map_err.
    apply wp_write; cbn [dev pages data set_data]; rewrite ?Hb2, ?Hbw, <- ?Hbs;
      [done|done|lia|lia|lia|lia|lia|by apply bytes_ok_slice|].
    intros d2 Hk2. rewrite Hc', Hcont, Hni. split.
    + intros _ Hc2. apply wp_ret. cbn [dev pages data set_data]. split; [done|].
      split; [by do 2 (eapply same_kind_trans; [done|])|]. split; [done|].
      rewrite Hc2, Hadd, <- slice_concat by lia.
      rewrite <- splice_splice_adj by lia. by rewrite Hzi.
    + intros e _ Hc2. cbn [dev pages]. split; [done|].
      split; [by do 2 (eapply same_kind_trans; [done|])|].
      destruct Hc2 as [->|(_ & new' & Hnew & ->)].
      * rewrite <- Hcont. done.
      * rewrite <- Hcont. eapply same_outside_trans; [done|]. destruct Hso as [Hzz _].
        apply same_outside_splice; lia.
  - intros t w' (Hp' & Hk & _ & Hc'). apply wp_ret. cbn [dev pages]. by repeat (split; [done|]).
  - intros e w' (Hp' & Hk & Hc'). cbn [dev pages]. by repeat (split; [done|]).
Qed.

End chunked_spec.

(** ** The invariant of the file system *)
Section invariant.
Context `{BlockDeviceSpec D}.

Definition bsz (s : vfs D) : Z := BlockAlloc.block_size (allocator s).
Definition data_start (s : vfs D) : Z := BlockAlloc.data_start_lba (allocator s).
Definition data_blocks (s : vfs D) : Z := BlockAlloc.data_block_count (allocator s).

(** The entry [e] owns the blocks [start, start + count), all marked used. *)
Definition entry_owns (s : vfs D) (e : FileEntry) : Prop :=
  0 <= FileTable.start_block e /\ 0 < FileTable.block_count e /\
  FileTable.start_block e + FileTable.block_count e <= data_blocks s /\
  zrange (FileTable.start_block e) (FileTable.block_count e) ⊆ BlockAlloc.used_blocks (allocator s) /\
  0 <= FileTable.byte_length e <= FileTable.block_count e * bsz s.

Definition ranges_disjoint (e1 e2 : FileEntry) : Prop :=
  FileTable.start_block e1 + FileTable.block_count e1 <= FileTable.start_block e2 \/
  FileTable.start_block e2 + FileTable.block_count e2 <= FileTable.start_block e1.

(** [file_at s i e]: slot [i] holds the entry [e], in use. *)
Definition file_at (s : vfs D) (i : nat) (e : FileEntry) : Prop :=
  FileTable.entries (file_table s) !! i = Some e /\ FileTable.is_in_use e = true.

Record inv (s : vfs D) (d : D) : Prop := {
  inv_nvme : nvme s = Some d;
  inv_pool : Phys.wf (pool s);
  inv_alloc : BlockAlloc.wf (allocator s);
  inv_table : FileTable.wf (file_table s);
  inv_alayout : BlockAlloc.layout_ok (allocator s) d;
  inv_tlayout : FileTable.layout_ok (file_table s) d;
  inv_order : BlockAlloc.bitmap_start_lba (allocator s) + BlockAlloc.bitmap_on_disk_blocks (allocator s)
      <= FileTable.file_table_lba (file_table s) < data_start s;
  inv_fit : data_start s + data_blocks s <= dev_total_blocks d;
  inv_header : BlockAlloc.header_ok (contents d) (allocator s);
  inv_abits : BlockAlloc.dirty (allocator s) = false -> BlockAlloc.on_disk (contents d) (allocator s);
  inv_tbits : FileTable.dirty (file_table s) = false -> FileTable.on_disk (contents d) (file_table s);
  inv_owns : forall i e, file_at s i e -> entry_owns s e;
  inv_disjoint : forall i j e1 e2, file_at s i e1 -> file_at s j e2 -> i <> j -> ranges_disjoint e1 e2;
}.

(** The open handle [f] caches the entry in its slot; the length it caches
    may run ahead of the table until [close] or [sync]. *)
Definition handle_ok (s : vfs D) (f : HeavenFile) : Prop :=
  exists e, file_at s (file_table_index f) e /\
    start_lba f = data_start s + FileTable.start_block e /\
    block_count f = FileTable.block_count e /\ block_size f = bsz s /\
    0 <= byte_length f <= block_count f * bsz s.

(** The contents of the file behind a handle. *)
Definition file_bytes (d : D) (f : HeavenFile) : list Z :=
  slice (contents d) (start_lba f * block_size f) (byte_length f).

(** Only the device has moved, and shows the same bytes. *)
Definition same_state (s s' : vfs D) (d : D) : Prop :=
  exists d', s' = mkVfs (Some d') (pool s) (allocator s) (file_table s) /\ same_kind d d' /\
    contents d' = contents d.

Lemma wp_with_nvme {A} none (m : st (hw D) Z A) Q X s d :
  nvme s = Some d ->
  wp m (fun a w => Q a (set_hw w s)) (fun e w => X e (set_hw w s)) (mkHw d (pool s)) ->
  wp (with_nvme none m) Q X s.
Proof.
  unfold wp, with_nvme. intros ->. by destruct (m (mkHw d (pool s))) as [[a|e|] w].
Qed.

Lemma inv_dev s d : inv s d -> dev_ok d.
Proof. intros Hi. apply (inv_alayout _ _ Hi). Qed.

(** The numbers of the layout. *)
Lemma inv_geometry s d :
  inv s d ->
  bsz s = dev_block_size d /\ 4096 <= bsz s < 2 ^ 32 /\ bsz s <= io_limit d /\
  zlen (contents d) = dev_total_blocks d * bsz s /\ zlen (contents d) < 2 ^ 63 /\
  bytes_ok (contents d) /\ 1 < data_start s /\ 0 <= data_blocks s /\
  dev_total_blocks d < 2 ^ 51 /\ FileTable.block_size (file_table s) = bsz s.
Proof.
  intros Hi. pose proof (inv_alayout _ _ Hi) as (Hd & Hbs & Hm & Hsz & Hst & Hnb & _).
  pose proof (inv_tlayout _ _ Hi) as (_ & Htb & _). pose proof (inv_order _ _ Hi) as Ho.
  pose proof (inv_alloc _ _ Hi) as (Hn & _).
  destruct (law_geometry d Hd) as (Hg1 & Hg2 & Hgb & Hz & Hz2). unfold bsz, data_start, data_blocks in *.
  rewrite Hbs in *. split; [done|]. split; [lia|]. split; [lia|]. split; [done|]. split; [done|].
  split; [done|]. split; [lia|]. split; [lia|]. split; [nia|done].
Qed.

(** A change of the data area, with the metadata as it was. *)
Lemma inv_data s d d' :
  inv s d -> same_kind d d' ->
  same_outside (contents d) (contents d') (data_start s * bsz s) (dev_total_blocks d * bsz s) ->
  inv (mkVfs (Some d') (pool s) (allocator s) (file_table s)) d'.
Proof.
  intros Hi Hk Hso. pose proof (inv_geometry s d Hi) as (Hb & Hb2 & _ & Hz & Hz2 & _ & Hds & _ & Ht & Htb).
  pose proof (inv_alayout _ _ Hi) as Hal. pose proof (inv_tlayout _ _ Hi) as Htl.
  pose proof (inv_order _ _ Hi) as Ho.
  destruct Hal as (Hd & Hbs & Hm & Hsz & Hst & Hnb & Hcap & Hbf) eqn:E. clear E.
  assert (0 <= BlockAlloc.region_off (allocator s) /\ 0 <= BlockAlloc.region_len (allocator s) /\
    BlockAlloc.region_off (allocator s) + BlockAlloc.region_len (allocator s) <= data_start s * bsz s) as (? & ? & Hreg).
  { unfold BlockAlloc.region_off, BlockAlloc.region_len. fold (bsz s). rewrite <- Z.mul_add_distr_r.
    split; [apply Z.mul_nonneg_nonneg; lia|]. split; [apply Z.mul_nonneg_nonneg; lia|].
    apply Z.mul_le_mono_nonneg_r; lia. }
  assert (0 <= FileTable.region_off (file_table s) /\
    FileTable.region_off (file_table s) + bsz s <= data_start s * bsz s) as (? & Htreg).
  { unfold FileTable.region_off. rewrite Htb. split; [apply Z.mul_nonneg_nonneg; lia|nia]. }
  assert (bsz s <= data_start s * bsz s) by nia.
  assert (forall off n, 0 <= off -> 0 <= n -> off + n <= data_start s * bsz s ->
    slice (contents d') off n = slice (contents d) off n) as Hsl.
  { intros off n Ha1 Ha2 Ha3. apply (same_outside_slice _ _ _ _ _ _ Hso); [done|done|lia]. }
  pose proof (inv_header _ _ Hi) as Hh.
  assert (BlockAlloc.header_ok (contents d') (allocator s)) as Hh'.
  { unfold BlockAlloc.header_ok. fold (bsz s). rewrite Hsl by lia. exact Hh. }
  constructor; cbn [nvme pool allocator file_table]; try apply Hi.
  - done.
  - by eapply BlockAlloc.ba_layout_ok_kind.
  - by eapply FileTable.ft_layout_ok_kind.
  - destruct Hk as (_ & _ & -> & _). apply Hi.
  - done.
  - intros Hc. split; [done|]. rewrite Hsl by lia. apply (inv_abits _ _ Hi Hc).
  - intros Hc. unfold FileTable.on_disk. rewrite Htb, Hsl by lia. rewrite <- Htb.
    apply (inv_tbits _ _ Hi Hc).
Qed.

Lemma same_state_inv s s' d :
  inv s d -> same_state s s' d -> exists d', nvme s' = Some d' /\ inv s' d' /\ contents d' = contents d /\ same_kind d d'.
Proof.
  intros Hi (d' & -> & Hk & Hc). exists d'. split; [done|]. split; [|done].
  apply (inv_data s d d' Hi Hk). rewrite Hc. apply same_outside_refl.
Qed.

(** Where the file behind a handle lives. *)
Lemma handle_range s d f :
  inv s d -> handle_ok s f ->
  data_start s <= start_lba f /\ 0 < block_count f /\
  start_lba f + block_count f <= data_start s + data_blocks s /\
  start_lba f * bsz s + block_count f * bsz s <= zlen (contents d) /\
  block_size f = bsz s /\ 0 <= byte_length f <= block_count f * bsz s /\ block_count f < 2 ^ 51.
Proof.
  intros Hi (e & Hf & Hsl & Hbc & Hbs & Hlen).
  destruct (inv_owns _ _ Hi _ _ Hf) as (Ho1 & Ho2 & Ho3 & _).
  pose proof (inv_geometry s d Hi) as (_ & Hb2 & _ & Hz & _ & _ & Hds & _ & Ht & _).
  pose proof (inv_fit _ _ Hi) as Hfit.
  split; [lia|]. split; [lia|]. split; [lia|]. split; [|split; [done|split; [done|lia]]].
  apply (range_bytes _ _ _ _ (dev_total_blocks d)); lia.
Qed.

(** The block range of a request, and that it fits the handle's blocks. *)
Lemma request_range bs off n :
  0 < bs < 2 ^ 32 -> 0 <= off -> 0 < n -> off + n < 2 ^ 63 ->
  let first := off / bs in
  let last := ((off ⊞ n) ⊟ 1) / bs in
  let count := (last ⊟ first) ⊞ 1 in
  0 <= first /\ count = last - first + 1 /\ 0 < count /\ first + count < 2 ^ 63 /\
  first * bs + off mod bs = off /\ 0 <= off mod bs < bs /\
  (count - 1) * bs < off mod bs + n <= count * bs /\ count * bs <= n + 2 * bs /\
  (first + count) * bs < off + n + bs /\ off + n <= (first + count) * bs.
Proof.
  intros Hbs Hoff Hn Hov. cbn zeta. unwrap.
  pose proof (Z.div_mod off bs ltac:(lia)) as Ho. pose proof (Z.mod_pos_bound off bs ltac:(lia)) as Hom.
  pose proof (Z.div_mod (off + n - 1) bs ltac:(lia)) as Hl.
  pose proof (Z.mod_pos_bound (off + n - 1) bs ltac:(lia)) as Hlm.
  assert (0 <= off / bs) as Hf0 by (apply Z.div_pos; lia).
  assert (off / bs <= (off + n - 1) / bs) as Hle by (apply Z.div_le_mono; lia).
  assert ((off + n - 1) / bs <= off + n - 1) as Hup by (apply Z.div_le_upper_bound; nia).
  set (q1 := off / bs) in *. set (q2 := (off + n - 1) / bs) in *. set (r1 := off mod bs) in *.
  set (r2 := (off + n - 1) mod bs) in *. clearbody q1 q2 r1 r2.
  rewrite (wrap64_small (q2 - q1)) by lia. rewrite (wrap64_small (q2 - q1 + 1)) by lia.
  split; [done|]. split; [done|]. split; [lia|]. split; [lia|]. split; [lia|]. split; [done|].
  split; [|split; [|split]]; nia.
Qed.

End invariant.

(** ** Reading *)

(** What [xRead] promises: the requested bytes that exist, zeros for the rest,
    and a short-read code when some are missing. *)
Definition read_result (bytes : list Z) (amount off : Z) : Z * list Z :=
  let got := slice bytes off amount in
  (if zlen got =? amount then SQLITE_OK else SQLITE_IOERR_SHORT_READ,
   got ++ replicate (Z.to_nat (amount - zlen got)) 0).

Section read_spec.
Context `{BlockDeviceSpec D}.

Lemma same_state_refl (s : vfs D) d : inv s d -> same_state s s d.
Proof.
  intros Hi. exists d. split; [|split; [apply same_kind_refl, (inv_dev s d Hi)|done]].
  pose proof (inv_nvme _ _ Hi) as Hn. destruct s. cbn in *. by subst.
Qed.

Lemma read_ok s d f buf off :
  inv s d -> handle_ok s f -> 0 < zlen buf -> 0 <= off -> off + zlen buf < 2 ^ 63 ->
  zlen buf + 2 * bsz s <= io_limit d ->
  wp (read f buf off)
    (fun r s' => same_state s s' d /\ r = read_result (file_bytes d f) (zlen buf) off)
    (fun _ s' => same_state s s' d) s.
Proof.
  intros Hi Hf Hbuf Hoff Hov Hlim.
  pose proof (inv_geometry s d Hi) as (Hb & Hb2 & Hbl & Hz & Hz2 & Hby & Hds & Hdb & Ht & _).
  pose proof (handle_range s d f Hi Hf) as (Hr1 & Hr2 & Hr3 & Hr4 & Hbs & Hlen & Hbc).
  pose proof (inv_fit _ _ Hi) as Hfit.
  assert (0 <= start_lba f * bsz s) as Hs0 by (apply Z.mul_nonneg_nonneg; lia).
  assert (zlen (file_bytes d f) = byte_length f) as Hzf by (unfold file_bytes; rewrite Hbs, zlen_slice; lia).
  unfold read. rewrite Hbs. destruct (Z.leb_spec (byte_length f) off) as [Heof|Hin].
  { apply wp_ret. split; [by apply same_state_refl|]. unfold read_result.
    assert (slice (file_bytes d f) off (zlen buf) = []) as ->.
    { unfold slice. rewrite drop_ge; [by rewrite take_nil|]. unfold zlen in *. lia. }
    change (zlen (@nil Z)) with 0. destruct (Z.eqb_spec 0 (zlen buf)); [lia|].
    f_equal. cbn [app]. f_equal. unfold zlen. lia. }
  destruct (Z.eqb_spec (bsz s) 0); [lia|].
  set (to_read := Z.min (zlen buf) (byte_length f - off)).
  assert (0 < to_read <= zlen buf /\ to_read <= byte_length f - off) as [Htr Htr2] by (unfold to_read; lia).
  destruct (request_range (bsz s) off to_read) as (Hq1 & Hq2 & Hq3 & Hq4 & Hq5 & Hq6 & Hq7 & Hq8 & Hq9 & Hq10); [lia..|].
  set (first := off / bsz s) in *.
  set (count := ((((off ⊞ to_read) ⊟ 1) / bsz s) ⊟ first) ⊞ 1) in *. clearbody count. clear Hq2.
  assert (first + count < block_count f + 1) as Hfc.
  { apply (Z.mul_lt_mono_pos_r (bsz s)); [lia|]. rewrite (Z.mul_add_distr_r (block_count f)). lia. }
  rewrite (wrap64_small (first + count)) by lia.
  destruct (Z.ltb_spec (block_count f) (first + count)); [lia|].
  rewrite (wrap64_small (start_lba f + first)) by lia.
  destruct (block_arith (bsz s) (start_lba f + first) count (start_lba f + block_count f)) as
    (Hm1 & Hm2 & Hm3 & Hm4 & Hm5); [lia..|].
  assert ((start_lba f + first) * bsz s = start_lba f * bsz s + first * bsz s) as Hm6 by ring.
  rewrite Z.mul_add_distr_r in Hm3.
  rewrite (wrap64_small (count * bsz s)) by lia.
  apply (wp_with_nvme _ _ _ _ _ d); [apply Hi|].
  pose proof (same_state_refl s d Hi) as Hrefl.
  assert (forall d', same_kind d d' -> contents d' = contents d ->
    same_state s (set_hw (mkHw d' (pool s)) s) d) as Hsame.
  { intros d' Hk Hc. by exists d'. }
  apply wp_with_dma; cbn [dev pages]; [apply Hi|lia|intros _; apply Hsame; [apply same_kind_refl, (inv_dev s d Hi)|done]|].
  intros dma p Hdata Hp. apply wp_bind. apply wp_map_err.
  assert (io_ok d (start_lba f + first) count (bsz s)) as Hio.
  { split; [apply (inv_dev s d Hi)|]. split; [done|]. split; [lia|]. split; [lia|]. split; [lia|].
    etrans; [apply Z.mul_le_mono_nonneg_r; [lia|apply Z.le_min_l]|]. lia. }
  eapply wp_mono; [apply chunked_read_ok; cbn [dev pages];
    [done|done|rewrite Hdata, zlen_replicate; lia]| |]; cbn [dev pages].
  2:{ intros _ [d' p'] (Hp' & Hk & Hc). cbn [dev pages] in *. split; [done|]. by apply Hsame. }
  intros dma' [d' p'] (Hp' & Hk & Hc & _ & Hd'). cbn [dev pages] in *. subst p'.
  apply wp_bind. eapply wp_lift; [apply index_range_ok; lia|].
  apply wp_bind. eapply wp_lift.
  { apply Dma.copy_to_slice_ok; unfold Dma.len; rewrite ?Hd', ?zlen_slice; lia. }
  assert (slice (data dma') (off mod bsz s) to_read = slice (file_bytes d f) off to_read) as Hgot.
  { rewrite Hd', slice_slice by lia. unfold file_bytes. rewrite Hbs, slice_slice by lia. f_equal. lia. }
  assert (zlen (slice (file_bytes d f) off to_read) = to_read) as Hzg by (rewrite zlen_slice; lia).
  assert (splice (slice buf 0 (to_read - 0)) 0 (slice (data dma') (off mod bsz s) to_read) =
    slice (file_bytes d f) off to_read) as ->.
  { rewrite Hgot. apply splice_all. rewrite !zlen_slice; lia. }
  assert (slice (file_bytes d f) off (zlen buf) = slice (file_bytes d f) off to_read) as Hsame2.
  { unfold to_read. destruct (Z.min_spec (zlen buf) (byte_length f - off)) as [[_ ->]|[Hle ->]]; [done|].
    unfold slice. rewrite !take_ge; [done|..]; rewrite length_drop; unfold zlen in *; lia. }
  assert (read_result (file_bytes d f) (zlen buf) off =
    (if to_read <? zlen buf then SQLITE_IOERR_SHORT_READ else SQLITE_OK,
     slice (file_bytes d f) off to_read ++ replicate (Z.to_nat (zlen buf - to_read)) 0)) as Hres.
  { unfold read_result. rewrite Hsame2, Hzg. f_equal.
    destruct (Z.eqb_spec to_read (zlen buf)), (Z.ltb_spec to_read (zlen buf)); try done; lia. }
  rewrite Hres. set (got := slice (file_bytes d f) off to_read) in *.
  destruct (Z.ltb_spec to_read (zlen buf)) as [Hshort|Hfull]; apply wp_ret; cbn [dev pages];
    (split; [done|]); (split; [by apply Hsame|]); f_equal.
  - rewrite splice_0, splice_app by done. f_equal.
    rewrite drop_drop, drop_ge, app_nil_r; [done|]. rewrite length_replicate. unfold zlen in *. lia.
  - rewrite splice_all by lia. replace (zlen buf - to_read) with 0 by lia. by rewrite app_nil_r.
Qed.
End read_spec.

(** ** Metadata updates *)
Section updates.
Context `{BlockDeviceSpec D}.

Lemma wp_get_mut i e f (Q : unit -> vfs D -> Prop) (X : Z -> vfs D -> Prop) (s : vfs D) :
  FileTable.wf (file_table s) -> file_at s i e -> FileTable.entry_ok (f e) ->
  FileTable.name (f e) = FileTable.name e -> FileTable.flags (f e) = FileTable.flags e ->
  (forall t', FileTable.wf t' -> FileTable.dirty t' = true ->
     FileTable.file_table_lba t' = FileTable.file_table_lba (file_table s) ->
     FileTable.block_size t' = FileTable.block_size (file_table s) ->
     FileTable.entries t' = <[i := f e]> (FileTable.entries (file_table s)) -> Q tt (set_table t' s)) ->
  wp (get_mut i f) Q X s.
Proof.
  intros Hwf [Hi Hu] Hok Hn Hf HQ.
  destruct (FileTable.get_mut_ok (E:=Z) i e f (file_table s) Hwf Hi Hu Hok Hn Hf) as
    (t' & Heq & Hwf' & Hd & Hl & Hb & He).
  unfold wp, get_mut, on_table. rewrite Heq. cbn [mbind out_bind]. by apply HQ.
Qed.

Lemma wp_free_blocks start count (Q : unit -> vfs D -> Prop) (X : Z -> vfs D -> Prop) s :
  BlockAlloc.wf (allocator s) -> 0 <= start -> 0 <= count -> start + count <= 2 ^ 64 ->
  (forall a', BlockAlloc.wf a' -> BlockAlloc.same_layout (allocator s) a' -> BlockAlloc.dirty a' = true ->
     BlockAlloc.used_blocks a' = BlockAlloc.used_blocks (allocator s) ∖ zrange start count ->
     Q tt (set_allocator a' s)) ->
  wp (free_blocks start count) Q X s.
Proof.
  intros Hwf Hs Hc Hov HQ. unfold wp, free_blocks.
  destruct (BlockAlloc.free_ok (allocator s) start count) as (a' & -> & ? & ? & ? & ?); [done..|]. by apply HQ.
Qed.

Lemma wp_alloc_blocks count full (Q : Z -> vfs D -> Prop) (X : Z -> vfs D -> Prop) s :
  BlockAlloc.wf (allocator s) -> 0 < count < 2 ^ 64 ->
  (forall p a', BlockAlloc.free_run (allocator s) p count -> BlockAlloc.wf a' ->
     BlockAlloc.same_layout (allocator s) a' -> BlockAlloc.dirty a' = true ->
     BlockAlloc.used_blocks a' = BlockAlloc.used_blocks (allocator s) ∪ zrange p count ->
     Q p (set_allocator a' s)) ->
  ((forall q, ~ BlockAlloc.free_run (allocator s) q count) -> X full s) ->
  wp (alloc_blocks count full) Q X s.
Proof.
  intros Hwf Hc HQ HX. unfold wp, alloc_blocks.
  destruct (BlockAlloc.ba_alloc_cases (allocator s) count Hwf Hc) as
    [(p & a' & -> & Hrun & _ & Hwf' & Hlay & Hd & Hu & _)|[-> Hno]].
  - by apply HQ.
  - destruct s. by apply HX.
Qed.

(** The allocator may change its bitmap as long as every file's blocks stay
    used. *)
Lemma inv_set_allocator s d a' :
  inv s d -> BlockAlloc.wf a' -> BlockAlloc.same_layout (allocator s) a' -> BlockAlloc.dirty a' = true ->
  (forall i e, file_at s i e ->
     zrange (FileTable.start_block e) (FileTable.block_count e) ⊆ BlockAlloc.used_blocks a') ->
  inv (set_allocator a' s) d /\ data_start (set_allocator a' s) = data_start s /\
  bsz (set_allocator a' s) = bsz s /\ data_blocks (set_allocator a' s) = data_blocks s.
Proof.
  intros Hi Hwf Hlay Hd Hused. pose proof Hlay as (Hl1 & Hl2 & Hl3 & Hl4 & Hl5).
  assert (data_start (set_allocator a' s) = data_start s /\ bsz (set_allocator a' s) = bsz s /\
    data_blocks (set_allocator a' s) = data_blocks s) as (Hds & Hbz & Hdb).
  { unfold data_start, bsz, data_blocks. cbn [set_allocator allocator]. by rewrite Hl1, Hl2, Hl5. }
  split; [|done]. constructor; cbn [set_allocator nvme pool allocator file_table]; try apply Hi.
  - done.
  - pose proof (inv_alayout _ _ Hi) as Hal. unfold BlockAlloc.layout_ok in *. by rewrite Hl1, Hl3, Hl4, Hl5.
  - rewrite Hl3, Hl4, Hds. apply Hi.
  - rewrite Hds, Hdb. apply Hi.
  - pose proof (inv_header _ _ Hi) as Hh. unfold BlockAlloc.header_ok in *. by rewrite Hl1, Hl2, Hl3, Hl4, Hl5.
  - congruence.
  - intros i e Hf. destruct (inv_owns _ _ Hi i e Hf) as (Ho1 & Ho2 & Ho3 & _ & Ho4).
    unfold entry_owns. rewrite Hdb, Hbz. split; [done|]. split; [done|]. split; [done|].
    split; [by eapply Hused|done].
Qed.

Lemma file_at_update (s : vfs D) t' i e' j y :
  (i < length (FileTable.entries (file_table s)))%nat ->
  FileTable.entries t' = <[i := e']> (FileTable.entries (file_table s)) ->
  file_at (set_table t' s) j y <->
    (j = i /\ y = e' /\ FileTable.is_in_use e' = true) \/ (j <> i /\ file_at s j y).
Proof.
  intros Hi He. unfold file_at. cbn [set_table file_table]. rewrite He.
  destruct (decide (j = i)) as [->|Hne].
  - rewrite list_lookup_insert_eq by done. split.
    + intros [[= ->] Hu]. by left.
    + intros [(_ & -> & Hu)|[Hne _]]; done.
  - rewrite list_lookup_insert_ne by done. split; [by right|]. intros [(-> & _)|[_ Hy]]; done.
Qed.

(** Replacing one entry keeps the invariant when the new entry owns its
    blocks and shares none with the others. *)
Lemma inv_set_table s d t' i e' :
  inv s d -> (i < length (FileTable.entries (file_table s)))%nat ->
  FileTable.wf t' -> FileTable.dirty t' = true ->
  FileTable.file_table_lba t' = FileTable.file_table_lba (file_table s) ->
  FileTable.block_size t' = FileTable.block_size (file_table s) ->
  FileTable.entries t' = <[i := e']> (FileTable.entries (file_table s)) ->
  (FileTable.is_in_use e' = true -> entry_owns s e' /\
    forall j y, j <> i -> file_at s j y -> ranges_disjoint e' y) ->
  inv (set_table t' s) d.
Proof.
  intros Hi Hlt Hwf Hd Hl Hb He Hnew.
  constructor; cbn [set_table nvme pool allocator file_table]; try apply Hi.
  - done.
  - pose proof (inv_tlayout _ _ Hi) as Htl. unfold FileTable.layout_ok in *. by rewrite Hl, Hb.
  - rewrite Hl. apply Hi.
  - congruence.
  - intros j y [(-> & -> & Hu)|[Hne Hy]]%(file_at_update s t' i e'); [by apply Hnew|by eapply Hi|done|done].
  - intros j k y z Hy Hz Hjk.
    apply (file_at_update s t' i e') in Hy as [(-> & -> & Hu)|[Hj Hy]]; [| |done|done];
    apply (file_at_update s t' i e') in Hz as [(-> & -> & Hu')|[Hk Hz]]; try done.
    + by eapply Hnew.
    + destruct (Hnew Hu') as [_ Hdis]. destruct (Hdis j y Hj Hy); [by right|by left].
    + by eapply (inv_disjoint _ _ Hi).
Qed.

(** A used range and a free run do not meet. *)
Lemma used_free_disjoint a s1 n1 s2 n2 :
  zrange s1 n1 ⊆ BlockAlloc.used_blocks a -> BlockAlloc.free_run a s2 n2 ->
  0 < n1 -> 0 < n2 -> s1 + n1 <= s2 \/ s2 + n2 <= s1.
Proof.
  intros Hu (H2 & _ & Hrun) Hn1 Hn2. destruct (decide (s1 + n1 <= s2 \/ s2 + n2 <= s1)) as [|Hno]; [done|].
  exfalso. assert (Z.max s1 s2 ∈ BlockAlloc.used_blocks a) as Hin.
  { apply Hu, elem_of_zrange. lia. }
  apply elem_of_used in Hin as [_ Hb]. rewrite Hrun in Hb; [done|lia].
Qed.

(** The bytes of the blocks an entry owns. *)
Definition file_region (s : vfs D) (d : D) (e : FileEntry) : list Z :=
  slice (contents d) ((data_start s + FileTable.start_block e) * bsz s)
    (FileTable.block_count e * bsz s).

(** The files in the slots of [P] are as they were: same entry, same bytes. *)
Definition untouched (P : nat -> Prop) (s : vfs D) (d : D) (s' : vfs D) (d' : D) : Prop :=
  data_start s' = data_start s /\ bsz s' = bsz s /\
  forall j e, P j -> file_at s j e -> file_at s' j e /\ file_region s' d' e = file_region s d e.

Lemma untouched_refl P s d : untouched P s d s d.
Proof. split; [done|]. split; [done|]. intros j e _ He. done. Qed.

Lemma untouched_trans P s1 d1 s2 d2 s3 d3 :
  untouched P s1 d1 s2 d2 -> untouched P s2 d2 s3 d3 -> untouched P s1 d1 s3 d3.
Proof.
  intros (H1 & H2 & H3) (H4 & H5 & H6). split; [congruence|]. split; [congruence|].
  intros j e Hj He. destruct (H3 j e Hj He) as [He2 Hr2]. destruct (H6 j e Hj He2) as [He3 Hr3].
  split; [done|]. congruence.
Qed.

(** Writing to blocks that a file does not own leaves its bytes alone. *)
Lemma region_outside s d d' e lo hi :
  inv s d -> entry_owns s e ->
  same_outside (contents d) (contents d') ((data_start s + lo) * bsz s) ((data_start s + hi) * bsz s) ->
  FileTable.start_block e + FileTable.block_count e <= lo \/ hi <= FileTable.start_block e ->
  file_region s d' e = file_region s d e.
Proof.
  intros Hi (Ho1 & Ho2 & _) Hso Hd.
  pose proof (inv_geometry s d Hi) as (_ & Hb2 & _ & _ & _ & _ & Hds & _).
  unfold file_region. apply (same_outside_slice _ _ _ _ _ _ Hso).
  - apply Z.mul_nonneg_nonneg; lia.
  - apply Z.mul_nonneg_nonneg; lia.
  - rewrite <- Z.mul_add_distr_r. destruct Hd; [left|right]; apply Z.mul_le_mono_nonneg_r; lia.
Qed.
End updates.

(** ** Growing a file *)
Section grow_spec.
Context `{BlockDeviceSpec D}.

(** What an operation on the handle's file guarantees about everything else. *)
Definition step_ok (s : vfs D) (d : D) (i : nat) (s' : vfs D) (d' : D) : Prop :=
  inv s' d' /\ same_kind d d' /\ untouched (fun j => j <> i) s d s' d'.

Lemma step_ok_refl s d i : inv s d -> step_ok s d i s d.
Proof.
  intros Hi. split; [done|]. split; [apply same_kind_refl, (inv_dev s d Hi)|apply untouched_refl].
Qed.

Lemma mkVfs_eta (s : vfs D) d : nvme s = Some d -> mkVfs (Some d) (pool s) (allocator s) (file_table s) = s.
Proof. destruct s. cbn. by intros ->. Qed.

Lemma entry_of_inv s d i e : inv s d -> file_at s i e -> FileTable.entry_ok e /\
  (i < length (FileTable.entries (file_table s)))%nat.
Proof.
  intros Hi [He Hu]. pose proof (inv_table _ _ Hi) as (_ & Hok & _).
  split; [exact (Forall_lookup_1 _ _ _ _ Hok He)|]. by eapply lookup_lt_Some.
Qed.

(** The allocation of the new blocks, and what its failure path restores. *)
Lemma grow_alloc_ok s d p n a1 :
  inv s d -> BlockAlloc.free_run (allocator s) p n -> BlockAlloc.wf a1 ->
  BlockAlloc.same_layout (allocator s) a1 -> BlockAlloc.dirty a1 = true ->
  BlockAlloc.used_blocks a1 = BlockAlloc.used_blocks (allocator s) ∪ zrange p n ->
  inv (set_allocator a1 s) d /\ data_start (set_allocator a1 s) = data_start s /\
  bsz (set_allocator a1 s) = bsz s /\ data_blocks (set_allocator a1 s) = data_blocks s.
Proof.
  intros Hi Hrun Hwf Hlay Hd Hu. apply inv_set_allocator; [done..|].
  intros i e He. destruct (inv_owns _ _ Hi i e He) as (_ & _ & _ & Hsub & _).
  rewrite Hu. intros j Hj. apply elem_of_union_l. by apply Hsub.
Qed.

Lemma grow_undo_ok s d p n a1 a2 d1 q :
  inv s d -> BlockAlloc.free_run (allocator s) p n ->
  BlockAlloc.same_layout (allocator s) a1 ->
  BlockAlloc.used_blocks a1 = BlockAlloc.used_blocks (allocator s) ∪ zrange p n ->
  inv (mkVfs (Some d1) q a1 (file_table s)) d1 ->
  BlockAlloc.wf a2 -> BlockAlloc.same_layout a1 a2 -> BlockAlloc.dirty a2 = true ->
  BlockAlloc.used_blocks a2 = BlockAlloc.used_blocks a1 ∖ zrange p n ->
  inv (mkVfs (Some d1) q a2 (file_table s)) d1.
Proof.
  intros Hi Hrun Hlay1 Hu1 Hi1 Hwf Hlay Hd Hu2.
  apply (inv_set_allocator (mkVfs (Some d1) q a1 (file_table s)) d1 a2); [done..|].
  intros i e He. destruct (inv_owns _ _ Hi i e He) as (_ & Hpos & _ & Hsub & _).
  cbn [allocator]. rewrite Hu2, Hu1. intros j Hj. apply elem_of_difference.
  split; [apply elem_of_union_l; by apply Hsub|]. rewrite elem_of_zrange. intros Hp.
  rewrite elem_of_zrange in Hj. pose proof (used_free_disjoint (allocator s) _ _ p n Hsub Hrun). lia.
Qed.

(** The table update and the release of the old blocks. *)
Lemma grow_commit_ok s d p n a1 d1 q t2 a3 i e :
  inv s d -> file_at s i e -> BlockAlloc.free_run (allocator s) p n -> FileTable.block_count e < n ->
  BlockAlloc.same_layout (allocator s) a1 ->
  BlockAlloc.used_blocks a1 = BlockAlloc.used_blocks (allocator s) ∪ zrange p n ->
  inv (mkVfs (Some d1) q a1 (file_table s)) d1 ->
  FileTable.wf t2 -> FileTable.dirty t2 = true ->
  FileTable.file_table_lba t2 = FileTable.file_table_lba (file_table s) ->
  FileTable.block_size t2 = FileTable.block_size (file_table s) ->
  FileTable.entries t2 = <[i := entry_set_range p n e]> (FileTable.entries (file_table s)) ->
  BlockAlloc.wf a3 -> BlockAlloc.same_layout a1 a3 -> BlockAlloc.dirty a3 = true ->
  BlockAlloc.used_blocks a3 = BlockAlloc.used_blocks a1 ∖
     zrange (FileTable.start_block e) (FileTable.block_count e) ->
  inv (mkVfs (Some d1) q a3 t2) d1.
Proof.
  intros Hi He Hrun Hn Hlay1 Hu1 Hi1 Hwf2 Hd2 Hl2 Hb2 He2 Hwf3 Hlay3 Hd3 Hu3.
  destruct (entry_of_inv s d i e Hi He) as [Heok Hlt].
  pose proof Hlay1 as (Hla & Hlb & _ & _ & Hlc).
  destruct (inv_owns _ _ Hi i e He) as (Ho1 & Ho2 & Ho3 & Ho4 & Ho5).
  set (s1 := mkVfs (Some d1) q a1 (file_table s)) in *.
  assert (forall j y, j <> i -> file_at s j y -> ranges_disjoint (entry_set_range p n e) y) as Hnew.
  { intros j y Hj Hy. destruct (inv_owns _ _ Hi j y Hy) as (_ & Hy2 & _ & Hy4 & _).
    unfold ranges_disjoint. cbn [entry_set_range FileTable.start_block FileTable.block_count].
    pose proof (used_free_disjoint (allocator s) _ _ p n Hy4 Hrun). lia. }
  assert (inv (set_table t2 s1) d1) as Hi2.
  { apply (inv_set_table s1 d1 t2 i (entry_set_range p n e)); try done.
    intros _. split; [|by apply Hnew]. unfold entry_owns, data_blocks, bsz. cbn [s1 allocator].
    cbn [entry_set_range FileTable.start_block FileTable.block_count FileTable.byte_length].
    rewrite Hla, Hlc. destruct Hrun as (Hr1 & Hr2 & _). fold (data_blocks s) (bsz s) in *.
    split; [done|]. split; [lia|]. split; [done|]. rewrite Hu1. split; [apply union_subseteq_r|].
    pose proof (inv_geometry s d Hi) as (_ & Hb & _). nia. }
  apply (inv_set_allocator (set_table t2 s1) d1 a3); [done..|].
  intros j y [(-> & -> & _)|[Hj Hy]]%(file_at_update s1 t2 i (entry_set_range p n e));
    [| |done|done]; rewrite Hu3, Hu1.
  - cbn [entry_set_range FileTable.start_block FileTable.block_count].
    pose proof (used_free_disjoint (allocator s) _ _ p n Ho4 Hrun).
    intros k. rewrite elem_of_difference, elem_of_union, !elem_of_zrange. lia.
  - destruct (inv_owns _ _ Hi j y Hy) as (_ & Hy2 & _ & Hy4 & _).
    pose proof (inv_disjoint _ _ Hi i j e y He Hy (not_eq_sym Hj)) as Hdis. unfold ranges_disjoint in Hdis.
    intros k Hk. apply elem_of_difference. split; [apply elem_of_union_l; by apply Hy4|].
    rewrite elem_of_zrange in *. lia.
Qed.

Lemma grow_ok s d f needed :
  inv s d -> handle_ok s f -> block_count f < needed -> needed < 2 ^ 51 ->
  wp (grow f needed)
    (fun f' s' => exists d', step_ok s d (file_table_index f) s' d' /\ handle_ok s' f' /\
       file_table_index f' = file_table_index f /\ block_count f' = needed /\
       byte_length f' = byte_length f /\ block_size f' = block_size f /\
       slice (contents d') (start_lba f' * bsz s) (block_count f * bsz s) =
       slice (contents d) (start_lba f * bsz s) (block_count f * bsz s))
    (fun _ s' => exists d', inv s' d' /\ same_kind d d' /\ untouched (fun _ => True) s d s' d' /\
       handle_ok s' f) s.
Proof.
  intros Hi Hf Hgrow Hneed.
  pose proof (inv_geometry s d Hi) as (Hb & Hb2 & Hbl & Hz & Hz2 & Hby & Hds & Hdb & Ht & _).
  pose proof (handle_range s d f Hi Hf) as (Hr1 & Hr2 & Hr3 & Hr4 & Hbs & Hlen & Hbc).
  pose proof Hf as (e & He & Hsl & Hfc & _ & Hfl). pose proof (inv_fit _ _ Hi) as Hfit.
  destruct (entry_of_inv s d _ e Hi He) as [Heok Hlt].
  destruct (inv_owns _ _ Hi _ e He) as (Ho1 & Ho2 & Ho3 & Ho4 & Ho5).
  unfold grow. rewrite Hbs. apply wp_bind. apply (wp_with_nvme _ _ _ _ _ d); [apply Hi|]. apply wp_ret.
  assert (set_hw (mkHw d (pool s)) s = s) as -> by (apply (mkVfs_eta s d), Hi).
  apply wp_bind. apply wp_alloc_blocks; [apply Hi|lia| |].
  2:{ intros _. exists d. split; [done|]. split; [apply same_kind_refl, (inv_dev s d Hi)|].
      split; [apply untouched_refl|done]. }
  intros p a1 Hrun Hwf1 Hlay1 Hd1 Hu1.
  destruct (grow_alloc_ok s d p needed a1 Hi Hrun Hwf1 Hlay1 Hd1 Hu1) as (Hi1 & Hds1 & Hbz1 & Hdb1).
  pose proof Hrun as (Hp0 & Hpn & _).
  apply wp_bind, wp_get. cbn [set_allocator allocator].
  change (BlockAlloc.data_block_count (allocator s)) with (data_blocks s) in Hpn.
  assert (0 <= data_start s < 2 ^ 51) as Hdsb by lia.
  change (BlockAlloc.data_start_lba a1) with (data_start (set_allocator a1 s)). rewrite Hds1.
  rewrite (wrap64_small (start_lba f - data_start s)) by lia.
  rewrite (wrap64_small (data_start s + p)) by lia.
  replace (start_lba f - data_start s) with (FileTable.start_block e) by lia.
  apply wp_bind, wp_try. apply (wp_with_nvme _ _ _ _ _ d); [apply Hi1|]. apply wp_bind.
  assert (start_lba f + block_count f <= data_start s + p \/ data_start s + p + block_count f <= start_lba f) as Hdis.
  { pose proof (used_free_disjoint (allocator s) _ _ p needed Ho4 Hrun). lia. }
  assert (forall d' : D, same_kind d d' ->
    same_outside (contents d) (contents d') ((data_start s + p) * bsz s) ((data_start s + p) * bsz s + block_count f * bsz s) ->
    inv (mkVfs (Some d') (pool s) a1 (file_table s)) d' /\
    forall j y, file_at s j y -> file_region s d' y = file_region s d y) as Hcopied.
  { intros d' Hk Hso. split.
    - apply (inv_data (set_allocator a1 s) d d' Hi1 Hk). rewrite Hds1, Hbz1.
      eapply same_outside_mono; [exact Hso|apply Z.mul_le_mono_nonneg_r; lia|].
      rewrite <- Z.mul_add_distr_r. apply Z.mul_le_mono_nonneg_r; lia.
    - intros j y Hy. pose proof (inv_owns _ _ Hi j y Hy) as Hoy.
      rewrite <- Z.mul_add_distr_r, <- Z.add_assoc in Hso.
      apply (region_outside s d d' y p (p + block_count f) Hi Hoy Hso).
      destruct Hoy as (_ & Hy2 & _ & Hy4 & _).
      pose proof (used_free_disjoint (allocator s) _ _ p needed Hy4 Hrun). lia. }
  (* the failure path *)
  assert (forall (d' : D) code, same_kind d d' ->
    same_outside (contents d) (contents d') ((data_start s + p) * bsz s) ((data_start s + p) * bsz s + block_count f * bsz s) ->
    wp (_ ← free_blocks p needed; st_err code)
      (fun f' s' => exists d', step_ok s d (file_table_index f) s' d' /\ handle_ok s' f' /\
       file_table_index f' = file_table_index f /\ block_count f' = needed /\
       byte_length f' = byte_length f /\ block_size f' = bsz s /\
       slice (contents d') (start_lba f' * bsz s) (block_count f * bsz s) =
       slice (contents d) (start_lba f * bsz s) (block_count f * bsz s))
      (fun _ s' => exists d', inv s' d' /\ same_kind d d' /\ untouched (fun _ => True) s d s' d' /\
       handle_ok s' f) (set_hw (mkHw d' (pool s)) (set_allocator a1 s))) as Hfail.
  { intros d' code Hk Hso. destruct (Hcopied d' Hk Hso) as [Hi' Hreg].
    apply wp_bind, wp_free_blocks; [done|lia|lia|lia|].
    intros a2 Hwf2 Hlay2 Hd2 Hu2. apply wp_err. exists d'.
    assert (BlockAlloc.same_layout (allocator s) a2) as Hlay12.
    { destruct Hlay1 as (?&?&?&?&?), Hlay2 as (?&?&?&?&?). cbn in *. repeat split; congruence. }
    destruct Hlay12 as (_ & Hl2 & _ & _ & Hl5).
    split; [exact (grow_undo_ok s d p needed a1 a2 d' (pool s) Hi Hrun Hlay1 Hu1 Hi' Hwf2 Hlay2 Hd2 Hu2)|].
    split; [done|]. unfold untouched, file_region, handle_ok, data_start, bsz, file_at in *.
    cbn [set_hw set_allocator allocator file_table] in *. rewrite Hl2, Hl5.
    split; [split; [done|]; split; [done|]; intros j y _ Hy; split; [done|by eapply Hreg]|].
    exists e. by repeat (split; [done|]). }
  eapply wp_mono; [apply copy_blocks_ok; cbn [dev pages]; try done; try lia; [apply Hi|apply (inv_dev s d Hi)]| |];
    cbn [dev pages].
  2:{ intros code [d' q] (Hq & Hk & Hso). cbn [dev pages] in *. subst q. by apply Hfail. }
  intros _ [d' q] (Hq & Hk & Hcont). cbn [dev pages] in *. subst q.
  apply wp_map_err, wp_flush; cbn [dev pages]; [apply Hk|apply Hi|].
  intros d2 Hk2 Hc2.
  assert (same_kind d d2) as Hkk by by eapply same_kind_trans.
  assert (0 <= block_count f * bsz s) as Hbcb by (apply Z.mul_nonneg_nonneg; lia).
  assert (0 <= start_lba f * bsz s) as Hslb by (apply Z.mul_nonneg_nonneg; lia).
  assert (0 <= (data_start s + p) * bsz s) as Hnew0 by (apply Z.mul_nonneg_nonneg; lia).
  assert ((data_start s + p) * bsz s + block_count f * bsz s <= zlen (contents d)) as Hnew1.
  { apply (range_bytes _ _ _ _ (dev_total_blocks d)); lia. }
  set (old := slice (contents d) (start_lba f * bsz s) (block_count f * bsz s)) in *.
  assert (zlen old = block_count f * bsz s) as Hold by (unfold old; rewrite zlen_slice; lia).
  assert (same_outside (contents d) (contents d2) ((data_start s + p) * bsz s)
    ((data_start s + p) * bsz s + block_count f * bsz s)) as Hso
    by (rewrite Hc2, Hcont; apply same_outside_splice; lia).
  split; [|intros e0 _; by apply Hfail]. intros _.
  destruct (Hcopied d2 Hkk Hso) as [Hi2 Hreg]. cbn [file_table_index].
  apply wp_bind. apply (wp_get_mut _ e); cbn [file_table set_hw set_allocator];
    [apply Hi|exact He| |done|done|].
  { destruct Heok as (?&?&_&_&?&?&?). unfold FileTable.entry_ok, entry_set_range; cbn. 
    repeat (split; [done|]). split; [unfold is_u64; lia|]. split; [unfold is_u64; lia|]. done. }
  intros t2 Hwft Hdt Hlt2 Hbt Het. apply wp_bind.
  apply wp_free_blocks; cbn [allocator set_hw set_allocator set_table]; [done|lia|lia|lia|].
  rewrite Hfc. intros a3 Hwf3 Hlay3 Hd3 Hu3. apply wp_ret. exists d2.
  assert (BlockAlloc.same_layout (allocator s) a3) as (_ & Hl2 & _ & _ & Hl5).
  { destruct Hlay1 as (?&?&?&?&?), Hlay3 as (?&?&?&?&?). cbn in *. repeat split; congruence. }
  split; [split; [|split; [done|]]|].
  - apply (grow_commit_ok s d p needed a1 d2 (pool s) t2 a3 (file_table_index f) e); try done. lia.
  - unfold untouched, file_region, data_start, bsz in *. cbn [set_hw set_allocator set_table allocator file_table] in *.
    rewrite Hl2, Hl5. split; [done|]. split; [done|]. intros j y Hj Hy. split; [|by eapply Hreg].
    destruct Hy as [Hy Hyu]. split; [|done]. cbn [set_allocator set_table set_hw file_table]. rewrite Het. by rewrite list_lookup_insert_ne.
  - split.
    { exists (entry_set_range p needed e). unfold data_start, bsz in *.
      cbn [set_hw set_allocator set_table allocator file_table file_table_index start_lba block_count block_size byte_length] in *.
      rewrite Hl2, Hl5. split.
      - split; [|apply He]. cbn [set_allocator set_table set_hw file_table]. rewrite Het. by rewrite list_lookup_insert_eq.
      - split; [done|]. split; [done|]. split; [done|]. nia. }
    cbn [file_table_index start_lba block_count block_size byte_length].
    split; [done|]. split; [done|]. split; [done|]. split; [done|].
    rewrite Hc2, Hcont. rewrite <- Hfc, <- Hold. by apply slice_splice_same; lia.
Qed.
End grow_spec.

(** ** Writing *)
Section write_spec.
Context `{BlockDeviceSpec D}.

Lemma step_ok_trans (s1 s2 s3 : vfs D) d1 d2 d3 i :
  step_ok s1 d1 i s2 d2 -> step_ok s2 d2 i s3 d3 -> step_ok s1 d1 i s3 d3.
Proof.
  intros (_ & Hk1 & Hu1) (Hi & Hk2 & Hu2). split; [done|].
  split; [by eapply same_kind_trans|by eapply untouched_trans].
Qed.

(** A transfer that stays inside the blocks of the handle's file. *)
Lemma own_blocks_step s d f d' :
  inv s d -> handle_ok s f -> same_kind d d' ->
  same_outside (contents d) (contents d') (start_lba f * bsz s)
    (start_lba f * bsz s + block_count f * bsz s) ->
  step_ok s d (file_table_index f) (set_hw (mkHw d' (pool s)) s) d' /\
  handle_ok (set_hw (mkHw d' (pool s)) s) f.
Proof.
  intros Hi Hf Hk Hso. pose proof Hf as (e & He & Hsl & Hfc & Hfb & Hfl).
  pose proof (inv_geometry s d Hi) as (_ & Hb2 & _ & _ & _ & _ & Hds & _).
  pose proof (handle_range s d f Hi Hf) as (Hr1 & Hr2 & Hr3 & Hr4 & _).
  pose proof (inv_fit _ _ Hi) as Hfit.
  assert (inv (set_hw (mkHw d' (pool s)) s) d') as Hi'.
  { apply (inv_data s d d' Hi Hk). eapply same_outside_mono; [exact Hso| |].
    - apply Z.mul_le_mono_nonneg_r; lia.
    - rewrite <- Z.mul_add_distr_r. apply Z.mul_le_mono_nonneg_r; lia. }
  split; [|by exists e]. split; [done|]. split; [done|]. split; [done|]. split; [done|].
  intros j y Hj Hy. split; [done|].
  pose proof (inv_disjoint _ _ Hi _ _ e y He Hy (not_eq_sym Hj)) as Hdis.
  apply (region_outside s d d' y (FileTable.start_block e)
    (FileTable.start_block e + FileTable.block_count e) Hi (inv_owns _ _ Hi j y Hy)).
  - rewrite <- Z.mul_add_distr_r in Hso. replace (data_start s + FileTable.start_block e) with (start_lba f) by lia.
    replace (data_start s + (FileTable.start_block e + FileTable.block_count e))
      with (start_lba f + block_count f) by lia. done.
  - unfold ranges_disjoint in Hdis. lia.
Qed.

Lemma splice_grow {A} (c new : list A) lo len off :
  0 <= lo -> 0 <= off <= len -> lo + Z.max len (off + zlen new) <= zlen c ->
  slice (splice c (lo + off) new) lo (Z.max len (off + zlen new)) = splice (slice c lo len) off new.
Proof.
  intros Hlo Hoff Hb. pose proof (zlen_nonneg new).
  rewrite slice_splice_inside by lia. replace (lo + off - lo) with off by lia.
  destruct (Z.max_spec len (off + zlen new)) as [[Hlt ->]|[_ ->]]; [|done].
  unfold splice. f_equal; [|f_equal].
  - unfold slice. rewrite !take_take. f_equal. lia.
  - assert (forall n, n <= off + zlen new -> drop (Z.to_nat off + length new) (slice c lo n) = []) as Hnil.
    { intros n Hn. apply drop_ge. unfold slice. rewrite length_take. unfold zlen in *. lia. }
    rewrite !Hnil by lia. done.
Qed.

Lemma write_ok s d f bytes off :
  inv s d -> handle_ok s f -> 0 < zlen bytes -> bytes_ok bytes -> 0 <= off ->
  off + zlen bytes < 2 ^ 62 -> zlen bytes + 2 * bsz s <= io_limit d ->
  wp (write f bytes off)
    (fun '(code, f') s' => exists d', step_ok s d (file_table_index f) s' d' /\ handle_ok s' f' /\
       file_table_index f' = file_table_index f /\
       (code = SQLITE_OK -> byte_length f' = Z.max (byte_length f) (off + zlen bytes) /\
          (off <= byte_length f -> file_bytes d' f' = splice (file_bytes d f) off bytes)))
    (fun _ s' => exists d', inv s' d' /\ same_kind d d' /\ untouched (fun _ => True) s d s' d' /\
       handle_ok s' f) s.
Proof.
  intros Hi Hf Hbuf Hby Hoff Hov Hlim.
  pose proof (inv_geometry s d Hi) as (Hb & Hb2 & Hbl & Hz & Hz2 & _ & Hds & Hdb & Ht & _).
  pose proof (handle_range s d f Hi Hf) as (Hr1 & Hr2 & Hr3 & Hr4 & Hbs & Hlen & Hbc).
  unfold write. rewrite Hbs. destruct (Z.eqb_spec (bsz s) 0); [lia|].
  destruct (request_range (bsz s) off (zlen bytes)) as (Hq1 & Hq2 & Hq3 & Hq4 & Hq5 & Hq6 & Hq7 & Hq8 & Hq9 & Hq10); [lia..|].
  set (first := off / bsz s) in *.
  set (count := ((((off ⊞ zlen bytes) ⊟ 1) / bsz s) ⊟ first) ⊞ 1) in *. clearbody count. clear Hq2.
  rewrite (wrap64_small (first + count)) by lia. rewrite (wrap64_small (off + zlen bytes)) by lia.
  assert (first + count < 2 ^ 51) as Hneed.
  { assert (4096 * (first + count) <= (first + count) * bsz s); [|lia].
    rewrite (Z.mul_comm 4096). apply Z.mul_le_mono_nonneg_l; lia. }
  apply wp_bind.
  eapply (wp_mono _ (fun f1 s1 => exists d1, step_ok s d (file_table_index f) s1 d1 /\ handle_ok s1 f1 /\
       file_table_index f1 = file_table_index f /\ first + count <= block_count f1 /\
       byte_length f1 = byte_length f /\ block_size f1 = bsz s /\ block_count f <= block_count f1 /\
       slice (contents d1) (start_lba f1 * bsz s) (block_count f * bsz s) =
       slice (contents d) (start_lba f * bsz s) (block_count f * bsz s)) _
       (fun _ s' => exists d', inv s' d' /\ same_kind d d' /\ untouched (fun _ => True) s d s' d' /\
       handle_ok s' f)); [| |done].
  - destruct (Z.ltb_spec (block_count f) (first + count)) as [Hg|Hg].
    + eapply wp_mono; [apply (grow_ok s d f (first + count)); done| |done].
      intros f1 s1 (d1 & H1 & H2 & H3 & H4 & H5 & H6 & H7). exists d1.
      split; [done|]. split; [done|]. split; [done|]. split; [lia|]. split; [done|].
      split; [congruence|]. split; [lia|done].
    + apply wp_ret. exists d. split; [by apply step_ok_refl|]. by repeat (split; [done|]).
  - clear Hi. intros f1 s1 (d1 & Hst1 & Hf1 & Hidx & Hfit1 & Hbl1 & Hbs1 & Hbcle & Hold).
    pose proof Hst1 as (Hi1 & Hk1 & Hu1). assert (bsz s1 = bsz s) as Hbz by apply Hu1.
    pose proof (inv_geometry s1 d1 Hi1) as (Hb' & _ & Hbl' & Hz' & Hz2' & _ & Hds' & _ & Ht' & _).
    pose proof (handle_range s1 d1 f1 Hi1 Hf1) as (Hs1 & Hs2 & Hs3 & Hs4 & _ & Hlen1 & Hbc1).
    pose proof (inv_fit _ _ Hi1) as Hfit. rewrite Hbz in *.
    assert (0 <= start_lba f1 * bsz s) as Hst0 by (apply Z.mul_nonneg_nonneg; lia).
    assert (first * bsz s + count * bsz s <= block_count f1 * bsz s) as Hin1.
    { rewrite <- Z.mul_add_distr_r. apply Z.mul_le_mono_nonneg_r; lia. }
    assert ((start_lba f1 + first) * bsz s = start_lba f1 * bsz s + first * bsz s) as Hadd by ring.
    assert (0 <= first * bsz s) as Hfb by (apply Z.mul_nonneg_nonneg; lia).
    rewrite (wrap64_small (start_lba f1 + first)) by lia.
    apply wp_bind, wp_try. apply (wp_with_nvme _ _ _ _ _ d1); [apply Hi1|].
    assert (forall (d' : D), same_kind d1 d' ->
      same_outside (contents d1) (contents d') ((start_lba f1 + first) * bsz s)
        ((start_lba f1 + first) * bsz s + count * bsz s) ->
      step_ok s d (file_table_index f) (set_hw (mkHw d' (pool s1)) s1) d' /\
      handle_ok (set_hw (mkHw d' (pool s1)) s1) f1) as Hpart.
    { intros d' Hk' Hso. destruct (own_blocks_step s1 d1 f1 d' Hi1 Hf1 Hk') as [Hst Hh].
      - rewrite Hbz. eapply same_outside_mono; [exact Hso|lia|lia].
      - split; [|done]. rewrite Hidx in Hst. by eapply step_ok_trans. }
    assert (io_ok d1 (start_lba f1 + first) count (bsz s)) as Hio.
    { split; [apply (inv_dev s1 d1 Hi1)|]. split; [done|]. split; [lia|]. split; [lia|]. split.
      - rewrite Z.mul_add_distr_r, Hadd. lia.
      - destruct Hk1 as (_ & _ & _ & -> & _).
        etrans; [apply Z.mul_le_mono_nonneg_r; [lia|apply Z.le_min_l]|]. lia. }
    eapply wp_mono; [apply (write_range_ok (mkHw d1 (pool s1))); cbn [dev pages];
      [apply Hi1|done|lia|done|lia|done]| |]; cbn [dev pages].
    + intros _ [d' q] (Hq & Hk' & _ & Hc). cbn [dev pages] in *. subst q. apply wp_ret.
      rewrite Hadd in Hc. replace (start_lba f1 * bsz s + first * bsz s + off mod bsz s)
        with (start_lba f1 * bsz s + off) in Hc by lia.
      destruct (Hpart d' Hk') as [Hst Hh].
      { rewrite Hc. apply same_outside_splice; lia. }
      assert ((if byte_length f1 <? off + zlen bytes then set_length f1 (off + zlen bytes) else f1) =
        set_length f1 (Z.max (byte_length f) (off + zlen bytes))) as ->.
      { rewrite Hbl1. destruct (Z.ltb_spec (byte_length f) (off + zlen bytes)).
        - by rewrite Z.max_r by lia.
        - rewrite Z.max_l, <- Hbl1 by lia. by destruct f1. }
      exists d'. split; [done|]. split; [|split; [done|]].
      { destruct Hh as (e & He & H1 & H2 & H3 & H4). exists e. cbn [set_length file_table_index start_lba block_count block_size byte_length].
        split; [done|]. split; [done|]. split; [done|]. split; [done|]. 
        change (bsz (set_hw (mkHw d' (pool s1)) s1)) with (bsz s1). rewrite Hbz. lia. }
      intros _. split; [done|]. intros Hoffin. unfold file_bytes.
      cbn [set_length start_lba byte_length block_size]. rewrite Hbs1, Hc, splice_grow by lia.
      f_equal. rewrite Hbs.
      assert (0 <= start_lba f * bsz s) by (apply Z.mul_nonneg_nonneg; lia).
      rewrite (slice_prefix (contents d1) _ _ (block_count f * bsz s)) by lia.
      rewrite (slice_prefix (contents d) _ _ (block_count f * bsz s)) by lia. by rewrite Hold.
    + intros code [d' q] (Hcode & Hq & Hk' & Hso). cbn [dev pages] in *. subst q. apply wp_ret.
      destruct (Hpart d' Hk' Hso) as [Hst Hh]. exists d'. by repeat (split; [done|]).
Qed.
End write_spec.

End Vfs.
