(* ===== verification/VfsSpec.v ===== *)
(** * The SQLite VFS: metadata operations, durability and reachability

    [sync], [truncate], [open], [close] and [delete] against the invariant of
    [Vfs.v], the system of open handles as a step relation, and the
    properties of the VFS. *)
From S2P Require Import Prelude Bytes Bitmap Phys Block BlockAlloc FileTable Vfs.
Import FileTable(FileTable, FileEntry) Vfs.

Module VfsSpec.

Section ops.
Context `{BlockDeviceSpec D}.
Implicit Types (s : vfs D) (d : D).

Lemma entry_ok_length e n : FileTable.entry_ok e -> is_u64 n -> FileTable.entry_ok (entry_set_length n e).
Proof. intros (?&?&?&?&_&?&?) Hn. by repeat (split; [done|]). Qed.

Lemma entry_ok_size e c n :
  FileTable.entry_ok e -> is_u64 c -> is_u64 n -> FileTable.entry_ok (entry_set_size c n e).
Proof. intros (?&?&?&_&_&?&?) Hc Hn. by repeat (split; [done|]). Qed.

(** ** close *)
Lemma close_ok s d f :
  inv s d -> handle_ok s f ->
  wp (close f)
    (fun _ s' => step_ok s d (file_table_index f) s' d /\ nvme s' = Some d /\
       handle_ok s' f /\
       exists e, file_at s' (file_table_index f) e /\ FileTable.byte_length e = byte_length f)
    (fun _ _ => False) s.
Proof.
  intros Hi (e & He & Hsl & Hfc & Hfb & Hfl). unfold close.
  destruct (entry_of_inv s d _ e Hi He) as [Heok Hlt].
  pose proof (inv_geometry s d Hi) as (_ & Hb2 & _ & Hz & Hz2 & _ & Hds & _ & Ht & _).
  destruct (inv_owns _ _ Hi _ e He) as (Ho1 & Ho2 & Ho3 & Ho4 & Ho5).
  pose proof (inv_fit _ _ Hi) as Hfit.
  assert (block_count f * bsz s < 2 ^ 63) as Hsz.
  { pose proof (range_bytes _ 0 (block_count f) (bsz s) _ Hz). lia. }
  apply (wp_get_mut _ e); [apply Hi|done| |done|done|].
  { apply entry_ok_length; [done|unfold is_u64; lia]. }
  intros t' Hwf Hd Hl Hb He'.
  assert (inv (set_table t' s) d) as Hi'.
  { apply (inv_set_table s d t' (file_table_index f) (entry_set_length (byte_length f) e)); try done.
    intros _. split.
    - unfold entry_owns. cbn [entry_set_length FileTable.start_block FileTable.block_count FileTable.byte_length].
      by rewrite Hfc in Hfl.
    - intros j y Hj Hy. apply (inv_disjoint _ _ Hi _ _ e y He Hy). congruence. }
  split; [|split; [apply Hi|]].
  - split; [done|]. split; [apply same_kind_refl, (inv_dev s d Hi)|]. split; [done|]. split; [done|].
    intros j y Hj Hy. split; [|done].
    apply (file_at_update s t' (file_table_index f) (entry_set_length (byte_length f) e)); [done|done|by right].
  - assert (file_at (set_table t' s) (file_table_index f) (entry_set_length (byte_length f) e)) as He2.
    { apply (file_at_update s t' (file_table_index f) (entry_set_length (byte_length f) e)); [done|done|].
      left. by destruct He. }
    by split; exists (entry_set_length (byte_length f) e).
Qed.

(** ** truncate *)
Lemma truncate_ok s d f size :
  inv s d -> handle_ok s f -> 0 <= size < 2 ^ 63 ->
  wp (truncate f size)
    (fun f' s' => step_ok s d (file_table_index f) s' d /\ nvme s' = Some d /\ handle_ok s' f' /\
       file_table_index f' = file_table_index f /\ start_lba f' = start_lba f /\
       byte_length f' = Z.min size (byte_length f) /\
       file_bytes d f' = slice (file_bytes d f) 0 size)
    (fun _ _ => False) s.
Proof.
  intros Hi Hf Hsize. pose proof Hf as (e & He & Hsl & Hfc & Hfb & Hfl). unfold truncate.
  pose proof (inv_geometry s d Hi) as (_ & Hb2 & _ & Hz & Hz2 & _ & Hds & _ & Ht & _).
  pose proof (handle_range s d f Hi Hf) as (Hr1 & Hr2 & Hr3 & Hr4 & Hbs & Hlen & Hbc).
  destruct (inv_owns _ _ Hi _ e He) as (Ho1 & Ho2 & Ho3 & Ho4 & Ho5).
  pose proof (inv_fit _ _ Hi) as Hfit. destruct (entry_of_inv s d _ e Hi He) as [Heok Hlt].
  assert (0 <= start_lba f * bsz s) as Hs0 by (apply Z.mul_nonneg_nonneg; lia).
  assert (zlen (file_bytes d f) = byte_length f) as Hzf by (unfold file_bytes; rewrite Hbs, zlen_slice; lia).
  destruct (Z.ltb_spec (byte_length f) size) as [Hbig|Hsmall].
  { apply wp_ret. split; [by apply step_ok_refl|]. split; [apply Hi|]. split; [done|]. split; [done|].
    split; [done|]. split; [lia|]. by rewrite slice_all by lia. }
  cbn [set_length block_size block_count start_lba file_table_index byte_length]. rewrite Hbs.
  assert (negb (size =? 0) && (bsz s =? 0) = false) as ->
    by (destruct (Z.eqb_spec (bsz s) 0); [lia|by rewrite andb_false_r]).
  assert (exists needed, (if size =? 0 then 1 else ((size ⊞ bsz s) ⊟ 1) / bsz s) = needed /\
    0 < needed /\ size <= needed * bsz s) as (needed & -> & Hn1 & Hn2).
  { eexists. split; [done|]. destruct (Z.eqb_spec size 0); [lia|]. unwrap.
    pose proof (Z.div_mod (size + bsz s - 1) (bsz s) ltac:(lia)) as Hdm.
    pose proof (Z.mod_pos_bound (size + bsz s - 1) (bsz s) ltac:(lia)) as Hmb.
    set (q := (size + bsz s - 1) / bsz s) in *. set (r := (size + bsz s - 1) mod bsz s) in *.
    clearbody q r. split; nia. }
  assert (file_bytes d f = slice (contents d) (start_lba f * bsz s) (byte_length f)) as Hfbeq
    by (unfold file_bytes; by rewrite Hbs).
  assert (slice (contents d) (start_lba f * bsz s) size = slice (file_bytes d f) 0 size) as Hpre.
  { rewrite Hfbeq. apply slice_prefix; lia. }
  destruct (Z.ltb_spec needed (block_count f)) as [Hless|Hmore].
  2:{ apply wp_ret. split; [by apply step_ok_refl|]. split; [apply Hi|]. split.
      { exists e. cbn [set_length block_size block_count start_lba file_table_index byte_length].
        repeat (split; [done|]). lia. }
      split; [done|]. split; [done|]. split; [cbn; lia|].
      unfold file_bytes at 1. cbn [set_length start_lba block_size byte_length]. by rewrite Hbs. }
  apply wp_bind, wp_get. change (BlockAlloc.data_start_lba (allocator s)) with (data_start s).
  rewrite (wrap64_small (start_lba f - data_start s)) by lia.
  rewrite (wrap64_small (start_lba f - data_start s + needed)) by lia.
  replace (start_lba f - data_start s) with (FileTable.start_block e) by lia.
  apply wp_bind, wp_free_blocks; [apply Hi|lia|lia|lia|].
  intros a' Hwfa Hlaya Hda Hua. set (e' := entry_set_size needed size e).
  apply wp_bind, (wp_get_mut _ e); [apply Hi|exact He| |done|done|].
  { apply entry_ok_size; [done|unfold is_u64; lia..]. }
  fold e'. cbn [set_allocator file_table].
  intros t' Hwft Hdt Hlt' Hbt Het. apply wp_ret.
  pose proof Hlaya as (Hl1 & Hl2 & _ & _ & Hl5).
  assert (inv (set_table t' s) d) as Hi1.
  { apply (inv_set_table s d t' (file_table_index f) e'); try done. intros _. split.
    - unfold entry_owns, e'. cbn [entry_set_size FileTable.start_block FileTable.block_count FileTable.byte_length].
      split; [lia|]. split; [lia|]. split; [lia|]. split; [|lia]. rewrite <- Ho4.
      intros k. rewrite !elem_of_zrange. lia.
    - intros j y Hj Hy. pose proof (inv_disjoint _ _ Hi _ _ e y He Hy (not_eq_sym Hj)) as Hdis.
      unfold ranges_disjoint, e' in *. cbn [entry_set_size FileTable.start_block FileTable.block_count]. lia. }
  destruct (inv_set_allocator (set_table t' s) d a' Hi1) as (Hi2 & Hds2 & Hbz2 & _); [done|done|done| |].
  { intros j y Hy. cbn [set_table allocator] in Hua |- *.
    assert (ranges_disjoint y (entry_set_range (FileTable.start_block e + needed) (block_count f - needed) e) /\
      zrange (FileTable.start_block y) (FileTable.block_count y) ⊆ BlockAlloc.used_blocks (allocator s) /\
      0 < FileTable.block_count y) as (Hdis & Hsub & Hpos).
    { apply (file_at_update s t' (file_table_index f) e') in Hy as [(-> & -> & _)|[Hj Hy]]; [| |done|done].
      - unfold ranges_disjoint, e'. cbn [entry_set_size entry_set_range FileTable.start_block FileTable.block_count].
        split; [lia|]. split; [|lia]. rewrite <- Ho4. intros k. rewrite !elem_of_zrange. lia.
      - pose proof (inv_disjoint _ _ Hi _ _ y e Hy He Hj) as Hdis.
        destruct (inv_owns _ _ Hi j y Hy) as (_ & Hy2 & _ & Hy4 & _). split; [|done].
        unfold ranges_disjoint in *. cbn [entry_set_range FileTable.start_block FileTable.block_count]. lia. }
    rewrite Hua. intros k Hk. apply elem_of_difference. split; [by apply Hsub|].
    rewrite elem_of_zrange in *. unfold ranges_disjoint in Hdis.
    cbn [entry_set_range FileTable.start_block FileTable.block_count] in Hdis. lia. }
  split; [|split; [apply Hi|split; [|split; [done|split; [done|split]]]]].
  - split; [exact Hi2|]. split; [apply same_kind_refl, (inv_dev s d Hi)|].
    split; [exact Hds2|]. split; [exact Hbz2|]. intros j y Hj Hy.
    split; [apply (file_at_update s t' (file_table_index f) e'); [done|done|by right]|].
    unfold file_region.
    change (data_start (set_table t' (set_allocator a' s))) with (data_start (set_allocator a' (set_table t' s))).
    change (bsz (set_table t' (set_allocator a' s))) with (bsz (set_allocator a' (set_table t' s))).
    by rewrite Hds2, Hbz2.
  - exists e'. cbn [file_table_index start_lba block_count block_size byte_length].
    change (data_start (set_table t' (set_allocator a' s))) with (data_start (set_allocator a' (set_table t' s))).
    change (bsz (set_table t' (set_allocator a' s))) with (bsz (set_allocator a' (set_table t' s))).
    rewrite Hds2, Hbz2. split.
    { apply (file_at_update s t' (file_table_index f) e'); [done|done|]. left. split; [done|]. split; [done|]. apply He. }
    split; [done|]. split; [done|]. split; [done|]. change (bsz (set_table t' s)) with (bsz s). lia.
  - cbn [byte_length]. lia.
  - unfold file_bytes at 1. cbn [start_lba block_size byte_length]. done.
Qed.

(** ** delete *)
Lemma vfs_delete_ok s d name :
  inv s d ->
  wp (delete name)
    (fun _ s' => inv s' d /\ FileTable.lookup (file_table s') name = None /\
       (forall m, m <> name -> FileTable.lookup (file_table s') m = FileTable.lookup (file_table s) m) /\
       data_start s' = data_start s /\ bsz s' = bsz s /\ nvme s' = nvme s /\
       match FileTable.lookup (file_table s) name with
       | Some (i, e) => untouched (fun j => j <> i) s d s' d /\
           BlockAlloc.used_blocks (allocator s') = BlockAlloc.used_blocks (allocator s) ∖
             zrange (FileTable.start_block e) (FileTable.block_count e)
       | None => s' = s
       end)
    (fun _ _ => False) s.
Proof.
  intros Hi. unfold delete. apply wp_bind, wp_get.
  destruct (FileTable.lookup (file_table s) name) as [[i e]|] eqn:Hlk.
  2:{ apply wp_ret. by repeat (split; [done|]). }
  pose proof Hlk as Hat. apply FileTable.lookup_Some in Hat as [Hei [Hu Hn]]; [|apply Hi].
  assert (file_at s i e) as He by done. destruct (entry_of_inv s d _ e Hi He) as [Heok Hlt].
  destruct (inv_owns _ _ Hi _ e He) as (Ho1 & Ho2 & Ho3 & Ho4 & Ho5).
  pose proof (inv_alloc _ _ Hi) as (Hnb & _).
  destruct (FileTable.delete_ok (E:=Z) i e (file_table s) (inv_table _ _ Hi) Hei Hu) as
    (t' & Hdel & Hwf & Hd & Hl & Hb & Het & Hnone & Hoth).
  apply wp_bind. unfold wp at 1, on_table. rewrite Hdel.
  assert (inv (set_table t' s) d) as Hi1.
  { apply (inv_set_table s d t' i FileTable.empty); try done. }
  unfold data_blocks in Ho3.
  apply wp_free_blocks; [apply Hi|lia|lia|lia|]. cbn [set_table allocator].
  intros a' Hwfa Hlaya Hda Hua.
  destruct (inv_set_allocator (set_table t' s) d a' Hi1) as (Hi2 & Hds2 & Hbz2 & _); [done|done|done| |].
  { intros j y Hy. apply (file_at_update s t' i FileTable.empty) in Hy as [(_ & _ & Hbad)|[Hj Hy]]; [done| |done|done].
    pose proof (inv_disjoint _ _ Hi _ _ y e Hy He Hj) as Hdis.
    destruct (inv_owns _ _ Hi j y Hy) as (_ & Hy2 & _ & Hy4 & _).
    rewrite Hua. intros k Hk. apply elem_of_difference. split; [by apply Hy4|].
    rewrite elem_of_zrange in *. unfold ranges_disjoint in Hdis. lia. }
  split; [exact Hi2|]. rewrite <- Hn. split; [exact Hnone|]. split; [exact Hoth|].
  split; [exact Hds2|]. split; [exact Hbz2|]. split; [done|]. split; [|done].
  split; [exact Hds2|]. split; [exact Hbz2|]. intros j y Hj Hy.
  split; [apply (file_at_update s t' i FileTable.empty); [done|done|by right]|].
  unfold file_region. by rewrite Hds2, Hbz2.
Qed.

(** ** open *)
Lemma open_ok s d name flags :
  inv s d -> FileTable.name_ok name -> 16 * bsz s < 2 ^ 63 ->
  wp (open name flags)
    (fun f s' => inv s' d /\ nvme s' = Some d /\ handle_ok s' f /\
       (exists e, FileTable.lookup (file_table s') name = Some (file_table_index f, e) /\
          byte_length f = FileTable.byte_length e) /\
       untouched (fun j => j <> file_table_index f) s d s' d /\
       match FileTable.lookup (file_table s) name with
       | Some _ => s' = s
       | None => Z.land flags SQLITE_OPEN_CREATE <> 0 /\ byte_length f = 0 /\ block_count f = 16
       end /\
       (forall m, m <> name -> FileTable.lookup (file_table s') m = FileTable.lookup (file_table s) m))
    (fun code s' => inv s' d /\ nvme s' = Some d /\ untouched (fun _ => True) s d s' d /\
       file_table s' = file_table s /\ FileTable.lookup (file_table s) name = None /\
       (code = SQLITE_CANTOPEN /\ s' = s /\ Z.land flags SQLITE_OPEN_CREATE = 0 \/
        code = SQLITE_FULL /\ Z.land flags SQLITE_OPEN_CREATE <> 0)) s.
Proof.
  intros Hi Hname Hb16. unfold open. apply wp_bind, wp_get.
  pose proof (inv_geometry s d Hi) as (_ & Hb2 & _ & Hz & Hz2 & _ & Hds & _ & Ht & _).
  pose proof (inv_fit _ _ Hi) as Hfit. change (BlockAlloc.block_size (allocator s)) with (bsz s).
  change (BlockAlloc.data_start_lba (allocator s)) with (data_start s).
  destruct (FileTable.lookup (file_table s) name) as [[i e]|] eqn:Hlk.
  { apply wp_ret. pose proof Hlk as Hat. apply FileTable.lookup_Some in Hat as [Hei [Hu Hn]]; [|apply Hi].
    assert (file_at s i e) as He by done.
    destruct (inv_owns _ _ Hi _ e He) as (Ho1 & Ho2 & Ho3 & Ho4 & Ho5).
    rewrite (wrap64_small (data_start s + FileTable.start_block e)) by lia.
    split; [done|]. split; [apply Hi|]. split; [by exists e|]. split; [by exists e|].
    split; [apply untouched_refl|]. by split. }
  destruct (Z.eqb_spec (Z.land flags SQLITE_OPEN_CREATE) 0) as [Hfl|Hfl].
  { apply wp_err. split; [done|]. split; [apply Hi|]. split; [apply untouched_refl|].
    split; [done|]. split; [done|by left]. }
  apply wp_bind, wp_alloc_blocks; [apply Hi|unfold INITIAL_ALLOC_BLOCKS; lia| |].
  2:{ intros _. split; [done|]. split; [apply Hi|]. split; [apply untouched_refl|].
      split; [done|]. split; [done|by right]. }
  unfold INITIAL_ALLOC_BLOCKS. intros p a1 Hrun Hwf1 Hlay1 Hd1 Hu1.
  destruct (grow_alloc_ok s d p 16 a1 Hi Hrun Hwf1 Hlay1 Hd1 Hu1) as (Hi1 & Hds1 & Hbz1 & Hdb1).
  pose proof Hrun as (Hp0 & Hpn & _). change (BlockAlloc.data_block_count (allocator s)) with (data_blocks s) in Hpn.
  assert (untouched (fun _ => True) s d (set_allocator a1 s) d) as Hun1.
  { split; [done|]. split; [done|]. intros j y _ Hy. split; [done|]. unfold file_region. by rewrite Hds1, Hbz1. }
  apply wp_bind. unfold wp at 1, on_table. cbn [set_allocator file_table].
  destruct (FileTable.create_ok (E:=Z) name p 16 (file_table s)) as
    [[-> Hfull]|(slot & e & t' & -> & Hslot & Hd & Hwf & Hl & Hb & (old & Hold & Hfree) & Het &
      [Hu Hnm] & Hst & Hbc & Hbl & Hlk' & Hoth)]; [apply Hi|done|unfold is_u64; lia|done|done| |].
  { apply wp_err. split; [exact Hi1|]. split; [apply Hi|]. split; [exact Hun1|]. split; [done|].
    split; [done|by right]. }
  assert (slot < length (FileTable.entries (file_table s)))%nat as Hlt by (by eapply lookup_lt_Some).
  apply wp_ret. rewrite (wrap64_small (data_start s + p)) by lia.
  cbn [file_table_index byte_length block_count].
  assert (forall j y, file_at s j y -> j <> slot) as Hother.
  { intros j y [Hy Hyu] ->. congruence. }
  assert (inv (set_table t' (set_allocator a1 s)) d) as Hi2.
  { apply (inv_set_table (set_allocator a1 s) d t' slot e); try done. intros _. split.
    - unfold entry_owns. rewrite Hst, Hbc, Hbl, Hdb1, Hbz1. split; [done|]. split; [lia|]. split; [lia|].
      split; [cbn [allocator set_allocator]; rewrite Hu1; apply union_subseteq_r|lia].
    - intros j y Hj Hy. unfold ranges_disjoint. rewrite Hst, Hbc.
      destruct (inv_owns _ _ Hi j y Hy) as (_ & Hy2 & _ & Hy4 & _).
      pose proof (used_free_disjoint (allocator s) _ _ p 16 Hy4 Hrun). lia. }
  assert (data_start (set_table t' (set_allocator a1 s)) = data_start s /\
    bsz (set_table t' (set_allocator a1 s)) = bsz s) as [Hds2 Hbz2] by done.
  split; [exact Hi2|]. split; [apply Hi|]. split.
  { exists e. cbn [file_table_index start_lba block_count block_size byte_length]. rewrite Hds2, Hbz2, Hst, Hbc.
    split; [|by repeat (split; [done|]); lia].
    apply (file_at_update (set_allocator a1 s) t' slot e); [done|done|by left]. }
  split; [by exists e|]. split; [|by split].
  split; [exact Hds2|]. split; [exact Hbz2|]. intros j y Hj Hy.
  split; [|unfold file_region; by rewrite Hds2, Hbz2].
  apply (file_at_update (set_allocator a1 s) t' slot e); [done|done|by right].
Qed.

(** ** sync and recovery *)

(** The metadata on the device describes the state in memory. *)
Definition synced s d : Prop :=
  BlockAlloc.on_disk (contents d) (allocator s) /\ FileTable.on_disk (contents d) (file_table s).

Lemma sync_ok s d f :
  inv s d -> handle_ok s f ->
  wp (sync f)
    (fun _ s' => exists d', inv s' d' /\ same_kind d d' /\ synced s' d' /\
       durable d' = contents d' /\ untouched (fun _ => True) s d (set_table (file_table s) s') d' /\
       (exists e, file_at s (file_table_index f) e /\
         FileTable.entries (file_table s') =
           <[file_table_index f := entry_set_length (byte_length f) e]> (FileTable.entries (file_table s))) /\
       handle_ok s' f /\ file_bytes d' f = file_bytes d f)
    (fun code _ => code = SQLITE_IOERR_FSYNC) s.
Proof.
  intros Hi Hf. unfold sync.
  pose proof (inv_geometry s d Hi) as (Hb & Hb2 & _ & Hz & Hz2 & _ & Hds & _ & Ht & Htb).
  pose proof (handle_range s d f Hi Hf) as (Hr1 & Hr2 & Hr3 & Hr4 & Hbs & Hlen & Hbc).
  pose proof Hf as (e & He & Hsl & Hfc & Hfb & Hfl).
  apply wp_bind. apply (wp_with_nvme _ _ _ _ _ d); [apply Hi|]. apply wp_ret.
  assert (set_hw (mkHw d (pool s)) s = s) as -> by (apply (mkVfs_eta s d), Hi).
  apply wp_bind. destruct (entry_of_inv s d _ e Hi He) as [Heok Hlt].
  assert (block_count f * bsz s < 2 ^ 63) as Hsz.
  { pose proof (range_bytes _ 0 (block_count f) (bsz s) _ Hz). pose proof (inv_fit _ _ Hi). lia. }
  apply (wp_get_mut _ e); [apply Hi|done| |done|done|].
  { apply entry_ok_length; [done|unfold is_u64; lia]. }
  intros t1 Hwft Hdt Hlt1 Hbt Het.
  set (s1 := set_table t1 s).
  assert (inv s1 d) as Hi1.
  { apply (inv_set_table s d t1 (file_table_index f) (entry_set_length (byte_length f) e)); try done.
    intros _. destruct (inv_owns _ _ Hi _ e He) as (Ho1 & Ho2 & Ho3 & Ho4 & Ho5). split.
    - unfold entry_owns. cbn [entry_set_length FileTable.start_block FileTable.block_count FileTable.byte_length].
      by rewrite Hfc in Hfl.
    - intros j y Hj Hy. apply (inv_disjoint _ _ Hi _ _ e y He Hy). congruence. }
  assert (handle_ok s1 f) as Hf1.
  { exists (entry_set_length (byte_length f) e). split; [|done].
    apply (file_at_update s t1 (file_table_index f) (entry_set_length (byte_length f) e)); [done|done|].
    left. split; [done|]. split; [done|]. apply He. }
  apply wp_bind, wp_get. cbn [s1 set_table allocator].
  apply wp_bind. apply (wp_with_nvme _ _ _ _ _ d); [apply Hi|]. apply wp_map_err.
  pose proof (inv_alayout _ _ Hi) as Hal.
  eapply wp_mono; [apply BlockAlloc.ba_flush_ok; [apply Hi|exact Hal]| |done].
  intros a' [d1 q] (Hq & Hk1 & -> & Hc1). cbn [dev pages] in *. subst q.
  apply wp_bind. apply wp_get. apply wp_bind. apply wp_put.
  cbn [set_hw set_allocator set_table file_table allocator nvme pool].
  apply wp_bind. apply (wp_with_nvme _ _ _ _ _ d1); [done|]. apply wp_map_err.
  cbn [set_hw set_allocator set_table file_table allocator nvme pool].
  assert (FileTable.layout_ok t1 d1) as Htl1 by (apply (FileTable.ft_layout_ok_kind t1 d d1); [apply Hi1|done]).
  eapply wp_mono; [apply (FileTable.ft_flush_ok t1 (mkHw d1 (pool s))); [apply Hi|exact Htl1|done]| |done].
  intros t' [d2 q] (Hq & Hk2 & -> & Hc2). cbn [dev pages] in *. subst q. rewrite Hdt in Hc2.
  apply wp_bind. apply wp_get. apply wp_bind. apply wp_put.
  cbn [set_hw set_allocator set_table file_table allocator nvme pool].
  apply (wp_with_nvme _ _ _ _ _ d2); [done|]. apply wp_map_err.
  apply wp_flush; cbn [dev pages set_hw set_allocator set_table pool]; [apply Hk2|apply Hi|].
  intros d3 Hk3 Hc3. split; [|by intros _ _]. intros Hdur.
  assert (same_kind d d3) as Hk by (eapply same_kind_trans; [done|by eapply same_kind_trans]).
  (* the metadata on the device *)
  assert (BlockAlloc.on_disk (contents d1) (BlockAlloc.clean (allocator s))) as Hon1.
  { rewrite Hc1. destruct (BlockAlloc.dirty (allocator s)) eqn:Hdirty.
    - apply BlockAlloc.ba_on_disk_written; [exact Hal|apply Hi].
    - destruct (inv_abits _ _ Hi Hdirty). by split. }
  pose proof (BlockAlloc.ba_region_in_disk (allocator s) d Hal) as (Hra1 & Hra2 & Hra3 & _).
  pose proof (FileTable.ft_region_in_disk t1 d1 Htl1) as (Hrt1 & Hrt2 & _).
  pose proof (FileTable.wf_image t1 Hwft) as Hwi. destruct Hwi as [Hzi _]; [rewrite Hbt, Htb; lia|].
  assert (zlen (contents d1) = zlen (contents d)) as Hz1.
  { destruct (law_geometry d1 (proj1 Hk1)) as (_ & _ & _ & -> & _).
    destruct Hk1 as (_ & -> & -> & _). by rewrite Hz, Hb. }
  pose proof (inv_order _ _ Hi) as Ho.
  assert (BlockAlloc.region_off (allocator s) + BlockAlloc.region_len (allocator s) <= FileTable.region_off t1 /\
    FileTable.region_off t1 + FileTable.block_size t1 <= data_start s * bsz s /\
    bsz s <= FileTable.region_off t1) as (Hord1 & Hord2 & Hord3).
  { unfold BlockAlloc.region_off, BlockAlloc.region_len, FileTable.region_off. fold (bsz s).
    rewrite Hbt, Htb, Hlt1, <- Z.mul_add_distr_r.
    destruct Hal as (_ & _ & _ & _ & Hst1 & Hnb & _).
    split; [apply Z.mul_le_mono_nonneg_r; lia|]. split.
    - replace (FileTable.file_table_lba (file_table s) * bsz s + bsz s)
        with ((FileTable.file_table_lba (file_table s) + 1) * bsz s) by ring.
      apply Z.mul_le_mono_nonneg_r; lia.
    - nia. }
  assert (same_outside (contents d1) (contents d3) (FileTable.region_off t1)
     (FileTable.region_off t1 + FileTable.block_size t1)) as Hso13.
  { rewrite Hc3, Hc2. apply same_outside_splice; lia. }
  assert (BlockAlloc.on_disk (contents d3) (BlockAlloc.clean (allocator s))) as Hon3.
  { destruct Hon1 as [Hh Himg]. split.
    - unfold BlockAlloc.header_ok in *. change (BlockAlloc.block_size (BlockAlloc.clean (allocator s))) with (bsz s) in *.
      rewrite (same_outside_slice _ _ _ _ 0 (bsz s) Hso13) by lia. exact Hh.
    - change (BlockAlloc.region_off (BlockAlloc.clean (allocator s))) with (BlockAlloc.region_off (allocator s)) in *.
      change (BlockAlloc.region_len (BlockAlloc.clean (allocator s))) with (BlockAlloc.region_len (allocator s)) in *.
      rewrite (same_outside_slice _ _ _ _ _ _ Hso13) by lia. exact Himg. }
  assert (FileTable.on_disk (contents d3) (FileTable.clean t1)) as Hont.
  { rewrite Hc3, Hc2. change (FileTable.on_disk (splice (contents d1) (FileTable.region_off t1) (FileTable.image t1)) t1).
    by apply FileTable.ft_on_disk_written. }
  (* the data area *)
  assert (forall off n, data_start s * bsz s <= off -> 0 <= n ->
    slice (contents d3) off n = slice (contents d) off n) as Hdata.
  { intros off n Hoff Hn. rewrite (same_outside_slice _ _ _ _ off n Hso13) by lia. rewrite Hc1.
    destruct (BlockAlloc.dirty (allocator s)); [|done].
    pose proof (BlockAlloc.zlen_region_image (allocator s) d Hal).
    apply slice_splice_disjoint; lia. }
  exists d3. cbn [set_hw set_allocator set_table file_table allocator nvme pool dev pages].
  assert (inv (mkVfs (Some d3) (pool s) (BlockAlloc.clean (allocator s)) (FileTable.clean t1)) d3) as Hi3.
  { constructor; cbn [nvme pool allocator file_table]; try apply Hi1.
    - done.
    - exact (BlockAlloc.ba_layout_ok_kind (allocator s) d d3 Hal Hk).
    - apply (FileTable.ft_layout_ok_kind t1 d d3); [apply Hi1|done].
    - destruct Hk as (_ & _ & -> & _). apply (inv_fit _ _ Hi).
    - apply Hon3.
    - intros _. exact Hon3.
    - intros _. exact Hont. }
  split; [exact Hi3|]. split; [done|]. split; [by split|]. split; [congruence|].
  assert (0 <= data_start s * bsz s) by (apply Z.mul_nonneg_nonneg; lia).
  split.
  { split; [done|]. split; [done|]. intros j y _ Hy. split; [exact Hy|].
    unfold file_region. destruct (inv_owns _ _ Hi j y Hy) as (Ho1 & Ho2 & _). apply Hdata.
    - apply Z.mul_le_mono_nonneg_r; lia.
    - apply Z.mul_nonneg_nonneg; lia. }
  split; [by exists e|]. split; [exact Hf1|]. unfold file_bytes. rewrite Hbs. apply Hdata; [|lia].
  apply Z.mul_le_mono_nonneg_r; lia.
Qed.

(** After a power cycle of a synced and flushed device, loading gives back
    the allocator and the table of the running system. *)
Lemma recover_ok s d p :
  inv s d -> synced s d -> durable d = contents d -> Phys.wf p ->
  wp (a ← BlockAlloc.load;
      t ← FileTable.load (FileTable.file_table_lba (file_table s)) (FileTable.block_size (file_table s));
      mret (a, t))
    (fun '(a, t) w => a = BlockAlloc.clean (allocator s) /\ t = FileTable.clean (file_table s) /\
       contents (dev w) = contents d)
    (fun e _ => reliable d -> e = OutOfMemory) (mkHw (power_cycle d) p).
Proof.
  intros Hi [Ha Ht] Hdur Hp.
  destruct (law_power_cycle d (inv_dev s d Hi)) as [Hk Hc]. rewrite Hdur in Hc.
  apply wp_bind. eapply wp_mono; [apply (BlockAlloc.ba_load_ok (allocator s)); cbn [dev pages]| |].
  - done.
  - apply (BlockAlloc.ba_layout_ok_kind _ d); [apply Hi|done].
  - apply Hi.
  - by rewrite Hc.
  - intros a w (Hp' & Hk' & Hc' & _ & ->). cbn [dev pages] in *. apply wp_bind.
    eapply wp_mono; [apply (FileTable.ft_load_ok (file_table s))| |].
    + by rewrite Hp'.
    + apply (FileTable.ft_layout_ok_kind _ d); [apply Hi|by eapply same_kind_trans].
    + apply Hi.
    + by rewrite Hc', Hc.
    + intros t w' (_ & _ & Hc'' & _ & ->). apply wp_ret. split; [done|]. split; [done|]. congruence.
    + intros e w' (_ & _ & _ & He) Hr. apply He. by apply Hk', Hk.
  - intros e w (_ & _ & _ & He) Hr. cbn [dev] in *. apply He. by apply Hk.
Qed.

End ops.

(** ** Mounting ([main.rs], [init_storage]) *)
Section mount.
Context `{BlockDevice D}.

(** The allocator and the file table of the mounted file system, or [None]
    when [init_storage] gives up; any failure to load formats the device. *)
Definition init_storage (ns_block_count ns_block_size : Z)
    : st (hw D) NvmeError (option (BlockAlloc.BlockAllocator * FileTable)) :=
  r ← st_try BlockAlloc.load;
  match r with
  | inl alloc =>
      let sb_block_size := BlockAlloc.block_size alloc in
      let ft_lba := BlockAlloc.data_start_lba alloc ⊟ 1 in
      r ← st_try (FileTable.load ft_lba sb_block_size);
      match r with
      | inl ft => mret (Some (alloc, ft))
      | inr _ => mret None
      end
  | inr _ =>
      r ← st_try (BlockAlloc.format ns_block_count ns_block_size);
      match r with
      | inl alloc =>
          let ft_lba := BlockAlloc.data_start_lba alloc ⊟ 1 in
          mret (Some (alloc, FileTable.new ft_lba (BlockAlloc.block_size alloc)))
      | inr _ => mret None
      end
  end.
End mount.

Section mount_spec.
Context `{BlockDeviceSpec D}.

Lemma table_image_empty lba bs :
  4096 <= bs -> FileTable.image (FileTable.new lba bs) = replicate (Z.to_nat bs) 0.
Proof.
  intros Hbs. unfold FileTable.image, FileTable.table_image, FileTable.new. cbn [FileTable.entries FileTable.block_size].
  assert (forall n, concat (FileTable.entry_bytes <$> replicate n FileTable.empty) = replicate (96 * n) 0) as Hall.
  { induction n as [|n IH]; [done|]. cbn [replicate]. rewrite fmap_cons. cbn [concat]. rewrite IH.
    replace (96 * S n)%nat with (96 + 96 * n)%nat by lia. by rewrite replicate_add. }
  rewrite Hall, <- replicate_add, zlen_replicate. f_equal. unfold FileTable.MAX_ENTRIES. lia.
Qed.

(** A formatted device carries the empty file system. *)
Lemma fmt_inv d d0 total p :
  dev_ok d -> Phys.wf p -> total = dev_total_blocks d -> 2 <= total ->
  4096 <= dev_block_size d <= io_limit d -> dev_block_size d mod 8 = 0 ->
  zlen (contents d0) = zlen (contents d) -> dev_block_size d0 = dev_block_size d ->
  contents d = splice (contents d0) 0 (BlockAlloc.fmt_bytes total (dev_block_size d)) ->
  inv (mkVfs (Some d) p (BlockAlloc.fmt_alloc total (dev_block_size d))
    (FileTable.new (BlockAlloc.fmt_data_start total (dev_block_size d) - 1) (dev_block_size d))) d.
Proof.
  intros Hd Hp Htot Ht Hsz Hm Hz0 Hb0 Hc. pose proof (law_geometry _ Hd) as (Hg1 & Hg2 & _ & Hz & Hz2).
  rewrite <- Htot in Hz. set (bs := dev_block_size d) in *. assert (total * bs < 2 ^ 63) as Hov by lia.
  assert (4096 <= bs) as Hmin by lia.
  pose proof (BlockAlloc.fmt_bounds total bs Hmin Ht Hov) as (Hb & Ht2 & Hcap).
  destruct (BlockAlloc.fmt_on_disk total bs (contents d0)) as [Hon Hft]; [lia|done|done|lia|lia|].
  rewrite <- Hc in Hon, Hft. set (nb := BlockAlloc.fmt_bitmap_blocks total bs) in *.
  assert (BlockAlloc.fmt_data_start total bs - 1 = 1 + nb) as Hlba
    by (unfold BlockAlloc.fmt_data_start; fold nb; lia).
  constructor; cbn [nvme pool allocator file_table].
  - done.
  - done.
  - by apply BlockAlloc.fmt_alloc_wf.
  - apply FileTable.ft_new_wf.
  - unfold BlockAlloc.layout_ok. cbn [BlockAlloc.fmt_alloc BlockAlloc.block_size BlockAlloc.bitmap_start_lba
      BlockAlloc.bitmap_on_disk_blocks BlockAlloc.data_block_count]. fold nb bs.
    split; [done|]. split; [done|]. split; [done|]. split; [done|]. split; [done|]. split; [lia|].
    split; [|lia]. assert (bs = 8 * (bs / 8)) as Hb8 by lia. set (q := bs / 8) in *.
    assert (Z.max 0 (total - BlockAlloc.fmt_data_start total bs) <= 64 * (nb * q)) by nia. lia.
  - split; [done|]. split; [done|]. split; [done|]. cbn [FileTable.new FileTable.file_table_lba].
    rewrite Hlba, <- Htot. lia.
  - unfold data_start. cbn [allocator FileTable.new FileTable.file_table_lba BlockAlloc.fmt_alloc
      BlockAlloc.bitmap_start_lba BlockAlloc.bitmap_on_disk_blocks BlockAlloc.data_start_lba]. fold nb.
    rewrite Hlba. unfold BlockAlloc.fmt_data_start. fold nb. lia.
  - unfold data_start, data_blocks. cbn [allocator BlockAlloc.fmt_alloc BlockAlloc.data_start_lba BlockAlloc.data_block_count].
    rewrite <- Htot. unfold BlockAlloc.fmt_data_start. fold nb. lia.
  - apply Hon.
  - done.
  - intros _. unfold FileTable.on_disk, FileTable.region_off. cbn [FileTable.new FileTable.file_table_lba FileTable.block_size].
    rewrite Hlba, Hft. symmetry. by apply table_image_empty.
  - intros i e [He Hu]. apply lookup_replicate_1 in He as [-> _]. done.
  - intros i j e1 e2 [He Hu]. apply lookup_replicate_1 in He as [-> _]. done.
Qed.
End mount_spec.

(** ** The system: one VFS and the open handles, one per file *)
Section system.
Context `{BlockDeviceSpec D}.

Record sys := mkSys { fs : vfs D; handles : list HeavenFile }.

Definition sys_inv (x : sys) : Prop :=
  exists d, inv (fs x) d /\ Forall (handle_ok (fs x)) (handles x) /\
    NoDup (file_table_index <$> handles x).

Definition is_open (i : nat) (l : list HeavenFile) : Prop := i ∈ (file_table_index <$> l).

(** The requests the transfer sizes allow. *)
Definition request_ok (d : D) (bs n off : Z) : Prop :=
  0 < n /\ 0 <= off /\ off + n < 2 ^ 62 /\ n + 2 * bs <= io_limit d.

(** One call of a VFS method.  [read], [write], [truncate], [sync] and [close]
    are called with an open handle; a file that is open is not deleted, nor
    opened again. *)
Inductive step : sys -> sys -> Prop :=
| step_open name flags s l f s' :
    FileTable.name_ok name -> 16 * bsz s < 2 ^ 63 ->
    open name flags s = (Ok f, s') -> ~ is_open (file_table_index f) l ->
    step (mkSys s l) (mkSys s' (f :: l))
| step_open_err name flags s l e s' :
    FileTable.name_ok name -> 16 * bsz s < 2 ^ 63 ->
    open name flags s = (Err e, s') -> step (mkSys s l) (mkSys s' l)
| step_close s l1 f l2 s' :
    close f s = (Ok tt, s') -> step (mkSys s (l1 ++ f :: l2)) (mkSys s' (l1 ++ l2))
| step_read s d l f buf off r s' :
    nvme s = Some d -> f ∈ l -> request_ok d (bsz s) (zlen buf) off ->
    read f buf off s = (r, s') -> step (mkSys s l) (mkSys s' l)
| step_write s d l1 f l2 bytes off code f' s' :
    nvme s = Some d -> bytes_ok bytes -> request_ok d (bsz s) (zlen bytes) off ->
    write f bytes off s = (Ok (code, f'), s') ->
    step (mkSys s (l1 ++ f :: l2)) (mkSys s' (l1 ++ f' :: l2))
| step_write_err s d l1 f l2 bytes off e s' :
    nvme s = Some d -> bytes_ok bytes -> request_ok d (bsz s) (zlen bytes) off ->
    write f bytes off s = (Err e, s') ->
    step (mkSys s (l1 ++ f :: l2)) (mkSys s' (l1 ++ f :: l2))
| step_truncate s l1 f l2 size f' s' :
    0 <= size < 2 ^ 63 -> truncate f size s = (Ok f', s') ->
    step (mkSys s (l1 ++ f :: l2)) (mkSys s' (l1 ++ f' :: l2))
| step_sync s l f s' :
    f ∈ l -> sync f s = (Ok tt, s') -> step (mkSys s l) (mkSys s' l)
| step_delete s l name s' :
    (forall i e, FileTable.lookup (file_table s) name = Some (i, e) -> ~ is_open i l) ->
    delete name s = (Ok tt, s') -> step (mkSys s l) (mkSys s' l).

Lemma handle_untouched P (s s' : vfs D) d d' f :
  untouched P s d s' d' -> P (file_table_index f) -> handle_ok s f -> handle_ok s' f.
Proof.
  intros (Hds & Hbz & Hall) HP (e & He & H1 & H2 & H3 & H4). exists e.
  rewrite Hds, Hbz. split; [by apply Hall|done].
Qed.

Lemma handles_untouched P (s s' : vfs D) d d' l :
  untouched P s d s' d' -> (forall f, f ∈ l -> P (file_table_index f)) ->
  Forall (handle_ok s) l -> Forall (handle_ok s') l.
Proof.
  intros Hu HP. rewrite !Forall_forall. intros Hl f Hf. eapply handle_untouched; eauto.
Qed.

Lemma is_open_elem f l : f ∈ l -> is_open (file_table_index f) l.
Proof. intros Hf. unfold is_open. by apply list_elem_of_fmap_2. Qed.

(** Replacing the handle of one file by its successor. *)
Lemma replace_handle (s s' : vfs D) d d' l1 f f' l2 :
  Forall (handle_ok s) (l1 ++ f :: l2) -> NoDup (file_table_index <$> (l1 ++ f :: l2)) ->
  untouched (fun j => j <> file_table_index f) s d s' d' ->
  handle_ok s' f' -> file_table_index f' = file_table_index f ->
  Forall (handle_ok s') (l1 ++ f' :: l2) /\ NoDup (file_table_index <$> (l1 ++ f' :: l2)).
Proof.
  intros Hl Hnd Hu Hf' Hi. rewrite fmap_app, fmap_cons in *. rewrite Hi. split; [|done].
  apply Forall_app in Hl as [Hl1 Hl2]. apply Forall_cons in Hl2 as [_ Hl2].
  apply NoDup_app in Hnd as (Hn1 & Hn12 & Hn2). apply NoDup_cons in Hn2 as [Hn2 _].
  apply Forall_app. split; [|apply Forall_cons; split; [done|]].
  - eapply handles_untouched; [done| |done]. intros g Hg Heq. cbn beta in Heq.
    apply (Hn12 (file_table_index g)); [by apply is_open_elem|]. rewrite Heq. left.
  - eapply handles_untouched; [done| |done]. intros g Hg Heq. apply Hn2. rewrite <- Heq. by apply is_open_elem.
Qed.

Lemma remove_handle (s s' : vfs D) d d' l1 f l2 :
  Forall (handle_ok s) (l1 ++ f :: l2) -> NoDup (file_table_index <$> (l1 ++ f :: l2)) ->
  untouched (fun j => j <> file_table_index f) s d s' d' ->
  Forall (handle_ok s') (l1 ++ l2) /\ NoDup (file_table_index <$> (l1 ++ l2)).
Proof.
  intros Hl Hnd Hu. rewrite fmap_app, fmap_cons in Hnd. rewrite fmap_app.
  apply Forall_app in Hl as [Hl1 Hl2]. apply Forall_cons in Hl2 as [_ Hl2].
  apply NoDup_app in Hnd as (Hn1 & Hn12 & Hn2). apply NoDup_cons in Hn2 as [Hn2 Hn3]. split.
  - apply Forall_app. split.
    + eapply handles_untouched; [done| |done]. intros g Hg Heq. cbn beta in Heq.
      apply (Hn12 (file_table_index g)); [by apply is_open_elem|]. rewrite Heq. left.
    + eapply handles_untouched; [done| |done]. intros g Hg Heq. apply Hn2. rewrite <- Heq. by apply is_open_elem.
  - apply NoDup_app. split; [done|]. split; [|done]. intros j Hj Hj2. apply (Hn12 j Hj). by right.
Qed.

Lemma same_state_untouched (s s' : vfs D) d P :
  same_state s s' d -> untouched P s d s' d /\ (inv s d -> exists d', inv s' d').
Proof.
  intros Hs. split.
  - destruct Hs as (d' & -> & _ & Hc). split; [done|]. split; [done|]. intros j e _ He. done.
  - intros Hi. destruct (same_state_inv s s' d Hi Hs) as (d' & _ & Hi' & _). by exists d'.
Qed.

Lemma vfs_step_inv x x' : step x x' -> sys_inv x -> sys_inv x'.
Proof.
  intros Hstep (d & Hi & Hl & Hnd). unfold sys_inv.
  destruct Hstep as [name flags s l f s' Hn Hb Hop Hno|name flags s l e s' Hn Hb Hop|s l1 f l2 s' Hop
    |s d0 l f buf off r s' Hdv Hf (Hr1 & Hr2 & Hr3 & Hr4) Hop
    |s d0 l1 f l2 bytes off code f' s' Hdv Hby (Hr1 & Hr2 & Hr3 & Hr4) Hop
    |s d0 l1 f l2 bytes off e s' Hdv Hby (Hr1 & Hr2 & Hr3 & Hr4) Hop
    |s l1 f l2 size f' s' Hsz Hop|s l f s' Hf Hop|s l name s' Hno Hop]; cbn [fs handles] in *.
  - pose proof (wp_eq _ _ _ _ _ (open_ok s d name flags Hi Hn Hb) Hop) as (Hi' & _ & Hf & _ & Hu & _).
    exists d. split; [done|]. split.
    + apply Forall_cons. split; [done|]. eapply handles_untouched; [done| |done].
      intros g Hg Heq. apply Hno. rewrite <- Heq. by apply is_open_elem.
    + rewrite fmap_cons. apply NoDup_cons. by split.
  - pose proof (wp_eq _ _ _ _ _ (open_ok s d name flags Hi Hn Hb) Hop) as (Hi' & _ & Hu & _).
    exists d. split; [done|]. split; [|done]. by eapply handles_untouched.
  - assert (handle_ok s f) as Hf by (apply Forall_app in Hl as [_ Hl]; by apply Forall_cons in Hl as [? _]).
    pose proof (wp_eq _ _ _ _ _ (close_ok s d f Hi Hf) Hop) as ((Hi' & _ & Hu) & _).
    exists d. split; [done|]. by eapply remove_handle.
  - assert (d0 = d) as -> by (pose proof (inv_nvme _ _ Hi); congruence).
    assert (handle_ok s f) as Hfo by (rewrite Forall_forall in Hl; by apply Hl).
    assert (same_state s s' d) as Hss.
    { pose proof (wp_eq _ _ _ _ _ (read_ok s d f buf off Hi Hfo Hr1 Hr2 ltac:(lia) Hr4) Hop) as Hr.
      destruct r as [[c b]|e|]; [apply Hr|apply Hr|done]. }
    destruct (same_state_untouched s s' d (fun _ => True) Hss) as [Hu Hi'].
    destruct (Hi' Hi) as [d' Hi'']. exists d'. split; [done|]. split; [|done]. by eapply handles_untouched.
  - assert (d0 = d) as -> by (pose proof (inv_nvme _ _ Hi); congruence).
    assert (handle_ok s f) as Hf by (apply Forall_app in Hl as [_ Hl]; by apply Forall_cons in Hl as [? _]).
    pose proof (wp_eq _ _ _ _ _ (write_ok s d f bytes off Hi Hf Hr1 Hby Hr2 Hr3 Hr4) Hop) as
      (d' & (Hi' & _ & Hu) & Hf' & Hidx & _).
    exists d'. split; [done|]. by eapply replace_handle.
  - assert (d0 = d) as -> by (pose proof (inv_nvme _ _ Hi); congruence).
    assert (handle_ok s f) as Hf by (apply Forall_app in Hl as [_ Hl]; by apply Forall_cons in Hl as [? _]).
    pose proof (wp_eq _ _ _ _ _ (write_ok s d f bytes off Hi Hf Hr1 Hby Hr2 Hr3 Hr4) Hop) as
      (d' & Hi' & _ & Hu & _).
    exists d'. split; [done|]. split; [|done]. by eapply handles_untouched.
  - assert (handle_ok s f) as Hf by (apply Forall_app in Hl as [_ Hl]; by apply Forall_cons in Hl as [? _]).
    pose proof (wp_eq _ _ _ _ _ (truncate_ok s d f size Hi Hf Hsz) Hop) as
      ((Hi' & _ & Hu) & _ & Hf' & Hidx & _).
    exists d. split; [done|]. by eapply replace_handle.
  - assert (handle_ok s f) as Hfo by (rewrite Forall_forall in Hl; by apply Hl).
    pose proof (wp_eq _ _ _ _ _ (sync_ok s d f Hi Hfo) Hop) as
      (d' & Hi' & _ & _ & _ & Hu & (e & He & Het) & Hf' & _).
    exists d'. split; [done|]. split; [|done].
    rewrite Forall_forall in *. intros g Hg. specialize (Hl g Hg).
    destruct (decide (file_table_index g = file_table_index f)) as [Heq|Hne].
    + (* the same handle: one per file *)
      assert (g = f) as ->; [|done].
      apply list_elem_of_lookup in Hg as [i Hgi], Hf as [j Hfj].
      assert (i = j) as ->; [|congruence].
      eapply NoDup_lookup; [exact Hnd| |]; rewrite list_lookup_fmap; [by rewrite Hgi|].
      rewrite Hfj. cbn. by rewrite Heq.
    + destruct Hl as (y & Hy & H1 & H2 & H3 & H4). destruct Hu as (Hds & Hbz & Hall).
      change (data_start (set_table (file_table s) s')) with (data_start s') in Hds.
      change (bsz (set_table (file_table s) s')) with (bsz s') in Hbz.
      exists y. rewrite Hds, Hbz. split; [|done]. destruct Hy as [Hy Hyu]. split; [|done].
      rewrite Het. by rewrite list_lookup_insert_ne.
  - pose proof (wp_eq _ _ _ _ _ (vfs_delete_ok s d name Hi) Hop) as (Hi' & _ & _ & _ & _ & _ & Hm).
    exists d. split; [done|]. split; [|done].
    destruct (FileTable.lookup (file_table s) name) as [[i e]|]; [|by subst].
    destruct Hm as [Hu _]. eapply handles_untouched; [done| |done].
    intros g Hg Heq. apply (Hno i e eq_refl). rewrite <- Heq. by apply is_open_elem.
Qed.

Lemma vfs_rtc_inv x x' : rtc step x x' -> sys_inv x -> sys_inv x'.
Proof. induction 1; eauto using vfs_step_inv. Qed.
End system.

(** ** Properties *)
Section properties.
Context `{BlockDeviceSpec D}.
Implicit Types (s : vfs D) (d : D).

(** [xRead] returns the bytes of the file: for any request of [amount]
    bytes, the code and the whole buffer are those of [read_result] (the bytes
    that exist, zeros for the rest, a short-read code exactly when some are
    missing), whatever the alignment and the number of chunks; on an I/O error
    nothing has changed, and it never panics. *)
Theorem vfs_read_correct s d f buf off :
  inv s d -> handle_ok s f -> 0 < zlen buf -> 0 <= off -> off + zlen buf < 2 ^ 63 ->
  zlen buf + 2 * bsz s <= io_limit d ->
  wp (read f buf off)
    (fun r s' => same_state s s' d /\ r = read_result (file_bytes d f) (zlen buf) off)
    (fun _ s' => same_state s s' d) s.
Proof. apply read_ok. Qed.


(** C2.  [xSync] is durable: when it reports success, a power cycle loses
    nothing.  The device then still holds the file's bytes, and loading the
    allocator and the file table from it gives the state in memory, with the
    length of the synced file recorded. *)
Theorem vfs_sync_durable s d f p :
  inv s d -> handle_ok s f -> Phys.wf p ->
  wp (sync f)
    (fun _ s' => exists d', inv s' d' /\ durable d' = contents d' /\
       file_bytes (power_cycle d') f = file_bytes d f /\
       (exists e, FileTable.entries (file_table s') !! file_table_index f = Some e /\
          FileTable.byte_length e = byte_length f) /\
       wp (a ← BlockAlloc.load;
           t ← FileTable.load (FileTable.file_table_lba (file_table s')) (FileTable.block_size (file_table s'));
           mret (a, t))
         (fun '(a, t) _ => a = BlockAlloc.clean (allocator s') /\ t = FileTable.clean (file_table s'))
         (fun e _ => reliable d' -> e = OutOfMemory) (mkHw (power_cycle d') p))
    (fun code _ => code = SQLITE_IOERR_FSYNC) s.
Proof.
  intros Hi Hf Hp. eapply wp_mono; [by apply sync_ok| |done].
  intros _ s' (d' & Hi' & Hk & Hs & Hdur & _ & (e & He & Het) & Hf' & Hfb). exists d'.
  split; [done|]. split; [done|].
  destruct (law_power_cycle d' (inv_dev s' d' Hi')) as [_ Hpc].
  split; [unfold file_bytes in *; congruence|]. split.
  - exists (entry_set_length (byte_length f) e). split; [|done]. rewrite Het.
    apply list_lookup_insert_eq. by destruct (entry_of_inv s d _ e Hi He).
  - eapply wp_mono; [by apply recover_ok| |done]. intros [a t] w (H1 & H2 & _). by split.
Qed.

(** [xTruncate] cuts the file to its first [size] bytes (a larger size
    changes nothing), gives the blocks beyond back to the allocator and leaves
    every other file alone. *)
Theorem vfs_truncate_correct s d f size :
  inv s d -> handle_ok s f -> 0 <= size < 2 ^ 63 ->
  wp (truncate f size)
    (fun f' s' => step_ok s d (file_table_index f) s' d /\ handle_ok s' f' /\
       byte_length f' = Z.min size (byte_length f) /\
       file_bytes d f' = slice (file_bytes d f) 0 size)
    (fun _ _ => False) s.
Proof.
  intros Hi Hf Hs. eapply wp_mono; [by apply truncate_ok| |done].
  intros f' s' (H1 & _ & H2 & _ & _ & H3 & H4). by repeat (split; [done|]).
Qed.

(** [xDelete] removes exactly that name and releases exactly its blocks;
    deleting an unknown name changes nothing; it always reports success. *)
Theorem vfs_delete_correct s d name :
  inv s d ->
  wp (delete name)
    (fun _ s' => inv s' d /\ FileTable.lookup (file_table s') name = None /\
       (forall m, m <> name -> FileTable.lookup (file_table s') m = FileTable.lookup (file_table s) m) /\
       match FileTable.lookup (file_table s) name with
       | Some (i, e) => untouched (fun j => j <> i) s d s' d /\
           BlockAlloc.used_blocks (allocator s') = BlockAlloc.used_blocks (allocator s) ∖
             zrange (FileTable.start_block e) (FileTable.block_count e)
       | None => s' = s
       end)
    (fun _ _ => False) s.
Proof.
  intros Hi. eapply wp_mono; [by apply vfs_delete_ok| |done].
  intros _ s' (H1 & H2 & H3 & _ & _ & _ & H4). by repeat (split; [done|]).
Qed.

End properties.

(** A 40-block RAM disk, formatted, with the file "main.db" opened. *)
Definition disk0 : RamDisk.RamDisk := RamDisk.new 40 4096.
Definition disk : RamDisk.RamDisk :=
  RamDisk.mkRam (splice (RamDisk.rdata disk0) 0 (BlockAlloc.fmt_bytes 40 4096)) 4096 40 1.
Definition fresh : vfs RamDisk.RamDisk :=
  mkVfs (Some disk) Phys.demo (BlockAlloc.fmt_alloc 40 (dev_block_size disk))
    (FileTable.new (BlockAlloc.fmt_data_start 40 (dev_block_size disk) - 1) (dev_block_size disk)).
Definition opened : vfs RamDisk.RamDisk := snd (open FileTable.main_db 4 fresh).
Definition main_file : HeavenFile := mkFile 0 3 16 0 4096.

Lemma disk_ok : dev_ok disk /\ zlen (contents disk0) = zlen (contents disk).
Proof.
  pose proof (RamDisk.new_ok 40 4096 ltac:(lia) ltac:(lia) ltac:(lia)) as (_ & _ & Hb & Hz & _).
  change (RamDisk.total_blocks (RamDisk.new 40 4096) * RamDisk.block_size (RamDisk.new 40 4096)) with 163840 in Hz.
  assert (bytes_ok (BlockAlloc.fmt_bytes 40 4096)) as Hfb.
  { apply Forall_app_2; [apply Forall_app_2; [apply BlockAlloc.sb_bytes_ok|]|]; apply bytes_ok_replicate. }
  pose proof (BlockAlloc.zlen_fmt_bytes 40 4096 ltac:(lia) ltac:(lia) ltac:(lia)) as Hzf.
  change ((BlockAlloc.fmt_bitmap_blocks 40 4096 + 2) * 4096) with 12288 in Hzf.
  fold disk0 in Hb, Hz.
  assert (zlen (RamDisk.rdata disk) = 163840) as Hzd
    by (unfold disk; cbn [RamDisk.rdata]; rewrite zlen_splice, Hz by (rewrite ?Hzf, ?Hz; lia); lia).
  split; [|exact (eq_trans Hz (eq_sym Hzd))].
  change (RamDisk.ok disk). unfold RamDisk.ok. rewrite Hzd.
  split; [vm_compute; split; congruence|]. split; [vm_compute; congruence|].
  split; [exact (bytes_ok_splice _ _ _ Hb Hfb)|]. split; [vm_compute; reflexivity|lia].
Qed.

Lemma fresh_inv : inv fresh disk.
Proof.
  apply (fmt_inv disk disk0 40 Phys.demo); [apply disk_ok|exact Phys.demo_wf|exact eq_refl|lia|
    vm_compute; split; congruence|vm_compute; exact eq_refl|apply disk_ok|exact eq_refl|exact eq_refl].
Qed.

Lemma opened_ok : fst (open FileTable.main_db 4 fresh) = Ok main_file /\ inv opened disk /\ handle_ok opened main_file.
Proof.
  assert (fst (open FileTable.main_db 4 fresh) = Ok main_file) as Hf by (vm_compute; exact eq_refl).
  assert (16 * bsz fresh < 2 ^ 63) as Hb by (change (bsz fresh) with 4096; lia).
  pose proof (open_ok fresh disk FileTable.main_db 4 fresh_inv FileTable.main_db_ok Hb) as Hop.
  split; [exact Hf|]. unfold opened. unfold wp in Hop.
  destruct (open FileTable.main_db 4 fresh) as [r s'] eqn:Heq. cbn [fst snd] in *. subst r.
  destruct Hop as (H1 & _ & H2 & _). by split.
Qed.

Lemma opened_bsz : bsz opened = 4096.
Proof. vm_compute. exact eq_refl. Qed.

Lemma vfs_read_correct_witness :
  wp (read main_file (replicate 8 0) 0)
    (fun r s' => same_state opened s' disk /\ r = read_result (file_bytes disk main_file) 8 0)
    (fun _ s' => same_state opened s' disk) opened.
Proof.
  apply (vfs_read_correct opened disk main_file (replicate 8 0) 0);
    [apply opened_ok|apply opened_ok|reflexivity|lia|reflexivity|rewrite opened_bsz; vm_compute; congruence].
Defined.


Lemma vfs_sync_durable_witness :
  wp (sync main_file)
    (fun _ s' => exists d', inv s' d' /\ durable d' = contents d' /\
       file_bytes (power_cycle d') main_file = file_bytes disk main_file /\
       (exists e, FileTable.entries (file_table s') !! 0%nat = Some e /\
          FileTable.byte_length e = byte_length main_file) /\
       wp (a ← BlockAlloc.load;
           t ← FileTable.load (FileTable.file_table_lba (file_table s')) (FileTable.block_size (file_table s'));
           mret (a, t))
         (fun '(a, t) _ => a = BlockAlloc.clean (allocator s') /\ t = FileTable.clean (file_table s'))
         (fun e _ => reliable d' -> e = OutOfMemory) (mkHw (power_cycle d') Phys.demo))
    (fun code _ => code = SQLITE_IOERR_FSYNC) opened.
Proof.
  apply (vfs_sync_durable opened disk main_file Phys.demo); [apply opened_ok|apply opened_ok|exact Phys.demo_wf].
Defined.

Lemma vfs_truncate_correct_witness :
  wp (truncate main_file 0)
    (fun f' s' => step_ok opened disk 0 s' disk /\ handle_ok s' f' /\
       byte_length f' = Z.min 0 (byte_length main_file) /\
       file_bytes disk f' = slice (file_bytes disk main_file) 0 0)
    (fun _ _ => False) opened.
Proof. apply (vfs_truncate_correct opened disk main_file 0); [apply opened_ok|apply opened_ok|lia]. Defined.

Lemma vfs_delete_correct_witness :
  wp (delete FileTable.main_db)
    (fun _ s' => inv s' disk /\ FileTable.lookup (file_table s') FileTable.main_db = None /\
       (forall m, m <> FileTable.main_db ->
          FileTable.lookup (file_table s') m = FileTable.lookup (file_table opened) m) /\
       match FileTable.lookup (file_table opened) FileTable.main_db with
       | Some (i, e) => untouched (fun j => j <> i) opened disk s' disk /\
           BlockAlloc.used_blocks (allocator s') = BlockAlloc.used_blocks (allocator opened) ∖
             zrange (FileTable.start_block e) (FileTable.block_count e)
       | None => s' = opened
       end)
    (fun _ _ => False) opened.
Proof. apply (vfs_delete_correct opened disk FileTable.main_db). apply opened_ok. Defined.


End VfsSpec.
