(* ===== verification/Mem.v ===== *)
(** * Byte-addressed memory

    The kernel's own data structures that live in raw memory (allocation
    headers, intrusive free lists, page tables, virtqueue rings) are read and
    written through pointers.  A memory is a finite map from addresses to
    bytes; a byte that was never written reads as 0. *)
From S2P Require Import Prelude.
From S2P Require Import Bytes.

Abbreviation mem := (gmap Z Z).

Definition load8 (m : mem) (a : Z) : Z := default 0 (m !! a).
Definition load (m : mem) (a n : Z) : list Z := load8 m <$> seqZ a n.
Fixpoint store (m : mem) (a : Z) (bs : list Z) : mem :=
  match bs with
  | [] => m
  | b :: bs' => store (<[a := b]> m) (a + 1) bs'
  end.

(** [u64]/[usize], [u32], [u16] and [u8] accesses through a pointer. *)
Definition load64 (m : mem) (a : Z) : Z := from_le (load m a 8).
Definition store64 (m : mem) (a v : Z) : mem := store m a (le_bytes 8 v).
Definition store8 (m : mem) (a v : Z) : mem := store m a [v].

(** [m'] agrees with [m] on the [n] bytes at [a]. *)
Definition same_at (m m' : mem) (a n : Z) : Prop :=
  forall x, a <= x < a + n -> load8 m' x = load8 m x.

(** [m'] differs from [m] at most on the [n] bytes at [a]. *)
Definition same_but (m m' : mem) (a n : Z) : Prop :=
  forall x, ~ (a <= x < a + n) -> load8 m' x = load8 m x.

Lemma load8_store m a bs x :
  load8 (store m a bs) x =
  if bool_decide (a <= x < a + zlen bs) then default 0 (bs !! Z.to_nat (x - a)) else load8 m x.
Proof.
  revert m a. induction bs as [|b bs IH]; intros m a; cbn [store].
  - rewrite bool_decide_eq_false_2; [done|]. unfold zlen. simpl. lia.
  - rewrite IH, zlen_cons. destruct (decide (x = a)) as [->|Hne].
    + rewrite bool_decide_eq_false_2 by lia. pose proof (zlen_nonneg bs).
      rewrite bool_decide_eq_true_2 by lia. unfold load8. rewrite lookup_insert_eq, Z.sub_diag. done.
    + destruct (bool_decide_reflect (a + 1 <= x < a + 1 + zlen bs)) as [Hin|Hout].
      * rewrite bool_decide_eq_true_2 by lia.
        replace (Z.to_nat (x - a)) with (S (Z.to_nat (x - (a + 1)))) by lia. done.
      * rewrite bool_decide_eq_false_2 by lia. unfold load8. by rewrite lookup_insert_ne.
Qed.

Lemma store_same_but m a bs : same_but m (store m a bs) a (zlen bs).
Proof. intros x Hx. rewrite load8_store. by rewrite bool_decide_eq_false_2. Qed.

Lemma zlen_load m a n : 0 <= n -> zlen (load m a n) = n.
Proof. intros. unfold zlen, load. rewrite length_fmap, length_seqZ. lia. Qed.

Lemma load_lookup m a n i : 0 <= i < n -> load m a n !! Z.to_nat i = Some (load8 m (a + i)).
Proof.
  intros. unfold load. rewrite list_lookup_fmap, lookup_seqZ_lt by lia. simpl. do 2 f_equal. lia.
Qed.

Lemma load_same m m' a n : same_at m m' a n -> load m' a n = load m a n.
Proof.
  intros Hs. unfold load. apply list_fmap_ext. intros i x Hx.
  apply Hs. apply elem_of_seqZ. by eapply list_elem_of_lookup_2.
Qed.

Lemma load_store m a bs n : n = zlen bs -> load (store m a bs) a n = bs.
Proof.
  intros ->. apply list_eq. intros i. destruct (decide (Z.of_nat i < zlen bs)) as [Hi|Hi].
  - replace i with (Z.to_nat (Z.of_nat i)) by lia. rewrite load_lookup by lia.
    rewrite load8_store, bool_decide_eq_true_2 by lia.
    replace (Z.to_nat (a + Z.of_nat i - a)) with (Z.to_nat (Z.of_nat i)) by lia.
    destruct (lookup_lt_is_Some_2 bs (Z.to_nat (Z.of_nat i))) as [b Hb]; [unfold zlen in *; lia|].
    by rewrite Hb.
  - rewrite !lookup_ge_None_2; [done|unfold zlen in *; lia|].
    pose proof (zlen_load (store m a bs) a (zlen bs) (zlen_nonneg bs)). unfold zlen in *. lia.
Qed.

Lemma load_ok m a n : (forall x, is_u8 (load8 m x)) -> bytes_ok (load m a n).
Proof. intros Hm. apply Forall_fmap, Forall_true. intros x. apply Hm. Qed.

Lemma load64_same m m' a : same_at m m' a 8 -> load64 m' a = load64 m a.
Proof. intros Hs. unfold load64. by rewrite (load_same _ _ _ _ Hs). Qed.

Lemma load64_store64 m a v : is_u64 v -> load64 (store64 m a v) a = v.
Proof.
  intros Hv. unfold load64, store64. rewrite load_store by (by rewrite zlen_le_bytes).
  apply from_le_bytes_id. unfold is_u64 in Hv. change (256 ^ Z.of_nat 8) with (2 ^ 64). lia.
Qed.

Lemma store64_same_but m a v : same_but m (store64 m a v) a 8.
Proof. unfold store64. intros x Hx. apply store_same_but. by rewrite zlen_le_bytes. Qed.

Lemma load8_store8 m a v : load8 (store8 m a v) a = v.
Proof. unfold store8, load8. simpl. by rewrite lookup_insert_eq. Qed.

Lemma store8_same_but m a v : same_but m (store8 m a v) a 1.
Proof. apply (store_same_but m a [v]). Qed.

Lemma same_but_at m m' a n b k :
  same_but m m' a n -> b + k <= a \/ a + n <= b -> same_at m m' b k.
Proof. intros Hs Hd x Hx. apply Hs. lia. Qed.

Lemma same_but_trans m1 m2 m3 a n :
  same_but m1 m2 a n -> same_but m2 m3 a n -> same_but m1 m3 a n.
Proof. intros H1 H2 x Hx. by rewrite H2, H1. Qed.

Lemma same_but_mono m m' a n b k :
  same_but m m' a n -> b <= a -> a + n <= b + k -> same_but m m' b k.
Proof. intros Hs ?? x Hx. apply Hs. lia. Qed.

Lemma same_at_mono m m' a n b k :
  same_at m m' a n -> a <= b -> b + k <= a + n -> same_at m m' b k.
Proof. intros Hs ?? x Hx. apply Hs. lia. Qed.

Lemma same_at_refl m a n : same_at m m a n.
Proof. by intros x _. Qed.

#[export] Hint Resolve same_at_refl : rust.
