(* ===== verification/Heap.v ===== *)
(** * Kernel heap ([mem/heap.rs])

    The slab allocator behind [GlobalAlloc] and SQLite's [xMalloc] family: ten
    intrusive free lists whose nodes and headers live in the pages taken from
    the physical allocator.  The model keeps the memory: headers and links are
    read and written at their addresses. *)
From S2P Require Import Prelude.
From S2P Require Import Bytes.
From S2P Require Import Bitmap.
From S2P Require Import Phys.
From S2P Require Import Mem.

Module Heap.

Definition HEADER_SIZE : Z := 16.
Definition LARGE_ALLOC : Z := 0xFF.
Definition SLAB_CLASSES : list Z := [8; 16; 32; 64; 128; 256; 512; 1024; 2048; 4096].

(** [head] is an address, 0 for the null pointer. *)
Record FreeList := mkList { head : Z; slab_size : Z }.
Record SlabInner := mkInner { free_lists : list FreeList; initialized : bool }.
Definition new : SlabInner := mkInner (replicate 10 (mkList 0 0)) false.

(** The allocator, the memory behind its pointers, and [PHYS_ALLOCATOR]. *)
Record heap := mkHeap { memory : mem; inner : SlabInner; pages : Phys.AllocatorInner }.

(** [AllocHeader]: [size] at offset 0, [class] at offset 8. *)
Definition header_size (m : mem) (header : Z) : Z := load64 m header.
Definition header_class (m : mem) (header : Z) : Z := load8 m (header + 8).
Definition write_header (m : mem) (header size class : Z) : mem :=
  store8 (store64 m header size) (header + 8) class.

Definition set_slab_size (n : Z) (l : FreeList) : FreeList := mkList (head l) n.
Definition set_head (h : Z) (l : FreeList) : FreeList := mkList h (slab_size l).

Definition ensure_init (i : SlabInner) : SlabInner :=
  if initialized i then i
  else mkInner (zip_with set_slab_size SLAB_CLASSES (free_lists i)) true.

Definition class_for_size (size : Z) : option nat :=
  fst <$> list_find (fun s => size <= s) SLAB_CLASSES.

Section ops.
(** [HHDM_OFFSET], set once at boot. *)
Variable hhdm_offset : Z.

Definition as_ptr (phys : Z) : Z := phys ⊞ hhdm_offset.

(** The body of the loop of [refill_class] on the memory and the list head. *)
Definition refill_entry (base entry_size size class i : Z) (acc : mem * Z) : mem * Z :=
  let '(m, h) := acc in
  let ptr := base + i * entry_size in
  let m := write_header m ptr size class in
  let usable := ptr + HEADER_SIZE in
  (store64 m usable h, usable).

Definition refill_class (class : nat) : st heap Empty_set bool := fun s =>
  match SLAB_CLASSES !! class, free_lists (inner s) !! class with
  | Some size, Some l =>
      let entry_size := size + HEADER_SIZE in
      let entries_per_page := Phys.PAGE_SIZE / entry_size in
      if entries_per_page =? 0 then (Ok false, s)
      else
        match Phys.alloc_page (pages s) with
        | (Ok phys, ps) =>
            let base := as_ptr phys in
            let '(m, h) := foldl (fun acc i => refill_entry base entry_size size (Z.of_nat class) i acc)
                             (memory s, head l) (seqZ 0 entries_per_page) in
            (Ok true, mkHeap m (mkInner (<[class := set_head h l]> (free_lists (inner s)))
                                  (initialized (inner s))) ps)
        | (Err _, ps) => (Ok false, mkHeap (memory s) (inner s) ps)
        | (Panic, ps) => (Panic, mkHeap (memory s) (inner s) ps)
        end
  | _, _ => (Panic, s)
  end.

(** Takes the first node of a free list; null when the list is empty. *)
Definition pop (class : nat) : st heap Empty_set Z := fun s =>
  match free_lists (inner s) !! class with
  | None => (Panic, s)
  | Some l =>
      if head l =? 0 then (Ok 0, s)
      else (Ok (head l),
            mkHeap (memory s)
              (mkInner (<[class := set_head (load64 (memory s) (head l)) l]> (free_lists (inner s)))
                 (initialized (inner s))) (pages s))
  end.

Definition alloc_large (size : Z) : st heap Empty_set Z := fun s =>
  let total := size ⊞ HEADER_SIZE in
  let n := ((total ⊞ Phys.PAGE_SIZE) ⊟ 1) / Phys.PAGE_SIZE in
  match Phys.alloc_pages_contiguous n 1 (pages s) with
  | (Ok phys, ps) =>
      let base := as_ptr phys in
      (Ok (base + HEADER_SIZE),
       mkHeap (write_header (memory s) base ((n ⊠ Phys.PAGE_SIZE) ⊟ HEADER_SIZE) LARGE_ALLOC)
         (inner s) ps)
  | (Err _, ps) => (Ok 0, mkHeap (memory s) (inner s) ps)
  | (Panic, ps) => (Panic, mkHeap (memory s) (inner s) ps)
  end.

(** [GlobalAlloc::alloc]; the result 0 is the null pointer. *)
Definition alloc (layout_size layout_align : Z) : st heap Empty_set Z :=
  let size := Z.max layout_size layout_align in
  s ← st_get;
  _ ← st_put (mkHeap (memory s) (ensure_init (inner s)) (pages s));
  match class_for_size size with
  | Some class =>
      s ← st_get;
      l ← st_lift (or_panic (free_lists (inner s) !! class));
      if head l =? 0 then
        ok ← refill_class class;
        if (ok : bool) then pop class else mret 0
      else pop class
  | None => alloc_large size
  end.

Definition dealloc (ptr : Z) : st heap Empty_set unit := fun s =>
  if ptr =? 0 then (Ok tt, s)
  else
    let header := ptr - HEADER_SIZE in
    if header_class (memory s) header =? LARGE_ALLOC then
      let total := header_size (memory s) header ⊞ HEADER_SIZE in
      let n := ((total ⊞ Phys.PAGE_SIZE) ⊟ 1) / Phys.PAGE_SIZE in
      match Phys.free_pages (header ⊟ hhdm_offset) n (pages s) with
      | Ok ps => (Ok tt, mkHeap (memory s) (inner s) ps)
      | _ => (Panic, s)
      end
    else
      let class := Z.to_nat (header_class (memory s) header) in
      match free_lists (inner s) !! class with
      | None => (Panic, s)
      | Some l =>
          (Ok tt, mkHeap (store64 (memory s) ptr (head l))
             (mkInner (<[class := set_head ptr l]> (free_lists (inner s))) (initialized (inner s)))
             (pages s))
      end.

(** [Layout::from_size_align(size, 8)]: an error when the size rounded up to
    the alignment exceeds [isize::MAX]. *)
Definition layout_ok (size : Z) : bool := size <=? 2 ^ 63 - 8.

Definition heavenos_malloc (size : Z) : st heap Empty_set Z :=
  if size =? 0 then mret 0
  else if layout_ok size then alloc size 8 else mret 0.

Definition heavenos_free (ptr : Z) : st heap Empty_set unit :=
  if ptr =? 0 then mret tt else dealloc ptr.

(** [ptr::copy_nonoverlapping(src, dst, n)]. *)
Definition copy_nonoverlapping (src dst n : Z) : st heap Empty_set unit := fun s =>
  (Ok tt, mkHeap (store (memory s) dst (load (memory s) src n)) (inner s) (pages s)).

Definition heavenos_realloc (ptr new_size : Z) : st heap Empty_set Z :=
  if ptr =? 0 then heavenos_malloc new_size
  else if new_size =? 0 then _ ← heavenos_free ptr; mret 0
  else
    s ← st_get;
    let old_size := header_size (memory s) (ptr - HEADER_SIZE) in
    if new_size <=? old_size then mret ptr
    else
      new_ptr ← heavenos_malloc new_size;
      if new_ptr =? 0 then mret 0
      else
        _ ← copy_nonoverlapping ptr new_ptr (Z.min old_size new_size);
        _ ← heavenos_free ptr;
        mret new_ptr.

Definition heavenos_malloc_size (ptr : Z) (s : heap) : Z :=
  if ptr =? 0 then 0 else header_size (memory s) (ptr - HEADER_SIZE).

End ops.

(** ** Abstract view and invariant *)

(** The usable size of the block at [p], read from its header. *)
Definition bsize (m : mem) (p : Z) : Z := header_size m (p - 16).
Definition bclass (m : mem) (p : Z) : Z := header_class m (p - 16).

(** A linked list through memory: [h] is the address of the first node, and
    the word at each node is the address of the next one. *)
Fixpoint chain (m : mem) (h : Z) (l : list Z) : Prop :=
  match l with
  | [] => h = 0
  | p :: l' => h = p /\ p <> 0 /\ chain m (load64 m p) l'
  end.

(** The blocks (header and usable bytes) at [p] and [q] do not overlap. *)
Definition apart (m : mem) (p q : Z) : Prop :=
  p + bsize m p <= q - 16 \/ q + bsize m q <= p - 16.

(** Header and usable bytes of every block of [B] are unchanged. *)
Definition blocks_same (m m' : mem) (B : Z -> Prop) : Prop :=
  forall q, B q -> same_at m m' (q - 16) (16 + bsize m q).

(** Headers of all blocks and links of the free ones are unchanged. *)
Definition meta_same (m m' : mem) (fr : list (list Z)) (live : gset Z) : Prop :=
  (forall q, q ∈ concat fr \/ q ∈ live -> same_at m m' (q - 16) 9) /\
  (forall q, q ∈ concat fr -> same_at m m' q 8).

(** *** Lists of free lists *)
Lemma concat_insert {A} (fr : list (list A)) c l :
  fr !! c = Some l -> exists rest, forall l', concat (<[c := l']> fr) ≡ₚ l' ++ rest.
Proof.
  intros Hl. exists (concat (take c fr) ++ concat (drop (S c) fr)). intros l'.
  rewrite insert_take_drop by (by eapply lookup_lt_Some).
  rewrite concat_app. cbn [concat]. rewrite !app_assoc. f_equiv. by rewrite Permutation_app_comm.
Qed.

Lemma concat_pop {A} (fr : list (list A)) c p l :
  fr !! c = Some (p :: l) -> concat fr ≡ₚ p :: concat (<[c := l]> fr).
Proof.
  intros Hl. destruct (concat_insert fr c (p :: l) Hl) as [rest Hrest].
  rewrite <- (list_insert_id fr c (p :: l) Hl) at 1. by rewrite !Hrest.
Qed.

Lemma concat_push {A} (fr : list (list A)) c p l :
  fr !! c = Some l -> concat (<[c := p :: l]> fr) ≡ₚ p :: concat fr.
Proof.
  intros Hl. destruct (concat_insert fr c l Hl) as [rest Hrest].
  rewrite <- (list_insert_id fr c l Hl) at 2. by rewrite !Hrest.
Qed.

(** *** Memory *)
Lemma bsize_same m m' q : same_at m m' (q - 16) 9 -> bsize m' q = bsize m q.
Proof.
  intros Hs. unfold bsize, header_size. apply load64_same. eapply same_at_mono; [exact Hs|lia..].
Qed.

Lemma bclass_same m m' q : same_at m m' (q - 16) 9 -> bclass m' q = bclass m q.
Proof. intros Hs. unfold bclass, header_class. apply Hs. lia. Qed.

Lemma chain_same m m' h l :
  (forall p, p ∈ l -> same_at m m' p 8) -> chain m h l -> chain m' h l.
Proof.
  revert h. induction l as [|p l IH]; intros h Hs; [done|]. simpl. intros (-> & Hp & Hc).
  split; [done|]. split; [done|]. rewrite (load64_same m m') by (apply Hs; left).
  apply IH; [|done]. intros q Hq. apply Hs. by right.
Qed.

Lemma write_header_same_but m p size class : same_but m (write_header m p size class) p 9.
Proof.
  unfold write_header. apply (same_but_trans _ (store64 m p size)).
  - eapply same_but_mono; [apply store64_same_but|lia..].
  - eapply same_but_mono; [apply store8_same_but|lia..].
Qed.

Lemma write_header_size m p size class :
  is_u64 size -> header_size (write_header m p size class) p = size.
Proof.
  intros Hs. unfold header_size, write_header.
  rewrite (load64_same (store64 m p size)).
  - by apply load64_store64.
  - eapply same_but_at; [apply store8_same_but|lia].
Qed.

Lemma write_header_class m p size class : header_class (write_header m p size class) p = class.
Proof. apply load8_store8. Qed.

Lemma slab_class_cases c size :
  SLAB_CLASSES !! c = Some size -> (c < 10)%nat /\ size = 2 ^ (Z.of_nat c + 3).
Proof.
  intros Hc. pose proof (lookup_lt_Some _ _ _ Hc) as Hlt. change (length SLAB_CLASSES) with 10%nat in Hlt.
  split; [done|]. do 10 (destruct c as [|c]; [injection Hc as <-; reflexivity|]). lia.
Qed.

Lemma slab_class_bound c size :
  SLAB_CLASSES !! c = Some size -> (c < 9)%nat -> 8 <= size <= 2048.
Proof.
  intros Hc Hlt. do 9 (destruct c as [|c]; [injection Hc as <-; lia|]). lia.
Qed.

Section spec.
Variable hhdm : Z.
Hypothesis hhdm_pos : 0 < hhdm.
Hypothesis hhdm_page : (4096 | hhdm).
Hypothesis hhdm_top : hhdm + Phys.MAX_PAGES * 4096 <= 2 ^ 64.

Definition npages (m : mem) (p : Z) : Z := (bsize m p + 16 + 4095) / 4096.
Definition first_page (p : Z) : Z := (p - 16 - hhdm) / 4096.

(** A block: its header describes a slab entry inside one page, or a whole
    run of pages, and the pages belong to the heap. *)
Definition block_ok (m : mem) (u : gset Z) (p : Z) : Prop :=
  hhdm <= p - 16 /\
  zrange (first_page p) (npages m p) ⊆ u /\
  (p - 16 - hhdm) mod 4096 + bsize m p + 16 <= npages m p * 4096 /\
  ((exists c : nat, (c < 9)%nat /\ bclass m p = Z.of_nat c /\ SLAB_CLASSES !! c = Some (bsize m p) /\
      ((16 | p) \/ c = O /\ (8 | p))) \/
   (bclass m p = 255 /\ (p - 16 - hhdm) mod 4096 = 0 /\ 4096 < bsize m p /\
      bsize m p + 16 = npages m p * 4096)).

(** [fr] lists the nodes of the ten free lists, [live] the blocks handed out. *)
Record inv (s : heap) (fr : list (list Z)) (live : gset Z) : Prop := {
  inv_phys : Phys.wf (pages s);
  inv_lists : length (free_lists (inner s)) = 10%nat;
  inv_fr : length fr = 10%nat;
  inv_chain : forall c l fl, fr !! c = Some l -> free_lists (inner s) !! c = Some fl ->
    chain (memory s) (head fl) l /\ Forall (fun p => bclass (memory s) p = Z.of_nat c) l;
  inv_nodup : NoDup (concat fr);
  inv_sep : forall p, p ∈ concat fr -> p ∉ live;
  inv_block : forall p, p ∈ concat fr \/ p ∈ live ->
    block_ok (memory s) (Phys.used_pages (pages s)) p;
  inv_apart : forall p q, p ∈ concat fr \/ p ∈ live -> q ∈ concat fr \/ q ∈ live ->
    p <> q -> apart (memory s) p q;
}.

(** *** Blocks *)
Lemma block_size_bound m u p : block_ok m u p -> 8 <= bsize m p.
Proof.
  intros (_ & _ & _ & [(c & Hc & _ & Hs & _)|(_ & _ & Hs & _)]); [|lia].
  apply slab_class_bound in Hs; lia.
Qed.

Lemma block_ok_same m m' u u' p :
  same_at m m' (p - 16) 9 -> (zrange (first_page p) (npages m p) ⊆ u -> zrange (first_page p) (npages m p) ⊆ u') ->
  block_ok m u p -> block_ok m' u' p.
Proof.
  intros Hs Hu. unfold block_ok, npages. rewrite (bsize_same m m'), (bclass_same m m') by done.
  intros (H1 & H2 & H3). split; [done|]. split; [by apply Hu|done].
Qed.

(** A page of a block meets the block's bytes. *)
Lemma block_page m u p j :
  block_ok m u p -> j ∈ zrange (first_page p) (npages m p) ->
  p - 16 < hhdm + (j + 1) * 4096 /\ hhdm + j * 4096 < p + bsize m p /\ j ∈ u.
Proof.
  intros (H1 & H2 & H3 & _) Hj. split_and!; [..|by apply H2]; rewrite elem_of_zrange in Hj;
    unfold npages, first_page in *; lia.
Qed.

Lemma block_bytes_page m u p x :
  block_ok m u p -> p - 16 <= x < p + bsize m p -> (x - hhdm) / 4096 ∈ u.
Proof.
  intros (H1 & H2 & H3 & _) Hx. apply H2. rewrite elem_of_zrange. unfold npages, first_page in *. lia.
Qed.

Lemma block_addr m ps p :
  block_ok m (Phys.used_pages ps) p -> 16 < p /\ p + bsize m p <= 2 ^ 64.
Proof.
  intros Hb. pose proof (block_size_bound _ _ _ Hb). destruct Hb as (H1 & H2 & H3 & _).
  assert (first_page p + npages m p - 1 ∈ Phys.used_pages ps) as Hu%elem_of_used.
  { apply H2, elem_of_zrange. unfold npages. lia. }
  split; [lia|]. unfold first_page in *. lia.
Qed.

Lemma inv_size_bound s fr live p : inv s fr live -> p ∈ concat fr \/ p ∈ live -> 8 <= bsize (memory s) p.
Proof. intros Hi Hp. eapply block_size_bound, inv_block; eauto. Qed.

(** Writes that spare the headers and the links, and page operations that
    spare the heap's pages, preserve the invariant. *)
Lemma frame s fr live m' ps' :
  inv s fr live -> meta_same (memory s) m' fr live -> Phys.wf ps' ->
  (forall p, p ∈ concat fr \/ p ∈ live ->
     zrange (first_page p) (npages (memory s) p) ⊆ Phys.used_pages (pages s) ->
     zrange (first_page p) (npages (memory s) p) ⊆ Phys.used_pages ps') ->
  inv (mkHeap m' (inner s) ps') fr live.
Proof.
  intros [] [Hh Hl] Hwf Hp. split; simpl; try done.
  - intros c l fl Hc Hfl. destruct (inv_chain0 c l fl Hc Hfl) as [Hch Hcl].
    assert (forall p, p ∈ l -> p ∈ concat fr) as Hin.
    { intros p Hpl. apply list_elem_of_In, in_concat. exists l.
      split; apply list_elem_of_In; [by eapply list_elem_of_lookup_2|done]. }
    split; [eapply chain_same; [|done]; eauto|].
    eapply Forall_impl; [apply Forall_and; split; [exact Hcl|apply Forall_forall; exact Hin]|].
    intros p [Hb Hpf]. simpl in Hb. rewrite (bclass_same (memory s)); eauto.
  - intros p Hpin. eapply block_ok_same; [by apply Hh|by apply Hp|by apply inv_block0].
  - intros p q Hpi Hqi Hne. unfold apart. rewrite (bsize_same (memory s) m' p), (bsize_same (memory s) m' q) by (by apply Hh). by apply inv_apart0.
Qed.

(** Memory that changes only outside every block. *)
Lemma meta_same_outside s fr live m' a n :
  inv s fr live -> same_but (memory s) m' a n ->
  (forall q, q ∈ concat fr \/ q ∈ live -> q + bsize (memory s) q <= a \/ a + n <= q - 16) ->
  meta_same (memory s) m' fr live.
Proof.
  intros Hi Hm Hq. split.
  - intros q Hin. eapply same_but_at; [exact Hm|]. specialize (Hq q Hin).
    pose proof (inv_size_bound s fr live q Hi Hin). lia.
  - intros q Hin. eapply same_but_at; [exact Hm|]. specialize (Hq q (or_introl Hin)).
    pose proof (inv_size_bound s fr live q Hi (or_introl Hin)). lia.
Qed.

(** Takes the first node of list [c]. *)
Definition set_list (c : nat) (h : Z) (s : heap) : SlabInner :=
  mkInner (alter (set_head h) c (free_lists (inner s))) (initialized (inner s)).

Lemma alter_insert {A} (f : A -> A) (l : list A) i x : l !! i = Some x -> alter f i l = <[i := f x]> l.
Proof.
  intros Hx. apply list_eq. intros j. destruct (decide (i = j)) as [<-|Hne].
  - rewrite list_lookup_alter_eq, Hx, list_lookup_insert_eq by (by eapply lookup_lt_Some). done.
  - by rewrite list_lookup_alter_ne, list_lookup_insert_ne.
Qed.

Lemma in_pop fr c p l q (live : gset Z) :
  fr !! c = Some (p :: l) ->
  (q ∈ concat (<[c := l]> fr) \/ q ∈ {[p]} ∪ live) <-> (q ∈ concat fr \/ q ∈ live).
Proof.
  intros Hc. rewrite (concat_pop fr c p l Hc), elem_of_cons, elem_of_union, elem_of_singleton. tauto.
Qed.

Lemma inv_pop s fr live c p l :
  inv s fr live -> fr !! c = Some (p :: l) ->
  (exists fl, free_lists (inner s) !! c = Some fl /\ head fl = p /\ p <> 0) /\
  inv (mkHeap (memory s) (set_list c (load64 (memory s) p) s) (pages s)) (<[c := l]> fr) ({[p]} ∪ live).
Proof.
  intros [] Hc.
  destruct (lookup_lt_is_Some_2 (free_lists (inner s)) c) as [fl Hfl].
  { rewrite inv_lists0. apply lookup_lt_Some in Hc. lia. }
  destruct (inv_chain0 c _ fl Hc Hfl) as [(Hhd & Hp0 & Hch) Hcl].
  split; [eauto|].
  assert (NoDup (p :: concat (<[c := l]> fr))) as [Hp Hnd]%NoDup_cons by (by rewrite <- concat_pop).
  split; simpl; try done.
  - by rewrite length_alter.
  - by rewrite length_insert.
  - intros c' l' fl' Hl' Hfl'. destruct (decide (c = c')) as [<-|Hne].
    + rewrite list_lookup_insert_eq in Hl' by (by eapply lookup_lt_Some). injection Hl' as <-.
      rewrite list_lookup_alter_eq, Hfl in Hfl'. injection Hfl' as <-. simpl.
      split; [done|]. by apply Forall_cons in Hcl as [_ ?].
    + rewrite list_lookup_insert_ne in Hl' by done. rewrite list_lookup_alter_ne in Hfl' by done. eauto.
  - intros q Hq. rewrite elem_of_union, elem_of_singleton. intros [->|Hlive]; [done|].
    eapply inv_sep0; [|done]. rewrite (concat_pop _ _ _ _ Hc). by right.
  - intros q Hq. apply inv_block0. by rewrite <- in_pop.
  - intros q r Hq Hr. apply inv_apart0; by rewrite <- in_pop.
Qed.

(** Links a block that is in no list and not live into list [c]. *)
Lemma inv_push s fr live c p l fl :
  inv s fr live -> fr !! c = Some l -> free_lists (inner s) !! c = Some fl ->
  block_ok (memory s) (Phys.used_pages (pages s)) p -> bclass (memory s) p = Z.of_nat c ->
  p ∉ concat fr -> p ∉ live ->
  (forall q, q ∈ concat fr \/ q ∈ live -> apart (memory s) p q) ->
  inv (mkHeap (store64 (memory s) p (head fl)) (set_list c p s) (pages s)) (<[c := p :: l]> fr) live.
Proof.
  intros Hi Hc Hfl Hb Hcl Hpf Hpl Hap.
  pose proof (block_size_bound _ _ _ Hb) as Hsz.
  assert (meta_same (memory s) (store64 (memory s) p (head fl)) fr live) as Hm.
  { eapply meta_same_outside; [done|apply store64_same_but|].
    intros q Hq. specialize (Hap q Hq). unfold apart in Hap. lia. }
  assert (same_at (memory s) (store64 (memory s) p (head fl)) (p - 16) 9) as Hps
    by (eapply same_but_at; [apply store64_same_but|lia]).
  pose proof (frame s fr live _ (pages s) Hi Hm (inv_phys _ _ _ Hi) ltac:(done)) as Hi'.
  assert (is_u64 (head fl)) as Hhd.
  { destruct (inv_chain _ _ _ Hi c l fl Hc Hfl) as [Hch Hall].
    destruct l as [|q l]; simpl in Hch; [rewrite Hch; done|]. destruct Hch as (-> & _).
    assert (q ∈ concat fr) as Hq.
    { apply list_elem_of_In, in_concat. exists (q :: l). split; [|by left].
      apply list_elem_of_In. by eapply list_elem_of_lookup_2. }
    pose proof (block_addr _ _ _ (inv_block _ _ _ Hi q (or_introl Hq))) as Hqs.
    pose proof (inv_size_bound _ _ _ q Hi (or_introl Hq)). unfold is_u64. lia. }
  assert (forall q, q ∈ concat (<[c := p :: l]> fr) \/ q ∈ live <-> q = p \/ q ∈ concat fr \/ q ∈ live) as Hin.
  { intros q. rewrite (concat_push _ _ _ _ Hc), elem_of_cons. tauto. }
  assert (forall q, q = p \/ q ∈ concat fr \/ q ∈ live ->
    bsize (store64 (memory s) p (head fl)) q = bsize (memory s) q) as Hbs.
  { intros q [->|Hq]; [by apply bsize_same|]. apply bsize_same. by apply Hm. }
  destruct Hi'. split; simpl in *; try done.
  - by rewrite length_alter.
  - by rewrite length_insert.
  - intros c' l' fl' Hl' Hfl'. destruct (decide (c = c')) as [<-|Hne].
    + rewrite list_lookup_insert_eq in Hl' by (by eapply lookup_lt_Some). injection Hl' as <-.
      rewrite list_lookup_alter_eq, Hfl in Hfl'. injection Hfl' as <-.
      destruct (inv_chain0 c l fl Hc Hfl) as [Hch Hall]. cbn [chain head set_head]. rewrite load64_store64 by done.
      split; [split; [done|]; split; [|done]|constructor; [|done]].
      * pose proof (block_addr _ _ _ Hb). lia.
      * by rewrite (bclass_same (memory s)).
    + rewrite list_lookup_insert_ne in Hl' by done. rewrite list_lookup_alter_ne in Hfl' by done. eauto.
  - rewrite (concat_push _ _ _ _ Hc). by constructor.
  - intros q Hq. rewrite (concat_push _ _ _ _ Hc), elem_of_cons in Hq.
    destruct Hq as [->|Hq]; [done|by apply inv_sep0].
  - intros q Hq. apply Hin in Hq as [->|Hq]; [|by apply inv_block0].
    by eapply block_ok_same.
  - intros q r Hq Hr Hne. apply Hin in Hq, Hr. unfold apart. rewrite !Hbs by done.
    destruct Hq as [->|Hq], Hr as [->|Hr]; [done|by apply Hap| |by apply (inv_apart _ _ _ Hi)].
    specialize (Hap q Hq). unfold apart in Hap. lia.
Qed.

(** *** Refilling a class *)
Lemma in_insert (fr : list (list Z)) c l l0 q :
  fr !! c = Some l0 -> q ∈ concat (<[c := l ++ l0]> fr) <-> q ∈ l \/ q ∈ concat fr.
Proof.
  intros Hc. destruct (concat_insert fr c l0 Hc) as [rest Hr].
  rewrite <- (list_insert_id fr c l0 Hc) at 2. rewrite !Hr, !elem_of_app. tauto.
Qed.

Lemma add_entry s fr live c l fl size ptr :
  inv s fr live -> fr !! c = Some l -> free_lists (inner s) !! c = Some fl ->
  (c < 9)%nat -> SLAB_CLASSES !! c = Some size -> hhdm <= ptr ->
  (ptr - hhdm) / 4096 ∈ Phys.used_pages (pages s) -> (ptr - hhdm) mod 4096 + 16 + size <= 4096 ->
  (16 | ptr + 16) \/ c = O /\ (8 | ptr + 16) ->
  (forall q, q ∈ concat fr \/ q ∈ live -> q + bsize (memory s) q <= ptr \/ ptr + 16 + size <= q - 16) ->
  inv (mkHeap (store64 (write_header (memory s) ptr size (Z.of_nat c)) (ptr + 16) (head fl))
         (set_list c (ptr + 16) s) (pages s)) (<[c := (ptr + 16) :: l]> fr) live.
Proof.
  intros Hi Hc Hfl Hc9 Hsz Hptr Hu Hfit Hal Hout.
  pose proof (slab_class_bound c size Hsz Hc9) as Hsb.
  set (m := write_header (memory s) ptr size (Z.of_nat c)).
  assert (inv (mkHeap m (inner s) (pages s)) fr live) as Hi1.
  { apply frame; [done| |by apply Hi|done].
    eapply meta_same_outside; [done|apply write_header_same_but|].
    intros q Hq. specialize (Hout q Hq). lia. }
  assert (bsize m (ptr + 16) = size) as Hbs.
  { unfold bsize. replace (ptr + 16 - 16) with ptr by lia. apply write_header_size. unfold is_u64; lia. }
  assert (bclass m (ptr + 16) = Z.of_nat c) as Hbc.
  { unfold bclass. replace (ptr + 16 - 16) with ptr by lia. apply write_header_class. }
  assert (block_ok m (Phys.used_pages (pages s)) (ptr + 16)) as Hb.
  { unfold block_ok, npages, first_page. rewrite Hbs, Hbc. replace (ptr + 16 - 16) with ptr by lia.
    split; [done|]. split; [|split; [lia|left; by exists c]].
    intros j Hj%elem_of_zrange. replace j with ((ptr - hhdm) / 4096) by lia. done. }
  assert (forall q, q ∈ concat fr \/ q ∈ live -> apart m (ptr + 16) q) as Hap.
  { intros q Hq. unfold apart. rewrite Hbs. rewrite (bsize_same (memory s)).
    - specialize (Hout q Hq). lia.
    - eapply same_but_at; [apply write_header_same_but|].
      specialize (Hout q Hq). pose proof (inv_size_bound s fr live q Hi Hq). lia. }
  assert (forall q, q ∈ concat fr \/ q ∈ live -> q <> ptr + 16) as Hne.
  { intros q Hq ->. specialize (Hout _ Hq). pose proof (inv_size_bound s fr live _ Hi Hq). lia. }
  apply (inv_push _ fr live c (ptr + 16) l fl Hi1); [done..| | |done].
  - intros Hq. by eapply Hne; [left|].
  - intros Hq. by eapply Hne; [right|].
Qed.

Lemma set_list_twice c h h' s m ps :
  set_list c h' (mkHeap m (set_list c h s) ps) = set_list c h' s.
Proof.
  unfold set_list. simpl. f_equal. rewrite list_alter_alter_eq. by apply list_alter_ext.
Qed.

Lemma slab_bsize s fr live c l p size :
  inv s fr live -> fr !! c = Some l -> p ∈ l -> SLAB_CLASSES !! c = Some size ->
  bsize (memory s) p = size.
Proof.
  intros Hi Hc Hp Hsz.
  destruct (lookup_lt_is_Some_2 (free_lists (inner s)) c) as [fl Hfl].
  { rewrite (inv_lists _ _ _ Hi). apply slab_class_cases in Hsz. lia. }
  destruct (inv_chain _ _ _ Hi c l fl Hc Hfl) as [_ Hall].
  eapply Forall_forall in Hall; [|exact Hp].
  assert (p ∈ concat fr) as Hin.
  { apply list_elem_of_In, in_concat. exists l.
    split; apply list_elem_of_In; [by eapply list_elem_of_lookup_2|done]. }
  destruct (inv_block _ _ _ Hi p (or_introl Hin)) as (_ & _ & _ & [(c' & _ & Hc' & Hs & _)|[Hc' _]]).
  - rewrite Hall in Hc'. apply Nat2Z.inj in Hc' as <-. congruence.
  - apply slab_class_cases in Hsz. lia.
Qed.

Lemma entry_aligned c size base j :
  SLAB_CLASSES !! c = Some size -> (c < 9)%nat -> (4096 | base) ->
  (16 | base + j * (size + 16) + 16) \/ c = O /\ (8 | base + j * (size + 16) + 16).
Proof.
  intros Hs Hc [b ->]. destruct c as [|c]; [right; split; [done|]; injection Hs as <-|left].
  - exists (512 * b + 3 * j + 2). lia.
  - apply slab_class_cases in Hs as [_ ->]. exists (256 * b + j * (2 ^ Z.of_nat c + 1) + 1).
    replace (Z.of_nat (S c) + 3) with (Z.of_nat c + 4) by lia. rewrite Z.pow_add_r by lia. nia.
Qed.

Lemma refill_loop s fr live c l0 fl size base (k : nat) :
  inv s fr live -> fr !! c = Some l0 -> free_lists (inner s) !! c = Some fl ->
  (c < 9)%nat -> SLAB_CLASSES !! c = Some size -> hhdm <= base -> (4096 | base) ->
  (base - hhdm) / 4096 ∈ Phys.used_pages (pages s) ->
  (forall q, q ∈ concat fr \/ q ∈ live -> q + bsize (memory s) q <= base \/ base + 4096 <= q - 16) ->
  Z.of_nat k * (size + 16) <= 4096 ->
  let r := foldl (fun acc i => refill_entry base (size + 16) size (Z.of_nat c) i acc)
             (memory s, head fl) (seqZ 0 (Z.of_nat k)) in
  exists l, length l = k /\
    Forall (fun p => exists j, 0 <= j < Z.of_nat k /\ p = base + j * (size + 16) + 16) l /\
    same_but (memory s) r.1 base 4096 /\
    inv (mkHeap r.1 (set_list c r.2 s) (pages s)) (<[c := l ++ l0]> fr) live.
Proof.
  intros Hi Hc Hfl Hc9 Hsz Hb Hal Hu Hout. pose proof (slab_class_bound c size Hsz Hc9) as Hsb.
  induction k as [|k IH]; intros Hk r; subst r.
  - exists []. change (seqZ 0 (Z.of_nat 0)) with (@nil Z). cbn [foldl fst snd app].
    split; [done|]. split; [done|]. split; [done|]. rewrite list_insert_id by done.
    replace (set_list c (head fl) s) with (inner s); [destruct s; exact Hi|].
    unfold set_list. rewrite (alter_insert _ _ _ fl Hfl), list_insert_id; [by destruct (inner s)|].
    unfold set_head. rewrite Hfl. f_equal. destruct fl; reflexivity.
  - destruct IH as (l & Hl & Hpos & Hsame & Hik); [lia|].
    replace (Z.of_nat (S k)) with (Z.of_nat k + 1) by lia.
    rewrite (seqZ_app 0 (Z.of_nat k) 1), foldl_app by lia.
    set (acc := foldl _ _ (seqZ 0 (Z.of_nat k))) in *. destruct acc as [m h]. cbn [fst snd] in *.
    rewrite seqZ_cons, (seqZ_nil _ (Z.pred 1)), Z.add_0_l by lia.
    cbn [foldl refill_entry fst snd]. change HEADER_SIZE with 16.
    set (ptr := base + Z.of_nat k * (size + 16)).
    assert (ptr + 16 + size <= base + 4096) as Hfit by lia.
    exists ((ptr + 16) :: l). split; [simpl; lia|]. split; [|split].
    + constructor; [exists (Z.of_nat k); lia|]. eapply Forall_impl; [exact Hpos|].
      intros p (j & Hj & ->). exists j. lia.
    + eapply (same_but_trans _ (write_header m ptr size (Z.of_nat c))).
      * eapply (same_but_trans _ m); [done|].
        eapply same_but_mono; [apply write_header_same_but|lia..].
      * eapply same_but_mono; [apply store64_same_but|lia..].
    + assert ((<[c := l ++ l0]> fr) !! c = Some (l ++ l0)) as Hc'
        by (apply list_lookup_insert_eq; by eapply lookup_lt_Some).
      pose proof (add_entry _ _ live c (l ++ l0) (set_head h fl) size ptr Hik Hc') as Hadd.
      cbn [memory pages] in Hadd. rewrite set_list_twice, list_insert_insert_eq in Hadd.
      apply Hadd; clear Hadd; [|done|done|lia| | | |].
      * unfold set_list. simpl. by rewrite list_lookup_alter_eq, Hfl.
      * destruct Hal as [b' ->], hhdm_page as [h' ->]. replace ((ptr - h' * 4096) / 4096) with ((b' * 4096 - h' * 4096) / 4096) by lia. done.
      * destruct Hal as [b' ->], hhdm_page as [h' ->]. lia.
      * by apply entry_aligned.
      * intros q Hq. assert ((q ∈ l) \/ (q ∈ concat fr \/ q ∈ live)) as [Hql|Hqo].
        { destruct Hq as [Hq|Hq]; [|by right; right]. apply (in_insert _ _ _ l0) in Hq; tauto. }
        -- left. assert (bsize m q = size) as ->.
           { eapply (slab_bsize _ _ _ c (l ++ l0) q size Hik Hc'); [|done]. apply elem_of_app. by left. }
           eapply Forall_forall in Hpos; [|exact Hql]. destruct Hpos as (j & Hj & ->). nia.
        -- rewrite (bsize_same (memory s) m q); [destruct (Hout q Hqo); lia|].
           eapply same_but_at; [exact Hsame|]. pose proof (inv_size_bound s fr live q Hi Hqo).
           destruct (Hout q Hqo); lia.
Qed.

(** *** Allocation *)

(** Headers and contents of the live blocks are unchanged. *)
Definition live_same (s s' : heap) (live : gset Z) : Prop :=
  forall q, q ∈ live -> same_at (memory s) (memory s') (q - 16) (16 + bsize (memory s) q).

(** Why an allocation of [size] bytes fails: the free list of its class is
    empty and cannot be refilled, or there is no run of pages. *)
Definition no_room (s : heap) (fr : list (list Z)) (size : Z) : Prop :=
  match class_for_size size with
  | Some c => fr !! c = Some [] /\ (c = 9%nat \/ forall q, ~ Phys.candidate_run (pages s) 1 1 q)
  | None => forall q, ~ Phys.candidate_run (pages s) ((size + 16 + 4095) / 4096) 1 q
  end.

(** What the caller gets: null and an unchanged heap, or a new block. *)
Definition allocated (s : heap) (fr : list (list Z)) (live : gset Z) (size align : Z)
    (p : Z) (s' : heap) : Prop :=
  if p =? 0 then
    no_room s fr size /\ memory s' = memory s /\ pages s' = pages s /\ inv s' fr live
  else
    (p ∉ live) /\ size <= bsize (memory s') p /\ (Z.min align 16 | p) /\
    (exists fr', inv s' fr' ({[p]} ∪ live)) /\ live_same s s' live.

Lemma inv_ensure s fr live :
  inv s fr live -> inv (mkHeap (memory s) (ensure_init (inner s)) (pages s)) fr live.
Proof.
  intros Hi. destruct s as [m i ps]. unfold ensure_init. cbn [memory inner pages]. destruct (initialized i) eqn:Hinit; [done|].
  destruct Hi. split; cbn [memory inner pages free_lists] in *; try done.
  - rewrite length_zip_with, inv_lists0. done.
  - intros c l fl Hc Hfl. apply lookup_zip_with_Some in Hfl as (n & fl0 & -> & _ & Hfl). exact (inv_chain0 c l fl0 Hc Hfl).
Qed.

Lemma inv_add_live s fr live p :
  inv s fr live -> block_ok (memory s) (Phys.used_pages (pages s)) p ->
  p ∉ concat fr -> (forall q, q ∈ concat fr \/ q ∈ live -> apart (memory s) p q) ->
  inv s fr ({[p]} ∪ live).
Proof.
  intros [] Hb Hp Hap. split; try done.
  - intros q Hq. rewrite elem_of_union, elem_of_singleton. intros [->|Hl]; [done|by eapply inv_sep0].
  - intros q. rewrite elem_of_union, elem_of_singleton. intros [Hq|[->|Hq]]; [eauto|done|eauto].
  - intros q r. rewrite !elem_of_union, !elem_of_singleton. intros Hq Hr Hne.
    assert (forall q, q ∈ concat fr \/ q = p \/ q ∈ live -> q = p \/ q ∈ concat fr \/ q ∈ live) as Hcase by tauto.
    apply Hcase in Hq, Hr. destruct Hq as [->|Hq], Hr as [->|Hr]; [done|by apply Hap| |by apply inv_apart0].
    specialize (Hap q Hq). unfold apart in *. lia.
Qed.

Lemma inv_remove_live s fr live p : inv s fr live -> inv s fr (live ∖ {[p]}).
Proof.
  intros []. assert (forall q, q ∈ concat fr \/ q ∈ live ∖ {[p]} -> q ∈ concat fr \/ q ∈ live) as Hin
    by (intros q; rewrite elem_of_difference; tauto).
  split; try done; eauto. intros q Hq [Hl _]%elem_of_difference. by eapply inv_sep0.
Qed.

(** Pages that are free hold no byte of a block. *)
Lemma fresh_apart s fr live p n q :
  inv s fr live -> 0 < n -> Phys.candidate_run (pages s) n 1 p -> q ∈ concat fr \/ q ∈ live ->
  q + bsize (memory s) q <= hhdm + p * 4096 \/ hhdm + (p + n) * 4096 <= q - 16.
Proof.
  intros Hi Hn (Hp & _ & Hend & Hfree) Hq. pose proof (inv_size_bound s fr live q Hi Hq).
  destruct (decide (q + bsize (memory s) q <= hhdm + p * 4096)) as [|H1]; [by left|].
  destruct (decide (hhdm + (p + n) * 4096 <= q - 16)) as [|H2]; [by right|]. exfalso.
  pose proof (block_bytes_page _ _ q (Z.max (q - 16) (hhdm + p * 4096)) (inv_block _ _ _ Hi q Hq) ltac:(lia))
    as [_ Hu]%elem_of_used.
  rewrite Hfree in Hu; [done|]. lia.
Qed.

Lemma class_for_size_some size c :
  class_for_size size = Some c -> exists n, SLAB_CLASSES !! c = Some n /\ size <= n.
Proof.
  unfold class_for_size. intros ([c' n] & Hf & ->)%fmap_Some. simpl.
  apply list_find_Some in Hf as (Hn & Hle & _). eauto.
Qed.

Lemma class_for_size_none size : class_for_size size = None -> 4096 < size.
Proof.
  unfold class_for_size. intros Hf%fmap_None%list_find_None.
  eapply Forall_forall in Hf; [|apply list_elem_of_In; do 9 right; by left]. simpl in Hf. lia.
Qed.

Lemma min_pow_divides k : 0 <= k -> (Z.min (2 ^ k) 16 | 16).
Proof.
  intros Hk. destruct (decide (k <= 4)).
  - rewrite Z.min_l by (change 16 with (2 ^ 4); apply Z.pow_le_mono_r; lia).
    exists (2 ^ (4 - k)). rewrite <- Z.pow_add_r by lia. by replace (4 - k + k) with 4 by lia.
  - rewrite Z.min_r; [done|]. change 16 with (2 ^ 4). apply Z.pow_le_mono_r; lia.
Qed.

Lemma block_aligned m u p k :
  block_ok m u p -> 0 <= k -> (bclass m p = 0 -> 2 ^ k <= 8) -> (Z.min (2 ^ k) 16 | p).
Proof.
  intros (H1 & _ & _ & Hcase) Hk Hsmall.
  assert ((16 | p) -> (Z.min (2 ^ k) 16 | p)) as Hdiv
    by (intros; etrans; [by apply min_pow_divides|done]).
  destruct Hcase as [(c & Hc & Hcl & _ & [H16|[-> H8]])|(_ & Hmod & _)].
  - by apply Hdiv.
  - etrans; [|exact H8]. specialize (Hsmall Hcl). rewrite Z.min_l by lia.
    assert (k <= 3) as Hk3.
    { destruct (decide (k <= 3)); [done|]. assert (2 ^ 4 <= 2 ^ k) by (apply Z.pow_le_mono_r; lia). lia. }
    exists (2 ^ (3 - k)). rewrite <- Z.pow_add_r by lia. by replace (3 - k + k) with 3 by lia.
  - apply Hdiv. destruct hhdm_page as [h ->]. exists ((p - 16 - h * 4096) / 4096 * 256 + h * 256 + 1). lia.
Qed.

Lemma pop_ok s fr live c p l size k :
  inv s fr live -> fr !! c = Some (p :: l) -> 0 <= k -> 2 ^ k <= size ->
  (exists n, SLAB_CLASSES !! c = Some n /\ size <= n) ->
  exists s', pop c s = (Ok p, s') /\ p <> 0 /\ p ∉ live /\ size <= bsize (memory s') p /\
    (Z.min (2 ^ k) 16 | p) /\ inv s' (<[c := l]> fr) ({[p]} ∪ live) /\ memory s' = memory s.
Proof.
  intros Hi Hc Hk Hks (n & Hn & Hle). destruct (inv_pop s fr live c p l Hi Hc) as [(fl & Hfl & Hh & Hp0) Hi'].
  assert (p ∈ concat fr) as Hin by (rewrite (concat_pop _ _ _ _ Hc); left).
  assert (bsize (memory s) p = n) as Hb by (eapply slab_bsize; [exact Hi|exact Hc|left|done]).
  exists (mkHeap (memory s) (set_list c (load64 (memory s) p) s) (pages s)).
  split; [|split; [done|split; [by apply (inv_sep _ _ _ Hi)|split; [simpl; lia|split; [|done]]]]].
  - unfold pop. rewrite Hfl, Hh. rewrite (proj2 (Z.eqb_neq p 0) Hp0).
    unfold set_list. by rewrite (alter_insert _ _ _ _ Hfl).
  - eapply block_aligned; [by apply (inv_block _ _ _ Hi); left|done|].
    intros Hcl. destruct (inv_chain _ _ _ Hi c _ fl Hc Hfl) as [_ Hall].
    apply Forall_cons in Hall as [Hpc _]. rewrite Hcl in Hpc. destruct c; [|lia]. injection Hn as <-. lia.
Qed.

Lemma refill_ok s fr live c :
  inv s fr live -> fr !! c = Some [] -> (c < 10)%nat ->
  (refill_class hhdm c s = (Ok false, s) /\ (c = 9%nat \/ forall q, ~ Phys.candidate_run (pages s) 1 1 q)) \/
  (exists s' p l, refill_class hhdm c s = (Ok true, s') /\ inv s' (<[c := p :: l]> fr) live /\ live_same s s' live).
Proof.
  intros Hi Hc Hc10. unfold refill_class.
  destruct (lookup_lt_is_Some_2 SLAB_CLASSES c Hc10) as [size Hsz].
  destruct (lookup_lt_is_Some_2 (free_lists (inner s)) c) as [fl Hfl]; [by rewrite (inv_lists _ _ _ Hi)|].
  rewrite Hsz, Hfl. change HEADER_SIZE with 16. change Phys.PAGE_SIZE with 4096.
  destruct (decide (c = 9%nat)) as [->|Hne].
  { injection Hsz as <-. left. split; [done|by left]. }
  pose proof (slab_class_bound c size Hsz ltac:(lia)) as Hsb.
  rewrite (proj2 (Z.eqb_neq (4096 / (size + 16)) 0)) by nia.
  unfold Phys.alloc_page.
  destruct (Phys.alloc_cases (pages s) 1 1 (inv_phys _ _ _ Hi)) as [(p & ps & -> & Hrun & _ & Hpost)|[-> Hnone]];
    [done..| |left; split; [by destruct s|by right]].
  right. destruct Hpost as (Hwf & Hu & _ & _).
  assert (0 <= p /\ p + 1 <= Phys.MAX_PAGES) as Hpb.
  { destruct Hrun as (? & _ & ? & _). destruct (inv_phys _ _ _ Hi) as [_ ?]. lia. }
  assert (as_ptr hhdm (p * 4096) = hhdm + p * 4096) as ->
    by (unfold as_ptr; rewrite wrap64_small; lia).
  set (base := hhdm + p * 4096). set (k := Z.to_nat (4096 / (size + 16))).
  assert (inv (mkHeap (memory s) (inner s) ps) fr live) as Hi1.
  { apply frame; [done|done|done|]. intros q _ Hq j Hj. rewrite Hu. apply elem_of_union_l, Hq, Hj. }
  pose proof (refill_loop _ fr live c [] fl size base k Hi1 Hc Hfl ltac:(lia) Hsz) as Hloop.
  destruct Hloop as (l & Hlen & _ & Hsame & Hinv); cbn [memory inner pages].
  - unfold base. lia.
  - apply Z.divide_add_r; [done|by apply Z.divide_factor_r].
  - replace ((base - hhdm) / 4096) with p by (unfold base; lia). rewrite Hu.
    apply elem_of_union_r, elem_of_zrange. lia.
  - intros q Hq. pose proof (fresh_apart s fr live p 1 q Hi ltac:(lia) Hrun Hq). unfold base. lia.
  - unfold k. rewrite Z2Nat.id by nia. rewrite Z.mul_comm. apply Z.mul_div_le. lia.
  - assert (k <> 0%nat) as Hk by (unfold k; nia). destruct l as [|q l]; [done|].
    cbn [memory inner pages] in *. unfold k in *. rewrite Z2Nat.id in * by nia.
    set (acc := foldl _ _ _) in *. destruct acc as [m h]. cbn [fst snd] in *.
    eexists _, q, l. split; [reflexivity|]. split.
    + unfold set_list in Hinv. simpl in Hinv. rewrite (alter_insert _ _ _ _ Hfl) in Hinv.
      by rewrite app_nil_r in Hinv.
    + intros r Hr. cbn [memory]. eapply same_but_at; [exact Hsame|].
      pose proof (fresh_apart s fr live p 1 r Hi ltac:(lia) Hrun (or_intror Hr)). unfold base. lia.
Qed.

Lemma alloc_slab_ok s0 s fr live c lsize k :
  inv s0 fr live -> memory s0 = memory s -> pages s0 = pages s -> 0 <= k ->
  class_for_size (Z.max lsize (2 ^ k)) = Some c ->
  wp (s ← st_get;
      l ← st_lift (or_panic (free_lists (inner s) !! c));
      if head l =? 0 then ok ← refill_class hhdm c; if (ok : bool) then pop c else mret 0
      else pop c)
    (allocated s fr live (Z.max lsize (2 ^ k)) (2 ^ k)) (fun _ _ => False) s0.
Proof.
  intros Hi Hm Hp Hk Hcls. destruct (class_for_size_some _ _ Hcls) as (n & Hn & Hle).
  destruct (slab_class_cases c n Hn) as [Hc10 _].
  destruct (lookup_lt_is_Some_2 (free_lists (inner s0)) c) as [fl Hfl]; [by rewrite (inv_lists _ _ _ Hi)|].
  destruct (lookup_lt_is_Some_2 fr c) as [l Hl]; [by rewrite (inv_fr _ _ _ Hi)|].
  destruct (inv_chain _ _ _ Hi c l fl Hl Hfl) as [Hch _].
  apply wp_bind. apply wp_get. apply wp_bind. eapply wp_lift; [by rewrite Hfl|].
  assert (2 ^ k <= Z.max lsize (2 ^ k)) as Hks by lia.
  destruct l as [|p l]; simpl in Hch.
  - rewrite Hch. simpl. apply wp_bind.
    destruct (refill_ok s0 fr live c Hi Hl Hc10) as [[Hr Hwhy]|(s1 & p & l & Hr & Hi1 & Hs1)];
      unfold wp at 1; rewrite Hr.
    + unfold wp, mret, st_ret, allocated. simpl. split_and!; try done. unfold no_room. by rewrite Hcls, <- Hp.
    + assert ((<[c := p :: l]> fr) !! c = Some (p :: l)) as Hl1
        by (apply list_lookup_insert_eq; by eapply lookup_lt_Some).
      destruct (pop_ok s1 _ live c p l _ k Hi1 Hl1 Hk Hks ltac:(eauto)) as (s' & Hpop & Hp0 & Hpl & Hsz & Hal & Hi' & Hm').
      unfold wp. rewrite Hpop. unfold allocated. rewrite (proj2 (Z.eqb_neq p 0) Hp0).
      split_and!; [done|done|done|eauto|]. intros q Hq. rewrite Hm', <- Hm. by apply Hs1.
  - destruct Hch as (-> & Hp0 & _). rewrite (proj2 (Z.eqb_neq p 0) Hp0).
    destruct (pop_ok s0 _ live c p l _ k Hi Hl Hk Hks ltac:(eauto)) as (s' & Hpop & _ & Hpl & Hsz & Hal & Hi' & Hm').
    unfold wp. rewrite Hpop. unfold allocated. rewrite (proj2 (Z.eqb_neq p 0) Hp0).
    split_and!; [done|done|done|eauto|]. intros q Hq. by rewrite Hm', Hm.
Qed.

Lemma alloc_large_ok s0 s fr live size k :
  inv s0 fr live -> memory s0 = memory s -> pages s0 = pages s -> 0 <= k -> 2 ^ k <= size ->
  size <= 2 ^ 63 -> class_for_size size = None ->
  wp (alloc_large hhdm size) (allocated s fr live size (2 ^ k)) (fun _ _ => False) s0.
Proof.
  intros Hi Hm Hp Hk Hks Hsz Hcls. pose proof (class_for_size_none _ Hcls) as Hbig.
  unfold wp, alloc_large. change HEADER_SIZE with 16. change Phys.PAGE_SIZE with 4096. unwrap.
  replace (size + 16 + 4096 - 1) with (size + 16 + 4095) by lia. set (n := (size + 16 + 4095) / 4096).
  assert (1 < n /\ n < 2 ^ 64) as Hn by (unfold n; lia).
  destruct (Phys.alloc_cases (pages s0) n 1 (inv_phys _ _ _ Hi)) as [(p & ps & -> & Hrun & _ & Hpost)|[-> Hnone]];
    [lia|done|done| |].
  2:{ unfold allocated. simpl. split_and!; try done; [|by destruct s0]. unfold no_room. rewrite Hcls, <- Hp. exact Hnone. }
  destruct Hpost as (Hwf & Hu & _ & _).
  assert (0 <= p /\ p + n <= Phys.MAX_PAGES) as Hpb.
  { destruct Hrun as (? & _ & ? & _). destruct (inv_phys _ _ _ Hi) as [_ ?]. lia. }
  assert (Phys.MAX_PAGES = 1048576) as HM by done.
  assert (as_ptr hhdm (p * 4096) = hhdm + p * 4096) as -> by (unfold as_ptr; rewrite wrap64_small; lia).
  set (base := hhdm + p * 4096). unwrap.
  set (m := write_header (memory s0) base (n * 4096 - 16) LARGE_ALLOC).
  assert (same_but (memory s0) m base 9) as Hsame by apply write_header_same_but.
  assert (forall q, q ∈ concat fr \/ q ∈ live -> q + bsize (memory s0) q <= base \/ base + n * 4096 <= q - 16) as Hout.
  { intros q Hq. pose proof (fresh_apart s0 fr live p n q Hi ltac:(lia) Hrun Hq). unfold base. lia. }
  assert (bsize m (base + 16) = n * 4096 - 16 /\ bclass m (base + 16) = 255) as [Hbs Hbc].
  { unfold bsize, bclass. replace (base + 16 - 16) with base by lia.
    split; [apply write_header_size; unfold is_u64; lia|apply write_header_class]. }
  assert (inv (mkHeap m (inner s0) ps) fr live) as Hi1.
  { apply frame; [done| |done|].
    - eapply meta_same_outside; [done|exact Hsame|]. intros q Hq. destruct (Hout q Hq); lia.
    - intros q _ Hq j Hj. rewrite Hu. apply elem_of_union_l, Hq, Hj. }
  assert (block_ok m (Phys.used_pages ps) (base + 16)) as Hb.
  { unfold block_ok, npages, first_page. rewrite Hbs, Hbc. replace (base + 16 - 16) with base by lia.
    split; [unfold base; lia|]. split; [|split; [unfold base; lia|right; unfold base; lia]].
    intros j Hj%elem_of_zrange. rewrite Hu. apply elem_of_union_r, elem_of_zrange. unfold base in Hj. lia. }
  assert (forall q, q ∈ concat fr \/ q ∈ live -> bsize m q = bsize (memory s0) q) as Hbq.
  { intros q Hq. apply bsize_same. eapply same_but_at; [exact Hsame|].
    pose proof (inv_size_bound s0 fr live q Hi Hq). destruct (Hout q Hq); lia. }
  assert (forall q, q ∈ concat fr \/ q ∈ live -> q <> base + 16) as Hne.
  { intros q Hq ->. pose proof (inv_size_bound s0 fr live _ Hi Hq). destruct (Hout _ Hq); lia. }
  unfold allocated. rewrite (proj2 (Z.eqb_neq (base + 16) 0)) by (unfold base; lia).
  split_and!.
  - intros Hin. by eapply Hne; [right|].
  - simpl. rewrite Hbs. unfold n. lia.
  - eapply block_aligned; [exact Hb|done|]. rewrite Hbc. done.
  - exists fr. apply inv_add_live; [exact Hi1|exact Hb|intros Hin; by eapply Hne; [left|]|].
    intros q Hq. unfold apart. cbn [memory]. rewrite Hbs, (Hbq q Hq). destruct (Hout q Hq); lia.
  - intros q Hq. cbn [memory]. rewrite <- Hm. eapply same_but_at; [exact Hsame|].
    pose proof (inv_size_bound s0 fr live q Hi (or_intror Hq)). destruct (Hout q (or_intror Hq)); lia.
Qed.

Lemma heap_alloc_ok s fr live lsize k :
  inv s fr live -> 0 <= k -> Z.max lsize (2 ^ k) <= 2 ^ 63 ->
  wp (alloc hhdm lsize (2 ^ k)) (allocated s fr live (Z.max lsize (2 ^ k)) (2 ^ k)) (fun _ _ => False) s.
Proof.
  intros Hi Hk Hmax. pose proof (inv_ensure s fr live Hi) as Hi0. unfold alloc. apply wp_bind. apply wp_get.
  apply wp_bind. apply wp_put. destruct (class_for_size (Z.max lsize (2 ^ k))) as [c|] eqn:Hc.
  - by apply alloc_slab_ok.
  - apply alloc_large_ok; try done. lia.
Qed.

(** *** Release and use *)
Lemma dealloc_ok s fr live p :
  inv s fr live -> p ∈ live ->
  exists s' fr', dealloc hhdm p s = (Ok tt, s') /\ inv s' fr' (live ∖ {[p]}) /\
    live_same s s' (live ∖ {[p]}) /\
    (forall c, bclass (memory s) p = Z.of_nat c -> (c < 9)%nat -> exists l, fr' !! c = Some (p :: l)).
Proof.
  intros Hi Hp. pose proof (inv_block _ _ _ Hi p (or_intror Hp)) as Hb.
  pose proof (inv_remove_live s fr live p Hi) as Hi0.
  pose proof (block_addr _ _ _ Hb) as Ha. pose proof (block_size_bound _ _ _ Hb) as Hs8.
  assert (forall q, q ∈ concat fr \/ q ∈ live ∖ {[p]} -> apart (memory s) p q) as Hap.
  { intros q Hq. apply (inv_apart _ _ _ Hi); [by right| |].
    - rewrite elem_of_difference in Hq. tauto.
    - intros ->. rewrite elem_of_difference, elem_of_singleton in Hq. destruct Hq as [Hq|[_ Hq]]; [|done].
      by eapply (inv_sep _ _ _ Hi). }
  unfold dealloc. rewrite (proj2 (Z.eqb_neq p 0)) by lia. change HEADER_SIZE with 16.
  change (header_class (memory s) (p - 16)) with (bclass (memory s) p).
  change (header_size (memory s) (p - 16)) with (bsize (memory s) p).
  pose proof Hb as (H1 & H2 & H3 & [(c & Hc & Hcl & _)|(Hcl & H4 & H5 & H6)]).
  - rewrite Hcl. rewrite (proj2 (Z.eqb_neq (Z.of_nat c) LARGE_ALLOC)) by (unfold LARGE_ALLOC; lia).
    rewrite Nat2Z.id.
    destruct (lookup_lt_is_Some_2 (free_lists (inner s)) c) as [fl Hfl]; [rewrite (inv_lists _ _ _ Hi); lia|].
    destruct (lookup_lt_is_Some_2 fr c) as [l Hl]; [rewrite (inv_fr _ _ _ Hi); lia|]. rewrite Hfl.
    exists (mkHeap (store64 (memory s) p (head fl)) (set_list c p s) (pages s)), (<[c := p :: l]> fr).
    split; [unfold set_list; by rewrite (alter_insert _ _ _ _ Hfl)|]. split; [|split].
    + apply inv_push; try done; [|rewrite elem_of_difference, elem_of_singleton; tauto].
      intros Hin. by apply (inv_sep _ _ _ Hi p Hin).
    + intros q Hq. cbn [memory]. eapply same_but_at; [apply store64_same_but|].
      specialize (Hap q (or_intror Hq)). unfold apart in Hap.
      pose proof (inv_size_bound _ _ _ q Hi0 (or_intror Hq)). lia.
    + intros c' Hc' _. assert (c' = c) as -> by lia. exists l. apply list_lookup_insert_eq. by eapply lookup_lt_Some.
  - rewrite Hcl. change (255 =? LARGE_ALLOC) with true. cbn [negb]. cbv iota.
    change Phys.PAGE_SIZE with 4096. unfold npages in *. set (n := (bsize (memory s) p + 16 + 4095) / 4096) in *.
    assert (first_page p + n - 1 ∈ Phys.used_pages (pages s)) as Hlast%elem_of_used
      by (apply H2, elem_of_zrange; unfold n; lia).
    assert (n <= 1048576) as Hn by (unfold first_page, Phys.MAX_PAGES in Hlast; lia).
    unwrap. replace ((bsize (memory s) p + 16 + 4096 - 1) / 4096) with n by (unfold n; f_equal; lia).
    destruct (Phys.free_pages_ok (pages s) (p - 16 - hhdm) n (inv_phys _ _ _ Hi)) as (ps & -> & Hwf & _ & Hu);
      [lia..|].
    exists (mkHeap (memory s) (inner s) ps), fr. split; [done|]. split; [|split].
    + apply frame; [exact Hi0|split; intros; apply same_at_refl|exact Hwf|].
      intros q Hq Hqu j Hj. rewrite Hu, elem_of_difference. split; [by apply Hqu|].
      rewrite elem_of_zrange. intros Hjp. specialize (Hap q Hq). unfold apart in Hap.
      pose proof (block_page _ _ q j (inv_block _ _ _ Hi0 q Hq) Hj). lia.
    + intros q _. apply same_at_refl.
    + intros c Hc' Hc9. lia.
Qed.

(** Writing the usable bytes of a live block. *)
Lemma write_live s fr live q m' n :
  inv s fr live -> q ∈ live -> same_but (memory s) m' q n -> n <= bsize (memory s) q ->
  inv (mkHeap m' (inner s) (pages s)) fr live /\
  (forall r, r ∈ live -> r <> q -> same_at (memory s) m' (r - 16) (16 + bsize (memory s) r)) /\
  bsize m' q = bsize (memory s) q.
Proof.
  intros Hi Hq Hm Hn.
  assert (forall r, r ∈ concat fr \/ r ∈ live -> r <> q ->
    same_at (memory s) m' (r - 16) (16 + bsize (memory s) r)) as Hother.
  { intros r Hr Hne. eapply same_but_at; [exact Hm|].
    pose proof (inv_apart _ _ _ Hi r q Hr (or_intror Hq) Hne) as Ha. unfold apart in Ha. lia. }
  assert (same_at (memory s) m' (q - 16) 9) as Hhq by (eapply same_but_at; [exact Hm|lia]).
  split; [|split; [intros; apply Hother; auto|by apply bsize_same]].
  apply frame; [exact Hi| |by apply Hi|done]. split.
  - intros r Hr. destruct (decide (r = q)) as [->|Hne]; [done|].
    pose proof (inv_size_bound s fr live r Hi Hr). eapply same_at_mono; [by apply Hother|lia..].
  - intros r Hr. assert (r <> q) as Hne by (intros ->; by eapply (inv_sep _ _ _ Hi)).
    pose proof (inv_size_bound s fr live r Hi (or_introl Hr)).
    eapply same_at_mono; [apply Hother; [by left|done]|lia..].
Qed.

Lemma live_same_trans s1 s2 s3 live live' :
  live_same s1 s2 live -> live_same s2 s3 live' -> live' ⊆ live ->
  (forall q, q ∈ live' -> 0 <= bsize (memory s1) q) -> live_same s1 s3 live'.
Proof.
  intros H1 H2 Hsub H0 q Hq x Hx. specialize (H1 q (Hsub q Hq)). rewrite <- (H1 x Hx).
  apply (H2 q Hq). rewrite (bsize_same (memory s1)); [done|].
  destruct (decide (9 <= 16 + bsize (memory s1) q)); [|specialize (H0 q Hq); lia].
  eapply same_at_mono; [exact H1|lia..].
Qed.

Lemma live_same_bsize s fr live s' q :
  inv s fr live -> live_same s s' live -> q ∈ live -> bsize (memory s') q = bsize (memory s) q.
Proof.
  intros Hi Hs Hq. apply bsize_same. pose proof (inv_size_bound s fr live q Hi (or_intror Hq)).
  eapply same_at_mono; [by apply Hs|lia..].
Qed.

(** [heavenos_malloc] of [size > 0] bytes. *)
Definition malloced (s : heap) (live : gset Z) (size p : Z) (s' : heap) : Prop :=
  (p = 0 /\ memory s' = memory s /\ pages s' = pages s /\ exists fr', inv s' fr' live) \/
  (p <> 0 /\ p ∉ live /\ size <= bsize (memory s') p /\ (8 | p) /\
   (exists fr', inv s' fr' ({[p]} ∪ live)) /\ live_same s s' live).

Lemma malloc_ok s fr live size :
  inv s fr live -> wp (heavenos_malloc hhdm size) (malloced s live size) (fun _ _ => False) s.
Proof.
  intros Hi. unfold heavenos_malloc.
  destruct (Z.eqb_spec size 0) as [->|Hne]; [apply wp_ret; left; eauto|].
  destruct (layout_ok size) eqn:Hl; [|apply wp_ret; left; eauto].
  apply Z.leb_le in Hl. eapply wp_mono; [apply (heap_alloc_ok s fr live size 3 Hi); lia| |done].
  intros p s' Ha. unfold allocated in Ha. destruct (Z.eqb_spec p 0) as [->|Hp0].
  - destruct Ha as (_ & ? & ? & ?). left. eauto.
  - destruct Ha as (H1 & H2 & H3 & H4 & H5). right. split_and!; try done. lia.
Qed.

(** [heavenos_realloc] of a live block to [size > 0] bytes: in place, moved
    with its contents, or refused with the old block intact. *)
Definition realloced (s : heap) (live : gset Z) (p size q : Z) (s' : heap) : Prop :=
  (q = p /\ s' = s /\ size <= bsize (memory s) p) \/
  (q = 0 /\ (exists fr', inv s' fr' live) /\ live_same s s' live) \/
  (q <> 0 /\ q ∉ live /\ size <= bsize (memory s') q /\ bsize (memory s) p < size /\
   load (memory s') q (bsize (memory s) p) = load (memory s) p (bsize (memory s) p) /\
   (exists fr', inv s' fr' ({[q]} ∪ live ∖ {[p]})) /\ live_same s s' (live ∖ {[p]})).

Lemma realloc_ok s fr live p size :
  inv s fr live -> p ∈ live -> 0 < size ->
  wp (heavenos_realloc hhdm p size) (realloced s live p size) (fun _ _ => False) s.
Proof.
  intros Hi Hp Hsz. unfold heavenos_realloc.
  pose proof (inv_block _ _ _ Hi p (or_intror Hp)) as Hb. pose proof (block_addr _ _ _ Hb).
  pose proof (block_size_bound _ _ _ Hb).
  rewrite (proj2 (Z.eqb_neq p 0)), (proj2 (Z.eqb_neq size 0)) by lia.
  apply wp_bind. apply wp_get. change HEADER_SIZE with 16.
  change (header_size (memory s) (p - 16)) with (bsize (memory s) p). set (n := bsize (memory s) p) in *.
  destruct (Z.leb_spec size n) as [Hle|Hgt]; [apply wp_ret; by left|].
  apply wp_bind. eapply wp_mono; [apply (malloc_ok s fr live size Hi)| |done]. intros q s1 Hm.
  destruct Hm as [(-> & Hmem & _ & Hi1)|(Hq0 & Hql & Hqs & _ & [fr1 Hi1] & Hs1)].
  { apply wp_ret. right; left. split; [done|]. split; [done|]. intros r _. rewrite Hmem. apply same_at_refl. }
  rewrite (proj2 (Z.eqb_neq q 0)) by done.
  rewrite Z.min_l by lia. apply wp_bind. unfold wp at 1, copy_nonoverlapping.
  set (m2 := store (memory s1) q (load (memory s1) p n)).
  assert (q ∈ {[q]} ∪ live) as Hqin by (apply elem_of_union_l; by apply elem_of_singleton).
  assert (p <> q) as Hpq by (by intros ->).
  assert (same_but (memory s1) m2 q n) as Hm2.
  { unfold m2. intros x Hx. apply store_same_but. by rewrite zlen_load by lia. }
  destruct (write_live s1 fr1 _ q m2 n Hi1 Hqin Hm2 ltac:(lia)) as (Hi2 & Hs2 & Hbq).
  assert (load (memory s1) p n = load (memory s) p n) as Hload.
  { apply load_same. eapply same_at_mono; [by apply Hs1|unfold n in *; lia..]. }
  destruct (dealloc_ok _ fr1 _ p Hi2 ltac:(by apply elem_of_union_r)) as (s3 & fr3 & Hd & Hi3 & Hs3 & _).
  apply wp_bind. unfold wp at 1, heavenos_free. rewrite (proj2 (Z.eqb_neq p 0)), Hd by lia.
  apply wp_ret. right; right. cbn [memory] in *.
  assert (({[q]} ∪ live) ∖ {[p]} = {[q]} ∪ live ∖ {[p]}) as Hset.
  { apply set_eq. intros r. rewrite !elem_of_difference, !elem_of_union, elem_of_difference, !elem_of_singleton.
    destruct (decide (r = q)) as [->|]; [|tauto]. split; [by left|split; [by left|done]]. }
  rewrite Hset in *.
  assert (same_at m2 (memory s3) (q - 16) (16 + bsize (memory s1) q)) as Hq3.
  { rewrite <- Hbq. apply Hs3. apply elem_of_union_l. by apply elem_of_singleton. }
  assert (bsize (memory s3) q = bsize (memory s1) q) as Hb3.
  { rewrite <- Hbq. apply bsize_same. eapply same_at_mono; [exact Hq3|lia..]. }
  split_and!; [done|done|lia|lia| |eauto|].
  - rewrite (load_same m2); [|eapply same_at_mono; [exact Hq3|lia..]].
    unfold m2. rewrite load_store; [done|]. by rewrite zlen_load by lia.
  - intros r Hr. assert (r ∈ live /\ r <> p) as [Hrl Hrp] by (rewrite elem_of_difference, elem_of_singleton in Hr; tauto).
    assert (r <> q) as Hrq by (by intros ->).
    pose proof (live_same_bsize s fr live s1 r Hi Hs1 Hrl) as Hbr.
    intros x Hx. rewrite <- (Hs1 r Hrl x Hx). rewrite <- Hbr in Hx.
    pose proof (Hs2 r ltac:(by apply elem_of_union_r) Hrq) as Hsr.
    rewrite <- (Hsr x Hx). apply (Hs3 r); [by apply elem_of_union_r|].
    cbn [memory]. rewrite (bsize_same (memory s1)); [done|].
    pose proof (inv_size_bound s fr live r Hi (or_intror Hrl)). eapply same_at_mono; [exact Hsr|lia..].
Qed.

(** A block that was just freed is the next one its class hands out. *)
Lemma malloc_head s fr live c p l size :
  inv s fr live -> fr !! c = Some (p :: l) -> size <> 0 -> class_for_size (Z.max size 8) = Some c ->
  fst (heavenos_malloc hhdm size s) = Ok p.
Proof.
  intros Hi Hc Hs0 Hcls. destruct (class_for_size_some _ _ Hcls) as (n & Hn & Hle).
  destruct (slab_class_cases c n Hn) as [Hc10 Hpow].
  assert (n <= 4096) as Hn4 by (rewrite Hpow; change 4096 with (2 ^ 12); apply Z.pow_le_mono_r; lia).
  unfold heavenos_malloc, layout_ok. rewrite (proj2 (Z.eqb_neq size 0) Hs0).
  rewrite (proj2 (Z.leb_le size (2 ^ 63 - 8))) by lia.
  pose proof (inv_ensure s fr live Hi) as Hi0.
  destruct (inv_pop _ fr live c p l Hi0 Hc) as [(fl & Hfl & Hh & Hp0) _]. cbn [memory inner pages] in *.
  unfold alloc, mbind, st_bind, st_get, st_put, st_lift. rewrite Hcls. cbn [inner]. rewrite Hfl. simpl.
  rewrite Hh, (proj2 (Z.eqb_neq p 0) Hp0). unfold pop. cbn [inner]. rewrite Hfl, Hh.
  by rewrite (proj2 (Z.eqb_neq p 0) Hp0).
Qed.

(** No block was ever cut for the 4096-byte class. *)
Lemma class9_empty s fr live : inv s fr live -> fr !! 9%nat = Some [].
Proof.
  intros Hi. destruct (lookup_lt_is_Some_2 fr 9) as [l Hl]; [rewrite (inv_fr _ _ _ Hi); lia|].
  destruct l as [|p l]; [done|]. exfalso.
  destruct (lookup_lt_is_Some_2 (free_lists (inner s)) 9) as [fl Hfl]; [rewrite (inv_lists _ _ _ Hi); lia|].
  destruct (inv_chain _ _ _ Hi _ _ fl Hl Hfl) as [_ [Hp _]%Forall_cons].
  assert (p ∈ concat fr) as Hin by (rewrite (concat_pop _ _ _ _ Hl); left).
  destruct (inv_block _ _ _ Hi p (or_introl Hin)) as (_ & _ & _ & [(c & Hc & Hcl & _)|[Hcl _]]); lia.
Qed.

Lemma class9_fails s fr live size :
  inv s fr live -> 2048 < size <= 4096 ->
  exists i, heavenos_malloc hhdm size s = (Ok 0, mkHeap (memory s) i (pages s)).
Proof.
  intros Hi Hs. unfold heavenos_malloc, layout_ok.
  rewrite (proj2 (Z.eqb_neq size 0)), (proj2 (Z.leb_le size (2 ^ 63 - 8))) by lia.
  assert (class_for_size (Z.max size 8) = Some 9%nat) as Hc.
  { rewrite Z.max_l by lia. unfold class_for_size. simpl. repeat (rewrite decide_False by lia). by rewrite decide_True by lia. }
  pose proof (inv_ensure s fr live Hi) as Hi0. pose proof (class9_empty _ _ _ Hi0) as Hfr.
  destruct (lookup_lt_is_Some_2 (free_lists (ensure_init (inner s))) 9) as [fl Hfl].
  { pose proof (inv_lists _ _ _ Hi0) as Hlen. cbn [inner] in Hlen. lia. }
  destruct (inv_chain _ _ _ Hi0 _ _ fl Hfr Hfl) as [Hch _]. simpl in Hch.
  unfold alloc, mbind, st_bind, st_get, st_put, st_lift. rewrite Hc. cbn [inner]. rewrite Hfl. simpl. rewrite Hch. simpl.
  destruct (refill_ok _ fr live 9 Hi0 Hfr ltac:(lia)) as [[-> _]|(s1 & p & l & Hr & Hi1 & _)]; [by eexists|].
  exfalso. pose proof (class9_empty _ _ _ Hi1) as H9.
  rewrite list_lookup_insert_eq in H9 by (rewrite (inv_fr _ _ _ Hi0); lia). done.
Qed.

Lemma init_inv m ps : Phys.wf ps -> inv (mkHeap m new ps) (replicate 10 []) ∅.
Proof.
  intros Hwf. assert (concat (replicate 10 (@nil Z)) = []) as Hnil by done.
  split; rewrite ?Hnil; try done.
  - intros c l fl [-> _]%lookup_replicate [-> _]%lookup_replicate. done.
  - by apply NoDup_nil.
  - intros p [Hp|Hp]; [by apply not_elem_of_nil in Hp|done].
  - intros p q [Hp|Hp]; [by apply not_elem_of_nil in Hp|done].
Qed.

(** What the kernel and SQLite do with the heap: the blocks they hold are
    [live].  [step_pages] is another client of the page pool. *)
Inductive step : heap * gset Z -> heap * gset Z -> Prop :=
| step_alloc size k s live p s' :
    0 <= k -> Z.max size (2 ^ k) <= 2 ^ 63 -> alloc hhdm size (2 ^ k) s = (Ok p, s') ->
    step (s, live) (s', if p =? 0 then live else {[p]} ∪ live)
| step_malloc size s live p s' :
    heavenos_malloc hhdm size s = (Ok p, s') ->
    step (s, live) (s', if p =? 0 then live else {[p]} ∪ live)
| step_free p s live s' :
    p ∈ live -> heavenos_free hhdm p s = (Ok tt, s') -> step (s, live) (s', live ∖ {[p]})
| step_realloc p size s live q s' :
    p ∈ live -> 0 < size -> heavenos_realloc hhdm p size s = (Ok q, s') ->
    step (s, live) (s', if q =? 0 then live else {[q]} ∪ live ∖ {[p]})
| step_store p off bytes s live :
    p ∈ live -> 0 <= off -> off + zlen bytes <= heavenos_malloc_size p s ->
    step (s, live) (mkHeap (store (memory s) (p + off) bytes) (inner s) (pages s), live)
| step_pages n a s live addr ps :
    is_u64 n -> is_u64 a -> Phys.alloc_pages_contiguous n a (pages s) = (Ok addr, ps) ->
    step (s, live) (mkHeap (memory s) (inner s) ps, live).

Lemma heap_step_inv x y : step x y -> (exists fr, inv x.1 fr x.2) -> exists fr, inv y.1 fr y.2.
Proof.
  intros Hstep [fr Hi].
  destruct Hstep as [size k s live p s' Hk Hmax Ha|size s live p s' Ha|p s live s' Hp Ha|
    p size s live q s' Hp Hs Ha|p off bytes s live Hp Ho Hb|n a s live addr ps Hn Hal Ha]; simpl in *.
  - pose proof (wp_eq _ _ _ _ _ (heap_alloc_ok s fr live size k Hi Hk Hmax) Ha) as H. unfold allocated in H. simpl in H.
    destruct (p =? 0); [by destruct H as (_ & _ & _ & H); eauto|by destruct H as (_ & _ & _ & H & _)].
  - pose proof (wp_eq _ _ _ _ _ (malloc_ok s fr live size Hi) Ha) as H. simpl in H.
    destruct H as [(-> & _ & _ & H)|(Hp & _ & _ & _ & H & _)]; [done|]. by rewrite (proj2 (Z.eqb_neq p 0) Hp).
  - pose proof (block_addr _ _ _ (inv_block _ _ _ Hi p (or_intror Hp))) as Haddr.
    destruct (dealloc_ok s fr live p Hi Hp) as (s1 & fr1 & Hd & Hi1 & _).
    unfold heavenos_free in Ha. rewrite (proj2 (Z.eqb_neq p 0)), Hd in Ha by lia. injection Ha as <-. eauto.
  - pose proof (wp_eq _ _ _ _ _ (realloc_ok s fr live p size Hi Hp Hs) Ha) as H. simpl in H.
    pose proof (block_addr _ _ _ (inv_block _ _ _ Hi p (or_intror Hp))) as Haddr.
    destruct H as [(-> & -> & _)|[(-> & H & _)|(Hq & _ & _ & _ & _ & H & _)]]; [|done|].
    + rewrite (proj2 (Z.eqb_neq p 0)) by lia. exists fr.
      replace ({[p]} ∪ live ∖ {[p]}) with live; [done|].
      apply union_difference_L. by intros j ->%elem_of_singleton.
    + by rewrite (proj2 (Z.eqb_neq q 0) Hq).
  - pose proof (block_addr _ _ _ (inv_block _ _ _ Hi p (or_intror Hp))) as Haddr.
    unfold heavenos_malloc_size in Hb. rewrite (proj2 (Z.eqb_neq p 0)) in Hb by lia.
    change (header_size (memory s) (p - HEADER_SIZE)) with (bsize (memory s) p) in Hb.
    exists fr. eapply (write_live s fr live p _ (bsize (memory s) p)); [done|done| |lia].
    eapply same_but_mono; [apply store_same_but|lia..].
  - exists fr. apply frame; [done|split; intros; apply same_at_refl| |].
    + pose proof (Phys.alloc_spec_holds (pages s) n a (inv_phys _ _ _ Hi) Hn Hal) as Hsp.
      rewrite Ha in Hsp. by destruct Hsp as (? & _ & _ & _ & ? & _).
    + pose proof (Phys.alloc_spec_holds (pages s) n a (inv_phys _ _ _ Hi) Hn Hal) as Hsp.
      rewrite Ha in Hsp. destruct Hsp as (q & _ & _ & _ & _ & Hu & _). intros r _ Hr j Hj.
      rewrite Hu. apply elem_of_union_l, Hr, Hj.
Qed.

Lemma heap_rtc_inv x y : rtc step x y -> (exists fr, inv x.1 fr x.2) -> exists fr, inv y.1 fr y.2.
Proof. induction 1; eauto using heap_step_inv. Qed.

End spec.
(** ** Properties *)

(** The higher-half direct map: page aligned, and below the top of the
    address space for every page the allocator can track. *)
Definition hhdm_ok (hhdm : Z) : Prop :=
  0 < hhdm /\ (4096 | hhdm) /\ hhdm + Phys.MAX_PAGES * 4096 <= 2 ^ 64.

(** [GlobalAlloc::alloc] in any state of the invariant returns either a
    block that no live block overlaps, at least as large as requested and
    aligned to [min(align, 16)], with every live block's header and contents
    unchanged; or null, and then the heap is unchanged and the request could
    not be served: its free list was empty and no page (for the 4096-byte
    class: whether or not there is a page) could refill it, or no run of pages
    was long enough.  It never panics. *)
Theorem heap_alloc_correct hhdm s fr live size k :
  hhdm_ok hhdm -> inv hhdm s fr live -> 0 <= k -> Z.max size (2 ^ k) <= 2 ^ 63 ->
  wp (alloc hhdm size (2 ^ k)) (allocated hhdm s fr live (Z.max size (2 ^ k)) (2 ^ k)) (fun _ _ => False) s.
Proof. intros (H1 & H2 & H3). by apply heap_alloc_ok. Qed.

(** [heavenos_free] of a live block (SQLite's [xFree], no size given)
    never panics, leaves every other live block untouched, and makes the block
    reusable: for a slab block, the next [heavenos_malloc] of a size of the
    same class returns that very block. *)
Theorem heap_free_correct hhdm s fr live p :
  hhdm_ok hhdm -> inv hhdm s fr live -> p ∈ live ->
  wp (heavenos_free hhdm p)
    (fun _ s' => (exists fr', inv hhdm s' fr' (live ∖ {[p]})) /\ live_same s s' (live ∖ {[p]}) /\
       forall c size, bclass (memory s) p = Z.of_nat c -> (c < 9)%nat -> size <> 0 ->
         class_for_size (Z.max size 8) = Some c -> fst (heavenos_malloc hhdm size s') = Ok p)
    (fun _ _ => False) s.
Proof.
  intros (H1 & H2 & H3) Hi Hp. pose proof (block_addr _ H1 H2 H3 _ _ _ (inv_block _ _ _ _ Hi p (or_intror Hp))) as Ha.
  destruct (dealloc_ok _ H1 H2 H3 s fr live p Hi Hp) as (s' & fr' & Hd & Hi' & Hs & Hc).
  unfold wp, heavenos_free. rewrite (proj2 (Z.eqb_neq p 0)), Hd by lia. split; [eauto|]. split; [done|].
  intros c size Hcl Hc9 Hs0 Hcls. destruct (Hc c Hcl Hc9) as [l Hl]. by eapply malloc_head.
Qed.

(** [heavenos_realloc] of a live block keeps its contents: it returns the
    same block when the new size fits, a new large enough block holding the old
    bytes otherwise (the old block is released, all others are untouched), or
    null with the old block still live and unchanged. *)
Theorem heap_realloc_correct hhdm s fr live p size :
  hhdm_ok hhdm -> inv hhdm s fr live -> p ∈ live -> 0 < size ->
  wp (heavenos_realloc hhdm p size) (realloced hhdm s live p size) (fun _ _ => False) s.
Proof. intros (H1 & H2 & H3). by apply realloc_ok. Qed.

(** C6.  Whatever sequence of allocations, frees, reallocations and writes into
    live blocks is run from the empty heap, live blocks never overlap, each lies
    in pages the physical allocator holds as used, none is on a free list, and
    every free list is a well-formed chain of blocks of its class. *)
Theorem heap_reachable_disjoint hhdm m ps s live :
  hhdm_ok hhdm -> Phys.wf ps -> rtc (step hhdm) (mkHeap m new ps, ∅) (s, live) ->
  (exists fr, inv hhdm s fr live) /\
  (forall p q, p ∈ live -> q ∈ live -> p <> q ->
     p + heavenos_malloc_size p s <= q - 16 \/ q + heavenos_malloc_size q s <= p - 16) /\
  (forall p x, p ∈ live -> p - 16 <= x < p + heavenos_malloc_size p s ->
     (x - hhdm) / 4096 ∈ Phys.used_pages (pages s)).
Proof.
  intros (H1 & H2 & H3) Hwf Hr.
  destruct (heap_rtc_inv _ H1 H2 H3 _ _ Hr) as [fr Hi]; [exists (replicate 10 []); by apply init_inv|].
  simpl in Hi. assert (forall p, p ∈ live -> heavenos_malloc_size p s = bsize (memory s) p) as Hms.
  { intros p Hp. pose proof (block_addr _ H1 H2 H3 _ _ _ (inv_block _ _ _ _ Hi p (or_intror Hp))).
    unfold heavenos_malloc_size. by rewrite (proj2 (Z.eqb_neq p 0)) by lia. }
  split; [eauto|]. split.
  - intros p q Hp Hq Hne. rewrite !Hms by done. apply (inv_apart _ _ _ _ Hi); auto.
  - intros p x Hp. rewrite Hms by done. apply (block_bytes_page hhdm H2 (memory s)). apply (inv_block _ _ _ _ Hi); auto.
Qed.

(** Every request of 2049 to 4096 bytes fails, however much memory is
    free: an entry of the 4096-byte class (with its 16-byte header) does not fit
    in the page that [refill_class] would cut it from. *)
Theorem heap_page_class_fails hhdm s fr live size :
  hhdm_ok hhdm -> inv hhdm s fr live -> 2048 < size <= 4096 ->
  exists i, heavenos_malloc hhdm size s = (Ok 0, mkHeap (memory s) i (pages s)).
Proof. intros (H1 & H2 & H3). by apply class9_fails. Qed.

(** *** Witnesses *)
Definition demo_hhdm : Z := 0xffff800000000000.
Definition demo_heap : heap := mkHeap ∅ new Phys.demo.
(** A heap from which a 100-byte block was allocated. *)
Definition demo_alloc : out Empty_set Z * heap := heavenos_malloc demo_hhdm 100 demo_heap.
Definition demo_ptr : Z := match fst demo_alloc with Ok p => p | _ => 0 end.

Lemma demo_hhdm_ok : hhdm_ok demo_hhdm.
Proof. split; [done|]. split; [by exists (demo_hhdm / 4096)|done]. Qed.

Lemma demo_heap_inv : inv demo_hhdm demo_heap (replicate 10 []) ∅.
Proof. apply init_inv. exact Phys.demo_wf. Qed.

Lemma demo_ptr_eq : demo_ptr = demo_hhdm + 4096 + 27 * 144 + 16 /\ fst demo_alloc = Ok demo_ptr.
Proof. split; vm_compute; reflexivity. Qed.

Lemma demo_alloc_run : heavenos_malloc demo_hhdm 100 demo_heap = (Ok demo_ptr, snd demo_alloc).
Proof.
  pose proof (proj2 demo_ptr_eq) as H. unfold demo_alloc in *. rewrite <- H.
  generalize (heavenos_malloc demo_hhdm 100 demo_heap). intros [r s]. reflexivity.
Qed.
#[local] Opaque demo_alloc demo_ptr.

Lemma demo_alloc_inv : exists fr, inv demo_hhdm (snd demo_alloc) fr ({[demo_ptr]} ∪ ∅).
Proof.
  destruct demo_hhdm_ok as (H1 & H2 & H3).
  pose proof (malloc_ok _ H1 H2 H3 demo_heap _ ∅ 100 demo_heap_inv) as Hm.
  pose proof (wp_eq _ _ _ _ _ Hm demo_alloc_run) as H.
  destruct H as [(H & _)|(_ & _ & _ & _ & H & _)]; [|exact H].
  exfalso. clear Hm. rewrite (proj1 demo_ptr_eq) in H. unfold demo_hhdm in H. lia.
Qed.

Lemma heap_alloc_correct_witness :
  wp (alloc demo_hhdm 100 (2 ^ 3)) (allocated demo_hhdm demo_heap (replicate 10 []) ∅ (Z.max 100 (2 ^ 3)) (2 ^ 3))
    (fun _ _ => False) demo_heap.
Proof. apply (heap_alloc_correct demo_hhdm demo_heap (replicate 10 []) ∅ 100 3); [exact demo_hhdm_ok|exact demo_heap_inv|lia|lia]. Defined.

Lemma heap_free_correct_witness :
  wp (heavenos_free demo_hhdm demo_ptr)
    (fun _ s' => (exists fr', inv demo_hhdm s' fr' (({[demo_ptr]} ∪ ∅) ∖ {[demo_ptr]})) /\
       live_same (snd demo_alloc) s' (({[demo_ptr]} ∪ ∅) ∖ {[demo_ptr]}) /\
       forall c size, bclass (memory (snd demo_alloc)) demo_ptr = Z.of_nat c -> (c < 9)%nat -> size <> 0 ->
         class_for_size (Z.max size 8) = Some c -> fst (heavenos_malloc demo_hhdm size s') = Ok demo_ptr)
    (fun _ _ => False) (snd demo_alloc).
Proof.
  destruct demo_alloc_inv as [fr Hi].
  apply (heap_free_correct demo_hhdm (snd demo_alloc) fr ({[demo_ptr]} ∪ ∅) demo_ptr demo_hhdm_ok Hi).
  apply elem_of_union_l, elem_of_singleton. reflexivity.
Defined.

Lemma heap_realloc_correct_witness :
  wp (heavenos_realloc demo_hhdm demo_ptr 300) (realloced demo_hhdm (snd demo_alloc) ({[demo_ptr]} ∪ ∅) demo_ptr 300)
    (fun _ _ => False) (snd demo_alloc).
Proof.
  destruct demo_alloc_inv as [fr Hi].
  apply (heap_realloc_correct demo_hhdm (snd demo_alloc) fr ({[demo_ptr]} ∪ ∅) demo_ptr 300 demo_hhdm_ok Hi); [|lia].
  apply elem_of_union_l, elem_of_singleton. reflexivity.
Defined.

Lemma demo_step : step demo_hhdm (mkHeap ∅ new Phys.demo, ∅) (snd demo_alloc, {[demo_ptr]} ∪ ∅).
Proof.
  pose proof (step_malloc demo_hhdm 100 _ ∅ demo_ptr (snd demo_alloc) demo_alloc_run) as H.
  rewrite (proj2 (Z.eqb_neq demo_ptr 0)) in H by (rewrite (proj1 demo_ptr_eq); unfold demo_hhdm; lia).
  exact H.
Qed.

Lemma heap_reachable_disjoint_witness :
  rtc (step demo_hhdm) (mkHeap ∅ new Phys.demo, ∅) (snd demo_alloc, {[demo_ptr]} ∪ ∅) /\
  exists fr, inv demo_hhdm (snd demo_alloc) fr ({[demo_ptr]} ∪ ∅).
Proof.
  split; [exact (rtc_once _ _ demo_step)|].
  exact (proj1 (heap_reachable_disjoint demo_hhdm ∅ Phys.demo (snd demo_alloc) ({[demo_ptr]} ∪ ∅)
    demo_hhdm_ok Phys.demo_wf (rtc_once _ _ demo_step))).
Defined.

Lemma heap_page_class_fails_witness :
  exists i, heavenos_malloc demo_hhdm 4096 demo_heap = (Ok 0, mkHeap ∅ i Phys.demo).
Proof.
  apply (heap_page_class_fails demo_hhdm demo_heap (replicate 10 []) ∅ 4096 demo_hhdm_ok demo_heap_inv). lia.
Defined.

(** Alignments above 16 are not honoured: a 32-byte aligned request gets an
    address that is 16 modulo 32. *)
Lemma heap_align_32 :
  exists p, fst (alloc demo_hhdm 32 32 demo_heap) = Ok p /\ p mod 32 = 16.
Proof. eexists. split; vm_compute; reflexivity. Qed.

End Heap.
