(* ===== verification/Utf8.v ===== *)
(** * UTF-8

    A Rust [String] or [&str] is the list of its bytes.  [char_step] is the
    scanning step that the standard library uses for [str::from_utf8] and
    [String::from_utf8_lossy]; the source uses both. *)
From S2P Require Import Prelude.
From S2P Require Import Bytes.

Module Utf8.

(** [safe_get(xs, i)]: 0 past the end. *)
Definition byte_at (l : list Z) (i : nat) : Z := default 0 (l !! i).
Definition is_cont (b : Z) : bool := (0x80 <=? b) && (b <=? 0xBF).
Definition between (lo b hi : Z) : bool := (lo <=? b) && (b <=? hi).

(** The allowed second byte after a three- or four-byte lead. *)
Definition second_ok (lead b : Z) : bool :=
  if lead =? 0xE0 then between 0xA0 b 0xBF
  else if lead =? 0xED then between 0x80 b 0x9F
  else if lead =? 0xF0 then between 0x90 b 0xBF
  else if lead =? 0xF4 then between 0x80 b 0x8F
  else is_cont b.

(** One step at the first byte of [l]: whether a character starts there, and
    how many bytes are taken (the character, or the ill-formed sequence). *)
Definition char_step (l : list Z) : bool * nat :=
  let b0 := byte_at l 0 in let b1 := byte_at l 1 in
  let b2 := byte_at l 2 in let b3 := byte_at l 3 in
  if b0 <? 0x80 then (true, 1%nat)
  else if between 0xC2 b0 0xDF then
    if is_cont b1 then (true, 2%nat) else (false, 1%nat)
  else if between 0xE0 b0 0xEF then
    if second_ok b0 b1 then if is_cont b2 then (true, 3%nat) else (false, 2%nat) else (false, 1%nat)
  else if between 0xF0 b0 0xF4 then
    if second_ok b0 b1 then
      if is_cont b2 then if is_cont b3 then (true, 4%nat) else (false, 3%nat) else (false, 2%nat)
    else (false, 1%nat)
  else (false, 1%nat).

(** U+FFFD. *)
Definition REPLACEMENT : list Z := [0xEF; 0xBF; 0xBD].

Fixpoint lossy_loop (fuel : nat) (l : list Z) : list Z :=
  match fuel, l with
  | S fuel, _ :: _ =>
      let '(ok, n) := char_step l in
      (if ok then take n l else REPLACEMENT) ++ lossy_loop fuel (drop n l)
  | _, _ => []
  end.

(** [String::from_utf8_lossy]. *)
Definition from_utf8_lossy (l : list Z) : list Z := lossy_loop (length l) l.

Fixpoint valid_loop (fuel : nat) (l : list Z) : bool :=
  match fuel, l with
  | S fuel, _ :: _ => let '(ok, n) := char_step l in ok && valid_loop fuel (drop n l)
  | _, _ => true
  end.

(** [str::from_utf8(l).is_ok()]. *)
Definition is_utf8 (l : list Z) : bool := valid_loop (length l) l.

(** The bytes of a [str]. *)
Definition is_str (l : list Z) : Prop := Forall is_u8 l /\ is_utf8 l = true.

(** [s.is_char_boundary(i)], for the bytes of a [str]. *)
Definition is_char_boundary (l : list Z) (i : Z) : bool :=
  (i =? 0) || (i =? zlen l) || ((0 <? i) && (i <? zlen l) && negb (is_cont (byte_at l (Z.to_nat i)))).

(** ** Lemmas *)
Lemma char_step_pos l : (1 <= (char_step l).2 <= 4)%nat.
Proof. unfold char_step. repeat case_match; simpl; lia. Qed.

Lemma cont_lookup l i : is_cont (byte_at l i) = true -> (i < length l)%nat.
Proof.
  unfold is_cont, byte_at. intros H. destruct (decide (i < length l)%nat); [done|].
  by rewrite lookup_ge_None_2 in H by lia.
Qed.

Lemma second_lookup b l i : second_ok b (byte_at l i) = true -> (i < length l)%nat.
Proof.
  unfold second_ok. intros H. destruct (decide (i < length l)%nat) as [|Hge]; [done|].
  unfold byte_at in H. rewrite lookup_ge_None_2 in H by lia. simpl in H.
  by repeat case_match.
Qed.

Lemma char_step_length l : l <> [] -> ((char_step l).2 <= length l)%nat.
Proof.
  intros Hl. assert (1 <= length l)%nat by (destruct l; [done|simpl; lia]).
  unfold char_step. repeat case_match; simpl in *; try lia;
    repeat match goal with
    | H : is_cont (byte_at l _) = true |- _ => apply cont_lookup in H
    | H : second_ok _ (byte_at l _) = true |- _ => apply second_lookup in H
    end; lia.
Qed.

Lemma lossy_fuel f g l :
  (length l <= f)%nat -> (length l <= g)%nat -> lossy_loop f l = lossy_loop g l.
Proof.
  revert g l. induction f as [|f IH]; intros g l Hf Hg.
  - destruct l; [|simpl in Hf; lia]. by destruct g.
  - destruct l as [|b l]; [by destruct g|]. destruct g as [|g]; [simpl in Hg; lia|].
    cbn [lossy_loop]. pose proof (char_step_pos (b :: l)). destruct (char_step (b :: l)) as [ok n].
    f_equal. simpl in *. apply IH; rewrite length_drop; simpl; lia.
Qed.

Lemma valid_fuel f g l :
  (length l <= f)%nat -> (length l <= g)%nat -> valid_loop f l = valid_loop g l.
Proof.
  revert g l. induction f as [|f IH]; intros g l Hf Hg.
  - destruct l; [|simpl in Hf; lia]. by destruct g.
  - destruct l as [|b l]; [by destruct g|]. destruct g as [|g]; [simpl in Hg; lia|].
    cbn [valid_loop]. pose proof (char_step_pos (b :: l)). destruct (char_step (b :: l)) as [ok n].
    f_equal. simpl in *. apply IH; rewrite length_drop; simpl; lia.
Qed.

Lemma is_utf8_step b l :
  is_utf8 (b :: l) = let '(ok, n) := char_step (b :: l) in ok && is_utf8 (drop n (b :: l)).
Proof.
  unfold is_utf8. cbn [length valid_loop]. pose proof (char_step_pos (b :: l)).
  destruct (char_step (b :: l)) as [ok n]. f_equal. simpl in *.
  apply valid_fuel; rewrite length_drop; simpl; lia.
Qed.

Lemma lossy_step b l :
  from_utf8_lossy (b :: l) =
  let '(ok, n) := char_step (b :: l) in
  (if ok then take n (b :: l) else REPLACEMENT) ++ from_utf8_lossy (drop n (b :: l)).
Proof.
  unfold from_utf8_lossy. cbn [length lossy_loop]. pose proof (char_step_pos (b :: l)).
  destruct (char_step (b :: l)) as [ok n]. f_equal. simpl in *.
  apply lossy_fuel; rewrite length_drop; simpl; lia.
Qed.

(** Induction over the characters of a byte string. *)
Lemma utf8_ind (P : list Z -> Prop) :
  P [] -> (forall b l, P (drop (char_step (b :: l)).2 (b :: l)) -> P (b :: l)) -> forall l, P l.
Proof.
  intros H0 Hs l. remember (length l) as n eqn:Hn. revert l Hn.
  induction (lt_wf n) as [n _ IH]. intros [|b l] ->; [done|]. apply Hs.
  eapply IH; [|done]. rewrite length_drop. pose proof (char_step_pos (b :: l)). simpl. lia.
Qed.

Lemma lossy_valid_id l : is_utf8 l = true -> from_utf8_lossy l = l.
Proof.
  induction l as [|b l IH] using utf8_ind; [done|]. rewrite is_utf8_step, lossy_step.
  destruct (char_step (b :: l)) as [[] n]; [|done]. cbn [andb snd] in *. intros Hv.
  rewrite IH by done. apply take_drop.
Qed.

(** The step looks only at the bytes of the character it takes. *)
Lemma char_step_app l r n : l <> [] -> char_step l = (true, n) -> char_step (l ++ r) = (true, n).
Proof.
  intros Hl Hs. pose proof (char_step_length l Hl) as Hn. rewrite Hs in Hn. simpl in Hn.
  assert (forall i, (i < n)%nat -> byte_at (l ++ r) i = byte_at l i) as Hb.
  { intros i Hi. unfold byte_at. by rewrite lookup_app_l by lia. }
  unfold char_step in *.
  assert (1 <= length l)%nat as H1 by (destruct l; [done|simpl; lia]).
  assert (byte_at (l ++ r) 0 = byte_at l 0) as H0 by (unfold byte_at; by rewrite lookup_app_l by lia).
  rewrite H0. repeat case_match; simplify_eq; try done;
    rewrite !Hb in * by lia; congruence.
Qed.

Lemma is_utf8_app l r : is_utf8 l = true -> is_utf8 r = true -> is_utf8 (l ++ r) = true.
Proof.
  intros Hl Hr. induction l as [|b l IH] using utf8_ind; [done|].
  rewrite is_utf8_step in Hl. destruct (char_step (b :: l)) as [[] n] eqn:Hs; [|done]. simpl in Hl.
  pose proof (char_step_length (b :: l) ltac:(done)) as Hn. rewrite Hs in Hn. cbn [snd] in *.
  pose proof (char_step_app (b :: l) r n ltac:(done) Hs) as Hs'.
  change ((b :: l) ++ r) with (b :: (l ++ r)) in *. rewrite is_utf8_step, Hs'. simpl andb.
  change (b :: (l ++ r)) with ((b :: l) ++ r). rewrite drop_app_le by done. by apply IH.
Qed.

(** A character is a character on its own. *)
Lemma char_step_self l n : l <> [] -> char_step l = (true, n) ->
  char_step (take n l) = (true, n) /\ length (take n l) = n.
Proof.
  intros Hl Hs. pose proof (char_step_length l Hl) as Hn. pose proof (char_step_pos l) as Hp.
  rewrite Hs in Hn, Hp. simpl in Hn, Hp.
  assert (forall i, (i < n)%nat -> byte_at (take n l) i = byte_at l i) as Hb.
  { intros i Hi. unfold byte_at. by rewrite lookup_take_lt by lia. }
  split; [|rewrite length_take; lia]. unfold char_step in *. rewrite Hb by lia.
  repeat case_match; simplify_eq; try done; rewrite !Hb in * by lia; congruence.
Qed.

Lemma char_step_take l n : l <> [] -> char_step l = (true, n) -> is_utf8 (take n l) = true.
Proof.
  intros Hl Hs. destruct (char_step_self l n Hl Hs) as [Hs' Hlen].
  destruct (take n l) as [|b t] eqn:Ht; [done|]. rewrite is_utf8_step, Hs'. simpl.
  by rewrite drop_ge by (rewrite Hlen; lia).
Qed.

(** The replacement makes any byte string well formed. *)
Lemma lossy_is_utf8 l : is_utf8 (from_utf8_lossy l) = true.
Proof.
  induction l as [|b l IH] using utf8_ind; [done|]. rewrite lossy_step.
  destruct (char_step (b :: l)) as [[] n] eqn:Hs; cbn [snd] in *; apply is_utf8_app; try done.
  by apply char_step_take.
Qed.

Lemma is_utf8_ascii l : Forall (fun b => 0 <= b < 0x80) l -> is_utf8 l = true.
Proof.
  induction 1 as [|b l Hb Hl IH]; [done|]. rewrite is_utf8_step. unfold char_step, byte_at. simpl.
  rewrite (proj2 (Z.ltb_lt b 128)) by lia. simpl. by rewrite drop_0.
Qed.

(** A character is a lead byte and continuation bytes. *)
Lemma char_lead l n : char_step l = (true, n) -> is_cont (byte_at l 0) = false.
Proof.
  unfold char_step. cbv zeta. destruct (Z.ltb_spec (byte_at l 0) 0x80); [intros _; unfold is_cont; by rewrite (proj2 (Z.leb_gt 0x80 _))|].
  unfold is_cont, between. intros Hc. destruct (Z.leb_spec (byte_at l 0) 0xBF); [|by rewrite andb_false_r].
  rewrite !(proj2 (Z.leb_gt _ (byte_at l 0))) in Hc by lia. cbn in Hc. by repeat case_match.
Qed.

Lemma second_cont lead b : second_ok lead b = true -> is_cont b = true.
Proof.
  unfold second_ok, is_cont, between. intros H. repeat case_match; try done;
    apply andb_true_iff in H as [?%Z.leb_le ?%Z.leb_le]; apply andb_true_iff; split; apply Z.leb_le; lia.
Qed.

Lemma char_conts l n i : char_step l = (true, n) -> (1 <= i < n)%nat -> is_cont (byte_at l i) = true.
Proof.
  unfold char_step. cbv zeta. intros Hc Hi.
  repeat match type of Hc with
  | (if ?c then _ else _) = _ => let H := fresh in destruct c eqn:H
  end; try discriminate; injection Hc as <-;
  repeat match goal with H : second_ok _ _ = true |- _ => apply second_cont in H end;
  destruct i as [|[|[|[|i]]]]; (lia || done).
Qed.

Lemma is_utf8_split l i : is_utf8 l = true -> (i <= length l)%nat -> is_cont (byte_at l i) = false ->
  is_utf8 (take i l) = true /\ is_utf8 (drop i l) = true.
Proof.
  revert i. induction l as [|b l IH] using utf8_ind; intros i Hv Hi Hb.
  - by rewrite take_nil, drop_nil.
  - destruct (decide (i = 0%nat)) as [->|Hne]; [done|]. rewrite is_utf8_step in Hv.
    destruct (char_step (b :: l)) as [[] n] eqn:Hc; [|done]. cbn [andb snd] in Hv, IH.
    assert (n <= i)%nat as Hn.
    { destruct (le_lt_dec n i); [done|]. rewrite (char_conts (b :: l) n i) in Hb by (done || lia). done. }
    destruct (IH (i - n)%nat) as [Ht Hd].
    + done.
    + rewrite length_drop. lia.
    + unfold byte_at in *. rewrite lookup_drop. by replace (n + (i - n))%nat with i by lia.
    + rewrite drop_drop in Hd. replace (n + (i - n))%nat with i in Hd by lia. split; [|done].
      replace i with (n + (i - n))%nat by lia. rewrite <- take_take_drop. apply is_utf8_app; [|done].
      by apply char_step_take.
Qed.

(** An occurrence of a text in a text starts and ends between characters. *)
Lemma is_utf8_occurrence a o b : is_utf8 (a ++ o ++ b) = true -> is_utf8 o = true -> o <> [] ->
  is_utf8 a = true /\ is_utf8 b = true.
Proof.
  intros Hv Ho Hne.
  assert (is_cont (byte_at (a ++ o ++ b) (length a)) = false) as Hb.
  { destruct o as [|x o]; [done|]. pose proof (is_utf8_step x o) as Hs. rewrite Ho in Hs.
    destruct (char_step (x :: o)) as [[] n] eqn:Hc; [|done]. pose proof (char_lead _ _ Hc) as Hl.
    unfold byte_at in *. rewrite lookup_app_r, Nat.sub_diag by done. done. }
  destruct (is_utf8_split _ (length a) Hv ltac:(rewrite length_app; lia) Hb) as [Ha Hd].
  rewrite take_app_length in Ha. rewrite drop_app_length in Hd. split; [done|]. clear a Hv Hb Ha Hne. revert b Hd.
  induction o as [|x o IH] using utf8_ind; intros b Hd; [done|].
  pose proof (is_utf8_step x o) as Hs. rewrite Ho in Hs. destruct (char_step (x :: o)) as [[] n] eqn:Hc; [|done].
  cbn [andb] in Hs. cbn [snd] in IH. apply IH; [done|]. change ((x :: o) ++ b) with (x :: (o ++ b)) in Hd. rewrite is_utf8_step in Hd.
  change (x :: (o ++ b)) with ((x :: o) ++ b) in Hd. rewrite (char_step_app (x :: o) b n ltac:(done) Hc) in Hd. cbn [andb] in Hd.
  rewrite drop_app_le in Hd; [done|]. pose proof (char_step_length (x :: o) ltac:(done)). by rewrite Hc in H.
Qed.

End Utf8.
