(* ===== verification/StyxMessage.v ===== *)
(** * 9P2000 messages ([fs/styx/message.rs])

    The message types, [parse] for requests, [encode] for responses.  Strings
    are UTF-8 byte lists.  The usize sums of the source ([offset + 4],
    [16 + count]) stay below 2^33 plus the buffer length and cannot wrap. *)
From S2P Require Import Prelude.
From S2P Require Import Bytes.
From S2P Require Import Utf8.

Module StyxMessage.

Definition NOTAG : Z := 0xFFFF.
Definition NOFID : Z := 0xFFFFFFFF.

Inductive StyxMsgType :=
| TTversion | TRversion | TTauth | TRauth | TTattach | TRattach | TRerror
| TTflush | TRflush | TTwalk | TRwalk | TTopen | TRopen | TTcreate | TRcreate
| TTread | TRread | TTwrite | TRwrite | TTclunk | TRclunk | TTremove | TRremove
| TTstat | TRstat | TTwstat | TRwstat.

(** [self as u8]. *)
Definition to_u8 (t : StyxMsgType) : Z :=
  match t with
  | TTversion => 100 | TRversion => 101 | TTauth => 102 | TRauth => 103
  | TTattach => 104 | TRattach => 105 | TRerror => 107 | TTflush => 108
  | TRflush => 109 | TTwalk => 110 | TRwalk => 111 | TTopen => 112
  | TRopen => 113 | TTcreate => 114 | TRcreate => 115 | TTread => 116
  | TRread => 117 | TTwrite => 118 | TRwrite => 119 | TTclunk => 120
  | TRclunk => 121 | TTremove => 122 | TRremove => 123 | TTstat => 124
  | TRstat => 125 | TTwstat => 126 | TRwstat => 127
  end.

Definition all_types : list StyxMsgType :=
  [TTversion; TRversion; TTauth; TRauth; TTattach; TRattach; TRerror; TTflush; TRflush;
   TTwalk; TRwalk; TTopen; TRopen; TTcreate; TRcreate; TTread; TRread; TTwrite; TRwrite;
   TTclunk; TRclunk; TTremove; TRremove; TTstat; TRstat; TTwstat; TRwstat].

Definition from_u8 (v : Z) : option StyxMsgType :=
  snd <$> list_find (fun t => to_u8 t = v) all_types.

Record Qid := mkQid { qtype : Z; version : Z; path : Z }.
Definition dir (path : Z) : Qid := mkQid 0x80 0 path.
Definition file (path : Z) : Qid := mkQid 0x00 0 path.

Record Stat := mkStat { st_qid : Qid; st_mode : Z; st_length : Z; st_name : list Z }.

Inductive StyxMsg :=
| Tversion (tag msize : Z) (ver : list Z)
| Rversion (tag msize : Z) (ver : list Z)
| Tattach (tag fid afid : Z) (uname aname : list Z)
| Rattach (tag : Z) (qid : Qid)
| Rerror (tag : Z) (ename : list Z)
| Twalk (tag fid newfid : Z) (wnames : list (list Z))
| Rwalk (tag : Z) (qids : list Qid)
| Topen (tag fid mode : Z)
| Ropen (tag : Z) (qid : Qid) (iounit : Z)
| Tread (tag fid offset count : Z)
| Rread (tag : Z) (data : list Z)
| Twrite (tag fid offset : Z) (data : list Z)
| Rwrite (tag count : Z)
| Tclunk (tag fid : Z)
| Rclunk (tag : Z)
| Tstat (tag fid : Z)
| Rstat (tag : Z) (stat : Stat).

Inductive ParseError := TooShort | InvalidType | Unimplemented.

(** ** Reading *)
Definition read_u32 (data : list Z) (offset : Z) : out ParseError Z :=
  if zlen data <? offset + 4 then Err TooShort
  else b ← index_range data offset (offset + 4); Ok (from_le b).

Definition read_string_off (data : list Z) (offset : Z) : out ParseError (list Z * Z) :=
  if zlen data <? offset + 2 then Err TooShort
  else
    b ← index_range data offset (offset + 2);
    let len := from_le b in
    let str_start := offset + 2 in
    if zlen data <? str_start + len then Err TooShort
    else
      s ← index_range data str_start (str_start + len);
      Ok (Utf8.from_utf8_lossy s, str_start + len).

Definition read_string (data : list Z) (offset : Z) : out ParseError (list Z) :=
  p ← read_string_off data offset; Ok (fst p).

(** [for _ in 0..nwname { ... }]. *)
Fixpoint read_names (n : nat) (body : list Z) (off : Z) : out ParseError (list (list Z)) :=
  match n with
  | O => Ok []
  | S n =>
      p ← read_string_off body off;
      rest ← read_names n body (snd p);
      Ok (fst p :: rest)
  end.

Definition parse_body (t : StyxMsgType) (tag : Z) (body : list Z) : out ParseError StyxMsg :=
  match t with
  | TTversion =>
      msize ← read_u32 body 0;
      ver ← read_string body 4;
      Ok (Tversion tag msize ver)
  | TTattach =>
      fid ← read_u32 body 0;
      afid ← read_u32 body 4;
      u ← read_string_off body 8;
      aname ← read_string body (snd u);
      Ok (Tattach tag fid afid (fst u) aname)
  | TTwalk =>
      if zlen body <? 10 then Err TooShort
      else
        fid ← read_u32 body 0;
        newfid ← read_u32 body 4;
        b ← index_range body 8 10;
        let nwname := from_le b in
        if 16 <? nwname then Err TooShort
        else
          wnames ← read_names (Z.to_nat nwname) body 10;
          Ok (Twalk tag fid newfid wnames)
  | TTopen =>
      if zlen body <? 5 then Err TooShort
      else
        fid ← read_u32 body 0;
        mode ← index body 4;
        Ok (Topen tag fid mode)
  | TTread =>
      if zlen body <? 16 then Err TooShort
      else
        fid ← read_u32 body 0;
        b ← index_range body 4 12;
        count ← read_u32 body 12;
        Ok (Tread tag fid (from_le b) count)
  | TTwrite =>
      if zlen body <? 16 then Err TooShort
      else
        fid ← read_u32 body 0;
        b ← index_range body 4 12;
        count ← read_u32 body 12;
        if zlen body <? 16 + count then Err TooShort
        else
          data ← index_range body 16 (16 + count);
          Ok (Twrite tag fid (from_le b) data)
  | TTclunk => fid ← read_u32 body 0; Ok (Tclunk tag fid)
  | TTstat => fid ← read_u32 body 0; Ok (Tstat tag fid)
  | _ => Err Unimplemented
  end.

Definition parse (data : list Z) : out ParseError StyxMsg :=
  if zlen data <? 7 then Err TooShort
  else
    b ← index_range data 0 4;
    let size := from_le b in
    if zlen data <? size then Err TooShort
    else
      b4 ← index data 4;
      t ← ok_or (from_u8 b4) InvalidType;
      tb ← index_range data 5 7;
      let tag := from_le tb in
      body ← index_range data 7 size;
      parse_body t tag body.

(** ** Writing: a buffer is returned with the bytes appended to it. *)
Definition u16_le (z : Z) : list Z := le_bytes 2 z.
Definition u32_le (z : Z) : list Z := le_bytes 4 z.
Definition u64_le (z : Z) : list Z := le_bytes 8 z.
Arguments u16_le : simpl never.
Arguments u32_le : simpl never.
Arguments u64_le : simpl never.

Definition write_string (buf s : list Z) : list Z := buf ++ u16_le (wrap16 (zlen s)) ++ s.

Definition qid_encode (q : Qid) (buf : list Z) : list Z :=
  buf ++ [qtype q] ++ u32_le (version q) ++ u64_le (path q).

Definition stat_encode (s : Stat) : out Empty_set (list Z) :=
  let buf := [0; 0] in
  let buf := buf ++ u16_le 0 ++ u32_le 0 in
  let buf := qid_encode (st_qid s) buf in
  let buf := buf ++ u32_le (st_mode s) ++ u32_le 0 ++ u32_le 0 ++ u64_le (st_length s) in
  let buf := buf ++ u16_le (wrap16 (zlen (st_name s))) ++ st_name s in
  let buf := buf ++ u16_le 0 ++ u16_le 0 ++ u16_le 0 in
  let stat_size := wrap16 (zlen buf - 0 - 2) in
  copy_into buf 0 2 (u16_le stat_size).

Definition encode_fields (msg : StyxMsg) (buf : list Z) : out Empty_set (list Z) :=
  match msg with
  | Rversion tag msize ver =>
      Ok (write_string (buf ++ [to_u8 TRversion] ++ u16_le tag ++ u32_le msize) ver)
  | Rattach tag qid => Ok (qid_encode qid (buf ++ [to_u8 TRattach] ++ u16_le tag))
  | Rerror tag ename => Ok (write_string (buf ++ [to_u8 TRerror] ++ u16_le tag) ename)
  | Rwalk tag qids =>
      Ok (foldl (fun b q => qid_encode q b)
            (buf ++ [to_u8 TRwalk] ++ u16_le tag ++ u16_le (wrap16 (zlen qids))) qids)
  | Ropen tag qid iounit => Ok (qid_encode qid (buf ++ [to_u8 TRopen] ++ u16_le tag) ++ u32_le iounit)
  | Rread tag data => Ok (buf ++ [to_u8 TRread] ++ u16_le tag ++ u32_le (wrap32 (zlen data)) ++ data)
  | Rwrite tag count => Ok (buf ++ [to_u8 TRwrite] ++ u16_le tag ++ u32_le count)
  | Rclunk tag => Ok (buf ++ [to_u8 TRclunk] ++ u16_le tag)
  | Rstat tag stat =>
      stat_data ← stat_encode stat;
      Ok (buf ++ [to_u8 TRstat] ++ u16_le tag ++ u16_le (wrap16 (zlen stat_data)) ++ stat_data)
  | _ => Ok buf
  end.

Definition encode (msg : StyxMsg) : out Empty_set (list Z) :=
  buf ← encode_fields msg [0; 0; 0; 0];
  let size := wrap32 (zlen buf) in
  copy_into buf 0 4 (u32_le size).

(** ** Reference wire format, as a 9P2000 client writes and reads it *)
Definition wire_str (s : list Z) : list Z := u16_le (zlen s) ++ s.

Definition request_body (m : StyxMsg) : option (StyxMsgType * Z * list Z) :=
  match m with
  | Tversion tag msize ver => Some (TTversion, tag, u32_le msize ++ wire_str ver)
  | Tattach tag fid afid uname aname =>
      Some (TTattach, tag, u32_le fid ++ u32_le afid ++ wire_str uname ++ wire_str aname)
  | Twalk tag fid newfid wnames =>
      Some (TTwalk, tag, u32_le fid ++ u32_le newfid ++ u16_le (zlen wnames) ++ concat (wire_str <$> wnames))
  | Topen tag fid mode => Some (TTopen, tag, u32_le fid ++ [mode])
  | Tread tag fid offset count => Some (TTread, tag, u32_le fid ++ u64_le offset ++ u32_le count)
  | Twrite tag fid offset data =>
      Some (TTwrite, tag, u32_le fid ++ u64_le offset ++ u32_le (zlen data) ++ data)
  | Tclunk tag fid => Some (TTclunk, tag, u32_le fid)
  | Tstat tag fid => Some (TTstat, tag, u32_le fid)
  | _ => None
  end.

(** size[4] type[1] tag[2] body. *)
Definition wire_request (m : StyxMsg) : option (list Z) :=
  '(t, tag, body) ← request_body m;
  Some (u32_le (7 + zlen body) ++ [to_u8 t] ++ u16_le tag ++ body).

Definition str_ok (s : list Z) : Prop := Utf8.is_utf8 s = true /\ zlen s < 2 ^ 16.

Definition request_ok (m : StyxMsg) : Prop :=
  match m with
  | Tversion tag msize ver => is_u16 tag /\ is_u32 msize /\ str_ok ver
  | Tattach tag fid afid uname aname => is_u16 tag /\ is_u32 fid /\ is_u32 afid /\ str_ok uname /\ str_ok aname
  | Twalk tag fid newfid wnames =>
      is_u16 tag /\ is_u32 fid /\ is_u32 newfid /\ zlen wnames <= 16 /\ Forall str_ok wnames
  | Topen tag fid mode => is_u16 tag /\ is_u32 fid /\ is_u8 mode
  | Tread tag fid offset count => is_u16 tag /\ is_u32 fid /\ is_u64 offset /\ is_u32 count
  | Twrite tag fid offset data => is_u16 tag /\ is_u32 fid /\ is_u64 offset /\ zlen data + 23 < 2 ^ 32
  | Tclunk tag fid | Tstat tag fid => is_u16 tag /\ is_u32 fid
  | _ => False
  end.

(** A client's decoder of responses: each reader returns the unread rest. *)
Definition get_bytes (n : Z) (l : list Z) : option (list Z * list Z) :=
  if zlen l <? n then None else Some (take (Z.to_nat n) l, drop (Z.to_nat n) l).
Definition get_le (n : Z) (l : list Z) : option (Z * list Z) :=
  '(b, r) ← get_bytes n l; Some (from_le b, r).
Definition get_str (l : list Z) : option (list Z * list Z) :=
  '(n, r) ← get_le 2 l; get_bytes n r.
Definition get_qid (l : list Z) : option (Qid * list Z) :=
  '(t, r) ← get_le 1 l; '(v, r) ← get_le 4 r; '(p, r) ← get_le 8 r; Some (mkQid t v p, r).
Fixpoint get_qids (n : nat) (l : list Z) : option (list Qid * list Z) :=
  match n with
  | O => Some ([], l)
  | S n => '(q, r) ← get_qid l; '(qs, r) ← get_qids n r; Some (q :: qs, r)
  end.
Definition get_stat (l : list Z) : option (Stat * list Z) :=
  '(size, r) ← get_le 2 l;
  if negb (size =? zlen r) then None
  else
    '(_, r) ← get_le 2 r; '(_, r) ← get_le 4 r; '(q, r) ← get_qid r; '(mode, r) ← get_le 4 r;
    '(_, r) ← get_le 4 r; '(_, r) ← get_le 4 r; '(len, r) ← get_le 8 r; '(name, r) ← get_str r;
    '(_, r) ← get_str r; '(_, r) ← get_str r; '(_, r) ← get_str r;
    Some (mkStat q mode len name, r).

Definition response_fields (t : StyxMsgType) (tag : Z) (l : list Z) : option (StyxMsg * list Z) :=
  match t with
  | TRversion => '(n, r) ← get_le 4 l; '(s, r) ← get_str r; Some (Rversion tag n s, r)
  | TRattach => '(q, r) ← get_qid l; Some (Rattach tag q, r)
  | TRerror => '(s, r) ← get_str l; Some (Rerror tag s, r)
  | TRwalk => '(n, r) ← get_le 2 l; '(qs, r) ← get_qids (Z.to_nat n) r; Some (Rwalk tag qs, r)
  | TRopen => '(q, r) ← get_qid l; '(n, r) ← get_le 4 r; Some (Ropen tag q n, r)
  | TRread => '(n, r) ← get_le 4 l; '(d, r) ← get_bytes n r; Some (Rread tag d, r)
  | TRwrite => '(n, r) ← get_le 4 l; Some (Rwrite tag n, r)
  | TRclunk => Some (Rclunk tag, l)
  | TRstat =>
      '(n, r) ← get_le 2 l; '(d, r) ← get_bytes n r; '(s, e) ← get_stat d;
      if zlen e =? 0 then Some (Rstat tag s, r) else None
  | _ => None
  end.

Definition client_decode (l : list Z) : option StyxMsg :=
  '(size, r) ← get_le 4 l;
  if negb (size =? zlen l) then None
  else
    '(t, r) ← get_le 1 r; '(tag, r) ← get_le 2 r; ty ← from_u8 t;
    '(m, r) ← response_fields ty tag r;
    if zlen r =? 0 then Some m else None.

Definition qid_ok (q : Qid) : Prop := is_u8 (qtype q) /\ is_u32 (version q) /\ is_u64 (path q).

Definition response_ok (m : StyxMsg) : Prop :=
  match m with
  | Rversion tag msize ver => is_u16 tag /\ is_u32 msize /\ zlen ver < 2 ^ 16
  | Rattach tag qid => is_u16 tag /\ qid_ok qid
  | Rerror tag ename => is_u16 tag /\ zlen ename < 2 ^ 16
  | Rwalk tag qids => is_u16 tag /\ zlen qids < 2 ^ 16 /\ Forall qid_ok qids
  | Ropen tag qid iounit => is_u16 tag /\ qid_ok qid /\ is_u32 iounit
  | Rread tag data => is_u16 tag /\ zlen data + 11 < 2 ^ 32
  | Rwrite tag count => is_u16 tag /\ is_u32 count
  | Rclunk tag => is_u16 tag
  | Rstat tag s => is_u16 tag /\ qid_ok (st_qid s) /\ is_u32 (st_mode s) /\ is_u64 (st_length s) /\
      zlen (st_name s) + 49 < 2 ^ 16
  | _ => False
  end.

(** ** Lemmas: requests *)
Lemma from_to_u8 t : from_u8 (to_u8 t) = Some t.
Proof. by destruct t. Qed.

Lemma to_u8_bound t : is_u8 (to_u8 t).
Proof. destruct t; unfold is_u8; simpl; lia. Qed.

Lemma from_le_1 b : from_le [b] = b.
Proof. simpl. lia. Qed.

Lemma zlen_u16 z : zlen (u16_le z) = 2.
Proof. by unfold u16_le; rewrite zlen_le_bytes. Qed.
Lemma zlen_u32 z : zlen (u32_le z) = 4.
Proof. by unfold u32_le; rewrite zlen_le_bytes. Qed.
Lemma zlen_u64 z : zlen (u64_le z) = 8.
Proof. by unfold u64_le; rewrite zlen_le_bytes. Qed.
Lemma zlen_wire_str s : zlen (wire_str s) = 2 + zlen s.
Proof. unfold wire_str. by rewrite zlen_app, zlen_u16. Qed.
Lemma from_u16 z : is_u16 z -> from_le (u16_le z) = z.
Proof. intros H. apply from_le_bytes_id. unfold is_u16 in H. change (256 ^ Z.of_nat 2) with (2 ^ 16). lia. Qed.
Lemma from_u32 z : is_u32 z -> from_le (u32_le z) = z.
Proof. intros H. apply from_le_bytes_id. unfold is_u32 in H. change (256 ^ Z.of_nat 4) with (2 ^ 32). lia. Qed.
Lemma from_u64 z : is_u64 z -> from_le (u64_le z) = z.
Proof. intros H. apply from_le_bytes_id. unfold is_u64 in H. change (256 ^ Z.of_nat 8) with (2 ^ 64). lia. Qed.

Create Rewrite HintDb wire.
#[local] Hint Rewrite zlen_u16 zlen_u32 zlen_u64 zlen_wire_str @zlen_app @zlen_cons @zlen_nil : wire.
Ltac wire_len := autorewrite with wire; try lia.

Ltac run := cbn [mbind out_bind ok_or fst snd].

Lemma read_u32_at l pre z post a :
  l = pre ++ u32_le z ++ post -> a = zlen pre -> is_u32 z -> read_u32 l a = Ok z.
Proof.
  intros Hl Ha Hz. unfold read_u32. pose proof (zlen_nonneg post).
  rewrite (proj2 (Z.ltb_ge _ _)) by (subst; wire_len).
  rewrite (index_mid l pre (u32_le z) post) by (done || wire_len). run. by rewrite from_u32.
Qed.

Lemma read_string_at l pre s post a :
  l = pre ++ wire_str s ++ post -> a = zlen pre -> str_ok s ->
  read_string_off l a = Ok (s, zlen pre + 2 + zlen s).
Proof.
  intros Hl -> [Hu Hs]. unfold read_string_off. pose proof (zlen_nonneg post). pose proof (zlen_nonneg s).
  rewrite (proj2 (Z.ltb_ge _ _)) by (subst; wire_len).
  rewrite (index_mid l pre (u16_le (zlen s)) (s ++ post))
    by (try (subst; unfold wire_str; by rewrite <- ?app_assoc); wire_len).
  run. rewrite from_u16 by (unfold is_u16; lia).
  rewrite (proj2 (Z.ltb_ge _ _)) by (subst; wire_len).
  rewrite (index_mid l (pre ++ u16_le (zlen s)) s post)
    by (try (subst; unfold wire_str; by rewrite <- ?app_assoc); wire_len).
  run. by rewrite Utf8.lossy_valid_id.
Qed.

Lemma read_names_at names l pre post :
  l = pre ++ concat (wire_str <$> names) ++ post -> Forall str_ok names ->
  read_names (length names) l (zlen pre) = Ok names.
Proof.
  intros Hl Hn. revert pre Hl. induction Hn as [|s names Hs Hn IH]; intros pre Hl; [done|].
  cbn [length read_names]. rewrite (read_string_at l pre s (concat (wire_str <$> names) ++ post) (zlen pre));
    [|subst; cbn [fmap list_fmap concat]; by rewrite <- !app_assoc|done|done].
  run. replace (zlen pre + 2 + zlen s) with (zlen (pre ++ wire_str s)) by wire_len.
  rewrite IH; [done|]. subst. cbn [fmap list_fmap concat]. by rewrite <- !app_assoc.
Qed.

(** Solves [l = pre ++ mid ++ post] by reassociation. *)
Ltac wire_eq := subst; rewrite <- ?app_assoc; cbn [app]; rewrite ?app_nil_r; reflexivity.

Lemma parse_body_wire m t tag body :
  request_ok m -> request_body m = Some (t, tag, body) -> is_u16 tag /\ parse_body t tag body = Ok m.
Proof.
  intros Hok Hb. destruct m; try done; cbn [request_body request_ok] in *; injection Hb as <- <- <-;
    (split; [tauto|]); cbn [parse_body].
  - destruct Hok as (_ & H1 & H2). rewrite (read_u32_at _ [] msize (wire_str ver) 0) by (done || wire_eq).
    run. unfold read_string. by rewrite (read_string_at _ (u32_le msize) ver [] 4) by (done || wire_eq).
  - destruct Hok as (_ & H1 & H2 & H3 & H4).
    rewrite (read_u32_at _ [] fid (u32_le afid ++ wire_str uname ++ wire_str aname) 0) by (done || wire_eq).
    run. rewrite (read_u32_at _ (u32_le fid) afid (wire_str uname ++ wire_str aname) 4) by (done || wire_eq).
    run. rewrite (read_string_at _ (u32_le fid ++ u32_le afid) uname (wire_str aname) 8) by (done || wire_eq).
    run. unfold read_string.
    rewrite (read_string_at _ (u32_le fid ++ u32_le afid ++ wire_str uname) aname []) by (done || wire_eq || wire_len).
    done.
  - destruct Hok as (_ & H1 & H2 & H3 & H4). pose proof (zlen_nonneg wnames).
    set (names := concat (wire_str <$> wnames)). pose proof (zlen_nonneg names).
    rewrite (proj2 (Z.ltb_ge _ _)) by wire_len.
    rewrite (read_u32_at _ [] fid (u32_le newfid ++ u16_le (zlen wnames) ++ names) 0) by (done || wire_eq).
    run. rewrite (read_u32_at _ (u32_le fid) newfid (u16_le (zlen wnames) ++ names) 4) by (done || wire_eq).
    run. rewrite (index_mid _ (u32_le fid ++ u32_le newfid) (u16_le (zlen wnames)) names) by (done || wire_eq || wire_len).
    run. rewrite from_u16 by (unfold is_u16; lia). rewrite (proj2 (Z.ltb_ge _ _)) by lia.
    replace (Z.to_nat (zlen wnames)) with (length wnames) by (unfold zlen; lia).
    change 10 with (zlen (u32_le fid ++ u32_le newfid ++ u16_le (zlen wnames))).
    by rewrite (read_names_at wnames _ (u32_le fid ++ u32_le newfid ++ u16_le (zlen wnames)) []) by (done || wire_eq).
  - destruct Hok as (_ & H1 & H2). rewrite (proj2 (Z.ltb_ge _ _)) by wire_len.
    by rewrite (read_u32_at _ [] fid [mode] 0) by (done || wire_eq).
  - destruct Hok as (_ & H1 & H2 & H3). rewrite (proj2 (Z.ltb_ge _ _)) by wire_len.
    rewrite (read_u32_at _ [] fid (u64_le offset ++ u32_le count) 0) by (done || wire_eq). run.
    rewrite (index_mid _ (u32_le fid) (u64_le offset) (u32_le count)) by (done || wire_eq). run.
    rewrite (read_u32_at _ (u32_le fid ++ u64_le offset) count [] 12) by (done || wire_eq). run.
    by rewrite from_u64.
  - destruct Hok as (_ & H1 & H2 & H3). pose proof (zlen_nonneg data). rewrite (proj2 (Z.ltb_ge _ _)) by wire_len.
    rewrite (read_u32_at _ [] fid (u64_le offset ++ u32_le (zlen data) ++ data) 0) by (done || wire_eq). run.
    rewrite (index_mid _ (u32_le fid) (u64_le offset) (u32_le (zlen data) ++ data)) by (done || wire_eq). run.
    rewrite (read_u32_at _ (u32_le fid ++ u64_le offset) (zlen data) data 12)
      by (done || wire_eq || (unfold is_u32; lia)). run.
    rewrite (proj2 (Z.ltb_ge _ _)) by wire_len.
    rewrite (index_mid _ (u32_le fid ++ u64_le offset ++ u32_le (zlen data)) data []) by (done || wire_eq || wire_len).
    run. by rewrite from_u64.
  - by rewrite (read_u32_at _ [] fid [] 0) by (done || wire_eq || tauto).
  - by rewrite (read_u32_at _ [] fid [] 0) by (done || wire_eq || tauto).
Qed.

Lemma request_body_short m t tag body :
  request_ok m -> request_body m = Some (t, tag, body) -> 7 + zlen body < 2 ^ 32.
Proof.
  intros Hok Hb. destruct m; try done; cbn [request_body request_ok] in *; injection Hb as <- <- <-; wire_len;
    unfold str_ok in *; try lia.
  destruct Hok as (_ & _ & _ & H1 & H2).
  assert (zlen (concat (wire_str <$> wnames)) <= 65538 * zlen wnames); [|lia]. clear H1.
  induction H2 as [|s l [_ Hs] Hl IH]; [done|]. cbn [fmap list_fmap concat]. wire_len.
Qed.

Lemma parse_wire_request m bytes rest :
  request_ok m -> wire_request m = Some bytes -> parse (bytes ++ rest) = Ok m.
Proof.
  intros Hok Hw. unfold wire_request in Hw. apply bind_Some in Hw as ([[t tag] body] & Hb & [= <-]).
  destruct (parse_body_wire m t tag body Hok Hb) as [Htag Hp].
  pose proof (request_body_short m t tag body Hok Hb) as Hlen.
  pose proof (zlen_nonneg body). pose proof (zlen_nonneg rest).
  unfold parse. rewrite (proj2 (Z.ltb_ge _ _)) by wire_len.
  rewrite (index_mid _ [] (u32_le (7 + zlen body)) (([to_u8 t] ++ u16_le tag ++ body) ++ rest) 0 4) by (done || wire_eq).
  run. rewrite from_u32 by (unfold is_u32; lia). rewrite (proj2 (Z.ltb_ge _ _)) by wire_len.
  rewrite (index_at _ (u32_le (7 + zlen body)) (to_u8 t) ((u16_le tag ++ body) ++ rest)) by (done || wire_eq). run.
  rewrite from_to_u8. run.
  rewrite (index_mid _ (u32_le (7 + zlen body) ++ [to_u8 t]) (u16_le tag) (body ++ rest) 5 7) by (done || wire_eq). run.
  rewrite (index_mid _ (u32_le (7 + zlen body) ++ [to_u8 t] ++ u16_le tag) body rest) by (done || wire_eq || wire_len).
  run. by rewrite from_u16.
Qed.

(** *** Responses *)
Lemma get_bytes_app n b r : n = zlen b -> get_bytes n (b ++ r) = Some (b, r).
Proof.
  intros ->. unfold get_bytes. pose proof (zlen_nonneg r). rewrite (proj2 (Z.ltb_ge _ _)) by (rewrite zlen_app; lia).
  unfold zlen. rewrite Nat2Z.id, take_app_length, drop_app_length. done.
Qed.

Lemma get_le_1 z r : get_le 1 ([z] ++ r) = Some (z, r).
Proof. unfold get_le. rewrite (get_bytes_app 1 [z] r) by done. cbn [mbind option_bind]. by rewrite from_le_1. Qed.
Lemma get_le_2 z r : is_u16 z -> get_le 2 (u16_le z ++ r) = Some (z, r).
Proof. intros Hz. unfold get_le. rewrite get_bytes_app by done. cbn [mbind option_bind]. by rewrite from_u16. Qed.
Lemma get_le_4 z r : is_u32 z -> get_le 4 (u32_le z ++ r) = Some (z, r).
Proof. intros Hz. unfold get_le. rewrite get_bytes_app by done. cbn [mbind option_bind]. by rewrite from_u32. Qed.
Lemma get_le_8 z r : is_u64 z -> get_le 8 (u64_le z ++ r) = Some (z, r).
Proof. intros Hz. unfold get_le. rewrite get_bytes_app by done. cbn [mbind option_bind]. by rewrite from_u64. Qed.

Lemma get_str_app s r : zlen s < 2 ^ 16 -> get_str (u16_le (wrap16 (zlen s)) ++ s ++ r) = Some (s, r).
Proof.
  intros Hs. pose proof (zlen_nonneg s). rewrite wrap16_small by lia. unfold get_str.
  rewrite get_le_2 by (unfold is_u16; lia). cbn [mbind option_bind]. by apply get_bytes_app.
Qed.

Lemma get_qid_app q r :
  qid_ok q -> get_qid ([qtype q] ++ u32_le (version q) ++ u64_le (path q) ++ r) = Some (q, r).
Proof.
  intros (H1 & H2 & H3). unfold get_qid. rewrite get_le_1. cbn [mbind option_bind].
  rewrite get_le_4 by done. cbn [mbind option_bind]. rewrite get_le_8 by done. cbn [mbind option_bind]. by destruct q.
Qed.

Definition qid_bytes (q : Qid) : list Z := [qtype q] ++ u32_le (version q) ++ u64_le (path q).

Lemma foldl_qids qs buf : foldl (fun b q => qid_encode q b) buf qs = buf ++ concat (qid_bytes <$> qs).
Proof.
  revert buf. induction qs as [|q qs IH]; intros buf; simpl; [by rewrite app_nil_r|].
  rewrite IH. unfold qid_encode, qid_bytes. by rewrite <- !app_assoc.
Qed.

Lemma get_qids_app qs r : Forall qid_ok qs -> get_qids (length qs) (concat (qid_bytes <$> qs) ++ r) = Some (qs, r).
Proof.
  induction 1 as [|q qs Hq Hqs IH]; [done|]. cbn [fmap list_fmap concat length get_qids].
  unfold qid_bytes at 1. rewrite <- !app_assoc, get_qid_app by done. cbn [mbind option_bind].
  by rewrite IH.
Qed.

Lemma zlen_qid_bytes q : zlen (qid_bytes q) = 13.
Proof. unfold qid_bytes. wire_len. Qed.
Lemma zlen_qids qs : zlen (concat (qid_bytes <$> qs)) = 13 * zlen qs.
Proof. induction qs as [|q qs IH]; [done|]. cbn [fmap list_fmap concat]. wire_len. rewrite zlen_qid_bytes. lia. Qed.

(** The stat record, after its size. *)
Definition stat_body (s : Stat) : list Z :=
  u16_le 0 ++ u32_le 0 ++ qid_bytes (st_qid s) ++ u32_le (st_mode s) ++ u32_le 0 ++ u32_le 0 ++
  u64_le (st_length s) ++ u16_le (wrap16 (zlen (st_name s))) ++ st_name s ++ u16_le 0 ++ u16_le 0 ++ u16_le 0.

Lemma zlen_stat_body s : zlen (stat_body s) = 47 + zlen (st_name s).
Proof. unfold stat_body. wire_len. rewrite zlen_qid_bytes. wire_len. Qed.

Lemma stat_encode_eq s : stat_encode s = Ok (u16_le (wrap16 (47 + zlen (st_name s))) ++ stat_body s).
Proof.
  unfold stat_encode. set (buf := _ ++ u16_le 0 ++ u16_le 0 ++ u16_le 0).
  assert (buf = [0; 0] ++ stat_body s) as ->.
  { unfold buf, stat_body, qid_encode, qid_bytes. by rewrite <- !app_assoc. }
  pose proof (zlen_nonneg (st_name s)).
  assert (zlen ([0; 0] ++ stat_body s) - 0 - 2 = 47 + zlen (st_name s)) as ->
    by (rewrite zlen_app, zlen_stat_body; change (zlen [0; 0]) with 2; lia).
  rewrite copy_into_ok; [|lia| |by rewrite zlen_u16].
  - f_equal.
  - rewrite zlen_app, zlen_stat_body. change (zlen [0; 0]) with 2. lia.
Qed.

Lemma get_stat_app s :
  qid_ok (st_qid s) -> is_u32 (st_mode s) -> is_u64 (st_length s) -> zlen (st_name s) + 49 < 2 ^ 16 ->
  get_stat (u16_le (wrap16 (47 + zlen (st_name s))) ++ stat_body s) = Some (s, []).
Proof.
  intros Hq Hm Hl Hn. pose proof (zlen_nonneg (st_name s)). unfold get_stat. rewrite wrap16_small by lia.
  rewrite get_le_2 by (unfold is_u16; lia). cbn [mbind option_bind].
  rewrite zlen_stat_body, Z.eqb_refl. cbn [negb]. unfold stat_body, qid_bytes. rewrite <- !app_assoc.
  rewrite get_le_2 by done. cbn [mbind option_bind]. rewrite get_le_4 by done. cbn [mbind option_bind].
  rewrite get_qid_app by done. cbn [mbind option_bind].
  do 3 (rewrite get_le_4 by done; cbn [mbind option_bind]).
  rewrite get_le_8 by done. cbn [mbind option_bind]. rewrite get_str_app by lia. cbn [mbind option_bind].
  change (u16_le 0 ++ u16_le 0 ++ u16_le 0) with
    (u16_le (wrap16 (zlen (@nil Z))) ++ [] ++ u16_le (wrap16 (zlen (@nil Z))) ++ [] ++ u16_le (wrap16 (zlen (@nil Z))) ++ [] ++ []).
  do 3 (rewrite get_str_app by done; cbn [mbind option_bind]). by destruct s.
Qed.

(** The type byte, the tag and the fields of a response. *)
Definition response_parts (m : StyxMsg) : option (StyxMsgType * Z * list Z) :=
  match m with
  | Rversion tag msize ver => Some (TRversion, tag, u32_le msize ++ u16_le (wrap16 (zlen ver)) ++ ver)
  | Rattach tag qid => Some (TRattach, tag, qid_bytes qid)
  | Rerror tag ename => Some (TRerror, tag, u16_le (wrap16 (zlen ename)) ++ ename)
  | Rwalk tag qids => Some (TRwalk, tag, u16_le (wrap16 (zlen qids)) ++ concat (qid_bytes <$> qids))
  | Ropen tag qid iounit => Some (TRopen, tag, qid_bytes qid ++ u32_le iounit)
  | Rread tag data => Some (TRread, tag, u32_le (wrap32 (zlen data)) ++ data)
  | Rwrite tag count => Some (TRwrite, tag, u32_le count)
  | Rclunk tag => Some (TRclunk, tag, [])
  | Rstat tag s =>
      Some (TRstat, tag, u16_le (wrap16 (49 + zlen (st_name s))) ++
              u16_le (wrap16 (47 + zlen (st_name s))) ++ stat_body s)
  | _ => None
  end.

Lemma some_triple {A B C} (a a' : A) (b b' : B) (c c' : C) :
  Some (a, b, c) = Some (a', b', c') -> a = a' /\ b = b' /\ c = c'.
Proof. by intros [= -> -> ->]. Qed.

Lemma encode_parts m t tag fields :
  response_parts m = Some (t, tag, fields) ->
  encode m = Ok (u32_le (wrap32 (7 + zlen fields)) ++ [to_u8 t] ++ u16_le tag ++ fields).
Proof.
  intros Hp. assert (encode_fields m [0; 0; 0; 0] = Ok ([0; 0; 0; 0] ++ [to_u8 t] ++ u16_le tag ++ fields)) as He.
  { destruct m; try done; apply some_triple in Hp as (<- & <- & <-); cbn [encode_fields]; unfold write_string, qid_encode, qid_bytes;
      rewrite <- ?app_assoc; try reflexivity; try by rewrite app_nil_r.
    - by rewrite foldl_qids, <- !app_assoc.
    - rewrite stat_encode_eq. run. rewrite zlen_app, zlen_u16, zlen_stat_body.
      do 2 f_equal. by replace (2 + (47 + zlen (st_name stat))) with (49 + zlen (st_name stat)) by lia. }
  unfold encode. rewrite He. run. pose proof (zlen_nonneg fields).
  assert (zlen ([0; 0; 0; 0] ++ [to_u8 t] ++ u16_le tag ++ fields) = 7 + zlen fields) as Hz by wire_len.
  rewrite Hz. rewrite copy_into_ok; [done|lia|lia|by rewrite zlen_u32].
Qed.

Lemma response_fields_ok m t tag fields :
  response_ok m -> response_parts m = Some (t, tag, fields) ->
  is_u16 tag /\ 7 + zlen fields < 2 ^ 32 /\ response_fields t tag fields = Some (m, []).
Proof.
  intros Hok Hp. destruct m; try done; apply some_triple in Hp as (<- & <- & <-); cbn [response_ok] in Hok; cbn [response_fields];
    repeat match goal with H : _ /\ _ |- _ => destruct H end; (split; [tauto|]);
    (split; [wire_len; rewrite ?zlen_qid_bytes, ?zlen_qids, ?zlen_stat_body; wire_len|]).
  - rewrite get_le_4 by done. cbn [mbind option_bind].
    rewrite <- (app_nil_r (_ ++ ver)), <- app_assoc, get_str_app by done. done.
  - rewrite <- (app_nil_r (qid_bytes qid)). unfold qid_bytes. rewrite <- !app_assoc, get_qid_app by done. done.
  - rewrite <- (app_nil_r (_ ++ ename)), <- app_assoc, get_str_app by done. done.
  - pose proof (zlen_nonneg qids). rewrite wrap16_small by lia. rewrite get_le_2 by (unfold is_u16; lia).
    cbn [mbind option_bind]. replace (Z.to_nat (zlen qids)) with (length qids) by (unfold zlen; lia).
    rewrite <- (app_nil_r (concat _)), get_qids_app by done. done.
  - unfold qid_bytes. rewrite <- !app_assoc, get_qid_app by done. cbn [mbind option_bind].
    rewrite <- (app_nil_r (u32_le iounit)), get_le_4 by done. done.
  - pose proof (zlen_nonneg data). rewrite wrap32_small by lia. rewrite get_le_4 by (unfold is_u32; lia).
    cbn [mbind option_bind]. rewrite <- (app_nil_r data) at 2. by rewrite get_bytes_app.
  - rewrite <- (app_nil_r (u32_le count)), get_le_4 by done. done.
  - done.
  - pose proof (zlen_nonneg (st_name stat)). rewrite (wrap16_small (49 + _)) by lia.
    rewrite get_le_2 by (unfold is_u16; lia). cbn [mbind option_bind].
    rewrite <- (app_nil_r (_ ++ stat_body stat)), get_bytes_app by (wire_len; rewrite zlen_stat_body; lia).
    cbn [mbind option_bind]. by rewrite get_stat_app.
Qed.

Lemma encode_decodes m :
  response_ok m -> exists b, encode m = Ok b /\ client_decode b = Some m.
Proof.
  intros Hok. assert (exists t tag fields, response_parts m = Some (t, tag, fields)) as (t & tag & fields & Hp)
    by (destruct m; try done; by eexists _, _, _).
  destruct (response_fields_ok m t tag fields Hok Hp) as (Htag & Hlen & Hf). pose proof (zlen_nonneg fields).
  eexists. split; [by apply encode_parts|]. rewrite wrap32_small by lia. unfold client_decode.
  rewrite get_le_4 by (unfold is_u32; lia). cbn [mbind option_bind].
  replace (zlen (u32_le (7 + zlen fields) ++ [to_u8 t] ++ u16_le tag ++ fields)) with (7 + zlen fields) by wire_len.
  rewrite Z.eqb_refl. cbn [negb]. rewrite get_le_1. cbn [mbind option_bind]. rewrite get_le_2 by done.
  cbn [mbind option_bind]. rewrite from_to_u8. cbn [mbind option_bind]. by rewrite Hf.
Qed.

(** *** Panics *)
Lemma read_u32_total l a : 0 <= a -> read_u32 l a <> Panic.
Proof.
  intros Ha. unfold read_u32. destruct (Z.ltb_spec (zlen l) (a + 4)); [done|].
  by rewrite index_range_ok by lia.
Qed.

Lemma read_string_total l a :
  bytes_ok l -> 0 <= a -> match read_string_off l a with Ok (_, o) => 0 <= o | Err _ => True | Panic => False end.
Proof.
  intros Hb Ha. unfold read_string_off. destruct (Z.ltb_spec (zlen l) (a + 2)); [done|].
  rewrite index_range_ok by lia. run.
  pose proof (from_le_bound (slice l a (a + 2 - a)) ltac:(by apply bytes_ok_slice)) as Hl.
  set (n := from_le _) in *. destruct (Z.ltb_spec (zlen l) (a + 2 + n)); [done|].
  rewrite index_range_ok by lia. run. lia.
Qed.

Lemma read_names_total n l a : bytes_ok l -> 0 <= a -> read_names n l a <> Panic.
Proof.
  intros Hb. revert a. induction n as [|n IH]; intros a Ha; [done|]. cbn [read_names].
  pose proof (read_string_total l a Hb Ha) as Hs. destruct (read_string_off l a) as [[s o]|e|]; [|done|done].
  run. specialize (IH o Hs). destruct (read_names n l o); done.
Qed.

Lemma parse_body_total t tag body : bytes_ok body -> parse_body t tag body <> Panic.
Proof.
  intros Hb.
  assert (forall A a (k : Z -> out ParseError A), 0 <= a -> (forall z, k z <> Panic) -> (read_u32 body a ≫= k) <> Panic) as Hu.
  { intros A a k Ha Hk. pose proof (read_u32_total body a Ha). destruct (read_u32 body a); [apply Hk|done|done]. }
  assert (forall A a (k : list Z * Z -> out ParseError A), 0 <= a ->
    (forall s o, 0 <= o -> k (s, o) <> Panic) -> (read_string_off body a ≫= k) <> Panic) as Hs.
  { intros A a k Ha Hk. pose proof (read_string_total body a Hb Ha) as H.
    destruct (read_string_off body a) as [[s o]| |]; [by apply Hk|done|done]. }
  destruct t; try done; cbn [parse_body].
  - apply Hu; [done|]. intros z. unfold read_string. pose proof (read_string_total body 4 Hb ltac:(lia)).
    by destruct (read_string_off body 4) as [[? ?]| |].
  - apply Hu; [done|]. intros z. apply Hu; [done|]. intros z'. apply Hs; [done|]. intros s o Ho. run.
    unfold read_string. pose proof (read_string_total body o Hb Ho). by destruct (read_string_off body o) as [[? ?]| |].
  - destruct (Z.ltb_spec (zlen body) 10); [done|]. apply Hu; [done|]. intros z. apply Hu; [done|]. intros z'.
    rewrite index_range_ok by lia. run. case_match; [done|].
    pose proof (read_names_total (Z.to_nat (from_le (slice body 8 (10 - 8)))) body 10 Hb ltac:(lia)).
    by destruct (read_names _ body 10).
  - destruct (Z.ltb_spec (zlen body) 5); [done|]. apply Hu; [done|]. intros z. unfold index. run.
    destruct (lookup_lt_is_Some_2 body (Z.to_nat 4)) as [b Hbb]; [unfold zlen in *; lia|].
    change (0 <=? 4) with true. cbv iota. by rewrite Hbb.
  - destruct (Z.ltb_spec (zlen body) 16); [done|]. apply Hu; [done|]. intros z.
    rewrite index_range_ok by lia. run. by apply Hu.
  - destruct (Z.ltb_spec (zlen body) 16); [done|]. apply Hu; [done|]. intros z.
    rewrite (index_range_ok body 4 12) by lia. run. unfold read_u32. rewrite (proj2 (Z.ltb_ge _ _)) by lia.
    rewrite (index_range_ok body 12) by lia. run.
    pose proof (from_le_bound (slice body 12 (12 + 4 - 12)) ltac:(by apply bytes_ok_slice)) as Hl.
    set (n := from_le _) in *. destruct (Z.ltb_spec (zlen body) (16 + n)); [done|].
    by rewrite index_range_ok by lia.
  - by apply Hu.
  - by apply Hu.
Qed.

(** The size field and the type byte of a buffer. *)
Definition size_field (data : list Z) : Z := from_le (slice data 0 4).
Definition type_field (data : list Z) : Z := default 0 (data !! 4%nat).

Lemma parse_panic_iff data :
  bytes_ok data ->
  parse data = Panic <->
  7 <= zlen data /\ size_field data < 7 /\ is_Some (from_u8 (type_field data)).
Proof.
  intros Hb. unfold parse. destruct (Z.ltb_spec (zlen data) 7) as [|H7]; [split; [done|lia]|].
  rewrite (index_range_ok data 0 4) by lia. run. change (slice data 0 (4 - 0)) with (slice data 0 4).
  fold (size_field data).
  pose proof (from_le_bound (slice data 0 4) ltac:(by apply bytes_ok_slice)) as Hs. fold (size_field data) in Hs.
  destruct (lookup_lt_is_Some_2 data 4) as [b4 Hb4]; [unfold zlen in *; lia|].
  destruct (Z.ltb_spec (zlen data) (size_field data)) as [|Hsz]; [split; [done|lia]|].
  unfold index. change (0 <=? 4) with true. change (Z.to_nat 4) with 4%nat. cbv iota. rewrite Hb4. cbn [or_panic].
  unfold type_field. rewrite Hb4. change (default 0 (Some b4)) with b4. run. destruct (from_u8 b4) as [t|]; run;
    [|split; [done|by intros (_ & _ & [? ?])]].
  rewrite (index_range_ok data 5 7) by lia. run.
  destruct (decide (7 <= size_field data)) as [Hge|Hlt].
  - rewrite (index_range_ok data 7) by lia. run. split; [|lia].
    intros Hp. exfalso. revert Hp. by apply parse_body_total, bytes_ok_slice.
  - unfold index_range. rewrite (proj2 (Z.leb_gt 7 (size_field data))) by lia. run.
    split; [|done]. intros _. split; [done|]. split; [lia|by eexists].
Qed.

(** ** Properties *)

(** [parse] accepts every 9P2000 request the server implements, exactly as
    a client writes it on the wire (and whatever follows it in the buffer):
    it returns the message with every field and string intact. *)
Theorem styx_request_roundtrip m bytes rest :
  request_ok m -> wire_request m = Some bytes -> parse (bytes ++ rest) = Ok m.
Proof. apply parse_wire_request. Qed.

(** [encode] never panics on a response whose strings and vectors fit
    their 16- and 32-bit counts, and a client that reads the buffer by the
    9P2000 rules (size, type, tag, fields, nothing left over) gets the response
    back. *)
Theorem styx_response_roundtrip m :
  response_ok m -> exists b, encode m = Ok b /\ client_decode b = Some m.
Proof. apply encode_decodes. Qed.

(** The only buffers on which [parse] panics are those of at least seven
    bytes with a known type and a size field below seven: [&data[7..size]] is
    then an inverted range.  Every other malformed buffer is an error value. *)
Theorem styx_parse_panics data :
  bytes_ok data ->
  parse data = Panic <->
  7 <= zlen data /\ size_field data < 7 /\ is_Some (from_u8 (type_field data)).
Proof. apply parse_panic_iff. Qed.

(** *** Witnesses *)
(** "abc" *)
Definition demo_name : list Z := [97; 98; 99].
Definition demo_walk : StyxMsg := Twalk 1 0 7 [demo_name; demo_name].
Definition demo_walk_bytes : list Z := default [] (wire_request demo_walk).

Lemma styx_request_roundtrip_witness :
  request_ok demo_walk /\ parse (demo_walk_bytes ++ [0; 0]) = Ok demo_walk.
Proof.
  assert (request_ok demo_walk) as Hok.
  { unfold demo_walk, request_ok, is_u16, is_u32, str_ok. split_and!; try lia; [done|].
    repeat constructor; vm_compute; reflexivity. }
  split; [exact Hok|]. apply (styx_request_roundtrip demo_walk demo_walk_bytes [0; 0] Hok). vm_compute. reflexivity.
Defined.

Lemma styx_response_roundtrip_witness :
  exists b, encode (Rstat 5 (mkStat (dir 3) 0x800001ED 0 demo_name)) = Ok b /\
    client_decode b = Some (Rstat 5 (mkStat (dir 3) 0x800001ED 0 demo_name)).
Proof.
  apply (styx_response_roundtrip (Rstat 5 (mkStat (dir 3) 0x800001ED 0 demo_name))).
  unfold response_ok, qid_ok, is_u8, is_u16, is_u32, is_u64. repeat split; vm_compute; congruence.
Defined.

(** Seven bytes with the type of [Tversion] and a size of 6. *)
Lemma styx_parse_panics_witness : parse [6; 0; 0; 0; 100; 0; 0] = Panic.
Proof.
  apply (styx_parse_panics [6; 0; 0; 0; 100; 0; 0]); [repeat constructor; lia|].
  split; [vm_compute; congruence|]. split; [vm_compute; reflexivity|exists TTversion; vm_compute; reflexivity].
Defined.

End StyxMessage.
