(* ===== verification/Fmt.v ===== *)
(** * Text: string literals and decimal numbers

    Byte strings of ASCII literals, [Display] for unsigned integers, and the
    decimal parser that reads them back. *)
From S2P Require Import Prelude.
From S2P Require Import Bytes.

Definition str (s : string) : list Z := (fun a => Z.of_N (Ascii.N_of_ascii a)) <$> String.list_ascii_of_string s.

(** [a.starts_with(b)]. *)
Definition starts_with (a b : list Z) : bool := bool_decide (take (length b) a = b).

(** Decimal digits, most significant first. *)
Fixpoint dec_loop (fuel : nat) (n : Z) : list Z :=
  match fuel with
  | O => []
  | S fuel => (if n <? 10 then [] else dec_loop fuel (n / 10)) ++ [48 + n mod 10]
  end.

(** [format!("{}", n)] of an unsigned integer. *)
Definition dec (n : Z) : list Z := dec_loop (S (Z.to_nat (Z.log2 n))) n.

Definition is_digit (b : Z) : bool := (48 <=? b) && (b <=? 57).
Definition digits_val (l : list Z) : Z := foldl (fun a b => 10 * a + (b - 48)) 0 l.

Lemma digits_val_snoc l d : digits_val (l ++ [d]) = 10 * digits_val l + (d - 48).
Proof. unfold digits_val. by rewrite foldl_app. Qed.

Lemma dec_loop_val fuel n : 0 <= n < 2 ^ Z.of_nat fuel -> digits_val (dec_loop fuel n) = n.
Proof.
  revert n. induction fuel as [|f IH]; intros n Hn; [change (0 = n); change (2 ^ Z.of_nat 0) with 1 in Hn; lia|].
  cbn [dec_loop]. rewrite digits_val_snoc. rewrite Nat2Z.inj_succ, Z.pow_succ_r in Hn by lia.
  destruct (Z.ltb_spec n 10); [unfold digits_val; cbn [foldl]; lia|]. rewrite IH; lia.
Qed.

Lemma dec_fuel n : 0 <= n -> n < 2 ^ Z.of_nat (S (Z.to_nat (Z.log2 n))).
Proof.
  intros Hn. pose proof (Z.log2_nonneg n). rewrite Nat2Z.inj_succ, Z2Nat.id by done.
  destruct (decide (n = 0)) as [->|]; [done|]. apply Z.log2_spec. lia.
Qed.

Lemma dec_val n : 0 <= n -> digits_val (dec n) = n.
Proof. intros Hn. apply dec_loop_val. pose proof (dec_fuel n Hn). lia. Qed.

Lemma dec_loop_digits fuel n : 0 <= n -> Forall (fun b => is_digit b = true) (dec_loop fuel n).
Proof.
  revert n. induction fuel as [|f IH]; intros n Hn; [done|]. cbn [dec_loop].
  apply Forall_app. split.
  - destruct (Z.ltb_spec n 10); [done|]. apply IH. lia.
  - constructor; [|done]. unfold is_digit. apply andb_true_iff. split; apply Z.leb_le; lia.
Qed.

Lemma dec_digits n : 0 <= n -> Forall (fun b => is_digit b = true) (dec n).
Proof. apply dec_loop_digits. Qed.

Lemma dec_nonempty n : dec n <> [].
Proof. unfold dec. cbn [dec_loop]. by destruct (if n <? 10 then _ else _). Qed.

(** [(v << k) | d] with [d < 2^k]. *)
Lemma lor_shiftl_add v d k : 0 <= k -> 0 <= d < 2 ^ k -> Z.lor (Z.shiftl v k) d = v * 2 ^ k + d.
Proof.
  intros Hk Hd. assert (Z.land (Z.shiftl v k) d = 0) as H.
  { apply Z.bits_inj'. intros n Hn. rewrite Z.land_spec, Z.bits_0, Z.shiftl_spec by done.
    destruct (decide (n < k)); [by rewrite Z.testbit_neg_r by lia|].
    destruct (decide (d = 0)) as [->|]; [rewrite Z.bits_0; apply andb_false_r|].
    rewrite (Z.bits_above_log2 d n); [apply andb_false_r|lia|]. apply Z.log2_lt_pow2; [lia|].
    apply Z.lt_le_trans with (2 ^ k); [lia|]. apply Z.pow_le_mono_r; lia. }
  pose proof (Z.add_lor_land (Z.shiftl v k) d). rewrite Z.shiftl_mul_pow2 in * by lia. lia.
Qed.
