(* ===== verification/Styx.v ===== *)
(** * The Styx namespace and server ([fs/styx/namespace.rs], [fs/styx/server.rs])

    A synthetic file tree whose files are callbacks, and the 9P2000 server that
    walks, opens, reads and writes it.  [W] is the kernel state that callbacks
    read and change. *)
From S2P Require Import Prelude.
From S2P Require Import Bytes.
From S2P Require Import Fmt.
From S2P Require Import Phys.
From S2P Require Import StyxMessage.

(** ** [BTreeMap<String, V>]: an association list sorted by key. *)
Module BTree.

Fixpoint bytes_compare (a b : list Z) : comparison :=
  match a, b with
  | [], [] => Eq
  | [], _ => Lt
  | _, [] => Gt
  | x :: a, y :: b => match x ?= y with Eq => bytes_compare a b | c => c end
  end.

Fixpoint insert {V} (k : list Z) (v : V) (l : list (list Z * V)) : list (list Z * V) :=
  match l with
  | [] => [(k, v)]
  | (k', v') :: l' =>
      match bytes_compare k k' with
      | Lt => (k, v) :: l
      | Eq => (k', v) :: l'
      | Gt => (k', v') :: insert k v l'
      end
  end.

Fixpoint get {V} (k : list Z) (l : list (list Z * V)) : option V :=
  match l with
  | [] => None
  | (k', v') :: l' => if bool_decide (k = k') then Some v' else get k l'
  end.

(** Writing through [get_mut(k)]. *)
Fixpoint set {V} (k : list Z) (v : V) (l : list (list Z * V)) : list (list Z * V) :=
  match l with
  | [] => []
  | (k', v') :: l' => if bool_decide (k = k') then (k', v) :: l' else (k', v') :: set k v l'
  end.

Lemma compare_eq a b : bytes_compare a b = Eq <-> a = b.
Proof.
  revert b. induction a as [|x a IH]; intros [|y b]; simpl; try done.
  destruct (Z.compare_spec x y) as [->|Hlt|Hlt]; [rewrite IH; split; congruence|..];
    (split; [done|]; intros [= -> _]; lia).
Qed.

Lemma get_insert {V} k v (l : list (list Z * V)) k' :
  get k' (insert k v l) = if bool_decide (k' = k) then Some v else get k' l.
Proof.
  induction l as [|[q u] l IH]; simpl; [done|].
  destruct (bytes_compare k q) eqn:Hc; simpl.
  - apply compare_eq in Hc as ->. by case_bool_decide.
  - done.
  - rewrite IH. case_bool_decide as H1; [|done]. subst. case_bool_decide; [|done]. subst.
    by rewrite (proj2 (compare_eq _ _) eq_refl) in Hc.
Qed.

Lemma get_set {V} k v (l : list (list Z * V)) k' :
  is_Some (get k l) -> get k' (set k v l) = if bool_decide (k' = k) then Some v else get k' l.
Proof.
  intros Hs. induction l as [|[q u] l IH]; simpl in *; [by destruct Hs|].
  destruct (bool_decide_reflect (k = q)) as [->|Hne]; simpl; [by case_bool_decide|].
  rewrite IH by done. case_bool_decide as H1; [|done]. subst. by rewrite bool_decide_eq_false_2.
Qed.

Lemma set_get {V} k v (l : list (list Z * V)) : get k l = Some v -> set k v l = l.
Proof.
  induction l as [|[q u] l IH]; simpl; [done|]. case_bool_decide; [by intros [= ->]|].
  intros H1. by rewrite IH.
Qed.

End BTree.

Module Styx.
Export StyxMessage.

(** ** Namespace.  A handler's [Result<(), String>] is [None] for [Ok(())]
    and [Some e] for [Err(e)]. *)
Section namespace.
Variable W : Type.

Inductive Node :=
| mkNode (name : list Z) (path_id : Z) (kind : NodeKind)
with NodeKind :=
| Dir (children : list (list Z * Node))
| SyntheticFile (on_read : W -> list Z) (on_write : option (list Z -> W -> option (list Z) * W))
| CtlFile (on_command : list Z -> W -> list Z * W) (response : list Z).

Definition name (n : Node) : list Z := let '(mkNode x _ _) := n in x.
Definition path_id (n : Node) : Z := let '(mkNode _ x _) := n in x.
Definition kind (n : Node) : NodeKind := let '(mkNode _ _ x) := n in x.

(** [NEXT_PATH.fetch_add(1)] on the counter. *)
Definition alloc_path : st Z Empty_set Z := fun next => (Ok next, next ⊞ 1).

Definition new_node (nm : list Z) (k : NodeKind) : st Z Empty_set Node :=
  p ← alloc_path; mret (mkNode nm p k).
Definition node_dir (nm : list Z) : st Z Empty_set Node := new_node nm (Dir []).
Definition node_file (nm : list Z) (on_read : W -> list Z) : st Z Empty_set Node :=
  new_node nm (SyntheticFile on_read None).
Definition file_rw (nm : list Z) (on_read : W -> list Z)
    (on_write : list Z -> W -> option (list Z) * W) : st Z Empty_set Node :=
  new_node nm (SyntheticFile on_read (Some on_write)).
Definition ctl (nm : list Z) (on_command : list Z -> W -> list Z * W) : st Z Empty_set Node :=
  new_node nm (CtlFile on_command []).

Definition add_child (parent child : Node) : Node :=
  match kind parent with
  | Dir children => mkNode (name parent) (path_id parent) (Dir (BTree.insert (name child) child children))
  | _ => parent
  end.

Definition child (n : Node) (nm : list Z) : option Node :=
  match kind n with
  | Dir children => BTree.get nm children
  | _ => None
  end.

(** Writing through [child_mut(nm)]. *)
Definition child_set (n : Node) (nm : list Z) (c : Node) : Node :=
  match kind n with
  | Dir children => mkNode (name n) (path_id n) (Dir (BTree.set nm c children))
  | _ => n
  end.

Definition is_dir (n : Node) : bool :=
  match kind n with Dir _ => true | _ => false end.

Definition node_read (n : Node) (w : W) : list Z :=
  match kind n with
  | Dir children => concat ((fun kv => fst kv ++ [10]) <$> children)
  | SyntheticFile on_read _ => on_read w
  | CtlFile _ response => response
  end.

(** The error if any, the node and the kernel state after the write. *)
Definition node_write (n : Node) (data : list Z) (w : W) : option (list Z) * Node * W :=
  match kind n with
  | Dir _ => (Some (str "cannot write to directory"), n, w)
  | SyntheticFile _ on_write =>
      match on_write with
      | Some handler => let '(r, w') := handler data w in (r, n, w')
      | None => (Some (str "read-only file"), n, w)
      end
  | CtlFile on_command _ =>
      let '(response, w') := on_command data w in
      (None, mkNode (name n) (path_id n) (CtlFile on_command response), w')
  end.

(** ** Server *)
Definition MAX_MSIZE : Z := 65536.
Definition MAX_FIDS : Z := 256.

Record Fid := mkFid { fpath : list (list Z); fopen : bool }.
Record StyxServer := mkServer { root : Node; fids : gmap Z Fid; msize : Z }.
(** The server and the kernel state its callbacks act on. *)
Record sys := mkSys { srv : StyxServer; world : W }.

Definition new (r : Node) : StyxServer := mkServer r ∅ MAX_MSIZE.

Definition set_srv (f : StyxServer -> StyxServer) : st sys Empty_set unit :=
  fun s => (Ok tt, mkSys (f (srv s)) (world s)).
Definition set_fid (fid : Z) (f : Fid) (s : StyxServer) : StyxServer :=
  mkServer (root s) (<[fid := f]> (fids s)) (msize s).

Fixpoint resolve (n : Node) (path : list (list Z)) : option Node :=
  match path with
  | [] => Some n
  | c :: path => n' ← child n c; resolve n' path
  end.
Definition resolve_path (s : StyxServer) (path : list (list Z)) : option Node := resolve (root s) path.

(** Writing through [resolve_path_mut(path)]. *)
Fixpoint replace (n : Node) (path : list (list Z)) (new : Node) : Node :=
  match path with
  | [] => new
  | c :: path =>
      match child n c with
      | Some n' => child_set n c (replace n' path new)
      | None => n
      end
  end.

Definition fid_to_node (s : StyxServer) (fid : Z) : option Node :=
  f ← fids s !! fid; resolve_path s (fpath f).

Definition error (tag : Z) (msg : list Z) : StyxMsg := Rerror tag msg.

Definition node_qid (n : Node) : Qid := if is_dir n then dir (path_id n) else file (path_id n).

(** [for name in &wnames]: the final path and the qids, [None] when a
    component is missing. *)
Fixpoint walk_loop (s : StyxServer) (current : list (list Z)) (wnames : list (list Z)) (qids : list Qid)
    : option (list (list Z) * list Qid) :=
  match wnames with
  | [] => Some (current, qids)
  | nm :: wnames =>
      let current := current ++ [nm] in
      n ← resolve_path s current;
      walk_loop s current wnames (qids ++ [node_qid n])
  end.

Definition fid_count (s : StyxServer) : Z := Z.of_nat (size (fids s)).

Definition do_version (tag ms : Z) (ver : list Z) : st sys Empty_set StyxMsg :=
  let m := Z.min ms MAX_MSIZE in
  _ ← set_srv (fun s => mkServer (root s) (fids s) m);
  let v := if starts_with ver (str "9P2000") then str "9P2000" else str "unknown" in
  mret (Rversion tag m v).

Definition do_attach (tag fid : Z) : st sys Empty_set StyxMsg :=
  s ← st_get;
  if MAX_FIDS <=? fid_count (srv s) then mret (error tag (str "too many fids"))
  else
    _ ← set_srv (set_fid fid (mkFid [] false));
    mret (Rattach tag (dir (path_id (root (srv s))))).

Definition do_walk (tag fid newfid : Z) (wnames : list (list Z)) : st sys Empty_set StyxMsg :=
  s ← st_get;
  match fids (srv s) !! fid with
  | None => mret (error tag (str "unknown fid"))
  | Some f =>
      match walk_loop (srv s) (fpath f) wnames [] with
      | None => mret (error tag (str "file not found"))
      | Some (current, qids) =>
          if negb (fid =? newfid) && (MAX_FIDS <=? fid_count (srv s)) then
            mret (error tag (str "too many fids"))
          else
            _ ← set_srv (set_fid newfid (mkFid current false));
            mret (Rwalk tag qids)
      end
  end.

Definition do_open (tag fid : Z) : st sys Empty_set StyxMsg :=
  s ← st_get;
  match fid_to_node (srv s) fid with
  | None => mret (error tag (str "unknown fid"))
  | Some n =>
      _ ← set_srv (fun v =>
            match fids v !! fid with
            | Some f => set_fid fid (mkFid (fpath f) true) v
            | None => v
            end);
      mret (Ropen tag (node_qid n) (wrap32 (msize (srv s) - 24)))
  end.

Definition do_read (tag fid offset count : Z) : st sys Empty_set StyxMsg :=
  s ← st_get;
  match fids (srv s) !! fid with
  | None => mret (error tag (str "unknown fid"))
  | Some f =>
      if negb (fopen f) then mret (error tag (str "fid not open"))
      else
        match fid_to_node (srv s) fid with
        | None => mret (error tag (str "unknown fid"))
        | Some n =>
            let content := node_read n (world s) in
            if zlen content <=? offset then mret (Rread tag [])
            else
              let e := Z.min (offset ⊞ count) (zlen content) in
              data ← st_lift (index_range content offset e);
              mret (Rread tag data)
        end
  end.

Definition do_write (tag fid : Z) (data : list Z) : st sys Empty_set StyxMsg :=
  s ← st_get;
  match fids (srv s) !! fid with
  | None => mret (error tag (str "unknown fid"))
  | Some f =>
      if negb (fopen f) then mret (error tag (str "fid not open"))
      else
        match fid_to_node (srv s) fid with
        | None => mret (error tag (str "unknown fid"))
        | Some n =>
            let '(r, n', w') := node_write n data (world s) in
            let v := srv s in
            _ ← st_put (mkSys (mkServer (replace (root v) (fpath f) n') (fids v) (msize v)) w');
            match r with
            | None => mret (Rwrite tag (wrap32 (zlen data)))
            | Some e => mret (error tag e)
            end
        end
  end.

Definition do_clunk (tag fid : Z) : st sys Empty_set StyxMsg :=
  _ ← set_srv (fun s => mkServer (root s) (delete fid (fids s)) (msize s));
  mret (Rclunk tag).

Definition do_stat (tag fid : Z) : st sys Empty_set StyxMsg :=
  s ← st_get;
  match fid_to_node (srv s) fid with
  | None => mret (error tag (str "unknown fid"))
  | Some n =>
      let mode := if is_dir n then Z.lor 0x80000000 0x1ED else 0x1A4 in (* 0o755, 0o644 *)
      let len := if is_dir n then 0 else zlen (node_read n (world s)) in
      mret (Rstat tag (mkStat (node_qid n) mode len (name n)))
  end.

Definition dispatch (msg : StyxMsg) : st sys Empty_set StyxMsg :=
  match msg with
  | Tversion tag ms ver => do_version tag ms ver
  | Tattach tag fid _ _ _ => do_attach tag fid
  | Twalk tag fid newfid wnames => do_walk tag fid newfid wnames
  | Topen tag fid _ => do_open tag fid
  | Tread tag fid offset count => do_read tag fid offset count
  | Twrite tag fid _ data => do_write tag fid data
  | Tclunk tag fid => do_clunk tag fid
  | Tstat tag fid => do_stat tag fid
  | _ => mret (error 0 (str "unhandled message type"))
  end.

Definition handle_message (data : list Z) : st sys Empty_set (list Z) :=
  match parse data with
  | Ok msg => response ← dispatch msg; st_lift (encode response)
  | Err _ => st_lift (encode (Rerror 0 (str "parse error")))
  | Panic => st_panic
  end.

End namespace.
Arguments mkNode {W}.
Arguments Dir {W}.
Arguments SyntheticFile {W}.
Arguments CtlFile {W}.
Arguments name {W}.
Arguments path_id {W}.
Arguments kind {W}.
Arguments new_node {W}.
Arguments node_dir {W}.
Arguments node_file {W}.
Arguments file_rw {W}.
Arguments ctl {W}.
Arguments add_child {W}.
Arguments child {W}.
Arguments child_set {W}.
Arguments is_dir {W}.
Arguments node_read {W}.
Arguments node_write {W}.
Arguments mkServer {W}.
Arguments root {W}.
Arguments fids {W}.
Arguments msize {W}.
Arguments mkSys {W}.
Arguments srv {W}.
Arguments world {W}.
Arguments new {W}.
Arguments set_srv {W}.
Arguments set_fid {W}.
Arguments resolve {W}.
Arguments resolve_path {W}.
Arguments replace {W}.
Arguments fid_to_node {W}.
Arguments node_qid {W}.
Arguments walk_loop {W}.
Arguments fid_count {W}.
Arguments do_version {W}.
Arguments do_attach {W}.
Arguments do_walk {W}.
Arguments do_open {W}.
Arguments do_read {W}.
Arguments do_write {W}.
Arguments do_clunk {W}.
Arguments do_stat {W}.
Arguments dispatch {W}.
Arguments handle_message {W}.

(** ** Lemmas *)
Section lemmas.
Context {W : Type}.
Implicit Types (n m : Node W) (s : StyxServer W) (x : sys W).

(** What identifies a node to a client. *)
Definition ident (n : Node W) : list Z * Z * bool := (name n, path_id n, is_dir n).

Lemma child_set_child n c n' m c' :
  child n c = Some n' -> child (child_set n c m) c' = if bool_decide (c' = c) then Some m else child n c'.
Proof.
  unfold child, child_set. destruct n as [nm p k]. destruct k as [ch| |]; simpl; try done.
  intros Hc. apply BTree.get_set. eauto.
Qed.

Lemma child_set_ident n c m : ident (child_set n c m) = ident n.
Proof. by destruct n as [nm p []]. Qed.

Lemma child_leaf n c : is_dir n = false -> child n c = None.
Proof. by destruct n as [nm p []]. Qed.

Lemma node_qid_ident n m : ident n = ident m -> node_qid n = node_qid m.
Proof. unfold ident, node_qid. intros H. injection H as _ -> ->. done. Qed.

Lemma resolve_snoc n p c : resolve n (p ++ [c]) = (m ← resolve n p; child m c).
Proof.
  revert n. induction p as [|d p IH]; intros n; simpl.
  - by destruct (child n c).
  - destruct (child n d); simpl; [apply IH|done].
Qed.

Lemma resolve_app n p q : resolve n (p ++ q) = (m ← resolve n p; resolve m q).
Proof.
  revert n. induction p as [|d p IH]; intros n; simpl; [done|].
  destruct (child n d); simpl; [apply IH|done].
Qed.

Lemma resolve_replace_eq n p m m' : resolve n p = Some m -> resolve (replace n p m') p = Some m'.
Proof.
  revert n. induction p as [|c p IH]; intros n; simpl; [done|].
  destruct (child n c) as [n1|] eqn:Hc; simpl; [|done]. intros Hr.
  rewrite (child_set_child _ _ n1) by done. rewrite bool_decide_eq_true_2 by done. simpl. by apply IH.
Qed.

(** Replacing a leaf by a leaf with the same identity changes no path. *)
Lemma resolve_replace_ident n p m m' q :
  resolve n p = Some m -> is_dir m = false -> ident m' = ident m ->
  ident <$> resolve (replace n p m') q = ident <$> resolve n q.
Proof.
  intros Hp Hm Hi. assert (is_dir m' = false) as Hm' by (injection Hi as _ _ ->; done).
  revert n q Hp. induction p as [|c p IH]; intros n q; simpl.
  - intros [= ->]. destruct q as [|d q]; simpl; [by rewrite Hi|]. by rewrite !child_leaf.
  - destruct (child n c) as [n1|] eqn:Hc; simpl; [|done]. intros Hr.
    destruct q as [|d q]; simpl; [by rewrite child_set_ident|].
    rewrite (child_set_child _ _ n1) by done.
    case_bool_decide as Hd; [|done]. subst d. rewrite Hc. simpl. by apply IH.
Qed.

Lemma replace_same n p m : resolve n p = Some m -> replace n p m = n.
Proof.
  revert n. induction p as [|c p IH]; intros n; simpl; [by intros [= ->]|].
  destruct (child n c) as [n1|] eqn:Hc; simpl; [|done]. intros Hr. rewrite IH by done.
  unfold child, child_set in *. destruct n as [nm i []]; simpl in *; try done. by rewrite BTree.set_get.
Qed.

Lemma node_write_cases n data w e n' w' :
  node_write n data w = (e, n', w') ->
  n' = n \/ (is_dir n = false /\ ident n' = ident n /\ e = None).
Proof.
  unfold node_write. destruct n as [nm p k]. destruct k as [ch|rd wr|cmd resp]; simpl.
  - intros [= _ <- _]. by left.
  - destruct wr as [h|]; [destruct (h data w)|]; intros [= _ <- _]; by left.
  - destruct (cmd data w). intros [= <- <- _]. by right.
Qed.

(** *** The state invariant *)
Record srv_inv (s : StyxServer W) : Prop := {
  inv_fids : fid_count s <= MAX_FIDS;
  inv_paths : forall fid f, fids s !! fid = Some f -> is_Some (resolve_path s (fpath f));
  inv_msize : 0 <= msize s <= MAX_MSIZE;
}.

Lemma new_inv r : srv_inv (new r).
Proof. split; [done| |done]. intros fid f Hf. cbn [new fids] in Hf. by rewrite lookup_empty in Hf. Qed.

Lemma set_fid_count fid f s :
  fid_count (set_fid fid f s) = if bool_decide (is_Some (fids s !! fid)) then fid_count s else fid_count s + 1.
Proof.
  unfold fid_count, set_fid. simpl. case_bool_decide as H.
  - rewrite map_size_insert_Some by done. done.
  - rewrite map_size_insert_None by (by apply eq_None_not_Some). lia.
Qed.

Lemma set_fid_inv fid f s :
  srv_inv s -> is_Some (resolve_path s (fpath f)) ->
  is_Some (fids s !! fid) \/ fid_count s < MAX_FIDS -> srv_inv (set_fid fid f s).
Proof.
  intros [H1 H2 H3] Hf Hroom. split; [|intros fid' f'|done].
  - rewrite set_fid_count. case_bool_decide as Hs; [lia|]. destruct Hroom; [done|lia].
  - unfold set_fid. simpl. destruct (decide (fid = fid')) as [<-|Hne].
    + rewrite lookup_insert_eq. by intros [= <-].
    + rewrite lookup_insert_ne by done. apply H2.
Qed.

Lemma clunk_inv fid s : srv_inv s -> srv_inv (mkServer (root s) (delete fid (fids s)) (msize s)).
Proof.
  intros [H1 H2 H3]. split; [| |done].
  - unfold fid_count in *. cbn [fids].
    assert (size (delete fid (fids s)) <= size (fids s))%nat; [|lia].
    rewrite map_size_delete. destruct (fids s !! fid); unfold id; lia.
  - intros fid' g Hg. cbn [fids] in Hg. apply lookup_delete_Some in Hg as [_ Hg]. by eapply H2.
Qed.

Lemma write_inv s f n data w e n' w' :
  srv_inv s -> resolve_path s (fpath f) = Some n -> node_write n data w = (e, n', w') ->
  srv_inv (mkServer (replace (root s) (fpath f) n') (fids s) (msize s)) /\
  forall q, ident <$> resolve (replace (root s) (fpath f) n') q = ident <$> resolve_path s q.
Proof.
  intros [H1 H2 H3] Hn Hw.
  assert (forall q, ident <$> resolve (replace (root s) (fpath f) n') q = ident <$> resolve_path s q) as Hid.
  { intros q. destruct (node_write_cases _ _ _ _ _ _ Hw) as [->|(Hl & Hi & _)].
    - unfold resolve_path. by rewrite replace_same.
    - by eapply resolve_replace_ident. }
  split; [|done]. split; [done| |done]. intros fid g Hg. apply (fmap_is_Some ident).
  unfold resolve_path. simpl. rewrite Hid. apply fmap_is_Some. by eapply H2.
Qed.

(** *** Walking *)
Lemma walk_loop_some s cur names qids path qs :
  walk_loop s cur names qids = Some (path, qs) ->
  path = cur ++ names /\ exists new, qs = qids ++ new /\ length new = length names /\
    forall i q, new !! i = Some q -> exists n, resolve_path s (cur ++ take (S i) names) = Some n /\ q = node_qid n.
Proof.
  revert cur qids. induction names as [|nm names IH]; intros cur qids; simpl.
  - intros [= <- <-]. rewrite app_nil_r. split; [done|]. exists []. rewrite app_nil_r. done.
  - intros (n & Hn & Hw)%bind_Some. apply IH in Hw as (-> & new & -> & Hlen & Hq).
    rewrite <- !app_assoc. split; [done|]. exists (node_qid n :: new). split; [done|]. split; [simpl; lia|].
    intros [|i] q; simpl.
    + intros [= <-]. eauto.
    + intros Hi. destruct (Hq i q Hi) as (n' & Hn' & ->). exists n'. split; [|done].
      rewrite <- app_assoc in Hn'. done.
Qed.

Lemma walk_loop_none s cur names qids :
  is_Some (resolve_path s cur) ->
  walk_loop s cur names qids = None <-> resolve_path s (cur ++ names) = None.
Proof.
  revert cur qids. induction names as [|nm names IH]; intros cur qids Hc; simpl.
  - rewrite app_nil_r. split; [done|]. intros H. rewrite H in Hc. by destruct Hc.
  - destruct (resolve_path s (cur ++ [nm])) as [n|] eqn:Hn; simpl.
    + rewrite IH by eauto. by rewrite <- app_assoc.
    + split; [intros _|done]. change (nm :: names) with ([nm] ++ names). rewrite app_assoc.
      unfold resolve_path in *. rewrite resolve_app, Hn. done.
Qed.

Lemma walk_resolves s cur names qids path qs :
  is_Some (resolve_path s cur) -> walk_loop s cur names qids = Some (path, qs) -> is_Some (resolve_path s path).
Proof.
  intros Hc Hw. pose proof (walk_loop_some _ _ _ _ _ _ Hw) as [-> _].
  destruct (resolve_path s (cur ++ names)) eqn:Hr; [eauto|].
  apply (walk_loop_none s cur names qids Hc) in Hr. congruence.
Qed.

(** *** Every request *)

(** The reply carries the request's tag and is its answer or an error. *)
Definition reply_ok (req resp : StyxMsg) : Prop :=
  match req, resp with
  | Tversion t _ _, Rversion t' _ _ | Tattach t _ _ _ _, Rattach t' _ | Twalk t _ _ _, Rwalk t' _
  | Topen t _ _, Ropen t' _ _ | Tread t _ _ _, Rread t' _ | Twrite t _ _ _, Rwrite t' _
  | Tclunk t _, Rclunk t' | Tstat t _, Rstat t' _
  | (Tattach t _ _ _ _ | Twalk t _ _ _ | Topen t _ _ | Tread t _ _ _ | Twrite t _ _ _ | Tstat t _), Rerror t' _ => t' = t
  | _, _ => False
  end.

(** The numeric fields of a request are in range, and what a read returns is
    a [Vec] (at most [isize::MAX] bytes). *)
Definition safe_request (x : sys W) (m : StyxMsg) : Prop :=
  match m with
  | Tversion _ ms _ => 0 <= ms
  | Tread _ fid offset count =>
      0 <= offset /\ is_u32 count /\
      forall n, fid_to_node (srv x) fid = Some n -> zlen (node_read n (world x)) < 2 ^ 63
  | Tattach _ _ _ _ _ | Twalk _ _ _ _ | Topen _ _ _ | Twrite _ _ _ _ | Tclunk _ _ | Tstat _ _ => True
  | _ => False
  end.

Lemma styx_read_ok x tag fid offset count f n :
  fids (srv x) !! fid = Some f -> fopen f = true -> fid_to_node (srv x) fid = Some n ->
  0 <= offset -> is_u32 count -> zlen (node_read n (world x)) < 2 ^ 63 ->
  do_read tag fid offset count x = (Ok (Rread tag (slice (node_read n (world x)) offset count)), x).
Proof.
  intros Hf Ho Hn H0 Hc Hlen. unfold do_read, mbind, st_bind, st_get. rewrite Hf, Ho, Hn. cbn [negb].
  unfold is_u32 in Hc. destruct (Z.leb_spec (zlen (node_read n (world x))) offset) as [Hge|Hlt].
  - unfold mret, st_ret. do 3 f_equal. unfold slice. rewrite drop_ge, take_nil; [done|]. unfold zlen in *. lia.
  - rewrite wrap64_small by (change (2 ^ 64) with (2 * 2 ^ 63); lia). unfold st_lift.
    rewrite index_range_ok by lia. unfold mret, st_ret. do 3 f_equal. unfold slice.
    destruct (decide (offset + count <= zlen (node_read n (world x)))).
    + rewrite Z.min_l by lia. do 2 f_equal. lia.
    + rewrite Z.min_r by lia. rewrite !take_ge; [done|rewrite length_drop; unfold zlen in *; lia..].
Qed.

Lemma dispatch_ok (msg : StyxMsg) x :
  srv_inv (srv x) -> safe_request x msg ->
  wp (dispatch msg) (fun r x' => srv_inv (srv x') /\ reply_ok msg r /\
      forall q, ident <$> resolve_path (srv x') q = ident <$> resolve_path (srv x) q) (fun _ _ => False) x.
Proof.
  intros Hi Hs. pose proof Hi as [Hc Hp Hm].
  assert (forall r, reply_ok msg r -> srv_inv (srv x) /\ reply_ok msg r /\
    forall q, ident <$> resolve_path (srv x) q = ident <$> resolve_path (srv x) q) as Hsame by done.
  destruct msg; try done; cbn [dispatch safe_request] in *.
  - unfold wp. simpl. split; [|done]. split; simpl; [done|exact Hp|unfold MAX_MSIZE in *; lia].
  - unfold do_attach. apply wp_bind, wp_get. destruct (Z.leb_spec MAX_FIDS (fid_count (srv x))); [by apply wp_ret, Hsame|].
    unfold wp. simpl. split; [|done]. apply set_fid_inv; [done|by eexists|by right].
  - unfold do_walk. apply wp_bind, wp_get. destruct (fids (srv x) !! fid) as [f|] eqn:Hf; [|by apply wp_ret, Hsame].
    destruct (walk_loop (srv x) (fpath f) wnames []) as [[cur qids]|] eqn:Hw; [|by apply wp_ret, Hsame].
    destruct (negb (fid =? newfid) && (MAX_FIDS <=? fid_count (srv x))) eqn:Hfull; [by apply wp_ret, Hsame|].
    unfold wp. simpl. split; [|done]. apply set_fid_inv; [done|by eapply walk_resolves; [eapply Hp|]|].
    destruct (Z.eqb_spec fid newfid) as [<-|]; [left; eauto|right]. simpl in Hfull. by apply Z.leb_gt in Hfull.
  - unfold do_open. apply wp_bind, wp_get. destruct (fid_to_node (srv x) fid) as [n|] eqn:Hn; [|by apply wp_ret, Hsame].
    unfold fid_to_node in Hn. apply bind_Some in Hn as (f & Hf & Hn). unfold wp. simpl. rewrite Hf.
    split; [|done]. apply set_fid_inv; [done|by eexists|left; eauto].
  - destruct Hs as (H1 & H2 & H3). unfold wp.
    destruct (fids (srv x) !! fid) as [f|] eqn:Hf;
      [|unfold do_read, mbind, st_bind, st_get; rewrite Hf; by apply Hsame].
    destruct (fopen f) eqn:Ho; [|unfold do_read, mbind, st_bind, st_get; rewrite Hf, Ho; by apply Hsame].
    destruct (fid_to_node (srv x) fid) as [n|] eqn:Hn;
      [|unfold do_read, mbind, st_bind, st_get; rewrite Hf, Ho, Hn; by apply Hsame].
    rewrite (styx_read_ok x tag fid offset count f n) by auto. by apply Hsame.
  - unfold do_write. apply wp_bind, wp_get. destruct (fids (srv x) !! fid) as [f|] eqn:Hf; [|by apply wp_ret, Hsame].
    destruct (fopen f); [|by apply wp_ret, Hsame]. cbn [negb].
    destruct (fid_to_node (srv x) fid) as [n|] eqn:Hn; [|by apply wp_ret, Hsame].
    unfold fid_to_node in Hn. rewrite Hf in Hn. simpl in Hn.
    destruct (node_write n data (world x)) as [[e n'] w'] eqn:Hw.
    destruct (write_inv _ _ _ _ _ _ _ _ Hi Hn Hw) as [Hi' Hid].
    apply wp_bind, wp_put. destruct e; apply wp_ret; done.
  - apply wp_bind. unfold wp at 1, set_srv. apply wp_ret. split; [by apply clunk_inv|done].
  - unfold do_stat. apply wp_bind, wp_get. destruct (fid_to_node (srv x) fid); apply wp_ret; by apply Hsame.
Qed.

End lemmas.
(** *** Composed with the wire format *)
Section wire.
Context {W : Type}.

Lemma request_ok_safe (x : sys W) msg :
  request_ok msg ->
  (forall fid n, fid_to_node (srv x) fid = Some n -> zlen (node_read n (world x)) < 2 ^ 63) -> safe_request x msg.
Proof.
  intros Hm Hv. destruct msg; try done; cbn [request_ok safe_request] in *; unfold is_u32, is_u64 in *.
  - lia.
  - destruct Hm as (_ & _ & H1 & H2). split; [lia|]. split; [done|]. by apply Hv.
Qed.

Lemma handle_request msg bytes rest r (x x' : sys W) :
  request_ok msg -> wire_request msg = Some bytes -> dispatch msg x = (Ok r, x') -> response_ok r ->
  exists b, handle_message (bytes ++ rest) x = (Ok b, x') /\ client_decode b = Some r.
Proof.
  intros Hok Hw Hd Hr. destruct (encode_decodes r Hr) as (b & He & Hc). exists b. split; [|done].
  unfold handle_message. rewrite (parse_wire_request msg bytes rest Hok Hw).
  unfold mbind, st_bind. rewrite Hd. unfold st_lift. by rewrite He.
Qed.

End wire.

(** A client that reads a file of [fid] in pieces of [count] bytes, until a
    read returns nothing. *)
Fixpoint read_all {W} (fuel : nat) (tag fid offset count : Z) (x : sys W) : option (list Z * sys W) :=
  match fuel with
  | O => None
  | S fuel =>
      match dispatch (Tread tag fid offset count) x with
      | (Ok (Rread _ data), x') =>
          if zlen data =? 0 then Some ([], x')
          else '(rest, x'') ← read_all fuel tag fid (offset + zlen data) count x'; Some (data ++ rest, x'')
      | _ => None
      end
  end.

Lemma read_all_ok {W} fuel tag fid offset count (x : sys W) f n :
  fids (srv x) !! fid = Some f -> fopen f = true -> fid_to_node (srv x) fid = Some n ->
  0 <= offset <= zlen (node_read n (world x)) -> 0 < count -> is_u32 count -> zlen (node_read n (world x)) < 2 ^ 63 ->
  zlen (node_read n (world x)) - offset < Z.of_nat fuel ->
  read_all fuel tag fid offset count x = Some (drop (Z.to_nat offset) (node_read n (world x)), x).
Proof.
  intros Hf Ho Hn Hoff Hc0 Hc Hlen. set (content := node_read n (world x)) in *. revert offset Hoff.
  induction fuel as [|fuel IH]; intros offset Hoff Hfuel; [lia|]. cbn [read_all dispatch].
  rewrite (styx_read_ok x tag fid offset count f n) by (done || lia). fold content.
  assert (zlen (slice content offset count) = Z.min count (zlen content - offset)) as Hz
    by (unfold slice; rewrite zlen_take, zlen_drop; lia).
  destruct (Z.eqb_spec (zlen (slice content offset count)) 0) as [H0|H0].
  - rewrite drop_ge by (unfold zlen in *; lia). done.
  - rewrite IH by lia. cbn [mbind option_bind]. do 2 f_equal. rewrite Hz. unfold slice.
    destruct (decide (count <= zlen content - offset)).
    + rewrite Z.min_l by lia. rewrite Z2Nat.inj_add by lia. rewrite <- drop_drop. apply take_drop.
    + rewrite Z.min_r by lia. replace (offset + (zlen content - offset)) with (zlen content) by lia.
      rewrite take_ge by (rewrite length_drop; unfold zlen in *; lia).
      rewrite (drop_ge _ (Z.to_nat (zlen content))) by (unfold zlen; lia). apply app_nil_r.
Qed.

(** Sequences of requests. *)
Inductive run {W} : sys W -> sys W -> Prop :=
| run_nil x : run x x
| run_cons msg r x x' x'' :
    safe_request x msg -> dispatch msg x = (Ok r, x') -> run x' x'' -> run x x''.

Lemma run_inv {W} (x x' : sys W) :
  run x x' -> srv_inv (srv x) ->
  srv_inv (srv x') /\ forall q, ident <$> resolve_path (srv x') q = ident <$> resolve_path (srv x) q.
Proof.
  induction 1 as [x|msg r x x1 x2 Hs Hd Hr IH]; intros Hi; [done|].
  pose proof (wp_eq _ _ _ _ _ (dispatch_ok msg x Hi Hs) Hd) as (Hi1 & _ & Hid).
  destruct (IH Hi1) as [Hi2 Hid2]. split; [done|]. intros q. by rewrite Hid2, Hid.
Qed.

(** ** Properties *)

(** C10.  A request that a client writes by the 9P2000 rules is answered end to
    end: whatever follows it in the buffer, the server parses it, runs the
    handler, and the reply it encodes is decoded by the client as exactly the
    handler's response.  The handler never panics, answers with the request's
    tag and matching type or an error, and keeps the invariant: at most 256
    fids, each fid's path resolving to a node, and no path's name, id or kind
    changed. *)
Theorem styx_end_to_end {W} msg bytes rest (x : sys W) :
  srv_inv (srv x) -> request_ok msg -> wire_request msg = Some bytes ->
  (forall fid n, fid_to_node (srv x) fid = Some n -> zlen (node_read n (world x)) < 2 ^ 63) ->
  exists r x', dispatch msg x = (Ok r, x') /\ reply_ok msg r /\ srv_inv (srv x') /\
    (forall q, ident <$> resolve_path (srv x') q = ident <$> resolve_path (srv x) q) /\
    (response_ok r -> exists b, handle_message (bytes ++ rest) x = (Ok b, x') /\ client_decode b = Some r).
Proof.
  intros Hi Hok Hw Hv. pose proof (dispatch_ok msg x Hi (request_ok_safe x msg Hok Hv)) as Hd. unfold wp in Hd.
  destruct (dispatch msg x) as [[r|[]|] x'] eqn:He; [|done]. destruct Hd as (H1 & H2 & H3).
  exists r, x'. split_and!; try done. intros Hr. by eapply handle_request.
Qed.

(** Whatever requests are sent to a new server, it never holds more than
    256 fids, every fid keeps pointing at a node of the tree, the negotiated
    message size never exceeds 64 KiB, and the tree's paths keep their names,
    ids and kinds. *)
Theorem styx_reachable {W} r w (x : sys W) :
  run (mkSys (new r) w) x ->
  fid_count (srv x) <= 256 /\ 0 <= msize (srv x) <= 65536 /\
  (forall fid f, fids (srv x) !! fid = Some f -> is_Some (fid_to_node (srv x) fid)) /\
  forall q, ident <$> resolve_path (srv x) q = ident <$> resolve r q.
Proof.
  intros Hr. destruct (run_inv _ _ Hr (new_inv r)) as [[H1 H2 H3] Hid]. split_and!; try done.
  - apply H3. - apply H3. - intros fid f Hf. unfold fid_to_node. rewrite Hf. simpl. by eapply H2.
Qed.

(** [Twalk] from a known fid fails with "file not found" exactly when the
    names do not all resolve from the fid's node, and changes nothing then;
    otherwise it answers with one qid per name (that of the node reached by each
    prefix) and the new fid, closed, stands for the extended path, unless the fid
    table is full and a new fid was asked for.  Other fids are untouched. *)
Theorem styx_walk_correct {W} tag fid newfid names f (x : sys W) :
  srv_inv (srv x) -> fids (srv x) !! fid = Some f ->
  match resolve_path (srv x) (fpath f ++ names) with
  | None => dispatch (Twalk tag fid newfid names) x = (Ok (Rerror tag (str "file not found")), x)
  | Some _ =>
      if negb (fid =? newfid) && (MAX_FIDS <=? fid_count (srv x)) then
        dispatch (Twalk tag fid newfid names) x = (Ok (Rerror tag (str "too many fids")), x)
      else exists qids,
        dispatch (Twalk tag fid newfid names) x =
          (Ok (Rwalk tag qids), mkSys (set_fid newfid (mkFid (fpath f ++ names) false) (srv x)) (world x)) /\
        length qids = length names /\
        forall i q, qids !! i = Some q ->
          exists n, resolve_path (srv x) (fpath f ++ take (S i) names) = Some n /\ q = node_qid n
  end.
Proof.
  intros Hi Hf. pose proof (inv_paths _ Hi fid f Hf) as Hres.
  pose proof (walk_loop_none (srv x) (fpath f) names [] Hres) as Hnone.
  cbn [dispatch]. unfold do_walk, mbind, st_bind, st_get. rewrite Hf.
  destruct (walk_loop (srv x) (fpath f) names []) as [[cur qids]|] eqn:Hw.
  - destruct (walk_loop_some _ _ _ _ _ _ Hw) as (-> & new & -> & Hlen & Hq).
    destruct (resolve_path (srv x) (fpath f ++ names)) eqn:Hr; [|by destruct Hnone as [_ Hnone]; discriminate Hnone].
    destruct (negb (fid =? newfid) && (MAX_FIDS <=? fid_count (srv x))); [done|]. exists new. done.
  - by rewrite (proj1 Hnone eq_refl).
Qed.

(** Reading an open fid returns the requested slice of the node's content
    and changes nothing; a client that reads on from where the last reply ended
    gets the whole content, after at most one reply per byte. *)
Theorem styx_read_correct {W} tag fid count f n (x : sys W) :
  fids (srv x) !! fid = Some f -> fopen f = true -> fid_to_node (srv x) fid = Some n ->
  0 < count -> is_u32 count -> zlen (node_read n (world x)) < 2 ^ 63 ->
  (forall offset, 0 <= offset ->
     dispatch (Tread tag fid offset count) x = (Ok (Rread tag (slice (node_read n (world x)) offset count)), x)) /\
  read_all (S (length (node_read n (world x)))) tag fid 0 count x = Some (node_read n (world x), x).
Proof.
  intros Hf Ho Hn Hc0 Hc Hlen. split.
  - intros offset Hoff. by apply (styx_read_ok x tag fid offset count f n).
  - rewrite (read_all_ok _ tag fid 0 count x f n) by (done || (unfold zlen; lia)). done.
Qed.

(** A command written to an open control file runs its callback once on
    the kernel state, and the fid then reads back the callback's response; every
    other path still reads the node it did, with the same identity. *)
Theorem styx_ctl_roundtrip {W} tag fid offset cmd f nm p on_command old (x : sys W) :
  fids (srv x) !! fid = Some f -> fopen f = true ->
  fid_to_node (srv x) fid = Some (mkNode nm p (CtlFile on_command old)) ->
  exists x', dispatch (Twrite tag fid offset cmd) x = (Ok (Rwrite tag (wrap32 (zlen cmd))), x') /\
    world x' = (on_command cmd (world x)).2 /\ fids (srv x') = fids (srv x) /\
    fid_to_node (srv x') fid = Some (mkNode nm p (CtlFile on_command (on_command cmd (world x)).1)) /\
    forall q, ident <$> resolve_path (srv x') q = ident <$> resolve_path (srv x) q.
Proof.
  intros Hf Ho Hn. pose proof Hn as Hn0. unfold fid_to_node in Hn0. rewrite Hf in Hn0. simpl in Hn0.
  cbn [dispatch]. unfold do_write, mbind, st_bind, st_get. rewrite Hf, Ho, Hn. cbn [negb node_write kind name path_id].
  destruct (on_command cmd (world x)) as [resp w'] eqn:Hc. eexists. split; [reflexivity|].
  split; [done|]. split; [done|]. split.
  - unfold fid_to_node. simpl. rewrite Hf. simpl. unfold resolve_path. simpl. by eapply resolve_replace_eq.
  - intros q. by apply (resolve_replace_ident (root (srv x)) (fpath f) (mkNode nm p (CtlFile on_command old))).
Qed.

(** A client that negotiates a message size below 24 is told, when it
    opens a node, that it may transfer almost 4 GiB per message: [msize - 24]
    wraps around. *)
Theorem styx_iounit_wraps {W} tag ms ver fid n mode (x : sys W) :
  0 <= ms < 24 -> fid_to_node (srv x) fid = Some n ->
  exists x1 x2, dispatch (Tversion tag ms ver) x = (Ok (Rversion tag ms
      (if starts_with ver (str "9P2000") then str "9P2000" else str "unknown")), x1) /\
    dispatch (Topen tag fid mode) x1 = (Ok (Ropen tag (node_qid n) (2 ^ 32 + ms - 24)), x2).
Proof.
  intros Hms Hn. cbn [dispatch]. eexists _, _. split.
  - unfold do_version, mbind, st_bind, set_srv, mret, st_ret. rewrite Z.min_l by (unfold MAX_MSIZE; lia). reflexivity.
  - unfold do_open, mbind, st_bind, st_get. simpl. unfold fid_to_node, resolve_path in *. simpl. rewrite Hn.
    unfold mret, st_ret. do 3 f_equal. unfold wrap32. lia.
Qed.
(** ** The default namespace *)
Definition newline : list Z := [10].

Definition meminfo (ps : Phys.AllocatorInner) : list Z :=
  let free := Phys.free_count ps in
  let total := Phys.total_count ps in
  str "total_pages: " ++ dec total ++ newline ++ str "free_pages: " ++ dec free ++ newline ++
  str "used_pages: " ++ dec (total ⊟ free) ++ newline.

Definition build_root : st Z Empty_set (Node Phys.AllocatorInner) :=
  root ← node_dir [];
  db ← node_dir (str "db");
  c ← ctl (str "ctl") (fun _ w => (str "ok" ++ newline, w));
  schema ← node_file (str "schema") (fun _ => str "-- schema placeholder" ++ newline);
  sys ← node_dir (str "sys");
  uptime ← node_file (str "uptime") (fun _ => str "0" ++ newline);
  mem ← node_file (str "meminfo") meminfo;
  hw ← node_dir (str "hw");
  nvme ← node_dir (str "nvme");
  gpu ← node_dir (str "gpu");
  agents ← node_dir (str "agents");
  let db := add_child (add_child db c) schema in
  let sys := add_child (add_child sys uptime) mem in
  let hw := add_child (add_child hw nvme) gpu in
  mret (add_child (add_child (add_child (add_child root db) sys) hw) agents).

(** *** Witnesses: the default namespace, with fid 1 walked to /db/ctl. *)
Definition demo_root : Node Phys.AllocatorInner :=
  match fst (build_root 1) with Ok r => r | _ => mkNode [] 0 (Dir []) end.
Definition demo0 : sys Phys.AllocatorInner := mkSys (new demo_root) Phys.demo.
Definition demo1 : sys Phys.AllocatorInner := snd (dispatch (Tattach 1 0 NOFID [] []) demo0).
Definition demo2 : sys Phys.AllocatorInner :=
  snd (dispatch (Twalk 2 0 1 [str "db"; str "ctl"]) demo1).
Definition demo3 : sys Phys.AllocatorInner := snd (dispatch (Topen 3 1 2) demo2).
Definition ctl_node : Node Phys.AllocatorInner :=
  mkNode (str "ctl") 3 (CtlFile (fun _ w => (str "ok" ++ newline, w)) []).

Lemma demo_run : run demo0 demo3.
Proof.
  eapply (run_cons (Tattach 1 0 NOFID [] [])); [exact I|reflexivity|].
  eapply (run_cons (Twalk 2 0 1 [str "db"; str "ctl"])); [exact I|reflexivity|].
  eapply (run_cons (Topen 3 1 2)); [exact I|reflexivity|]. apply run_nil.
Qed.

Lemma demo2_inv : srv_inv (srv demo2).
Proof.
  assert (run demo0 demo2) as Hr.
  { eapply (run_cons (Tattach 1 0 NOFID [] [])); [exact I|reflexivity|].
    eapply (run_cons (Twalk 2 0 1 [str "db"; str "ctl"])); [exact I|reflexivity|]. apply run_nil. }
  exact (proj1 (run_inv _ _ Hr (new_inv demo_root))).
Qed.

Lemma demo2_vec fid n :
  fid_to_node (srv demo2) fid = Some n -> zlen (node_read n (world demo2)) < 2 ^ 63.
Proof.
  unfold fid_to_node. intros (f & Hf & Hn)%bind_Some.
  change (fids (srv demo2)) with (<[1 := mkFid [str "db"; str "ctl"] false]> {[0 := mkFid [] false]} : gmap Z Fid) in Hf.
  apply lookup_insert_Some in Hf as [[_ <-]|[_ Hf]].
  - assert (resolve_path (srv demo2) [str "db"; str "ctl"] = Some ctl_node) as E by reflexivity.
    cbn [fpath] in Hn. rewrite E in Hn. injection Hn as <-. reflexivity.
  - apply lookup_singleton_Some in Hf as [_ <-].
    assert (resolve_path (srv demo2) [] = Some demo_root) as E by reflexivity.
    cbn [fpath] in Hn. rewrite E in Hn. injection Hn as <-. reflexivity.
Qed.

Lemma styx_end_to_end_witness :
  exists r x', dispatch (Tstat 9 1) demo2 = (Ok r, x') /\ reply_ok (Tstat 9 1) r /\ srv_inv (srv x') /\
    (forall q, ident <$> resolve_path (srv x') q = ident <$> resolve_path (srv demo2) q) /\
    (response_ok r -> exists b, handle_message (default [] (wire_request (Tstat 9 1)) ++ [7]) demo2 = (Ok b, x') /\
       client_decode b = Some r).
Proof.
  apply (styx_end_to_end (Tstat 9 1) (default [] (wire_request (Tstat 9 1))) [7] demo2);
    [exact demo2_inv|split; vm_compute; split; congruence|vm_compute; reflexivity|exact demo2_vec].
Defined.

Lemma styx_reachable_witness :
  run demo0 demo3 /\ fid_count (srv demo3) <= 256.
Proof. split; [exact demo_run|]. exact (proj1 (styx_reachable demo_root Phys.demo demo3 demo_run)). Defined.

Lemma styx_walk_correct_witness :
  dispatch (Twalk 4 1 2 [str "nothing"]) demo2 = (Ok (Rerror 4 (str "file not found")), demo2).
Proof.
  exact (styx_walk_correct 4 1 2 [str "nothing"] (mkFid [str "db"; str "ctl"] false) demo2 demo2_inv eq_refl).
Defined.

Lemma styx_read_correct_witness :
  read_all 1 5 1 0 3 demo3 = Some ([], demo3).
Proof.
  exact (proj2 (styx_read_correct 5 1 3 (mkFid [str "db"; str "ctl"] true) ctl_node demo3 eq_refl eq_refl eq_refl
    ltac:(lia) ltac:(unfold is_u32; lia) ltac:(vm_compute; reflexivity))).
Defined.

Lemma styx_ctl_roundtrip_witness :
  exists x', dispatch (Twrite 6 1 0 (str "select")) demo3 = (Ok (Rwrite 6 6), x') /\
    fid_to_node (srv x') 1 = Some (mkNode (str "ctl") 3 (CtlFile (fun _ w => (str "ok" ++ newline, w)) (str "ok" ++ newline))).
Proof.
  destruct (styx_ctl_roundtrip 6 1 0 (str "select") (mkFid [str "db"; str "ctl"] true) (str "ctl") 3
    (fun _ w => (str "ok" ++ newline, w)) [] demo3 eq_refl eq_refl eq_refl) as (x' & H1 & _ & _ & H2 & _).
  exists x'. split; [exact H1|exact H2].
Defined.

Lemma styx_iounit_wraps_witness :
  exists x1 x2, dispatch (Tversion 1 0 (str "9P2000")) demo2 = (Ok (Rversion 1 0 (str "9P2000")), x1) /\
    dispatch (Topen 1 0 0) x1 = (Ok (Ropen 1 (dir 1) (2 ^ 32 + 0 - 24)), x2).
Proof. exact (styx_iounit_wraps 1 0 (str "9P2000") 0 demo_root 0 demo2 ltac:(lia) eq_refl). Defined.

End Styx.
