(* ===== verification/Json.v ===== *)
(** * JSON parser ([api/json.rs])

    A recursive-descent parser over the bytes of a string.  The position only
    moves forward, so the parser state is the unread rest of the input.  The
    recursion is bounded by fuel; [json_total] shows that one unit per input
    byte (and one more) is enough.  Numbers are IEEE 754 binary64 values
    ([SpecFloat] of the Standard Library). *)
From S2P Require Import Prelude.
From S2P Require Import Bytes.
From S2P Require Import Utf8.
From S2P Require Import Fmt.
From Stdlib Require Import SpecFloat.

Module Json.

(** ** binary64 *)
Definition f64 : Type := spec_float.
Definition f64_of_Z (z : Z) : f64 := binary_normalize 53 1024 z 0 false.
Definition f64_add : f64 -> f64 -> f64 := SFadd 53 1024.
Definition f64_mul : f64 -> f64 -> f64 := SFmul 53 1024.
Definition f64_div : f64 -> f64 -> f64 := SFdiv 53 1024.
Definition f64_neg : f64 -> f64 := SFopp.
(** The literal [0.1]. *)
Definition f64_tenth : f64 := S754_finite false 7205759403792794 (-56).

Definition sat_i64 (z : Z) : Z := Z.max (- 2 ^ 63) (Z.min (2 ^ 63 - 1) z).
(** [x as i64]: truncates, saturates, and maps NaN to 0. *)
Definition f64_as_i64 (x : f64) : Z :=
  match x with
  | S754_zero _ | S754_nan => 0
  | S754_infinity s => if s then - 2 ^ 63 else 2 ^ 63 - 1
  | S754_finite s m e =>
      let a := Z.shiftl (Zpos m) e in sat_i64 (if s then - a else a)
  end.

Definition wrap_i32 (z : Z) : Z := (z + 2 ^ 31) mod 2 ^ 32 - 2 ^ 31.

(** ** Values *)
Inductive JsonValue :=
| Null
| Bool (b : bool)
| Number (x : f64)
| Str (s : list Z)
| Array (l : list JsonValue)
| Object (l : list (list Z * JsonValue)).

Definition get (v : JsonValue) (key : list Z) : option JsonValue :=
  match v with
  | Object fields => snd <$> (snd <$> list_find (fun kv => fst kv = key) fields)
  | _ => None
  end.
Definition as_str (v : JsonValue) : option (list Z) :=
  match v with Str s => Some s | _ => None end.
Definition as_array (v : JsonValue) : option (list JsonValue) :=
  match v with Array a => Some a | _ => None end.
Definition as_number (v : JsonValue) : option f64 :=
  match v with Number n => Some n | _ => None end.
Definition as_i64 (v : JsonValue) : option Z :=
  match v with Number n => Some (f64_as_i64 n) | _ => None end.
Definition as_bool (v : JsonValue) : option bool :=
  match v with Bool b => Some b | _ => None end.

Inductive JsonError :=
| UnexpectedEof
| UnexpectedChar (c : Z)
| InvalidEscape
| InvalidNumber
| TrailingData.

Definition parser : Type -> Type := st (list Z) JsonError.

(** ** Lexing *)
Definition peek : parser (option Z) := fun l => (Ok (head l), l).
Definition next_byte : parser (option Z) := fun l => (Ok (head l), tail l).

Definition is_ws (b : Z) : bool := (b =? 32) || (b =? 9) || (b =? 10) || (b =? 13).

Fixpoint drop_while (p : Z -> bool) (l : list Z) : list Z :=
  match l with
  | [] => []
  | b :: l' => if p b then drop_while p l' else l
  end.
Definition skip_while (p : Z -> bool) : parser unit := fun l => (Ok tt, drop_while p l).
Definition skip_ws : parser unit := skip_while is_ws.

Definition expect (b : Z) : parser unit :=
  o ← next_byte;
  match o with
  | Some got => if got =? b then mret tt else st_err (UnexpectedChar got)
  | None => st_err UnexpectedEof
  end.

(** [self.pos += 1]. *)
Definition advance : parser unit := fun l => (Ok tt, tail l).

(** [char::from_u32] and [String::push]. *)
Definition char_from_u32 (cp : Z) : option Z :=
  if (0xD800 <=? cp) && (cp <=? 0xDFFF) then None
  else if cp <=? 0x10FFFF then Some cp else None.
Definition encode_utf8 (cp : Z) : list Z :=
  if cp <? 0x80 then [cp]
  else if cp <? 0x800 then [0xC0 + cp / 64; 0x80 + cp mod 64]
  else if cp <? 0x10000 then [0xE0 + cp / 4096; 0x80 + (cp / 64) mod 64; 0x80 + cp mod 64]
  else [0xF0 + cp / 262144; 0x80 + (cp / 4096) mod 64; 0x80 + (cp / 64) mod 64; 0x80 + cp mod 64].
Definition push_opt (s : list Z) (o : option Z) : list Z :=
  match o with Some cp => s ++ encode_utf8 cp | None => s end.

Definition hex_val (b : Z) : option Z :=
  if (48 <=? b) && (b <=? 57) then Some (b - 48)
  else if (97 <=? b) && (b <=? 102) then Some (b - 97 + 10)
  else if (65 <=? b) && (b <=? 70) then Some (b - 65 + 10)
  else None.

Fixpoint hex_loop (n : nat) (val : Z) : parser Z :=
  match n with
  | O => mret val
  | S n =>
      o ← next_byte;
      match o with
      | None => st_err UnexpectedEof
      | Some b =>
          match hex_val b with
          | Some d => hex_loop n (Z.lor (wrap16 (Z.shiftl val 4)) d)
          | None => st_err InvalidEscape
          end
      end
  end.
Definition parse_hex4 : parser Z := hex_loop 4 0.

(** The escape after a backslash: the string with its character appended. *)
Definition parse_escape (s : list Z) : parser (list Z) :=
  o ← next_byte;
  match o with
  | Some 34 => mret (s ++ [34])
  | Some 92 => mret (s ++ [92])
  | Some 47 => mret (s ++ [47])
  | Some 110 => mret (s ++ [10])
  | Some 114 => mret (s ++ [13])
  | Some 116 => mret (s ++ [9])
  | Some 98 => mret (s ++ [8])
  | Some 102 => mret (s ++ [12])
  | Some 117 =>
      code ← parse_hex4;
      if (0xD800 <=? code) && (code <=? 0xDBFF) then
        b ← next_byte;
        if negb (bool_decide (b = Some 92)) then st_err InvalidEscape
        else
          u ← next_byte;
          if negb (bool_decide (u = Some 117)) then st_err InvalidEscape
          else
            low ← parse_hex4;
            if negb ((0xDC00 <=? low) && (low <=? 0xDFFF)) then st_err InvalidEscape
            else
              let cp := wrap32 (0x10000 + wrap32 (Z.shiftl (code - 0xD800) 10) + (low - 0xDC00)) in
              mret (push_opt s (char_from_u32 cp))
      else mret (push_opt s (char_from_u32 code))
  | _ => st_err InvalidEscape
  end.

Fixpoint take_bytes (n : nat) : parser (list Z) :=
  match n with
  | O => mret []
  | S n =>
      o ← next_byte;
      match o with
      | None => st_err UnexpectedEof
      | Some b => r ← take_bytes n; mret (b :: r)
      end
  end.

Fixpoint string_loop (fuel : nat) (s : list Z) : parser (list Z) :=
  match fuel with
  | O => st_panic
  | S fuel =>
      o ← next_byte;
      match o with
      | Some 34 => mret s
      | Some 92 => s' ← parse_escape s; string_loop fuel s'
      | Some b =>
          if b <? 0x80 then string_loop fuel (s ++ [b])
          else
            let extra := if b <? 0xE0 then 1%nat else if b <? 0xF0 then 2%nat else 3%nat in
            more ← take_bytes extra;
            if Utf8.is_utf8 (b :: more) then string_loop fuel (s ++ b :: more)
            else string_loop fuel s
      | None => st_err UnexpectedEof
      end
  end.

Definition parse_string : parser (list Z) :=
  _ ← expect 34;
  l ← st_get;
  string_loop (S (length l)) [].

(** ** Numbers *)
Definition digit_f64 (b : Z) : f64 := f64_of_Z (b - 48).

Fixpoint int_loop (l : list Z) (acc : f64) : f64 * list Z :=
  match l with
  | b :: l' => if is_digit b then int_loop l' (f64_add (f64_mul acc (f64_of_Z 10)) (digit_f64 b)) else (acc, l)
  | [] => (acc, [])
  end.
Fixpoint frac_loop (l : list Z) (acc scale : f64) : f64 * list Z :=
  match l with
  | b :: l' =>
      if is_digit b then frac_loop l' (f64_add acc (f64_mul (digit_f64 b) scale)) (f64_mul scale f64_tenth)
      else (acc, l)
  | [] => (acc, [])
  end.
Fixpoint exp_loop (l : list Z) (acc : Z) : Z :=
  match l with
  | b :: l' => if is_digit b then exp_loop l' (wrap_i32 (wrap_i32 (acc * 10) + (b - 48))) else acc
  | [] => acc
  end.

(** [for _ in 0..exp]: no iteration when [exp <= 0]. *)
Definition scale_exp (exp : Z) (neg : bool) (val : f64) : f64 :=
  Nat.iter (Z.to_nat exp) (fun v => if neg then f64_div v (f64_of_Z 10) else f64_mul v (f64_of_Z 10)) val.

Definition parse_f64 (bytes : list Z) : option f64 :=
  match bytes with
  | [] => None
  | b0 :: rest =>
      let negative := b0 =? 45 in
      let l := if negative then rest else bytes in
      let '(int_part, l) := int_loop l (f64_of_Z 0) in
      let '(frac_part, l) :=
        match l with
        | 46 :: l' => frac_loop l' (f64_of_Z 0) f64_tenth
        | _ => (f64_of_Z 0, l)
        end in
      let val := f64_add int_part frac_part in
      let val := if negative then f64_neg val else val in
      match l with
      | 101 :: l' | 69 :: l' =>
          let '(exp_neg, l') :=
            match l' with
            | 45 :: l'' => (true, l'')
            | 43 :: l'' => (false, l'')
            | _ => (false, l')
            end in
          Some (scale_exp (exp_loop l' 0) exp_neg val)
      | _ => Some val
      end
  end.

Definition opt_is (p : Z -> bool) (o : option Z) : bool :=
  match o with Some b => p b | None => false end.

Definition parse_number : parser JsonValue :=
  start ← st_get;
  o ← peek;
  _ ← (if opt_is (Z.eqb 45) o then advance else mret tt);
  o ← peek;
  _ ← (if opt_is (Z.eqb 48) o then advance
       else if opt_is is_digit o then skip_while is_digit
       else st_err InvalidNumber);
  o ← peek;
  _ ← (if opt_is (Z.eqb 46) o then
         _ ← advance;
         o ← peek;
         if opt_is is_digit o then skip_while is_digit else st_err InvalidNumber
       else mret tt);
  o ← peek;
  _ ← (if opt_is (fun b => (b =? 101) || (b =? 69)) o then
         _ ← advance;
         o ← peek;
         _ ← (if opt_is (fun b => (b =? 43) || (b =? 45)) o then advance else mret tt);
         o ← peek;
         if opt_is is_digit o then skip_while is_digit else st_err InvalidNumber
       else mret tt);
  rest ← st_get;
  (* [&self.input[start..self.pos]] *)
  let num_str := take (length start - length rest) start in
  if Utf8.is_utf8 num_str then
    match parse_f64 num_str with
    | Some v => mret (Number v)
    | None => st_err InvalidNumber
    end
  else st_err InvalidNumber.

(** ** Values *)
Fixpoint expect_literal (lit : list Z) : parser unit :=
  match lit with
  | [] => mret tt
  | b :: lit =>
      o ← next_byte;
      match o with
      | Some got => if got =? b then expect_literal lit else st_err (UnexpectedChar got)
      | None => st_err UnexpectedEof
      end
  end.
Definition parse_true : parser JsonValue := _ ← expect_literal (str "true"); mret (Bool true).
Definition parse_false : parser JsonValue := _ ← expect_literal (str "false"); mret (Bool false).
Definition parse_null : parser JsonValue := _ ← expect_literal (str "null"); mret Null.

Section compound.
Variable parse_value : parser JsonValue.

Fixpoint object_loop (fuel : nat) (fields : list (list Z * JsonValue)) : parser JsonValue :=
  match fuel with
  | O => st_panic
  | S fuel =>
      _ ← skip_ws;
      key ← parse_string;
      _ ← skip_ws;
      _ ← expect 58;
      val ← parse_value;
      let fields := fields ++ [(key, val)] in
      _ ← skip_ws;
      o ← peek;
      match o with
      | Some 44 => _ ← advance; object_loop fuel fields
      | Some 125 => _ ← advance; mret (Object fields)
      | Some b => st_err (UnexpectedChar b)
      | None => st_err UnexpectedEof
      end
  end.

Definition parse_object (fuel : nat) : parser JsonValue :=
  _ ← expect 123;
  _ ← skip_ws;
  o ← peek;
  if opt_is (Z.eqb 125) o then _ ← advance; mret (Object []) else object_loop fuel [].

Fixpoint array_loop (fuel : nat) (items : list JsonValue) : parser JsonValue :=
  match fuel with
  | O => st_panic
  | S fuel =>
      val ← parse_value;
      let items := items ++ [val] in
      _ ← skip_ws;
      o ← peek;
      match o with
      | Some 44 => _ ← advance; array_loop fuel items
      | Some 93 => _ ← advance; mret (Array items)
      | Some b => st_err (UnexpectedChar b)
      | None => st_err UnexpectedEof
      end
  end.

Definition parse_array (fuel : nat) : parser JsonValue :=
  _ ← expect 91;
  _ ← skip_ws;
  o ← peek;
  if opt_is (Z.eqb 93) o then _ ← advance; mret (Array []) else array_loop fuel [].

End compound.

Fixpoint parse_value (fuel : nat) : parser JsonValue :=
  match fuel with
  | O => st_panic
  | S fuel =>
      _ ← skip_ws;
      o ← peek;
      match o with
      | Some 34 => s ← parse_string; mret (Str s)
      | Some 123 => parse_object (parse_value fuel) fuel
      | Some 91 => parse_array (parse_value fuel) fuel
      | Some 116 => parse_true
      | Some 102 => parse_false
      | Some 110 => parse_null
      | Some b => if (b =? 45) || is_digit b then parse_number else st_err (UnexpectedChar b)
      | None => st_err UnexpectedEof
      end
  end.

Definition parse_input : parser JsonValue :=
  l ← st_get;
  val ← parse_value (S (length l));
  _ ← skip_ws;
  rest ← st_get;
  match rest with [] => mret val | _ => st_err TrailingData end.

Definition parse (input : list Z) : out JsonError JsonValue := fst (parse_input input).

(** ** Totality: the parser reads forward and never runs out of fuel *)

(** [m] does not panic, and consumes at least [k] bytes when it succeeds. *)
Definition reads {A} (k : nat) (m : parser A) (l : list Z) : Prop :=
  wp m (fun _ l' => (length l' + k <= length l)%nat) (fun _ _ => True) l.

Lemma reads_ret {A} (a : A) l : reads 0 (mret a) l.
Proof. unfold reads. apply wp_ret. lia. Qed.

Lemma reads_err {A} k e l : reads (A:=A) k (st_err e) l.
Proof. done. Qed.

Lemma reads_bind {A B} i j k (m : parser A) (f : A -> parser B) l :
  reads i m l -> (forall a l', (length l' + i <= length l)%nat -> reads j (f a) l') -> (k <= i + j)%nat ->
  reads k (m ≫= f) l.
Proof.
  intros Hm Hf Hk. apply wp_bind. eapply wp_mono; [exact Hm| |done]. intros a l' Hl. simpl in Hl.
  eapply wp_mono; [by apply Hf| |done]. simpl. lia.
Qed.

Lemma reads_weaken {A} i k (m : parser A) l : reads i m l -> (k <= i)%nat -> reads k m l.
Proof. intros Hm Hk. eapply wp_mono; [exact Hm| |done]. simpl. lia. Qed.

Lemma drop_while_length p l : (length (drop_while p l) <= length l)%nat.
Proof. induction l as [|b l IH]; simpl; [done|]. destruct (p b); simpl; lia. Qed.

Lemma reads_skip p l : reads 0 (skip_while p) l.
Proof. unfold reads, wp, skip_while. pose proof (drop_while_length p l). lia. Qed.

Lemma reads_ws l : reads 0 skip_ws l.
Proof. apply reads_skip. Qed.

Lemma reads_next {B} k (f : option Z -> parser B) l :
  (forall b l', l = b :: l' -> reads (k - 1) (f (Some b)) l') -> reads k (f None) [] ->
  reads k (next_byte ≫= f) l.
Proof.
  intros Hs Hn. apply wp_bind. unfold wp, next_byte. destruct l as [|b l]; simpl.
  - apply Hn.
  - eapply wp_mono; [by apply Hs| |done]. simpl. lia.
Qed.

Lemma reads_peek {B} k (f : option Z -> parser B) l :
  reads k (f (head l)) l -> reads k (peek ≫= f) l.
Proof. intros Hf. apply wp_bind. exact Hf. Qed.

Lemma reads_get {B} k (f : list Z -> parser B) l : reads k (f l) l -> reads k (st_get ≫= f) l.
Proof. intros Hf. apply wp_bind. apply wp_get. exact Hf. Qed.

Lemma reads_advance k b l : head l = Some b -> (k <= 1)%nat -> reads k advance l.
Proof. destruct l; [done|]. intros _ Hk. unfold reads, wp, advance. simpl. lia. Qed.

Lemma reads_expect b l : reads 1 (expect b) l.
Proof.
  unfold expect. apply reads_next; [|apply reads_err]. intros b' l' ->.
  destruct (b' =? b); [apply reads_ret|apply reads_err].
Qed.

Lemma reads_hex n v l : reads 0 (hex_loop n v) l.
Proof.
  revert v l. induction n as [|n IH]; intros v l; cbn [hex_loop]; [apply reads_ret|].
  apply reads_next; [|apply reads_err]. intros b l' ->. destruct (hex_val b); [|apply reads_err].
  eapply reads_weaken; [apply IH|lia].
Qed.

Lemma reads_escape s l : reads 1 (parse_escape s) l.
Proof.
  unfold parse_escape. apply reads_next; [|apply reads_err]. intros b l' ->.
  assert (reads 0 (code ← parse_hex4;
      if (0xD800 <=? code) && (code <=? 0xDBFF) then
        b ← next_byte;
        if negb (bool_decide (b = Some 92)) then st_err InvalidEscape
        else
          u ← next_byte;
          if negb (bool_decide (u = Some 117)) then st_err InvalidEscape
          else
            low ← parse_hex4;
            if negb ((0xDC00 <=? low) && (low <=? 0xDFFF)) then st_err InvalidEscape
            else
              let cp := wrap32 (0x10000 + wrap32 (Z.shiftl (code - 0xD800) 10) + (low - 0xDC00)) in
              mret (push_opt s (char_from_u32 cp))
      else mret (push_opt s (char_from_u32 code))) l') as Hu.
  { eapply (reads_bind 0 0); [apply reads_hex| |lia]. intros code l1 _.
    destruct ((0xD800 <=? code) && (code <=? 0xDBFF)); [|apply reads_ret].
    apply reads_next; [|apply reads_err]. intros b1 l2 ->.
    destruct (negb _); [apply reads_err|]. apply reads_next; [|apply reads_err]. intros b2 l3 ->.
    destruct (negb _); [apply reads_err|]. eapply (reads_bind 0 0); [apply reads_hex| |lia]. intros low l4 _.
    destruct (negb _); [apply reads_err|apply reads_ret]. }
  repeat case_match; try apply reads_ret; try apply reads_err; exact Hu.
Qed.

Lemma reads_take n l : reads 0 (take_bytes n) l.
Proof.
  revert l. induction n as [|n IH]; intros l; cbn [take_bytes]; [apply reads_ret|].
  apply reads_next; [|apply reads_err]. intros b l' ->.
  eapply (reads_bind 0 0); [apply IH|intros; apply reads_ret|lia].
Qed.

Lemma reads_string_loop fuel s l : (length l < fuel)%nat -> reads 1 (string_loop fuel s) l.
Proof.
  revert s l. induction fuel as [|fuel IH]; intros s l Hl; [lia|]. cbn [string_loop].
  apply reads_next; [|apply reads_err]. intros b l' ->. simpl in Hl.
  assert (forall s l1, (length l1 <= length l')%nat -> reads 0 (string_loop fuel s) l1) as IH'.
  { intros s' l1 Hl1. eapply reads_weaken; [apply IH|]; lia. }
  assert (reads 0 (if b <? 0x80 then string_loop fuel (s ++ [b])
          else
            more ← take_bytes (if b <? 0xE0 then 1%nat else if b <? 0xF0 then 2%nat else 3%nat);
            if Utf8.is_utf8 (b :: more) then string_loop fuel (s ++ b :: more)
            else string_loop fuel s) l') as Hb.
  { destruct (b <? 0x80); [by apply IH'|]. eapply (reads_bind 0 0); [apply reads_take| |lia].
    intros more l1 Hl1. destruct (Utf8.is_utf8 _); apply IH'; lia. }
  assert (reads 0 (s' ← parse_escape s; string_loop fuel s') l') as He.
  { eapply (reads_bind 1 0); [apply reads_escape| |lia]. intros s' l1 Hl1. apply IH'. lia. }
  repeat case_match; try exact Hb; try exact He; apply reads_ret.
Qed.

Lemma reads_string l : reads 2 parse_string l.
Proof.
  unfold parse_string. eapply (reads_bind 1 1); [apply reads_expect| |lia]. intros _ l' _.
  apply reads_get. apply reads_string_loop. lia.
Qed.

Lemma reads_literal lit l : reads (length lit) (expect_literal lit) l.
Proof.
  revert l. induction lit as [|b lit IH]; intros l; cbn [expect_literal length]; [apply reads_ret|].
  apply reads_next; [|apply reads_err]. intros b' l' ->. destruct (b' =? b); [|apply reads_err].
  eapply reads_weaken; [apply IH|lia].
Qed.

Lemma reads_number l : reads 1 parse_number l.
Proof.
  unfold parse_number. apply reads_get, reads_peek.
  eapply (reads_bind 0 1); [|intros _ l1 _|lia].
  { destruct (opt_is (Z.eqb 45) (head l)) eqn:Ho; [|apply reads_ret].
    destruct (head l) eqn:Hh; [|done]. eapply reads_advance; [done|lia]. }
  apply reads_peek. eapply (reads_bind 1 0); [|intros _ l2 _|lia].
  { destruct (opt_is (Z.eqb 48) (head l1)) eqn:Ho.
    - destruct (head l1) eqn:Hh; [|done]. eapply reads_advance; [done|lia].
    - destruct (opt_is is_digit (head l1)) eqn:Hd; [|apply reads_err].
      destruct l1 as [|b l1]; [done|]. simpl in Hd. unfold reads, wp, skip_while. simpl. rewrite Hd.
      pose proof (drop_while_length is_digit l1). lia. }
  assert (forall l, reads 0 (o ← peek; if opt_is is_digit o then skip_while is_digit else st_err InvalidNumber) l) as Hdig.
  { intros l3. apply reads_peek. destruct (opt_is _ _); [apply reads_skip|apply reads_err]. }
  apply reads_peek. eapply (reads_bind 0 0); [|intros _ l3 _|lia].
  { destruct (opt_is (Z.eqb 46) (head l2)) eqn:Ho; [|apply reads_ret].
    destruct (head l2) eqn:Hh; [|done]. eapply (reads_bind 0 0); [eapply reads_advance; [done|lia]| |lia].
    intros _ l3 _. apply Hdig. }
  apply reads_peek. eapply (reads_bind 0 0); [|intros _ l4 _|lia].
  { destruct (opt_is _ (head l3)) eqn:Ho; [|apply reads_ret].
    destruct (head l3) eqn:Hh; [|done]. eapply (reads_bind 0 0); [eapply reads_advance; [done|lia]| |lia].
    intros _ l4 _. apply reads_peek. eapply (reads_bind 0 0); [|intros _ l5 _; apply Hdig|lia].
    destruct (opt_is _ (head l4)) eqn:Ho4; [|apply reads_ret].
    destruct (head l4) eqn:Hh4; [|done]. eapply reads_advance; [done|lia]. }
  apply reads_get. destruct (Utf8.is_utf8 _); [|apply reads_err].
  destruct (parse_f64 _); [apply reads_ret|apply reads_err].
Qed.

Lemma reads_object_loop pv n fuel fields l :
  (forall l, (length l < n)%nat -> reads 1 (pv) l) -> (length l < n)%nat -> (length l < fuel)%nat ->
  reads 0 (object_loop pv fuel fields) l.
Proof.
  intros Hpv. revert fields l. induction fuel as [|fuel IH]; intros fields l Hn Hf; [lia|]. cbn [object_loop].
  eapply (reads_bind 0 0); [apply reads_ws|intros _ l1 H1|lia].
  eapply (reads_bind 2 0); [apply reads_string|intros key l2 H2|lia].
  eapply (reads_bind 0 0); [apply reads_ws|intros _ l3 H3|lia].
  eapply (reads_bind 1 0); [apply reads_expect|intros _ l4 H4|lia].
  eapply (reads_bind 1 0); [apply Hpv; lia|intros v l5 H5|lia].
  eapply (reads_bind 0 0); [apply reads_ws|intros _ l6 H6|lia].
  apply reads_peek. destruct l6 as [|b l6]; cbn [head]; [apply reads_err|]. simpl in H6.
  assert (reads 0 (_ ← advance; object_loop pv fuel (fields ++ [(key, v)])) (b :: l6)) as Hrec.
  { eapply (reads_bind 1 0); [by eapply reads_advance| |lia]. intros _ l7 H7. simpl in H7. apply IH; lia. }
  assert (reads 0 (_ ← advance; mret (Object (fields ++ [(key, v)]))) (b :: l6)) as Hend.
  { eapply (reads_bind 1 0); [by eapply reads_advance| |lia]. intros _ l7 H7. apply reads_ret. }
  repeat case_match; try exact Hrec; try exact Hend; apply reads_err.
Qed.

Lemma reads_array_loop pv n fuel items l :
  (forall l, (length l < n)%nat -> reads 1 (pv) l) -> (length l < n)%nat -> (length l < fuel)%nat ->
  reads 0 (array_loop pv fuel items) l.
Proof.
  intros Hpv. revert items l. induction fuel as [|fuel IH]; intros items l Hn Hf; [lia|]. cbn [array_loop].
  eapply (reads_bind 1 0); [apply Hpv; lia|intros v l5 H5|lia].
  eapply (reads_bind 0 0); [apply reads_ws|intros _ l6 H6|lia].
  apply reads_peek. destruct l6 as [|b l6]; cbn [head]; [apply reads_err|]. simpl in H6.
  assert (reads 0 (_ ← advance; array_loop pv fuel (items ++ [v])) (b :: l6)) as Hrec.
  { eapply (reads_bind 1 0); [by eapply reads_advance| |lia]. intros _ l7 H7. simpl in H7. apply IH; lia. }
  assert (reads 0 (_ ← advance; mret (Array (items ++ [v]))) (b :: l6)) as Hend.
  { eapply (reads_bind 1 0); [by eapply reads_advance| |lia]. intros _ l7 H7. apply reads_ret. }
  repeat case_match; try exact Hrec; try exact Hend; apply reads_err.
Qed.

Lemma reads_value fuel l : (length l < fuel)%nat -> reads 1 (parse_value fuel) l.
Proof.
  revert l. induction fuel as [|fuel IH]; intros l Hl; [lia|]. cbn [parse_value].
  eapply (reads_bind 0 1); [apply reads_ws|intros _ l1 H1|lia]. apply reads_peek.
  destruct l1 as [|b l1]; cbn [head]; [apply reads_err|]. simpl in H1.
  assert (reads 1 (s ← parse_string; mret (Str s)) (b :: l1)) as Hstr.
  { eapply (reads_bind 2 0); [apply reads_string|intros; apply reads_ret|lia]. }
  assert (reads 1 (parse_object (parse_value fuel) fuel) (b :: l1)) as Hobj.
  { unfold parse_object. eapply (reads_bind 1 0); [apply reads_expect|intros _ l2 H2|lia]. simpl in H2.
    eapply (reads_bind 0 0); [apply reads_ws|intros _ l3 H3|lia]. apply reads_peek.
    destruct (opt_is (Z.eqb 125) (head l3)) eqn:Ho.
    - destruct (head l3) eqn:Hh; [|done]. eapply (reads_bind 0 0); [by eapply reads_advance; [|lia]|intros; apply reads_ret|lia].
    - apply (reads_object_loop _ fuel); [exact IH|lia|lia]. }
  assert (reads 1 (parse_array (parse_value fuel) fuel) (b :: l1)) as Harr.
  { unfold parse_array. eapply (reads_bind 1 0); [apply reads_expect|intros _ l2 H2|lia]. simpl in H2.
    eapply (reads_bind 0 0); [apply reads_ws|intros _ l3 H3|lia]. apply reads_peek.
    destruct (opt_is (Z.eqb 93) (head l3)) eqn:Ho.
    - destruct (head l3) eqn:Hh; [|done]. eapply (reads_bind 0 0); [by eapply reads_advance; [|lia]|intros; apply reads_ret|lia].
    - apply (reads_array_loop _ fuel); [exact IH|lia|lia]. }
  assert (forall lit v, (1 <= length lit)%nat -> reads 1 (_ ← expect_literal lit; mret v : parser JsonValue) (b :: l1)) as Hlit.
  { intros lit v Hl1. eapply (reads_bind (length lit) 0); [apply reads_literal|intros; apply reads_ret|lia]. }
  assert (reads 1 (if (b =? 45) || is_digit b then parse_number else st_err (UnexpectedChar b)) (b :: l1)) as Hnum.
  { destruct ((b =? 45) || is_digit b); [apply reads_number|apply reads_err]. }
  repeat case_match; try exact Hnum; try exact Hstr; try exact Hobj; try exact Harr; apply Hlit; simpl; lia.
Qed.

Lemma parse_not_panic input : parse input <> Panic.
Proof.
  unfold parse. assert (reads 0 parse_input input) as Hr.
  { unfold parse_input. apply reads_get. eapply (reads_bind 1 0); [apply reads_value; lia|intros v l1 _|lia].
    eapply (reads_bind 0 0); [apply reads_ws|intros _ l2 _|lia]. apply reads_get.
    destruct l2; [apply reads_ret|apply reads_err]. }
  unfold reads, wp in Hr. destruct (parse_input input) as [[v|e|] l]; done.
Qed.

(** ** The JSON grammar (RFC 8259), with the values the texts denote *)
Definition ws_text (w : list Z) : Prop := Forall (fun b => is_ws b = true) w.
Definition digits_text (l : list Z) : Prop := l <> [] /\ Forall (fun b => is_digit b = true) l.

Record numlit := mkNum { neg : bool; int : list Z; frac : option (list Z); expo : option (Z * list Z * list Z) }.
Definition frac_text (o : option (list Z)) : list Z := match o with Some ds => 46 :: ds | None => [] end.
Definition expo_text (o : option (Z * list Z * list Z)) : list Z :=
  match o with Some (e, sign, ds) => e :: sign ++ ds | None => [] end.
Definition num_text (n : numlit) : list Z :=
  (if neg n then [45] else []) ++ int n ++ frac_text (frac n) ++ expo_text (expo n).
Definition num_ok (n : numlit) : Prop :=
  digits_text (int n) /\ (head (int n) = Some 48 -> int n = [48]) /\
  match frac n with Some ds => digits_text ds | None => True end /\
  match expo n with
  | Some (e, sign, ds) => (e = 101 \/ e = 69) /\ (sign = [] \/ sign = [43] \/ sign = [45]) /\ digits_text ds
  | None => True
  end.

(** The simple escapes: the byte after the backslash, and the character. *)
Definition simple_escapes : list (Z * Z) :=
  [(34, 34); (92, 92); (47, 47); (110, 10); (114, 13); (116, 9); (98, 8); (102, 12)].
(** Four hexadecimal digits. *)
Definition hex4 (h : list Z) (code : Z) : Prop :=
  length h = 4%nat /\ exists ds, Forall2 (fun b d => hex_val b = Some d) h ds /\
    code = foldl (fun a d => 16 * a + d) 0 ds.

(** The text between the quotes, and the string it stands for. *)
Inductive string_text : list Z -> list Z -> Prop :=
| ST_nil : string_text [] []
| ST_char c e s :
    c <> [] -> Utf8.char_step c = (true, length c) -> c <> [34] -> c <> [92] ->
    string_text e s -> string_text (c ++ e) (c ++ s)
| ST_escape x y e s :
    (x, y) ∈ simple_escapes -> string_text e s -> string_text (92 :: x :: e) (y :: s)
| ST_u h code e s :
    hex4 h code -> ~ (0xD800 <= code <= 0xDFFF) -> string_text e s ->
    string_text (92 :: 117 :: h ++ e) (encode_utf8 code ++ s)
| ST_pair h high h' low e s :
    hex4 h high -> hex4 h' low -> 0xD800 <= high <= 0xDBFF -> 0xDC00 <= low <= 0xDFFF -> string_text e s ->
    string_text (92 :: 117 :: h ++ 92 :: 117 :: h' ++ e)
      (encode_utf8 (0x10000 + (high - 0xD800) * 1024 + (low - 0xDC00)) ++ s).

Inductive value_text : list Z -> JsonValue -> Prop :=
| VT_ws w t v : ws_text w -> value_text t v -> value_text (w ++ t) v
| VT_null : value_text (str "null") Null
| VT_true : value_text (str "true") (Bool true)
| VT_false : value_text (str "false") (Bool false)
| VT_num n x : num_ok n -> parse_f64 (num_text n) = Some x -> value_text (num_text n) (Number x)
| VT_str e s : string_text e s -> value_text (34 :: e ++ [34]) (Str s)
| VT_arr0 w : ws_text w -> value_text (91 :: w ++ [93]) (Array [])
| VT_arr t l : items_text t l -> value_text (91 :: t ++ [93]) (Array l)
| VT_obj0 w : ws_text w -> value_text (123 :: w ++ [125]) (Object [])
| VT_obj t l : fields_text t l -> value_text (123 :: t ++ [125]) (Object l)
with items_text : list Z -> list JsonValue -> Prop :=
| IT_one t v w : value_text t v -> ws_text w -> items_text (t ++ w) [v]
| IT_cons t v w t' l :
    value_text t v -> ws_text w -> items_text t' l -> items_text (t ++ w ++ 44 :: t') (v :: l)
with fields_text : list Z -> list (list Z * JsonValue) -> Prop :=
| FT_one w1 e k w2 t v w3 :
    ws_text w1 -> string_text e k -> ws_text w2 -> value_text t v -> ws_text w3 ->
    fields_text (w1 ++ 34 :: e ++ 34 :: w2 ++ 58 :: t ++ w3) [(k, v)]
| FT_cons w1 e k w2 t v w3 t' l :
    ws_text w1 -> string_text e k -> ws_text w2 -> value_text t v -> ws_text w3 -> fields_text t' l ->
    fields_text (w1 ++ 34 :: e ++ 34 :: w2 ++ 58 :: t ++ w3 ++ 44 :: t') ((k, v) :: l).

Scheme value_text_mut := Induction for value_text Sort Prop
  with items_text_mut := Induction for items_text Sort Prop
  with fields_text_mut := Induction for fields_text Sort Prop.
Combined Scheme json_text_ind from value_text_mut, items_text_mut, fields_text_mut.

(** *** The parser on grammatical text *)
Lemma bind_ok {A B} (m : parser A) (f : A -> parser B) l a l' :
  m l = (Ok a, l') -> (m ≫= f) l = f a l'.
Proof. intros H. unfold mbind, st_bind. by rewrite H. Qed.

Lemma drop_while_app p w l : Forall (fun b => p b = true) w -> drop_while p (w ++ l) = drop_while p l.
Proof. induction 1 as [|b w Hb Hw IH]; [done|]. simpl. by rewrite Hb. Qed.

Lemma drop_while_stop p l : opt_is p (head l) = false -> drop_while p l = l.
Proof. destruct l as [|b l]; [done|]. simpl. by intros ->. Qed.

Lemma skip_while_text p w l :
  Forall (fun b => p b = true) w -> opt_is p (head l) = false -> skip_while p (w ++ l) = (Ok tt, l).
Proof. intros Hw Hl. unfold skip_while. by rewrite drop_while_app, drop_while_stop. Qed.

Lemma hex_val_range b d : hex_val b = Some d -> 0 <= d < 16.
Proof.
  unfold hex_val. intros H. repeat case_match; simplify_eq;
    repeat match goal with H : _ && _ = true |- _ => apply andb_true_iff in H as [?%Z.leb_le ?%Z.leb_le] end; lia.
Qed.

Lemma hex_loop_text h ds v l :
  Forall2 (fun b d => hex_val b = Some d) h ds -> 0 <= v -> v * 16 ^ Z.of_nat (length h) + 16 ^ Z.of_nat (length h) <= 2 ^ 16 ->
  hex_loop (length h) v (h ++ l) = (Ok (foldl (fun a d => 16 * a + d) v ds), l).
Proof.
  intros Hh. revert v. induction Hh as [|b d h ds Hb Hh IH]; intros v Hv Hbound; [done|].
  cbn [length hex_loop]. rewrite (bind_ok _ _ _ (Some b) (h ++ l)) by done. rewrite Hb.
  pose proof (hex_val_range _ _ Hb) as Hd.
  cbn [length] in Hbound. rewrite Nat2Z.inj_succ, Z.pow_succ_r in Hbound by lia.
  assert (0 < 16 ^ Z.of_nat (length h)) as Hp by (apply Z.pow_pos_nonneg; lia).
  set (P := 16 ^ Z.of_nat (length h)) in *.
  assert (wrap16 (Z.shiftl v 4) = Z.shiftl v 4) as ->.
  { apply wrap16_small. rewrite Z.shiftl_mul_pow2 by lia. nia. }
  rewrite lor_shiftl_add by (change (2 ^ 4) with 16; lia). change (2 ^ 4) with 16.
  replace (v * 16 + d) with (16 * v + d) by lia. cbn [foldl]. apply IH; [lia|]. nia.
Qed.

Lemma parse_hex4_text h code l :
  hex4 h code -> parse_hex4 (h ++ l) = (Ok code, l) /\ 0 <= code < 2 ^ 16.
Proof.
  intros [Hlen (ds & Hds & ->)]. unfold parse_hex4. rewrite <- Hlen. split.
  - apply hex_loop_text; [done|lia|]. rewrite Hlen. done.
  - assert (forall v, 0 <= v -> 0 <= foldl (fun a d => 16 * a + d) v ds < (v + 1) * 16 ^ Z.of_nat (length h)) as H.
    { clear Hlen. induction Hds as [|b d h ds Hb Hds IH]; intros v Hv; cbn [foldl length]; [lia|].
      pose proof (hex_val_range _ _ Hb). rewrite Nat2Z.inj_succ, Z.pow_succ_r by lia.
      specialize (IH (16 * v + d) ltac:(lia)).
      assert (0 < 16 ^ Z.of_nat (length h)) by (apply Z.pow_pos_nonneg; lia). nia. }
    specialize (H 0 ltac:(lia)). rewrite Hlen in H. change (16 ^ Z.of_nat 4) with (2 ^ 16) in H. lia.
Qed.

Lemma take_bytes_text c l : take_bytes (length c) (c ++ l) = (Ok c, l).
Proof.
  induction c as [|b c IH]; [done|]. cbn [length take_bytes app].
  rewrite (bind_ok _ _ _ (Some b) (c ++ l)) by done. by rewrite (bind_ok _ _ _ _ _ IH).
Qed.

Lemma string_step_other fuel s b l :
  b <> 34 -> b <> 92 ->
  string_loop (S fuel) s (b :: l) =
  (if b <? 0x80 then string_loop fuel (s ++ [b])
   else
     more ← take_bytes (if b <? 0xE0 then 1%nat else if b <? 0xF0 then 2%nat else 3%nat);
     if Utf8.is_utf8 (b :: more) then string_loop fuel (s ++ b :: more) else string_loop fuel s) l.
Proof.
  intros H1 H2. cbn [string_loop]. rewrite (bind_ok _ _ _ (Some b) l) by done. by repeat case_match.
Qed.

Lemma string_step_escape fuel s l s' l' :
  parse_escape s l = (Ok s', l') -> string_loop (S fuel) s (92 :: l) = string_loop fuel s' l'.
Proof.
  intros He. cbn [string_loop]. rewrite (bind_ok _ _ _ (Some 92) l) by done. by apply bind_ok.
Qed.

(** The lead byte of a character determines its length. *)
Lemma char_step_lead b c n :
  Utf8.char_step (b :: c) = (true, n) ->
  (b < 0x80 /\ n = 1%nat) \/
  (0x80 <= b /\ n = S (if b <? 0xE0 then 1%nat else if b <? 0xF0 then 2%nat else 3%nat)).
Proof.
  unfold Utf8.char_step, Utf8.byte_at. cbn [lookup list_lookup default from_option id].
  change (default 0 (Some b)) with b. intros H. destruct (Z.ltb_spec b 0x80); [left; by simplify_eq|right].
  split; [lia|]. unfold Utf8.between in H.
  repeat case_match; simplify_eq; try done;
    repeat match goal with H : _ && _ = true |- _ => apply andb_true_iff in H as [?%Z.leb_le ?%Z.leb_le] end;
    repeat match goal with H : (_ <? _) = true |- _ => apply Z.ltb_lt in H | H : (_ <? _) = false |- _ => apply Z.ltb_ge in H end;
    try done; lia.
Qed.

Lemma string_loop_text e s :
  string_text e s -> forall acc fuel rest, (length e < fuel)%nat ->
  string_loop fuel acc (e ++ 34 :: rest) = (Ok (acc ++ s), rest).
Proof.
  induction 1 as [|c e s Hc Hs Hq Hbs He IH|x y e s Hxy He IH|h code e s Hh Hns He IH|h high h' low e s Hh Hh' Hhi Hlo He IH];
    intros acc fuel rest Hf; destruct fuel as [|fuel]; try lia.
  - by rewrite app_nil_r.
  - destruct c as [|b c]; [done|]. rewrite <- !app_assoc. cbn [app].
    rewrite length_app in Hf. cbn [length] in Hf.
    destruct (char_step_lead b c _ Hs) as [[Hb Hn]|[Hb Hn]].
    + destruct c; [|done]. rewrite string_step_other by congruence. rewrite (proj2 (Z.ltb_lt _ _)) by done.
      cbn [app]. rewrite IH by lia. by rewrite <- app_assoc.
    + rewrite string_step_other by lia. rewrite (proj2 (Z.ltb_ge _ _)) by done.
      injection Hn as Hn. rewrite <- Hn. rewrite (bind_ok _ _ _ _ _ (take_bytes_text c (e ++ 34 :: rest))).
      assert (Utf8.is_utf8 (b :: c) = true) as ->.
      { pose proof (Utf8.char_step_take (b :: c) _ ltac:(done) Hs) as Hv. by rewrite take_ge in Hv by (simpl; lia). }
      rewrite IH by lia. by rewrite <- app_assoc.
  - cbn [app length] in *. rewrite (string_step_escape fuel acc _ (acc ++ [y]) (e ++ 34 :: rest)).
    + rewrite IH by lia. by rewrite <- app_assoc.
    + unfold simple_escapes in Hxy. rewrite !elem_of_cons in Hxy.
      unfold parse_escape. rewrite (bind_ok _ _ _ (Some x) (e ++ 34 :: rest)) by done.
      repeat destruct Hxy as [[= -> ->]|Hxy]; try done. by apply not_elem_of_nil in Hxy.
  - cbn [app length] in *. rewrite length_app in Hf. rewrite <- !app_assoc.
    destruct (parse_hex4_text h code (e ++ 34 :: rest) Hh) as [Hp Hr].
    rewrite (string_step_escape fuel acc _ (acc ++ encode_utf8 code) (e ++ 34 :: rest)).
    + rewrite IH by lia. by rewrite <- app_assoc.
    + unfold parse_escape. rewrite (bind_ok _ _ _ (Some 117) (h ++ e ++ 34 :: rest)) by done.
      rewrite (bind_ok _ _ _ _ _ Hp).
      destruct ((0xD800 <=? code) && (code <=? 0xDBFF)) eqn:Hsur.
      { apply andb_true_iff in Hsur as [?%Z.leb_le ?%Z.leb_le]. lia. }
      unfold char_from_u32. destruct ((0xD800 <=? code) && (code <=? 0xDFFF)) eqn:Hsur2.
      { apply andb_true_iff in Hsur2 as [?%Z.leb_le ?%Z.leb_le]. lia. }
      by rewrite (proj2 (Z.leb_le code 0x10FFFF)) by lia.
  - cbn [app length] in *. rewrite length_app in Hf. cbn [length] in Hf. rewrite length_app in Hf.
    rewrite <- !app_assoc. cbn [app]. rewrite <- !app_assoc.
    destruct (parse_hex4_text h high (92 :: 117 :: h' ++ e ++ 34 :: rest) Hh) as [Hp Hr].
    destruct (parse_hex4_text h' low (e ++ 34 :: rest) Hh') as [Hp' Hr'].
    rewrite (string_step_escape fuel acc _
      (acc ++ encode_utf8 (0x10000 + (high - 0xD800) * 1024 + (low - 0xDC00))) (e ++ 34 :: rest)).
    + rewrite IH by lia. by rewrite <- app_assoc.
    + unfold parse_escape. rewrite (bind_ok _ _ _ (Some 117) _) by done.
      rewrite (bind_ok _ _ _ _ _ Hp).
      rewrite (proj2 (Z.leb_le 0xD800 high)), (proj2 (Z.leb_le high 0xDBFF)) by lia. cbn [andb].
      rewrite (bind_ok _ _ _ (Some 92) (117 :: h' ++ e ++ 34 :: rest)) by done.
      rewrite bool_decide_eq_true_2 by done. cbn [negb].
      rewrite (bind_ok _ _ _ (Some 117) (h' ++ e ++ 34 :: rest)) by done.
      rewrite bool_decide_eq_true_2 by done. cbn [negb].
      rewrite (bind_ok _ _ _ _ _ Hp').
      rewrite (proj2 (Z.leb_le 0xDC00 low)), (proj2 (Z.leb_le low 0xDFFF)) by lia. cbn [andb negb].
      rewrite Z.shiftl_mul_pow2 by lia. change (2 ^ 10) with 1024.
      rewrite (wrap32_small ((high - 0xD800) * 1024)), wrap32_small by lia.
      set (cp := 0x10000 + (high - 0xD800) * 1024 + (low - 0xDC00)).
      unfold char_from_u32. rewrite (proj2 (Z.leb_gt cp 0xDFFF)) by (unfold cp; lia). rewrite andb_false_r.
      by rewrite (proj2 (Z.leb_le cp 0x10FFFF)) by (unfold cp; lia).
Qed.

Lemma parse_string_text e s rest :
  string_text e s -> parse_string (34 :: e ++ 34 :: rest) = (Ok s, rest).
Proof.
  intros He. unfold parse_string. rewrite (bind_ok _ _ _ tt (e ++ 34 :: rest)) by done.
  rewrite (bind_ok _ _ _ (e ++ 34 :: rest) (e ++ 34 :: rest)) by done.
  rewrite (string_loop_text e s He); [done|]. rewrite length_app. lia.
Qed.

(** *** Numbers *)
Lemma parse_f64_some l : l <> [] -> is_Some (parse_f64 l).
Proof.
  destruct l as [|b l]; [done|]. intros _. unfold parse_f64.
  repeat (case_match; simplify_eq; try by eexists).
Qed.

(** What may follow a number: nothing that would continue it. *)
Definition stops (rest : list Z) : Prop :=
  opt_is (fun b => is_digit b || (b =? 46) || (b =? 101) || (b =? 69)) (head rest) = false.

Lemma stops_cases rest :
  stops rest -> opt_is is_digit (head rest) = false /\ opt_is (Z.eqb 46) (head rest) = false /\
  opt_is (fun b => (b =? 101) || (b =? 69)) (head rest) = false.
Proof.
  unfold stops. destruct rest as [|b rest]; unfold opt_is; cbn [head]; [done|].
  rewrite (Z.eqb_sym 46 b). destruct (is_digit b), (b =? 46), (b =? 101), (b =? 69); by cbn.
Qed.

Lemma digits_head l r : digits_text l -> opt_is is_digit (head (l ++ r)) = true.
Proof. intros [Hn Hd]. destruct l; [done|]. by apply Forall_cons in Hd as [Hd _]. Qed.

Lemma digits_parse ds r :
  digits_text ds -> opt_is is_digit (head r) = false ->
  (o ← peek; if opt_is is_digit o then skip_while is_digit else st_err InvalidNumber) (ds ++ r) = (Ok tt, r).
Proof.
  intros Hd Hr. rewrite (bind_ok _ _ _ (head (ds ++ r)) (ds ++ r)) by done. rewrite digits_head by done.
  apply skip_while_text; [apply Hd|done].
Qed.


Lemma is_digit_range b : is_digit b = true <-> 48 <= b <= 57.
Proof. unfold is_digit. rewrite andb_true_iff, !Z.leb_le. lia. Qed.

Lemma num_text_ascii n : num_ok n -> Forall (fun b => 0 <= b < 0x80) (num_text n).
Proof.
  intros ([_ Hi] & _ & Hf & He).
  assert (forall l, Forall (fun b => is_digit b = true) l -> Forall (fun b => 0 <= b < 0x80) l) as Hd.
  { intros l Hl. eapply Forall_impl; [exact Hl|]. intros b Hb%is_digit_range. lia. }
  unfold num_text. repeat apply Forall_app_2.
  - destruct (neg n); repeat constructor; lia.
  - by apply Hd.
  - destruct (frac n) as [ds|]; [|done]. constructor; [lia|]. by apply Hd, Hf.
  - destruct (expo n) as [[[e sg] ds]|]; [|done]. destruct He as (He & Hs & [_ Hds]). constructor; [destruct He; lia|].
    apply Forall_app_2; [|by apply Hd]. destruct Hs as [->|[->| ->]]; repeat constructor; lia.
Qed.

Lemma expo_text_head o r :
  match o with Some (e, _, _) => e = 101 \/ e = 69 | None => True end -> stops r ->
  opt_is is_digit (head (expo_text o ++ r)) = false /\ opt_is (Z.eqb 46) (head (expo_text o ++ r)) = false.
Proof.
  intros He Hr. pose proof (stops_cases r Hr) as (H1 & H2 & _).
  destruct o as [[[e sg] ds]|]; [|done]. simpl. by destruct He as [->| ->].
Qed.

Lemma parse_number_text n x rest :
  num_ok n -> parse_f64 (num_text n) = Some x -> stops rest ->
  parse_number (num_text n ++ rest) = (Ok (Number x), rest).
Proof.
  intros Hok Hx Hr. pose proof (num_text_ascii n Hok) as Hasc. pose proof Hok as ([Hin Hid] & H0 & Hf & He).
  pose proof (stops_cases rest Hr) as (Hr1 & Hr2 & Hr3).
  unfold parse_number. set (start := num_text n ++ rest).
  rewrite (bind_ok _ _ _ start start) by done. rewrite (bind_ok _ _ _ (head start) start) by done.
  set (l1 := int n ++ frac_text (frac n) ++ expo_text (expo n) ++ rest).
  assert (exists b l, l1 = b :: l /\ is_digit b = true) as (b1 & t1 & Hl1 & Hb1).
  { unfold l1. destruct (int n) as [|b l]; [done|]. apply Forall_cons in Hid as [Hb _]. by eexists _, _. }
  assert ((if opt_is (Z.eqb 45) (head start) then advance else mret tt) start = (Ok tt, l1)) as Hneg.
  { unfold start, num_text. rewrite <- !app_assoc. fold l1. destruct (neg n); [done|]. cbn [app]. rewrite Hl1.
    cbn [head opt_is]. apply is_digit_range in Hb1. by rewrite (proj2 (Z.eqb_neq 45 b1)) by lia. }
  rewrite (bind_ok _ _ _ _ _ Hneg). clear Hneg. rewrite (bind_ok _ _ _ (head l1) l1) by done.
  set (l2 := frac_text (frac n) ++ expo_text (expo n) ++ rest).
  assert (match expo n with Some (e, _, _) => e = 101 \/ e = 69 | None => True end) as He'
    by (destruct (expo n) as [[[? ?] ?]|]; tauto).
  pose proof (expo_text_head (expo n) rest He' Hr) as [Hx1 Hx2].
  assert (opt_is is_digit (head l2) = false) as Hl2 by (unfold l2; destruct (frac n); done).
  assert ((if opt_is (Z.eqb 48) (head l1) then advance
           else if opt_is is_digit (head l1) then skip_while is_digit else st_err InvalidNumber) l1 = (Ok tt, l2)) as Hint.
  { rewrite Hl1. cbn [head opt_is]. destruct (Z.eqb_spec 48 b1) as [<-|Hne].
    - assert (int n = [48]) as Hi48.
      { apply H0. unfold l1 in Hl1. destruct (int n); [done|]. by injection Hl1 as <- _. }
      unfold l1 in Hl1. rewrite Hi48 in Hl1. injection Hl1 as <-. done.
    - rewrite Hb1, <- Hl1. apply skip_while_text; done. }
  rewrite (bind_ok _ _ _ _ _ Hint). clear Hint. rewrite (bind_ok _ _ _ (head l2) l2) by done.
  set (l3 := expo_text (expo n) ++ rest).
  assert ((if opt_is (Z.eqb 46) (head l2) then
             _ ← advance; o ← peek; if opt_is is_digit o then skip_while is_digit else st_err InvalidNumber
           else mret tt) l2 = (Ok tt, l3)) as Hfrac.
  { unfold l2. destruct (frac n) as [ds|]; cbn [frac_text app].
    - simpl. rewrite (bind_ok _ _ _ tt (ds ++ l3)) by done. by apply digits_parse.
    - unfold l3. by rewrite Hx2. }
  rewrite (bind_ok _ _ _ _ _ Hfrac). clear Hfrac. rewrite (bind_ok _ _ _ (head l3) l3) by done.
  assert ((if opt_is (fun b => (b =? 101) || (b =? 69)) (head l3) then
             _ ← advance; o ← peek;
             _ ← (if opt_is (fun b => (b =? 43) || (b =? 45)) o then advance else mret tt);
             o ← peek; if opt_is is_digit o then skip_while is_digit else st_err InvalidNumber
           else mret tt) l3 = (Ok tt, rest)) as Hexp.
  { unfold l3. destruct (expo n) as [[[e sg] ds]|]; cbn [expo_text app]; [|by rewrite Hr3].
    destruct He as (Hee & Hs & Hds). assert ((e =? 101) || (e =? 69) = true) as Heb by (by destruct Hee as [->| ->]).
    cbn [head opt_is]. rewrite Heb. rewrite <- app_assoc.
    rewrite (bind_ok _ _ _ tt (sg ++ ds ++ rest)) by done.
    rewrite (bind_ok _ _ _ (head (sg ++ ds ++ rest)) (sg ++ ds ++ rest)) by done.
    assert ((if opt_is (fun b => (b =? 43) || (b =? 45)) (head (sg ++ ds ++ rest)) then advance else mret tt)
      (sg ++ ds ++ rest) = (Ok tt, ds ++ rest)) as Hsg.
    { destruct Hs as [->|[->| ->]]; [|done|done]. cbn [app]. destruct Hds as [Hdn Hdd]. destruct ds as [|d ds]; [done|].
      apply Forall_cons in Hdd as [Hd _]. apply is_digit_range in Hd.
      cbn [app head opt_is]. by rewrite (proj2 (Z.eqb_neq d 43)), (proj2 (Z.eqb_neq d 45)) by lia. }
    rewrite (bind_ok _ _ _ _ _ Hsg). by apply digits_parse. }
  rewrite (bind_ok _ _ _ _ _ Hexp). clear Hexp. rewrite (bind_ok _ _ _ rest rest) by done.
  assert (take (length start - length rest) start = num_text n) as ->.
  { unfold start. rewrite length_app. replace (_ + _ - _)%nat with (length (num_text n)) by lia. apply take_app_length. }
  rewrite Utf8.is_utf8_ascii by done. by rewrite Hx.
Qed.


(** *** Values *)
Lemma skip_ws_text w l : ws_text w -> opt_is is_ws (head l) = false -> skip_ws (w ++ l) = (Ok tt, l).
Proof. apply skip_while_text. Qed.

Lemma stops_ws w b r : ws_text w -> stops (b :: r) -> stops (w ++ b :: r).
Proof.
  intros Hw Hb. destruct Hw as [|c w Hc Hw]; [done|]. unfold stops. cbn.
  unfold is_ws in Hc. rewrite !orb_true_iff, !Z.eqb_eq in Hc. by destruct Hc as [[[->| ->]| ->]| ->].
Qed.

Lemma stops_all_ws w : ws_text w -> stops w.
Proof.
  intros Hw. destruct Hw as [|c w Hc Hw]; [done|]. unfold stops. cbn.
  unfold is_ws in Hc. rewrite !orb_true_iff, !Z.eqb_eq in Hc. by destruct Hc as [[[->| ->]| ->]| ->].
Qed.

Lemma parse_value_ws fuel w l : ws_text w -> parse_value (S fuel) (w ++ l) = parse_value (S fuel) l.
Proof.
  intros Hw. cbn [parse_value]. unfold mbind, st_bind, skip_ws, skip_while. by rewrite drop_while_app.
Qed.

Lemma drop_while_idem p l : drop_while p (drop_while p l) = drop_while p l.
Proof. induction l as [|b l IH]; [done|]. simpl. destruct (p b) eqn:Hb; [done|]. simpl. by rewrite Hb. Qed.

Lemma array_loop_ws f1 f2 acc l :
  array_loop (parse_value (S f1)) (S f2) acc (drop_while is_ws l) = array_loop (parse_value (S f1)) (S f2) acc l.
Proof.
  cbn [array_loop]. unfold mbind at 1 5, st_bind at 1 5.
  assert (parse_value (S f1) (drop_while is_ws l) = parse_value (S f1) l) as ->; [|done].
  cbn [parse_value]. unfold mbind, st_bind, skip_ws, skip_while. by rewrite drop_while_idem.
Qed.

Lemma object_loop_ws pv f acc l :
  object_loop pv (S f) acc (drop_while is_ws l) = object_loop pv (S f) acc l.
Proof.
  cbn [object_loop]. unfold mbind at 1, st_bind at 1. unfold skip_ws at 1, skip_while at 1.
  rewrite drop_while_idem. done.
Qed.

(** The first byte of a number, and of any value. *)
Lemma num_text_head n r : num_ok n -> exists b l, num_text n ++ r = b :: l /\ (b = 45 \/ 48 <= b <= 57).
Proof.
  intros ([Hn Hd] & _). unfold num_text. destruct (neg n); [by eexists _, _; split; [done|left]|].
  destruct (int n) as [|b l]; [done|]. apply Forall_cons in Hd as [Hb%is_digit_range _].
  eexists _, _. split; [done|by right].
Qed.

Lemma parse_value_number fuel b l :
  b = 45 \/ 48 <= b <= 57 -> parse_value (S fuel) (b :: l) = parse_number (b :: l).
Proof.
  intros Hb. assert (b = 45 \/ b = 48 \/ b = 49 \/ b = 50 \/ b = 51 \/ b = 52 \/ b = 53 \/ b = 54 \/ b = 55 \/
    b = 56 \/ b = 57) as Hc by lia. repeat destruct Hc as [->|Hc]; subst; reflexivity.
Qed.

Lemma value_text_head t v r :
  value_text t v -> opt_is (fun b => negb (b =? 93)) (head (drop_while is_ws (t ++ r))) = true.
Proof.
  induction 1; try done.
  - rewrite <- app_assoc. by rewrite drop_while_app.
  - destruct (num_text_head n r) as (b & l & -> & Hb); [done|]. simpl. unfold is_ws.
    rewrite !(proj2 (Z.eqb_neq _ _)) by lia. simpl. by rewrite (proj2 (Z.eqb_neq _ _)) by lia.
Qed.

Lemma items_text_head t l r :
  items_text t l -> opt_is (Z.eqb 93) (head (drop_while is_ws (t ++ r))) = false.
Proof.
  intros Ht. assert (exists t0 v0 r0, value_text t0 v0 /\ t ++ r = t0 ++ r0) as (t0 & v0 & r0 & Hv & ->).
  { destruct Ht; eexists _, _, _; (split; [done|]); by rewrite <- app_assoc. }
  pose proof (value_text_head t0 v0 r0 Hv) as H. destruct (head _) as [b|]; [|done]. unfold opt_is in *.
  rewrite Z.eqb_sym. by destruct (b =? 93).
Qed.

(** After an element: blanks, then a comma or the closing bracket. *)
Lemma array_step f1 f2 acc t v w b r :
  parse_value f1 (t ++ w ++ b :: r) = (Ok v, w ++ b :: r) -> ws_text w -> b = 44 \/ b = 93 ->
  array_loop (parse_value f1) (S f2) acc (t ++ w ++ b :: r) =
  if b =? 44 then array_loop (parse_value f1) f2 (acc ++ [v]) r else (Ok (Array (acc ++ [v])), r).
Proof.
  intros Hv Hw Hb. cbn [array_loop]. rewrite (bind_ok _ _ _ _ _ Hv).
  rewrite (bind_ok _ _ _ tt (b :: r)) by (apply skip_ws_text; [done|by destruct Hb as [->| ->]]).
  by destruct Hb as [->| ->].
Qed.

Lemma object_step pv f2 acc w1 e k w2 t v w3 b r :
  ws_text w1 -> string_text e k -> ws_text w2 -> pv (t ++ w3 ++ b :: r) = (Ok v, w3 ++ b :: r) -> ws_text w3 ->
  b = 44 \/ b = 125 ->
  object_loop pv (S f2) acc (w1 ++ 34 :: e ++ 34 :: w2 ++ 58 :: t ++ w3 ++ b :: r) =
  if b =? 44 then object_loop pv f2 (acc ++ [(k, v)]) r else (Ok (Object (acc ++ [(k, v)])), r).
Proof.
  intros Hw1 He Hw2 Hv Hw3 Hb. cbn [object_loop].
  rewrite (bind_ok _ _ _ _ _ (skip_ws_text w1 (34 :: _) Hw1 eq_refl)).
  rewrite (bind_ok _ _ _ _ _ (parse_string_text e k _ He)).
  rewrite (bind_ok _ _ _ _ _ (skip_ws_text w2 (58 :: _) Hw2 eq_refl)).
  rewrite (bind_ok _ _ _ tt (t ++ w3 ++ b :: r)) by done.
  rewrite (bind_ok _ _ _ _ _ Hv).
  rewrite (bind_ok _ _ _ tt (b :: r)) by (apply skip_ws_text; [done|by destruct Hb as [->| ->]]).
  by destruct Hb as [->| ->].
Qed.

Lemma text_parses :
  (forall t v, value_text t v -> forall rest fuel, stops rest -> (length (t ++ rest) < fuel)%nat ->
     parse_value fuel (t ++ rest) = (Ok v, rest)) /\
  (forall t l, items_text t l -> forall rest f1 f2 acc,
     (length (t ++ 93%Z :: rest) < f1)%nat -> (length (t ++ 93%Z :: rest) < f2)%nat ->
     array_loop (parse_value f1) f2 acc (t ++ 93 :: rest) = (Ok (Array (acc ++ l)), rest)) /\
  (forall t l, fields_text t l -> forall rest f1 f2 acc,
     (length (t ++ 125%Z :: rest) < f1)%nat -> (length (t ++ 125%Z :: rest) < f2)%nat ->
     object_loop (parse_value f1) f2 acc (t ++ 125 :: rest) = (Ok (Object (acc ++ l)), rest)).
Proof.
  apply json_text_ind.
  - intros w t v Hw Ht IH rest fuel Hr Hf. destruct fuel as [|fuel]; [lia|]. rewrite <- app_assoc, parse_value_ws by done.
    apply IH; [done|]. rewrite !length_app in *. lia.
  - intros rest [|fuel] Hr Hf; [lia|]. reflexivity.
  - intros rest [|fuel] Hr Hf; [lia|]. reflexivity.
  - intros rest [|fuel] Hr Hf; [lia|]. reflexivity.
  - intros n x Hok Hx rest [|fuel] Hr Hf; [lia|].
    destruct (num_text_head n rest Hok) as (b & l & Hbl & Hb).
    rewrite Hbl, parse_value_number, <- Hbl by done. by apply parse_number_text.
  - intros e s He rest [|fuel] Hr Hf; [lia|]. cbn [app]. rewrite <- app_assoc. cbn [app parse_value].
    rewrite (bind_ok _ _ _ tt (34 :: e ++ 34 :: rest)) by done.
    rewrite (bind_ok _ _ _ (Some 34) (34 :: e ++ 34 :: rest)) by done.
    by rewrite (bind_ok _ _ _ _ _ (parse_string_text e s rest He)).
  - intros w Hw rest [|fuel] Hr Hf; [lia|]. cbn [app]. rewrite <- app_assoc. cbn [app parse_value].
    rewrite (bind_ok _ _ _ tt (91 :: w ++ 93 :: rest)) by done.
    rewrite (bind_ok _ _ _ (Some 91) (91 :: w ++ 93 :: rest)) by done. unfold parse_array.
    rewrite (bind_ok _ _ _ tt (w ++ 93 :: rest)) by done.
    by rewrite (bind_ok _ _ _ _ _ (skip_ws_text w (93 :: _) Hw eq_refl)).
  - intros t l Ht IH rest [|fuel] Hr Hf; [lia|]. cbn [app] in *. rewrite <- app_assoc in *. cbn [app length parse_value] in *.
    rewrite (bind_ok _ _ _ tt (91 :: t ++ 93 :: rest)) by done.
    rewrite (bind_ok _ _ _ (Some 91) (91 :: t ++ 93 :: rest)) by done. unfold parse_array.
    rewrite (bind_ok _ _ _ tt (t ++ 93 :: rest)) by done.
    rewrite (bind_ok _ _ _ tt (drop_while is_ws (t ++ 93 :: rest))) by done.
    rewrite (bind_ok _ _ _ (head (drop_while is_ws (t ++ 93 :: rest))) (drop_while is_ws (t ++ 93 :: rest))) by done.
    rewrite (items_text_head t l _ Ht). destruct fuel as [|fuel]; [lia|]. rewrite array_loop_ws.
    apply (IH rest _ _ []); lia.
  - intros w Hw rest [|fuel] Hr Hf; [lia|]. cbn [app]. rewrite <- app_assoc. cbn [app parse_value].
    rewrite (bind_ok _ _ _ tt (123 :: w ++ 125 :: rest)) by done.
    rewrite (bind_ok _ _ _ (Some 123) (123 :: w ++ 125 :: rest)) by done. unfold parse_object.
    rewrite (bind_ok _ _ _ tt (w ++ 125 :: rest)) by done.
    by rewrite (bind_ok _ _ _ _ _ (skip_ws_text w (125 :: _) Hw eq_refl)).
  - intros t l Ht IH rest [|fuel] Hr Hf; [lia|]. cbn [app] in *. rewrite <- app_assoc in *. cbn [app length parse_value] in *.
    rewrite (bind_ok _ _ _ tt (123 :: t ++ 125 :: rest)) by done.
    rewrite (bind_ok _ _ _ (Some 123) (123 :: t ++ 125 :: rest)) by done. unfold parse_object.
    rewrite (bind_ok _ _ _ tt (t ++ 125 :: rest)) by done.
    rewrite (bind_ok _ _ _ tt (drop_while is_ws (t ++ 125 :: rest))) by done.
    rewrite (bind_ok _ _ _ (head (drop_while is_ws (t ++ 125 :: rest))) (drop_while is_ws (t ++ 125 :: rest))) by done.
    assert (opt_is (Z.eqb 125) (head (drop_while is_ws (t ++ 125 :: rest))) = false) as ->.
    { destruct Ht; rewrite <- app_assoc, drop_while_app by done; done. }
    destruct fuel as [|fuel]; [lia|]. rewrite object_loop_ws. apply (IH rest _ _ []); lia.
  - intros t v w Ht IH Hw rest f1 [|f2] acc H1 H2; [lia|]. rewrite <- app_assoc in *.
    rewrite (array_step _ _ _ t v w 93); [done| |done|by right].
    apply IH; [by apply stops_ws|done].
  - intros t v w t' l Ht IH Hw Ht' IH' rest f1 [|f2] acc H1 H2; [lia|]. rewrite <- !app_assoc in *. cbn [app] in *.
    rewrite (array_step _ _ _ t v w 44); [|apply IH; [by apply stops_ws|done]|done|by left].
    cbn [Z.eqb Pos.eqb]. rewrite !length_app in *. cbn [length] in *. rewrite length_app in *. cbn [length] in *.
    rewrite IH' by (rewrite length_app; cbn [length]; lia). by rewrite <- app_assoc.
  - intros w1 e k w2 t v w3 Hw1 He Hw2 Ht IH Hw3 rest f1 [|f2] acc H1 H2; [lia|].
    repeat (rewrite <- app_assoc in *; cbn [app] in * ).
    rewrite (object_step _ _ _ w1 e k w2 t v w3 125); try done; [|by right].
    apply IH; [by apply stops_ws|]. clear -H1. repeat (rewrite length_app in *; cbn [length] in * ). lia.
  - intros w1 e k w2 t v w3 t' l Hw1 He Hw2 Ht IH Hw3 Ht' IH' rest f1 [|f2] acc H1 H2; [lia|].
    repeat (rewrite <- app_assoc in *; cbn [app] in * ).
    rewrite (object_step _ _ _ w1 e k w2 t v w3 44); try done; [|apply IH; [by apply stops_ws|]|by left];
      repeat (rewrite length_app in *; cbn [length] in * ); [|lia].
    cbn [Z.eqb Pos.eqb].
    rewrite IH' by (rewrite length_app; cbn [length]; lia). by rewrite <- app_assoc.
Qed.


(** ** Typing: every string of a parsed value is valid UTF-8 *)
Fixpoint value_utf8 (v : JsonValue) : bool :=
  match v with
  | Str s => Utf8.is_utf8 s
  | Array l => forallb value_utf8 l
  | Object l => forallb (fun kv => Utf8.is_utf8 (fst kv) && value_utf8 (snd kv)) l
  | _ => true
  end.

(** Whatever [m] returns satisfies [P]. *)
Definition yields {A} (P : A -> Prop) (m : parser A) : Prop :=
  forall l, match m l with (Ok a, _) => P a | _ => True end.

Lemma yields_ret {A} (P : A -> Prop) a : P a -> yields P (mret a).
Proof. by intros Ha l. Qed.
Lemma yields_err {A} (P : A -> Prop) e : yields P (st_err e).
Proof. by intros l. Qed.
Lemma yields_any {A} (m : parser A) : yields (fun _ => True) m.
Proof. intros l. by destruct (m l) as [[]]. Qed.
Lemma yields_bind {A B} (Q : A -> Prop) (P : B -> Prop) (m : parser A) (f : A -> parser B) :
  yields Q m -> (forall a, Q a -> yields P (f a)) -> yields P (m ≫= f).
Proof.
  intros Hm Hf l. unfold mbind, st_bind. specialize (Hm l). destruct (m l) as [[a|e|] l']; try done. by apply Hf.
Qed.
Lemma yields_then {A B} (P : B -> Prop) (m : parser A) (f : A -> parser B) :
  (forall a, yields P (f a)) -> yields P (m ≫= f).
Proof. intros Hf. eapply yields_bind; [apply yields_any|auto]. Qed.

Create HintDb yields.
#[local] Hint Resolve yields_ret yields_err : yields.

Lemma char_utf8 l : l <> [] -> Utf8.char_step l = (true, length l) -> Utf8.is_utf8 l = true.
Proof.
  destruct l as [|b l]; [done|]. intros _ Hs. rewrite Utf8.is_utf8_step, Hs. by rewrite drop_ge.
Qed.

Lemma encode_utf8_ok cp : 0 <= cp -> Utf8.is_utf8 (push_opt [] (char_from_u32 cp)) = true.
Proof.
  intros Hcp. unfold char_from_u32. destruct ((0xD800 <=? cp) && (cp <=? 0xDFFF)) eqn:Hs; [done|].
  destruct (Z.leb_spec cp 0x10FFFF) as [Hle|]; [|done]. cbn [push_opt app].
  apply andb_false_iff in Hs. rewrite !Z.leb_gt in Hs.
  pose proof (Z.mod_pos_bound cp 64 ltac:(lia)). pose proof (Z.mod_pos_bound (cp / 64) 64 ltac:(lia)).
  pose proof (Z.mod_pos_bound (cp / 4096) 64 ltac:(lia)).
  unfold encode_utf8. destruct (Z.ltb_spec cp 0x80); [|destruct (Z.ltb_spec cp 0x800); [|destruct (Z.ltb_spec cp 0x10000)]];
    (apply char_utf8; [done|]); unfold Utf8.char_step, Utf8.byte_at; cbn [lookup list_lookup default length];
    change (default 0 (Some ?x)) with x; unfold Utf8.second_ok, Utf8.is_cont, Utf8.between;
    repeat case_match; try done; unfold id in *; exfalso;
    rewrite ?andb_true_iff, ?andb_false_iff, ?Z.leb_le, ?Z.leb_gt, ?Z.ltb_lt, ?Z.ltb_ge, ?Z.eqb_eq, ?Z.eqb_neq in *; lia.
Qed.


Lemma push_opt_ok s cp :
  Utf8.is_utf8 s = true -> 0 <= cp -> Utf8.is_utf8 (push_opt s (char_from_u32 cp)) = true.
Proof.
  intros Hs Hcp. pose proof (encode_utf8_ok cp Hcp) as He. destruct (char_from_u32 cp); [|done].
  by apply Utf8.is_utf8_app.
Qed.

Lemma push_ascii_ok s b : Utf8.is_utf8 s = true -> b < 0x80 -> Utf8.is_utf8 (s ++ [b]) = true.
Proof.
  intros Hs Hb. apply Utf8.is_utf8_app; [done|]. apply char_utf8; [done|]. unfold Utf8.char_step, Utf8.byte_at.
  cbn [lookup list_lookup default]. unfold id. by rewrite (proj2 (Z.ltb_lt b 0x80)).
Qed.

Lemma yields_hex n v : 0 <= v -> yields (fun c => 0 <= c) (hex_loop n v).
Proof.
  revert v. induction n as [|n IH]; intros v Hv; cbn [hex_loop]; [by apply yields_ret|].
  apply yields_then. intros [b|]; [|auto with yields]. destruct (hex_val b) as [d|] eqn:Hd; [|auto with yields].
  apply IH. apply Z.lor_nonneg. pose proof (hex_val_range _ _ Hd). pose proof (wrap16_range (Z.shiftl v 4)). lia.
Qed.

Lemma yields_escape s : Utf8.is_utf8 s = true -> yields (fun s' => Utf8.is_utf8 s' = true) (parse_escape s).
Proof.
  intros Hs. unfold parse_escape. apply yields_then. intros o.
  assert (yields (fun s' => Utf8.is_utf8 s' = true) (code ← parse_hex4;
      if (0xD800 <=? code) && (code <=? 0xDBFF) then
        b ← next_byte;
        if negb (bool_decide (b = Some 92)) then st_err InvalidEscape
        else
          u ← next_byte;
          if negb (bool_decide (u = Some 117)) then st_err InvalidEscape
          else
            low ← parse_hex4;
            if negb ((0xDC00 <=? low) && (low <=? 0xDFFF)) then st_err InvalidEscape
            else
              let cp := wrap32 (0x10000 + wrap32 (Z.shiftl (code - 0xD800) 10) + (low - 0xDC00)) in
              mret (push_opt s (char_from_u32 cp))
      else mret (push_opt s (char_from_u32 code)))) as Hu.
  { eapply yields_bind; [by apply yields_hex|]. intros code Hcode. cbv beta in Hcode.
    destruct ((0xD800 <=? code) && (code <=? 0xDBFF)); [|by apply yields_ret, push_opt_ok].
    apply yields_then. intros b. destruct (negb _); [auto with yields|]. apply yields_then. intros u.
    destruct (negb _); [auto with yields|]. apply yields_then. intros low. destruct (negb _); [auto with yields|].
    apply yields_ret, push_opt_ok; [done|]. apply wrap32_range. }
  repeat first [apply yields_err | exact Hu | by apply yields_ret, push_ascii_ok | case_match].
Qed.

Lemma yields_string_loop fuel s :
  Utf8.is_utf8 s = true -> yields (fun s' => Utf8.is_utf8 s' = true) (string_loop fuel s).
Proof.
  revert s. induction fuel as [|fuel IH]; intros s Hs; [by intros l|]. cbn [string_loop].
  apply yields_then. intros o.
  assert (forall b, yields (fun s' => Utf8.is_utf8 s' = true) (if b <? 0x80 then string_loop fuel (s ++ [b])
          else
            more ← take_bytes (if b <? 0xE0 then 1%nat else if b <? 0xF0 then 2%nat else 3%nat);
            if Utf8.is_utf8 (b :: more) then string_loop fuel (s ++ b :: more)
            else string_loop fuel s)) as Hb.
  { intros b. destruct (Z.ltb_spec b 0x80); [by apply IH, push_ascii_ok|]. apply yields_then. intros more.
    destruct (Utf8.is_utf8 (b :: more)) eqn:Hm; [by apply IH, Utf8.is_utf8_app|by apply IH]. }
  assert (yields (fun s' => Utf8.is_utf8 s' = true) (s' ← parse_escape s; string_loop fuel s')) as He.
  { eapply yields_bind; [by apply yields_escape|]. intros s' Hs'. by apply IH. }
  repeat first [apply Hb | exact He | by auto with yields | case_match].
Qed.

Lemma yields_string : yields (fun s => Utf8.is_utf8 s = true) parse_string.
Proof. unfold parse_string. apply yields_then. intros _. apply yields_then. intros l. by apply yields_string_loop. Qed.

Definition ok_value (v : JsonValue) : Prop := value_utf8 v = true.

Lemma yields_number : yields ok_value parse_number.
Proof.
  unfold parse_number. repeat (apply yields_then; intros ?).
  repeat case_match; by auto with yields.
Qed.

Lemma yields_literal lit v : ok_value v -> yields ok_value (_ ← expect_literal lit; mret v : parser JsonValue).
Proof. intros Hv. apply yields_then. by auto with yields. Qed.

Lemma yields_array_loop pv fuel items :
  yields ok_value pv -> ok_value (Array items) -> yields ok_value (array_loop pv fuel items).
Proof.
  intros Hpv. revert items. induction fuel as [|fuel IH]; intros items Hi; [by intros l|]. cbn [array_loop].
  eapply yields_bind; [exact Hpv|]. intros v Hv.
  assert (ok_value (Array (items ++ [v]))) as Hi'.
  { unfold ok_value in *. cbn [value_utf8] in *. by rewrite forallb_app, Hi; simpl; rewrite Hv. }
  apply yields_then. intros _. apply yields_then. intros o.
  assert (yields ok_value (_ ← advance; array_loop pv fuel (items ++ [v]))) by (apply yields_then; intros _; by apply IH).
  assert (yields ok_value (_ ← advance; mret (Array (items ++ [v])) : parser JsonValue)) by (apply yields_then; by auto with yields).
  repeat first [done | by auto with yields | case_match].
Qed.

Lemma yields_object_loop pv fuel fields :
  yields ok_value pv -> ok_value (Object fields) -> yields ok_value (object_loop pv fuel fields).
Proof.
  intros Hpv. revert fields. induction fuel as [|fuel IH]; intros fields Hi; [by intros l|]. cbn [object_loop].
  apply yields_then. intros _. eapply yields_bind; [apply yields_string|]. intros k Hk. cbv beta in Hk.
  do 2 (apply yields_then; intros _). eapply yields_bind; [exact Hpv|]. intros v Hv.
  assert (ok_value (Object (fields ++ [(k, v)]))) as Hi'.
  { unfold ok_value in *. cbn [value_utf8] in *. by rewrite forallb_app, Hi; simpl; rewrite Hk, Hv. }
  apply yields_then. intros _. apply yields_then. intros o.
  assert (yields ok_value (_ ← advance; object_loop pv fuel (fields ++ [(k, v)]))) by (apply yields_then; intros _; by apply IH).
  assert (yields ok_value (_ ← advance; mret (Object (fields ++ [(k, v)])) : parser JsonValue)) by (apply yields_then; by auto with yields).
  repeat first [done | by auto with yields | case_match].
Qed.

Lemma yields_value fuel : yields ok_value (parse_value fuel).
Proof.
  induction fuel as [|fuel IH]; [by intros l|]. cbn [parse_value].
  apply yields_then. intros _. apply yields_then. intros o.
  assert (yields ok_value (s ← parse_string; mret (Str s) : parser JsonValue)) as Hs.
  { eapply yields_bind; [apply yields_string|]. intros s Hs. by apply yields_ret. }
  assert (yields ok_value (parse_object (parse_value fuel) fuel)) as Ho.
  { unfold parse_object. do 3 (apply yields_then; intros ?). case_match; [|by apply yields_object_loop].
    apply yields_then. by auto with yields. }
  assert (yields ok_value (parse_array (parse_value fuel) fuel)) as Ha.
  { unfold parse_array. do 3 (apply yields_then; intros ?). case_match; [|by apply yields_array_loop].
    apply yields_then. by auto with yields. }
  assert (forall b, yields ok_value (if (b =? 45) || is_digit b then parse_number else st_err (UnexpectedChar b))) as Hn.
  { intros b. case_match; [apply yields_number|by auto with yields]. }
  repeat first [apply Hn | exact Hs | exact Ho | exact Ha | apply yields_err | by apply yields_literal | case_match].
Qed.

(** A text and the blanks after it. *)
Lemma parse_text t w v : value_text t v -> ws_text w -> parse (t ++ w) = Ok v.
Proof.
  intros Ht Hw. unfold parse, parse_input. rewrite (bind_ok _ _ _ (t ++ w) (t ++ w)) by done.
  rewrite (bind_ok _ _ _ _ _ (proj1 text_parses t v Ht w (S (length (t ++ w))) (stops_all_ws w Hw) ltac:(lia))).
  rewrite (bind_ok _ _ _ tt []); [done|]. rewrite <- (app_nil_r w). by apply skip_ws_text.
Qed.

(** ** Properties *)




(** [ {"a":[1,"\u00e9"]} ] with a trailing newline. *)
Definition sample : list Z :=
  123 :: [34; 97; 34; 58; 91; 49; 44; 34; 92; 117; 48; 48; 101; 57; 34; 93] ++ [125].
Definition sample_value : JsonValue :=
  Object [([97], Array [Number (f64_of_Z 1); Str [0xC3; 0xA9]])].

Lemma sample_text : value_text sample sample_value.
Proof.
  apply VT_obj. apply (FT_one [] [97] [97] [] [91; 49; 44; 34; 92; 117; 48; 48; 101; 57; 34; 93] _ []); try constructor; try done.
  - apply (ST_char [97] [] []); [done|done|done|done|constructor].
  - apply (VT_arr [49; 44; 34; 92; 117; 48; 48; 101; 57; 34]).
    apply (IT_cons [49] _ [] [34; 92; 117; 48; 48; 101; 57; 34]); [|constructor|].
    + apply (VT_num (mkNum false [49] None None)); [|reflexivity]. repeat split; try done. by repeat constructor.
    + apply (IT_one [34; 92; 117; 48; 48; 101; 57; 34] _ []); [|constructor].
      apply (VT_str [92; 117; 48; 48; 101; 57]). apply (ST_u [48; 48; 101; 57] 233 [] []); [|lia|constructor].
      split; [done|]. exists [0; 0; 14; 9]. split; [|done]. repeat constructor.
Qed.



End Json.
