(* ===== verification/Str.v ===== *)
(** * String slices

    The operations of [str] that the text-handling code uses, on the bytes of
    a valid UTF-8 string: searching, splitting, trimming, integer parsing. *)
From S2P Require Import Prelude.
From S2P Require Import Bytes.
From S2P Require Import Utf8.
From S2P Require Import Fmt.

Module Str.

Definition CRLF : list Z := [13; 10].

(** ** Searching *)
(** [l.find(pat)]: the position of the first occurrence. *)
Fixpoint find (pat l : list Z) : option nat :=
  if starts_with l pat then Some 0%nat
  else match l with
       | [] => None
       | _ :: l' => S <$> find pat l'
       end.
Definition contains (l pat : list Z) : bool := bool_decide (is_Some (find pat l)).
(** [l.strip_prefix(pat)]. *)
Definition strip_prefix (pat l : list Z) : option (list Z) :=
  if starts_with l pat then Some (drop (length pat) l) else None.

(** ** Splitting *)
(** [l.split_once(pat)]. *)
Definition split_once (pat l : list Z) : option (list Z * list Z) :=
  i ← find pat l; Some (take i l, drop (i + length pat) l).

Fixpoint split_loop (fuel : nat) (pat l : list Z) : list (list Z) :=
  match fuel with
  | O => [l]
  | S fuel =>
      match split_once pat l with
      | Some (a, b) => a :: split_loop fuel pat b
      | None => [l]
      end
  end.
(** [l.splitn(n, pat)]: at most [n] pieces. *)
Definition splitn (n : nat) (pat l : list Z) : list (list Z) := split_loop (n - 1) pat l.
(** [l.split(pat)]; every piece but the last uses up a byte of [pat]. *)
Definition split (pat l : list Z) : list (list Z) := split_loop (length l) pat l.

(** [pieces.join(sep)]. *)
Fixpoint join (sep : list Z) (pieces : list (list Z)) : list Z :=
  match pieces with
  | [] => []
  | [p] => p
  | p :: pieces => p ++ sep ++ join sep pieces
  end.

(** [l.lines()]: pieces ended by a line feed, a carriage return before it
    dropped; what follows the last line feed is a line unless it is empty. *)
Definition strip_cr (l : list Z) : list Z :=
  match last l with Some 13 => take (length l - 1) l | _ => l end.
Fixpoint lines_loop (fuel : nat) (l : list Z) : list (list Z) :=
  match fuel with
  | O => []
  | S fuel =>
      match split_once [10] l with
      | Some (a, b) => strip_cr a :: lines_loop fuel b
      | None => if bool_decide (l = []) then [] else [l]
      end
  end.
Definition lines (l : list Z) : list (list Z) := lines_loop (S (length l)) l.

(** ** Characters and trimming *)
Fixpoint chars_loop (fuel : nat) (l : list Z) : list (list Z) :=
  match fuel, l with
  | S fuel, _ :: _ => let n := snd (Utf8.char_step l) in take n l :: chars_loop fuel (drop n l)
  | _, _ => []
  end.
(** [l.chars()], each character as its bytes. *)
Definition chars (l : list Z) : list (list Z) := chars_loop (length l) l.

(** [char::is_whitespace]: the Unicode property White_Space. *)
Definition is_whitespace (c : list Z) : bool :=
  match c with
  | [b] => ((9 <=? b) && (b <=? 13)) || (b =? 32)
  | [0xC2; b] => (b =? 0x85) || (b =? 0xA0)
  | [0xE1; 0x9A; 0x80] => true
  | [0xE2; 0x80; b] => ((0x80 <=? b) && (b <=? 0x8A)) || (b =? 0xA8) || (b =? 0xA9) || (b =? 0xAF)
  | [0xE2; 0x81; 0x9F] => true
  | [0xE3; 0x80; 0x80] => true
  | _ => false
  end.

Fixpoint drop_chars (p : list Z -> bool) (cs : list (list Z)) : list (list Z) :=
  match cs with
  | [] => []
  | c :: cs' => if p c then drop_chars p cs' else cs
  end.
Definition trim_start (l : list Z) : list Z := concat (drop_chars is_whitespace (chars l)).
Definition trim_end (l : list Z) : list Z := concat (reverse (drop_chars is_whitespace (reverse (chars l)))).
Definition trim (l : list Z) : list Z := trim_end (trim_start l).

(** ** Integers *)
Fixpoint uint_loop (limit : Z) (l : list Z) (acc : Z) : option Z :=
  match l with
  | [] => Some acc
  | b :: l' =>
      if is_digit b then
        let acc := 10 * acc + (b - 48) in
        if acc <? limit then uint_loop limit l' acc else None
      else None
  end.
(** [l.parse::<uN>()] with [limit = 2^N]: an optional plus sign, at least one
    digit, no overflow. *)
Definition parse_uint (limit : Z) (l : list Z) : option Z :=
  let l := match l with 43 :: l' => l' | _ => l end in
  match l with [] => None | _ => uint_loop limit l 0 end.

(** ** Lemmas *)
Lemma starts_with_app l r : starts_with (l ++ r) l = true.
Proof. unfold starts_with. rewrite take_app_length. by apply bool_decide_eq_true. Qed.

Lemma starts_with_iff l pat : starts_with l pat = true <-> exists r, l = pat ++ r.
Proof.
  unfold starts_with. rewrite bool_decide_eq_true. split.
  - intros H. exists (drop (length pat) l). by rewrite <- H at 1; rewrite take_drop.
  - intros [r ->]. apply take_app_length.
Qed.

Lemma starts_with_grow l r pat :
  (length pat <= length l)%nat -> starts_with (l ++ r) pat = starts_with l pat.
Proof. intros H. unfold starts_with. by rewrite take_app_le. Qed.

Lemma find_bound pat l i : find pat l = Some i -> (i + length pat <= length l)%nat.
Proof.
  revert i. induction l as [|b l IH]; intros i; cbn [find]; destruct (starts_with _ pat) eqn:Hs.
  - apply starts_with_iff in Hs as [r Hr]. intros [= <-]. rewrite Hr, length_app. lia.
  - done.
  - apply starts_with_iff in Hs as [r Hr]. intros [= <-]. rewrite Hr, length_app. lia.
  - destruct (find pat l) as [j|]; [|done]. intros [= <-]. specialize (IH j eq_refl). simpl. lia.
Qed.

Lemma find_app pat l r i : find pat l = Some i -> find pat (l ++ r) = Some i.
Proof.
  revert i. induction l as [|b l IH]; intros i Hf; pose proof (find_bound _ _ _ Hf) as Hb; cbn [find] in Hf;
    destruct (starts_with _ pat) eqn:Hs; simplify_eq; cbn [app find].
  - destruct pat; [|simpl in Hb; lia]. by destruct r.
  - change (b :: l ++ r) with ((b :: l) ++ r). rewrite starts_with_grow, Hs by (simpl in *; lia). done.
  - destruct (find pat l) as [j|] eqn:Hj; [|done]. injection Hf as <-.
    change (b :: l ++ r) with ((b :: l) ++ r). rewrite starts_with_grow, Hs by lia. by rewrite (IH j).
Qed.

(** A prefix free of the first byte of the pattern is skipped. *)
Lemma find_skip x pat l r :
  Forall (fun b => b <> x) l -> find (x :: pat) (l ++ r) = (fun i => length l + i)%nat <$> find (x :: pat) r.
Proof.
  induction 1 as [|b l Hb Hl IH]; cbn [app length].
  - by destruct (find (x :: pat) r).
  - cbn [find]. destruct (starts_with (b :: l ++ r) (x :: pat)) eqn:Hs.
    { apply starts_with_iff in Hs as [r' [=]]. done. }
    rewrite IH. by destruct (find (x :: pat) r).
Qed.

Lemma find_here pat r : find pat (pat ++ r) = Some 0%nat.
Proof.
  assert (starts_with (pat ++ r) pat = true) as H by apply starts_with_app.
  destruct (pat ++ r) eqn:Hl; cbn [find]; by rewrite H.
Qed.

Lemma find_none x pat l : Forall (fun b => b <> x) l -> find (x :: pat) l = None.
Proof. intros Hl. rewrite <- (app_nil_r l). by rewrite find_skip. Qed.

Lemma split_once_skip x pat a r :
  Forall (fun b => b <> x) a -> split_once (x :: pat) (a ++ (x :: pat) ++ r) = Some (a, r).
Proof.
  intros Ha. unfold split_once. rewrite find_skip, find_here by done. cbn [fmap option_fmap option_map mbind option_bind].
  rewrite Nat.add_0_r, take_app_length. rewrite <- drop_drop, drop_app_length. by rewrite drop_app_length.
Qed.

Lemma split_once_none x pat a : Forall (fun b => b <> x) a -> split_once (x :: pat) a = None.
Proof. intros Ha. unfold split_once. by rewrite find_none. Qed.

(** The window loop [for i in 0..l.len()-(k-1)] is [find]. *)
Lemma window_find (P : nat -> Prop) `{forall i, Decision (P i)} x pat l :
  (forall i, P i <-> take (S (length pat)) (drop i l) = x :: pat) ->
  snd <$> list_find P (seq 0 (length l - length pat)) = find (x :: pat) l.
Proof.
  intros HP.
  assert (forall n k, (k + n = length l)%nat ->
    snd <$> list_find P (seq k (n - length pat)) = (fun i => k + i)%nat <$> find (x :: pat) (drop k l) /\ True) as Hgen.
  2: { destruct (Hgen (length l) 0%nat eq_refl) as [Hg _]. rewrite drop_0 in Hg. 
       destruct (find (x :: pat) l); simpl in Hg; destruct (list_find P _) as [[i v]|] eqn:Hlf; simpl in *; simplify_eq; done. }
  induction n as [|n IH]; intros k Hk; (split; [|done]).
  - rewrite drop_ge by lia. done.
  - assert (exists b, drop k l = b :: drop (S k) l) as [b Hb].
    { destruct (lookup_lt_is_Some_2 l k ltac:(lia)) as [b Hb]. exists b. by apply drop_S. }
    assert (starts_with (drop k l) (x :: pat) = bool_decide (P k)) as Hs.
    { unfold starts_with. apply bool_decide_ext. cbn [length]. by rewrite HP. }
    destruct (decide (length pat <= n)%nat) as [Hle|Hgt].
    + replace (S n - length pat)%nat with (S (n - length pat)) by lia. cbn [seq list_find].
      rewrite Hb. cbn [find]. rewrite <- Hb, Hs.
      destruct (decide (P k)) as [Hp|Hp]; [rewrite bool_decide_eq_true_2 by done; simpl; by rewrite Nat.add_0_r|].
      rewrite bool_decide_eq_false_2 by done.
      destruct (IH (S k) ltac:(lia)) as [IH' _]. destruct (find (x :: pat) (drop (S k) l)) as [j|];
        destruct (list_find P _) as [[i v]|]; simpl in *; simplify_eq; [f_equal; lia|done].
    + replace (S n - length pat)%nat with 0%nat by lia. cbn [seq list_find fmap option_fmap option_map].
      destruct (find (x :: pat) (drop k l)) as [j|] eqn:Hf; [|done].
      apply find_bound in Hf. rewrite length_drop in Hf. simpl in Hf. lia.
Qed.

(** Splitting at a byte. *)
Lemma split_once_some x l a b :
  split_once [x] l = Some (a, b) -> l = a ++ x :: b /\ Forall (fun c => c <> x) a.
Proof.
  revert a. induction l as [|c l IH]; intros a; unfold split_once; cbn [find]; unfold starts_with; cbn [take length].
  - rewrite bool_decide_eq_false_2 by done. done.
  - case_bool_decide as Hc; cbn [mbind option_bind].
    + injection Hc as <-. cbn. intros [= <- <-]. by rewrite drop_0.
    + unfold split_once in IH. destruct (find [x] l) as [i|]; cbn [fmap option_fmap option_map mbind option_bind] in *; [|done].
      cbn [take drop plus]. intros [= <- <-]. destruct (IH (take i l) eq_refl) as [Hl Hf].
      split; [cbn; by f_equal|]. constructor; [intros ->; by apply Hc|done].
Qed.

Lemma split_once_free x l : split_once [x] l = None -> Forall (fun c => c <> x) l.
Proof.
  induction l as [|c l IH]; [done|]. unfold split_once. cbn [find]. unfold starts_with. cbn [take length].
  case_bool_decide as Hc; [done|]. unfold split_once in IH. destruct (find [x] l); [done|].
  intros _. constructor; [intros ->; by apply Hc|by apply IH].
Qed.

Lemma split_join x l :
  join [x] (split [x] l) = l /\ Forall (Forall (fun c => c <> x)) (split [x] l) /\ split [x] l <> [].
Proof.
  unfold split. assert (forall fuel, (length l <= fuel)%nat ->
    join [x] (split_loop fuel [x] l) = l /\ Forall (Forall (fun c => c <> x)) (split_loop fuel [x] l) /\
    split_loop fuel [x] l <> []) as Hg; [|by apply Hg].
  intros fuel. revert l. induction fuel as [|fuel IH]; intros l Hl; cbn [split_loop].
  - destruct l; [|simpl in Hl; lia]. by repeat constructor.
  - destruct (split_once [x] l) as [[a b]|] eqn:Hs; [|by split_and!; [done|repeat constructor; by apply split_once_free|]].
    destruct (split_once_some _ _ _ _ Hs) as [-> Ha]. rewrite length_app in Hl. cbn in Hl.
    destruct (IH b ltac:(lia)) as (Hj & Hf & Hn). split_and!; [|by constructor|done].
    cbn [join]. destruct (split_loop fuel [x] b); [done|]. by rewrite Hj.
Qed.

End Str.
