(* ===== verification/Http.v ===== *)
(** * HTTP responses ([api/http.rs])

    The status line and header parser of the API client.  Data arrives in
    pieces; [http_parse_stable] is what lets the receive loops parse again
    after each piece. *)
From S2P Require Import Prelude.
From S2P Require Import Bytes.
From S2P Require Import Utf8.
From S2P Require Import Fmt.
From S2P Require Import Str.

Module Http.

Record HttpResponse := mkHttpResponse {
  status : Z;
  headers : list (list Z * list Z);
  body_start : Z;
}.

Inductive HttpParseError := Incomplete | MalformedStatus.

Definition HEADER_END : list Z := [13; 10; 13; 10].

Definition find_header_end (data : list Z) : option nat :=
  snd <$> list_find (fun i => take 4 (drop i data) = HEADER_END) (seq 0 (length data - 3)).

Definition parse_status_code (line : list Z) : out HttpParseError Z :=
  let parts := Str.splitn 3 [32] line in
  if (length parts <? 2)%nat then Err MalformedStatus
  else
    p1 ← or_panic (parts !! 1%nat);
    ok_or (Str.parse_uint (2 ^ 16) p1) MalformedStatus.

Definition to_ascii_lowercase (l : list Z) : list Z :=
  (fun b => if (65 <=? b) && (b <=? 90) then b + 32 else b) <$> l.

Fixpoint header_lines (lines : list (list Z)) (headers : list (list Z * list Z)) : list (list Z * list Z) :=
  match lines with
  | [] => headers
  | line :: lines =>
      if bool_decide (line = []) then headers
      else
        match Str.split_once [58] line with
        | Some (name, value) =>
            header_lines lines (headers ++ [(to_ascii_lowercase (Str.trim name), Str.trim value)])
        | None => header_lines lines headers
        end
  end.

Definition parse (data : list Z) : out HttpParseError HttpResponse :=
  header_end ← ok_or (find_header_end data) Incomplete;
  header_section ← (if Utf8.is_utf8 (take header_end data) then Ok (take header_end data) else Err MalformedStatus);
  let lines := Str.split Str.CRLF header_section in
  status_line ← ok_or (head lines) MalformedStatus;
  status ← parse_status_code status_line;
  Ok (mkHttpResponse status (header_lines (tail lines) []) (Z.of_nat header_end + 4)).

Definition header (r : HttpResponse) (name : list Z) : option (list Z) :=
  let lower := to_ascii_lowercase name in
  snd <$> (snd <$> list_find (fun kv => fst kv = lower) (headers r)).

Definition error_message (r : HttpResponse) : option (list Z) :=
  match status r with
  | 200 | 201 => None
  | 400 => Some (str "bad request (check API parameters)")
  | 401 => Some (str "API key invalid or missing")
  | 403 => Some (str "access denied")
  | 404 => Some (str "endpoint not found")
  | 429 => Some (str "rate limited — retry after delay")
  | 500 => Some (str "API internal server error")
  | 529 => Some (str "API overloaded — retry later")
  | _ => Some (str "unexpected HTTP status")
  end.

Definition should_retry (r : HttpResponse) : bool :=
  (status r =? 429) || (status r =? 500) || (status r =? 529).

Definition retry_after_secs (r : HttpResponse) : option Z :=
  v ← header r (str "retry-after"); Str.parse_uint (2 ^ 64) v.

(** ** Lemmas *)
Lemma find_header_end_find data : find_header_end data = Str.find HEADER_END data.
Proof. unfold find_header_end. by apply (Str.window_find _ 13 [10; 13; 10]). Qed.

Lemma header_end_bound data i : find_header_end data = Some i -> (i + 4 <= length data)%nat.
Proof. rewrite find_header_end_find. apply Str.find_bound. Qed.

Lemma parse_grow data more i :
  find_header_end data = Some i -> parse (data ++ more) = parse data.
Proof.
  intros Hf. unfold parse. pose proof (header_end_bound _ _ Hf) as Hb.
  assert (find_header_end (data ++ more) = Some i) as ->.
  { rewrite find_header_end_find in *. by apply Str.find_app. }
  rewrite Hf. cbn [ok_or mbind out_bind]. by rewrite take_app_le by lia.
Qed.

Lemma parse_incomplete data : parse data = Err Incomplete <-> find_header_end data = None.
Proof.
  unfold parse. destruct (find_header_end data) as [i|]; cbn [ok_or mbind out_bind]; [|done]. split; [|done].
  destruct (Utf8.is_utf8 _); cbn [mbind out_bind]; [|done].
  destruct (head _) as [line|]; cbn [ok_or mbind out_bind]; [|done]. unfold parse_status_code.
  destruct (_ <? _)%nat; [done|]. destruct (_ !! 1%nat); [|done]. cbn [or_panic mbind out_bind].
  by destruct (Str.parse_uint _ _).
Qed.

Lemma parse_body data r : parse data = Ok r -> body_start r <= zlen data.
Proof.
  intros Hr. unfold parse in Hr. destruct (find_header_end data) as [i|] eqn:Hf; [|done].
  cbn [ok_or mbind out_bind] in Hr. apply header_end_bound in Hf.
  destruct (Utf8.is_utf8 _); [|done]. cbn [mbind out_bind] in Hr. destruct (head _) as [line|]; [|done].
  cbn [ok_or mbind out_bind] in Hr. destruct (parse_status_code line) as [n| |]; [|done|done].
  cbn [mbind out_bind] in Hr. injection Hr as <-. cbn [body_start]. unfold zlen. lia.
Qed.

(** A response as a server writes it. *)
Record response := mkResponse {
  r_status : Z;
  r_reason : list Z;
  r_headers : list (list Z * list Z);
  r_body : list Z;
}.
Definition header_line (h : list Z * list Z) : list Z := fst h ++ [58; 32] ++ snd h.
Definition status_line (r : response) : list Z := str "HTTP/1.1 " ++ dec (r_status r) ++ [32] ++ r_reason r.
Definition head_text (r : response) : list Z :=
  status_line r ++ concat ((fun h => Str.CRLF ++ header_line h) <$> r_headers r).
Definition render (r : response) : list Z := head_text r ++ HEADER_END ++ r_body r.

(** No carriage return in the head; names hold no colon; names and values are
    written without surrounding blanks; the head is UTF-8. *)
Definition no_byte (x : Z) (l : list Z) : Prop := Forall (fun b => b <> x) l.
Definition response_ok (r : response) : Prop :=
  0 <= r_status r < 2 ^ 16 /\ no_byte 13 (r_reason r) /\ Utf8.is_utf8 (head_text r) = true /\
  Forall (fun h => no_byte 13 (fst h) /\ no_byte 58 (fst h) /\ no_byte 13 (snd h) /\
                   Str.trim (fst h) = fst h /\ Str.trim (32 :: snd h) = snd h) (r_headers r).

Lemma digits_no_byte x l : x < 48 -> Forall (fun b => is_digit b = true) l -> no_byte x l.
Proof.
  intros Hx Hl. eapply Forall_impl; [exact Hl|]. intros b Hb. unfold is_digit in Hb.
  apply andb_true_iff in Hb as [?%Z.leb_le _]. lia.
Qed.

Lemma status_line_no_cr r : 0 <= r_status r -> no_byte 13 (r_reason r) -> no_byte 13 (status_line r).
Proof.
  intros Hs Hr. unfold status_line, no_byte.
  apply Forall_app_2; [by repeat constructor|]. apply Forall_app_2; [|apply Forall_app_2; [by repeat constructor|done]].
  apply digits_no_byte; [done|by apply dec_digits].
Qed.

Lemma header_line_no_cr h : no_byte 13 (fst h) -> no_byte 13 (snd h) -> no_byte 13 (header_line h).
Proof. intros H1 H2. unfold header_line, no_byte. repeat apply Forall_app_2; try done. by repeat constructor. Qed.

(** No blank line inside a head whose lines are free of carriage returns and
    not empty, so the first blank line is the end of it. *)
Lemma find_end_lines l ls r :
  no_byte 13 l -> Forall (fun h => no_byte 13 h /\ h <> []) ls ->
  Str.find HEADER_END (l ++ concat ((fun h => Str.CRLF ++ h) <$> ls) ++ HEADER_END ++ r) =
  Some (length (l ++ concat ((fun h => Str.CRLF ++ h) <$> ls))).
Proof.
  intros Hl Hls. revert l Hl. induction Hls as [|h ls [Hh Hne] Hls IH]; intros l Hl.
  - cbn [fmap list_fmap concat app]. unfold HEADER_END. rewrite Str.find_skip by done.
    change (13 :: [10; 13; 10]) with HEADER_END. rewrite Str.find_here. cbn. by rewrite app_nil_r, Nat.add_0_r.
  - cbn [fmap list_fmap concat]. unfold HEADER_END at 1. rewrite Str.find_skip by done.
    set (t := concat ((fun h => Str.CRLF ++ h) <$> ls)) in *. unfold Str.CRLF.
    rewrite <- !app_assoc. cbn [app]. 
    assert (forall c, starts_with (13 :: 10 :: h ++ c) (13 :: [10; 13; 10]) = false) as Hn.
    { intros c. apply not_true_iff_false. intros [q Hq]%Str.starts_with_iff. destruct h as [|x h]; [done|].
      apply Forall_cons in Hh as [Hx _]. injection Hq as Hx' _. done. }
    cbn [Str.find]. rewrite Hn.
    assert (starts_with (10 :: h ++ t ++ HEADER_END ++ r) (13 :: [10; 13; 10]) = false) as ->.
    { apply not_true_iff_false. by intros [q [=]]%Str.starts_with_iff. }
    specialize (IH h Hh). unfold HEADER_END at 1 in IH. rewrite IH. cbn [fmap option_fmap option_map].
    f_equal. rewrite !length_app. cbn [length]. rewrite length_app. lia.
Qed.

Lemma lines_length (ls : list (list Z)) : (length ls <= length (concat ((fun h => Str.CRLF ++ h) <$> ls)))%nat.
Proof. induction ls as [|h ls IH]; [done|]. cbn [fmap list_fmap concat length]. rewrite !length_app. cbn [length Str.CRLF]. lia. Qed.

Lemma split_lines fuel l ls :
  no_byte 13 l -> Forall (no_byte 13) ls -> (length ls <= fuel)%nat ->
  Str.split_loop fuel Str.CRLF (l ++ concat ((fun h => Str.CRLF ++ h) <$> ls)) = l :: ls.
Proof.
  intros Hl Hls. revert l Hl fuel. induction Hls as [|h ls Hh Hls IH]; intros l Hl fuel Hf.
  - cbn [fmap list_fmap concat]. rewrite app_nil_r. destruct fuel; [done|]. cbn [Str.split_loop].
    unfold Str.CRLF. by rewrite Str.split_once_none.
  - destruct fuel as [|fuel]; [simpl in Hf; lia|]. cbn [fmap list_fmap concat Str.split_loop].
    unfold Str.CRLF at 1 2. rewrite <- app_assoc. rewrite Str.split_once_skip by done.
    rewrite IH; [done|done|simpl in Hf; lia].
Qed.

Lemma header_lines_text hs acc :
  Forall (fun h => no_byte 58 (fst h) /\ Str.trim (fst h) = fst h /\ Str.trim (32 :: snd h) = snd h) hs ->
  header_lines (header_line <$> hs) acc = acc ++ (prod_map to_ascii_lowercase id <$> hs).
Proof.
  intros Hhs. revert acc. induction Hhs as [|h hs (H58 & Hn & Hv) Hhs IH]; intros acc.
  - by rewrite app_nil_r.
  - cbn [fmap list_fmap header_lines]. rewrite bool_decide_eq_false_2.
    2: { unfold header_line. by destruct (fst h). }
    unfold header_line at 1. change ([58; 32] ++ snd h) with ([58] ++ (32 :: snd h)).
    rewrite Str.split_once_skip by done. rewrite Hn, Hv, IH. rewrite <- app_assoc. by destruct h.
Qed.

Lemma uint_loop_digits limit l acc :
  Forall (fun b => is_digit b = true) l -> 0 <= acc ->
  foldl (fun a b => 10 * a + (b - 48)) acc l < limit ->
  Str.uint_loop limit l acc = Some (foldl (fun a b => 10 * a + (b - 48)) acc l).
Proof.
  intros Hl. revert acc. induction Hl as [|b l Hb Hl IH]; intros acc Ha Hlt; [done|].
  cbn [Str.uint_loop foldl] in *. rewrite Hb. unfold is_digit in Hb. apply andb_true_iff in Hb as [?%Z.leb_le ?%Z.leb_le].
  assert (forall a l, 0 <= a -> Forall (fun b => is_digit b = true) l -> a <= foldl (fun a b => 10 * a + (b - 48)) a l) as Hm.
  { clear. intros a l Ha Hl. revert a Ha. induction Hl as [|b l Hb Hl IH]; intros a Ha; [done|]. cbn [foldl].
    unfold is_digit in Hb. apply andb_true_iff in Hb as [?%Z.leb_le ?%Z.leb_le].
    specialize (IH (10 * a + (b - 48)) ltac:(lia)). lia. }
  pose proof (Hm (10 * acc + (b - 48)) l ltac:(lia) Hl). rewrite (proj2 (Z.ltb_lt _ _)) by lia.
  apply IH; [lia|done].
Qed.

Lemma parse_uint_dec limit n : 0 <= n < limit -> Str.parse_uint limit (dec n) = Some n.
Proof.
  intros [Hn Hlt]. pose proof (dec_digits n Hn) as Hd. pose proof (dec_val n Hn) as Hv.
  pose proof (dec_nonempty n) as Hne. unfold Str.parse_uint.
  assert (match dec n with 43 :: l' => l' | _ => dec n end = dec n) as ->.
  { destruct (dec n) as [|b l]; [done|]. apply Forall_cons in Hd as [Hb _]. repeat case_match; try done. }
  destruct (dec n) as [|b l] eqn:Hl; [done|]. rewrite <- Hl in *.
  rewrite uint_loop_digits; [by rewrite <- Hv at 2|done|done|]. unfold digits_val in Hv. lia.
Qed.

Lemma status_code_text r :
  0 <= r_status r < 2 ^ 16 -> parse_status_code (status_line r) = Ok (r_status r).
Proof.
  intros Hs. unfold parse_status_code, Str.splitn, status_line. change (3 - 1)%nat with 2%nat.
  cbn [Str.split_loop]. change (str "HTTP/1.1 ") with (str "HTTP/1.1" ++ [32]). rewrite <- app_assoc.
  rewrite Str.split_once_skip by (by repeat constructor).
  rewrite Str.split_once_skip. 2: { apply digits_no_byte; [done|]. apply dec_digits. lia. }
  cbn [length]. cbn [Nat.ltb Nat.leb lookup list_lookup or_panic mbind out_bind ok_or].
  by rewrite parse_uint_dec.
Qed.

Lemma parse_render r :
  response_ok r ->
  parse (render r) =
    Ok (mkHttpResponse (r_status r) (prod_map to_ascii_lowercase id <$> r_headers r) (zlen (head_text r) + 4)) /\
  drop (Z.to_nat (zlen (head_text r) + 4)) (render r) = r_body r.
Proof.
  intros (Hs & Hr & Hu & Hh). split.
  2: { unfold render, zlen. replace (Z.to_nat _) with (length (head_text r) + 4)%nat by lia.
       rewrite <- drop_drop, drop_app_length. done. }
  pose proof (status_line_no_cr r ltac:(lia) Hr) as Hst.
  assert (head_text r = status_line r ++ concat ((fun h => Str.CRLF ++ h) <$> (header_line <$> r_headers r))) as Ht.
  { unfold head_text. by rewrite <- list_fmap_compose. }
  assert (Forall (fun h => no_byte 13 h /\ h <> []) (header_line <$> r_headers r)) as Hls.
  { apply Forall_fmap. eapply Forall_impl; [exact Hh|]. intros h (H1 & _ & H3 & _). split; [by apply header_line_no_cr|].
    unfold header_line. by destruct (fst h). }
  pose proof (find_end_lines (status_line r) (header_line <$> r_headers r) (r_body r) Hst Hls) as Hf.
  rewrite app_assoc, <- Ht in Hf.
  unfold parse. rewrite find_header_end_find. unfold render. rewrite Hf. cbn [ok_or mbind out_bind].
  rewrite take_app_length, Hu. cbn [mbind out_bind]. unfold Str.split.
  assert (Str.split_loop (length (head_text r)) Str.CRLF (head_text r) = status_line r :: (header_line <$> r_headers r)) as ->.
  { rewrite Ht at 2. apply split_lines; [done| |].
    - eapply Forall_impl; [exact Hls|]. tauto.
    - rewrite Ht, length_app. pose proof (lines_length (header_line <$> r_headers r)). lia. }
  cbn [head tail ok_or mbind out_bind]. rewrite status_code_text by done. cbn [mbind out_bind].
  rewrite header_lines_text; [done|]. eapply Forall_impl; [exact Hh|]. tauto.
Qed.

(** ** Properties *)

(** A response that a server writes is parsed back: the status code, every
    header in order with its name in lower case, and the position of the first
    byte of the body, whatever the body holds. *)
Theorem http_parse_roundtrip r :
  response_ok r ->
  parse (render r) =
    Ok (mkHttpResponse (r_status r) (prod_map to_ascii_lowercase id <$> r_headers r) (zlen (head_text r) + 4)) /\
  drop (Z.to_nat (zlen (head_text r) + 4)) (render r) = r_body r.
Proof. apply parse_render. Qed.

(** Parsing again as data arrives is sound: a head that is complete keeps
    its result whatever follows, an incomplete one is reported as such and
    only then, and the body starts inside the data. *)
Theorem http_parse_stable data more :
  (parse data <> Err Incomplete -> parse (data ++ more) = parse data) /\
  (forall r, parse data = Ok r -> body_start r <= zlen data) /\
  (parse data = Err Incomplete <-> forall i, take 4 (drop i data) <> HEADER_END) /\
  parse data <> Panic.
Proof.
  repeat split.
  - intros Hn. rewrite parse_incomplete in Hn. destruct (find_header_end data) as [i|] eqn:Hf; [|done].
    by apply (parse_grow _ _ i).
  - apply parse_body.
  - rewrite parse_incomplete. unfold find_header_end. intros Hf i Hi.
    destruct (list_find _ _) eqn:Hl; [done|]. apply list_find_None in Hl.
    rewrite Forall_forall in Hl. apply (Hl i); [|done]. apply elem_of_seq.
    assert (length (take 4 (drop i data)) = 4%nat) as Hlen by by rewrite Hi.
    rewrite length_take, length_drop in Hlen. lia.
  - intros Hi. rewrite parse_incomplete. unfold find_header_end.
    destruct (list_find _ _) as [[j i]|] eqn:Hl; [|done]. apply list_find_Some in Hl as (_ & Hp & _).
    by destruct (Hi i).
  - unfold parse. destruct (find_header_end data); cbn [ok_or mbind out_bind]; [|done].
    destruct (Utf8.is_utf8 _); cbn [mbind out_bind]; [|done]. destruct (head _) as [line|]; cbn [ok_or mbind out_bind]; [|done].
    unfold parse_status_code. destruct (Nat.ltb_spec (length (Str.splitn 3 [32] line)) 2) as [|Hlen]; [done|].
    destruct (lookup_lt_is_Some_2 (Str.splitn 3 [32] line) 1 ltac:(lia)) as [p ->]. cbn [or_panic mbind out_bind].
    by destruct (Str.parse_uint _ _).
Qed.

Definition sample : response :=
  mkResponse 429 (str "Too Many Requests") [(str "Retry-After", str "30"); (str "X-Id", str "a:b")] [13; 10; 13; 10; 1].

Theorem http_parse_roundtrip_witness :
  parse (render sample) = Ok (mkHttpResponse 429 [(str "retry-after", str "30"); (str "x-id", str "a:b")] 62) /\
  drop (Z.to_nat (zlen (head_text sample) + 4)) (render sample) = r_body sample.
Proof.
  apply (http_parse_roundtrip sample). repeat split; try done.
  - by repeat constructor.
  - repeat constructor; try done.
Defined.

End Http.
