(* ===== verification/Api.v ===== *)
(** * API requests ([api/mod.rs], [api/tools.rs])

    The conversation types, JSON escaping and the request builder of the API
    client.  [body_value] is the JSON document a request is meant to carry;
    [api_request_denotes] shows that the text the builder assembles from
    format strings is that document, in a well-delimited HTTP request. *)
From S2P Require Import Prelude.
From S2P Require Import Bytes.
From S2P Require Import Utf8.
From S2P Require Import Fmt.
From S2P Require Import Str.
From S2P Require Import Json.
From S2P Require Import Http.

Module Api.

(** A string literal of the source, with its double quotes written as single
    quotes. *)
Definition jstr (s : string) : list Z := (fun b => if b =? 39 then 34 else b) <$> str s.

(** ** Types *)
Inductive ContentBlock :=
| Text (text : list Z)
| ToolUse (id name input_json : list Z)
| ToolResult (tool_use_id content : list Z) (is_error : bool).

Record Message := mkMessage {
  role : list Z;
  content : list Z;
  content_blocks : list ContentBlock;
}.

Record ToolCall := mkToolCall { tc_id : list Z; tc_name : list Z; tc_input_json : list Z }.

Definition text_message (role content : list Z) : Message := mkMessage role content [].
Definition tool_result (tool_use_id result : list Z) (is_error : bool) : Message :=
  mkMessage (str "user") [] [ToolResult tool_use_id result is_error].
Definition assistant_tool_use (text : list Z) (tool_calls : list ToolCall) : Message :=
  let blocks := if bool_decide (text = []) then [] else [Text text] in
  mkMessage (str "assistant") []
    (blocks ++ ((fun tc => ToolUse (tc_id tc) (tc_name tc) (tc_input_json tc)) <$> tool_calls)).

Record ClaudeResponse := mkClaudeResponse {
  resp_text : list Z;
  resp_tool_calls : list ToolCall;
  resp_stop_reason : list Z;
}.

Record ClaudeConfig := mkConfig {
  api_key : list Z;
  target_ip : Z * Z * Z * Z;
  target_port : Z;
  model : list Z;
  use_tls : bool;
}.
Definition DEFAULT_MODEL : list Z := str "claude-sonnet-4-6-20250514".
Definition default_proxy : ClaudeConfig := mkConfig [] (10, 0, 2, 2) 8080 DEFAULT_MODEL false.
Definition direct_tls (ip : Z * Z * Z * Z) : ClaudeConfig := mkConfig [] ip 443 DEFAULT_MODEL true.

Record ClaudeRequest := mkRequest {
  config : ClaudeConfig;
  system : option (list Z);
  messages : list Message;
  use_tools : bool;
}.

Inductive ApiError :=
| ConnectionFailed
| ConnectionTimeout
| TlsHandshakeFailed
| SendFailed
| EmptyResponse
| DnsError (msg : list Z)
| HttpStatus (status : Z) (msg : list Z) (retry_after : option Z)
| ApiErr (msg : list Z).

(** ** Escaping *)
Definition hex_digit (n : Z) : Z := if n <=? 9 then 48 + n else 97 + n - 10.

(** The text for one character, given as its bytes. *)
Definition escape_char (c : list Z) : list Z :=
  match c with
  | [34] => [92; 34]
  | [92] => [92; 92]
  | [10] => [92; 110]
  | [13] => [92; 114]
  | [9] => [92; 116]
  | [8] => [92; 98]
  | [12] => [92; 102]
  | [b] => if b <? 0x20 then [92; 117; 48; 48; hex_digit (Z.shiftr b 4); hex_digit (Z.land b 0xF)] else c
  | _ => c
  end.
Definition escape_json (s : list Z) : list Z := concat (escape_char <$> Str.chars s).

(** ** Tool definitions ([api/tools.rs]) *)
Record ToolDef := mkToolDef { td_name : list Z; description : list Z; input_schema : list Z }.

Definition TOOLS : list ToolDef := [
  mkToolDef (str "read_file")
    (str "Read a file from the OSqlite namespace. Returns the file content as a string, or an error if not found.")
    (jstr "{'type':'object','properties':{'path':{'type':'string','description':'Namespace path to read (e.g. /agents/indexer)'}},'required':['path']}");
  mkToolDef (str "write_file")
    (str "Write content to a file in the OSqlite namespace. Creates or overwrites the file.")
    (jstr "{'type':'object','properties':{'path':{'type':'string','description':'Namespace path to write'},'content':{'type':'string','description':'File content to write'}},'required':['path','content']}");
  mkToolDef (str "sql_query")
    (str "Execute a read-only SQL query on the OSqlite system database. Only SELECT, EXPLAIN, and PRAGMA are allowed.")
    (jstr "{'type':'object','properties':{'query':{'type':'string','description':'SQL query to execute'}},'required':['query']}");
  mkToolDef (str "list_dir")
    (str "List entries in a namespace directory. Returns paths that start with the given prefix.")
    (jstr "{'type':'object','properties':{'path':{'type':'string','description':'Directory path to list (e.g. /agents/)'}},'required':['path']}");
  mkToolDef (str "str_replace")
    (str "Replace a specific string in a file. Reads the file, replaces the first occurrence of old_str with new_str, and writes back. Fails if old_str is not found.")
    (jstr "{'type':'object','properties':{'path':{'type':'string','description':'Namespace path of the file to edit'},'old_str':{'type':'string','description':'Exact string to find and replace'},'new_str':{'type':'string','description':'Replacement string'}},'required':['path','old_str','new_str']}")
].

(** [for (i, x) in l.enumerate() { if i > 0 { out.push(',') } ... }] *)
Fixpoint commas (l : list (list Z)) : list Z :=
  match l with
  | [] => []
  | [x] => x
  | x :: l => x ++ [44] ++ commas l
  end.

Definition tool_text (t : ToolDef) : list Z :=
  jstr "{'name':'" ++ escape_json (td_name t) ++ jstr "','description':'" ++ escape_json (description t) ++
  jstr "','input_schema':" ++ input_schema t ++ [125].
Definition tools_json : list Z := [91] ++ commas (tool_text <$> TOOLS) ++ [93].

(** ** Request building *)
Definition block_text (b : ContentBlock) : list Z :=
  match b with
  | Text text => jstr "{'type':'text','text':'" ++ escape_json text ++ jstr "'}"
  | ToolUse id name input_json =>
      jstr "{'type':'tool_use','id':'" ++ escape_json id ++ jstr "','name':'" ++ escape_json name ++
      jstr "','input':" ++ input_json ++ [125]
  | ToolResult tool_use_id content is_error =>
      if is_error then
        jstr "{'type':'tool_result','tool_use_id':'" ++ escape_json tool_use_id ++
        jstr "','is_error':true,'content':'" ++ escape_json content ++ jstr "'}"
      else
        jstr "{'type':'tool_result','tool_use_id':'" ++ escape_json tool_use_id ++
        jstr "','content':'" ++ escape_json content ++ jstr "'}"
  end.

Definition message_text (msg : Message) : list Z :=
  match content_blocks msg with
  | [] =>
      jstr "{'role':'" ++ escape_json (role msg) ++ jstr "','content':'" ++ escape_json (content msg) ++ jstr "'}"
  | blocks =>
      jstr "{'role':'" ++ escape_json (role msg) ++ jstr "','content':[" ++ commas (block_text <$> blocks) ++ str "]}"
  end.

Definition body_text (config : ClaudeConfig) (system : option (list Z)) (messages : list Message)
    (use_tools : bool) : list Z :=
  let msgs_json := [91] ++ commas (message_text <$> messages) ++ [93] in
  let tools_part := if use_tools then jstr ",'tools':" ++ tools_json else [] in
  match system with
  | Some sys =>
      jstr "{'model':'" ++ escape_json (model config) ++ jstr "','max_tokens':4096,'stream':true,'system':'" ++
      escape_json sys ++ jstr "','messages':" ++ msgs_json ++ tools_part ++ [125]
  | None =>
      jstr "{'model':'" ++ escape_json (model config) ++ jstr "','max_tokens':4096,'stream':true,'messages':" ++
      msgs_json ++ tools_part ++ [125]
  end.

Definition has_crlf (s : list Z) : bool := existsb (fun b => (b =? 13) || (b =? 10)) s.

Definition line (s : list Z) : list Z := s ++ Str.CRLF.

Definition build_http_request_multi (config : ClaudeConfig) (system : option (list Z)) (messages : list Message)
    (use_tools : bool) : out ApiError (list Z) :=
  if has_crlf (model config) then Err SendFailed
  else if has_crlf (api_key config) then Err SendFailed
  else
    let body := body_text config system messages use_tools in
    Ok (line (str "POST /v1/messages HTTP/1.1") ++
        line (str "Host: api.anthropic.com") ++
        line (str "Content-Type: application/json") ++
        line (str "X-API-Key: " ++ api_key config) ++
        line (str "Anthropic-Version: 2023-06-01") ++
        line (str "Accept: text/event-stream") ++
        line (str "Content-Length: " ++ dec (zlen body)) ++
        line (str "Connection: close") ++
        Str.CRLF ++ body).

Definition build_http_request (config : ClaudeConfig) (prompt : list Z) : out ApiError (list Z) :=
  build_http_request_multi config None [text_message (str "user") prompt] false.

(** ** The document a request carries *)
Import Json.

(** The key of an object member, as its text and as its name. *)
Definition member (k : string) (v : JsonValue) : list Z * JsonValue := (str k, v).

Inductive block_value : ContentBlock -> JsonValue -> Prop :=
| BV_text t : Utf8.is_str t ->
    block_value (Text t) (Object [member "type" (Str (str "text")); member "text" (Str t)])
| BV_use id name i v : Utf8.is_str id -> Utf8.is_str name -> value_text i v ->
    block_value (ToolUse id name i)
      (Object [member "type" (Str (str "tool_use")); member "id" (Str id); member "name" (Str name); member "input" v])
| BV_error id c : Utf8.is_str id -> Utf8.is_str c ->
    block_value (ToolResult id c true)
      (Object [member "type" (Str (str "tool_result")); member "tool_use_id" (Str id);
               member "is_error" (Bool true); member "content" (Str c)])
| BV_result id c : Utf8.is_str id -> Utf8.is_str c ->
    block_value (ToolResult id c false)
      (Object [member "type" (Str (str "tool_result")); member "tool_use_id" (Str id); member "content" (Str c)]).

Inductive message_value : Message -> JsonValue -> Prop :=
| MV_text r c : Utf8.is_str r -> Utf8.is_str c ->
    message_value (mkMessage r c []) (Object [member "role" (Str r); member "content" (Str c)])
| MV_blocks r c bs vs : Utf8.is_str r -> bs <> [] -> Forall2 block_value bs vs ->
    message_value (mkMessage r c bs) (Object [member "role" (Str r); member "content" (Array vs)]).

(** Documents, with the text of the literals that are spliced in as given. *)
Inductive tree :=
| TStr (s : list Z)
| TRaw (t : list Z) (v : JsonValue)
| TArr (l : list tree)
| TObj (l : list (list Z * tree)).

Fixpoint denote (j : tree) : JsonValue :=
  match j with
  | TStr s => Str s
  | TRaw _ v => v
  | TArr l => Array (denote <$> l)
  | TObj l => Object (prod_map id denote <$> l)
  end.

Definition quote (s : list Z) : list Z := [34] ++ escape_json s ++ [34].
Fixpoint print (j : tree) : list Z :=
  match j with
  | TStr s => quote s
  | TRaw t _ => t
  | TArr l => [91] ++ commas (print <$> l) ++ [93]
  | TObj l => [123] ++ commas ((fun kv => quote (fst kv) ++ [58] ++ print (snd kv)) <$> l) ++ [125]
  end.

(** The JSON Schema of a tool whose parameters are all required strings. *)
Definition schema (params : list (list Z * list Z)) : tree :=
  TObj [(str "type", TStr (str "object"));
        (str "properties", TObj ((fun p => (fst p,
           TObj [(str "type", TStr (str "string")); (str "description", TStr (snd p))])) <$> params));
        (str "required", TArr ((fun p => TStr (fst p)) <$> params))].
Definition tool_tree (t : ToolDef) (params : list (list Z * list Z)) : tree :=
  TObj [(str "name", TStr (td_name t)); (str "description", TStr (description t)); (str "input_schema", schema params)].
Definition tool_params : list (list (list Z * list Z)) := [
  [(str "path", str "Namespace path to read (e.g. /agents/indexer)")];
  [(str "path", str "Namespace path to write"); (str "content", str "File content to write")];
  [(str "query", str "SQL query to execute")];
  [(str "path", str "Directory path to list (e.g. /agents/)")];
  [(str "path", str "Namespace path of the file to edit"); (str "old_str", str "Exact string to find and replace");
   (str "new_str", str "Replacement string")]].
Definition tools_tree : tree := TArr (zip_with tool_tree TOOLS tool_params).

Definition tools_value (use_tools : bool) : list (list Z * JsonValue) :=
  if use_tools then [member "tools" (denote tools_tree)] else [].

Definition body_value (config : ClaudeConfig) (system : option (list Z)) (msgs : list JsonValue) (use_tools : bool)
    : JsonValue :=
  Object ([member "model" (Str (model config)); member "max_tokens" (Number (f64_of_Z 4096));
           member "stream" (Bool true)] ++
          match system with Some sys => [member "system" (Str sys)] | None => [] end ++
          [member "messages" (Array msgs)] ++ tools_value use_tools).

(** ** Lemmas *)
Lemma chars_step b l : Str.chars (b :: l) =
  take (Utf8.char_step (b :: l)).2 (b :: l) :: Str.chars (drop (Utf8.char_step (b :: l)).2 (b :: l)).
Proof.
  assert (forall f g l, (length l <= f)%nat -> (length l <= g)%nat -> Str.chars_loop f l = Str.chars_loop g l) as Hfuel.
  { clear. induction f as [|f IH]; intros g l Hf Hg; [destruct l; [by destruct g|simpl in Hf; lia]|].
    destruct g as [|g]; [destruct l; [done|simpl in Hg; lia]|]. destruct l as [|b l]; [done|].
    cbn [Str.chars_loop]. pose proof (Utf8.char_step_pos (b :: l)). f_equal.
    apply IH; rewrite length_drop; simpl in *; lia. }
  unfold Str.chars. cbn [length Str.chars_loop]. f_equal. pose proof (Utf8.char_step_pos (b :: l)).
  apply Hfuel; rewrite length_drop; simpl; lia.
Qed.

Lemma hex_digit_val n : 0 <= n < 16 -> hex_val (hex_digit n) = Some n.
Proof.
  intros Hn. unfold hex_digit, hex_val. destruct (Z.leb_spec n 9).
  - rewrite (proj2 (Z.leb_le 48 _)), (proj2 (Z.leb_le _ 57)) by lia. simpl. f_equal. lia.
  - rewrite (proj2 (Z.leb_gt _ 57)), andb_false_r by lia.
    rewrite (proj2 (Z.leb_le 97 _)), (proj2 (Z.leb_le _ 102)) by lia. simpl. f_equal. lia.
Qed.

(** Escaping writes the text between the quotes of a JSON string. *)
Lemma escape_char_text c e s :
  c <> [] -> Utf8.char_step c = (true, length c) -> Forall is_u8 c -> string_text e s ->
  string_text (escape_char c ++ e) (c ++ s).
Proof.
  intros Hne Hc Hu8 He.
  assert (c <> [34] -> c <> [92] -> string_text (c ++ e) (c ++ s)) as Hplain by (intros; by apply ST_char).
  destruct c as [|b0 [|b1 c]]; [done| |].
  2: { assert (escape_char (b0 :: b1 :: c) = b0 :: b1 :: c) as -> by (unfold escape_char; by repeat case_match). by apply Hplain. }
  assert (forall x, (x, b0) ∈ simple_escapes -> string_text ([92; x] ++ e) ([b0] ++ s)) as Hesc.
  { intros x Hin. by apply ST_escape. }
  destruct (decide (b0 = 34)) as [->|H34]; [by apply (Hesc 34); left|].
  destruct (decide (b0 = 92)) as [->|H92]; [by apply (Hesc 92); right; left|].
  destruct (decide (b0 = 10)) as [->|H10]; [by apply (Hesc 110); do 3 right; left|].
  destruct (decide (b0 = 13)) as [->|H13]; [by apply (Hesc 114); do 4 right; left|].
  destruct (decide (b0 = 9)) as [->|H9]; [by apply (Hesc 116); do 5 right; left|].
  destruct (decide (b0 = 8)) as [->|H8]; [by apply (Hesc 98); do 6 right; left|].
  destruct (decide (b0 = 12)) as [->|H12]; [by apply (Hesc 102); do 7 right; left|].
  assert (escape_char [b0] = if b0 <? 0x20
    then [92; 117; 48; 48; hex_digit (Z.shiftr b0 4); hex_digit (Z.land b0 0xF)] else [b0]) as ->.
  { unfold escape_char. repeat case_match; congruence. }
  destruct (Z.ltb_spec b0 0x20) as [Hb0|Hb0]; [|apply Hplain; congruence].
  apply Forall_cons in Hu8 as [[Hpos _] _].
  rewrite Z.shiftr_div_pow2 by lia. change 0xF with (Z.ones 4). rewrite Z.land_ones by lia. change (2 ^ 4) with 16.
  replace [b0] with (encode_utf8 b0). 2: { unfold encode_utf8. by rewrite (proj2 (Z.ltb_lt _ _)) by lia. }
  apply (ST_u [48; 48; hex_digit (b0 / 16); hex_digit (b0 mod 16)]); [|lia|done].
  split; [done|]. exists [0; 0; b0 / 16; b0 mod 16]. split; [|cbn [foldl]; lia].
  constructor; [done|]. constructor; [done|]. constructor; [apply hex_digit_val; lia|].
  constructor; [apply hex_digit_val; lia|constructor].
Qed.

(** Escaping writes the text between the quotes of a JSON string. *)
Lemma escape_text s : Utf8.is_str s -> string_text (escape_json s) s.
Proof.
  intros [Hu Hv]. induction s as [|b s IH] using Utf8.utf8_ind; [constructor|]. rewrite Utf8.is_utf8_step in Hv.
  unfold escape_json. rewrite chars_step. cbn [fmap list_fmap concat].
  destruct (Utf8.char_step (b :: s)) as [[] n] eqn:Hs; [|done]. cbn [andb snd] in *.
  destruct (Utf8.char_step_self (b :: s) n ltac:(done) Hs) as [Hself Hlen].
  pose proof (Utf8.char_step_pos (b :: s)) as Hpos. rewrite Hs in Hpos. cbn [snd] in Hpos.
  rewrite <- (take_drop n (b :: s)) at 3. apply escape_char_text.
  - intros H. rewrite H in Hlen. simpl in Hlen. lia.
  - by rewrite Hlen.
  - by apply Forall_take.
  - apply IH; [by apply Forall_drop|done].
Qed.

(** A printed document is JSON text for the value it denotes. *)
Fixpoint tree_ok (j : tree) : Prop :=
  match j with
  | TStr s => Utf8.is_str s
  | TRaw t v => value_text t v
  | TArr l => foldr (fun j P => tree_ok j /\ P) True l
  | TObj l => foldr (fun kv P => Utf8.is_str (fst kv) /\ tree_ok (snd kv) /\ P) True l
  end.

Lemma quote_text s : Utf8.is_str s -> value_text (quote s) (Str s).
Proof. intros Hs. apply VT_str. by apply escape_text. Qed.

Lemma items_commas ts vs :
  Forall2 value_text ts vs -> vs <> [] -> items_text (commas ts) vs.
Proof.
  induction 1 as [|t v ts vs Ht Hts IH]; [done|]. intros _. destruct Hts as [|t' v' ts vs Ht' Hts].
  - cbn [commas]. rewrite <- (app_nil_r t). apply IT_one; [done|constructor].
  - change (commas (t :: t' :: ts)) with (t ++ [] ++ 44 :: commas (t' :: ts)). apply IT_cons; [done|constructor|by apply IH].
Qed.

Lemma arr_text ts vs : Forall2 value_text ts vs -> value_text ([91] ++ commas ts ++ [93]) (Array vs).
Proof.
  intros Hts. destruct Hts as [|t v ts vs Ht Hts]; [apply (VT_arr0 []); constructor|].
  apply VT_arr, items_commas; [by constructor|done].
Qed.

Lemma fields_commas (ts : list (list Z * list Z)) vs :
  Forall2 (fun kt kv => fst kt = fst kv /\ Utf8.is_str (fst kt) /\ value_text (snd kt) (snd kv)) ts vs -> vs <> [] ->
  fields_text (commas ((fun kt => quote (fst kt) ++ [58] ++ snd kt) <$> ts)) vs.
Proof.
  induction 1 as [|[k t] [k' v] ts vs (Hk & Hs & Ht) Hts IH]; [done|]. intros _. cbn [fst snd] in *. subst k'.
  assert (forall r, quote k ++ [58] ++ r = [] ++ 34 :: escape_json k ++ 34 :: [] ++ 58 :: r) as Hq.
  { intros r. unfold quote. by rewrite <- !app_assoc. }
  destruct Hts as [|[k' t'] [k1 v1] ts vs Ht' Hts].
  - cbn [fmap list_fmap commas fst snd]. rewrite Hq, <- (app_nil_r t).
    by apply FT_one; [constructor|apply escape_text|constructor| |constructor].
  - cbn [fmap list_fmap]. change (commas (?x :: ?y :: ?l)) with (x ++ [44] ++ commas (y :: l)). cbn [fst snd] in *.
    rewrite <- !app_assoc, Hq. change ([44] ++ ?x) with ([] ++ 44 :: x).
    apply FT_cons; [constructor|by apply escape_text|constructor|done|constructor|by apply IH].
Qed.

Lemma obj_text (ts : list (list Z * list Z)) vs :
  Forall2 (fun kt kv => fst kt = fst kv /\ Utf8.is_str (fst kt) /\ value_text (snd kt) (snd kv)) ts vs ->
  value_text ([123] ++ commas ((fun kt => quote (fst kt) ++ [58] ++ snd kt) <$> ts) ++ [125]) (Object vs).
Proof.
  intros Hts. destruct (decide (vs = [])) as [->|Hne].
  - apply Forall2_nil_inv_r in Hts as ->. apply (VT_obj0 []); constructor.
  - by apply VT_obj, fields_commas.
Qed.

Lemma print_text : forall j, tree_ok j -> value_text (print j) (denote j).
Proof.
  fix IH 1. intros [s|t v|l|l] Hj; cbn [tree_ok print denote] in *.
  - by apply quote_text.
  - exact Hj.
  - apply arr_text. induction l as [|j l IHl]; cbn [fmap list_fmap foldr] in *; constructor.
    + apply IH, Hj.
    + apply IHl, Hj.
  - assert (((fun kv => quote (fst kv) ++ [58] ++ print (snd kv)) <$> l) =
      ((fun kt => quote (fst kt) ++ [58] ++ snd kt) <$> (prod_map id print <$> l))) as -> by by rewrite <- list_fmap_compose.
    apply obj_text. induction l as [|[k j] l IHl]; cbn [fmap list_fmap foldr] in *; constructor.
    + destruct Hj as (Hk & Hj & _). split; [done|]. split; [done|]. cbn [prod_map fst snd]. by apply IH.
    + apply IHl, Hj.
Qed.

Lemma parse_print j : tree_ok j -> parse (print j) = Ok (denote j).
Proof. intros Hj. rewrite <- (app_nil_r (print j)). apply parse_text; [by apply print_text|constructor]. Qed.

(** Literal strings of the source are valid [str]s. *)
Definition ascii (s : list Z) : bool := forallb (fun b => (0 <=? b) && (b <? 0x80)) s.
Lemma ascii_str s : ascii s = true -> Utf8.is_str s.
Proof.
  intros Hs. unfold ascii in Hs. rewrite forallb_forall in Hs.
  assert (Forall (fun b => 0 <= b < 0x80) s) as Hf.
  { apply Forall_forall. intros b Hb%list_elem_of_In%Hs. apply andb_true_iff in Hb as [?%Z.leb_le ?%Z.ltb_lt]. lia. }
  split; [|by apply Utf8.is_utf8_ascii]. eapply Forall_impl; [exact Hf|]. unfold is_u8. simpl. lia.
Qed.

Lemma tools_tree_ok : tree_ok tools_tree.
Proof. cbn. repeat split; by apply ascii_str. Qed.

Lemma tools_json_text : tools_json = print tools_tree.
Proof. vm_compute. reflexivity. Qed.

(** Solves [tree_ok] and the equation between assembled text and [print]. *)
Ltac texts :=
  cbn [tree_ok foldr fst snd];
  repeat match goal with |- _ /\ _ => split end; first [done | by apply ascii_str].
Ltac fmt :=
  unfold quote;
  repeat match goal with
  | |- context [escape_json (str ?k)] => change (escape_json (str k)) with (str k)
  | |- context [escape_json ?x] => is_var x; generalize (escape_json x); intros ?
  end;
  cbn; repeat (rewrite <- !app_assoc; cbn); done.

Lemma block_tree b v : block_value b v -> exists j, block_text b = print j /\ denote j = v /\ tree_ok j.
Proof.
  intros Hb. destruct Hb as [t Ht|id name i v Hid Hn Hi|id c Hid Hc|id c Hid Hc].
  - exists (TObj [(str "type", TStr (str "text")); (str "text", TStr t)]).
    cbn [block_text print fmap list_fmap fst snd commas]. split; [fmt|split; [done|texts]].
  - exists (TObj [(str "type", TStr (str "tool_use")); (str "id", TStr id); (str "name", TStr name); (str "input", TRaw i v)]).
    cbn [block_text print fmap list_fmap fst snd commas]. split; [fmt|split; [done|texts]].
  - exists (TObj [(str "type", TStr (str "tool_result")); (str "tool_use_id", TStr id);
      (str "is_error", TRaw (str "true") (Bool true)); (str "content", TStr c)]).
    cbn [block_text print fmap list_fmap fst snd commas]. split; [fmt|split; [done|]].
    pose proof VT_true. texts.
  - exists (TObj [(str "type", TStr (str "tool_result")); (str "tool_use_id", TStr id); (str "content", TStr c)]).
    cbn [block_text print fmap list_fmap fst snd commas]. split; [fmt|split; [done|texts]].
Qed.

Lemma trees_ok {X} (text : X -> list Z) (value : X -> JsonValue -> Prop) xs vs :
  (forall x v, value x v -> exists j, text x = print j /\ denote j = v /\ tree_ok j) ->
  Forall2 value xs vs -> exists js, text <$> xs = print <$> js /\ denote <$> js = vs /\ tree_ok (TArr js).
Proof.
  intros Htree. induction 1 as [|x v xs vs Hx Hxs (js & Ht & Hd & Hok)]; [by exists []|].
  destruct (Htree x v Hx) as (j & Htj & Hdj & Hokj). exists (j :: js). cbn [fmap list_fmap].
  split; [f_equal; [done|exact Ht]|]. split; [f_equal; [done|exact Hd]|]. by split.
Qed.

Lemma message_tree m v : message_value m v -> exists j, message_text m = print j /\ denote j = v /\ tree_ok j.
Proof.
  intros Hm. destruct Hm as [r c Hr Hc|r c bs vs Hr Hne Hbs].
  - exists (TObj [(str "role", TStr r); (str "content", TStr c)]).
    unfold message_text. cbn [content_blocks role content print fmap list_fmap fst snd commas].
    split; [fmt|split; [done|texts]].
  - destruct (trees_ok block_text block_value bs vs block_tree Hbs) as (js & Ht & Hd & Hok).
    exists (TObj [(str "role", TStr r); (str "content", TArr js)]). split; [|split].
    + unfold message_text. destruct bs as [|b bs]; [done|]. cbn [content_blocks role]. rewrite Ht.
      cbn [print fmap list_fmap fst snd commas]. generalize (commas (list_fmap _ _ print js)). intros e. fmt.
    + by rewrite <- Hd.
    + cbn [tree_ok foldr fst snd] in *. texts.
Qed.

Lemma number_4096 : value_text (str "4096") (Number (f64_of_Z 4096)).
Proof.
  apply (VT_num (mkNum false (str "4096") None None)); [|vm_compute; reflexivity].
  repeat split; try done. repeat constructor.
Qed.

Lemma body_tree cfg sys msgs vs tools :
  Utf8.is_str (model cfg) -> match sys with Some s => Utf8.is_str s | None => True end ->
  Forall2 message_value msgs vs ->
  exists j, body_text cfg sys msgs tools = print j /\ denote j = body_value cfg sys vs tools /\ tree_ok j.
Proof.
  intros Hm Hs Hmsgs. destruct (trees_ok message_text message_value msgs vs message_tree Hmsgs) as (js & Ht & Hd & Hok).
  exists (TObj ([(str "model", TStr (model cfg)); (str "max_tokens", TRaw (str "4096") (Number (f64_of_Z 4096)));
      (str "stream", TRaw (str "true") (Bool true))] ++
    match sys with Some s => [(str "system", TStr s)] | None => [] end ++
    [(str "messages", TArr js)] ++ (if tools then [(str "tools", tools_tree)] else []))).
  pose proof number_4096 as H4096. pose proof VT_true. pose proof tools_tree_ok. split; [|split].
  - unfold body_text. rewrite Ht. rewrite tools_json_text.
    destruct cfg as [key ip port m tls]. cbn [model] in *. clear.
    generalize tools_tree as tt. intros tt.
    destruct sys as [s|], tools; cbn [app print fmap list_fmap fst snd commas];
      generalize (commas (list_fmap _ _ print js)) (print tt); intros e1 e2; fmt.
  - rewrite <- Hd. unfold body_value, tools_value. generalize tools_tree as tt. intros tt. by destruct sys, tools.
  - cbn [tree_ok] in Hok. generalize dependent tools_tree. intros tt Htt.
    destruct sys, tools; cbn [app tree_ok foldr fst snd];
      repeat match goal with |- _ /\ _ => split end; first [done | by apply ascii_str].
Qed.

Lemma no_crlf_no_byte s : has_crlf s = false -> Http.no_byte 13 s.
Proof.
  intros Hs. apply Forall_forall. intros b Hb ->. apply not_true_iff_false in Hs. apply Hs.
  apply existsb_exists. exists 13. split; [by apply list_elem_of_In|done].
Qed.

(** The header lines of a request after its request line. *)
Definition request_headers (cfg : ClaudeConfig) (body : list Z) : list (list Z) :=
  [str "Host: api.anthropic.com"; str "Content-Type: application/json"; str "X-API-Key: " ++ api_key cfg;
   str "Anthropic-Version: 2023-06-01"; str "Accept: text/event-stream";
   str "Content-Length: " ++ dec (zlen body); str "Connection: close"].

Lemma request_headers_ok cfg body :
  has_crlf (api_key cfg) = false -> Forall (fun h => Http.no_byte 13 h /\ h <> []) (request_headers cfg body).
Proof.
  intros Hk. pose proof (no_crlf_no_byte _ Hk) as Hn.
  assert (forall s r, ascii (str s) = true -> forallb (fun b => negb (b =? 13)) (str s) = true -> str s <> [] ->
    Http.no_byte 13 r -> Http.no_byte 13 (str s ++ r) /\ str s ++ r <> []) as Happ.
  { intros s r _ Hs Hne Hr. split; [|by destruct (str s)]. apply Forall_app_2; [|done].
    apply Forall_forall. intros b Hb%list_elem_of_In. rewrite forallb_forall in Hs. apply Hs in Hb.
    by apply negb_true_iff, Z.eqb_neq in Hb. }
  assert (forall s, ascii (str s) = true -> forallb (fun b => negb (b =? 13)) (str s) = true -> str s <> [] ->
    Http.no_byte 13 (str s) /\ str s <> []) as Hlit.
  { intros s H1 H2 H3. rewrite <- (app_nil_r (str s)). apply Happ; try done. constructor. }
  assert (0 <= zlen body) as Hz by apply Nat2Z.is_nonneg.
  unfold request_headers. repeat first [apply Forall_cons; split | apply Forall_nil]; try done; try (by apply Hlit); apply Happ; try done.
  apply Http.digits_no_byte; [done|by apply dec_digits].
Qed.

(** ** Properties *)

(** C8. The request builder.  A model name or key with a line break is refused;
    otherwise the request is a head of exactly eight lines, whose key line
    holds the key and whose Content-Length is the length of the body, ended by
    the first blank line, and then a body that parses to the JSON document of
    the conversation: every role, text, tool call and tool result as given,
    the system prompt, and the tool definitions. *)
Theorem api_request_denotes cfg sys msgs vs tools :
  Utf8.is_str (model cfg) -> match sys with Some s => Utf8.is_str s | None => True end ->
  Forall2 message_value msgs vs ->
  if has_crlf (model cfg) || has_crlf (api_key cfg)
  then build_http_request_multi cfg sys msgs tools = Err SendFailed
  else exists head body,
    build_http_request_multi cfg sys msgs tools = Ok (head ++ Http.HEADER_END ++ body) /\
    Http.find_header_end (head ++ Http.HEADER_END ++ body) = Some (length head) /\
    Str.split Str.CRLF head = str "POST /v1/messages HTTP/1.1" :: request_headers cfg body /\
    parse body = Ok (body_value cfg sys vs tools).
Proof.
  intros Hm Hs Hmsgs. unfold build_http_request_multi. destruct (has_crlf (model cfg)); [done|].
  destruct (has_crlf (api_key cfg)) eqn:Hk; [done|]. cbn [orb].
  destruct (body_tree cfg sys msgs vs tools Hm Hs Hmsgs) as (j & Ht & Hd & Hok).
  set (body := body_text cfg sys msgs tools) in *.
  set (head := str "POST /v1/messages HTTP/1.1" ++ concat ((fun h => Str.CRLF ++ h) <$> request_headers cfg body)).
  pose proof (request_headers_ok cfg body Hk) as Hh.
  assert (Http.no_byte 13 (str "POST /v1/messages HTTP/1.1")) as Hp by (by repeat constructor).
  exists head, body. split; [|split; [|split]].
  - f_equal. unfold head, request_headers, line. generalize (dec (zlen body)) as d, (api_key cfg) as k, body. clear.
    intros d k body. cbn [fmap list_fmap concat]. by rewrite <- !app_assoc.
  - rewrite Http.find_header_end_find. unfold head. rewrite <- app_assoc. by apply Http.find_end_lines.
  - unfold Str.split, head. apply Http.split_lines; [done| |].
    + eapply Forall_impl; [exact Hh|]. by intros h [Hx _].
    + rewrite length_app. pose proof (Http.lines_length (request_headers cfg body)). lia.
  - rewrite Ht, <- Hd. by apply parse_print.
Qed.


Definition sample_config : ClaudeConfig := mkConfig (str "sk-ant-1") (10, 0, 2, 2) 443 DEFAULT_MODEL true.
Definition sample_messages : list Message := [
  text_message (str "user") (jstr "say 'hi'");
  assistant_tool_use [] [mkToolCall (str "t1") (str "list_dir") (jstr "{'path':'/'}")];
  tool_result (str "t1") (str "bin" ++ [10]) false].
Definition sample_values : list JsonValue := [
  Object [member "role" (Str (str "user")); member "content" (Str (jstr "say 'hi'"))];
  Object [member "role" (Str (str "assistant")); member "content" (Array [
    Object [member "type" (Str (str "tool_use")); member "id" (Str (str "t1")); member "name" (Str (str "list_dir"));
            member "input" (Object [member "path" (Str (str "/"))])]])];
  Object [member "role" (Str (str "user")); member "content" (Array [
    Object [member "type" (Str (str "tool_result")); member "tool_use_id" (Str (str "t1"));
            member "content" (Str (str "bin" ++ [10]))]])]].

Lemma sample_messages_value : Forall2 message_value sample_messages sample_values.
Proof.
  assert (value_text (jstr "{'path':'/'}") (Object [member "path" (Str (str "/"))])) as Hi.
  { apply (print_text (TObj [(str "path", TStr (str "/"))])). texts. }
  constructor; [apply MV_text; by apply ascii_str|]. constructor; [|constructor; [|constructor]].
  - apply MV_blocks; [by apply ascii_str|done|]. constructor; [|constructor]. apply BV_use; [by apply ascii_str..|exact Hi].
  - apply MV_blocks; [by apply ascii_str|done|]. constructor; [|constructor]. apply BV_result; by apply ascii_str.
Qed.

Theorem api_request_denotes_witness : exists head body,
  build_http_request_multi sample_config (Some (str "be brief")) sample_messages true =
    Ok (head ++ Http.HEADER_END ++ body) /\
  Http.find_header_end (head ++ Http.HEADER_END ++ body) = Some (length head) /\
  Str.split Str.CRLF head = str "POST /v1/messages HTTP/1.1" :: request_headers sample_config body /\
  parse body = Ok (body_value sample_config (Some (str "be brief")) sample_values true).
Proof.
  refine (api_request_denotes sample_config (Some (str "be brief")) sample_messages sample_values true _ _ _).
  - by apply ascii_str.
  - by apply ascii_str.
  - apply sample_messages_value.
Defined.

End Api.
