(* ===== verification/Sse.v ===== *)
(** * Event streams ([api/mod.rs])

    Server-sent events: finding events in the receive buffer, extracting
    their payload, and the three extractors the client applies to them. *)
From S2P Require Import Prelude.
From S2P Require Import Bytes.
From S2P Require Import Utf8.
From S2P Require Import Fmt.
From S2P Require Import Str.
From S2P Require Import Json.
From S2P Require Import Api.

Module Sse.
Import Api.

Definition find_sse_event_end (buf : list Z) : option nat :=
  (fun i => i + 2)%nat <$> (snd <$> list_find (fun i => buf !! i = Some 10 /\ buf !! S i = Some 10) (seq 0 (length buf - 1))).

(** The loop over the lines of an event.  The second prefix can only match
    where the first one does. *)
Fixpoint data_line (ls : list (list Z)) : option (list Z) :=
  match ls with
  | [] => None
  | line :: ls =>
      match Str.strip_prefix (str "data:") line with
      | Some rest => Some (Str.trim_start rest)
      | None =>
          match Str.strip_prefix (str "data: ") line with
          | Some rest => Some rest
          | None => data_line ls
          end
      end
  end.

Definition extract_sse_data (event : list Z) : option (list Z) :=
  match data_line (Str.lines event) with
  | Some d => Some d
  | None =>
      let trimmed := Str.trim event in
      if starts_with trimmed [123] then Some trimmed else None
  end.

(** *** The fallback extractor *)
(** The position of the closing quote: one that no backslash precedes. *)
Fixpoint quote_end (prev : option Z) (l : list Z) : nat :=
  match l with
  | [] => 0
  | b :: l =>
      if (b =? 34) && negb (bool_decide (prev = Some 92)) then 0 else S (quote_end (Some b) l)
  end.

Fixpoint unescape_hex (n : nat) (cs : list (list Z)) (code : Z) : Z * list (list Z) :=
  match n with
  | O => (code, cs)
  | S n =>
      let d := match cs with [b] :: _ => default 0 (Json.hex_val b) | _ => 0 end in
      unescape_hex n (tail cs) (Z.lor (wrap32 (Z.shiftl code 4)) d)
  end.

Fixpoint unescape_loop (fuel : nat) (cs : list (list Z)) (out : list Z) : list Z :=
  match fuel, cs with
  | S fuel, [92] :: cs =>
      match cs with
      | [110] :: cs => unescape_loop fuel cs (out ++ [10])
      | [114] :: cs => unescape_loop fuel cs (out ++ [13])
      | [116] :: cs => unescape_loop fuel cs (out ++ [9])
      | [98] :: cs => unescape_loop fuel cs (out ++ [8])
      | [102] :: cs => unescape_loop fuel cs (out ++ [12])
      | [34] :: cs => unescape_loop fuel cs (out ++ [34])
      | [92] :: cs => unescape_loop fuel cs (out ++ [92])
      | [47] :: cs => unescape_loop fuel cs (out ++ [47])
      | [117] :: cs =>
          let '(code, cs) := unescape_hex 4 cs 0 in
          unescape_loop fuel cs (Json.push_opt out (Json.char_from_u32 code))
      | c :: cs => unescape_loop fuel cs (out ++ [92] ++ c)
      | [] => out ++ [92]
      end
  | S fuel, c :: cs => unescape_loop fuel cs (out ++ c)
  | _, _ => out
  end.
Definition unescape_json (s : list Z) : list Z := unescape_loop (length s) (Str.chars s) [].

Definition extract_content_delta_legacy (s : list Z) : option (list Z) :=
  if negb (Str.contains s (str "content_block_delta")) then None
  else
    let marker := jstr "'text':'" in
    start ← Str.find marker s;
    let rest := drop (start + length marker) s in
    Some (unescape_json (take (quote_end None rest) rest)).

(** *** The JSON extractor *)
Definition get_str (v : Json.JsonValue) (key : string) : option (list Z) :=
  Json.get v (str key) ≫= Json.as_str.

Definition extract_content_delta_json (event : list Z) : option (list Z) :=
  if negb (Utf8.is_utf8 event) then None
  else
    data ← extract_sse_data event;
    if negb (Str.contains data (str "content_block_delta")) then None
    else
      match Json.parse data with
      | Ok parsed =>
          match Json.get parsed (str "delta") with
          | Some delta => get_str delta "text"
          | None => extract_content_delta_legacy event
          end
      | _ => extract_content_delta_legacy event
      end.

Definition is_message_stop (event : list Z) : bool :=
  let s := if Utf8.is_utf8 event then event else [] in
  Str.contains s (str "message_stop").

(** ** Lemmas *)
Lemma pair_window (buf : list Z) i : (buf !! i = Some 10 /\ buf !! S i = Some 10) <-> take 2 (drop i buf) = [10; 10].
Proof.
  rewrite <- (Nat.add_0_r i) at 1. replace (S i) with (i + 1)%nat by lia. rewrite <- !lookup_drop.
  destruct (drop i buf) as [|a [|b l]]; simpl; split; try (by intros [? ?]); try done.
  - by intros [[= ->] [= ->]].
  - by intros [= -> ->].
Qed.

Lemma event_end_find buf : find_sse_event_end buf = (fun i => i + 2)%nat <$> Str.find [10; 10] buf.
Proof.
  unfold find_sse_event_end. f_equal. apply (Str.window_find _ 10 [10]). intros i. apply pair_window.
Qed.

Lemma event_end_app buf more e :
  find_sse_event_end buf = Some e -> find_sse_event_end (buf ++ more) = Some e.
Proof.
  rewrite !event_end_find. destruct (Str.find [10; 10] buf) as [i|] eqn:Hf; [|done].
  by rewrite (Str.find_app _ _ more _ Hf).
Qed.

Lemma event_end_bound buf e : find_sse_event_end buf = Some e -> (2 <= e <= length buf)%nat.
Proof.
  rewrite event_end_find. destruct (Str.find [10; 10] buf) as [i|] eqn:Hf; [|done]. intros [= <-].
  apply Str.find_bound in Hf. simpl in Hf. lia.
Qed.

Lemma concat_chars l : concat (Str.chars l) = l.
Proof.
  induction l as [|b l IH] using Utf8.utf8_ind; [done|]. rewrite chars_step. cbn [concat]. rewrite IH. apply take_drop.
Qed.

(** An event as the API writes it: a name, and the text of an object. *)
Definition event_text (name t : list Z) : list Z :=
  str "event: " ++ name ++ [10] ++ str "data: " ++ t ++ [10; 10].
Definition no_lf (l : list Z) : Prop := Forall (fun b => b <> 10) l.
Definition event_ok (name t : list Z) : Prop :=
  Utf8.is_utf8 (event_text name t) = true /\ no_lf name /\ no_lf t /\ head t = Some 123 /\ last t = Some 125 /\
  last name <> Some 13.

Lemma event_end_text name t more :
  no_lf name -> no_lf t -> find_sse_event_end (event_text name t ++ more) = Some (length (event_text name t)).
Proof.
  intros Hn Ht. rewrite event_end_find. unfold event_text. rewrite <- !app_assoc.
  rewrite (Str.find_skip 10 [10] (str "event: ")) by (by repeat constructor).
  rewrite (Str.find_skip 10 [10] name) by done.
  change ([10] ++ str "data: " ++ ?x) with (10 :: (str "data: " ++ x)).
  assert (starts_with (10 :: (str "data: " ++ t ++ [10; 10] ++ more)) [10; 10] = false) as Hs by done.
  cbn [Str.find]. rewrite Hs.
  rewrite (Str.find_skip 10 [10] (str "data: ")) by (by repeat constructor).
  rewrite (Str.find_skip 10 [10] t) by done. rewrite Str.find_here.
  cbn [fmap option_fmap option_map]. f_equal.
  rewrite !length_app. cbn [length]. rewrite !length_app. cbn [length]. lia.
Qed.

Lemma trim_object t : head t = Some 123 -> Str.trim_start (32 :: t) = t.
Proof.
  destruct t as [|b t]; [done|]. intros [= ->]. unfold Str.trim_start. rewrite chars_step.
  change (concat (Str.drop_chars Str.is_whitespace (Str.chars (123 :: t))) = 123 :: t).
  rewrite chars_step.
  change (123 :: concat (Str.chars t) = 123 :: t). by rewrite concat_chars.
Qed.

Lemma extract_event name t : event_ok name t -> extract_sse_data (event_text name t) = Some t.
Proof.
  intros (_ & Hn & Ht & Hh & Hl & Hcr). unfold extract_sse_data, Str.lines.
  assert (exists f, S (length (event_text name t)) = S (S (S f))) as [f ->].
  { exists (length (event_text name t) - 2)%nat. unfold event_text. rewrite length_app. simpl. lia. }
  unfold event_text. cbn [Str.lines_loop].
  replace (str "event: " ++ name ++ [10] ++ str "data: " ++ t ++ [10; 10])
    with ((str "event: " ++ name) ++ [10] ++ (str "data: " ++ t ++ [10; 10])) by (by rewrite <- !app_assoc).
  rewrite Str.split_once_skip by (apply Forall_app_2; [by repeat constructor|done]).
  replace (str "data: " ++ t ++ [10; 10]) with ((str "data: " ++ t) ++ [10] ++ [10]) by (by rewrite <- !app_assoc).
  rewrite Str.split_once_skip by (apply Forall_app_2; [by repeat constructor|done]).
  assert (forall a b, last b <> Some 13 -> last (str a ++ b) <> Some 13 -> Str.strip_cr (str a ++ b) = str a ++ b) as Hstrip.
  { intros a b _ H. unfold Str.strip_cr. destruct (last (str a ++ b)) as [x|]; [|done]. repeat case_match; done. }
  assert (Str.strip_cr (str "data: " ++ t) = str "data: " ++ t) as ->.
  { apply Hstrip; [by rewrite Hl|]. rewrite last_app, Hl. done. }
  assert (Str.strip_cr (str "event: " ++ name) = str "event: " ++ name) as ->.
  { apply Hstrip; [done|]. rewrite last_app. destruct (last name) as [x|]; [congruence|done]. }
  cbn [data_line]. change (str "data: " ++ t) with (str "data:" ++ 32 :: t).
  assert (Str.strip_prefix (str "data:") (str "event: " ++ name) = None) as -> by done.
  assert (Str.strip_prefix (str "data: ") (str "event: " ++ name) = None) as -> by done.
  assert (Str.strip_prefix (str "data:") (str "data:" ++ 32 :: t) = Some (32 :: t)) as ->.
  { unfold Str.strip_prefix. rewrite Str.starts_with_app. by rewrite drop_app_length. }
  by rewrite trim_object.
Qed.

End Sse.
