(* ===== verification/ApiClient.v ===== *)
(** * API client ([api/mod.rs])

    The receive loops over the network, the accumulation of a streamed
    response, and the retry loop.  What the network does during a request is
    a [session]: the outcome of every call the client makes, in order.  The
    tokens handed to [on_token] and whether the connection was closed are part
    of the outcome. *)
From S2P Require Import Prelude.
From S2P Require Import Bytes.
From S2P Require Import Utf8.
From S2P Require Import Fmt.
From S2P Require Import Str.
From S2P Require Import Json.
From S2P Require Import Http.
From S2P Require Import Api.
From S2P Require Import Sse.

Module ApiClient.
Import Api Sse.

(** ** The network during one request *)
(** [sends] are the results of [tls.write] ([None] an error); for the plain
    path, the counts that [tcp_send] accepts.  [reads] are the results of
    [tls.read] ([None] an error, [Some []] end of file; the end of the list is
    the end of the connection). *)
Record session := mkSession {
  connects : bool;
  ready : bool;
  opens : bool;
  sends : list (option Z);
  flushes : bool;
  reads : list (option (list Z));
}.

Record outcome (R : Type) := mkOutcome {
  result : out ApiError R;
  tokens : list (list Z);
  closed : bool;
}.
Arguments mkOutcome {R} result tokens closed.
Arguments result {R} o.
Arguments tokens {R} o.
Arguments closed {R} o.

(** [while sent < request.len() { sent += tls.write(&request[sent..])? }]. *)
Fixpoint send_loop (len sent : Z) (sends : list (option Z)) : bool :=
  if sent <? len then
    match sends with
    | Some n :: sends => send_loop len (sent + n) sends
    | _ => false
    end
  else true.

(** ** Receiving: shared by the three request functions *)
Section receive.
(** What has been accumulated, and what a request returns.  [on_event] is the
    body of the event loop: [Some r] is an early return. *)
Context {A R : Type}.
Variable on_event : A -> list Z -> A * option (out ApiError R).

Fixpoint drain (fuel : nat) (raw_buf : list Z) (acc : A) : list Z * A * option (out ApiError R) :=
  match fuel with
  | O => (raw_buf, acc, None)
  | S fuel =>
      match find_sse_event_end raw_buf with
      | None => (raw_buf, acc, None)
      | Some event_end =>
          match on_event acc (take event_end raw_buf) with
          | (acc, None) => drain fuel (drop event_end raw_buf) acc
          | (acc, Some r) => (drop event_end raw_buf, acc, Some r)
          end
      end
  end.

Record rstate := mkR { raw_buf : list Z; headers_parsed : bool; acc : A }.

(** The headers, once they are complete. *)
Definition on_headers (s : rstate) : rstate * option (out ApiError R) :=
  if headers_parsed s then (s, None)
  else
    match Http.parse (raw_buf s) with
    | Ok resp =>
        match Http.error_message resp with
        | Some err_msg => (s, Some (Err (HttpStatus (Http.status resp) err_msg (Http.retry_after_secs resp))))
        | None =>
            if Http.body_start resp <=? zlen (raw_buf s)
            then (mkR (drop (Z.to_nat (Http.body_start resp)) (raw_buf s)) true (acc s), None)
            else (s, Some Panic)
        end
    | _ => (s, None)
    end.

Definition on_events (s : rstate) : rstate * option (out ApiError R) :=
  if headers_parsed s then
    let '(raw, a, r) := drain (S (length (raw_buf s))) (raw_buf s) (acc s) in (mkR raw true a, r)
  else (s, None).

(** One successful read. *)
Definition on_bytes (s : rstate) (bytes : list Z) : rstate * option (out ApiError R) :=
  match on_headers (mkR (raw_buf s ++ bytes) (headers_parsed s) (acc s)) with
  | (s, None) => on_events s
  | (s, Some r) => (s, Some r)
  end.

(** The loop over the reads, until an early return or the end. *)
Fixpoint receive (reads : list (option (list Z))) (s : rstate) : rstate * option (out ApiError R) :=
  match reads with
  | Some (b :: bs) :: reads =>
      match on_bytes s (b :: bs) with
      | (s, None) => receive reads s
      | (s, Some r) => (s, Some r)
      end
  | _ => (s, None)
  end.

End receive.
Arguments rstate A : clear implicits.
Arguments mkR {A} raw_buf headers_parsed acc.
Arguments raw_buf {A} r.
Arguments headers_parsed {A} r.
Arguments acc {A} r.

(** ** Text responses *)
Record text_acc := mkText { response : list Z; t_tokens : list (list Z) }.

Definition on_event_text (a : text_acc) (event_bytes : list Z) : text_acc * option (out ApiError (list Z)) :=
  let a := match extract_content_delta_json event_bytes with
           | Some text => mkText (response a ++ text) (t_tokens a ++ [text])
           | None => a
           end in
  if is_message_stop event_bytes then (a, Some (Ok (response a))) else (a, None).

Fixpoint first_text (blocks : list Json.JsonValue) : option (list Z) :=
  match blocks with
  | [] => None
  | block :: blocks =>
      match get_str block "text" with
      | Some text => Some text
      | None => first_text blocks
      end
  end.

Definition finish_response (a : text_acc) (raw_buf : list Z) : out ApiError (list Z) * list (list Z) :=
  if negb (bool_decide (response a = [])) then (Ok (response a), t_tokens a)
  else
    let raw := Utf8.from_utf8_lossy raw_buf in
    if bool_decide (raw = []) then (Err EmptyResponse, t_tokens a)
    else
      match Json.parse raw with
      | Ok parsed =>
          match Json.get parsed (str "error") with
          | Some err_obj =>
              (Err (ApiErr (default (str "unknown error") (get_str err_obj "message"))), t_tokens a)
          | None =>
              match (Json.get parsed (str "content") ≫= Json.as_array) ≫= first_text with
              | Some text => (Ok text, t_tokens a ++ [text])
              | None => (Ok raw, t_tokens a)
              end
          end
      | _ => (Ok raw, t_tokens a)
      end.

Definition text_start : rstate text_acc := mkR [] false (mkText [] []).

Definition claude_request_tls (request : list Z) (net : session) : outcome (list Z) :=
  if negb (connects net) then mkOutcome (Err ConnectionFailed) [] false
  else if negb (ready net) then mkOutcome (Err ConnectionTimeout) [] true
  else if negb (opens net) then mkOutcome (Err TlsHandshakeFailed) [] false
  else if negb (send_loop (zlen request) 0 (sends net)) then mkOutcome (Err SendFailed) [] false
  else if negb (flushes net) then mkOutcome (Err SendFailed) [] false
  else
    match receive on_event_text (reads net) text_start with
    | (s, Some r) => mkOutcome r (t_tokens (acc s)) true
    | (s, None) => let '(r, toks) := finish_response (acc s) (raw_buf s) in mkOutcome r toks true
    end.

(** Plain TCP: [tcp_send] accepts as much as it can; the send loop only ends
    when everything is sent ([None]: it is still spinning). *)
Definition claude_request_plain (request : list Z) (net : session) : option (outcome (list Z)) :=
  if negb (connects net) then Some (mkOutcome (Err ConnectionFailed) [] false)
  else if negb (ready net) then Some (mkOutcome (Err ConnectionTimeout) [] false)
  else if negb (send_loop (zlen request) 0 (sends net)) then None
  else
    Some match receive on_event_text (reads net) text_start with
         | (s, Some r) => mkOutcome r (t_tokens (acc s)) true
         | (s, None) => let '(r, toks) := finish_response (acc s) (raw_buf s) in mkOutcome r toks true
         end.

(** ** Agentic responses *)
Record agent_acc := mkAgent {
  text_response : list Z;
  tool_calls : list ToolCall;
  stop_reason : list Z;
  current_tool_id : list Z;
  current_tool_name : list Z;
  current_tool_input : list Z;
  a_tokens : list (list Z);
}.
Definition agent_start : agent_acc := mkAgent [] [] (str "end_turn") [] [] [] [].

Definition on_block_start (a : agent_acc) (parsed : Json.JsonValue) : agent_acc :=
  match Json.get parsed (str "content_block") with
  | Some cb =>
      if bool_decide (default [] (get_str cb "type") = str "tool_use") then
        mkAgent (text_response a) (tool_calls a) (stop_reason a)
          (default [] (get_str cb "id")) (default [] (get_str cb "name")) [] (a_tokens a)
      else a
  | None => a
  end.

Definition on_block_delta (a : agent_acc) (parsed : Json.JsonValue) : agent_acc :=
  match Json.get parsed (str "delta") with
  | Some delta =>
      let delta_type := default [] (get_str delta "type") in
      if bool_decide (delta_type = str "text_delta") then
        match get_str delta "text" with
        | Some text =>
            mkAgent (text_response a ++ text) (tool_calls a) (stop_reason a)
              (current_tool_id a) (current_tool_name a) (current_tool_input a) (a_tokens a ++ [text])
        | None => a
        end
      else if bool_decide (delta_type = str "input_json_delta") then
        match get_str delta "partial_json" with
        | Some pj =>
            mkAgent (text_response a) (tool_calls a) (stop_reason a)
              (current_tool_id a) (current_tool_name a) (current_tool_input a ++ pj) (a_tokens a)
        | None => a
        end
      else a
  | None => a
  end.

Definition on_block_stop (a : agent_acc) : agent_acc :=
  if negb (bool_decide (current_tool_id a = [])) then
    mkAgent (text_response a)
      (tool_calls a ++ [mkToolCall (current_tool_id a) (current_tool_name a) (current_tool_input a)])
      (stop_reason a) [] [] [] (a_tokens a)
  else a.

Definition on_message_delta (a : agent_acc) (parsed : Json.JsonValue) : agent_acc :=
  match Json.get parsed (str "delta") ≫= (fun delta => get_str delta "stop_reason") with
  | Some sr =>
      mkAgent (text_response a) (tool_calls a) sr
        (current_tool_id a) (current_tool_name a) (current_tool_input a) (a_tokens a)
  | None => a
  end.

Definition agent_response (a : agent_acc) : ClaudeResponse :=
  mkClaudeResponse (text_response a) (tool_calls a) (stop_reason a).

Definition on_value (a : agent_acc) (parsed : Json.JsonValue) : agent_acc * option (out ApiError ClaudeResponse) :=
  let event_type := default [] (get_str parsed "type") in
  if bool_decide (event_type = str "content_block_start") then (on_block_start a parsed, None)
  else if bool_decide (event_type = str "content_block_delta") then (on_block_delta a parsed, None)
  else if bool_decide (event_type = str "content_block_stop") then (on_block_stop a, None)
  else if bool_decide (event_type = str "message_delta") then (on_message_delta a parsed, None)
  else if bool_decide (event_type = str "message_stop") then (a, Some (Ok (agent_response a)))
  else (a, None).

Definition on_event_agentic (a : agent_acc) (event_bytes : list Z) : agent_acc * option (out ApiError ClaudeResponse) :=
  if negb (Utf8.is_utf8 event_bytes) then (a, None)
  else
    match extract_sse_data event_bytes with
    | None => (a, None)
    | Some data =>
        match Json.parse data with
        | Ok parsed => on_value a parsed
        | _ => (a, None)
        end
    end.

Definition finish_agentic (a : agent_acc) : out ApiError ClaudeResponse :=
  if bool_decide (text_response a = []) && bool_decide (tool_calls a = [])
  then Err EmptyResponse
  else Ok (agent_response a).

Definition claude_request_tls_agentic (request : list Z) (net : session) : outcome ClaudeResponse :=
  if negb (connects net) then mkOutcome (Err ConnectionFailed) [] false
  else if negb (ready net) then mkOutcome (Err ConnectionTimeout) [] true
  else if negb (opens net) then mkOutcome (Err TlsHandshakeFailed) [] false
  else if negb (send_loop (zlen request) 0 (sends net)) then mkOutcome (Err SendFailed) [] false
  else if negb (flushes net) then mkOutcome (Err SendFailed) [] false
  else
    match receive on_event_agentic (reads net) (mkR [] false agent_start) with
    | (s, Some r) => mkOutcome r (a_tokens (acc s)) true
    | (s, None) => mkOutcome (finish_agentic (acc s)) (a_tokens (acc s)) true
    end.

(** ** Retrying *)
Definition MAX_RETRIES : nat := 3.
Definition BASE_DELAY_MS : Z := 1000.

(** What the retry loop does: an attempt, or a wait of some microseconds. *)
Inductive action := Attempt | Wait (us : Z).
#[export] Instance action_eq_dec : EqDecision action.
Proof. solve_decision. Defined.

Definition retryable (status : Z) : bool := (status =? 429) || (status =? 500) || (status =? 529).

Section retry.
Context {R : Type}.
(** The outcome of the [n]-th attempt. *)
Variable request : nat -> out ApiError R.

Definition backoff (attempt : nat) : list action :=
  if (0 <? attempt)%nat
  then [Wait (wrap64 (BASE_DELAY_MS * Z.shiftl 1 (Z.min (Z.of_nat attempt - 1) 4) * 1000))]
  else [].

(** [for attempt in attempt..=MAX_RETRIES], [n] iterations left. *)
Fixpoint retry_loop (n : nat) (attempt : nat) (last_err : ApiError) : out ApiError R * list action :=
  match n with
  | O => (Err last_err, [])
  | S n =>
      let before := backoff attempt ++ [Attempt] in
      match request attempt with
      | Ok response => (Ok response, before)
      | Err (HttpStatus status msg retry_after) =>
          if retryable status then
            let wait := match retry_after with
                        | Some secs => [Wait (wrap64 (Z.min (wrap64 (secs * 1000)) 60000 * 1000))]
                        | None => []
                        end in
            let '(r, acts) := retry_loop n (S attempt) (HttpStatus status msg retry_after) in
            (r, before ++ wait ++ acts)
          else (Err (HttpStatus status msg retry_after), before)
      | Err ConnectionTimeout | Err ConnectionFailed =>
          let '(r, acts) := retry_loop n (S attempt) ConnectionTimeout in (r, before ++ acts)
      | Err e => (Err e, before)
      | Panic => (Panic, before)
      end
  end.

Definition with_retry : out ApiError R * list action := retry_loop (S MAX_RETRIES) 0 EmptyResponse.

End retry.

(** An attempt of the plain path that never returns has no outcome; as it
    ends the retry loop, [Panic] stands for it. *)
Definition claude_send_with_retry (config : ClaudeConfig) (request : list Z) (net : nat -> session) :
    out ApiError (list Z) * list action :=
  with_retry (fun n =>
    if use_tls config then result (claude_request_tls request (net n))
    else match claude_request_plain request (net n) with
         | Some o => result o
         | None => Panic
         end).

Definition claude_send_agentic (config : ClaudeConfig) (request : list Z) (net : nat -> session) :
    out ApiError ClaudeResponse * list action :=
  with_retry (fun n => result (claude_request_tls_agentic request (net n))).

(** ** The public entry points *)
Definition claude_request (config : ClaudeConfig) (prompt : list Z) (net : nat -> session) :
    out ApiError (list Z) * list action :=
  match build_http_request config prompt with
  | Ok request => claude_send_with_retry config request net
  | Err e => (Err e, [])
  | Panic => (Panic, [])
  end.

Definition claude_request_multi (request : ClaudeRequest) (net : nat -> session) :
    out ApiError (list Z) * list action :=
  match build_http_request_multi (config request) (system request) (messages request) (use_tools request) with
  | Ok http_req => claude_send_with_retry (config request) http_req net
  | Err e => (Err e, [])
  | Panic => (Panic, [])
  end.

Definition claude_request_agentic (request : ClaudeRequest) (net : nat -> session) :
    out ApiError ClaudeResponse * list action :=
  match build_http_request_multi (config request) (system request) (messages request) (use_tools request) with
  | Ok http_req => claude_send_agentic (config request) http_req net
  | Err e => (Err e, [])
  | Panic => (Panic, [])
  end.

(** ** The receive loop does not depend on how the bytes arrive *)
Section receive_lemmas.
Context {A R : Type}.
Variable on_event : A -> list Z -> A * option (out ApiError R).
#[local] Abbreviation drain := (drain on_event).
#[local] Abbreviation on_bytes := (on_bytes on_event).
#[local] Abbreviation receive := (receive on_event).

Lemma drain_fuel f g l a : (length l < f)%nat -> (length l < g)%nat -> drain f l a = drain g l a.
Proof.
  revert g l a. induction f as [|f IH]; intros g l a Hf Hg; [lia|]. destruct g as [|g]; [lia|]. cbn [ApiClient.drain].
  destruct (find_sse_event_end l) as [e|] eqn:He; [|done]. apply event_end_bound in He.
  destruct (on_event a (take e l)) as [a' [r|]]; [done|]. apply IH; rewrite length_drop; lia.
Qed.

(** What an early return leaves in the buffer is not looked at. *)
Definition observe (p : rstate A * option (out ApiError R)) : (A * out ApiError R) + rstate A :=
  match p with
  | (s, Some r) => inl (acc s, r)
  | (s, None) => inr s
  end.

Definition events_of (l : list Z) (a : A) : rstate A * option (out ApiError R) :=
  let '(raw, a, r) := drain (S (length l)) l a in (mkR raw true a, r).

Lemma events_app l more a :
  observe (events_of (l ++ more) a) =
  match events_of l a with
  | (s, None) => observe (events_of (raw_buf s ++ more) (acc s))
  | (s, Some r) => inl (acc s, r)
  end.
Proof.
  assert (forall f l a, (length l < f)%nat ->
    observe (events_of (l ++ more) a) =
    match (let '(raw, a, r) := drain f l a in (mkR raw true a, r)) with
    | (s, None) => observe (events_of (raw_buf s ++ more) (acc s))
    | (s, Some r) => inl (acc s, r)
    end) as Hgen; [|apply Hgen; lia].
  clear. induction f as [|f IH]; intros l a Hf; [lia|]. unfold events_of. cbn [ApiClient.drain].
  destruct (find_sse_event_end l) as [e|] eqn:He; [|done].
  rewrite (event_end_app l more e He). apply event_end_bound in He. rewrite take_app_le, drop_app_le by lia.
  destruct (on_event a (take e l)) as [a' [r|]]; [done|].
  rewrite (drain_fuel _ (S (length (drop e l ++ more)))) by (rewrite !length_app, length_drop; lia).
  apply (IH (drop e l) a'). rewrite length_drop. lia.
Qed.

Lemma on_bytes_app s x y :
  observe (on_bytes s (x ++ y)) =
  match on_bytes s x with
  | (s', None) => observe (on_bytes s' y)
  | (s', Some r) => inl (acc s', r)
  end.
Proof.
  assert (forall raw a, on_events on_event (mkR raw true a) = events_of raw a) as He by done.
  assert (forall raw a, on_bytes (mkR raw true a) y = events_of (raw ++ y) a) as Hy by done.
  destruct s as [raw [|] a]; unfold ApiClient.on_bytes at 1 2; cbn [raw_buf headers_parsed acc]; rewrite (app_assoc raw x y).
  - unfold on_headers. cbn [headers_parsed]. rewrite !He, events_app.
    destruct (events_of (raw ++ x) a) as [s [r|]] eqn:Hs; [done|].
    assert (s = mkR (raw_buf s) true (acc s)) as ->.
    { unfold events_of in Hs. destruct (drain _ _ _) as [[? ?] ?]. by simplify_eq. }
    by rewrite Hy.
  - unfold on_headers. cbn [headers_parsed raw_buf]. set (d := raw ++ x).
    destruct (Http.find_header_end d) as [i|] eqn:Hf.
    2: { apply Http.parse_incomplete in Hf. by rewrite Hf. }
    rewrite (Http.parse_grow d y i Hf).
    destruct (Http.parse d) as [resp|e|] eqn:Hp.
    2,3: unfold on_events; cbn [headers_parsed observe]; unfold ApiClient.on_bytes, on_headers;
      cbn [headers_parsed raw_buf acc]; by rewrite (Http.parse_grow d y i Hf), Hp.
    destruct (Http.error_message resp); [done|]. pose proof (Http.parse_body d resp Hp) as Hb.
    rewrite (proj2 (Z.leb_le _ _)) by (unfold zlen in *; rewrite length_app; lia).
    rewrite (proj2 (Z.leb_le _ _)) by done. rewrite !He. cbn [acc].
    rewrite drop_app_le by (unfold zlen in Hb; lia). rewrite events_app.
    destruct (events_of (drop _ d) a) as [s [r|]] eqn:Hs; [done|].
    assert (s = mkR (raw_buf s) true (acc s)) as ->.
    { unfold events_of in Hs. destruct (drain _ _ _) as [[? ?] ?]. by simplify_eq. }
    by rewrite Hy.
Qed.

(** The end of the reads: an error, an end of file, or the end of the
    connection. *)
Definition ended (fin : list (option (list Z))) : Prop :=
  match fin with Some (_ :: _) :: _ => False | _ => True end.

Lemma receive_concat cs fin s :
  Forall (fun c => c <> []) cs -> ended fin -> cs <> [] ->
  observe (receive ((Some <$> cs) ++ fin) s) = observe (on_bytes s (concat cs)).
Proof.
  intros Hcs Hfin. revert s. induction Hcs as [|c cs Hc Hcs IH]; intros s Hne; [done|].
  cbn [fmap list_fmap app concat]. rewrite on_bytes_app. destruct c as [|b c]; [done|]. cbn [ApiClient.receive].
  destruct (on_bytes s (b :: c)) as [s' [r|]] eqn:Hs; [done|].
  destruct (decide (cs = [])) as [->|Hcs']; [|by apply IH].
  cbn [fmap list_fmap app concat].
  assert (receive fin s' = (s', None)) as -> by (by destruct fin as [|[[|]|]]).
  pose proof (on_bytes_app s (b :: c) []) as Happ. rewrite app_nil_r, Hs in Happ. by rewrite <- Happ.
Qed.

(** Two ways of cutting the same bytes into reads. *)
Lemma receive_chunking cs1 cs2 fin s :
  Forall (fun c => c <> []) cs1 -> Forall (fun c => c <> []) cs2 -> ended fin -> concat cs1 = concat cs2 ->
  observe (receive ((Some <$> cs1) ++ fin) s) = observe (receive ((Some <$> cs2) ++ fin) s).
Proof.
  intros H1 H2 Hfin Hc.
  assert (forall cs, Forall (fun c => c <> []) cs -> concat cs = [] -> cs = @nil (list Z)) as Hnil.
  { intros cs Hcs He. destruct Hcs as [|c cs Hc' Hcs]; [done|]. by destruct c. }
  destruct (decide (cs1 = [])) as [->|Hn1].
  - rewrite (Hnil cs2) by done. done.
  - destruct (decide (cs2 = [])) as [->|Hn2]; [by rewrite (Hnil cs1) in Hn1 by done|].
    by rewrite !receive_concat, Hc.
Qed.

End receive_lemmas.

(** ** What a streamed message means *)
Fixpoint run_values (vs : list Json.JsonValue) (a : agent_acc) : agent_acc * option (out ApiError ClaudeResponse) :=
  match vs with
  | [] => (a, None)
  | v :: vs =>
      match on_value a v with
      | (a, None) => run_values vs a
      | (a, Some r) => (a, Some r)
      end
  end.

Lemma run_values_app vs1 vs2 a :
  run_values (vs1 ++ vs2) a =
  match run_values vs1 a with (a', None) => run_values vs2 a' | res => res end.
Proof. revert a. induction vs1 as [|v vs1 IH]; intros a; [done|]. cbn. destruct (on_value a v) as [a' [r|]]; [done|]. apply IH. Qed.

(** An event of the stream carries the text of a value. *)
Definition carries (e : list Z * list Z) (v : Json.JsonValue) : Prop :=
  event_ok (fst e) (snd e) /\ Json.value_text (snd e) v.
Definition stream (es : list (list Z * list Z)) : list Z := concat ((fun e => event_text (fst e) (snd e)) <$> es).

Lemma on_event_carries a e v : carries e v -> on_event_agentic a (event_text (fst e) (snd e)) = on_value a v.
Proof.
  intros [Hok Hv]. unfold on_event_agentic. rewrite (proj1 Hok). cbn [negb].
  rewrite (extract_event _ _ Hok). rewrite <- (app_nil_r (snd e)), (Json.parse_text _ [] v Hv); [done|constructor].
Qed.

Lemma drain_stream es vs rest a a' r :
  Forall2 carries es vs -> run_values vs a = (a', Some r) ->
  exists raw, drain on_event_agentic (S (length (stream es ++ rest))) (stream es ++ rest) a = (raw, a', Some r).
Proof.
  intros Hes. revert a. induction Hes as [|e v es vs He Hes IH]; intros a Hr; [done|].
  unfold stream. cbn [fmap list_fmap concat]. rewrite <- app_assoc. fold (stream es).
  cbn [drain]. pose proof He as [(_ & Hn & Ht & _) _]. rewrite event_end_text by done.
  rewrite take_app_length, drop_app_length, (on_event_carries a e v He).
  cbn [run_values] in Hr. destruct (on_value a v) as [a1 [r1|]]; [simplify_eq; by eexists|].
  destruct (IH a1 Hr) as [raw Hraw]. exists raw. rewrite <- Hraw.
  apply drain_fuel; rewrite ?length_app; unfold event_text; simpl; lia.
Qed.

(** A block of the response, as the pieces it is streamed in. *)
Inductive block :=
| TextBlock (deltas : list (list Z))
| ToolBlock (id name : list Z) (parts : list (list Z)).

Definition typed (v : Json.JsonValue) (t : string) : Prop := get_str v "type" = Some (str t).
Definition text_delta (d : list Z) (v : Json.JsonValue) : Prop :=
  typed v "content_block_delta" /\ exists delta, Json.get v (str "delta") = Some delta /\
  typed delta "text_delta" /\ get_str delta "text" = Some d.
Definition json_delta (p : list Z) (v : Json.JsonValue) : Prop :=
  typed v "content_block_delta" /\ exists delta, Json.get v (str "delta") = Some delta /\
  typed delta "input_json_delta" /\ get_str delta "partial_json" = Some p.

Inductive block_values : block -> list Json.JsonValue -> Prop :=
| BlockText v0 cb ds vs v1 :
    typed v0 "content_block_start" -> Json.get v0 (str "content_block") = Some cb -> typed cb "text" ->
    Forall2 text_delta ds vs -> typed v1 "content_block_stop" ->
    block_values (TextBlock ds) (v0 :: vs ++ [v1])
| BlockTool v0 cb id name ps vs v1 :
    typed v0 "content_block_start" -> Json.get v0 (str "content_block") = Some cb -> typed cb "tool_use" ->
    get_str cb "id" = Some id -> get_str cb "name" = Some name -> id <> [] ->
    Forall2 json_delta ps vs -> typed v1 "content_block_stop" ->
    block_values (ToolBlock id name ps) (v0 :: vs ++ [v1]).

(** The events before the first block. *)
Definition preamble (v : Json.JsonValue) : Prop := typed v "message_start" \/ typed v "ping".
Definition ends_with (sr : list Z) (v : Json.JsonValue) : Prop :=
  typed v "message_delta" /\ exists delta, Json.get v (str "delta") = Some delta /\ get_str delta "stop_reason" = Some sr.

Definition message_values (bs : list block) (sr : list Z) (vs : list Json.JsonValue) : Prop :=
  exists pre bvs vd ve, vs = pre ++ concat bvs ++ [vd; ve] /\ Forall preamble pre /\ Forall2 block_values bs bvs /\
  ends_with sr vd /\ typed ve "message_stop".

(** What the blocks add up to. *)
Definition texts_of (b : block) : list (list Z) := match b with TextBlock ds => ds | ToolBlock _ _ _ => [] end.
Definition calls_of (b : block) : list ToolCall :=
  match b with TextBlock _ => [] | ToolBlock id name ps => [mkToolCall id name (concat ps)] end.
Definition message_text_of (bs : list block) : list Z := concat (concat (texts_of <$> bs)).
Definition message_of (bs : list block) (sr : list Z) : ClaudeResponse :=
  mkClaudeResponse (message_text_of bs) (concat (calls_of <$> bs)) sr.

(** *** Each event *)
Lemma on_value_start a v : typed v "content_block_start" -> on_value a v = (on_block_start a v, None).
Proof. intros Hv. unfold on_value. by rewrite Hv. Qed.
Lemma on_value_delta a v : typed v "content_block_delta" -> on_value a v = (on_block_delta a v, None).
Proof. intros Hv. unfold on_value. by rewrite Hv. Qed.
Lemma on_value_stop a v : typed v "content_block_stop" -> on_value a v = (on_block_stop a, None).
Proof. intros Hv. unfold on_value. by rewrite Hv. Qed.

Lemma run_text_deltas ds vs a :
  Forall2 text_delta ds vs ->
  run_values vs a =
    (mkAgent (text_response a ++ concat ds) (tool_calls a) (stop_reason a) (current_tool_id a) (current_tool_name a)
       (current_tool_input a) (a_tokens a ++ ds), None).
Proof.
  intros Hds. revert a. induction Hds as [|d v ds vs (Ht & delta & Hd & Hdt & Htx) Hds IH]; intros a.
  - cbn [run_values concat]. rewrite !app_nil_r. by destruct a.
  - cbn [run_values concat]. rewrite (on_value_delta a v Ht). unfold on_block_delta. rewrite Hd, Hdt, Htx.
    rewrite bool_decide_eq_true_2 by done. rewrite IH. cbn. by rewrite <- !app_assoc.
Qed.

Lemma run_json_deltas ps vs a :
  Forall2 json_delta ps vs ->
  run_values vs a =
    (mkAgent (text_response a) (tool_calls a) (stop_reason a) (current_tool_id a) (current_tool_name a)
       (current_tool_input a ++ concat ps) (a_tokens a), None).
Proof.
  intros Hps. revert a. induction Hps as [|p v ps vs (Ht & delta & Hd & Hdt & Htx) Hps IH]; intros a.
  - cbn [run_values concat]. rewrite !app_nil_r. by destruct a.
  - cbn [run_values concat]. rewrite (on_value_delta a v Ht). unfold on_block_delta. rewrite Hd, Hdt, Htx.
    rewrite bool_decide_eq_false_2 by done. rewrite bool_decide_eq_true_2 by done.
    rewrite IH. cbn. by rewrite <- !app_assoc.
Qed.

Lemma run_block b vs a :
  block_values b vs -> current_tool_id a = [] ->
  exists a', run_values vs a = (a', None) /\ current_tool_id a' = [] /\ stop_reason a' = stop_reason a /\
    text_response a' = text_response a ++ concat (texts_of b) /\
    tool_calls a' = tool_calls a ++ calls_of b /\ a_tokens a' = a_tokens a ++ texts_of b.
Proof.
  intros Hb Hid. destruct Hb as [v0 cb ds vs v1 H0 Hcb Ht Hds H1|v0 cb id name ps vs v1 H0 Hcb Ht Hi Hn Hne Hps H1];
    cbn [run_values]; rewrite (on_value_start a v0 H0), run_values_app; unfold on_block_start; rewrite Hcb, Ht.
  - rewrite bool_decide_eq_false_2 by done. rewrite (run_text_deltas ds vs a Hds). cbn [run_values].
    rewrite (on_value_stop _ v1 H1). unfold on_block_stop. cbn [current_tool_id]. rewrite Hid.
    eexists. split; [done|]. cbn. by rewrite !app_nil_r.
  - rewrite bool_decide_eq_true_2 by done. rewrite (run_json_deltas ps vs _ Hps). cbn [run_values].
    rewrite (on_value_stop _ v1 H1). unfold on_block_stop. cbn [current_tool_id]. rewrite Hi, Hn. change (default [] (Some ?x)) with x.
    rewrite bool_decide_eq_false_2 by done. eexists. split; [done|]. cbn. by rewrite !app_nil_r.
Qed.

Lemma run_blocks bs bvs a :
  Forall2 block_values bs bvs -> current_tool_id a = [] ->
  exists a', run_values (concat bvs) a = (a', None) /\ stop_reason a' = stop_reason a /\
    text_response a' = text_response a ++ message_text_of bs /\
    tool_calls a' = tool_calls a ++ concat (calls_of <$> bs) /\
    a_tokens a' = a_tokens a ++ concat (texts_of <$> bs).
Proof.
  intros Hbs. revert a. induction Hbs as [|b vs bs bvs Hb Hbs IH]; intros a Hid.
  - exists a. cbn. by rewrite !app_nil_r.
  - destruct (run_block b vs a Hb Hid) as (a1 & Hr & Hid1 & Hs1 & Ht1 & Hc1 & Hk1).
    destruct (IH a1 Hid1) as (a2 & Hr2 & Hs2 & Ht2 & Hc2 & Hk2). exists a2.
    cbn [concat]. rewrite run_values_app, Hr. split; [done|]. split; [congruence|].
    unfold message_text_of in *. cbn [fmap list_fmap concat]. rewrite concat_app.
    rewrite Ht2, Ht1, Hc2, Hc1, Hk2, Hk1. by rewrite <- !app_assoc.
Qed.

Lemma run_message bs sr vs :
  message_values bs sr vs ->
  exists a, run_values vs agent_start = (a, Some (Ok (message_of bs sr))) /\ a_tokens a = concat (texts_of <$> bs).
Proof.
  intros (pre & bvs & vd & ve & -> & Hpre & Hbs & (Htd & delta & Hd & Hsr) & Hte).
  assert (run_values pre agent_start = (agent_start, None)) as Hp.
  { induction Hpre as [|v pre Hv Hpre IH]; [done|]. cbn [run_values]. unfold on_value. destruct Hv as [Hv|Hv]; rewrite Hv; exact IH. }
  rewrite run_values_app, Hp, run_values_app.
  destruct (run_blocks bs bvs agent_start Hbs eq_refl) as (a & -> & _ & Ht & Hc & Hk). cbn [run_values].
  assert (on_value a vd = (on_message_delta a vd, None)) as -> by (unfold on_value; by rewrite Htd).
  assert (forall a', on_value a' ve = (a', Some (Ok (agent_response a')))) as Hstop.
  { intros a'. unfold on_value. by rewrite Hte. }
  rewrite Hstop. unfold on_message_delta. rewrite Hd. cbn [mbind option_bind]. rewrite Hsr.
  eexists (mkAgent _ _ _ _ _ _ _).
  split; [|exact Hk]. unfold agent_response, message_of. cbn [text_response tool_calls stop_reason].
  by rewrite Ht, Hc.
Qed.

(** *** Retrying *)
Definition waits (acts : list action) : Z := foldr (fun a s => match a with Wait us => us + s | Attempt => s end) 0 acts.
Definition attempts (acts : list action) : nat := length (filter (fun a => a = Attempt) acts).

(** An attempt whose failure is worth another one. *)
Definition transient {R} (o : out ApiError R) : bool :=
  match o with
  | Err (HttpStatus status _ _) => retryable status
  | Err ConnectionTimeout | Err ConnectionFailed => true
  | _ => false
  end.
(** The error reported for it when it is the last one. *)
Definition reported (e : ApiError) : ApiError :=
  match e with ConnectionFailed => ConnectionTimeout | e => e end.

Lemma waits_app l1 l2 : waits (l1 ++ l2) = waits l1 + waits l2.
Proof. induction l1 as [|[|us] l1 IH]; cbn [app waits foldr] in *; unfold waits in *; lia. Qed.

Lemma attempts_app l1 l2 : attempts (l1 ++ l2) = (attempts l1 + attempts l2)%nat.
Proof. unfold attempts. by rewrite filter_app, length_app. Qed.

Lemma backoff_waits n : (n <= 4)%nat -> 0 <= waits (backoff n) <= 8000000 /\ attempts (backoff n) = 0%nat.
Proof. intros Hn. assert (n = 0 \/ n = 1 \/ n = 2 \/ n = 3 \/ n = 4)%nat as H by lia. by repeat destruct H as [->|H]; subst. Qed.

Lemma retry_wait secs : 0 <= wrap64 (Z.min (wrap64 (secs * 1000)) 60000 * 1000) <= 60000000.
Proof. pose proof (wrap64_range (secs * 1000)). rewrite wrap64_small; lia. Qed.

(** The attempts made, from number [k] on, with [n] left: the last of them is
    the first that is not transient, or the budget is used up. *)
Lemma retry_loop_spec {R} (request : nat -> out ApiError R) n k e0 r acts :
  retry_loop request n k e0 = (r, acts) ->
  exists m, attempts acts = m /\ (m <= n)%nat /\
    (forall i, (i + 1 < m)%nat -> transient (request (k + i)%nat) = true) /\
    (if bool_decide (m = 0%nat) then n = 0%nat /\ r = Err e0
     else if transient (request (k + m - 1)%nat)
     then m = n /\ exists e, request (k + m - 1)%nat = Err e /\ r = Err (reported e)
     else r = request (k + m - 1)%nat).
Proof.
  revert k e0 r acts. induction n as [|n IH]; intros k e0 r acts Hr; [exists 0%nat; cbn in Hr; simplify_eq; repeat split; (done || lia)|].
  assert (attempts (backoff k ++ [Attempt]) = 1%nat) as Hb.
  { rewrite attempts_app. unfold backoff. by destruct (0 <? k)%nat. }
  cbn [retry_loop] in Hr.
  assert (forall o, request k = o -> transient o = false -> (r, acts) = (o, backoff k ++ [Attempt]) ->
    exists m, attempts acts = m /\ (m <= S n)%nat /\
    (forall i, (i + 1 < m)%nat -> transient (request (k + i)%nat) = true) /\
    (if bool_decide (m = 0%nat) then S n = 0%nat /\ r = Err e0
     else if transient (request (k + m - 1)%nat)
     then m = S n /\ exists e, request (k + m - 1)%nat = Err e /\ r = Err (reported e)
     else r = request (k + m - 1)%nat)) as Hdone.
  { intros o Ho Ht [= -> ->]. exists 1%nat. split; [done|]. split; [lia|]. split; [lia|]. cbn.
    replace (k + 1 - 1)%nat with k by lia. by rewrite Ho, Ht. }
  assert (forall e e1 w r1 acts1, request k = Err e -> transient (R := R) (Err e) = true -> e1 = reported e ->
    attempts w = 0%nat -> retry_loop request n (S k) e1 = (r1, acts1) ->
    (r, acts) = (r1, (backoff k ++ [Attempt]) ++ w ++ acts1) ->
    exists m, attempts acts = m /\ (m <= S n)%nat /\
    (forall i, (i + 1 < m)%nat -> transient (request (k + i)%nat) = true) /\
    (if bool_decide (m = 0%nat) then S n = 0%nat /\ r = Err e0
     else if transient (request (k + m - 1)%nat)
     then m = S n /\ exists e, request (k + m - 1)%nat = Err e /\ r = Err (reported e)
     else r = request (k + m - 1)%nat)) as Hmore.
  { intros e e1 w r1 acts1 He Ht He1 Hw Hloop [= -> ->]. destruct (IH _ _ _ _ Hloop) as (m & Hm & Hle & Hall & Hlast).
    exists (S m). split; [rewrite !attempts_app, <- attempts_app, Hb, Hw; lia|]. split; [lia|]. split.
    - intros [|i] Hi; [rewrite Nat.add_0_r; by rewrite He|]. replace (k + S i)%nat with (S k + i)%nat by lia. apply Hall. lia.
    - cbn. replace (k + S m - 1)%nat with (k + m)%nat by lia. destruct (decide (m = 0%nat)) as [->|Hne].
      + rewrite bool_decide_eq_true_2 in Hlast by done. destruct Hlast as [-> ->]. rewrite Nat.add_0_r, He, Ht.
        split; [done|]. exists e. by subst e1.
      + rewrite bool_decide_eq_false_2 in Hlast by done. replace (S k + m - 1)%nat with (k + m)%nat in Hlast by lia.
        destruct (transient (request (k + m)%nat)); [|done]. destruct Hlast as (-> & e' & ? & ?). split; [done|]. by exists e'. }
  destruct (request k) as [a|e|] eqn:Ho; [apply (Hdone _ eq_refl); [done|by rewrite <- Hr]| |apply (Hdone _ eq_refl); [done|by rewrite <- Hr]].
  destruct e as [| | | | |d|status msg ra|d]; try (apply (Hdone _ eq_refl); [done|by rewrite <- Hr]);
    try (destruct (retry_loop request n (S k) ConnectionTimeout) as [r1 acts1] eqn:Hl;
         eapply (Hmore _ _ [] r1 acts1 eq_refl); [done|done|done|exact Hl|by rewrite <- Hr]).
  destruct (retryable status) eqn:Hrt; [|apply (Hdone _ eq_refl); [done|by rewrite <- Hr]].
  destruct (retry_loop request n (S k) (HttpStatus status msg ra)) as [r1 acts1] eqn:Hl.
  eapply (Hmore _ _ _ r1 acts1 eq_refl); [done|done| |exact Hl|by rewrite <- Hr]. by destruct ra.
Qed.

(** The longest [n] attempts can wait, from number [k] on. *)
Fixpoint budget (n k : nat) : Z :=
  match n with O => 0 | S n => waits (backoff k) + 60000000 + budget n (S k) end.

Lemma backoff_nonneg k : 0 <= waits (backoff k).
Proof.
  unfold backoff. destruct (0 <? k)%nat; [|done]. unfold waits. cbn [foldr].
  pose proof (wrap64_range (BASE_DELAY_MS * Z.shiftl 1 (Z.min (Z.of_nat k - 1) 4) * 1000)). lia.
Qed.

Lemma retry_loop_waits {R} (request : nat -> out ApiError R) n k e0 r acts :
  retry_loop request n k e0 = (r, acts) -> 0 <= waits acts <= budget n k.
Proof.
  revert k e0 r acts. induction n as [|n IH]; intros k e0 r acts Hr; [cbn in Hr; by simplify_eq|].
  assert (waits (backoff k ++ [Attempt]) = waits (backoff k)) as Hb by (rewrite waits_app; cbn; lia).
  pose proof (backoff_nonneg k). cbn [retry_loop] in Hr. cbn [budget].
  assert (0 <= budget n (S k)) as Hbud.
  { clear. generalize (S k) as j. induction n as [|n IH]; intros j; cbn [budget]; [done|].
    pose proof (backoff_nonneg j). specialize (IH (S j)). lia. }
  assert (forall e1 w r1 acts1, retry_loop request n (S k) e1 = (r1, acts1) -> 0 <= waits w <= 60000000 ->
    (r, acts) = (r1, (backoff k ++ [Attempt]) ++ w ++ acts1) ->
    0 <= waits acts <= waits (backoff k) + 60000000 + budget n (S k)) as Hmore.
  { intros e1 w r1 acts1 Hl Hw [= -> ->]. pose proof (IH (S k) _ _ _ Hl).
    rewrite (waits_app (backoff k ++ [Attempt])), (waits_app w). lia. }
  assert ((r, acts) = (request k, backoff k ++ [Attempt]) ->
    0 <= waits acts <= waits (backoff k) + 60000000 + budget n (S k)) as Hdone by (intros [= -> ->]; lia).
  destruct (request k) as [a|e|]; [by apply Hdone| |by apply Hdone].
  destruct e as [| | | | |d|status msg ra|d]; try (by apply Hdone);
    try (destruct (retry_loop request n (S k) ConnectionTimeout) as [r1 acts1] eqn:Hl;
         eapply (Hmore _ [] r1 acts1); [exact Hl|done|by rewrite <- Hr]).
  destruct (retryable status); [|by apply Hdone].
  destruct (retry_loop request n (S k) (HttpStatus status msg ra)) as [r1 acts1] eqn:Hl.
  eapply (Hmore _ _ r1 acts1); [exact Hl| |by rewrite <- Hr]. destruct ra as [secs|]; [|done].
  pose proof (retry_wait secs). unfold waits. cbn [foldr]. lia.
Qed.

(** ** Properties *)

(** C7. A streamed agentic response decodes to the message it carries, however
    the network cuts it into reads: an HTTP success response whose body is the
    event stream of text and tool-use blocks gives exactly the concatenated
    text, the tool calls in order with their inputs assembled, and the stop
    reason; the tokens shown are the text deltas in order; what follows
    [message_stop] is ignored and the connection is closed. *)
Theorem agentic_stream_decodes request net cs fin resp es vs bs sr rest :
  connects net = true -> ready net = true -> opens net = true -> flushes net = true ->
  send_loop (zlen request) 0 (sends net) = true ->
  reads net = (Some <$> cs) ++ fin -> Forall (fun c => c <> []) cs -> ended fin ->
  concat cs = Http.render resp -> Http.response_ok resp ->
  Http.r_status resp = 200 \/ Http.r_status resp = 201 ->
  Http.r_body resp = stream es ++ rest -> Forall2 carries es vs -> message_values bs sr vs ->
  claude_request_tls_agentic request net = mkOutcome (Ok (message_of bs sr)) (concat (texts_of <$> bs)) true.
Proof.
  intros Hc Hr Ho Hf Hs Hreads Hcs Hfin Hcat Hresp Hst Hbody Hes Hmsg.
  unfold claude_request_tls_agentic. rewrite Hc, Hr, Ho, Hf, Hs, Hreads. cbn [negb].
  destruct (run_message bs sr vs Hmsg) as (a & Hrun & Htok).
  destruct (drain_stream es vs rest agent_start a _ Hes Hrun) as [raw Hdrain].
  assert (cs <> []) as Hne.
  { intros ->. unfold Http.render, Http.head_text, Http.status_line in Hcat. by simplify_eq. }
  pose proof (receive_concat on_event_agentic cs fin (mkR [] false agent_start) Hcs Hfin Hne) as Hrec.
  rewrite Hcat in Hrec.
  destruct (Http.parse_render resp Hresp) as [Hparse Hdrop].
  unfold on_bytes, on_headers in Hrec. cbn [headers_parsed raw_buf acc app] in Hrec. rewrite Hparse in Hrec.
  assert (Http.error_message (Http.mkHttpResponse (Http.r_status resp)
    (prod_map Http.to_ascii_lowercase id <$> Http.r_headers resp) (zlen (Http.head_text resp) + 4)) = None) as Herr.
  { unfold Http.error_message. cbn [Http.status]. by destruct Hst as [-> | ->]. }
  rewrite Herr in Hrec. cbn [Http.body_start] in Hrec. rewrite (proj2 (Z.leb_le _ _)) in Hrec.
  2: { apply Http.parse_body in Hparse. exact Hparse. }
  rewrite Hdrop, Hbody in Hrec. unfold on_events in Hrec. cbn [headers_parsed raw_buf acc] in Hrec.
  rewrite Hdrain in Hrec.
  destruct (receive on_event_agentic _ _) as [s [r|]]; cbn [observe acc] in Hrec; [|done].
  injection Hrec as -> ->. by rewrite Htok.
Qed.

(** C12. How the network cuts the response into reads does not matter: for the
    same bytes, each of the three request functions has the same result, shows
    the same tokens and closes the connection alike, on any data, malformed or
    not, and whether or not the response is complete. *)
Theorem api_chunking request net net' cs cs' fin :
  reads net = (Some <$> cs) ++ fin -> reads net' = (Some <$> cs') ++ fin ->
  Forall (fun c => c <> []) cs -> Forall (fun c => c <> []) cs' -> ended fin -> concat cs = concat cs' ->
  connects net = connects net' -> ready net = ready net' -> opens net = opens net' -> sends net = sends net' ->
  flushes net = flushes net' ->
  claude_request_tls_agentic request net = claude_request_tls_agentic request net' /\
  claude_request_tls request net = claude_request_tls request net' /\
  claude_request_plain request net = claude_request_plain request net'.
Proof.
  intros Hr1 Hr2 Hcs Hcs' Hfin Hcat Hc Hr Ho Hs Hf.
  pose proof (receive_chunking on_event_agentic cs cs' fin (mkR [] false agent_start) Hcs Hcs' Hfin Hcat) as Ha.
  pose proof (receive_chunking on_event_text cs cs' fin text_start Hcs Hcs' Hfin Hcat) as Ht.
  unfold claude_request_tls_agentic, claude_request_tls, claude_request_plain.
  rewrite Hr1, Hr2, Hc, Hr, Ho, Hs, Hf.
  destruct (receive on_event_agentic _ _) as [s1 [r1|]], (receive on_event_agentic _ _) as [s2 [r2|]];
    cbn [observe] in Ha; try done; injection Ha as Ha; try (intros Ha'); subst;
    destruct (receive on_event_text _ _) as [s3 [r3|]], (receive on_event_text _ _) as [s4 [r4|]];
    cbn [observe] in Ht; try done; simplify_eq; repeat match goal with H : acc _ = acc _ |- _ => rewrite H; clear H end; done.
Qed.

(** The retry loop ends: at most four attempts are made, with at most 247
    seconds of waiting in all.  Every attempt but the last failed in a way
    worth retrying; the result is the outcome of the last one, with a failed
    connection reported as a timeout when the attempts are used up. *)
Theorem api_retry_bounded {R} (request : nat -> out ApiError R) :
  exists m, attempts (with_retry request).2 = S m /\ (m <= 3)%nat /\
    0 <= waits (with_retry request).2 <= 247000000 /\
    (forall i, (i < m)%nat -> transient (request i) = true) /\
    (if transient (request m)
     then m = 3%nat /\ exists e, request m = Err e /\ (with_retry request).1 = Err (reported e)
     else (with_retry request).1 = request m).
Proof.
  destruct (with_retry request) as [r acts] eqn:Hr. unfold with_retry in Hr.
  destruct (retry_loop_spec _ _ _ _ _ _ Hr) as (m & Hm & Hle & Hall & Hlast).
  pose proof (retry_loop_waits _ _ _ _ _ _ Hr) as Hw.
  destruct m as [|m]; [rewrite bool_decide_eq_true_2 in Hlast by done; by destruct Hlast|].
  rewrite bool_decide_eq_false_2 in Hlast by done. cbn [Nat.add] in *. replace (S m - 1)%nat with m in Hlast by lia.
  unfold MAX_RETRIES in *. exists m. cbn [fst snd]. split; [done|]. split; [lia|]. split; [exact Hw|].
  split; [intros i Hi; apply Hall; lia|]. destruct (transient (request m)); [|done].
  destruct Hlast as (Heq & He). split; [lia|done].
Qed.


(** *** Concrete inputs *)
Lemma carries_tree name j :
  event_ok name (print j) -> tree_ok j -> carries (name, print j) (denote j).
Proof. intros Hok Hj. split; [exact Hok|]. by apply print_text. Qed.

Definition ev (t : string) (fields : list (list Z * tree)) : list Z * tree :=
  (str t, TObj ((str "type", TStr (str t)) :: fields)).
Definition delta_of (t k s : string) : list (list Z * tree) :=
  [(str "delta", TObj [(str "type", TStr (str t)); (str k, TStr (str s))])].
Definition sample_events : list (list Z * tree) := [
  ev "message_start" [];
  ev "content_block_start" [(str "content_block", TObj [(str "type", TStr (str "text"))])];
  ev "content_block_delta" (delta_of "text_delta" "text" "Let me ");
  ev "content_block_delta" (delta_of "text_delta" "text" "look.");
  ev "content_block_stop" [];
  ev "content_block_start" [(str "content_block",
    TObj [(str "type", TStr (str "tool_use")); (str "id", TStr (str "t1")); (str "name", TStr (str "list_dir"))])];
  ev "content_block_delta" (delta_of "input_json_delta" "partial_json" "[1,");
  ev "content_block_delta" (delta_of "input_json_delta" "partial_json" "2]");
  ev "content_block_stop" [];
  ev "message_delta" [(str "delta", TObj [(str "stop_reason", TStr (str "tool_use"))])];
  ev "message_stop" []].
Definition sample_texts : list (list Z * list Z) := prod_map id print <$> sample_events.
Definition sample_values : list Json.JsonValue := (fun e => denote (snd e)) <$> sample_events.
Definition sample_blocks : list block :=
  [TextBlock [str "Let me "; str "look."]; ToolBlock (str "t1") (str "list_dir") [str "[1,"; str "2]"]].
Definition sample_http : Http.response :=
  Http.mkResponse 200 (str "OK") [(str "Content-Type", str "text/event-stream")] (stream sample_texts ++ [7]).
Definition sample_chunks : list (list Z) :=
  let l := Http.render sample_http in [take 40 l; take 1 (drop 40 l); drop 41 l].
Definition sample_session : session := mkSession true true true [Some 5] true ((Some <$> sample_chunks) ++ [Some []]).

Lemma sample_carries : Forall2 carries sample_texts sample_values.
Proof.
  unfold sample_texts, sample_values. apply Forall2_fmap, Forall_Forall2_diag.
  apply (Forall_impl (fun e => event_ok (fst e) (print (snd e)) /\ tree_ok (snd e))).
  2: { intros [name j] [H1 H2]. by apply carries_tree. }
  apply Forall_and. split.
  - unfold event_ok, no_lf. apply (bool_decide_unpack _). vm_compute. exact I.
  - repeat constructor; first [by apply ascii_str | done | texts].
Qed.

Lemma sample_message : message_values sample_blocks (str "tool_use") sample_values.
Proof.
  exists (take 1 sample_values), [take 4 (drop 1 sample_values); take 4 (drop 5 sample_values)].
  eexists _, _. split; [reflexivity|]. split; [by repeat constructor|]. split; [|split; [split; [done|by eexists]|done]].
  constructor; [|constructor; [|constructor]].
  - eapply (BlockText _ _ _ [_; _]); try done. repeat constructor; by eexists.
  - eapply (BlockTool _ _ _ _ _ [_; _]); try done. repeat constructor; by eexists.
Qed.

Theorem agentic_stream_decodes_witness :
  claude_request_tls_agentic (str "hello") sample_session =
  mkOutcome (Ok (mkClaudeResponse (str "Let me look.") [mkToolCall (str "t1") (str "list_dir") (str "[1,2]")] (str "tool_use")))
    [str "Let me "; str "look."] true.
Proof.
  refine (agentic_stream_decodes (str "hello") sample_session sample_chunks [Some []] sample_http sample_texts
    sample_values sample_blocks (str "tool_use") [7] _ _ _ _ _ _ _ _ _ _ _ _ sample_carries sample_message).
  all: try reflexivity.
  - repeat constructor; by vm_compute.
  - split; [done|]. split; [by repeat constructor|]. split; [vm_compute; reflexivity|]. repeat constructor; done.
  - by left.
Defined.

Theorem api_chunking_witness :
  claude_request_tls_agentic (str "hello") sample_session =
  claude_request_tls_agentic (str "hello")
    (mkSession true true true [Some 5] true ((Some <$> [Http.render sample_http]) ++ [Some []])) /\
  claude_request_tls (str "hello") sample_session =
  claude_request_tls (str "hello")
    (mkSession true true true [Some 5] true ((Some <$> [Http.render sample_http]) ++ [Some []])) /\
  claude_request_plain (str "hello") sample_session =
  claude_request_plain (str "hello")
    (mkSession true true true [Some 5] true ((Some <$> [Http.render sample_http]) ++ [Some []])).
Proof.
  apply (api_chunking (str "hello") sample_session _ sample_chunks [Http.render sample_http] [Some []]); try reflexivity.
  - repeat constructor; by vm_compute.
  - repeat constructor; by vm_compute.
Defined.

End ApiClient.
