(* ===== verification/Nvme.v ===== *)
(** * NVMe queues and commands ([drivers/nvme/queue.rs], [drivers/nvme/command.rs])

    Submission and completion queues are rings of entries in DMA memory that
    the controller reads and writes too, so they are read and written at
    their byte addresses.  The state of an operation is [hw mem]: the shared
    memory with the page pool. *)
From S2P Require Import Prelude.
From S2P Require Import Bytes.
From S2P Require Import Bitmap.
From S2P Require Import Phys.
From S2P Require Import Dma.
From S2P Require Import Block.
From S2P Require Import Mem.

Module Nvme.

(** ** Submission entries *)
Record SubmissionEntry := mkSqe {
  cdw0 : Z; nsid : Z; cdw2 : Z; cdw3 : Z; mptr : Z; prp1 : Z; prp2 : Z;
  cdw10 : Z; cdw11 : Z; cdw12 : Z; cdw13 : Z; cdw14 : Z; cdw15 : Z;
}.
Definition SQE_SIZE : Z := 64.
Definition CQE_SIZE : Z := 16.

(** The [repr(C)] image. *)
Definition sqe_bytes (e : SubmissionEntry) : list Z :=
  le_bytes 4 (cdw0 e) ++ le_bytes 4 (nsid e) ++ le_bytes 4 (cdw2 e) ++ le_bytes 4 (cdw3 e) ++
  le_bytes 8 (mptr e) ++ le_bytes 8 (prp1 e) ++ le_bytes 8 (prp2 e) ++
  le_bytes 4 (cdw10 e) ++ le_bytes 4 (cdw11 e) ++ le_bytes 4 (cdw12 e) ++
  le_bytes 4 (cdw13 e) ++ le_bytes 4 (cdw14 e) ++ le_bytes 4 (cdw15 e).

Definition identify (nsid cns data_phys : Z) : SubmissionEntry :=
  mkSqe 0x06 nsid 0 0 0 data_phys 0 cns 0 0 0 0 0.
Definition create_io_cq (qid size cq_phys : Z) : SubmissionEntry :=
  mkSqe 0x05 0 0 0 0 cq_phys 0 (Z.lor (wrap32 (Z.shiftl (wrap32 (size - 1)) 16)) qid) 0x01 0 0 0 0.
Definition create_io_sq (qid size sq_phys cqid : Z) : SubmissionEntry :=
  mkSqe 0x01 0 0 0 0 sq_phys 0 (Z.lor (wrap32 (Z.shiftl (wrap32 (size - 1)) 16)) qid)
    (Z.lor (wrap32 (Z.shiftl cqid 16)) 0x01) 0 0 0 0.
Definition read (nsid lba nlb prp1 prp2 : Z) : SubmissionEntry :=
  mkSqe 0x02 nsid 0 0 0 prp1 prp2 (wrap32 lba) (wrap32 (Z.shiftr lba 32)) nlb 0 0 0.
Definition write (nsid lba nlb prp1 prp2 : Z) : SubmissionEntry :=
  mkSqe 0x01 nsid 0 0 0 prp1 prp2 (wrap32 lba) (wrap32 (Z.shiftr lba 32)) nlb 0 0 0.
Definition flush (nsid : Z) : SubmissionEntry := mkSqe 0x00 nsid 0 0 0 0 0 0 0 0 0 0 0.

Definition with_cdw0 (e : SubmissionEntry) (v : Z) : SubmissionEntry :=
  mkSqe v (nsid e) (cdw2 e) (cdw3 e) (mptr e) (prp1 e) (prp2 e)
    (cdw10 e) (cdw11 e) (cdw12 e) (cdw13 e) (cdw14 e) (cdw15 e).

(** ** Completion entries, by their fourth word *)
Definition cqe_phase (cid_status : Z) : bool := negb (Z.land cid_status 1 =? 0).
Definition cqe_status (cid_status : Z) : Z := wrap16 (Z.land (Z.shiftr cid_status 1) 0x7FFF).
Definition cqe_command_id (cid_status : Z) : Z := wrap16 (Z.shiftr cid_status 16).

(** ** Queue pairs *)
Record QueuePair := mkQueue {
  id : Z;
  sq_buf : DmaBuf;
  cq_buf : DmaBuf;
  sq_tail : Z;
  cq_head : Z;
  size : Z;
  cq_phase : bool;
  next_cid : Z;
}.

Definition pool_st {A} (m : st Phys.AllocatorInner Phys.AllocError A) : st (hw mem) Phys.AllocError A :=
  st_zoom pages (fun p w => mkHw (dev w) p) m.

(** [DmaBuf::alloc_aligned] with its zeroed pages, and the drop of a buffer. *)
Definition dma_alloc (bytes : Z) : st (hw mem) Phys.AllocError DmaBuf :=
  b ← pool_st (Dma.alloc_aligned bytes 1);
  w ← st_get;
  _ ← st_put (mkHw (store (dev w) (Dma.phys b) (replicate (Z.to_nat (Dma.page_count b * 4096)) 0)) (pages w));
  mret b.
Definition dma_drop {E} (b : DmaBuf) : st (hw mem) E unit := fun w =>
  match Dma.drop_buf b (pages w) with
  | Ok p => (Ok tt, mkHw (dev w) p)
  | _ => (Panic, w)
  end.

Definition queue_new (qid qsize : Z) : st (hw mem) Phys.AllocError QueuePair :=
  let sq_bytes := qsize ⊠ SQE_SIZE in
  let cq_bytes := qsize ⊠ CQE_SIZE in
  sq ← dma_alloc sq_bytes;
  (* an error drops the submission queue *)
  r ← st_try (dma_alloc cq_bytes);
  match r with
  | inr e => _ ← dma_drop sq; st_err e
  | inl cq => mret (mkQueue qid sq cq 0 0 qsize true 0)
  end.

Definition queue_drop {E} (q : QueuePair) : st (hw mem) E unit :=
  _ ← dma_drop (sq_buf q); dma_drop (cq_buf q).

Definition submit {E} (q : QueuePair) (entry : SubmissionEntry) (m : mem) : out E (QueuePair * mem) :=
  let cid := next_cid q in
  let entry := with_cdw0 entry (Z.lor (Z.land (cdw0 entry) 0xFFFF) (wrap32 (Z.shiftl cid 16))) in
  let offset := sq_tail q ⊠ SQE_SIZE in
  let m := store m (Dma.phys (sq_buf q) ⊞ offset) (sqe_bytes entry) in
  if size q =? 0 then Panic
  else Ok (mkQueue (id q) (sq_buf q) (cq_buf q) (wrap16 (sq_tail q + 1) mod size q) (cq_head q) (size q)
             (cq_phase q) (wrap16 (cid + 1)), m).

Definition load32 (m : mem) (a : Z) : Z := from_le (load m a 4).

Definition poll_completion {E} (q : QueuePair) (m : mem) : out E (option Z * QueuePair) :=
  let offset := cq_head q ⊠ CQE_SIZE in
  let cid_status := load32 m ((Dma.phys (cq_buf q) ⊞ offset) ⊞ 12) in
  if eqb (cqe_phase cid_status) (cq_phase q) then
    if size q =? 0 then Panic
    else
      let head := wrap16 (cq_head q + 1) mod size q in
      let phase := if head =? 0 then negb (cq_phase q) else cq_phase q in
      Ok (Some (cqe_status cid_status),
          mkQueue (id q) (sq_buf q) (cq_buf q) (sq_tail q) head (size q) phase (next_cid q))
  else Ok (None, q).

(** ** Errors *)
Definition classify_status (status : Z) : out NvmeError unit :=
  if status =? 0 then Ok tt
  else
    let sct := Z.land (Z.shiftr status 9) 0x7 in
    let sc := Z.land (Z.shiftr status 1) 0xFF in
    match sct with
    | 0 =>
        match sc with
        | 0x00 => Ok tt
        | 0x01 => Err (CommandFailed status)
        | 0x02 => Err (CommandFailed status)
        | 0x80 => Err MediaError
        | _ => Err (CommandFailed status)
        end
    | 2 => Err MediaError
    | _ => Err (CommandFailed status)
    end.

(** [SqliteIoError], as its codes. *)
Definition nvme_to_sqlite_error (err : NvmeError) : Z :=
  match err with
  | ControllerFatal => 1
  | Timeout => 5
  | CommandFailed _ => 266
  | DeviceNotFound => 14
  | NotInitialized => 14
  | OutOfMemory => 13
  | MediaError => 1290
  end.

(** ** Physical region pages *)
(** The loop [for i in 1..num_pages] that fills the list. *)
Definition fill_prp_list (base list_addr num_pages : Z) (m : mem) : mem :=
  foldl (fun m i => store64 m (list_addr ⊞ ((i - 1) * 8)) (base ⊞ i ⊠ 4096)) m (seqZ 1 (num_pages - 1)).

Definition build_prp_contiguous (base transfer_size : Z) : st (hw mem) Empty_set (Z * Z * option DmaBuf) :=
  let num_pages := ((transfer_size ⊞ 4096) ⊟ 1) / 4096 in
  if negb (num_pages ⊟ 1 <=? 512) then st_panic
  else
    r ← st_try (dma_alloc 4096);
    match r with
    | inr _ => st_panic
    | inl prp_list =>
        w ← st_get;
        _ ← st_put (mkHw (fill_prp_list base (Dma.phys prp_list) num_pages (dev w)) (pages w));
        mret (base, Dma.phys prp_list, Some prp_list)
    end.

Definition build_prp (buf : DmaBuf) (transfer_size : Z) : st (hw mem) Empty_set (Z * Z * option DmaBuf) :=
  let base := Dma.phys buf in
  if transfer_size <=? 4096 then mret (base, 0, None)
  else if transfer_size <=? 8192 then mret (base, base ⊞ 4096, None)
  else build_prp_contiguous base transfer_size.

(** ** The pages a controller transfers, from the two PRP fields of a command
    (NVMe 1.4, section 4.3): the second field is the second page, or the
    address of a list when there are more. *)
Definition prp_pages (m : mem) (p1 p2 : Z) (n : nat) : list Z :=
  match n with
  | O => []
  | S O => [p1]
  | S (S O) => [p1; p2]
  | S n => p1 :: ((fun i => load64 m (p2 + 8 * Z.of_nat i)) <$> seq 0 n)
  end.

Definition pages_needed (size : Z) : Z := (size + 4095) / 4096.

Lemma fill_prp_list_ok base a n m :
  0 <= base -> base + n * 4096 < 2 ^ 64 -> 0 <= a -> a + 4096 < 2 ^ 64 -> 1 <= n <= 513 ->
  (forall i, 1 <= i < n -> load64 (fill_prp_list base a n m) (a + 8 * (i - 1)) = base + i * 4096) /\
  same_but m (fill_prp_list base a n m) a (8 * (n - 1)).
Proof.
  intros Hb Hov Ha Hav Hn. unfold fill_prp_list.
  assert (forall k, (Z.of_nat k <= n - 1) ->
    (forall i, 1 <= i <= Z.of_nat k ->
       load64 (foldl (fun m i => store64 m (a ⊞ ((i - 1) * 8)) (base ⊞ i ⊠ 4096)) m (seqZ 1 (Z.of_nat k)))
         (a + 8 * (i - 1)) = base + i * 4096) /\
    same_but m (foldl (fun m i => store64 m (a ⊞ ((i - 1) * 8)) (base ⊞ i ⊠ 4096)) m (seqZ 1 (Z.of_nat k)))
      a (8 * Z.of_nat k)) as Hgen.
  { induction k as [|k IH]; intros Hk; [split; [lia|by intros x _]|].
    destruct (IH ltac:(lia)) as [Hl Hs].
    rewrite Nat2Z.inj_succ, <- Z.add_1_r, seqZ_app by lia. rewrite foldl_app.
    change (seqZ (1 + Z.of_nat k) 1) with [1 + Z.of_nat k]. cbn [foldl].
    set (m1 := foldl _ m (seqZ 1 (Z.of_nat k))) in *.
    replace (1 + Z.of_nat k - 1) with (Z.of_nat k) by lia. unwrap.
    pose proof (store64_same_but m1 (a + Z.of_nat k * 8) (base + (1 + Z.of_nat k) * 4096)) as Hst. split.
    - intros i Hi. destruct (decide (i = 1 + Z.of_nat k)) as [->|Hne].
      + replace (a + 8 * (1 + Z.of_nat k - 1)) with (a + Z.of_nat k * 8) by lia.
        rewrite load64_store64; [done|]. unfold is_u64. lia.
      + rewrite (load64_same m1); [apply Hl; lia|]. eapply same_but_at; [exact Hst|lia].
    - eapply same_but_trans; [eapply same_but_mono; [exact Hs|lia|lia]|].
      eapply same_but_mono; [exact Hst|lia|lia]. }
  destruct (Hgen (Z.to_nat (n - 1)) ltac:(lia)) as [Hl Hs]. rewrite Z2Nat.id in Hl, Hs by lia.
  split; [|exact Hs]. intros i Hi. apply Hl. lia.
Qed.

Lemma dma_alloc_ok bytes w :
  Phys.wf (pages w) -> 0 < bytes < 2 ^ 62 ->
  (exists p s', Phys.candidate_run (pages w) (pages_needed bytes) 1 p /\
     Phys.alloc_post (pages w) (pages_needed bytes) p s' /\
     let b := Dma.mkBuf (p * 4096) (replicate (Z.to_nat bytes) 0) (pages_needed bytes) in
     dma_alloc bytes w =
       (Ok b, mkHw (store (dev w) (p * 4096) (replicate (Z.to_nat (pages_needed bytes * 4096)) 0)) s') /\
     Dma.drop_buf b s' = Ok (pages w)) \/
  (dma_alloc bytes w = (Err Phys.OutOfMemory, w) /\ ~ Dma.room (pages w) bytes).
Proof.
  intros Hwf Hb. unfold dma_alloc, pool_st, st_zoom, Dma.alloc_aligned, Phys.PAGE_SIZE.
  destruct (Z.eqb_spec bytes 0); [lia|]. unwrap.
  replace ((bytes + 4096 - 1) / 4096) with (pages_needed bytes) by (unfold pages_needed; f_equal; lia).
  assert (0 < pages_needed bytes < 2 ^ 62) as Hn by (unfold pages_needed; lia).
  destruct (Phys.alloc_cases (pages w) (pages_needed bytes) 1) as [(p & s' & Ha & Hc & _ & Hpost)|[Ha Hnone]];
    [done|lia|unfold is_u64; lia|done| |].
  - left. exists p, s'. split; [done|]. split; [done|]. unfold mbind, st_bind. rewrite Ha. split; [done|].
    unfold Dma.drop_buf. cbn [Dma.phys Dma.page_count].
    apply (Phys.free_undoes (pages w) _ 1); [done|unfold is_u64; lia|unfold is_u64; lia|done].
  - right. unfold mbind, st_bind. rewrite Ha. split; [by destruct w|]. intros [q Hq]. by apply (Hnone q).
Qed.

(** A candidate page of the pool lies below 2^32. *)
Lemma candidate_bound s n p : Phys.wf s -> Phys.candidate_run s n 1 p -> 0 <= p /\ (p + n) * 4096 <= 2 ^ 32.
Proof. intros [_ Ht] (Hp & _ & Hend & _). pose proof Phys.MAX_PAGES_eq. lia. Qed.

Lemma prp_pages_list m base a n :
  3 <= n -> (forall i, 1 <= i < n -> load64 m (a + 8 * (i - 1)) = base + i * 4096) ->
  prp_pages m base a (Z.to_nat n) = (fun i => base + i * 4096) <$> seqZ 0 n.
Proof.
  intros Hn Hl. destruct (Z.to_nat n) as [|[|[|k]]] eqn:Hk; try lia.
  unfold prp_pages. rewrite seqZ_cons by lia. cbn [fmap list_fmap]. f_equal; [lia|].
  unfold seqZ. rewrite <- list_fmap_compose.
  replace (Z.to_nat (Z.pred n)) with (S (S k)) by lia.
  apply list_fmap_ext. intros j i Hj. apply lookup_seq in Hj as [-> Hlt]. cbn [Nat.add].
  specialize (Hl (Z.of_nat j + 1) ltac:(lia)). unfold compose.
  replace (8 * (Z.of_nat j + 1 - 1)) with (8 * Z.of_nat j) in Hl by lia. rewrite Hl. lia.
Qed.

(** ** The completion queue as a FIFO

    The controller posts at its own tail with its own phase tag, which it
    inverts when it wraps, and never has more than [size] completions
    outstanding; [posted] and [polled] are what has been posted and seen. *)
Record qsys := mkSys { qp : QueuePair; memory : mem; posted : list Z; polled : list Z }.

Definition even_lap (k n : Z) : bool := Z.even (k / n).
Definition slot_addr (q : QueuePair) (k : Z) : Z := Dma.phys (cq_buf q) + (k mod size q) * 16.

Inductive qstep : qsys -> qsys -> Prop :=
| QSubmit s e q' m' :
    @submit Empty_set (qp s) e (memory s) = Ok (q', m') ->
    qstep s (mkSys q' m' (posted s) (polled s))
| QPost s entry :
    zlen (posted s) - zlen (polled s) < size (qp s) -> zlen entry = 16 ->
    cqe_phase (from_le (slice entry 12 4)) = even_lap (zlen (posted s)) (size (qp s)) ->
    qstep s (mkSys (qp s) (store (memory s) (slot_addr (qp s) (zlen (posted s))) entry)
               (posted s ++ [cqe_status (from_le (slice entry 12 4))]) (polled s))
| QPoll s o q' :
    @poll_completion Empty_set (qp s) (memory s) = Ok (o, q') ->
    qstep s (mkSys q' (memory s) (posted s) (polled s ++ match o with Some st => [st] | None => [] end)).

(** A queue pair as [queue_new] makes it: zeroed, its buffers apart. *)
Definition fresh_sys (s : qsys) : Prop :=
  let q := qp s in
  sq_tail q = 0 /\ cq_head q = 0 /\ cq_phase q = true /\ 0 < size q < 2 ^ 16 /\
  0 <= Dma.phys (sq_buf q) <= 2 ^ 32 /\ 0 <= Dma.phys (cq_buf q) <= 2 ^ 32 /\
  (Dma.phys (sq_buf q) + size q * 64 <= Dma.phys (cq_buf q) \/
   Dma.phys (cq_buf q) + size q * 16 <= Dma.phys (sq_buf q)) /\
  (forall x, Dma.phys (cq_buf q) <= x < Dma.phys (cq_buf q) + size q * 16 -> load8 (memory s) x = 0) /\
  posted s = [] /\ polled s = [].

(** The word of the completion in slot [k mod size]. *)
Definition slot_word (s : qsys) (k : Z) : Z := load32 (memory s) (slot_addr (qp s) k + 12).

Record sys_inv (s : qsys) : Prop := {
  inv_size : 0 < size (qp s) < 2 ^ 16;
  inv_tail : 0 <= sq_tail (qp s) < size (qp s);
  inv_sq : 0 <= Dma.phys (sq_buf (qp s)) <= 2 ^ 32;
  inv_cq : 0 <= Dma.phys (cq_buf (qp s)) <= 2 ^ 32;
  inv_apart : Dma.phys (sq_buf (qp s)) + size (qp s) * 64 <= Dma.phys (cq_buf (qp s)) \/
    Dma.phys (cq_buf (qp s)) + size (qp s) * 16 <= Dma.phys (sq_buf (qp s));
  inv_window : zlen (polled s) <= zlen (posted s) <= zlen (polled s) + size (qp s);
  inv_prefix : polled s = take (length (polled s)) (posted s);
  inv_head : cq_head (qp s) = zlen (polled s) mod size (qp s);
  inv_phase : cq_phase (qp s) = even_lap (zlen (polled s)) (size (qp s));
  inv_posted : forall k, Z.max 0 (zlen (posted s) - size (qp s)) <= k < zlen (posted s) ->
    cqe_phase (slot_word s k) = even_lap k (size (qp s)) /\
    posted s !! Z.to_nat k = Some (cqe_status (slot_word s k));
  inv_empty : forall k, zlen (posted s) <= k < size (qp s) -> slot_word s k = 0;
}.

Lemma lap_next k n : 0 < n -> 0 <= k ->
  (k + 1) mod n = (k mod n + 1) mod n /\
  even_lap (k + 1) n = if (k mod n + 1) mod n =? 0 then negb (even_lap k n) else even_lap k n.
Proof.
  intros Hn Hk. unfold even_lap. pose proof (Z.mod_pos_bound k n Hn) as Hm. pose proof (Z.div_mod k n ltac:(lia)) as Hd.
  assert ((k + 1) mod n = (k mod n + 1) mod n) as Hmod.
  { rewrite Z.add_mod_idemp_l by lia. done. }
  split; [done|]. destruct (decide (k mod n + 1 = n)) as [He|Hne].
  - rewrite He, Z.mod_same by lia. cbn [Z.eqb].
    replace ((k + 1) / n) with (k / n + 1). 2: { apply (Z.div_unique _ _ _ 0); nia. }
    rewrite Z.add_1_r, Z.even_succ. by rewrite <- Z.negb_even.
  - rewrite (Z.mod_small (k mod n + 1)) by lia. rewrite (proj2 (Z.eqb_neq _ _)) by lia.
    f_equal. symmetry. apply (Z.div_unique _ _ _ (k mod n + 1)); [lia|]. lia.
Qed.

Lemma slot_bounds s k :
  sys_inv s -> Dma.phys (cq_buf (qp s)) <= slot_addr (qp s) k /\
  slot_addr (qp s) k + 16 <= Dma.phys (cq_buf (qp s)) + size (qp s) * 16.
Proof. intros Hi. unfold slot_addr. pose proof (inv_size s Hi). pose proof (Z.mod_pos_bound k (size (qp s)) ltac:(lia)). nia. Qed.

Lemma load32_same m m' a : same_at m m' a 4 -> load32 m' a = load32 m a.
Proof. intros Hs. unfold load32. by rewrite (load_same _ _ _ _ Hs). Qed.

(** What a poll sees: the next completion that was posted, if any. *)
Lemma poll_sees s :
  sys_inv s -> exists q', @poll_completion Empty_set (qp s) (memory s) = Ok (posted s !! length (polled s), q') /\
    (posted s !! length (polled s) = None -> q' = qp s) /\
    (is_Some (posted s !! length (polled s)) ->
     q' = mkQueue (id (qp s)) (sq_buf (qp s)) (cq_buf (qp s)) (sq_tail (qp s))
            ((zlen (polled s) + 1) mod size (qp s)) (size (qp s))
            (even_lap (zlen (polled s) + 1) (size (qp s))) (next_cid (qp s))).
Proof.
  intros Hi. pose proof (inv_size s Hi) as Hsz. pose proof (inv_cq s Hi) as Hcq. pose proof (inv_window s Hi) as Hw.
  pose proof (zlen_nonneg (polled s)) as H0.
  set (h := zlen (polled s)) in *. set (n := size (qp s)) in *.
  pose proof (Z.mod_pos_bound h n ltac:(lia)) as Hm.
  unfold poll_completion. rewrite (inv_head s Hi), (inv_phase s Hi). fold h n.
  rewrite (wrap64_small (h mod n * CQE_SIZE)) by (unfold CQE_SIZE; lia). unfold CQE_SIZE. unwrap.
  change (load32 (memory s) (Dma.phys (cq_buf (qp s)) + h mod n * 16 + 12)) with (slot_word s h).
  destruct (lap_next h n ltac:(lia) H0) as [Hnext Hlap].
  destruct (decide (h < zlen (posted s))) as [Hlt|Hge].
  - destruct (inv_posted s Hi h) as [Hp Hst]; [fold n; lia|]. fold n in Hp. rewrite Hp, eqb_reflx.
    rewrite (proj2 (Z.eqb_neq n 0)) by lia. rewrite wrap16_small by lia.
    assert (Z.to_nat h = length (polled s)) as Hh by (unfold h, zlen; lia). rewrite Hh in Hst.
    eexists. rewrite Hst. split; [done|]. split; [done|]. intros _. by rewrite <- Hnext, Hlap, Hnext.
  - assert (posted s !! length (polled s) = None) as Hnone.
    { apply lookup_ge_None_2. unfold h, zlen in *. lia. }
    assert (cqe_phase (slot_word s h) = negb (even_lap h n)) as Hp.
    { destruct (decide (h < n)) as [Hsmall|Hbig].
      - rewrite (inv_empty s Hi h) by (fold n; lia). unfold even_lap. by rewrite Z.div_small by lia.
      - assert (slot_word s h = slot_word s (h - n)) as ->.
        { unfold slot_word, slot_addr. fold n. do 3 f_equal. replace (h - n) with (h + (-1) * n) by lia. f_equal. by rewrite Z.mod_add by lia. }
        destruct (inv_posted s Hi (h - n)) as [Hp _]; [fold n; lia|]. fold n in Hp. rewrite Hp. unfold even_lap.
        replace (h - n) with (h + (-1) * n) by lia. rewrite Z.div_add by lia.
        replace (h / n + -1) with (Z.pred (h / n)) by lia. rewrite Z.even_pred, <- Z.negb_even. by rewrite negb_involutive || done. }
    rewrite Hp. exists (qp s). rewrite Hnone. assert (eqb (negb (even_lap h n)) (even_lap h n) = false) as -> by by destruct (even_lap h n).
    split; [done|]. split; [done|]. by intros [? ?].
Qed.


Lemma load_store_slice m a bs off n :
  0 <= off -> 0 <= n -> off + n <= zlen bs -> load (store m a bs) (a + off) n = slice bs off n.
Proof.
  intros Ho Hn Hb. apply list_eq. intros i.
  destruct (decide (Z.of_nat i < n)) as [Hi|Hi].
  - replace i with (Z.to_nat (Z.of_nat i)) by lia. rewrite load_lookup by lia.
    rewrite load8_store, bool_decide_eq_true_2 by lia. rewrite lookup_slice by lia.
    replace (Z.to_nat (a + off + Z.of_nat i - a)) with (Z.to_nat off + Z.to_nat (Z.of_nat i))%nat by lia.
    destruct (lookup_lt_is_Some_2 bs (Z.to_nat off + Z.to_nat (Z.of_nat i))) as [b Hb']; [unfold zlen in *; lia|].
    by rewrite Hb'.
  - rewrite !lookup_ge_None_2; [done| |].
    + pose proof (zlen_slice bs off n Ho Hn). unfold zlen in *. lia.
    + pose proof (zlen_load (store m a bs) (a + off) n Hn). unfold zlen in *. lia.
Qed.

Lemma zlen_sqe e : zlen (sqe_bytes e) = 64.
Proof. unfold sqe_bytes. rewrite !zlen_app, !zlen_le_bytes. lia. Qed.

(** Distinct completions among [size] consecutive ones are in distinct slots. *)
Lemma slots_apart q k d :
  0 < size q -> 0 <= k < d -> d < k + size q ->
  slot_addr q k + 16 <= slot_addr q d \/ slot_addr q d + 16 <= slot_addr q k.
Proof.
  intros Hn Hk Hd. unfold slot_addr. assert (k mod size q <> d mod size q) as Hne.
  { intros He. pose proof (Z.div_mod k (size q) ltac:(lia)) as H1. pose proof (Z.div_mod d (size q) ltac:(lia)) as H2.
    assert (d - k = size q * (d / size q - k / size q)) as Hz by lia. clear H1 H2 He.
    destruct (Z.le_gt_cases 1 (d / size q - k / size q)); nia. }
  lia.
Qed.

Lemma ok_pair_inj {E A B} (a c : A) (b d : B) : @Ok E _ (a, b) = Ok (c, d) -> a = c /\ b = d.
Proof. by intros [= -> ->]. Qed.

Lemma submit_inv s e q' m' :
  sys_inv s -> @submit Empty_set (qp s) e (memory s) = Ok (q', m') -> sys_inv (mkSys q' m' (posted s) (polled s)).
Proof.
  intros Hi Hs. pose proof (inv_size s Hi) as Hn. pose proof (inv_tail s Hi) as Ht. pose proof (inv_sq s Hi) as Hsq.
  pose proof (inv_apart s Hi) as Hap.
  unfold submit in Hs. destruct (Z.eqb_spec (size (qp s)) 0); [lia|].
  set (e' := with_cdw0 e _) in *. rewrite (wrap64_small (sq_tail (qp s) * SQE_SIZE)) in Hs by (unfold SQE_SIZE; lia).
  unfold SQE_SIZE in Hs. rewrite wrap64_small in Hs by lia. rewrite wrap16_small in Hs by lia.
  apply ok_pair_inj in Hs as [<- <-]. set (m' := store _ _ _). set (q' := mkQueue _ _ _ _ _ _ _ _).
  assert (forall k, slot_word (mkSys q' m' (posted s) (polled s)) k = slot_word s k) as Hw.
  { intros k. unfold slot_word. cbn [memory qp].
    change (slot_addr q' k) with (slot_addr (qp s) k). apply load32_same. pose proof (slot_bounds s k Hi).
    eapply same_but_at; [apply store_same_but|]. rewrite zlen_sqe. lia. }
  pose proof (Z.mod_pos_bound (sq_tail (qp s) + 1) (size (qp s)) ltac:(lia)).
  constructor; cbn [qp memory posted polled]; try apply Hi; try done.
  - intros k Hk. rewrite !Hw. by apply Hi.
  - intros k Hk. rewrite Hw. by apply Hi.
Qed.

Lemma post_inv s entry :
  sys_inv s -> zlen (posted s) - zlen (polled s) < size (qp s) -> zlen entry = 16 ->
  cqe_phase (from_le (slice entry 12 4)) = even_lap (zlen (posted s)) (size (qp s)) ->
  sys_inv (mkSys (qp s) (store (memory s) (slot_addr (qp s) (zlen (posted s))) entry)
             (posted s ++ [cqe_status (from_le (slice entry 12 4))]) (polled s)).
Proof.
  intros Hi Hroom Hlen Hph. pose proof (inv_size s Hi) as Hn. pose proof (inv_window s Hi) as Hw.
  pose proof (zlen_nonneg (polled s)). set (d := zlen (posted s)) in *. set (s' := mkSys _ _ _ _).
  assert (slot_word s' d = from_le (slice entry 12 4)) as Hd.
  { unfold slot_word, s', load32. cbn [memory qp]. by rewrite load_store_slice by lia. }
  assert (forall k, slot_addr (qp s) k + 16 <= slot_addr (qp s) d \/ slot_addr (qp s) d + 16 <= slot_addr (qp s) k ->
    slot_word s' k = slot_word s k) as Hother.
  { intros k Hk. unfold slot_word, s'. cbn [memory qp]. apply load32_same.
    eapply same_but_at; [apply store_same_but|]. rewrite Hlen. lia. }
  assert (zlen (posted s') = d + 1) as Hd1 by (unfold s'; cbn [posted]; rewrite zlen_app; done).
  constructor; cbn [qp memory]; try apply Hi.
  - rewrite Hd1. unfold s'. cbn [polled qp]. lia.
  - unfold s'. cbn [polled posted]. rewrite take_app_le by (unfold d, zlen in *; lia). apply Hi.
  - rewrite Hd1. change (qp s') with (qp s). intros k Hk. destruct (decide (k = d)) as [->|Hne].
    + rewrite Hd. split; [done|]. unfold s'. cbn [posted].
      assert (Z.to_nat d = length (posted s)) as -> by (unfold d, zlen; lia). by apply list_lookup_middle.
    + rewrite Hother by (apply slots_apart; lia). unfold s'. cbn [posted].
      rewrite lookup_app_l by (unfold d, zlen in *; lia). apply Hi. fold d. lia.
  - rewrite Hd1. change (qp s') with (qp s). intros k Hk. rewrite Hother; [apply Hi; fold d; lia|].
    destruct (slots_apart (qp s) d k); [lia|unfold d; pose proof (zlen_nonneg (posted s)); lia|lia| |]; [by right|by left].
Qed.

Lemma poll_inv s o q' :
  sys_inv s -> @poll_completion Empty_set (qp s) (memory s) = Ok (o, q') ->
  sys_inv (mkSys q' (memory s) (posted s) (polled s ++ match o with Some st => [st] | None => [] end)).
Proof.
  intros Hi Hp. destruct (poll_sees s Hi) as (q1 & Hq & Hnone & Hsome). rewrite Hq in Hp. injection Hp as <- <-.
  destruct (posted s !! length (polled s)) as [st|] eqn:Hl.
  2: { rewrite (Hnone eq_refl), app_nil_r. by destruct s. }
  rewrite Hsome by done. set (q' := mkQueue _ _ _ _ _ _ _ _). set (s' := mkSys _ _ _ _).
  pose proof (lookup_lt_Some _ _ _ Hl) as Hlt. pose proof (inv_window s Hi) as Hw.
  assert (zlen (polled s') = zlen (polled s) + 1) as Hz by (unfold s'; cbn [polled]; rewrite zlen_app; done).
  assert (forall k, slot_word s' k = slot_word s k) as Hsw by done.
  constructor; rewrite ?Hz; try apply Hi; try done.
  - change (posted s') with (posted s). change (size (qp s')) with (size (qp s)). unfold zlen in *. lia.
  - unfold s'. cbn [polled posted]. rewrite length_app. cbn [length]. rewrite Nat.add_1_r.
    rewrite (take_S_r _ _ _ Hl). by rewrite <- (inv_prefix s Hi).
Qed.

Lemma fresh_sys_inv s : fresh_sys s -> sys_inv s.
Proof.
  intros (Ht & Hh & Hp & Hn & Hsq & Hcq & Hap & Hz & Hpo & Hpl).
  constructor; rewrite ?Hpo, ?Hpl, ?zlen_nil; try done; try lia.
  - intros k Hk. unfold zlen in Hk. cbn [length Z.of_nat] in Hk. lia.
  - intros k Hk. unfold slot_word, slot_addr. rewrite Z.mod_small by lia.
    assert (load (memory s) (Dma.phys (cq_buf (qp s)) + k * 16 + 12) 4 = [0; 0; 0; 0]) as Hl.
    { unfold load. do 4 (rewrite seqZ_cons by lia). rewrite seqZ_nil by lia. cbn [fmap list_fmap]. by rewrite !Hz by lia. }
    unfold load32. by rewrite Hl.
Qed.

Lemma steps_inv s s' : rtc qstep s s' -> sys_inv s -> sys_inv s'.
Proof.
  induction 1 as [|s1 s2 s3 Hs _ IH]; [done|]. intros Hi. apply IH. clear IH s3.
  destruct Hs; [by eapply submit_inv|by apply post_inv|by apply poll_inv].
Qed.

(** The last word of a completion as the specification lays it out (NVMe
    1.4, figure 124): command identifier in bits 15:0, phase tag in bit 16,
    status in bits 31:17. *)
Definition spec_word (status : Z) (phase_tag : bool) (cid : Z) : Z :=
  Z.lor (Z.shiftl status 17) (Z.lor (Z.shiftl (if phase_tag then 1 else 0) 16) cid).

(** The driver takes the phase from bit 0, which belongs to the identifier. *)
Lemma spec_word_phase status phase_tag cid : cqe_phase (spec_word status phase_tag cid) = Z.odd cid.
Proof.
  unfold cqe_phase, spec_word. change (Z.land ?x 1) with (Z.land x (Z.ones 1)). rewrite Z.land_ones by lia.
  change (2 ^ 1) with 2. rewrite <- Z.bit0_mod, <- Z.bit0_odd.
  rewrite !Z.lor_spec, !Z.shiftl_spec, !(Z.testbit_neg_r _ (0 - _)) by lia. cbn [orb].
  by destruct (Z.testbit cid 0).
Qed.

(** ** Properties *)


(** C16. The PRP fields of a transfer name exactly the pages of the buffer, in
    order, for every size up to 513 pages: directly up to two pages, through
    a list in a page of its own beyond.  The list page is taken from the free
    pool, nothing else in memory changes, and dropping it gives the pool back.
    A larger transfer, or a third page with the pool exhausted, panics. *)
Theorem nvme_prp_correct buf bytes w :
  Phys.wf (pages w) -> 0 < bytes < 2 ^ 62 -> 0 <= Dma.phys buf < 2 ^ 32 ->
  let n := pages_needed bytes in
  (n <= 2 \/ (n <= 513 /\ Dma.room (pages w) 4096) ->
    exists p1 p2 l w', build_prp buf bytes w = (Ok (p1, p2, l), w') /\
      prp_pages (dev w') p1 p2 (Z.to_nat n) = ((fun i => Dma.phys buf + i * 4096) <$> seqZ 0 n) /\
      match l with
      | None => w' = w
      | Some b => same_but (dev w) (dev w') (Dma.phys b) 4096 /\
          ~ (Dma.phys b / 4096 ∈ Phys.used_pages (pages w)) /\ (4096 | Dma.phys b) /\
          @dma_drop Empty_set b w' = (Ok tt, mkHw (dev w') (pages w))
      end) /\
  (~ (n <= 2 \/ (n <= 513 /\ Dma.room (pages w) 4096)) -> fst (build_prp buf bytes w) = Panic).
Proof.
  intros Hwf Hb Hp n. unfold build_prp. assert (n = (bytes + 4095) / 4096) as Hn by done.
  destruct (Z.leb_spec bytes 4096) as [H1|H1].
  { assert (n = 1) as -> by lia. split; [intros _|intros Hno; destruct Hno; lia].
    eexists _, _, _, _. split; [done|]. split; [|done].
    change (seqZ 0 1) with [0]. change (Z.to_nat 1) with 1%nat. cbn [prp_pages fmap list_fmap]. f_equal. lia. }
  destruct (Z.leb_spec bytes 8192) as [H2|H2].
  { assert (n = 2) as -> by lia. split; [intros _|intros Hno; destruct Hno; lia].
    eexists _, _, _, _. split; [done|]. split; [|done].
    unwrap. change (seqZ 0 2) with [0; 1]. change (Z.to_nat 2) with 2%nat. cbn [prp_pages fmap list_fmap]. replace (Dma.phys buf + 0 * 4096) with (Dma.phys buf) by lia. by rewrite Z.mul_1_l. }
  unfold build_prp_contiguous. unwrap.
  replace ((bytes + 4096 - 1) / 4096) with n by (rewrite Hn; f_equal; lia). unwrap.
  destruct (Z.leb_spec (n - 1) 512) as [Hle|Hgt]; cbn [negb].
  2: { split; [intros [?|[? _]]; lia|done]. }
  unfold st_try, mbind, st_bind.
  destruct (dma_alloc_ok 4096 w Hwf ltac:(lia)) as [(p & s' & Hc & Hpost & Ha & Hd)|[Ha Hno]].
  2: { rewrite Ha. split; [intros [?|[_ ?]]; [lia|done]|done]. }
  rewrite Ha. split; [intros _|intros Hno; destruct Hno; right; split; [lia|by exists p]].
  pose proof (candidate_bound _ _ _ Hwf Hc) as [Hp0 Hpb].
  change (pages_needed 4096) with 1 in *. set (m0 := store _ _ _).
  destruct (fill_prp_list_ok (Dma.phys buf) (p * 4096) n m0 ltac:(lia) ltac:(lia) ltac:(lia) ltac:(lia) ltac:(lia))
    as [Hl Hs].
  eexists _, _, _, _. split; [reflexivity|]. cbn [Dma.phys dev pages]. split.
  - apply prp_pages_list; [lia|exact Hl].
  - split; [|split; [|split]].
    + eapply same_but_trans; [|eapply same_but_mono; [exact Hs|lia|lia]].
      pose proof (store_same_but (dev w) (p * 4096) (replicate (Z.to_nat (1 * 4096)) 0)) as Hst.
      by rewrite zlen_replicate, Z2Nat.id in Hst by lia.
    + rewrite Z.div_mul by lia. destruct Hc as (_ & _ & _ & Hrun). apply (run_free_disjoint _ Phys.MAX_PAGES) in Hrun.
      intros Hin. apply (Hrun p Hin). apply elem_of_zrange. lia.
    + by exists p.
    + unfold dma_drop. cbn [pages]. by rewrite Hd.
Qed.

(** ** Witnesses *)
Definition sample_queue : QueuePair :=
  mkQueue 1 (Dma.mkBuf 4096 [] 1) (Dma.mkBuf 8192 [] 1) 0 0 2 true 0.
Definition sample_entry : list Z := replicate 12 0 ++ [0x0b; 0; 0; 0].
Definition sample_start : qsys := mkSys sample_queue ∅ [] [].
Definition sample_posted : qsys := mkSys sample_queue (store ∅ 8192 sample_entry) [5] [].
Definition sample_pool : hw mem := mkHw ∅ Phys.demo.

Lemma sample_post : rtc qstep sample_start sample_posted.
Proof. apply rtc_once. exact (QPost sample_start sample_entry eq_refl eq_refl eq_refl). Qed.

Lemma sample_fresh : fresh_sys sample_start.
Proof. unfold fresh_sys. cbn. split_and!; first [done|lia]. Qed.


Lemma sample_room : Dma.room Phys.demo 4096.
Proof.
  destruct (dma_alloc_ok 4096 sample_pool Phys.demo_wf ltac:(lia)) as [(p & s' & Hc & _)|[He _]]; [by exists p|].
  apply (f_equal (fun r => match fst r with Ok _ => true | _ => false end)) in He. vm_compute in He. done.
Qed.

Lemma nvme_prp_correct_witness :
  exists p1 p2 l w', build_prp (Dma.mkBuf 0x200000 [] 3) 12288 sample_pool = (Ok (p1, p2, l), w') /\
    prp_pages (dev w') p1 p2 3 = [0x200000; 0x201000; 0x202000].
Proof.
  destruct (nvme_prp_correct (Dma.mkBuf 0x200000 [] 3) 12288 sample_pool Phys.demo_wf ltac:(lia) ltac:(cbn; lia))
    as [Hok _].
  destruct Hok as (p1 & p2 & l & w' & H1 & H2 & _); [right; split; [done|exact sample_room]|].
  exists p1, p2, l, w'. split; [exact H1|exact H2].
Defined.

End Nvme.
