(* ===== verification/NvmeDriver.v ===== *)
(** * NVMe driver ([drivers/nvme/mod.rs])

    Controller initialisation and the block operations, over a controller
    that is a parameter: [Controller] gives the effect of register accesses
    and what the controller has done to the shared memory by the next time the
    driver looks.  [poll_with_timeout] runs until a clock value; here the
    number of polls that fit is the parameter [polls]. *)
From S2P Require Import Prelude.
From S2P Require Import Bytes.
From S2P Require Import Bitmap.
From S2P Require Import Phys.
From S2P Require Import Dma.
From S2P Require Import Block.
From S2P Require Import Mem.
From S2P Require Import Nvme.

Module NvmeDriver.
Import Nvme.

(** ** Registers *)
Definition CAP : Z := 0x00.
Definition CC : Z := 0x14.
Definition CSTS : Z := 0x1C.
Definition AQA : Z := 0x24.
Definition ASQ : Z := 0x28.
Definition ACQ : Z := 0x30.
Definition SQ0TDBL : Z := 0x1000.

(** A controller: register reads and writes, and [tick], what it does on its
    own to its state and the memory. *)
Class Controller (C : Type) := {
  ctl_read32 : Z -> C -> Z * C;
  ctl_read64 : Z -> C -> Z * C;
  ctl_write32 : Z -> Z -> C -> C;
  ctl_write64 : Z -> Z -> C -> C;
  tick : C -> mem -> C * mem;
}.

Record NamespaceInfo := mkNs { ns_nsid : Z; ns_block_count : Z; ns_block_size : Z; metadata_size : Z }.

Record Driver := mkDriver {
  doorbell_stride : Z;
  admin_queue : option QueuePair;
  io_queue : option QueuePair;
  ns_info : option NamespaceInfo;
}.

Record nstate (C : Type) := mkN { ctl : C; ram : mem; drv : Driver }.
Arguments mkN {C} ctl ram drv.
Arguments ctl {C} n.
Arguments ram {C} n.
Arguments drv {C} n.

Section driver.
Context {C : Type} `{Controller C}.
Variable polls : nat.

Definition M (A : Type) : Type := st (hw (nstate C)) NvmeError A.

(** Access to the parts of the state. *)
Definition get_drv : M Driver := fun w => (Ok (drv (dev w)), w).
Definition set_drv (d : Driver) : M unit := fun w =>
  (Ok tt, mkHw (mkN (ctl (dev w)) (ram (dev w)) d) (pages w)).
Definition on_ram {E A} (f : E -> NvmeError) (m : st (hw mem) E A) : M A := fun w =>
  let '(r, w') := m (mkHw (ram (dev w)) (pages w)) in
  (map_err f r, mkHw (mkN (ctl (dev w)) (dev w') (drv (dev w))) (pages w')).
Definition read_reg32 (off : Z) : M Z := fun w =>
  let '(v, c) := ctl_read32 off (ctl (dev w)) in (Ok v, mkHw (mkN c (ram (dev w)) (drv (dev w))) (pages w)).
Definition read_reg64 (off : Z) : M Z := fun w =>
  let '(v, c) := ctl_read64 off (ctl (dev w)) in (Ok v, mkHw (mkN c (ram (dev w)) (drv (dev w))) (pages w)).
Definition write_reg32 (off v : Z) : M unit := fun w =>
  (Ok tt, mkHw (mkN (ctl_write32 off v (ctl (dev w))) (ram (dev w)) (drv (dev w))) (pages w)).
Definition write_reg64 (off v : Z) : M unit := fun w =>
  (Ok tt, mkHw (mkN (ctl_write64 off v (ctl (dev w))) (ram (dev w)) (drv (dev w))) (pages w)).
Definition ticks : M unit := fun w =>
  let '(c, m) := tick (ctl (dev w)) (ram (dev w)) in (Ok tt, mkHw (mkN c m (drv (dev w))) (pages w)).

(** [submit] and [poll_completion] on a queue pair, in the shared memory. *)
Definition do_submit (q : QueuePair) (cmd : SubmissionEntry) : M QueuePair := fun w =>
  match submit q cmd (ram (dev w)) with
  | Ok (q', m) => (Ok q', mkHw (mkN (ctl (dev w)) m (drv (dev w))) (pages w))
  | Err e => (Err e, w)
  | Panic => (Panic, w)
  end.
Definition do_poll (q : QueuePair) : M (option Z * QueuePair) := fun w =>
  (poll_completion q (ram (dev w)), w).

(** [poll_with_timeout(|| q.poll_completion(), IO_TIMEOUT_MS)]: poll, then
    look at the clock. *)
Fixpoint poll_loop (n : nat) (q : QueuePair) : M (option Z * QueuePair) :=
  _ ← ticks;
  r ← do_poll q;
  match r with
  | (Some status, q) => mret (Some status, q)
  | (None, q) =>
      match n with
      | O => mret (None, q)
      | S n => poll_loop n q
      end
  end.
Definition poll_with_timeout (q : QueuePair) : M (option Z * QueuePair) := poll_loop polls q.

Definition set_admin (q : option QueuePair) : M unit :=
  d ← get_drv; set_drv (mkDriver (doorbell_stride d) q (io_queue d) (ns_info d)).
Definition set_io (q : option QueuePair) : M unit :=
  d ← get_drv; set_drv (mkDriver (doorbell_stride d) (admin_queue d) q (ns_info d)).
Definition set_ns (n : option NamespaceInfo) : M unit :=
  d ← get_drv; set_drv (mkDriver (doorbell_stride d) (admin_queue d) (io_queue d) n).

(** [self.admin_queue], whose operations unwrap it. *)
Definition get_admin : M QueuePair := d ← get_drv; st_lift (or_panic (admin_queue d)).

Definition ring_admin_sq_doorbell : M unit := q ← get_admin; write_reg32 SQ0TDBL (sq_tail q).
Definition ring_admin_cq_doorbell : M unit :=
  q ← get_admin; d ← get_drv; write_reg32 (SQ0TDBL + doorbell_stride d) (cq_head q).

Definition admin_submit_wait (cmd : SubmissionEntry) : M Z :=
  q ← get_admin;
  q ← do_submit q cmd;
  _ ← set_admin (Some q);
  _ ← ring_admin_sq_doorbell;
  r ← poll_with_timeout q;
  _ ← set_admin (Some (snd r));
  match fst r with
  | Some status => _ ← ring_admin_cq_doorbell; mret status
  | None => st_err Timeout
  end.

(** A local [DmaBuf]: dropped on every way out. *)
Definition with_buf {A} (bytes : Z) (body : DmaBuf -> M A) : M A :=
  b ← on_ram (fun _ => OutOfMemory) (dma_alloc bytes);
  r ← st_try (body b);
  _ ← on_ram (fun e : Empty_set => match e with end) (dma_drop b);
  match r with
  | inl a => mret a
  | inr e => st_err e
  end.

Fixpoint wait_loop (spins : nat) (target : Z) : M unit :=
  match spins with
  | O => st_err Timeout
  | S spins =>
      csts ← read_reg32 CSTS;
      if Z.land csts 1 =? target then mret tt
      else if negb (Z.land csts 2 =? 0) then st_err ControllerFatal
      else wait_loop spins target
  end.
Definition wait_for_ready (ready : bool) (timeout_500ms : Z) : M unit :=
  wait_loop (Z.to_nat (timeout_500ms ⊠ 500000)) (if ready then 1 else 0).

Definition identify_controller : M unit :=
  with_buf 4096 (fun buf =>
    status ← admin_submit_wait (identify 0 1 (Dma.phys buf));
    if negb (status =? 0) then st_err (CommandFailed status) else mret tt).

Definition create_io_queues (qsize : Z) : M unit :=
  qp ← on_ram (fun _ => OutOfMemory) (queue_new 1 qsize);
  (* an error drops the queue pair *)
  r ← st_try (
    status ← admin_submit_wait (create_io_cq 1 qsize (Dma.phys (cq_buf qp)));
    if negb (status =? 0) then st_err (CommandFailed status)
    else
      status ← admin_submit_wait (create_io_sq 1 qsize (Dma.phys (sq_buf qp)) 1);
      if negb (status =? 0) then st_err (CommandFailed status) else mret tt);
  match r with
  | inl _ => set_io (Some qp)
  | inr e => _ ← on_ram (fun e : Empty_set => match e with end) (queue_drop qp); st_err e
  end.

Definition identify_namespace (nsid : Z) : M unit :=
  with_buf 4096 (fun buf =>
    status ← admin_submit_wait (identify nsid 0 (Dma.phys buf));
    if negb (status =? 0) then st_err (CommandFailed status)
    else
      _ ← ticks;
      w ← st_get;
      let m := ram (dev w) in
      let base := Dma.phys buf in
      let block_count := load64 m base in
      let flbas_index := Z.land (load8 m (base + 26)) 0x0F in
      let lbaf := load32 m (base + (128 + flbas_index * 4)) in
      let lbads := Z.land (Z.shiftr lbaf 16) 0xFF in
      (* 1u32 << lbads: the shift count is masked *)
      let block_size := wrap32 (Z.shiftl 1 (lbads mod 32)) in
      set_ns (Some (mkNs nsid block_count block_size (Z.land lbaf 0xFFFF)))).

Definition init_controller : M unit :=
  cap ← read_reg64 CAP;
  d ← get_drv;
  _ ← set_drv (mkDriver (Z.shiftl 4 (Z.land (Z.shiftr cap 32) 0xF)) (admin_queue d) (io_queue d) (ns_info d));
  let max_queue_entries := wrap16 (Z.land cap 0xFFFF + 1) in
  let timeout_500ms := Z.land (Z.shiftr cap 24) 0xFF in
  _ ← write_reg32 CC 0;
  _ ← wait_for_ready false timeout_500ms;
  let aq_size := 32 in
  aq ← on_ram (fun _ => OutOfMemory) (queue_new 0 aq_size);
  _ ← set_admin (Some aq);
  _ ← write_reg32 AQA (Z.lor (Z.shiftl (aq_size - 1) 16) (aq_size - 1));
  _ ← write_reg64 ASQ (Dma.phys (sq_buf aq));
  _ ← write_reg64 ACQ (Dma.phys (cq_buf aq));
  let cc := Z.lor (Z.lor (Z.shiftl 4 20) (Z.shiftl 6 16)) 1 in
  _ ← write_reg32 CC cc;
  _ ← wait_for_ready true timeout_500ms;
  _ ← identify_controller;
  _ ← create_io_queues (Z.min 64 max_queue_entries);
  identify_namespace 1.

Definition drop_opt_queue (q : option QueuePair) : M unit :=
  match q with
  | Some q => on_ram (fun e : Empty_set => match e with end) (queue_drop q)
  | None => mret tt
  end.

(** [NvmeDriver::new]: on an error the driver and its queues are dropped. *)
Definition new : M unit :=
  _ ← set_drv (mkDriver 4 None None None);
  r ← st_try init_controller;
  match r with
  | inl _ => mret tt
  | inr e =>
      d ← get_drv;
      _ ← drop_opt_queue (admin_queue d);
      _ ← drop_opt_queue (io_queue d);
      st_err e
  end.

(** ** Block operations *)
(** Submit one command on the I/O queue, ring, and wait for its completion. *)
Definition io_submit_wait (qp : QueuePair) (cmd : SubmissionEntry) : M unit :=
  d ← get_drv;
  let stride := doorbell_stride d in
  let qid := id qp in
  qp ← do_submit qp cmd;
  _ ← set_io (Some qp);
  _ ← write_reg32 (SQ0TDBL + (2 * qid) * stride) (sq_tail qp);
  r ← poll_with_timeout qp;
  _ ← set_io (Some (snd r));
  match fst r with
  | Some status =>
      _ ← write_reg32 (SQ0TDBL + (2 * qid + 1) * stride) (cq_head (snd r));
      if negb (status =? 0) then st_err (CommandFailed status) else mret tt
  | None => st_err Timeout
  end.

(** The PRP list of a command, kept until the command is over. *)
Definition with_prp {A} (buf : DmaBuf) (bytes : Z) (body : Z -> Z -> M A) : M A :=
  p ← on_ram (fun e : Empty_set => match e with end) (build_prp buf bytes);
  let '(p1, p2, l) := p in
  r ← st_try (body p1 p2);
  _ ← match l with
      | Some b => on_ram (fun e : Empty_set => match e with end) (dma_drop b)
      | None => mret tt
      end;
  match r with
  | inl a => mret a
  | inr e => st_err e
  end.

Definition ns_and_queue : M (NamespaceInfo * QueuePair) :=
  d ← get_drv;
  ns ← st_lift (ok_or (ns_info d) NotInitialized);
  qp ← st_lift (ok_or (io_queue d) NotInitialized);
  mret (ns, qp).

Definition read_blocks (lba block_count : Z) (buf : DmaBuf) : M DmaBuf :=
  p ← ns_and_queue;
  let '(ns, qp) := p in
  with_prp buf (block_count ⊠ ns_block_size ns) (fun prp1 prp2 =>
    _ ← io_submit_wait qp (read (ns_nsid ns) lba (wrap16 (block_count - 1)) prp1 prp2);
    w ← st_get;
    mret (set_data buf (load (ram (dev w)) (Dma.phys buf) (Dma.len buf)))).

Definition write_blocks (lba block_count : Z) (buf : DmaBuf) : M unit :=
  p ← ns_and_queue;
  let '(ns, qp) := p in
  w ← st_get;
  _ ← st_put (mkHw (mkN (ctl (dev w)) (store (ram (dev w)) (Dma.phys buf) (data buf)) (drv (dev w))) (pages w));
  with_prp buf (block_count ⊠ ns_block_size ns) (fun prp1 prp2 =>
    io_submit_wait qp (write (ns_nsid ns) lba (wrap16 (block_count - 1)) prp1 prp2)).

Definition flush : M unit :=
  p ← ns_and_queue;
  let '(ns, qp) := p in
  io_submit_wait qp (Nvme.flush (ns_nsid ns)).

Definition block_size (d : Driver) : Z := match ns_info d with Some ns => ns_block_size ns | None => 4096 end.
Definition total_blocks (d : Driver) : Z := match ns_info d with Some ns => ns_block_count ns | None => 0 end.

(** The driver is a [BlockDevice]. *)
#[export] Instance nvme_device : BlockDevice (nstate C) := {
  Block.read_blocks := read_blocks;
  Block.write_blocks := write_blocks;
  dev_flush := flush;
  dev_block_size n := block_size (drv n);
  dev_total_blocks n := total_blocks (drv n);
}.

End driver.

(** ** A controller as the specification describes it (NVMe 1.4)

    Entry [i] of the admin submission queue, as the controller fetches it
    from memory: its command identifier and the page its first PRP names. *)
Definition sqe_addr (sq i : Z) : Z := sq + i * 64.
Definition entry_cid (m : mem) (sq i : Z) : Z := wrap16 (Z.shiftr (load32 m (sqe_addr sq i)) 16).
Definition entry_page (m : mem) (sq i : Z) : Z := load64 m (sqe_addr sq i + 24).

(** A controller with its admin queue registers and the tail doorbell last
    written.  On its own it changes no register; it writes at most the
    completion queue and the data pages of the commands it has been given
    (those below the tail); and unless such a page lies over it, the last word
    of the first completion slot stays as it was or becomes the word the
    specification lays out, with the identifier of one of these commands. *)
Class SpecController (C : Type) `{Controller C} := {
  asq : C -> Z;
  acq : C -> Z;
  tail : C -> Z;
  regs_read32 off c : let c' := snd (ctl_read32 off c) in asq c' = asq c /\ acq c' = acq c /\ tail c' = tail c;
  regs_read64 off c : let c' := snd (ctl_read64 off c) in asq c' = asq c /\ acq c' = acq c /\ tail c' = tail c;
  regs_write32 off v c : let c' := ctl_write32 off v c in
    asq c' = asq c /\ acq c' = acq c /\ tail c' = if off =? SQ0TDBL then v else tail c;
  regs_write64 off v c : let c' := ctl_write64 off v c in
    asq c' = (if off =? ASQ then v else asq c) /\ acq c' = (if off =? ACQ then v else acq c) /\ tail c' = tail c;
  tick_regs c m : let c' := fst (tick c m) in asq c' = asq c /\ acq c' = acq c /\ tail c' = tail c;
  tick_writes c m x :
    load8 (snd (tick c m)) x = load8 m x \/ acq c <= x < acq c + 512 \/
    exists i, 0 <= i < tail c /\ entry_page m (asq c) i <= x < entry_page m (asq c) i + 4096;
  tick_first c m :
    (forall i, 0 <= i < tail c ->
       entry_page m (asq c) i + 4096 <= acq c \/ acq c + 512 <= entry_page m (asq c) i) ->
    load32 (snd (tick c m)) (acq c + 12) = load32 m (acq c + 12) \/
    exists i status phase_tag, 0 <= i < tail c /\
      load32 (snd (tick c m)) (acq c + 12) = spec_word status phase_tag (entry_cid m (asq c) i);
}.

Section spec.
Context {C : Type} `{HC : Controller C} {HS : @SpecController C HC}.
Variable polls : nat.

(** The page pool is well formed and [u] are its used pages. *)
Definition holds {D} (u : gset Z) (w : hw D) : Prop := Phys.wf (pages w) /\ Phys.used_pages (pages w) = u.

(** A buffer in page [p]. *)
Definition in_page (b : DmaBuf) (p : Z) : Prop :=
  Dma.phys b = p * 4096 /\ Dma.page_count b = 1 /\ 0 <= p /\ (p + 1) * 4096 <= 2 ^ 32.

Definition same_regs (c c' : C) : Prop := asq c' = asq c /\ acq c' = acq c /\ tail c' = tail c.
Definition put_ctl (c : C) (w : hw (nstate C)) : hw (nstate C) := mkHw (mkN c (ram (dev w)) (drv (dev w))) (pages w).
Definition put_ram (m : mem) (w : hw (nstate C)) : hw (nstate C) := mkHw (mkN (ctl (dev w)) m (drv (dev w))) (pages w).

(** Operations on the shared memory, in the state of the driver. *)
Definition lift (w : hw (nstate C)) (w' : hw mem) : hw (nstate C) := mkHw (mkN (ctl (dev w)) (dev w') (drv (dev w))) (pages w').

Lemma wp_on_ram {E A} (f : E -> NvmeError) (m : st (hw mem) E A) Q X (w : hw (nstate C)) :
  wp m (fun a w' => Q a (lift w w')) (fun e w' => X (f e) (lift w w')) (mkHw (ram (dev w)) (pages w)) ->
  wp (on_ram f m) Q X w.
Proof. unfold wp, on_ram. by destruct (m _) as [[a|e|] w']. Qed.

Lemma lift_self w : lift w (mkHw (ram (dev w)) (pages w)) = w.
Proof. by destruct w as [[? ? ?] ?]. Qed.

Lemma wp_alloc bytes (Q : DmaBuf -> hw mem -> Prop) X (w : hw mem) u :
  holds u w -> 0 < bytes <= 4096 ->
  X Phys.OutOfMemory w ->
  (forall b p w', in_page b p -> p ∉ u -> holds (u ∪ zrange p 1) w' ->
     same_but (dev w) (dev w') (p * 4096) 4096 ->
     (forall x, p * 4096 <= x < p * 4096 + 4096 -> load8 (dev w') x = 0) -> Q b w') ->
  wp (dma_alloc bytes) Q X w.
Proof.
  intros [Hwf <-] Hb HX HQ. unfold wp.
  destruct (dma_alloc_ok bytes w Hwf ltac:(lia)) as [(p & s' & Hc & Hpost & -> & _)|[-> _]]; [|done].
  replace (pages_needed bytes) with 1 in * by (unfold pages_needed; lia).
  pose proof (candidate_bound _ _ _ Hwf Hc) as [Hp0 Hpb]. destruct Hpost as (Hwf' & Hu & _).
  apply (HQ _ p); cbn [dev pages]; try done.
  - destruct Hc as (_ & _ & _ & Hrun). apply (run_free_disjoint _ Phys.MAX_PAGES) in Hrun.
    intros Hin. apply (Hrun p Hin). apply elem_of_zrange. lia.
  - pose proof (store_same_but (dev w) (p * 4096) (replicate (Z.to_nat (1 * 4096)) 0)) as Hst.
    rewrite zlen_replicate, Z2Nat.id in Hst by lia. exact Hst.
  - intros x Hx. rewrite load8_store, zlen_replicate, bool_decide_eq_true_2 by lia.
    destruct (replicate _ 0 !! _) as [v|] eqn:Hl; [|done]. by apply lookup_replicate in Hl as [-> _].
Qed.

Lemma wp_drop {E} b p u Q X (w : hw mem) :
  holds u w -> in_page b p ->
  (forall w', dev w' = dev w -> holds (u ∖ zrange p 1) w' -> Q tt w') ->
  wp (@dma_drop E b) Q X w.
Proof.
  intros [Hwf <-] (Hb & Hn & Hp & Hpb) HQ. unfold wp, dma_drop, Dma.drop_buf. rewrite Hb, Hn.
  destruct (Phys.free_pages_ok (pages w) (p * 4096) 1 Hwf) as (s' & -> & Hwf' & _ & Hu); [lia|lia|lia|].
  rewrite Z.div_mul in Hu by lia. by apply HQ.
Qed.

Lemma give_back (u : gset Z) p : p ∉ u -> (u ∪ zrange p 1) ∖ zrange p 1 = u.
Proof.
  intros Hp. zset_ext j. split; [intuition|]. intros Hj. split; [by left|].
  intros ?. assert (j = p) as -> by lia. done.
Qed.

(** [QueuePair::new] of a queue that fits in a page. *)
Lemma wp_queue_new qid n u Q X (w : hw mem) :
  holds u w -> 0 < n <= 64 ->
  (forall w', holds u w' -> X Phys.OutOfMemory w') ->
  (forall sq cq p1 p2 w', in_page sq p1 -> in_page cq p2 -> p1 ∉ u -> p2 ∉ u -> p1 <> p2 ->
     holds (u ∪ zrange p1 1 ∪ zrange p2 1) w' ->
     (forall x, p2 * 4096 <= x < p2 * 4096 + 4096 -> load8 (dev w') x = 0) ->
     Q (mkQueue qid sq cq 0 0 n true 0) w') ->
  wp (queue_new qid n) Q X w.
Proof.
  intros Hu Hn HX HQ. unfold queue_new, SQE_SIZE, CQE_SIZE. unwrap. apply wp_bind.
  apply (wp_alloc _ _ _ _ u); [done|lia|by apply HX|]. intros sq p1 w1 Hsq Hp1 Hu1 Hs1 _.
  apply wp_bind, wp_try. apply (wp_alloc _ _ _ _ (u ∪ zrange p1 1)); [done|lia| |].
  - apply wp_bind. apply (wp_drop _ p1 (u ∪ zrange p1 1)); [done..|]. rewrite give_back by done.
    intros w2 _ Hu2. apply wp_err. by apply HX.
  - intros cq p2 w2 Hcq Hp2 Hu2 Hs2 Hz. apply wp_ret.
    rewrite elem_of_union, elem_of_zrange in Hp2. apply (HQ _ _ p1 p2); try done; intuition lia.
Qed.

(** The drop of a queue pair gives both pages back. *)
Lemma wp_queue_drop {E} q p1 p2 u Q X (w : hw mem) :
  in_page (sq_buf q) p1 -> in_page (cq_buf q) p2 -> p1 ∉ u -> p2 ∉ u -> p1 <> p2 ->
  holds (u ∪ zrange p1 1 ∪ zrange p2 1) w ->
  (forall w', holds u w' -> Q tt w') -> wp (@queue_drop E q) Q X w.
Proof.
  intros H1 H2 Hp1 Hp2 Hne Hu HQ. unfold queue_drop. apply wp_bind. eapply wp_drop; [done..|].
  intros w1 _ Hu1. eapply wp_drop; [done..|]. intros w2 _ Hu2. apply HQ.
  replace u with (((u ∪ zrange p1 1 ∪ zrange p2 1) ∖ zrange p1 1) ∖ zrange p2 1); [done|].
  zset_ext j. split; [intuition|]. intros Hj. split_and!; [by left; left|..].
  - intros ?. assert (j = p1) as -> by lia. done.
  - intros ?. assert (j = p2) as -> by lia. done.
Qed.

(** Waiting touches nothing but the controller, and none of its registers. *)
Lemma wp_wait ready t Q X w :
  (forall c, same_regs (ctl (dev w)) c -> Q tt (put_ctl c w)) ->
  (forall e c, same_regs (ctl (dev w)) c -> X e (put_ctl c w)) ->
  wp (wait_for_ready (C := C) ready t) Q X w.
Proof.
  intros HQ HX. unfold wait_for_ready. generalize (Z.to_nat (t ⊠ 500000)), (if ready then 1 else 0).
  intros n tg. assert (exists c, same_regs (ctl (dev w)) c /\ w = put_ctl c w) as (c & Hc & ->).
  { exists (ctl (dev w)). by destruct w as [[? ? ?] ?]. }
  revert c Hc. induction n as [|n IH]; intros c Hc; [by apply (HX _ c)|]. cbn [wait_loop]. apply wp_bind.
  unfold wp at 1, read_reg32. cbn [put_ctl dev ctl ram drv pages].
  pose proof (regs_read32 CSTS c) as Hr. cbv zeta in Hr.
  destruct (ctl_read32 CSTS c) as [v c'] eqn:Hrd. cbn [snd] in Hr.
  assert (same_regs (ctl (dev w)) c') as Hc' by (unfold same_regs in *; intuition congruence).
  destruct (Z.land v 1 =? tg); [by apply (HQ c')|]. destruct (negb _); [by apply (HX _ c')|by apply IH].
Qed.

(** The controller has been given one command, with identifier zero, and the
    driver looks at an empty first slot. *)
Definition first_pending (q : QueuePair) (d : Z) (w : hw (nstate C)) : Prop :=
  let a := asq (ctl (dev w)) in let b := acq (ctl (dev w)) in
  tail (ctl (dev w)) = 1 /\ Dma.phys (cq_buf q) = b /\ 0 <= b <= 2 ^ 32 /\
  cq_head q = 0 /\ cq_phase q = true /\ size q = 32 /\
  entry_cid (ram (dev w)) a 0 = 0 /\ entry_page (ram (dev w)) a 0 = d /\
  cqe_phase (load32 (ram (dev w)) (b + 12)) = false /\
  (a + 64 <= b \/ b + 512 <= a) /\ (d + 4096 <= b \/ b + 512 <= d) /\ (d + 4096 <= a \/ a + 64 <= d).

Lemma first_pending_tick q d w :
  first_pending q d w ->
  let '(c, m) := tick (ctl (dev w)) (ram (dev w)) in first_pending q d (put_ram m (put_ctl c w)).
Proof.
  unfold first_pending. intros (Ht & Hq & Hb & Hh & Hp & Hs & Hcid & Hpg & Hph & Hab & Hdb & Hda).
  pose proof (tick_regs (ctl (dev w)) (ram (dev w))) as Hr. cbv zeta in Hr.
  pose proof (tick_writes (ctl (dev w)) (ram (dev w))) as Hw.
  pose proof (tick_first (ctl (dev w)) (ram (dev w))) as Hf.
  destruct (tick (ctl (dev w)) (ram (dev w))) as [c m]. cbn [fst snd] in *.
  cbn [put_ram put_ctl dev ctl ram drv]. destruct Hr as (-> & -> & ->).
  set (a := asq (ctl (dev w))) in *. set (b := acq (ctl (dev w))) in *.
  assert (forall i, 0 <= i < tail (ctl (dev w)) -> i = 0) as H0 by lia.
  assert (same_at (ram (dev w)) m a 64) as Hsame.
  { intros x Hx. destruct (Hw x) as [?|[?|(i & Hi & Hx')]]; [done|lia|].
    rewrite (H0 i Hi), Hpg in Hx'. lia. }
  assert (entry_cid m a 0 = entry_cid (ram (dev w)) a 0) as ->.
  { unfold entry_cid. rewrite (load32_same (ram (dev w)) m); [done|]. unfold sqe_addr. eapply same_at_mono; [exact Hsame|lia|lia]. }
  assert (entry_page m a 0 = entry_page (ram (dev w)) a 0) as ->.
  { unfold entry_page. apply load64_same. unfold sqe_addr. eapply same_at_mono; [exact Hsame|lia|lia]. }
  assert (cqe_phase (load32 m (b + 12)) = false) as ->.
  { destruct Hf as [->|(i & st & pt & Hi & ->)]; [|done|].
    - intros i Hi. rewrite (H0 i Hi), Hpg. lia.
    - rewrite (H0 i Hi), Hcid. by rewrite spec_word_phase. }
  split_and!; first [done|lia].
Qed.

Lemma wp_poll_first n q d w Q X :
  first_pending q d w ->
  (forall w', pages w' = pages w -> drv (dev w') = drv (dev w) -> Q (None, q) w') ->
  wp (poll_loop (C := C) n q) Q X w.
Proof.
  revert w. induction n as [|n IH]; intros w Hw HQ; cbn [poll_loop]; apply wp_bind; unfold wp at 1, ticks;
    pose proof (first_pending_tick q d w Hw) as Hw'; destruct (tick _ _) as [c m].
  all: apply wp_bind; unfold wp at 1, do_poll, poll_completion.
  all: pose proof Hw' as (_ & Hq & Hb & Hh & Hp & Hs & _ & _ & Hph & _); rewrite Hh, Hp, Hq.
  all: cbn [put_ram put_ctl dev ctl ram drv] in Hb, Hph |- *; set (b := acq c) in *.
  all: assert ((b ⊞ 0 ⊠ CQE_SIZE) ⊞ 12 = b + 12) as -> by (change (0 ⊠ CQE_SIZE) with 0; unwrap; lia).
  all: rewrite Hph; cbn [eqb].
  - apply wp_ret. by apply HQ.
  - apply IH; [done|]. intros w' H1 H2. apply HQ; [by rewrite H1|by rewrite H2].
Qed.

(** A driver whose admin queue, fresh from [queue_new], the controller knows. *)
Definition admin_ready (p1 p2 : Z) (q : QueuePair) (w : hw (nstate C)) : Prop :=
  admin_queue (drv (dev w)) = Some q /\ io_queue (drv (dev w)) = None /\
  in_page (sq_buf q) p1 /\ in_page (cq_buf q) p2 /\ p1 <> p2 /\
  sq_tail q = 0 /\ cq_head q = 0 /\ cq_phase q = true /\ size q = 32 /\ next_cid q = 0 /\
  asq (ctl (dev w)) = p1 * 4096 /\ acq (ctl (dev w)) = p2 * 4096 /\
  (forall x, p2 * 4096 <= x < p2 * 4096 + 4096 -> load8 (ram (dev w)) x = 0).

(** What every way out leaves to the drop of the driver. *)
Definition has_admin (p1 p2 : Z) (w : hw (nstate C)) : Prop :=
  exists q, admin_queue (drv (dev w)) = Some q /\ io_queue (drv (dev w)) = None /\
    in_page (sq_buf q) p1 /\ in_page (cq_buf q) p2.

Lemma load32_zero m a : (forall x, a <= x < a + 4 -> load8 m x = 0) -> load32 m a = 0.
Proof.
  intros Hz. unfold load32, load. do 4 (rewrite seqZ_cons by lia). rewrite seqZ_nil by lia. cbn [fmap list_fmap].
  by rewrite !Hz by lia.
Qed.

(** The entry that [submit] writes, as the controller reads it back. *)
Lemma entry_of_submit m a e :
  is_u32 (cdw0 e) -> is_u64 (prp1 e) ->
  entry_cid (store m a (sqe_bytes e)) a 0 = wrap16 (Z.shiftr (cdw0 e) 16) /\
  entry_page (store m a (sqe_bytes e)) a 0 = prp1 e.
Proof.
  intros H1 H2. unfold entry_cid, entry_page, load32, load64, sqe_addr. rewrite Z.add_0_r.
  pose proof (zlen_sqe e) as Hl.
  replace (load (store m a (sqe_bytes e)) a 4) with (slice (sqe_bytes e) 0 4)
    by (rewrite <- load_store_slice with (m := m) (a := a), Z.add_0_r by lia; done).
  rewrite load_store_slice by lia.
  change (slice (sqe_bytes e) 0 4) with (le_bytes 4 (cdw0 e)).
  change (slice (sqe_bytes e) 24 8) with (le_bytes 8 (prp1 e)).
  rewrite !from_le_bytes_id; [done|unfold is_u64 in H2; lia|unfold is_u32 in H1; lia].
Qed.

Lemma wp_first_submit p1 p2 q cmd d Q X w :
  admin_ready p1 p2 q w -> is_u32 (cdw0 cmd) -> cdw0 cmd < 2 ^ 16 -> prp1 cmd = d * 4096 ->
  0 <= d -> (d + 1) * 4096 <= 2 ^ 32 -> d <> p1 -> d <> p2 ->
  (forall w', pages w' = pages w -> has_admin p1 p2 w' -> X Timeout w') ->
  wp (admin_submit_wait (C := C) polls cmd) Q X w.
Proof.
  intros (Hq & Hio & Hsq & Hcq & Hne & Ht & Hh & Hp & Hs & Hn & Ha & Hb & Hz) Hu Hc Hd Hd0 Hd1 Hd2 Hd3 HX.
  pose proof Hsq as (Hsq1 & _ & Hsq2 & Hsq3). pose proof Hcq as (Hcq1 & _ & Hcq2 & Hcq3).
  unfold admin_submit_wait, get_admin. apply wp_bind, wp_bind. unfold wp at 1, get_drv. rewrite Hq.
  apply (wp_lift _ _ _ q); [done|]. apply wp_bind. unfold wp at 1, do_submit, submit. rewrite Ht, Hs, Hn, Hsq1.
  set (e := with_cdw0 cmd _).
  assert (cdw0 e = cdw0 cmd) as He.
  { unfold e, with_cdw0. cbn [cdw0]. change (wrap32 (Z.shiftl 0 16)) with 0. rewrite Z.lor_0_r.
    change 0xFFFF with (Z.ones 16). rewrite Z.land_ones, Z.mod_small by (unfold is_u32 in Hu; lia). done. }
  change (0 ⊠ SQE_SIZE) with 0. rewrite (wrap64_small (p1 * 4096 + 0)), Z.add_0_r by lia.
  change (32 =? 0) with false. cbn [negb]. change (wrap16 (0 + 1) mod 32) with 1. change (wrap16 (0 + 1)) with 1.
  set (m := store _ _ _). set (q1 := mkQueue _ _ _ _ _ _ _ _).
  assert (entry_cid m (p1 * 4096) 0 = 0 /\ entry_page m (p1 * 4096) 0 = d * 4096) as [Hec Hep].
  { unfold m. destruct (entry_of_submit (ram (dev w)) (p1 * 4096) e) as [-> ->]; [by rewrite He| |].
    - change (prp1 e) with (prp1 cmd). rewrite Hd. unfold is_u64. lia.
    - change (prp1 e) with (prp1 cmd). rewrite He, Hd. split; [|done].
      rewrite Z.shiftr_div_pow2, Z.div_small by (unfold is_u32 in Hu; lia). done. }
  unfold set_admin. do 2 apply wp_bind. unfold wp at 1, get_drv. cbn [dev drv].
  unfold wp at 1, set_drv. cbn [dev drv ctl ram pages doorbell_stride io_queue ns_info].
  unfold ring_admin_sq_doorbell, get_admin. do 3 apply wp_bind. unfold wp at 1, get_drv. cbn [dev drv].
  apply (wp_lift _ _ _ q1); [done|]. unfold wp at 1, write_reg32. cbn [dev drv ctl ram pages].
  pose proof (regs_write32 SQ0TDBL (sq_tail q1) (ctl (dev w))) as Hr. cbv zeta in Hr.
  rewrite Z.eqb_refl in Hr. destruct Hr as (Hr1 & Hr2 & Hr3). set (c := ctl_write32 _ _ _) in *.
  apply wp_bind. unfold poll_with_timeout. apply (wp_poll_first _ _ (d * 4096)).
  { unfold first_pending. cbn [dev ctl ram]. rewrite Hr1, Hr2, Hr3, Ha, Hb. rewrite Hec, Hep.
    rewrite load32_zero.
    - split_and!; first [done|lia].
    - intros x Hx. unfold m. rewrite load8_store, zlen_sqe, bool_decide_eq_false_2 by lia. apply Hz. lia. }
  intros w' Hpg Hdrv. cbn [pages dev drv] in Hpg, Hdrv. cbn [fst snd].
  do 2 apply wp_bind. unfold wp at 1, get_drv. unfold wp at 1, set_drv. apply wp_err. apply HX; [done|].
  exists q1. cbn [dev drv]. rewrite Hdrv. split_and!; done.
Qed.

Lemma wp_with_buf {A} bytes (body : DmaBuf -> M A) u (Q : A -> hw (nstate C) -> Prop) X w :
  holds u w -> 0 < bytes <= 4096 -> X OutOfMemory w ->
  (forall b p w', in_page b p -> p ∉ u -> holds (u ∪ zrange p 1) w' ->
     ctl (dev w') = ctl (dev w) -> drv (dev w') = drv (dev w) ->
     same_but (ram (dev w)) (ram (dev w')) (p * 4096) 4096 ->
     wp (body b) (fun a w1 => holds (u ∪ zrange p 1) w1 /\ forall w2, dev w2 = dev w1 -> holds u w2 -> Q a w2)
       (fun e w1 => holds (u ∪ zrange p 1) w1 /\ forall w2, dev w2 = dev w1 -> holds u w2 -> X e w2) w') ->
  wp (with_buf bytes body) Q X w.
Proof.
  intros Hu Hb HX Hbody. unfold with_buf. apply wp_bind, wp_on_ram.
  apply (wp_alloc _ _ _ _ u); [done|done|by rewrite lift_self|].
  intros b p w' Hbp Hp Hu' Hs _. apply wp_bind, wp_try.
  eapply wp_mono; [apply (Hbody b p (lift w w')); done| |].
  all: intros r w1 [Hh Hr]; apply wp_bind, wp_on_ram; apply (wp_drop _ p (u ∪ zrange p 1)); [done..|].
  all: rewrite give_back by done; intros w2 Hdev Hu2.
  - apply wp_ret. apply Hr; [unfold lift; cbn [dev]; rewrite Hdev; by destruct w1 as [[? ? ?] ?]|done].
  - apply wp_err. apply Hr; [unfold lift; cbn [dev]; rewrite Hdev; by destruct w1 as [[? ? ?] ?]|done].
Qed.

(** [NvmeDriver::new] once its admin queue is set up. *)
Lemma wp_identify_controller p1 p2 q u X w :
  admin_ready p1 p2 q w -> holds u w -> p1 ∈ u -> p2 ∈ u ->
  (forall e w', holds u w' -> has_admin p1 p2 w' -> X e w') ->
  wp (identify_controller (C := C) polls) (fun _ _ => False) X w.
Proof.
  intros Hr Hu H1 H2 HX. pose proof Hr as (Hq & Hio & Hsq & Hcq & Hrest).
  unfold identify_controller. apply (wp_with_buf _ _ u); [done|lia|apply HX; [done|by exists q]|].
  intros b p w' Hb Hp Hu' Hc Hd Hs. pose proof Hb as (Hb1 & _ & Hb2 & Hb3). apply wp_bind.
  apply (wp_first_submit p1 p2 q _ p).
  - unfold admin_ready. rewrite Hc, Hd. destruct Hrest as (Hne & ? & ? & ? & ? & ? & ? & ? & Hz). split_and!; try done.
    intros x Hx. rewrite Hs; [by apply Hz|]. assert (p <> p2) by congruence. lia.
  - unfold is_u32. cbn. lia.
  - cbn. lia.
  - exact Hb1.
  - done.
  - done.
  - congruence.
  - congruence.
  - intros w1 Hpg Hha. split; [unfold holds; by rewrite Hpg|].
    intros w2 Hdev Hu2. apply HX; [done|]. unfold has_admin. by rewrite Hdev.
Qed.

(** Initialisation never succeeds; on the way out the driver may hold an
    admin queue. *)
Definition maybe_admin (u : gset Z) (w : hw (nstate C)) : Prop :=
  io_queue (drv (dev w)) = None /\
  ((admin_queue (drv (dev w)) = None /\ holds u w) \/
   exists q p1 p2, admin_queue (drv (dev w)) = Some q /\ in_page (sq_buf q) p1 /\ in_page (cq_buf q) p2 /\
     (p1 ∉ u) /\ (p2 ∉ u) /\ p1 <> p2 /\ holds (u ∪ zrange p1 1 ∪ zrange p2 1) w).

Lemma wp_init_controller u w :
  holds u w -> admin_queue (drv (dev w)) = None -> io_queue (drv (dev w)) = None ->
  wp (init_controller (C := C) polls) (fun _ _ => False) (fun _ w' => maybe_admin u w') w.
Proof.
  intros Hu Ha Hio. unfold init_controller. apply wp_bind. unfold wp at 1, read_reg64.
  destruct (ctl_read64 CAP (ctl (dev w))) as [cap c0]. apply wp_bind. unfold wp at 1, get_drv.
  apply wp_bind. unfold wp at 1, set_drv. cbn [dev drv ctl ram pages]. rewrite Ha, Hio.
  apply wp_bind. unfold wp at 1, write_reg32. cbn [dev drv ctl ram pages]. apply wp_bind.
  apply wp_wait; cbn [put_ctl dev drv ctl ram pages]; [intros c1 _|intros e c1 _; split; [done|left; done]].
  apply wp_bind, wp_on_ram. apply (wp_queue_new _ _ u); [done|lia| |].
  { intros w' Hw'. split; [done|left; done]. }
  intros sq cq p1 p2 w1 Hsq Hcq Hp1 Hp2 Hne Hu1 Hz. unfold lift. cbn [put_ctl dev drv ctl ram pages].
  set (q := mkQueue _ _ _ _ _ _ _ _). apply wp_bind. unfold set_admin. apply wp_bind.
  unfold wp at 1, get_drv. unfold wp at 1, set_drv. cbn [dev drv ctl ram pages doorbell_stride io_queue ns_info].
  apply wp_bind. unfold wp at 1, write_reg32. apply wp_bind. unfold wp at 1, write_reg64.
  apply wp_bind. unfold wp at 1, write_reg64. apply wp_bind. unfold wp at 1, write_reg32.
  cbn [dev drv ctl ram pages].
  set (c2 := ctl_write32 AQA _ _). set (c3 := ctl_write64 ASQ _ _). set (c4 := ctl_write64 ACQ _ _).
  set (c5 := ctl_write32 CC _ _).
  assert (asq c5 = p1 * 4096 /\ acq c5 = p2 * 4096) as [Hasq Hacq].
  { pose proof (regs_write64 ASQ (Dma.phys (sq_buf q)) c2) as H1. pose proof (regs_write64 ACQ (Dma.phys (cq_buf q)) c3) as H2.
    pose proof (regs_write32 CC (Z.lor (Z.lor (Z.shiftl 4 20) (Z.shiftl 6 16)) 1) c4) as H3. cbv zeta in *.
    destruct H1 as (H1 & _), H2 as (H2 & H2' & _), H3 as (H3 & H3' & _). unfold c5. rewrite H3, H3'. unfold c4.
    rewrite H2, H2'. unfold c3. rewrite H1. destruct Hsq as [? _], Hcq as [? _]. done. }
  assert (forall w', has_admin p1 p2 w' -> holds (u ∪ zrange p1 1 ∪ zrange p2 1) w' -> maybe_admin u w') as Hend.
  { intros w' (q' & ? & ? & ? & ?) Hw'. split; [done|]. right. by exists q', p1, p2. }
  apply wp_bind. apply wp_wait; cbn [put_ctl dev drv ctl ram pages].
  2: { intros e c6 _. apply Hend; [by exists q|done]. }
  intros c6 (Hc1 & Hc2 & _). apply wp_bind.
  eapply wp_mono; [apply (wp_identify_controller p1 p2 q (u ∪ zrange p1 1 ∪ zrange p2 1) (fun _ w' => maybe_admin u w'))|done|done].
  - unfold admin_ready. cbn [put_ctl dev drv ctl ram pages admin_queue io_queue]. rewrite Hc1, Hc2. cbn [dev ctl]. split_and!; done.
  - done.
  - set_solver by lia.
  - set_solver by lia.
  - intros e w' H1 H2. by apply Hend.
Qed.

(** ** Property *)

(** C17. On a controller that follows the specification, [NvmeDriver::new]
    never succeeds: whatever the controller's registers read and however long
    it takes, the result is an error, never a panic, and every page taken from
    the pool is given back.  The driver looks for the phase tag in bit 0 of
    the last word of a completion, where the specification puts the command
    identifier; its first command has the identifier zero, so the completion
    of that command is never seen. *)
Theorem nvme_new_fails (w : hw (nstate C)) :
  Phys.wf (pages w) ->
  exists e w', new polls w = (Err e, w') /\ Phys.wf (pages w') /\
    Phys.used_pages (pages w') = Phys.used_pages (pages w).
Proof.
  intros Hwf. set (u := Phys.used_pages (pages w)).
  assert (wp (new (C := C) polls) (fun _ _ => False) (fun _ w' => holds u w') w) as Hwp.
  { unfold new. apply wp_bind. unfold wp at 1, set_drv. apply wp_bind, wp_try.
    eapply wp_mono; [by apply (wp_init_controller u)|by intros ? ? []|].
    intros e w1 [Hio Hend]. apply wp_bind. unfold wp at 1, get_drv. apply wp_bind. rewrite Hio.
    destruct Hend as [[-> Hu]|(q & p1 & p2 & -> & H1 & H2 & Hp1 & Hp2 & Hne & Hu)]; cbn [drop_opt_queue].
    - by apply wp_ret, wp_bind, wp_ret, wp_err.
    - apply wp_on_ram. eapply wp_queue_drop; [done..|]. intros w2 Hu2. by apply wp_bind, wp_ret, wp_err. }
  unfold wp in Hwp. destruct (new polls w) as [[[]|e|] w']; [done| |done]. by exists e, w'.
Qed.

End spec.

(** ** A controller that follows the specification: it becomes ready when it
    is enabled and completes every command successfully, in slot 0. *)
Module Sample.
Record ctrl := mkCtrl { r_cc : Z; r_asq : Z; r_acq : Z; r_tail : Z }.

Definition read32 (off : Z) (c : ctrl) : Z * ctrl := (if off =? CSTS then Z.land (r_cc c) 1 else 0, c).
Definition read64 (off : Z) (c : ctrl) : Z * ctrl := (if off =? CAP then 0x2001FFF else 0, c).
Definition write32 (off v : Z) (c : ctrl) : ctrl :=
  mkCtrl (if off =? CC then v else r_cc c) (r_asq c) (r_acq c) (if off =? SQ0TDBL then v else r_tail c).
Definition write64 (off v : Z) (c : ctrl) : ctrl :=
  mkCtrl (r_cc c) (if off =? ASQ then v else r_asq c) (if off =? ACQ then v else r_acq c) (r_tail c).
Definition run (c : ctrl) (m : mem) : ctrl * mem :=
  if 0 <? r_tail c then
    (c, store m (r_acq c) (replicate 12 0 ++
          le_bytes 4 (spec_word 0 true (wrap16 (Z.shiftr (load32 m (sqe_addr (r_asq c) 0)) 16)))))
  else (c, m).

#[export] Instance ctrl_controller : Controller ctrl := {
  ctl_read32 := read32; ctl_read64 := read64; ctl_write32 := write32; ctl_write64 := write64; tick := run;
}.

Lemma spec_word_u32 cid : is_u32 cid -> cid < 2 ^ 16 -> is_u32 (spec_word 0 true cid).
Proof.
  intros H1 H2. unfold spec_word. change (Z.shiftl 0 17) with 0. change (Z.shiftl 1 16) with 65536. rewrite Z.lor_0_l.
  pose proof (Z.add_lor_land 65536 cid). assert (0 <= Z.land 65536 cid) by (apply Z.land_nonneg; lia).
  unfold is_u32 in *. assert (0 <= Z.lor 65536 cid) by (apply Z.lor_nonneg; lia). lia.
Qed.

#[export] Program Instance ctrl_spec : SpecController ctrl := { asq := r_asq; acq := r_acq; tail := r_tail }.
Next Obligation. done. Qed.
Next Obligation. done. Qed.
Next Obligation. done. Qed.
Next Obligation. done. Qed.
Next Obligation. intros c m. cbn. unfold run. by destruct (0 <? r_tail c). Qed.
Next Obligation.
  intros c m x. cbn. unfold run. destruct (0 <? r_tail c); [|by left]. cbn [snd].
  destruct (decide (r_acq c <= x < r_acq c + 16)); [right; left; lia|left].
  rewrite load8_store, zlen_app, zlen_replicate, zlen_le_bytes, bool_decide_eq_false_2 by lia. done.
Qed.
Next Obligation.
  intros c m _. cbn. unfold run. destruct (Z.ltb_spec 0 (r_tail c)); [|by left]. cbn [snd]. right.
  exists 0, 0, true. split; [lia|]. unfold load32 at 1.
  rewrite load_store_slice by (rewrite ?zlen_app, ?zlen_replicate, ?zlen_le_bytes; lia).
  set (w := spec_word _ _ _). change (slice _ 12 4) with (le_bytes 4 w).
  rewrite from_le_bytes_id; [done|]. apply spec_word_u32; unfold is_u32, wrap16; lia.
Qed.

Definition boot : hw (nstate ctrl) := mkHw (mkN (mkCtrl 0 0 0 0) ∅ (mkDriver 4 None None None)) Phys.demo.

(** The driver gives up on this controller, which did complete the command. *)
Example boot_times_out : fst (new 3 boot) = Err Timeout.
Proof. vm_compute. reflexivity. Qed.

Lemma nvme_new_fails_witness :
  Phys.wf (pages boot) /\
  exists e w', new 3 boot = (Err e, w') /\ Phys.wf (pages w') /\
    Phys.used_pages (pages w') = Phys.used_pages (pages boot).
Proof. split; [exact Phys.demo_wf|]. apply (nvme_new_fails 3 boot). exact Phys.demo_wf. Defined.
End Sample.

End NvmeDriver.
