(* ===== verification/Der.v ===== *)
(** * X.509 certificates ([crypto/der.rs])

    The tag-length-value parser and the walk to the public key of a
    certificate, with the grammar of the encodings it accepts. *)
From S2P Require Import Prelude.
From S2P Require Import Bytes.

Module Der.

Definition TAG_SEQUENCE : Z := 0x30.
Definition TAG_INTEGER : Z := 0x02.
Definition TAG_CONTEXT_0 : Z := 0xA0.

Inductive DerError := Truncated | UnexpectedTag | BadLength.

Record Tlv := mkTlv { tag : Z; value : list Z; total_len : Z }.

(** ** The parser *)
Definition parse_length (data : list Z) : out DerError (Z * Z) :=
  match data with
  | [] => Err Truncated
  | first :: _ =>
      if first <? 0x80 then Ok (first, 1)
      else if first =? 0x80 then Err BadLength
      else
        let num_bytes := Z.land first 0x7F in
        if (4 <? num_bytes) || (num_bytes =? 0) then Err BadLength
        else if zlen data <? 1 + num_bytes then Err Truncated
        else
          len ← for_each (fun i len => b ← index data (1 + i); Ok (Z.lor (wrap64 (Z.shiftl len 8)) b))
                  (seqZ 0 num_bytes) 0;
          Ok (len, 1 + num_bytes)
  end.

Definition parse_tlv (data : list Z) : out DerError Tlv :=
  match data with
  | [] => Err Truncated
  | t :: rest =>
      p ← parse_length rest;
      let '(value_len, header_len) := p in
      let total := (header_len ⊞ 1) ⊞ value_len in
      if zlen data <? total then Err Truncated
      else
        v ← index_range data (header_len ⊞ 1) ((header_len ⊞ 1) ⊞ value_len);
        Ok (mkTlv t v total)
  end.

Definition skip_tlv (data : list Z) : out DerError (list Z) :=
  tlv ← parse_tlv data; index_from data (total_len tlv).

(** [if pos.first() != Some(&tag) { return Err(UnexpectedTag) }]. *)
Definition expect (t : Z) (pos : list Z) : out DerError unit :=
  if bool_decide (head pos = Some t) then Ok tt else Err UnexpectedTag.

Definition extract_spki (cert_der : list Z) : out DerError (list Z) :=
  outer ← parse_tlv cert_der;
  if negb (tag outer =? TAG_SEQUENCE) then Err UnexpectedTag
  else
    tbs ← parse_tlv (value outer);
    if negb (tag tbs =? TAG_SEQUENCE) then Err UnexpectedTag
    else
      let pos := value tbs in
      pos ← (if bool_decide (head pos = Some TAG_CONTEXT_0) then skip_tlv pos else Ok pos);
      _ ← expect TAG_INTEGER pos; pos ← skip_tlv pos;
      _ ← expect TAG_SEQUENCE pos; pos ← skip_tlv pos;
      _ ← expect TAG_SEQUENCE pos; pos ← skip_tlv pos;
      _ ← expect TAG_SEQUENCE pos; pos ← skip_tlv pos;
      _ ← expect TAG_SEQUENCE pos; pos ← skip_tlv pos;
      _ ← expect TAG_SEQUENCE pos;
      spki ← parse_tlv pos;
      index_range pos 0 (total_len spki).

(** ** The grammar

    A length of up to four bytes; an element; a certificate, of which only
    the parts the walk passes are constrained. *)
Inductive length_of (n : Z) : list Z -> Prop :=
| ShortLength : n < 0x80 -> length_of n [n]
| LongLength l : 1 <= zlen l <= 4 -> bytes_ok l -> from_be l = n -> length_of n ((0x80 + zlen l) :: l).

Definition element (t : Z) (v l : list Z) : Prop :=
  exists len, length_of (zlen v) len /\ l = t :: len ++ v.

Definition version_field (l : list Z) : Prop := l = [] \/ exists v, element TAG_CONTEXT_0 v l.

Inductive certificate : list Z -> list Z -> Prop :=
| Certificate version serial signature issuer validity subject spki rest tbs rest' cert trailing v1 v2 v3 v4 v5 v6 :
    version_field version ->
    element TAG_INTEGER v1 serial -> element TAG_SEQUENCE v2 signature -> element TAG_SEQUENCE v3 issuer ->
    element TAG_SEQUENCE v4 validity -> element TAG_SEQUENCE v5 subject -> element TAG_SEQUENCE v6 spki ->
    element TAG_SEQUENCE (version ++ serial ++ signature ++ issuer ++ validity ++ subject ++ spki ++ rest) tbs ->
    element TAG_SEQUENCE (tbs ++ rest') cert ->
    certificate (cert ++ trailing) spki.

(** ** Lemmas *)
Lemma length_digits first rest k :
  bytes_ok rest -> (k <= 4)%nat -> (k <= length rest)%nat ->
  for_each (fun i len => b ← index (first :: rest) (1 + i); @Ok DerError _ (Z.lor (wrap64 (Z.shiftl len 8)) b))
    (seqZ 0 (Z.of_nat k)) 0 = Ok (from_be (take k rest)).
Proof.
  intros Hb. induction k as [|k IH]; intros Hk Hl; [done|].
  rewrite Nat2Z.inj_succ, <- Z.add_1_r, seqZ_app, for_each_app, IH by lia.
  destruct (lookup_lt_is_Some_2 rest k ltac:(lia)) as [b Hlk].
  change (seqZ (0 + Z.of_nat k) 1) with [0 + Z.of_nat k]. cbn [for_each mbind out_bind].
  rewrite (index_lookup _ _ b); [|lia|by replace (Z.to_nat (1 + (0 + Z.of_nat k))) with (S k) by lia].
  cbn [mbind out_bind]. rewrite (take_S_r _ _ _ Hlk), from_be_snoc.
  pose proof (from_be_bound (take k rest) ltac:(by apply Forall_take)) as Hbound.
  rewrite zlen_take, Z.min_l in Hbound by (unfold zlen; lia).
  assert (256 ^ Z.of_nat k <= 256 ^ 3) by (apply Z.pow_le_mono_r; lia).
  rewrite wrap64_small by (rewrite Z.shiftl_mul_pow2 by lia; lia).
  rewrite lor_shift8; [done|lia|]. by eapply Forall_lookup_1 in Hb.
Qed.

(** What the walk relies on: a length is parsed exactly when there is one. *)
Lemma parse_length_spec data :
  bytes_ok data ->
  match parse_length data with
  | Ok (n, h) => 0 <= n < 2 ^ 32 /\ exists len r, data = len ++ r /\ length_of n len /\ h = zlen len
  | Err _ => forall n len r, data = len ++ r -> 0 <= n -> ~ length_of n len
  | Panic => False
  end.
Proof.
  intros Hb. unfold parse_length. destruct data as [|first rest]; [by intros n [|] r ? ? Hl; inversion Hl|].
  apply Forall_cons_1 in Hb as [Hf Hr]. unfold is_u8 in Hf.
  destruct (Z.ltb_spec first 0x80) as [Hs|Hs].
  { split; [lia|]. exists [first], rest. by split_and!; [|constructor|]. }
  assert (first = 0x80 + Z.land first 0x7F /\ 0 <= Z.land first 0x7F < 0x80) as [Hn Hn'].
  { change 0x7F with (Z.ones 7). rewrite Z.land_ones by lia. change (2 ^ 7) with 128.
    replace first with (first - 128 + 1 * 128) by lia. rewrite Z.mod_add, Z.mod_small by lia. lia. }
  set (k := Z.land first 0x7F) in *.
  assert (forall n len r, first :: rest = len ++ r -> 0 <= n -> length_of n len ->
    1 <= k <= 4 /\ exists l, rest = l ++ r /\ zlen l = k) as Hlong.
  { intros n len r He Hn0 Hl. inversion Hl as [Hlt Heq|l Hz Hbl Hfr Heq]; rewrite <- Heq in He; cbn in He; injection He as He1 He2; [lia|].
    split; [lia|]. exists l. split; [done|lia]. }
  destruct (Z.eqb_spec first 0x80) as [He|He]; [intros n len r H1 H2 H3; destruct (Hlong n len r H1 H2 H3); lia|].
  destruct (Z.ltb_spec 4 k) as [H4|H4]; [intros n len r H1 H2 H3; destruct (Hlong n len r H1 H2 H3); lia|].
  destruct (Z.eqb_spec k 0) as [?|Hk0]; [lia|]. cbn [orb]. rewrite zlen_cons.
  destruct (Z.ltb_spec (1 + zlen rest) (1 + k)) as [Ht|Ht].
  { intros n len r H1 H2 H3. destruct (Hlong n len r H1 H2 H3) as (_ & l & -> & Hl).
    rewrite zlen_app in Ht. pose proof (zlen_nonneg r). lia. }
  pose proof (length_digits first rest (Z.to_nat k) Hr ltac:(lia) ltac:(unfold zlen in Ht; lia)) as Hd.
  rewrite Z2Nat.id in Hd by lia. rewrite Hd. cbn [mbind out_bind].
  assert (zlen (take (Z.to_nat k) rest) = k) as Hk by (rewrite zlen_take; lia).
  pose proof (from_be_bound (take (Z.to_nat k) rest) ltac:(by apply Forall_take)) as Hbound.
  rewrite Hk in Hbound. assert (256 ^ k <= 256 ^ 4) by (apply Z.pow_le_mono_r; lia). split; [lia|].
  exists (first :: take (Z.to_nat k) rest), (drop (Z.to_nat k) rest).
  split; [cbn; by rewrite take_drop|]. split; [|rewrite zlen_cons, Hk; lia].
  replace first with (0x80 + zlen (take (Z.to_nat k) rest)) at 1 by lia. constructor; [lia|by apply Forall_take|done].
Qed.

(** The encoding of a length is not a proper prefix of another. *)
Lemma length_of_prefix n1 n2 l1 l2 r1 r2 :
  0 <= n1 -> 0 <= n2 -> length_of n1 l1 -> length_of n2 l2 -> l1 ++ r1 = l2 ++ r2 -> l1 = l2 /\ n1 = n2 /\ r1 = r2.
Proof.
  intros Hn1 Hn2 H1 H2 He.
  destruct H1 as [Hs1|l1 Hz1 Hb1 Hf1], H2 as [Hs2|l2 Hz2 Hb2 Hf2]; cbn in He; injection He as He Hr; [by subst|lia|lia|].
  destruct (app_inj_1 l1 l2 r1 r2) as [-> ->]; [unfold zlen in *; lia|done|]. split_and!; [by f_equal|congruence|done].
Qed.

Lemma parse_tlv_spec data :
  bytes_ok data ->
  match parse_tlv data with
  | Ok t => exists l r, data = l ++ r /\ element (tag t) (value t) l /\ total_len t = zlen l
  | Err _ => forall t v l r, data = l ++ r -> ~ element t v l
  | Panic => False
  end.
Proof.
  intros Hb. unfold parse_tlv. destruct data as [|t rest]; [by intros t v l r He (len & _ & ->)|].
  apply Forall_cons_1 in Hb as [_ Hr]. pose proof (parse_length_spec rest Hr) as Hs.
  destruct (parse_length rest) as [[n h]|e|]; cbn [mbind out_bind]; [| |done].
  2: { intros t' v l r He (len & Hlen & ->). injection He as _ He. rewrite <- app_assoc in He.
    apply (Hs (zlen v) len (v ++ r)); [done|apply zlen_nonneg|done]. }
  destruct Hs as (Hn & len & r & -> & Hlen & ->).
  assert (1 <= zlen len <= 5) as Hll by (destruct Hlen as [|l ? ? ?]; rewrite zlen_cons, ?zlen_nil; lia).
  unwrap. rewrite zlen_cons, zlen_app. destruct (Z.ltb_spec (1 + (zlen len + zlen r)) (zlen len + 1 + n)) as [Hlt|Hge].
  - intros t' v l r' He (len' & Hlen' & ->). cbn in He. injection He as _ He. rewrite <- app_assoc in He.
    destruct (length_of_prefix _ _ _ _ _ _ (proj1 Hn) (zlen_nonneg v) Hlen Hlen' He) as (_ & -> & ->).
    rewrite zlen_app in Hlt. pose proof (zlen_nonneg r'). lia.
  - rewrite index_range_ok by (rewrite ?zlen_cons, ?zlen_app; lia). cbn [mbind out_bind tag value total_len].
    replace (zlen len + 1 + n - (zlen len + 1)) with n by lia.
    change (t :: len ++ r) with ((t :: len) ++ r). rewrite slice_app_r by (rewrite zlen_cons; lia).
    replace (zlen len + 1 - zlen (t :: len)) with 0 by (rewrite zlen_cons; lia).
    assert (zlen (slice r 0 n) = n) as Hsl by (rewrite zlen_slice by lia; lia).
    exists (t :: len ++ slice r 0 n), (drop (Z.to_nat n) r). split_and!.
    + cbn. rewrite <- app_assoc. unfold slice. by rewrite drop_0, take_drop.
    + exists len. by rewrite Hsl.
    + rewrite zlen_cons, zlen_app, Hsl. lia.
Qed.

Lemma element_prefix t1 t2 v1 v2 l1 l2 r1 r2 :
  element t1 v1 l1 -> element t2 v2 l2 -> l1 ++ r1 = l2 ++ r2 -> t1 = t2 /\ v1 = v2 /\ l1 = l2 /\ r1 = r2.
Proof.
  intros (len1 & H1 & ->) (len2 & H2 & ->) He. cbn in He. injection He as -> He. rewrite <- !app_assoc in He.
  destruct (length_of_prefix _ _ _ _ _ _ (zlen_nonneg v1) (zlen_nonneg v2) H1 H2 He) as (-> & Hz & He').
  destruct (app_inj_1 v1 v2 r1 r2) as [-> ->]; [unfold zlen in *; lia|done|done].
Qed.

Lemma parse_tlv_complete t v l r :
  bytes_ok (l ++ r) -> element t v l -> parse_tlv (l ++ r) = Ok (mkTlv t v (zlen l)).
Proof.
  intros Hb He. pose proof (parse_tlv_spec _ Hb) as Hs. destruct (parse_tlv (l ++ r)) as [tlv|e|]; [| |done].
  - destruct Hs as (l' & r' & Heq & He' & Ht). destruct (element_prefix _ _ _ _ _ _ _ _ He He' Heq) as (? & ? & -> & ->).
    destruct tlv as [t' v' n]. cbn in *. by subst.
  - by destruct (Hs t v l r).
Qed.

Lemma element_head t v l r : element t v l -> head (l ++ r) = Some t.
Proof. by intros (? & _ & ->). Qed.

Lemma skip_complete t v l r : bytes_ok (l ++ r) -> element t v l -> skip_tlv (l ++ r) = Ok r.
Proof.
  intros Hb He. unfold skip_tlv. rewrite (parse_tlv_complete t v) by done. cbn [mbind out_bind total_len]. unfold index_from.
  rewrite index_range_ok by (rewrite ?zlen_app; pose proof (zlen_nonneg r); pose proof (zlen_nonneg l); lia).
  f_equal. rewrite slice_app_r, Z.sub_diag by lia. apply slice_all. rewrite zlen_app. lia.
Qed.

(** One field of the walk. *)
Lemma field_complete {A} t v l r (k : list Z -> out DerError A) :
  bytes_ok (l ++ r) -> element t v l ->
  (_ ← expect t (l ++ r); pos ← skip_tlv (l ++ r); k pos) = k r.
Proof.
  intros Hb He. unfold expect. rewrite bool_decide_eq_true_2 by by eapply element_head. cbn [mbind out_bind].
  by rewrite (skip_complete t v).
Qed.

Definition post {A} (m : out DerError A) (Q : A -> Prop) : Prop :=
  match m with Ok a => Q a | Err _ => True | Panic => False end.

Lemma post_bind {A B} (m : out DerError A) (k : A -> out DerError B) Q :
  post m (fun a => post (k a) Q) -> post (m ≫= k) Q.
Proof. by destruct m. Qed.

Lemma skip_post data Q :
  bytes_ok data -> (forall t v l r, data = l ++ r -> head data = Some t -> element t v l -> Q r) -> post (skip_tlv data) Q.
Proof.
  intros Hb HQ. unfold skip_tlv. apply post_bind. pose proof (parse_tlv_spec _ Hb) as Hs.
  destruct (parse_tlv data) as [tlv|e|]; [|done|done]. destruct Hs as (l & r & -> & He & Hl). cbn [post]. rewrite Hl. unfold index_from.
  rewrite index_range_ok by (rewrite ?zlen_app; pose proof (zlen_nonneg r); pose proof (zlen_nonneg l); lia). cbn [post].
  rewrite slice_app_r, Z.sub_diag, slice_all by (rewrite ?zlen_app; lia).
  eapply HQ; [done| |exact He]. by destruct He as (? & _ & ->).
Qed.

Lemma field_post {A} t data (k : list Z -> out DerError A) Q :
  bytes_ok data -> (forall v l r, data = l ++ r -> bytes_ok r -> element t v l -> post (k r) Q) ->
  post (_ ← expect t data; pos ← skip_tlv data; k pos) Q.
Proof.
  intros Hb HQ. apply post_bind. unfold expect. case_bool_decide as Hh; [|done]. cbn [post]. apply post_bind.
  apply skip_post; [done|]. intros t' v l r He Ht Hel. rewrite Hh in Ht. injection Ht as <-.
  eapply HQ; [done| |done]. rewrite He in Hb. by apply Forall_app in Hb as [_ ?].
Qed.

Lemma element_value_ok t v l : bytes_ok l -> element t v l -> bytes_ok v.
Proof. intros Hb (len & _ & ->). apply Forall_cons_1 in Hb as [_ Hb]. by apply Forall_app in Hb as [_ ?]. Qed.

Lemma extract_sound cert_der : bytes_ok cert_der -> post (extract_spki cert_der) (certificate cert_der).
Proof.
  intros Hb. unfold extract_spki. apply post_bind. pose proof (parse_tlv_spec _ Hb) as Ho.
  destruct (parse_tlv cert_der) as [outer|e|]; [|done|done]. destruct Ho as (cert & trailing & -> & Hcert & _).
  apply Forall_app in Hb as [Hb _]. cbn [post]. destruct (Z.eqb_spec (tag outer) TAG_SEQUENCE) as [Et|]; [|done]. cbn [negb].
  rewrite Et in Hcert. pose proof (element_value_ok _ _ _ Hb Hcert) as Hb2. apply post_bind.
  pose proof (parse_tlv_spec _ Hb2) as Ht. destruct (parse_tlv (value outer)) as [tbs|e|]; [|done|done].
  destruct Ht as (tl & rest' & Htl & Htbs & _). cbn [post]. rewrite Htl in Hb2, Hcert.
  apply Forall_app in Hb2 as [Hb2 _]. destruct (Z.eqb_spec (tag tbs) TAG_SEQUENCE) as [Et2|]; [|done]. cbn [negb].
  rewrite Et2 in Htbs. pose proof (element_value_ok _ _ _ Hb2 Htbs) as Hb3. apply post_bind.
  assert (post (if bool_decide (head (value tbs) = Some TAG_CONTEXT_0) then skip_tlv (value tbs) else Ok (value tbs))
    (fun r => exists version, value tbs = version ++ r /\ version_field version /\ bytes_ok r)) as Hv.
  { case_bool_decide as Hh; [|by exists []; split_and!; [|left|]]. apply skip_post; [done|].
    intros t v l r He Hh' Hel. rewrite Hh in Hh'. injection Hh' as <-. exists l. split; [done|].
    split; [right; by exists v|]. rewrite He in Hb3. by apply Forall_app in Hb3 as [_ ?]. }
  destruct (if bool_decide _ then _ else _) as [pos|e|]; [|done|done]. destruct Hv as (version & Hval & Hver & Hpos).
  cbn [post]. rewrite Hval in Htbs.
  apply field_post; [done|]. intros v1 serial r1 -> Hr1 H1. apply field_post; [done|]. intros v2 sg r2 -> Hr2 H2.
  apply field_post; [done|]. intros v3 iss r3 -> Hr3 H3. apply field_post; [done|]. intros v4 val r4 -> Hr4 H4.
  apply field_post; [done|]. intros v5 sub r5 -> Hr5 H5. apply post_bind. unfold expect. case_bool_decide as Hh; [|done].
  cbn [post]. apply post_bind. pose proof (parse_tlv_spec _ Hr5) as Hsp.
  destruct (parse_tlv r5) as [sp|e|]; [|done|done]. destruct Hsp as (spki & rest & -> & H6 & Hl6). cbn [post]. rewrite Hl6.
  assert (tag sp = TAG_SEQUENCE) as E6 by (destruct H6 as (? & _ & ->); by injection Hh). rewrite E6 in H6.
  rewrite index_range_ok by (rewrite ?zlen_app; pose proof (zlen_nonneg spki); pose proof (zlen_nonneg rest); lia).
  cbn [post]. rewrite Z.sub_0_r, slice_app_l, slice_all by (pose proof (zlen_nonneg spki); lia).
  by apply (Certificate version serial sg iss val sub spki rest tl rest' cert trailing v1 v2 v3 v4 v5 (value sp)).
Qed.

Lemma extract_complete cert_der spki : bytes_ok cert_der -> certificate cert_der spki -> extract_spki cert_der = Ok spki.
Proof.
  intros Hb Hc. destruct Hc as [version serial sg iss val sub spki rest tbs rest' cert trailing v1 v2 v3 v4 v5 v6
    Hv H1 H2 H3 H4 H5 H6 Ht Hc].
  unfold extract_spki. rewrite (parse_tlv_complete _ _ _ _ Hb Hc). cbn [mbind out_bind tag value]. rewrite Z.eqb_refl. cbn [negb].
  apply Forall_app in Hb as [Hb _]. pose proof (element_value_ok _ _ _ Hb Hc) as Hb2.
  rewrite (parse_tlv_complete _ _ _ _ Hb2 Ht). cbn [mbind out_bind tag value]. rewrite Z.eqb_refl. cbn [negb].
  apply Forall_app in Hb2 as [Hb2 _]. pose proof (element_value_ok _ _ _ Hb2 Ht) as Hb3. clear Hb Hb2 Hc Ht.
  set (pos := serial ++ _) in *.
  assert ((if bool_decide (head (version ++ pos) = Some TAG_CONTEXT_0) then skip_tlv (version ++ pos)
           else Ok (version ++ pos)) = Ok pos) as ->.
  { destruct Hv as [->|[v Hv]].
    - unfold pos. cbn [app]. by rewrite (element_head _ _ _ _ H1).
    - rewrite (element_head _ _ _ _ Hv). by apply (skip_complete TAG_CONTEXT_0 v). }
  cbn [mbind out_bind]. unfold pos in *. clear pos.
  repeat match goal with H : bytes_ok (_ ++ ?r) |- _ => lazymatch goal with _ : bytes_ok r |- _ => fail | _ =>
    assert (bytes_ok r) by exact (proj2 (proj1 (Forall_app _ _ _) H)) end end.
  do 5 (erewrite field_complete by eassumption).
  unfold expect. rewrite bool_decide_eq_true_2 by by eapply element_head. cbn [mbind out_bind].
  rewrite (parse_tlv_complete TAG_SEQUENCE v6) by done. cbn [mbind out_bind total_len].
  rewrite index_range_ok by (rewrite ?zlen_app; pose proof (zlen_nonneg spki); pose proof (zlen_nonneg rest); lia).
  f_equal. rewrite Z.sub_0_r, slice_app_l by (pose proof (zlen_nonneg spki); lia). apply slice_all. lia.
Qed.

(** ** Property *)

(** C18. [extract_spki] returns exactly the public key element of a
    certificate: it succeeds with [spki] if and only if the input is a
    certificate (with or without a version, whatever follows the parts it
    walks) whose public key element, tag and length included, is [spki]; and
    it never reads outside the input. *)
Theorem der_extract_correct cert_der spki :
  bytes_ok cert_der ->
  (extract_spki cert_der = Ok spki <-> certificate cert_der spki) /\ extract_spki cert_der <> Panic.
Proof.
  intros Hb. pose proof (extract_sound cert_der Hb) as Hs. split.
  - split; [intros He; by rewrite He in Hs|by apply extract_complete].
  - intros He. by rewrite He in Hs.
Qed.

(** ** A small certificate, as in the unit test of the module *)
Definition der_element (t : Z) (v : list Z) : list Z := t :: (zlen v) :: v.
Definition sample_spki : list Z := der_element 0x30 (der_element 0x30 [6; 1; 42] ++ der_element 3 [0; 4; 170]).
Definition sample_tbs : list Z :=
  der_element 0x30 (der_element 0xA0 [2; 1; 2] ++ der_element 2 [1] ++ der_element 0x30 [6; 1; 42] ++
    der_element 0x30 [49; 0] ++ der_element 0x30 [23; 0] ++ der_element 0x30 [49; 0] ++ sample_spki).
Definition sample_cert : list Z := der_element 0x30 (sample_tbs ++ der_element 3 [0; 222; 173]).

Lemma der_extract_correct_witness : bytes_ok sample_cert /\ certificate sample_cert sample_spki.
Proof.
  assert (bytes_ok sample_cert) as Hb.
  { vm_compute. repeat (apply List.Forall_cons; [split; [discriminate|reflexivity]|]). constructor. }
  split; [exact Hb|]. apply (der_extract_correct sample_cert sample_spki Hb). by vm_compute.
Defined.

End Der.
