(* ===== verification/Dns.v ===== *)
(** * DNS resolver ([net/dns.rs])

    The query builder, the response parser, and the resolver with its cache.
    The socket calls are third-party code: a [session] lists their outcomes,
    in the order the resolver makes them. *)
From S2P Require Import Prelude.
From S2P Require Import Bytes.
From S2P Require Import Fmt.
From S2P Require Import Str.

Module Dns.

Inductive DnsError := InvalidHostname | SocketError | Timeout | NoAnswer | MalformedResponse.

(** [Display for DnsError]. *)
Definition display (e : DnsError) : list Z :=
  match e with
  | InvalidHostname => Fmt.str "invalid hostname"
  | SocketError => Fmt.str "UDP socket error"
  | Timeout => Fmt.str "DNS query timeout"
  | NoAnswer => Fmt.str "no DNS answer"
  | MalformedResponse => Fmt.str "malformed DNS response"
  end.

(** ** Queries *)
Definition header : list Z := [0x12; 0x34; 0x01; 0x00; 0x00; 0x01; 0x00; 0x00; 0x00; 0x00; 0x00; 0x00].

Definition push_label (label pkt : list Z) : out DnsError (list Z) :=
  if bool_decide (label = []) || (63 <? zlen label) then Err InvalidHostname
  else Ok (pkt ++ zlen label :: label).

Definition build_query (hostname : list Z) : out DnsError (list Z) :=
  if bool_decide (hostname = []) || (253 <? zlen hostname) then Err InvalidHostname
  else
    pkt ← for_each push_label (Str.split [46] hostname) header;
    Ok (pkt ++ [0x00] ++ [0x00; 0x01] ++ [0x00; 0x01]).

(** ** Responses *)
(** [loop] over the labels of a name; every turn moves forward. *)
Fixpoint skip_loop (fuel : nat) (data : list Z) (pos : Z) : out DnsError Z :=
  match fuel with
  | O => Panic
  | S fuel =>
      if zlen data <=? pos then Err MalformedResponse
      else
        len ← index data pos;
        if len =? 0 then Ok (pos ⊞ 1)
        else if Z.land len 0xC0 =? 0xC0 then Ok (pos ⊞ 2)
        else skip_loop fuel data (pos ⊞ (1 ⊞ len))
  end.
Definition skip_name (data : list Z) (pos : Z) : out DnsError Z := skip_loop (S (length data)) data pos.

Definition be (data : list Z) (pos n : Z) : out DnsError Z :=
  b ← index_range data pos (pos + n); Ok (from_be b).

Definition skip_question (data : list Z) (pos : Z) : out DnsError Z :=
  pos ← skip_name data pos;
  let pos := pos ⊞ 4 in
  if zlen data <? pos then Err MalformedResponse else Ok pos.

(** The loop over the answers; [return] is the [inr] of the accumulator. *)
Definition read_answer (data : list Z) (pos : Z) : out DnsError (Z + list Z * Z) :=
  pos ← skip_name data pos;
  if zlen data <? pos ⊞ 10 then Err MalformedResponse
  else
    rtype ← be data pos 2;
    ttl ← be data (pos + 4) 4;
    rdlength ← be data (pos + 8) 2;
    let pos := pos ⊞ 10 in
    if zlen data <? pos ⊞ rdlength then Err MalformedResponse
    else if (rtype =? 1) && (rdlength =? 4) then
      ip ← index_range data pos (pos + 4); Ok (inr (ip, ttl))
    else Ok (inl (pos ⊞ rdlength)).

Fixpoint answers_loop (n : nat) (data : list Z) (pos : Z) : out DnsError (list Z * Z) :=
  match n with
  | O => Err NoAnswer
  | S n =>
      r ← read_answer data pos;
      match r with
      | inr a => Ok a
      | inl pos => answers_loop n data pos
      end
  end.

Definition parse_response (data : list Z) : out DnsError (list Z * Z) :=
  if zlen data <? 12 then Err MalformedResponse
  else
    flags ← be data 2 2;
    let qr := Z.land (Z.shiftr flags 15) 1 in
    let rcode := Z.land flags 0x0F in
    if negb (qr =? 1) then Err MalformedResponse
    else if negb (rcode =? 0) then Err NoAnswer
    else
      qdcount ← be data 4 2;
      ancount ← be data 6 2;
      if ancount =? 0 then Err NoAnswer
      else
        pos ← for_each (fun _ pos => skip_question data pos) (seqZ 0 qdcount) 12;
        answers_loop (Z.to_nat ancount) data pos.

(** ** The resolver *)
Record CacheEntry := mkEntry { hostname : list Z; ip : list Z; expires_ms : Z }.
Definition CACHE_SIZE : nat := 8.
Abbreviation Cache := (list (option CacheEntry)).
Definition DNS_CACHE : Cache := replicate CACHE_SIZE None.
Definition DNS_TIMEOUT_MS : Z := 5000.

(** The outcomes of one resolution's calls: the clock when it starts, the
    bind, the send, and what each turn of the wait loop receives with the time
    elapsed after it. *)
Record session := mkSession {
  now_ms : Z;
  bind_ok : bool;
  send_ok : bool;
  turns : list (option (list Z) * Z);
}.

Definition hit (now : Z) (h : list Z) (e : option CacheEntry) : option (list Z) :=
  match e with
  | Some e => if bool_decide (hostname e = h) && (now <? expires_ms e) then Some (ip e) else None
  | None => None
  end.
Fixpoint cached (now : Z) (h : list Z) (c : Cache) : option (list Z) :=
  match c with
  | [] => None
  | e :: c => match hit now h e with Some a => Some a | None => cached now h c end
  end.

(** The wait for a response: [None] when the turns run out before either a
    datagram or the deadline. *)
Fixpoint wait (ts : list (option (list Z) * Z)) : option (out DnsError (list Z * Z)) :=
  match ts with
  | [] => None
  | (Some d, _) :: _ => Some (parse_response d)
  | (None, elapsed) :: ts => if DNS_TIMEOUT_MS <? elapsed then Some (Err Timeout) else wait ts
  end.

(** The slot for a new entry: the loop with its [break]s. *)
Fixpoint find_slot (now : Z) (h : list Z) (c : Cache) (i slot : nat) (oldest : Z) : nat :=
  match c with
  | [] => slot
  | None :: _ => i
  | Some e :: c =>
      if bool_decide (hostname e = h) then i
      else if expires_ms e <? now then i
      else if expires_ms e <? oldest then find_slot now h c (S i) i (expires_ms e)
      else find_slot now h c (S i) slot oldest
  end.

Definition store_entry (now : Z) (h : list Z) (a : list Z) (ttl : Z) (c : Cache) : Cache :=
  let expires := now ⊞ Z.min (ttl ⊠ 1000) 300000 in
  <[find_slot now h c 0 0 (2 ^ 64 - 1) := Some (mkEntry h a expires)]> c.

Definition resolve_a (s : session) (h : list Z) (c : Cache) : option (out DnsError (list Z) * Cache) :=
  match cached (now_ms s) h c with
  | Some a => Some (Ok a, c)
  | None =>
      match build_query h with
      | Err e => Some (Err e, c)
      | Panic => Some (Panic, c)
      | Ok query =>
          if negb (bind_ok s) then Some (Err SocketError, c)
          else if negb (send_ok s) then Some (Err SocketError, c)
          else
            match wait (turns s) with
            | None => None
            | Some (Ok (a, ttl)) => Some (Ok a, store_entry (now_ms s) h a ttl c)
            | Some (Err e) => Some (Err e, c)
            | Some Panic => Some (Panic, c)
            end
      end
  end.

(** ** The messages of RFC 1035 *)
Inductive name_enc : list Z -> Prop :=
| NameRoot : name_enc [0]
| NamePointer a b : 0xC0 <= a < 256 -> name_enc [a; b]
| NameLabel l r : 1 <= zlen l <= 63 -> name_enc r -> name_enc (zlen l :: l ++ r).

Definition question (q : list Z) : Prop := exists n t, q = n ++ t /\ name_enc n /\ zlen t = 4.

Record rr := mkRr { r_name : list Z; r_type : Z; r_class : Z; r_ttl : Z; r_data : list Z }.
Definition rr_bytes (r : rr) : list Z :=
  r_name r ++ be_bytes 2 (r_type r) ++ be_bytes 2 (r_class r) ++ be_bytes 4 (r_ttl r) ++
  be_bytes 2 (zlen (r_data r)) ++ r_data r.
Definition rr_ok (r : rr) : Prop :=
  name_enc (r_name r) /\ 0 <= r_type r < 2 ^ 16 /\ is_u32 (r_ttl r) /\ zlen (r_data r) < 2 ^ 16.

(** The first address record. *)
Definition is_a (r : rr) : Prop := r_type r = 1 /\ zlen (r_data r) = 4.
#[export] Instance is_a_dec r : Decision (is_a r).
Proof. unfold is_a. apply _. Defined.
Definition answer_of (rs : list rr) : out DnsError (list Z * Z) :=
  match list_find is_a rs with
  | Some (_, r) => Ok (r_data r, r_ttl r)
  | None => Err NoAnswer
  end.

Definition response (id flags : Z) (counts : list Z) (qs : list (list Z)) (rs : list rr) (more : list Z) : list Z :=
  be_bytes 2 id ++ be_bytes 2 flags ++ be_bytes 2 (zlen qs) ++ be_bytes 2 (zlen rs) ++ counts ++
  concat qs ++ concat (rr_bytes <$> rs) ++ more.

(** ** Lemmas *)
Lemma pointer_bits len : is_u8 len -> (Z.land len 0xC0 =? 0xC0) = (0xC0 <=? len).
Proof.
  intros Hl. unfold is_u8 in Hl.
  assert (Z.land len 0xC0 = Z.shiftl (Z.land (Z.shiftr len 6) 3) 6) as ->.
  { apply Z.bits_inj'. intros i Hi. rewrite Z.shiftl_spec, !Z.land_spec by done.
    destruct (Z.lt_ge_cases i 6) as [H6|H6].
    - rewrite (Z.testbit_neg_r _ (i - 6)) by lia. replace (Z.testbit 0xC0 i) with false; [by rewrite andb_false_r|].
      assert (i = 0 \/ i = 1 \/ i = 2 \/ i = 3 \/ i = 4 \/ i = 5) as Hc by lia. by destruct Hc as [->|[->|[->|[->|[->| ->]]]]].
    - rewrite Z.shiftr_spec by lia. replace (i - 6 + 6) with i by lia. f_equal.
      change 0xC0 with (Z.shiftl 3 6). by rewrite Z.shiftl_spec by lia. }
  change 3 with (Z.ones 2). rewrite Z.land_ones, Z.shiftr_div_pow2, Z.shiftl_mul_pow2 by lia.
  change (2 ^ 2) with 4. change (2 ^ 6) with 64. rewrite Z.mod_small by lia.
  destruct (Z.eqb_spec (len / 64 * 64) 0xC0), (Z.leb_spec 0xC0 len); lia.
Qed.

Lemma name_nonempty n : name_enc n -> 1 <= zlen n.
Proof. intros Hn. destruct Hn; rewrite zlen_cons; match goal with |- context [zlen ?l] => pose proof (zlen_nonneg l) end; lia. Qed.

Lemma skip_name_at n pre post :
  name_enc n -> zlen (pre ++ n ++ post) < 2 ^ 62 -> skip_name (pre ++ n ++ post) (zlen pre) = Ok (zlen pre + zlen n).
Proof.
  intros Hn Hlen. unfold skip_name.
  assert (forall fuel, (length n < fuel)%nat -> skip_loop fuel (pre ++ n ++ post) (zlen pre) = Ok (zlen pre + zlen n)) as Hg.
  2: { apply Hg. rewrite !length_app. lia. }
  revert pre Hlen. induction Hn as [|a b Ha|l r Hl Hr IH]; intros pre Hlen fuel Hf;
    (destruct fuel as [|fuel]; [lia|]); cbn [skip_loop]; rewrite !zlen_app, ?zlen_cons, ?zlen_nil in Hlen |- *;
    pose proof (zlen_nonneg pre); pose proof (zlen_nonneg post); try pose proof (zlen_nonneg r);
    try (pose proof (zlen_nonneg (l ++ r)) as Hlr; rewrite zlen_app in Hlr).
  - destruct (Z.leb_spec (zlen pre + (1 + 0 + zlen post)) (zlen pre)); [lia|].
    rewrite (index_at _ pre 0 post) by done. cbn [mbind out_bind]. change (0 =? 0) with true. cbn iota. unwrap. f_equal; lia.
  - destruct (Z.leb_spec (zlen pre + (1 + (1 + 0) + zlen post)) (zlen pre)); [lia|].
    rewrite (index_at _ pre a (b :: post)) by done. cbn [mbind out_bind]. destruct (Z.eqb_spec a 0); [lia|].
    rewrite pointer_bits by (unfold is_u8; lia). destruct (Z.leb_spec 0xC0 a); [|lia]. unwrap. f_equal; lia.
  - rewrite !zlen_app in Hlen. rewrite zlen_app.
    destruct (Z.leb_spec (zlen pre + (1 + (zlen l + zlen r) + zlen post)) (zlen pre)); [lia|].
    rewrite (index_at _ pre (zlen l) ((l ++ r) ++ post)) by done. cbn [mbind out_bind].
    destruct (Z.eqb_spec (zlen l) 0); [lia|]. rewrite pointer_bits by (unfold is_u8; lia).
    destruct (Z.leb_spec 0xC0 (zlen l)); [lia|]. unwrap.
    replace (pre ++ (zlen l :: l ++ r) ++ post) with ((pre ++ zlen l :: l) ++ r ++ post)
      by (rewrite <- !app_assoc; cbn; by rewrite <- !app_assoc).
    replace (zlen pre + (1 + zlen l)) with (zlen (pre ++ zlen l :: l)) by (rewrite zlen_app, zlen_cons; lia).
    rewrite IH; [f_equal; rewrite zlen_app, zlen_cons; lia| |].
    + rewrite !zlen_app, zlen_cons. lia.
    + cbn in Hf. rewrite length_app in Hf. lia.
Qed.

Lemma skip_question_at q pre post :
  question q -> zlen (pre ++ q ++ post) < 2 ^ 62 -> skip_question (pre ++ q ++ post) (zlen pre) = Ok (zlen (pre ++ q)).
Proof.
  intros (n & t & -> & Hn & Ht) Hlen. unfold skip_question. rewrite <- app_assoc.
  rewrite <- app_assoc in Hlen. rewrite skip_name_at by done. cbn [mbind out_bind].
  rewrite !zlen_app in Hlen. pose proof (zlen_nonneg pre). pose proof (zlen_nonneg n). pose proof (zlen_nonneg post).
  unwrap. rewrite (proj2 (Z.ltb_ge _ _)) by (rewrite !zlen_app; lia). f_equal. rewrite !zlen_app. lia.
Qed.

Lemma skip_questions_at qs pre post :
  Forall question qs -> zlen (pre ++ concat qs ++ post) < 2 ^ 62 ->
  forall l, length l = length qs ->
  for_each (fun (_ : Z) pos => skip_question (pre ++ concat qs ++ post) pos) l (zlen pre) = Ok (zlen (pre ++ concat qs)).
Proof.
  intros Hq. revert pre. induction Hq as [|q qs Hq Hqs IH]; intros pre Hlen l Hl; (destruct l as [|i l]; [|try discriminate]).
  - cbn. by rewrite app_nil_r.
  - discriminate.
  - cbn [concat for_each]. cbn [concat] in Hlen. rewrite <- app_assoc in Hlen |- *.
    rewrite skip_question_at by done. cbn [mbind out_bind].
    replace (pre ++ q ++ concat qs ++ post) with ((pre ++ q) ++ concat qs ++ post) by by rewrite <- app_assoc.
    rewrite IH; [by rewrite <- app_assoc|by rewrite <- app_assoc|by injection Hl].
Qed.

Lemma be_at l pre n z post a k :
  l = pre ++ be_bytes n z ++ post -> a = zlen pre -> k = Z.of_nat n -> 0 <= z < 256 ^ Z.of_nat n -> be l a k = Ok z.
Proof.
  intros -> -> -> Hz. unfold be. rewrite (index_mid _ pre (be_bytes n z) post) by (rewrite ?zlen_be_bytes; done).
  cbn [mbind out_bind]. by rewrite from_be_bytes_id.
Qed.

Lemma read_answer_at r pre post :
  rr_ok r -> zlen (pre ++ rr_bytes r ++ post) < 2 ^ 62 ->
  read_answer (pre ++ rr_bytes r ++ post) (zlen pre) =
    Ok (if decide (is_a r) then inr (r_data r, r_ttl r) else inl (zlen (pre ++ rr_bytes r))).
Proof.
  intros (Hn & Ht & Httl & Hd) Hlen. unfold read_answer, rr_bytes in *. rewrite <- !app_assoc in *.
  rewrite skip_name_at by done. cbn [mbind out_bind].
  pose proof (zlen_nonneg pre). pose proof (zlen_nonneg (r_name r)). pose proof (zlen_nonneg post). pose proof (zlen_nonneg (r_data r)).
  assert (zlen (pre ++ r_name r) = zlen pre + zlen (r_name r)) as Hp by by rewrite zlen_app. 
  set (data := pre ++ _) in *. unfold is_u32 in Httl.
  assert (zlen data = zlen (pre ++ r_name r) + 10 + zlen (r_data r) + zlen post) as Hz.
  { unfold data. rewrite !zlen_app, !zlen_be_bytes. lia. }
  rewrite <- Hp. unwrap. rewrite (proj2 (Z.ltb_ge _ _)) by lia.
  erewrite (be_at data (pre ++ r_name r) 2 (r_type r) _ (zlen (pre ++ r_name r)) 2); [|unfold data; by rewrite <- ?app_assoc|done|done|lia].
  cbn [mbind out_bind].
  erewrite (be_at data (pre ++ r_name r ++ be_bytes 2 (r_type r) ++ be_bytes 2 (r_class r)) 4 (r_ttl r) _
    (zlen (pre ++ r_name r) + 4) 4);
    [|unfold data; by rewrite <- ?app_assoc|rewrite !zlen_app, !zlen_be_bytes; lia|done|done].
  cbn [mbind out_bind].
  erewrite (be_at data (pre ++ r_name r ++ be_bytes 2 (r_type r) ++ be_bytes 2 (r_class r) ++ be_bytes 4 (r_ttl r)) 2
    (zlen (r_data r)) _ (zlen (pre ++ r_name r) + 8) 2); [|unfold data; by rewrite <- ?app_assoc|rewrite !zlen_app, !zlen_be_bytes; lia|done|lia].
  cbn [mbind out_bind]. unwrap. rewrite (proj2 (Z.ltb_ge _ _)) by lia.
  assert (((r_type r =? 1) && (zlen (r_data r) =? 4)) = bool_decide (is_a r)) as ->.
  { unfold is_a. destruct (Z.eqb_spec (r_type r) 1), (Z.eqb_spec (zlen (r_data r)) 4); cbn; by case_bool_decide; intuition. }
  case_bool_decide as Ha; destruct (decide (is_a r)); [|done|done|].
  - rewrite (index_mid data (pre ++ r_name r ++ be_bytes 2 (r_type r) ++ be_bytes 2 (r_class r) ++ be_bytes 4 (r_ttl r) ++
      be_bytes 2 (zlen (r_data r))) (r_data r) post); [done|unfold data; by rewrite <- ?app_assoc| |].
    + rewrite !zlen_app, !zlen_be_bytes. lia.
    + destruct Ha as [_ Ha]. rewrite !zlen_app, !zlen_be_bytes. lia.
  - do 2 f_equal. rewrite !zlen_app, !zlen_be_bytes. lia.
Qed.

Lemma answers_at rs pre post :
  Forall rr_ok rs -> zlen (pre ++ concat (rr_bytes <$> rs) ++ post) < 2 ^ 62 ->
  answers_loop (length rs) (pre ++ concat (rr_bytes <$> rs) ++ post) (zlen pre) = answer_of rs.
Proof.
  intros Hr. revert pre. induction Hr as [|r rs Hr Hrs IH]; intros pre Hlen; [done|].
  cbn [fmap list_fmap concat answers_loop length] in *. rewrite <- app_assoc in Hlen |- *.
  rewrite read_answer_at by done. cbn [mbind out_bind]. unfold answer_of. cbn [list_find].
  destruct (decide (is_a r)); [done|].
  replace (pre ++ rr_bytes r ++ concat (rr_bytes <$> rs) ++ post) with ((pre ++ rr_bytes r) ++ concat (rr_bytes <$> rs) ++ post)
    by by rewrite <- app_assoc.
  rewrite IH by by rewrite <- app_assoc. unfold answer_of. by destruct (list_find is_a rs) as [[i r']|].
Qed.

(** No input makes the parser panic or run on. *)
Definition stays (data : list Z) (lo : Z) (m : out DnsError Z) : Prop :=
  match m with Ok p => lo < p <= zlen data + 1 | Err _ => True | Panic => False end.

Lemma index_in (data : list Z) pos :
  bytes_ok data -> 0 <= pos < zlen data -> exists b, @index DnsError _ data pos = Ok b /\ is_u8 b.
Proof.
  intros Hb Hp. destruct (lookup_lt_is_Some_2 data (Z.to_nat pos)) as [b Hl]; [unfold zlen in Hp; lia|].
  exists b. split; [by apply index_lookup; [lia|]|]. by eapply Forall_lookup_1 in Hb.
Qed.

Lemma skip_name_stays data pos :
  bytes_ok data -> zlen data < 2 ^ 62 -> 0 <= pos -> stays data pos (skip_name data pos).
Proof.
  intros Hb Hlen Hp. unfold skip_name.
  assert (forall fuel p, pos <= p -> zlen data - p < Z.of_nat fuel -> (0 < fuel)%nat ->
    stays data pos (skip_loop fuel data p)) as Hg; [|apply Hg; unfold zlen; lia].
  induction fuel as [|fuel IH]; intros p Hpp Hf Hf0; [lia|]. cbn [skip_loop].
  destruct (Z.leb_spec (zlen data) p); [done|]. destruct (index_in data p Hb ltac:(lia)) as (b & -> & Hb8).
  unfold is_u8 in Hb8. cbn [mbind out_bind]. destruct (Z.eqb_spec b 0); [cbn; unwrap; lia|]. rewrite pointer_bits by done.
  destruct (Z.leb_spec 0xC0 b).
  - unwrap. unfold stays. destruct (decide (p + 2 <= zlen data + 1)); lia.
  - unwrap. destruct fuel as [|fuel]; [lia|]. apply IH; lia.
Qed.

Lemma be_in data pos n :
  bytes_ok data -> 0 <= pos -> 0 <= n -> pos + n <= zlen data -> exists v, be data pos n = Ok v /\ 0 <= v < 256 ^ n.
Proof.
  intros Hb Hp Hn Hl. unfold be. rewrite index_range_ok by lia. eexists. split; [done|].
  pose proof (from_be_bound (slice data pos (pos + n - pos)) ltac:(by apply bytes_ok_slice)) as Hv.
  rewrite zlen_slice in Hv by lia. by replace (Z.max 0 (Z.min (pos + n - pos) (zlen data - pos))) with n in Hv by lia.
Qed.

Lemma read_answer_total data pos :
  bytes_ok data -> zlen data < 2 ^ 62 -> 0 <= pos ->
  match read_answer data pos with
  | Ok (inl p) => 0 <= p <= zlen data
  | Ok (inr (_, ttl)) => is_u32 ttl
  | Err _ => True
  | Panic => False
  end.
Proof.
  intros Hb Hlen Hp. unfold read_answer. pose proof (skip_name_stays data pos Hb Hlen Hp) as Hs.
  destruct (skip_name data pos) as [p|e|]; [|done|done]. cbn [mbind out_bind] in *. unfold stays in Hs. unwrap.
  destruct (Z.ltb_spec (zlen data) (p + 10)); [done|].
  destruct (be_in data p 2 Hb) as (ty & -> & _); [lia..|]. destruct (be_in data (p + 4) 4 Hb) as (ttl & -> & Httl); [lia..|].
  destruct (be_in data (p + 8) 2 Hb) as (rd & -> & Hrd); [lia..|]. cbn [mbind out_bind]. unwrap.
  destruct (Z.ltb_spec (zlen data) (p + 10 + rd)); [done|]. destruct (_ && _) eqn:Ha; [|lia].
  apply andb_true_iff in Ha as [_ ->%Z.eqb_eq]. rewrite index_range_ok by lia. exact Httl.
Qed.

Lemma skip_question_total data pos :
  bytes_ok data -> zlen data < 2 ^ 62 -> 0 <= pos ->
  match skip_question data pos with Ok p => 0 <= p <= zlen data | Err _ => True | Panic => False end.
Proof.
  intros Hb Hlen Hp. unfold skip_question. pose proof (skip_name_stays data pos Hb Hlen Hp) as Hs.
  destruct (skip_name data pos) as [p|e|]; [|exact I|exact Hs]. cbn [mbind out_bind]. unfold stays in Hs. unwrap.
  destruct (Z.ltb_spec (zlen data) (p + 4)); [exact I|lia].
Qed.

Lemma parse_response_total data : 
  bytes_ok data -> zlen data < 2 ^ 62 ->
  match parse_response data with Ok (_, ttl) => is_u32 ttl | Err _ => True | Panic => False end.
Proof.
  intros Hb Hlen. unfold parse_response. destruct (Z.ltb_spec (zlen data) 12); [done|].
  destruct (be_in data 2 2 Hb) as (fl & -> & _); [lia..|]. cbn [mbind out_bind]. do 2 (destruct (negb _); [done|]).
  destruct (be_in data 4 2 Hb) as (qd & -> & _); [lia..|]. destruct (be_in data 6 2 Hb) as (an & -> & _); [lia..|].
  cbn [mbind out_bind]. destruct (an =? 0); [done|].
  assert (forall l p, 0 <= p <= zlen data ->
    match for_each (fun (_ : Z) pos => skip_question data pos) l p with Ok p => 0 <= p <= zlen data | Err _ => True | Panic => False end) as Hq.
  { induction l as [|i l IH]; intros p Hp; cbn [for_each]; [done|].
    pose proof (skip_question_total data p Hb Hlen ltac:(lia)) as Hs.
    destruct (skip_question data p); [by apply IH|exact I|exact Hs]. }
  specialize (Hq (seqZ 0 qd) 12 ltac:(lia)). destruct (for_each _ _ _) as [p|e|]; [|done|done]. cbn [mbind out_bind].
  clear - Hb Hlen Hq. revert p Hq. induction (Z.to_nat an) as [|n IH]; intros p Hp; cbn [answers_loop]; [done|].
  pose proof (read_answer_total data p Hb Hlen ltac:(lia)) as Hr. destruct (read_answer data p) as [[p'|[a ttl]]|e|]; [|exact Hr|done|done].
  cbn [mbind out_bind]. by apply IH.
Qed.

(** ** Queries, as a name server reads them *)
Fixpoint decode_name (fuel : nat) (l : list Z) : option (list (list Z) * list Z) :=
  match fuel, l with
  | S fuel, n :: l =>
      if n =? 0 then Some ([], l)
      else r ← decode_name fuel (drop (Z.to_nat n) l); Some (take (Z.to_nat n) l :: fst r, snd r)
  | _, _ => None
  end.

Definition label_ok (l : list Z) : Prop := 1 <= zlen l <= 63.
#[export] Instance label_ok_dec l : Decision (label_ok l).
Proof. unfold label_ok. apply _. Defined.
Definition valid_host (h : list Z) : Prop := 0 < zlen h <= 253 /\ Forall label_ok (Str.split [46] h).

Definition encode_labels (ls : list (list Z)) : list Z := concat ((fun l => zlen l :: l) <$> ls).

Lemma push_label_eq l pkt :
  push_label l pkt = if decide (label_ok l) then Ok (pkt ++ zlen l :: l) else Err InvalidHostname.
Proof.
  unfold push_label, label_ok. destruct l as [|x l].
  - destruct (decide _) as [[Hl _]|_]; [by vm_compute in Hl|done].
  - rewrite (bool_decide_eq_false_2 (x :: l = [])) by done. cbn [orb]. assert (1 <= zlen (x :: l)) by (rewrite zlen_cons; pose proof (zlen_nonneg l); lia).
    destruct (Z.ltb_spec 63 (zlen (x :: l))), (decide (1 <= zlen (x :: l) <= 63)); first [done|lia].
Qed.

Lemma push_labels ls pkt :
  for_each push_label ls pkt = if decide (Forall label_ok ls) then Ok (pkt ++ encode_labels ls) else Err InvalidHostname.
Proof.
  revert pkt. induction ls as [|l ls IH]; intros pkt.
  - cbn. by rewrite app_nil_r.
  - cbn [for_each]. rewrite push_label_eq. destruct (decide (label_ok l)) as [Hl|Hl]; cbn [mbind out_bind].
    + rewrite IH. destruct (decide (Forall label_ok ls)), (decide (Forall label_ok (l :: ls))) as [Hf|Hf]; try done.
      * unfold encode_labels. cbn. by rewrite <- app_assoc.
      * destruct Hf. by constructor.
      * by apply Forall_cons_1 in Hf as [_ ?].
    + destruct (decide (Forall label_ok (l :: ls))) as [Hf|Hf]; [|done]. by apply Forall_cons_1 in Hf as [? _].
Qed.

Lemma decode_labels ls rest fuel :
  Forall label_ok ls -> (length ls < fuel)%nat -> decode_name fuel (encode_labels ls ++ 0 :: rest) = Some (ls, rest).
Proof.
  intros Hf. revert fuel. induction Hf as [|l ls Hl Hls IH]; intros fuel Hfu; (destruct fuel as [|fuel]; [simpl in Hfu; lia|]).
  - done.
  - unfold encode_labels. cbn. rewrite <- app_assoc. fold (encode_labels ls). unfold label_ok in Hl.
    destruct (Z.eqb_spec (zlen l) 0); [lia|]. assert (Z.to_nat (zlen l) = length l) as -> by (unfold zlen; lia).
    rewrite drop_app_length, take_app_length, IH by (simpl in Hfu; lia). done.
Qed.

(** A query carries exactly the host name.  [build_query] succeeds on the
    host names of one to 253 bytes whose labels have one to 63 bytes, and
    fails with [InvalidHostname] on every other one; a name server decodes its
    question to labels that, joined with dots, are the host name again, with
    type A and class IN. *)
Theorem dns_query_roundtrip h :
  match build_query h with
  | Ok pkt =>
      valid_host h /\ take 12 pkt = header /\
      exists labels, decode_name (S (length labels)) (drop 12 pkt) = Some (labels, [0; 1; 0; 1]) /\ Str.join [46] labels = h
  | Err e => e = InvalidHostname /\ ~ valid_host h
  | Panic => False
  end.
Proof.
  unfold build_query. destruct (Str.split_join 46 h) as (Hj & _ & _). pose proof (zlen_nonneg h).
  destruct (bool_decide (h = []) || (253 <? zlen h)) eqn:Hb.
  { split; [done|]. intros [Hz _]. apply orb_true_iff in Hb as [Hb|Hb]; [|apply Z.ltb_lt in Hb; lia].
    case_bool_decide as Hh; [|done]. subst h. unfold zlen in Hz. simpl in Hz. lia. }
  apply orb_false_iff in Hb as [Hb1 Hb2%Z.ltb_ge]. case_bool_decide as Hh; [done|].
  rewrite push_labels. destruct (decide (Forall label_ok (Str.split [46] h))) as [Hf|Hf]; cbn [mbind out_bind].
  - split; [split; [|done]; destruct h; [done|rewrite zlen_cons in *; pose proof (zlen_nonneg h); lia]|].
    split; [done|]. exists (Str.split [46] h). split; [|done]. cbn [app drop header].
    by apply (decode_labels (Str.split [46] h)); [|lia].
  - split; [done|]. by intros [_ ?].
Qed.

(** C19. The response parser finds the first address record.  On every
    well-formed response to a query (any number of questions and records,
    names in any compressed form, anything after them) the result is the
    address and lifetime of the first record of type A with four bytes of
    data, and [NoAnswer] when there is none; and no input at all, well formed
    or not, makes it read out of bounds or loop. *)
Theorem dns_response_correct id flags counts qs rs more data :
  bytes_ok data -> zlen data < 2 ^ 62 ->
  parse_response data <> Panic /\
  (data = response id flags counts qs rs more -> 0 <= flags < 2 ^ 16 -> zlen counts = 4 ->
   Forall question qs -> Forall rr_ok rs -> zlen qs < 2 ^ 16 -> 0 < zlen rs < 2 ^ 16 ->
   parse_response data =
     if Z.testbit flags 15 then if Z.land flags 0x0F =? 0 then answer_of rs else Err NoAnswer else Err MalformedResponse).
Proof.
  intros Hb Hlen. split.
  { pose proof (parse_response_total data Hb Hlen) as Ht. by destruct (parse_response data). }
  intros -> Hf Hc Hqs Hrs Hnq Hnr.
  pose proof (zlen_nonneg qs) as Hnq0. unfold parse_response. set (data := response _ _ _ _ _ _) in *.
  assert (zlen data = 12 + zlen (concat qs ++ concat (rr_bytes <$> rs) ++ more)) as Hz.
  { unfold data, response. rewrite !zlen_app, !zlen_be_bytes, Hc. lia. }
  rewrite (proj2 (Z.ltb_ge _ _)) by (pose proof (zlen_nonneg (concat qs ++ concat (rr_bytes <$> rs) ++ more)); lia).
  rewrite (be_at data (be_bytes 2 id) 2 flags
    (be_bytes 2 (zlen qs) ++ be_bytes 2 (zlen rs) ++ counts ++ concat qs ++ concat (rr_bytes <$> rs) ++ more) 2 2)
    by (rewrite ?zlen_be_bytes; first [done|change (256 ^ Z.of_nat 2) with (2 ^ 16); lia]).
  cbn [mbind out_bind].
  assert ((Z.land (Z.shiftr flags 15) 1 =? 1) = Z.testbit flags 15) as ->.
  { change 1 with (Z.ones 1) at 1. rewrite Z.land_ones by lia. change (2 ^ 1) with 2. rewrite <- Z.bit0_mod, Z.shiftr_spec by lia.
    change (0 + 15) with 15. by destruct (Z.testbit flags 15). }
  destruct (Z.testbit flags 15); [|done]. cbn [negb]. destruct (Z.land flags 15 =? 0); [|done]. cbn [negb].
  rewrite (be_at data (be_bytes 2 id ++ be_bytes 2 flags) 2 (zlen qs)
    (be_bytes 2 (zlen rs) ++ counts ++ concat qs ++ concat (rr_bytes <$> rs) ++ more) 4 2)
    by (rewrite ?zlen_app, ?zlen_be_bytes; first [done|change (256 ^ Z.of_nat 2) with (2 ^ 16); lia|unfold data, response; by rewrite <- ?app_assoc]).
  rewrite (be_at data (be_bytes 2 id ++ be_bytes 2 flags ++ be_bytes 2 (zlen qs)) 2 (zlen rs)
    (counts ++ concat qs ++ concat (rr_bytes <$> rs) ++ more) 6 2)
    by (rewrite ?zlen_app, ?zlen_be_bytes; first [done|change (256 ^ Z.of_nat 2) with (2 ^ 16); lia|unfold data, response; by rewrite <- ?app_assoc]).
  cbn [mbind out_bind]. destruct (Z.eqb_spec (zlen rs) 0); [lia|].
  set (hd := be_bytes 2 id ++ be_bytes 2 flags ++ be_bytes 2 (zlen qs) ++ be_bytes 2 (zlen rs) ++ counts).
  assert (zlen hd = 12) as Hhd by (unfold hd; rewrite !zlen_app, !zlen_be_bytes, Hc; lia).
  assert (data = hd ++ concat qs ++ concat (rr_bytes <$> rs) ++ more) as Hd by (unfold data, response, hd; by rewrite <- ?app_assoc).
  rewrite Hd in *. rewrite <- Hhd.
  rewrite skip_questions_at; [|done|done|rewrite length_seqZ; unfold zlen; lia]. cbn [mbind out_bind].
  rewrite app_assoc in Hlen |- *. replace (Z.to_nat (zlen rs)) with (length rs) by (unfold zlen; lia). by apply answers_at.
Qed.

(** ** The cache over time

    [log] lists the responses that were accepted, newest first. *)
Record answer := mkAnswer { a_host : list Z; a_ip : list Z; a_ttl : Z; a_time : Z }.
Definition deadline (a : answer) : Z := a_time a + Z.min (a_ttl a * 1000) 300000.
Record dstate := mkD { cache : Cache; log : list answer; clock : Z }.

(** The response a resolution accepted, if it went to the network. *)
Definition answered (s : session) (h : list Z) (c : Cache) : list answer :=
  match cached (now_ms s) h c, build_query h, bind_ok s && send_ok s, wait (turns s) with
  | None, Ok _, true, Some (Ok (a, ttl)) => [mkAnswer h a ttl (now_ms s)]
  | _, _, _, _ => []
  end.

Definition session_ok (s : session) : Prop :=
  Forall (fun t : option (list Z) * Z => forall d, fst t = Some d -> bytes_ok d /\ zlen d <= 512) (turns s).

Inductive dstep : dstate -> dstate -> Prop :=
| DResolve d s h r c :
    clock d <= now_ms s < 2 ^ 63 -> session_ok s -> resolve_a s h (cache d) = Some (r, c) ->
    dstep d (mkD c (answered s h (cache d) ++ log d) (now_ms s)).

Definition newest (h : list Z) (l : list answer) : option answer := snd <$> list_find (fun a => a_host a = h) l.

Record cache_inv (d : dstate) : Prop := {
  ci_length : length (cache d) = CACHE_SIZE;
  ci_clock : 0 <= clock d;
  ci_entry e : Some e ∈ cache d -> exists a, a ∈ log d /\ a_host a = hostname e /\ a_ip a = ip e /\
    deadline a = expires_ms e /\ (clock d < expires_ms e -> newest (hostname e) (log d) = Some a);
}.

Lemma cached_some t h c a :
  cached t h c = Some a -> exists e, Some e ∈ c /\ hostname e = h /\ ip e = a /\ t < expires_ms e.
Proof.
  induction c as [|o c IH]; cbn [cached]; [done|]. destruct (hit t h o) as [x|] eqn:Hh.
  - intros [= ->]. destruct o as [e|]; cbn in Hh; [|done]. case_bool_decide; cbn in Hh; [|done].
    destruct (Z.ltb_spec t (expires_ms e)); [|done]. injection Hh as <-. exists e. split; [by left|done].
  - intros Hc. destruct (IH Hc) as (e & He & Hr). exists e. split; [by right|done].
Qed.

Lemma cached_none t h c e : cached t h c = None -> Some e ∈ c -> hostname e = h -> expires_ms e <= t.
Proof.
  induction c as [|o c IH]; cbn [cached]; [by intros _ ?%elem_of_nil|]. destruct (hit t h o) as [x|] eqn:Hh; [done|].
  intros Hc [<-|Hin]%elem_of_cons Hn; [|by apply IH]. cbn in Hh. rewrite bool_decide_eq_true_2 in Hh by done. cbn in Hh.
  by destruct (Z.ltb_spec t (expires_ms e)).
Qed.

Lemma find_slot_lt now h c i slot oldest :
  (slot < i + length c)%nat -> (find_slot now h c i slot oldest < i + length c)%nat.
Proof.
  revert i slot oldest. induction c as [|[e|] c IH]; intros i slot oldest Hs; cbn [find_slot length] in *; [done| |lia].
  case_bool_decide; [lia|]. destruct (expires_ms e <? now); [lia|].
  destruct (expires_ms e <? oldest); (eapply Nat.lt_le_trans; [apply IH|]; lia).
Qed.

Lemma wait_ttl ts a ttl :
  Forall (fun t : option (list Z) * Z => forall d, fst t = Some d -> bytes_ok d /\ zlen d <= 512) ts ->
  wait ts = Some (Ok (a, ttl)) -> is_u32 ttl.
Proof.
  induction 1 as [|[[d|] el] ts Ht Hts IH]; cbn [wait]; [done| |by case_match].
  destruct (Ht d eq_refl) as [Hb Hl]. pose proof (parse_response_total d Hb ltac:(lia)) as Hp.
  intros [= He]. by rewrite He in Hp.
Qed.

Lemma dstep_inv d d' : dstep d d' -> cache_inv d -> cache_inv d'.
Proof.
  intros [d1 s h r c Hclk Hs Hr] [Hlen Hck Hent].
  assert (cache_inv (mkD (cache d1) (log d1) (now_ms s))) as Hkeep.
  { split; cbn [cache clock log]; [done|lia|]. intros e He. destruct (Hent e He) as (a & ? & ? & ? & ? & Hn).
    exists a. split_and!; try done. intros Hlt. apply Hn. lia. }
  unfold resolve_a in Hr. unfold answered. destruct (cached (now_ms s) h (cache d1)) as [a|] eqn:Hc; [by injection Hr as <- <-|].
  destruct (build_query h) as [q|e|]; [|by injection Hr as <- <-..].
  destruct (bind_ok s), (send_ok s); cbn [negb andb] in *; [|by injection Hr as <- <-..].
  destruct (wait (turns s)) as [[[a ttl]|e|]|] eqn:Hw; [|by injection Hr as <- <-..|done]. injection Hr as <- <-. cbn [app].
  pose proof (wait_ttl _ _ _ Hs Hw) as Httl. unfold is_u32 in Httl.
  set (new := mkAnswer h a ttl (now_ms s)). unfold store_entry. cbn [cache clock log].
  assert (now_ms s ⊞ Z.min (ttl ⊠ 1000) 300000 = deadline new) as -> by (unfold deadline, new; cbn; unwrap; lia).
  split; cbn [cache clock log]; [by rewrite length_insert|lia|]. intros e He.
  apply list_elem_of_lookup in He as [i Hi].
  destruct (decide (i = find_slot (now_ms s) h (cache d1) 0 0 (2 ^ 64 - 1))) as [->|Hne].
  - rewrite list_lookup_insert_eq in Hi by (apply find_slot_lt; rewrite Hlen; unfold CACHE_SIZE; lia). injection Hi as <-.
    exists new. split; [by left|]. split_and!; try done. intros _. cbn. unfold newest. cbn. by rewrite decide_True.
  - rewrite list_lookup_insert_ne in Hi by done. apply list_elem_of_lookup_2 in Hi.
    destruct (ci_entry _ Hkeep e Hi) as (a' & Hin & H1 & H2 & H3 & Hn). exists a'. split; [by right|]. split_and!; try done.
    intros Hlt. cbn [clock] in *. assert (h <> hostname e) as Hh.
    { intros ->. pose proof (cached_none _ _ _ _ Hc Hi eq_refl). lia. }
    unfold newest. cbn. rewrite decide_False by done. specialize (Hn Hlt). unfold newest in Hn. cbn in Hn.
    by destruct (list_find _ (log d1)) as [[j x]|].
Qed.

Lemma dsteps_inv d d' : rtc dstep d d' -> cache_inv d -> cache_inv d'.
Proof. induction 1; [done|]. intros Hi. eauto using dstep_inv. Qed.

(** C20. The cache never serves a stale answer.  After any sequence of
    resolutions from the empty cache, with a clock that does not go back, an
    address the cache serves at time [t] is the one of the newest response
    accepted for that host name, and [t] is before the end of its lifetime or
    of five minutes, whichever is shorter. *)
Theorem dns_cache_sound d t h a :
  rtc dstep (mkD DNS_CACHE [] 0) d -> clock d <= t -> cached t h (cache d) = Some a ->
  exists r, newest h (log d) = Some r /\ a_ip r = a /\ t < deadline r /\ deadline r <= a_time r + 300000.
Proof.
  intros Hr Ht Hc. assert (cache_inv d) as Hi.
  { apply (dsteps_inv _ _ Hr). split; [done|done|]. intros e He. by apply elem_of_replicate in He as [? _]. }
  destruct (cached_some _ _ _ _ Hc) as (e & He & <- & <- & Hlt).
  destruct (ci_entry d Hi e He) as (r & _ & _ & H2 & H3 & Hn). exists r.
  split; [apply Hn; lia|]. split; [done|]. split; [lia|]. unfold deadline. lia.
Qed.

(** ** Witnesses: a response for [a.b] with an alias and an address *)
Definition sample_host : list Z := [97; 46; 98].
Definition sample_question : list Z := [1; 97; 1; 98; 0; 0; 1; 0; 1].
Definition sample_records : list rr :=
  [mkRr [0xC0; 12] 5 1 60 [1; 99; 0]; mkRr [1; 99; 0] 1 1 60 [10; 1; 2; 3]].
Definition sample_response : list Z := response 0x1234 0x8180 [0; 0; 0; 0] [sample_question] sample_records [].
Definition sample_session : session := mkSession 1000 true true [(None, 3); (Some sample_response, 5)].
Definition sample_state : dstate :=
  mkD (Some (mkEntry sample_host [10; 1; 2; 3] 61000) :: replicate 7 None)
    [mkAnswer sample_host [10; 1; 2; 3] 60 1000] 1000.

Lemma sample_bytes : bytes_ok sample_response.
Proof. vm_compute. repeat (apply List.Forall_cons; [split; [discriminate|reflexivity]|]). constructor. Qed.

Lemma sample_question_ok : question sample_question.
Proof.
  exists [1; 97; 1; 98; 0], [0; 1; 0; 1]. split_and!; [done| |done].
  apply (NameLabel [97]); [done|]. apply (NameLabel [98]); [done|]. constructor.
Qed.

Lemma sample_records_ok : Forall rr_ok sample_records.
Proof.
  repeat constructor; try done; try (cbn; lia). apply (NameLabel [99]); [done|constructor].
Qed.

Lemma dns_response_correct_witness : parse_response sample_response = Ok ([10; 1; 2; 3], 60).
Proof.
  apply (dns_response_correct 0x1234 0x8180 [0; 0; 0; 0] [sample_question] sample_records [] sample_response);
    [exact sample_bytes|done|done|lia|done|constructor; [exact sample_question_ok|done]|exact sample_records_ok|done|done].
Defined.

Lemma sample_step : rtc dstep (mkD DNS_CACHE [] 0) sample_state.
Proof.
  apply rtc_once. apply (DResolve (mkD DNS_CACHE [] 0) sample_session sample_host (Ok [10; 1; 2; 3])); [cbn; lia| |by vm_compute].
  apply List.Forall_cons; [done|]. apply List.Forall_cons; [|constructor]. intros d [= <-]. split; [exact sample_bytes|done].
Qed.

Lemma dns_cache_sound_witness :
  exists r, newest sample_host (log sample_state) = Some r /\ a_ip r = [10; 1; 2; 3] /\
    60999 < deadline r /\ deadline r <= a_time r + 300000.
Proof.
  apply (dns_cache_sound sample_state 60999 sample_host [10; 1; 2; 3]); [exact sample_step|cbn; lia|by vm_compute].
Defined.

End Dns.
