(* ===== verification/Sqlite.v ===== *)
(** * SQLite wrapper ([sqlite/ffi.rs], [sqlite/mod.rs])

    The connection type over the C library, which is third-party code: the
    class [Engine] gives its functions, C strings are read at their pointers,
    and a null pointer is 0.  [EngineSpec] states what the wrapper relies on. *)
From S2P Require Import Prelude.
From S2P Require Import Bytes.
From S2P Require Import Utf8.
From S2P Require Import Fmt.
From S2P Require Import Str.
From S2P Require Import Json.

Module Sqlite.
Export Utf8 Fmt.

Definition SQLITE_OK : Z := 0.
Definition SQLITE_ROW : Z := 100.
Definition SQLITE_DONE : Z := 101.
Definition SQLITE_OPEN_READWRITE : Z := 2.
Definition SQLITE_OPEN_CREATE : Z := 4.
Definition SQLITE_INTEGER : Z := 1.
Definition SQLITE_FLOAT : Z := 2.
Definition SQLITE_TEXT : Z := 3.
Definition SQLITE_NULL : Z := 5.

(** The C library over its state: connections and statements are pointers. *)
Class Engine (W : Type) := {
  sqlite3_open_v2 : list Z -> Z -> list Z -> W -> (Z * Z) * W;
  sqlite3_close : Z -> W -> W;
  sqlite3_exec : Z -> list Z -> W -> (Z * Z) * W;
  sqlite3_errmsg : Z -> W -> Z;
  sqlite3_free : Z -> W -> W;
  sqlite3_prepare_v2 : Z -> list Z -> W -> (Z * Z) * W;
  sqlite3_step : Z -> W -> Z * W;
  sqlite3_column_count : Z -> W -> Z;
  sqlite3_column_name : Z -> Z -> W -> Z;
  sqlite3_column_type : Z -> Z -> W -> Z;
  sqlite3_column_int64 : Z -> Z -> W -> Z;
  sqlite3_column_double : Z -> Z -> W -> Json.f64;
  sqlite3_column_text : Z -> Z -> W -> Z * W;
  sqlite3_finalize : Z -> W -> W;
  bytes_at : Z -> W -> list Z;
}.

(** The text a C function reads from a buffer: up to the first NUL. *)
Fixpoint c_text (buf : list Z) : list Z :=
  match buf with
  | [] => []
  | b :: buf => if b =? 0 then [] else b :: c_text buf
  end.

Inductive SqlValue := SqlNull | SqlInteger (n : Z) | SqlReal (x : Json.f64) | SqlText (s : list Z).
Definition as_str (v : SqlValue) : option (list Z) := match v with SqlText s => Some s | _ => None end.
Definition as_integer (v : SqlValue) : option Z := match v with SqlInteger n => Some n | _ => None end.

Record QueryResult := mkResult { columns : list (list Z); rows : list (list SqlValue) }.

Definition dec_i64 (n : Z) : list Z := if n <? 0 then 45 :: dec (- n) else dec n.

Section sqlite.
Context {W : Type} `{Engine W}.
(** The text of a float is the formatting of the Rust library. *)
Variable f64_text : Json.f64 -> list Z.
(** The [loop] over the rows runs until the statement is done; with fewer
    turns than the statement has rows, the call has not returned ([Panic]). *)
Variable turns : nat.

Definition L (A : Type) : Type := st W (list Z) A.
Definition call {A} (f : W -> A * W) : L A := fun s => let '(a, s') := f s in (Ok a, s').
Definition look {A} (f : W -> A) : L A := fun s => (Ok (f s), s).

Definition cstr_to_string (ptr : Z) : L (list Z) := look (fun s => from_utf8_lossy (c_text (bytes_at ptr s))).
Definition errmsg_string (db : Z) : L (list Z) :=
  msg ← look (sqlite3_errmsg db);
  if msg =? 0 then mret (str "unknown error") else cstr_to_string msg.

Definition open (name : list Z) : L Z :=
  r ← call (sqlite3_open_v2 (c_text (name ++ [0])) (Z.lor SQLITE_OPEN_READWRITE SQLITE_OPEN_CREATE) (str "heaven"));
  let '(rc, db) := r in
  if negb (rc =? SQLITE_OK) then
    msg ← (if negb (db =? 0) then errmsg_string db
           else mret (str "sqlite3_open_v2 failed: " ++ dec_i64 rc));
    _ ← (if negb (db =? 0) then call (fun s => (tt, sqlite3_close db s)) else mret tt);
    st_err msg
  else mret db.

Definition exec (db : Z) (sql : list Z) : L unit :=
  r ← call (sqlite3_exec db (c_text (sql ++ [0])));
  let '(rc, errmsg) := r in
  if negb (rc =? SQLITE_OK) then
    msg ← (if negb (errmsg =? 0) then
             s ← cstr_to_string errmsg;
             _ ← call (fun st => (tt, sqlite3_free errmsg st));
             mret s
           else errmsg_string db);
    st_err msg
  else mret tt.

(** [for i in 0..n]. *)
Definition each {A} (n : Z) (f : Z -> A -> L A) (a : A) : L A := st_range 0 n f a.

Definition bar (i : Z) (output : list Z) : list Z := if 0 <? i then output ++ [124] else output.

Definition header_cell (stmt i : Z) (output : list Z) : L (list Z) :=
  name ← look (sqlite3_column_name stmt i);
  if negb (name =? 0) then s ← cstr_to_string name; mret (bar i output ++ s) else mret (bar i output).

Definition text_cell (stmt i : Z) (output : list Z) : L (list Z) :=
  col_type ← look (sqlite3_column_type stmt i);
  if col_type =? SQLITE_NULL then mret (bar i output ++ str "NULL")
  else
    text ← call (sqlite3_column_text stmt i);
    if negb (text =? 0) then s ← cstr_to_string text; mret (bar i output ++ s) else mret (bar i output).

(** The loop over the rows, with what a row adds to the accumulator. *)
Fixpoint rows_loop {A} (n : nat) (db stmt : Z) (row : A -> L A) (a : A) : L A :=
  match n with
  | O => st_panic
  | S n =>
      step_rc ← call (sqlite3_step stmt);
      if step_rc =? SQLITE_DONE then mret a
      else if negb (step_rc =? SQLITE_ROW) then
        msg ← errmsg_string db;
        _ ← call (fun s => (tt, sqlite3_finalize stmt s));
        st_err msg
      else a ← row a; rows_loop n db stmt row a
  end.

Definition prepare (db : Z) (sql : list Z) : L Z :=
  r ← call (sqlite3_prepare_v2 db (c_text (sql ++ [0])));
  let '(rc, stmt) := r in
  if negb (rc =? SQLITE_OK) then msg ← errmsg_string db; st_err msg else mret stmt.

Definition exec_with_results (db : Z) (sql : list Z) : L (list Z) :=
  stmt ← prepare db sql;
  ncols ← look (sqlite3_column_count stmt);
  output ← (if 0 <? ncols then
              o ← each ncols (header_cell stmt) []; mret (o ++ [10])
            else mret []);
  output ← rows_loop turns db stmt (fun o => o ← each ncols (text_cell stmt) o; mret (o ++ [10])) output;
  _ ← call (fun s => (tt, sqlite3_finalize stmt s));
  mret (if ncols =? 0 then output ++ str "OK" ++ [10] else output).

Definition column_string (stmt i : Z) (cols : list (list Z)) : L (list (list Z)) :=
  name ← look (sqlite3_column_name stmt i);
  if negb (name =? 0) then s ← cstr_to_string name; mret (cols ++ [s]) else mret (cols ++ [[]]).

Definition value_cell (stmt i : Z) (row : list SqlValue) : L (list SqlValue) :=
  col_type ← look (sqlite3_column_type stmt i);
  if col_type =? SQLITE_INTEGER then n ← look (sqlite3_column_int64 stmt i); mret (row ++ [SqlInteger n])
  else if col_type =? SQLITE_FLOAT then x ← look (sqlite3_column_double stmt i); mret (row ++ [SqlReal x])
  else if col_type =? SQLITE_NULL then mret (row ++ [SqlNull])
  else
    text ← call (sqlite3_column_text stmt i);
    if negb (text =? 0) then s ← cstr_to_string text; mret (row ++ [SqlText s]) else mret (row ++ [SqlNull]).

Definition query (db : Z) (sql : list Z) : L QueryResult :=
  stmt ← prepare db sql;
  ncols ← look (sqlite3_column_count stmt);
  columns ← each ncols (column_string stmt) [];
  rows ← rows_loop turns db stmt (fun rows => row ← each ncols (value_cell stmt) []; mret (rows ++ [row])) [];
  _ ← call (fun s => (tt, sqlite3_finalize stmt s));
  mret (mkResult columns rows).

Definition value_string (v : SqlValue) : option (list Z) :=
  match v with
  | SqlNull => None
  | SqlInteger n => Some (dec_i64 n)
  | SqlReal x => Some (f64_text x)
  | SqlText s => Some s
  end.

Definition query_value (db : Z) (sql : list Z) : L (option (list Z)) :=
  result ← query db sql;
  mret (match rows result with
        | (val :: _) :: _ => value_string val
        | _ => None
        end).

Definition query_column (db : Z) (sql : list Z) : L (list (list Z)) :=
  result ← query db sql;
  mret (foldl (fun out row => match row with
                              | val :: _ => match value_string val with Some s => out ++ [s] | None => out end
                              | [] => out
                              end) [] (rows result)).

(** [Drop for SqliteDb]. *)
Definition drop_db (db : Z) : L unit := if negb (db =? 0) then call (fun s => (tt, sqlite3_close db s)) else mret tt.

(** [sqlite::exec_and_format], with the content of the static [DB]. *)
Definition exec_and_format (guard : option Z) (sql : list Z) : L (list Z) :=
  match guard with
  | None => st_err (str "database not open")
  | Some db => exec_with_results db sql
  end.
End sqlite.

(** ** What the wrapper relies on

    A live statement is a cursor: the column names, the rows still to come,
    whether an error follows them, the current row, and whether running it
    may change the stored data. *)
Inductive cell := CNull | CInteger (n : Z) | CReal (x : Json.f64) | CText (b : list Z).
Definition cell_type (c : cell) : Z :=
  match c with
  | CNull => SQLITE_NULL
  | CInteger _ => SQLITE_INTEGER
  | CReal _ => SQLITE_FLOAT
  | CText _ => SQLITE_TEXT
  end.
Record cursor := mkCursor {
  names : list (list Z);
  rest : list (list cell);
  fails : bool;
  current : list cell;
  writes : bool;
}.

(** [D] is what the database stores. *)
Class EngineSpec (W D : Type) `{Engine W} := {
  stmts : W -> gmap Z cursor;
  data : W -> D;
  text_of : cell -> list Z;
  text_of_text b : text_of (CText b) = b;
  prepare_law db sql w : let '((rc, stmt), w') := sqlite3_prepare_v2 db sql w in
    data w' = data w /\
    if (rc =? SQLITE_OK) && negb (stmt =? 0)
    then stmts w !! stmt = None /\ exists c, stmts w' = <[stmt := c]> (stmts w)
    else stmts w' = stmts w;
  step_law stmt w c : stmts w !! stmt = Some c ->
    let '(rc, w') := sqlite3_step stmt w in
    (writes c = false -> data w' = data w) /\
    match rest c with
    | r :: rs => rc = SQLITE_ROW /\ stmts w' = <[stmt := mkCursor (names c) rs (fails c) r (writes c)]> (stmts w)
    | [] => (if fails c then rc <> SQLITE_DONE /\ rc <> SQLITE_ROW else rc = SQLITE_DONE) /\ stmts w' = stmts w
    end;
  width_law stmt w c : stmts w !! stmt = Some c -> Forall (fun r => length r = length (names c)) (rest c);
  count_law stmt w c : stmts w !! stmt = Some c -> sqlite3_column_count stmt w = zlen (names c);
  name_law stmt w c i b : stmts w !! stmt = Some c -> names c !! i = Some b ->
    sqlite3_column_name stmt (Z.of_nat i) w <> 0 /\ c_text (bytes_at (sqlite3_column_name stmt (Z.of_nat i) w) w) = b;
  type_law stmt w c i x : stmts w !! stmt = Some c -> current c !! i = Some x ->
    sqlite3_column_type stmt (Z.of_nat i) w = cell_type x;
  int64_law stmt w c i n : stmts w !! stmt = Some c -> current c !! i = Some (CInteger n) ->
    sqlite3_column_int64 stmt (Z.of_nat i) w = n;
  double_law stmt w c i x : stmts w !! stmt = Some c -> current c !! i = Some (CReal x) ->
    sqlite3_column_double stmt (Z.of_nat i) w = x;
  text_law stmt w c i x : stmts w !! stmt = Some c -> current c !! i = Some x -> x <> CNull ->
    let '(p, w') := sqlite3_column_text stmt (Z.of_nat i) w in
    p <> 0 /\ bytes_at p w' = text_of x /\ stmts w' = stmts w /\ data w' = data w;
  finalize_law stmt w : stmts (sqlite3_finalize stmt w) = delete stmt (stmts w) /\ data (sqlite3_finalize stmt w) = data w;
}.

(** The value of a cell, its text in a formatted row, and the formatted rows. *)
Definition cell_value (c : cell) : SqlValue :=
  match c with
  | CNull => SqlNull
  | CInteger n => SqlInteger n
  | CReal x => SqlReal x
  | CText b => SqlText (from_utf8_lossy (c_text b))
  end.

Section spec.
Context {W D : Type} `{HE : Engine W} {HS : @EngineSpec W D HE}.

Definition same (w w' : W) : Prop := stmts w' = stmts w /\ data w' = data w.

Lemma same_refl w : same w w.
Proof. done. Qed.

Lemma same_trans w1 w2 w3 : same w1 w2 -> same w2 w3 -> same w1 w3.
Proof. unfold same. intuition congruence. Qed.
Hint Resolve same_refl same_trans : core.

Definition cell_text (c : cell) : list Z :=
  match c with CNull => str "NULL" | _ => from_utf8_lossy (c_text (text_of c)) end.
Definition line (cells : list (list Z)) : list Z := Str.join [124] cells ++ [10].
Definition formatted (c : cursor) : list Z :=
  (if bool_decide (names c = []) then [] else line (from_utf8_lossy <$> names c)) ++
  concat ((fun r => line (cell_text <$> r)) <$> rest c) ++
  (if bool_decide (names c = []) then str "OK" ++ [10] else []).

Lemma join_snoc sep l x : Str.join sep (l ++ [x]) = if bool_decide (l = []) then x else Str.join sep l ++ sep ++ x.
Proof.
  induction l as [|y l IH]; [done|]. rewrite bool_decide_eq_false_2 by done. cbn [app Str.join].
  destruct l as [|z l]; [done|]. cbn [app] in *. rewrite IH. cbn [Str.join]. by rewrite <- !app_assoc.
Qed.

(** A loop over the columns that leaves the statements alone. *)
Lemma wp_each {A X} (f : Z -> A -> L A) (l : list X) (I : nat -> A) w :
  (forall i x w', l !! i = Some x -> same w w' ->
     wp (f (Z.of_nat i) (I i)) (fun a w1 => a = I (S i) /\ same w w1) (fun _ _ => False) w') ->
  wp (each (zlen l) f (I 0%nat)) (fun a w' => a = I (length l) /\ same w w') (fun _ _ => False) w.
Proof.
  intros Hstep. unfold each. eapply wp_mono.
  - apply (wp_range (fun i a w' => a = I (Z.to_nat i) /\ same w w')); [apply zlen_nonneg|done|].
    intros i a w' Hi [-> Hw]. destruct (lookup_lt_is_Some_2 l (Z.to_nat i)) as [x Hx]; [unfold zlen in Hi; lia|].
    replace i with (Z.of_nat (Z.to_nat i)) at 1 by lia. eapply wp_mono; [apply (Hstep _ x); done| |done].
    intros b w1 [-> Hw1]. by replace (Z.to_nat (i + 1)) with (S (Z.to_nat i)) by lia.
  - cbn. intros a w' [-> Hw]. unfold zlen. by rewrite Nat2Z.id.
  - done.
Qed.

Lemma bar_join (out : list Z) (texts : list (list Z)) i t :
  texts !! i = Some t ->
  bar (Z.of_nat i) (out ++ Str.join [124] (take i texts)) ++ t = out ++ Str.join [124] (take (S i) texts).
Proof.
  intros Ht. rewrite (take_S_r _ _ _ Ht), join_snoc. unfold bar. destruct i as [|i].
  - cbn. by rewrite app_nil_r.
  - rewrite bool_decide_eq_false_2. { rewrite (proj2 (Z.ltb_lt 0 _)) by lia. by rewrite <- !app_assoc. }
    intros Hn. apply (f_equal length) in Hn. apply lookup_lt_Some in Ht. rewrite length_take in Hn. cbn [length] in Hn. lia.
Qed.

Lemma wp_header stmt c w :
  stmts w !! stmt = Some c ->
  wp (each (zlen (names c)) (header_cell stmt) [])
    (fun a w' => a = Str.join [124] (from_utf8_lossy <$> names c) /\ same w w') (fun _ _ => False) w.
Proof.
  intros Hc. pose proof (wp_each (header_cell stmt) (names c)
    (fun i => Str.join [124] (take i (from_utf8_lossy <$> names c))) w) as Hw.
  eapply wp_mono; [apply Hw| |done].
  - intros i b w' Hb Hw'. rewrite <- (proj1 Hw') in Hc. destruct (name_law stmt w' c i b Hc Hb) as [Hp Hn].
    unfold header_cell. apply wp_bind. unfold wp at 1, look. rewrite (proj2 (Z.eqb_neq _ _) Hp). cbn [negb].
    apply wp_bind. unfold wp at 1, cstr_to_string, look. rewrite Hn. apply wp_ret. split; [|done].
    apply (bar_join [] _ i). by rewrite list_lookup_fmap, Hb.
  - cbn. intros a w' [-> ?]. split; [|done]. f_equal. apply take_ge. by rewrite length_fmap.
Qed.

Lemma wp_text_row stmt c w out :
  stmts w !! stmt = Some c -> length (current c) = length (names c) ->
  wp (each (zlen (names c)) (text_cell stmt) out)
    (fun a w' => a = out ++ Str.join [124] (cell_text <$> current c) /\ same w w') (fun _ _ => False) w.
Proof.
  intros Hc Hlen. pose proof (wp_each (text_cell stmt) (current c)
    (fun i => out ++ Str.join [124] (take i (cell_text <$> current c))) w) as Hw.
  replace (zlen (current c)) with (zlen (names c)) in Hw by (unfold zlen; by rewrite Hlen).
  cbn [take Str.join] in Hw. rewrite app_nil_r in Hw. eapply wp_mono; [apply Hw| |done].
  - intros i x w' Hx Hw'. rewrite <- (proj1 Hw') in Hc. pose proof (type_law stmt w' c i x Hc Hx) as Ht.
    assert ((cell_text <$> current c) !! i = Some (cell_text x)) as Hi by by rewrite list_lookup_fmap, Hx.
    unfold text_cell. apply wp_bind. unfold wp at 1, look. rewrite Ht.
    assert (x = CNull \/ x <> CNull) as [->|Hnn] by (destruct x; (by left) || by right); [apply wp_ret; split; [by apply (bar_join out _ i)|done]|].
    assert ((cell_type x =? SQLITE_NULL) = false) as -> by by destruct x. apply wp_bind. unfold wp at 1, call.
    pose proof (text_law stmt w' c i x Hc Hx Hnn) as Hl. destruct (sqlite3_column_text stmt (Z.of_nat i) w') as [p w1].
    destruct Hl as (Hp & Hb & Hs & Hd). rewrite (proj2 (Z.eqb_neq _ _) Hp). cbn [negb]. apply wp_bind.
    unfold wp at 1, cstr_to_string, look. rewrite Hb. apply wp_ret. split; [|unfold same in *; intuition congruence].
    rewrite <- (bar_join out _ i _ Hi). by destruct x.
  - cbn. intros a w' [-> ?]. split; [|done]. do 2 f_equal. apply take_ge. by rewrite length_fmap.
Qed.

Lemma wp_columns stmt c w :
  stmts w !! stmt = Some c ->
  wp (each (zlen (names c)) (column_string stmt) [])
    (fun a w' => a = from_utf8_lossy <$> names c /\ same w w') (fun _ _ => False) w.
Proof.
  intros Hc. pose proof (wp_each (column_string stmt) (names c) (fun i => take i (from_utf8_lossy <$> names c)) w) as Hw.
  eapply wp_mono; [apply Hw| |done].
  - intros i b w' Hb Hw'. rewrite <- (proj1 Hw') in Hc. destruct (name_law stmt w' c i b Hc Hb) as [Hp Hn].
    unfold column_string. apply wp_bind. unfold wp at 1, look. rewrite (proj2 (Z.eqb_neq _ _) Hp). cbn [negb].
    apply wp_bind. unfold wp at 1, cstr_to_string, look. rewrite Hn. apply wp_ret. split; [|done].
    symmetry. apply take_S_r. by rewrite list_lookup_fmap, Hb.
  - cbn. intros a w' [-> ?]. split; [|done]. apply take_ge. by rewrite length_fmap.
Qed.

Lemma wp_value_row stmt c w :
  stmts w !! stmt = Some c -> length (current c) = length (names c) ->
  wp (each (zlen (names c)) (value_cell stmt) [])
    (fun a w' => a = cell_value <$> current c /\ same w w') (fun _ _ => False) w.
Proof.
  intros Hc Hlen. pose proof (wp_each (value_cell stmt) (current c) (fun i => take i (cell_value <$> current c)) w) as Hw.
  replace (zlen (current c)) with (zlen (names c)) in Hw by (unfold zlen; by rewrite Hlen).
  eapply wp_mono; [apply Hw| |done].
  - intros i x w' Hx Hw'. rewrite <- (proj1 Hw') in Hc. pose proof (type_law stmt w' c i x Hc Hx) as Ht.
    rewrite (take_S_r (cell_value <$> current c) i (cell_value x)) by by rewrite list_lookup_fmap, Hx.
    unfold value_cell. apply wp_bind. unfold wp at 1, look. rewrite Ht. destruct x as [|n|r|b]; cbn [cell_type].
    + by apply wp_ret.
    + apply wp_bind. unfold wp at 1, look. by rewrite (int64_law stmt w' c i n Hc Hx).
    + apply wp_bind. unfold wp at 1, look. by rewrite (double_law stmt w' c i r Hc Hx).
    + apply wp_bind. unfold wp at 1, call. pose proof (text_law stmt w' c i _ Hc Hx ltac:(done)) as Hl.
      destruct (sqlite3_column_text stmt (Z.of_nat i) w') as [p w1]. destruct Hl as (Hp & Hb & Hs & Hd).
      cbn. rewrite (proj2 (Z.eqb_neq _ _) Hp). cbn [negb]. apply wp_bind.
      unfold wp at 1, cstr_to_string, look. rewrite Hb, text_of_text. apply wp_ret. split; [done|unfold same in *; intuition congruence].
  - cbn. intros a w' [-> ?]. split; [|done]. apply take_ge. by rewrite length_fmap.
Qed.

Lemma errmsg_pure db w : exists m, errmsg_string db w = (Ok m, w).
Proof.
  unfold errmsg_string. unfold mbind, st_bind, look. destruct (sqlite3_errmsg db w =? 0); [by eexists|].
  unfold cstr_to_string, look. by eexists.
Qed.

Lemma wp_errmsg db (Q : list Z -> W -> Prop) X w : (forall m, Q m w) -> wp (errmsg_string db) Q X w.
Proof. intros HQ. unfold wp. by destruct (errmsg_pure db w) as [m ->]. Qed.

(** The loop over the rows of a statement. *)
Lemma wp_rows {A} (row : A -> L A) (f : A -> list cell -> A) n db stmt c a w :
  stmts w !! stmt = Some c -> (length (rest c) < n)%nat ->
  (forall a w' c', stmts w' !! stmt = Some c' -> names c' = names c -> length (current c') = length (names c') ->
     wp (row a) (fun a' w1 => a' = f a (current c') /\ same w' w1) (fun _ _ => False) w') ->
  wp (rows_loop n db stmt row a)
    (fun a' w' => fails c = false /\ a' = foldl f a (rest c) /\ delete stmt (stmts w') = delete stmt (stmts w) /\
       (writes c = false -> data w' = data w))
    (fun _ w' => fails c = true /\ stmts w' = delete stmt (stmts w) /\ (writes c = false -> data w' = data w)) w.
Proof.
  revert c a w. induction n as [|n IH]; intros c a w Hc Hn Hrow; [lia|]. cbn [rows_loop].
  apply wp_bind. unfold wp at 1, call. pose proof (step_law stmt w c Hc) as Hs. pose proof (width_law stmt w c Hc) as Hw.
  destruct (sqlite3_step stmt w) as [rc w1]. destruct Hs as [Hd1 Hs]. destruct (rest c) as [|r rs] eqn:Hr.
  - destruct Hs as [Hrc Hs]. destruct (finalize_law stmt w1) as [Hfs Hfd]. destruct (fails c).
    + rewrite (proj2 (Z.eqb_neq _ _) (proj1 Hrc)), (proj2 (Z.eqb_neq _ _) (proj2 Hrc)). cbn [negb].
      apply wp_bind, wp_errmsg. intros m. apply wp_bind. unfold wp at 1, call. apply wp_err. by rewrite Hfs, Hfd, Hs.
    + rewrite Hrc. change (SQLITE_DONE =? SQLITE_DONE) with true. apply wp_ret. by rewrite Hs.
  - destruct Hs as [-> Hs]. change (SQLITE_ROW =? SQLITE_DONE) with false. change (SQLITE_ROW =? SQLITE_ROW) with true.
    cbn [negb]. set (c1 := mkCursor (names c) rs (fails c) r (writes c)) in *. apply Forall_cons_1 in Hw as [Hr0 _].
    assert (stmts w1 !! stmt = Some c1) as Hc1 by by rewrite Hs, lookup_insert_eq.
    apply wp_bind. eapply wp_mono; [apply (Hrow a w1 c1); done| |by intros ? ? []].
    intros a' w2 [-> [Hs2 Hd2]]. rewrite <- Hs2 in Hc1.
    assert (forall w3, delete stmt (stmts w2) = delete stmt (stmts w) /\ ((writes c = false -> data w3 = data w2) -> writes c = false -> data w3 = data w)) as Hall.
    { intros w3. split; [by rewrite Hs2, Hs, delete_insert_eq|]. intros H3 Hw. by rewrite H3, Hd2, Hd1. }
    eapply wp_mono; [apply (IH c1); [done|cbn in Hn |- *; lia|done]| |].
    + intros a' w3 (Hf & -> & Hd & H3). destruct (Hall w3) as [Hdel Hdat]. rewrite <- Hdel. auto.
    + intros e w3 (Hf & Hd & H3). destruct (Hall w3) as [Hdel Hdat]. rewrite <- Hdel. auto.
Qed.

Lemma foldl_snoc_map {A B} (f : A -> B) l acc : foldl (fun out x => out ++ [f x]) acc l = acc ++ (f <$> l).
Proof. revert acc. induction l as [|x l IH]; intros acc; cbn; [by rewrite app_nil_r|]. by rewrite IH, <- app_assoc. Qed.

Lemma foldl_line l (acc : list Z) :
  foldl (fun out r => out ++ line (cell_text <$> r)) acc l = acc ++ concat ((fun r => line (cell_text <$> r)) <$> l).
Proof. revert acc. induction l as [|x l IH]; intros acc; cbn; [by rewrite app_nil_r|]. by rewrite IH, <- app_assoc. Qed.

Lemma delete_fresh (m m' : gmap Z cursor) k c :
  m !! k = None -> m' = <[k := c]> m -> delete k m' = m.
Proof. intros Hk ->. rewrite delete_insert_eq. by apply delete_id. Qed.

Lemma prepare_eq db sql w :
  let '((rc, stmt), w1) := sqlite3_prepare_v2 db (c_text (sql ++ [0])) w in
  if rc =? SQLITE_OK then prepare db sql w = (Ok stmt, w1) else exists m, prepare db sql w = (Err m, w1).
Proof.
  unfold prepare, mbind, st_bind, call. destruct (sqlite3_prepare_v2 _ _ _) as [[rc stmt] w1].
  destruct (rc =? SQLITE_OK); [done|]. cbn [negb]. destruct (errmsg_pure db w1) as [m Hm].
  exists m. unfold mbind, st_bind in *. by rewrite Hm.
Qed.

(** What [query] makes of a statement's rows. *)
Definition row_values (r : list cell) : list SqlValue := cell_value <$> r.

Definition answer (c : cursor) : QueryResult :=
  mkResult (from_utf8_lossy <$> names c) (row_values <$> rest c).

(** What a statement compiled to leaves behind when it is done. *)
Definition finished (stmt : Z) (c : cursor) (w1 w' : W) : Prop :=
  stmts w' = delete stmt (stmts w1) /\ (writes c = false -> data w' = data w1).

Lemma finished_final stmt c w1 w2 w3 :
  same w1 w2 -> delete stmt (stmts w3) = delete stmt (stmts w2) -> (writes c = false -> data w3 = data w2) ->
  finished stmt c w1 (sqlite3_finalize stmt w3).
Proof.
  intros [H1 D1] H3 D3. destruct (finalize_law stmt w3) as [Hf Hd]. split; [by rewrite Hf, H3, H1|].
  intros Hw. by rewrite Hd, D3, D1.
Qed.

Lemma finished_same stmt c w1 w2 w3 :
  same w1 w2 -> stmts w3 = delete stmt (stmts w2) -> (writes c = false -> data w3 = data w2) -> finished stmt c w1 w3.
Proof. intros [H1 D1] H3 D3. split; [by rewrite H3, H1|]. intros Hw. by rewrite D3, D1. Qed.

(** [query] and [exec_with_results] after the text is compiled. *)
Lemma wp_query turns db sql stmt c w w1 :
  prepare db sql w = (Ok stmt, w1) -> stmts w1 !! stmt = Some c -> (length (rest c) < turns)%nat ->
  wp (query turns db sql)
    (fun r w' => fails c = false /\ finished stmt c w1 w' /\ r = answer c)
    (fun _ w' => fails c = true /\ finished stmt c w1 w') w.
Proof.
  intros Hp Hc Hn. unfold query. apply wp_bind. unfold wp at 1. rewrite Hp. apply wp_bind. unfold wp at 1, look.
  rewrite (count_law stmt w1 c Hc). apply wp_bind. eapply wp_mono; [by apply wp_columns| |by intros ? ? []].
  intros cols w2 [-> H2]. rewrite <- (proj1 H2) in Hc. apply wp_bind. eapply wp_mono.
  - apply (wp_rows _ (fun out r => out ++ [row_values r]) turns db stmt c); [done|done|].
    intros a w' c' Hc' Hnm Hlen. rewrite <- Hnm. apply wp_bind. eapply wp_mono; [by apply wp_value_row| |done].
    intros row w3 [-> H3]. by apply wp_ret.
  - intros rs w3 (Hf & -> & Hd & H3). apply wp_bind. unfold wp at 1, call. apply wp_ret. split_and!; [done| |].
    + by eapply finished_final.
    + by rewrite foldl_snoc_map.
  - intros e w3 (Hf & Hd & H3). split; [done|]. by eapply finished_same.
Qed.

Lemma wp_exec_with_results turns db sql stmt c w w1 :
  prepare db sql w = (Ok stmt, w1) -> stmts w1 !! stmt = Some c -> (length (rest c) < turns)%nat ->
  wp (exec_with_results turns db sql)
    (fun r w' => fails c = false /\ finished stmt c w1 w' /\ r = formatted c)
    (fun _ w' => fails c = true /\ finished stmt c w1 w') w.
Proof.
  intros Hp Hc Hn. unfold exec_with_results. apply wp_bind. unfold wp at 1. rewrite Hp. apply wp_bind. unfold wp at 1, look.
  rewrite (count_law stmt w1 c Hc). apply wp_bind.
  set (head := if bool_decide (names c = []) then [] else line (from_utf8_lossy <$> names c)).
  assert (wp (if 0 <? zlen (names c) then o ← each (zlen (names c)) (header_cell stmt) []; mret (o ++ [10]) else mret [])
    (fun a w' => a = head /\ same w1 w') (fun _ _ => False) w1) as Hhead.
  { unfold head. destruct (names c) as [|n ns] eqn:Hns; [by apply wp_ret|]. rewrite <- Hns.
    rewrite (proj2 (Z.ltb_lt 0 _)) by (rewrite Hns, zlen_cons; pose proof (zlen_nonneg ns); lia).
    rewrite bool_decide_eq_false_2 by (by rewrite Hns). apply wp_bind.
    eapply wp_mono; [by apply wp_header| |done]. intros o w' [-> ?]. by apply wp_ret. }
  eapply wp_mono; [exact Hhead| |by intros ? ? []]. intros o w2 [-> H2]. rewrite <- (proj1 H2) in Hc. apply wp_bind. eapply wp_mono.
  - apply (wp_rows _ (fun out r => out ++ line (cell_text <$> r)) turns db stmt c); [done|done|].
    intros a w' c' Hc' Hnm Hlen. rewrite <- Hnm. apply wp_bind. eapply wp_mono; [by apply wp_text_row| |done].
    intros row w3 [-> H3]. apply wp_ret. split; [|done]. unfold line. by rewrite app_assoc.
  - intros out w3 (Hf & -> & Hd & H3). apply wp_bind. unfold wp at 1, call. apply wp_ret. split_and!; [done|by eapply finished_final|].
    unfold formatted. fold head. rewrite foldl_line.
    destruct (names c) as [|n ns] eqn:Hns; [by rewrite bool_decide_eq_true_2, <- app_assoc|].
    rewrite (bool_decide_eq_false_2 (_ :: _ = [])), app_nil_r by done.
    rewrite (proj2 (Z.eqb_neq _ 0)) by (rewrite zlen_cons; pose proof (zlen_nonneg ns); lia). done.
  - intros e w3 (Hf & Hd & H3). split; [done|]. by eapply finished_same.
Qed.

Lemma wp_run {A} (m : L A) w (good : A -> Prop) stmt c w1 :
  wp m (fun r w' => fails c = false /\ finished stmt c w1 w' /\ good r) (fun _ w' => fails c = true /\ finished stmt c w1 w') w ->
  exists r w', m w = (r, w') /\ finished stmt c w1 w' /\ if fails c then exists e, r = Err e else exists a, r = Ok a /\ good a.
Proof.
  unfold wp. destruct (m w) as [[a|e|] w']; [| |done]; intros (-> & H & ?) || intros [-> H].
  - eexists _, w'. split; [done|]. split; [done|]. by exists a.
  - eexists _, w'. split; [done|]. split; [done|]. by exists e.
Qed.

(** A statement that does not compile. *)
Lemma not_prepared {A} (k : Z -> L A) db sql w rc stmt w1 :
  sqlite3_prepare_v2 db (c_text (sql ++ [0])) w = ((rc, stmt), w1) -> rc <> SQLITE_OK ->
  exists e, (stmt ← prepare db sql; k stmt) w = (Err e, w1) /\ same w w1.
Proof.
  intros Hp Hrc. pose proof (prepare_law db (c_text (sql ++ [0])) w) as Hl. pose proof (prepare_eq db sql w) as He.
  rewrite Hp in Hl, He. rewrite (proj2 (Z.eqb_neq _ _) Hrc) in Hl, He. destruct He as [m He], Hl as [Hd Hs].
  exists m. split; [|done]. unfold mbind, st_bind. by rewrite He.
Qed.

(** A statement that compiles: its rows, whatever [turns] exceeds their number. *)
Lemma prepared turns db sql w stmt w1 c :
  sqlite3_prepare_v2 db (c_text (sql ++ [0])) w = ((SQLITE_OK, stmt), w1) -> stmt <> 0 ->
  stmts w1 !! stmt = Some c -> (length (rest c) < turns)%nat ->
  (exists r w', query turns db sql w = (r, w') /\ stmts w' = stmts w /\ (writes c = false -> data w' = data w) /\
     if fails c then exists e, r = Err e else r = Ok (answer c)) /\
  (exists r w', exec_with_results turns db sql w = (r, w') /\ stmts w' = stmts w /\ (writes c = false -> data w' = data w) /\
     if fails c then exists e, r = Err e else r = Ok (formatted c)).
Proof.
  intros Hp Hst Hc Hn. pose proof (prepare_law db (c_text (sql ++ [0])) w) as Hl. pose proof (prepare_eq db sql w) as He.
  rewrite Hp in Hl, He. rewrite Z.eqb_refl in Hl, He. rewrite (proj2 (Z.eqb_neq _ _) Hst) in Hl. cbn [negb andb] in Hl.
  destruct Hl as [Hd [Hfresh [c' Hins]]]. pose proof (delete_fresh _ _ _ _ Hfresh Hins) as Hdel.
  pose proof (wp_run _ _ (fun r => r = answer c) _ _ _ (wp_query turns db sql stmt c w w1 He Hc Hn)) as (r & w' & Hr & [Hs Hdat] & Ha).
  pose proof (wp_run _ _ (fun r => r = formatted c) _ _ _ (wp_exec_with_results turns db sql stmt c w w1 He Hc Hn)) as (q & v & Hq & [Hs' Hdat'] & Hf).
  rewrite Hdel in Hs, Hs'. rewrite Hd in Hdat, Hdat'. split.
  - exists r, w'. split_and!; [done..|]. destruct (fails c); [done|]. by destruct Ha as (? & -> & ->).
  - exists q, v. split_and!; [done..|]. destruct (fails c); [done|]. by destruct Hf as (? & -> & ->).
Qed.

(** ** Property *)

(** C21. A query returns exactly the rows of its statement.  When the library
    compiles the text to a statement, [query] returns its column names and the
    values of all its rows in order, and [exec_with_results] their text, a
    line per row; when the statement ends in an error, both return an error.
    On every way out, also when the text does not compile, no statement is
    left behind, and a statement that only reads leaves the stored data as it
    was.  The number of turns need only exceed the number of rows. *)
Theorem sqlite_rows_correct turns db sql w :
  let '((rc, stmt), w1) := sqlite3_prepare_v2 db (c_text (sql ++ [0])) w in
  (rc <> SQLITE_OK ->
     (exists e w', query turns db sql w = (Err e, w') /\ stmts w' = stmts w /\ data w' = data w) /\
     (exists e w', exec_with_results turns db sql w = (Err e, w') /\ stmts w' = stmts w /\ data w' = data w)) /\
  (forall c, rc = SQLITE_OK -> stmt <> 0 -> stmts w1 !! stmt = Some c -> (length (rest c) < turns)%nat ->
     (exists r w', query turns db sql w = (r, w') /\ stmts w' = stmts w /\ (writes c = false -> data w' = data w) /\
        if fails c then exists e, r = Err e else r = Ok (answer c)) /\
     (exists r w', exec_with_results turns db sql w = (r, w') /\ stmts w' = stmts w /\ (writes c = false -> data w' = data w) /\
        if fails c then exists e, r = Err e else r = Ok (formatted c))).
Proof.
  destruct (sqlite3_prepare_v2 db (c_text (sql ++ [0])) w) as [[rc stmt] w1] eqn:Hp. split.
  - intros Hrc. split.
    + edestruct @not_prepared as (e & He & Hs); [exact Hp|done|]. exists e, w1. by split; [exact He|].
    + edestruct @not_prepared as (e & He & Hs); [exact Hp|done|]. exists e, w1. by split; [exact He|].
  - intros c -> Hst Hc Hn. by eapply prepared.
Qed.

End spec.

(** ** A small engine

    What a text compiles to, given the data, and what running a text does to
    them; a text with no meaning is an error.  Rows of a wrong width and names
    with a NUL do not compile. *)
Definition next_id (m : gmap Z cursor) : Z := 1 + foldr Z.max 0 (fst <$> map_to_list m).

Lemma next_id_fresh m : m !! next_id m = None /\ 0 < next_id m.
Proof.
  assert (forall l : list Z, 0 <= foldr Z.max 0 l /\ Forall (fun k => k <= foldr Z.max 0 l) l) as Hmax.
  { induction l as [|k l [IH0 IH]]; cbn; [by split|]. split; [lia|]. constructor; [lia|]. eapply Forall_impl; [exact IH|]. cbn. lia. }
  destruct (Hmax (fst <$> map_to_list m)) as [H0 Hk]. split; [|unfold next_id; lia].
  destruct (m !! next_id m) as [c|] eqn:Hc; [|done]. apply elem_of_map_to_list in Hc. rewrite Forall_forall in Hk.
  specialize (Hk (next_id m)). unfold next_id in Hk at 2. apply (list_elem_of_fmap_2 fst) in Hc. cbn [fst] in Hc.
  specialize (Hk Hc). lia.
Qed.

Section small.
Context {D : Type} (compile : list Z -> D -> option cursor) (execute : list Z -> D -> option D).

Record state := mkState { stored : D; scans : gmap Z cursor; buffer : list Z }.

Definition sound (c : cursor) : bool :=
  forallb (fun r => (length r =? length (names c))%nat) (rest c) &&
  forallb (fun n => bool_decide (c_text n = n)) (names c) && negb (writes c).
Definition live (w : state) : gmap Z cursor := filter (fun kc => sound (snd kc) = true) (scans w).
Definition cell_at (stmt i : Z) (w : state) : cell := default CNull (c ← live w !! stmt; current c !! Z.to_nat i).
Definition render (c : cell) : list Z :=
  match c with
  | CNull => []
  | CInteger n => dec_i64 n
  | CReal x => []
  | CText b => b
  end.
Definition prepare_small (sql : list Z) (w : state) : (Z * Z) * state :=
  match compile sql (stored w) with
  | Some c => if sound c then ((0, next_id (scans w)), mkState (stored w) (<[next_id (scans w) := c]> (scans w)) (buffer w))
              else ((1, 0), w)
  | None => ((1, 0), w)
  end.
Definition step_small (stmt : Z) (w : state) : Z * state :=
  match scans w !! stmt with
  | Some c =>
      match rest c with
      | r :: rs => (SQLITE_ROW, mkState (stored w) (<[stmt := mkCursor (names c) rs (fails c) r (writes c)]> (scans w)) (buffer w))
      | [] => (if fails c then 1 else SQLITE_DONE, w)
      end
  | None => (21, w)
  end.
Definition exec_small (sql : list Z) (w : state) : (Z * Z) * state :=
  match execute sql (stored w) with
  | Some d => ((0, 0), mkState d (scans w) (buffer w))
  | None => ((1, 0), w)
  end.
(** The pointer of a column's name tells the statement and the column. *)
Definition name_pointer (stmt i : Z) : Z := 1 + Zpos (encode (stmt, Z.to_nat i)).
Definition name_at (p : Z) (w : state) : list Z :=
  default [] ('(stmt, i) ← @decode (Z * nat) _ _ (Z.to_pos (p - 1)); c ← live w !! stmt; names c !! i).

Definition engine : Engine state := {|
  sqlite3_open_v2 _ _ _ w := ((0, 1), w);
  sqlite3_close _ w := w;
  sqlite3_exec _ := exec_small;
  sqlite3_errmsg _ _ := 0;
  sqlite3_free _ w := w;
  sqlite3_prepare_v2 _ := prepare_small;
  sqlite3_step := step_small;
  sqlite3_column_count stmt w := match live w !! stmt with Some c => zlen (names c) | None => 0 end;
  sqlite3_column_name stmt i _ := name_pointer stmt i;
  sqlite3_column_type stmt i w := cell_type (cell_at stmt i w);
  sqlite3_column_int64 stmt i w := match cell_at stmt i w with CInteger n => n | _ => 0 end;
  sqlite3_column_double stmt i w := match cell_at stmt i w with CReal x => x | _ => Json.f64_of_Z 0 end;
  sqlite3_column_text stmt i w := (1, mkState (stored w) (scans w) (render (cell_at stmt i w)));
  sqlite3_finalize stmt w := mkState (stored w) (delete stmt (scans w)) (buffer w);
  bytes_at p w := if p =? 1 then buffer w else name_at p w;
|}.

Lemma live_inv stmt w c : live w !! stmt = Some c ->
  scans w !! stmt = Some c /\ Forall (fun r => length r = length (names c)) (rest c) /\
  Forall (fun n => c_text n = n) (names c) /\ writes c = false.
Proof.
  intros [Hw Hs]%map_lookup_filter_Some. split; [done|]. unfold sound in Hs. cbn in Hs.
  apply andb_true_iff in Hs as [[Hr Hn]%andb_true_iff Hwr]. rewrite forallb_forall in Hr, Hn. split_and!.
  - apply Forall_forall. intros r Hin%list_elem_of_In. by apply Nat.eqb_eq, Hr.
  - apply Forall_forall. intros n Hin%list_elem_of_In. apply Hn in Hin. by apply bool_decide_eq_true in Hin.
  - by destruct (writes c).
Qed.

Lemma live_insert w stmt c d b : sound c = true -> live (mkState d (<[stmt := c]> (scans w)) b) = <[stmt := c]> (live w).
Proof. intros Hs. unfold live. cbn [scans]. by rewrite map_filter_insert_True. Qed.

Lemma live_cell stmt w c i x : live w !! stmt = Some c -> current c !! i = Some x -> cell_at stmt (Z.of_nat i) w = x.
Proof. intros Hw Hx. unfold cell_at. rewrite Hw. cbn. by rewrite Nat2Z.id, Hx. Qed.

#[refine] Definition engine_spec : @EngineSpec state D engine := {| stmts := live; data := stored; text_of := render |}.
Proof.
  - done.
  - intros db sql w. cbn. unfold prepare_small. destruct (compile sql (stored w)) as [c|]; [|done].
    destruct (sound c) eqn:Hs; [|done]. destruct (next_id_fresh (scans w)) as [Hf Hp].
    rewrite (proj2 (Z.eqb_neq (next_id (scans w)) 0)) by lia. cbn. split; [done|]. split.
    + apply map_lookup_filter_None. by left.
    + exists c. by apply live_insert.
  - intros stmt w c Hc. pose proof (live_inv _ _ _ Hc) as (Hw & Hr & Hn & Hwr). cbn. unfold step_small. rewrite Hw.
    destruct (rest c) as [|r rs] eqn:Hrest; [split; [done|]; by destruct (fails c)|]. cbn. split_and!; [done..|].
    apply live_insert. apply map_lookup_filter_Some in Hc as [_ Hs]. unfold sound in *. cbn in *. rewrite Hrest in Hs. cbn in Hs.
    by apply andb_true_iff in Hs as [[[_ ->]%andb_true_iff ->]%andb_true_iff ->].
  - intros stmt w c (_ & Hr & _)%live_inv. done.
  - intros stmt w c Hc. cbn. by rewrite Hc.
  - intros stmt w c i b Hc Hb. pose proof (live_inv _ _ _ Hc) as (_ & _ & Hn & _). cbn. unfold name_pointer.
    split; [lia|]. rewrite (proj2 (Z.eqb_neq (1 + Zpos _) 1)) by lia. unfold name_at. rewrite Z.add_simpl_l. cbn [Z.to_pos].
    rewrite decode_encode. cbn. rewrite Hc. cbn. rewrite Nat2Z.id, Hb. cbn. rewrite Forall_forall in Hn.
    apply Hn. by eapply list_elem_of_lookup_2.
  - intros stmt w c i x Hc Hx. cbn. by rewrite (live_cell stmt w c i x).
  - intros stmt w c i x Hc Hx. cbn. by rewrite (live_cell stmt w c i _ Hc Hx).
  - intros stmt w c i x Hc Hx. cbn. by rewrite (live_cell stmt w c i _ Hc Hx).
  - intros stmt w c i x Hc Hx Hnn. cbn. by rewrite (live_cell stmt w c i x).
  - intros stmt w. cbn. split; [|done]. unfold live. cbn. by rewrite map_filter_delete.
Defined.
End small.

(** ** A table of two rows

    A text that starts with [X] does not compile, one that starts with [F]
    fails after its rows. *)
Module Table.

Definition header : list (list Z) := [str "id"; str "name"].
Definition content : list (list cell) := [[CInteger 1; CText (str "boot")]; [CInteger (-2); CNull]].
Definition compile (sql : list Z) (d : unit) : option cursor :=
  match sql with
  | b :: _ => if b =? 88 then None else Some (mkCursor header content (b =? 70) [] false)
  | [] => None
  end.
#[local] Instance table : Engine state := engine compile (fun _ d => Some d).
#[local] Instance table_spec : @EngineSpec state unit table := engine_spec compile (fun _ d => Some d).

(** The text a row gets is what a shell shows; the failing statement leaves
    no cursor behind. *)
Lemma sqlite_rows_correct_witness :
  let idle := mkState tt ∅ [] in
  fst (query 3 7 (str "SELECT") idle) =
    Ok (mkResult [str "id"; str "name"] [[SqlInteger 1; SqlText (str "boot")]; [SqlInteger (-2); SqlNull]]) /\
  fst (exec_with_results 3 7 (str "SELECT") idle) = Ok (str "id|name" ++ [10] ++ str "1|boot" ++ [10] ++ str "-2|NULL" ++ [10]) /\
  (exists e w', query 3 7 (str "FAIL") idle = (Err e, w') /\ stmts w' = stmts idle) /\
  (exists e w', exec_with_results 3 7 (str "X") idle = (Err e, w') /\ stmts w' = stmts idle /\ data w' = data idle).
Proof.
  intros idle. pose proof (sqlite_rows_correct 3 7 (str "SELECT") idle) as [_ Hok].
  pose proof (sqlite_rows_correct 3 7 (str "FAIL") idle) as [_ Hbad].
  pose proof (sqlite_rows_correct 3 7 (str "X") idle) as [Hx _].
  destruct (Hok (mkCursor header content false [] false) eq_refl) as [(r & w & -> & _ & _ & ->) (r' & w' & -> & _ & _ & ->)];
    [discriminate|reflexivity|cbn; lia|].
  destruct (Hbad (mkCursor header content true [] false) eq_refl) as [(q & v & Hq & Hs & _ & e & ->) _];
    [discriminate|reflexivity|cbn; lia|].
  split_and!; [vm_compute; reflexivity|vm_compute; reflexivity|by exists e, v|].
  apply Hx. discriminate.
Defined.

End Table.
End Sqlite.
