(* ===== verification/Agent.v ===== *)
(** * Agent loop ([shell/agent.rs])

    The tools the model may call, over the SQLite wrapper, and the loop that
    runs a conversation of at most twenty turns over the API client. *)
From S2P Require Import Prelude.
From S2P Require Import Bytes.
From S2P Require Import Utf8.
From S2P Require Import Fmt.
From S2P Require Import Str.
From S2P Require Import Json.
From S2P Require Import Api.
From S2P Require Import ApiClient.
From S2P Require Import Dns.
From S2P Require Import Sqlite.

Module Agent.
Export Utf8 Fmt.
Import Api.

Definition MAX_TURNS : nat := 20.
Definition AGENT_SYSTEM : list Z :=
  str "You are an AI assistant running inside OSqlite, a bare-metal OS with an embedded SQLite database. " ++
  str "You have tools to read/write files in the namespace, execute SQL queries, and list directories. " ++
  str "Use tools to inspect and modify the system as needed. Be concise in your responses.".

(** ** Texts of errors *)
(** [Display for JsonError]; a [char] is shown as its UTF-8 text. *)
Definition utf8_char (c : Z) : list Z := if c <? 0x80 then [c] else [Z.lor 0xC0 (Z.shiftr c 6); Z.lor 0x80 (Z.land c 0x3F)].
Definition json_error_text (e : Json.JsonError) : list Z :=
  match e with
  | Json.UnexpectedEof => str "unexpected end of JSON"
  | Json.UnexpectedChar c => str "unexpected character: '" ++ utf8_char c ++ str "'"
  | Json.InvalidEscape => str "invalid escape sequence"
  | Json.InvalidNumber => str "invalid number"
  | Json.TrailingData => str "trailing data after JSON"
  end.

(** [Display for ApiError]. *)
Definition api_error_text (e : ApiError) : list Z :=
  match e with
  | ConnectionFailed => str "TCP connection failed"
  | ConnectionTimeout => str "connection timeout"
  | TlsHandshakeFailed => str "TLS handshake failed"
  | SendFailed => str "failed to send request"
  | EmptyResponse => str "empty response from API"
  | DnsError msg => str "DNS error: " ++ msg
  | HttpStatus code msg _ => str "HTTP " ++ dec code ++ str ": " ++ msg
  | ApiErr msg => str "API error: " ++ msg
  end.

(** ** Strings *)
(** [s.replace('\'', "''")]. *)
Definition sql_escape (s : list Z) : list Z := concat ((fun b => if b =? 39 then [39; 39] else [b]) <$> s).

(** [s.replacen(old, new, 1)]. *)
Definition replacen_one (s old new : list Z) : list Z :=
  match Str.find old s with
  | Some i => take i s ++ new ++ drop (i + length old) s
  | None => s
  end.

Definition to_ascii_uppercase (b : Z) : Z := if (97 <=? b) && (b <=? 122) then b - 32 else b.
Definition starts_with_ic (haystack needle : list Z) : bool :=
  if zlen haystack <? zlen needle then false
  else forallb (fun '(h, n) => to_ascii_uppercase h =? to_ascii_uppercase n) (zip (take (length needle) haystack) needle).

Definition ends_with_slash (path : list Z) : bool := bool_decide (last path = Some 47).

(** ** The statements *)
Definition read_query (path : list Z) : list Z :=
  str "SELECT content FROM namespace WHERE path='" ++ sql_escape path ++ str "'".
Definition write_query (path content : list Z) : list Z :=
  str "INSERT OR REPLACE INTO namespace (path, type, content, mtime) VALUES ('" ++ sql_escape path ++
  str "', 'data', '" ++ sql_escape content ++ str "', strftime('%s','now'))".
Definition list_query (prefix : list Z) : list Z :=
  str "SELECT path FROM namespace WHERE substr(path, 1, " ++ dec (zlen prefix) ++ str ") = '" ++
  sql_escape prefix ++ str "' ORDER BY path".
Definition update_query (path content : list Z) : list Z :=
  str "UPDATE namespace SET content='" ++ sql_escape content ++ str "', mtime=strftime('%s','now') WHERE path='" ++
  sql_escape path ++ str "'".

Section tools.
Context {W : Type} `{HE : Sqlite.Engine W}.
Variable f64_text : Json.f64 -> list Z.
Variable turns : nat.

(** A tool never fails: its result is a text and whether it is an error. *)
Definition tool : Type := st W (list Z) (list Z * bool).
Definition get_str (input : Json.JsonValue) (k : string) : option (list Z) := Json.get input (str k) ≫= Json.as_str.
Definition missing (k : string) : tool := mret (str "missing '" ++ str k ++ str "' parameter", true).

Definition with_db (guard : option Z) (f : Z -> tool) : tool :=
  match guard with
  | Some db => f db
  | None => mret (str "database not open", true)
  end.

Definition tool_read_file (guard : option Z) (input : Json.JsonValue) : tool :=
  match get_str input "path" with
  | None => missing "path"
  | Some path =>
      with_db guard (fun db =>
        r ← st_try (Sqlite.query_value f64_text turns db (read_query path));
        mret (match r with
              | inl (Some content) => (content, false)
              | inl None => (str "file not found: " ++ path, true)
              | inr e => (str "read error: " ++ e, true)
              end))
  end.

Definition tool_write_file (guard : option Z) (input : Json.JsonValue) : tool :=
  match get_str input "path" with
  | None => missing "path"
  | Some path =>
      match get_str input "content" with
      | None => missing "content"
      | Some content =>
          with_db guard (fun db =>
            r ← st_try (Sqlite.exec db (write_query path content));
            mret (match r with
                  | inl _ => (str "wrote " ++ dec (zlen content) ++ str " bytes to " ++ path, false)
                  | inr e => (str "write error: " ++ e, true)
                  end))
      end
  end.

Definition allowed (query : list Z) : bool :=
  let trimmed := Str.trim_start query in
  starts_with_ic trimmed (str "SELECT") || starts_with_ic trimmed (str "EXPLAIN") || starts_with_ic trimmed (str "PRAGMA").

Definition tool_sql_query (guard : option Z) (input : Json.JsonValue) : tool :=
  match get_str input "query" with
  | None => missing "query"
  | Some query =>
      if negb (allowed query) then mret (str "only SELECT/EXPLAIN/PRAGMA allowed", true)
      else
        r ← st_try (Sqlite.exec_and_format turns guard query);
        mret (match r with
              | inl output => (output, false)
              | inr e => (str "SQL error: " ++ e, true)
              end)
  end.

Definition tool_list_dir (guard : option Z) (input : Json.JsonValue) : tool :=
  match get_str input "path" with
  | None => missing "path"
  | Some path =>
      let prefix := if ends_with_slash path then path else path ++ [47] in
      with_db guard (fun db =>
        r ← st_try (Sqlite.query_column f64_text turns db (list_query prefix));
        mret (match r with
              | inl [] => (str "no entries under " ++ path, false)
              | inl paths => (Str.join [10] paths, false)
              | inr e => (str "list error: " ++ e, true)
              end))
  end.

Definition tool_str_replace (guard : option Z) (input : Json.JsonValue) : tool :=
  match get_str input "path" with
  | None => missing "path"
  | Some path =>
      match get_str input "old_str" with
      | None => missing "old_str"
      | Some old_str =>
          match get_str input "new_str" with
          | None => missing "new_str"
          | Some new_str =>
              with_db guard (fun db =>
                r ← st_try (Sqlite.query_value f64_text turns db (read_query path));
                match r with
                | inl None => mret (str "file not found: " ++ path, true)
                | inr e => mret (str "read error: " ++ e, true)
                | inl (Some content) =>
                    if negb (Str.contains content old_str) then mret (str "old_str not found in " ++ path, true)
                    else
                      let new_content := replacen_one content old_str new_str in
                      r ← st_try (Sqlite.exec db (update_query path new_content));
                      mret (match r with
                            | inl _ => (str "replaced in " ++ path ++ str " (" ++ dec (zlen content) ++
                                        str " bytes -> " ++ dec (zlen new_content) ++ str " bytes)", false)
                            | inr e => (str "write error: " ++ e, true)
                            end)
                end)
          end
      end
  end.

Definition dispatch_tool (guard : option Z) (name input_json : list Z) : tool :=
  match Json.parse input_json with
  | Panic => st_panic
  | Err e => mret (str "Invalid tool input JSON: " ++ json_error_text e, true)
  | Ok input =>
      if bool_decide (name = str "read_file") then tool_read_file guard input
      else if bool_decide (name = str "write_file") then tool_write_file guard input
      else if bool_decide (name = str "sql_query") then tool_sql_query guard input
      else if bool_decide (name = str "list_dir") then tool_list_dir guard input
      else if bool_decide (name = str "str_replace") then tool_str_replace guard input
      else mret (str "Unknown tool: " ++ name, true)
  end.

(** ** The loop *)
(** [&result[..200]] panics when byte 200 is inside a character. *)
Definition display {E} (result : list Z) : out E (list Z) :=
  if 200 <? zlen result then
    if is_char_boundary result 200 then Ok (take 200 result ++ str "... (" ++ dec (zlen result) ++ str " bytes)")
    else Panic
  else Ok result.

(** The state of a run: the database, and the requests sent so far.  What the
    network does with a request, [network], may depend on all of them. *)
Record world := mkWorld { database : W; sent : list ClaudeRequest }.
Variable network : list ClaudeRequest -> nat -> ApiClient.session.
Variable guard : option Z.

Definition on_database {A} (m : st W (list Z) A) : st world (list Z) A :=
  st_zoom database (fun d w => mkWorld d (sent w)) m.

Definition request (req : ClaudeRequest) : st world (list Z) ClaudeResponse := fun w =>
  let log := sent w ++ [req] in
  let w' := mkWorld (database w) log in
  match fst (ApiClient.claude_request_agentic req (network log)) with
  | Ok r => (Ok r, w')
  | Err e => (Err (str "API error: " ++ api_error_text e), w')
  | Panic => (Panic, w')
  end.

Definition clone_message (m : Message) : Message := mkMessage (role m) (content m) (content_blocks m).
Definition clone_messages (messages : list Message) : list Message := clone_message <$> messages.

(** One tool call of a turn. *)
Definition run_call (tc : ToolCall) (result_blocks : list ContentBlock) : st world (list Z) (list ContentBlock) :=
  r ← on_database (dispatch_tool guard (tc_name tc) (tc_input_json tc));
  let '(result, is_error) := r in
  _ ← st_lift (display result);
  mret (result_blocks ++ [ToolResult (tc_id tc) result is_error]).

Fixpoint turns_loop (n : nat) (config : ClaudeConfig) (messages : list Message) : st world (list Z) (list Z) :=
  match n with
  | O => mret []
  | S n =>
      response ← request (mkRequest (mkConfig (api_key config) (target_ip config) (target_port config) (model config) (use_tls config))
                            (Some AGENT_SYSTEM) (clone_messages messages) true);
      if bool_decide (resp_tool_calls response = []) then mret (resp_text response)
      else
        let messages := messages ++ [assistant_tool_use (resp_text response) (resp_tool_calls response)] in
        result_blocks ← st_fold run_call (resp_tool_calls response) [];
        turns_loop n config (messages ++ [mkMessage (str "user") [] result_blocks])
  end.

(** [resolve_api_ip]: a manual address, or the resolver; [None] when the
    resolver's session ends before it answers. *)
Definition resolve_api_ip (manual : list Z) (s : Dns.session) (cache : Dns.Cache) : option (out (list Z) (list Z) * Dns.Cache) :=
  if negb (bool_decide (manual = [0; 0; 0; 0])) then Some (Ok manual, cache)
  else
    match Dns.resolve_a s (str "api.anthropic.com") cache with
    | None => None
    | Some (r, cache) => Some (map_err (fun e => str "DNS resolution failed: " ++ Dns.display e) r, cache)
    end.

(** [api::get_api_key] and [api::get_model], the statics as arguments. *)
Definition get_model (MODEL : option (list Z)) : list Z := default DEFAULT_MODEL MODEL.
Definition ip_of (a : list Z) : Z * Z * Z * Z :=
  (default 0 (a !! 0%nat), default 0 (a !! 1%nat), default 0 (a !! 2%nat), default 0 (a !! 3%nat)).

Definition run_agent_loop (API_KEY MODEL : option (list Z)) (net : bool) (manual : list Z) (s : Dns.session)
    (cache : Dns.Cache) (prompt : list Z) (tls : bool) : st world (list Z) (list Z) :=
  match API_KEY with
  | None => st_err (str "API key not set. Run: apikey sk-ant-...")
  | Some key =>
      if negb net then st_err (str "network stack not initialized")
      else
        base ← (if tls then
                  match resolve_api_ip manual s cache with
                  | None => st_panic
                  | Some (r, _) => ip ← st_lift r; mret (direct_tls (ip_of ip))
                  end
                else mret default_proxy);
        let config := mkConfig key (target_ip base) (target_port base) (get_model MODEL) (Api.use_tls base) in
        turns_loop MAX_TURNS config [text_message (str "user") prompt]
  end.
End tools.

End Agent.
