(* ===== verification/AgentSpec.v ===== *)
(** * What the agent promises ([shell/agent.rs])

    How SQL reads the texts the tools build; the file map the tools implement
    on a database that answers them; the conversation a run of the loop is. *)
From stdpp Require Import sorting.
From S2P Require Import Prelude.
From S2P Require Import Bytes.
From S2P Require Import Utf8.
From S2P Require Import Fmt.
From S2P Require Import Str.
From S2P Require Import Json.
From S2P Require Import Http.
From S2P Require Import Api.
From S2P Require Import ApiClient.
From S2P Require Import Dns.
From S2P Require Import Sqlite.

From S2P Require Import Agent.

Module AgentSpec.
Export Agent.
Import Api.

(** ** SQL texts

    How SQL reads a text: a quoted literal ends at a quote that is not
    doubled; everything else is code.  [None] is a literal that never ends. *)
Inductive token := Code (b : Z) | Lit (s : list Z).

(** [inside] is the literal read so far, if the position is in one. *)
Fixpoint lex (inside : option (list Z)) (l : list Z) : option (list token) :=
  match l, inside with
  | [], None => Some []
  | [], Some _ => None
  | b :: l, None => if b =? 39 then lex (Some []) l else cons (Code b) <$> lex None l
  | b :: l, Some acc =>
      if b =? 39 then
        match l with
        | c :: l' => if c =? 39 then lex (Some (acc ++ [39])) l' else cons (Lit acc) <$> lex None l
        | [] => Some [Lit acc]
        end
      else lex (Some (acc ++ [b])) l
  end.

(** A statement with literals in it, and its tokens. *)
Fixpoint statement (ps : list (list Z * list Z)) (final : list Z) : list Z :=
  match ps with
  | [] => final
  | (code, s) :: ps => code ++ 39 :: sql_escape s ++ 39 :: statement ps final
  end.
Fixpoint tokens_of (ps : list (list Z * list Z)) (final : list Z) : list token :=
  match ps with
  | [] => Code <$> final
  | (code, s) :: ps => (Code <$> code) ++ Lit s :: tokens_of ps final
  end.

Definition plain (l : list Z) : bool := forallb (fun b => negb (b =? 39) && negb (b =? 0)) l.
Definition has_nul (l : list Z) : bool := existsb (fun b => b =? 0) l.

Definition read_form (path : list Z) : list (list Z * list Z) := [(str "SELECT content FROM namespace WHERE path=", path)].
Definition insert_form (path kind content : list Z) : list (list Z * list Z) :=
  [(str "INSERT OR REPLACE INTO namespace (path, type, content, mtime) VALUES (", path); (str ", ", kind);
   (str ", ", content); (str ", strftime(", str "%s"); (str ",", str "now")].
Definition write_form (path content : list Z) : list (list Z * list Z) := insert_form path (str "data") content.
Definition list_form (prefix : list Z) : list (list Z * list Z) :=
  [(str "SELECT path FROM namespace WHERE substr(path, 1, " ++ dec (zlen prefix) ++ str ") = ", prefix)].
Definition update_form (path content : list Z) : list (list Z * list Z) :=
  [(str "UPDATE namespace SET content=", content); (str ", mtime=strftime(", str "%s"); (str ",", str "now");
   (str ") WHERE path=", path)].

(** A row of the audit trail. *)
Definition audit_form (agent action target : list Z) : list (list Z * list Z) :=
  [(str "INSERT INTO audit (agent, action, target) VALUES (", agent); (str ", ", action); (str ", ", target)].

Lemma lex_plain pre l : plain pre = true -> lex None (pre ++ l) = app (Code <$> pre) <$> lex None l.
Proof.
  induction pre as [|b pre IH]; intros Hp; [cbn; by destruct (lex None l)|].
  cbn in Hp |- *. apply andb_true_iff in Hp as [Hb Hp]. apply andb_true_iff in Hb as [Hb _].
  rewrite (proj1 (negb_true_iff _) Hb), IH by done. by destruct (lex None l).
Qed.

Lemma lex_literal s : forall acc post, head post <> Some 39 ->
  lex (Some acc) (sql_escape s ++ 39 :: post) = cons (Lit (acc ++ s)) <$> lex None post.
Proof.
  induction s as [|b s IH]; intros acc post Hpost.
  - cbn. rewrite app_nil_r. destruct post as [|c post]; [done|]. cbn in Hpost.
    by rewrite (proj2 (Z.eqb_neq c 39)) by congruence.
  - cbn. destruct (Z.eqb_spec b 39) as [->|Hb]; cbn [app lex].
    + change (39 =? 39) with true. fold (sql_escape s). cbv iota. rewrite IH by done. by rewrite <- app_assoc.
    + rewrite (proj2 (Z.eqb_neq b 39)) by done. fold (sql_escape s). rewrite IH by done. by rewrite <- app_assoc.
Qed.

Lemma lex_open s : forall acc, lex (Some acc) (sql_escape s) = None.
Proof.
  induction s as [|b s IH]; intros acc; [done|]. cbn. destruct (Z.eqb_spec b 39) as [->|Hb]; cbn [app lex].
  - change (39 =? 39) with true. apply IH.
  - rewrite (proj2 (Z.eqb_neq b 39)) by done. apply IH.
Qed.

Lemma has_nul_cons b l : has_nul (b :: l) = (b =? 0) || has_nul l.
Proof. done. Qed.

Lemma c_text_app l r : has_nul l = false -> Sqlite.c_text (l ++ r) = l ++ Sqlite.c_text r.
Proof.
  induction l as [|b l IH]; [done|]. rewrite has_nul_cons. intros [Hb Hl]%orb_false_iff. cbn. by rewrite Hb, IH.
Qed.

Lemma plain_no_nul l : plain l = true -> has_nul l = false.
Proof.
  induction l as [|b l IH]; [done|]. cbn. intros [Hb Hl]%andb_true_iff. apply andb_true_iff in Hb as [_ Hb].
  rewrite (proj1 (negb_true_iff _) Hb). by apply IH.
Qed.

Lemma has_nul_app l r : has_nul (l ++ r) = has_nul l || has_nul r.
Proof. apply existsb_app. Qed.

Lemma escape_nul s : has_nul (sql_escape s) = has_nul s.
Proof.
  induction s as [|b s IH]; [done|]. rewrite has_nul_cons, <- IH. change (sql_escape (b :: s)) with ((if b =? 39 then [39; 39] else [b]) ++ sql_escape s).
  rewrite has_nul_app. destruct (Z.eqb_spec b 39) as [->|_]; [done|]. cbn. by rewrite orb_false_r.
Qed.

Lemma escape_cut s post : has_nul s = true -> exists s', Sqlite.c_text (sql_escape s ++ post) = sql_escape s'.
Proof.
  induction s as [|b s IH]; [done|]. rewrite has_nul_cons. cbn. destruct (Z.eqb_spec b 0) as [->|Hb]; cbn [orb].
  - intros _. by exists [].
  - intros (s' & Hs')%IH. exists (b :: s'). cbn. destruct (Z.eqb_spec b 39) as [->|H39]; cbn; fold (sql_escape s); fold (sql_escape s').
    + by rewrite Hs'.
    + by rewrite (proj2 (Z.eqb_neq b 0)), Hs' by done.
Qed.

(** Whatever the literals are, the C text of a statement keeps its tokens, or
    ends inside a literal that holds a NUL. *)
Lemma lex_statement ps final : plain final = true ->
  Forall (fun p => plain (fst p) = true /\ fst p <> []) ps ->
  lex None (Sqlite.c_text (statement ps final ++ [0])) =
  if existsb (fun p => has_nul (snd p)) ps then None else Some (tokens_of ps final).
Proof.
  intros Hf. induction ps as [|[code s] ps IH]; intros Hps; cbn [statement tokens_of existsb snd].
  - rewrite c_text_app by (by apply plain_no_nul). cbn. rewrite lex_plain by done. cbn. by rewrite app_nil_r.
  - apply Forall_cons in Hps as [[Hc Hne] Hps]. cbn [fst] in Hc, Hne. specialize (IH Hps).
    rewrite <- app_assoc, c_text_app by (by apply plain_no_nul). rewrite lex_plain by done. cbn [app Sqlite.c_text].
    change (39 =? 0) with false. cbv iota. rewrite <- app_assoc. destruct (has_nul s) eqn:Hs; cbn [orb].
    + destruct (escape_cut s ((39 :: statement ps final) ++ [0]) Hs) as [s' ->]. cbn [lex].
      change (39 =? 39) with true. by rewrite lex_open.
    + rewrite c_text_app by (by rewrite escape_nul). cbn [app Sqlite.c_text]. change (39 =? 0) with false. cbv iota.
      cbn [lex]. change (39 =? 39) with true. cbv iota. rewrite lex_literal.
      * rewrite IH. cbn [app]. by destruct (existsb _ ps).
      * destruct ps as [|[c2 s2] ps]; cbn [statement].
        -- destruct final as [|b final]; [done|]. cbn in Hf. apply andb_true_iff in Hf as [Hb _].
           apply andb_true_iff in Hb as [Hb Hb0]. apply negb_true_iff in Hb, Hb0. cbn. rewrite Hb0. cbn.
           apply Z.eqb_neq in Hb. congruence.
        -- apply Forall_cons in Hps as [[Hc2 Hne2] _]. cbn [fst] in Hc2, Hne2. destruct c2 as [|b c2]; [done|]. cbn in Hc2.
           apply andb_true_iff in Hc2 as [Hb _]. apply andb_true_iff in Hb as [Hb Hb0]. apply negb_true_iff in Hb, Hb0.
           cbn. rewrite Hb0. cbn. apply Z.eqb_neq in Hb. congruence.
Qed.

Lemma tools_statements path content prefix :
  read_query path = statement (read_form path) [] /\
  write_query path content = statement (write_form path content) (str "))") /\
  update_query path content = statement (update_form path content) [] /\
  list_query prefix = statement (list_form prefix) (str " ORDER BY path").
Proof.
  split_and!; try reflexivity. unfold list_query, list_form. cbn [statement]. rewrite <- !app_assoc. reflexivity.
Qed.

Lemma dec_plain n : 0 <= n -> plain (dec n) = true.
Proof.
  intros Hn. apply forallb_forall. intros b Hb%list_elem_of_In. pose proof (dec_digits n Hn) as Hd.
  rewrite Forall_forall in Hd. apply Hd in Hb. unfold is_digit in Hb. apply andb_true_iff in Hb as [?%Z.leb_le ?%Z.leb_le].
  by rewrite (proj2 (Z.eqb_neq b 39)), (proj2 (Z.eqb_neq b 0)) by lia.
Qed.

(** ** Characters *)
Definition bytes_of_chars (n : nat) (p : list Z) : list Z := concat (take n (Str.chars p)).

Lemma chars_concat p : concat (Str.chars p) = p.
Proof.
  induction p as [|b p IH] using utf8_ind; [done|]. rewrite chars_step. cbn [concat]. by rewrite IH, take_drop.
Qed.

Lemma chars_sizes p : is_utf8 p = true ->
  Forall (fun c => c <> [] /\ (length c = 1%nat -> Forall (fun b => b < 0x80) c)) (Str.chars p).
Proof.
  induction p as [|b p IH] using utf8_ind; intros Hv; [constructor|]. rewrite chars_step.
  pose proof (is_utf8_step b p) as Hs. rewrite Hv in Hs.
  destruct (char_step (b :: p)) as [[] n] eqn:Hc; [|done]. cbn [andb snd] in *. constructor.
  - destruct (char_step_self (b :: p) n ltac:(done) Hc) as [Hself Hlen].
    pose proof (char_step_pos (b :: p)) as Hpos. rewrite Hc in Hpos. cbn [snd] in Hpos.
    split; [intros H; rewrite H in Hlen; cbn in Hlen; lia|]. intros H1. rewrite H1 in Hlen. subst n. cbn [take].
    constructor; [|constructor]. unfold char_step in Hc. cbv zeta in Hc. change (byte_at (b :: p) 0) with b in Hc.
    destruct (Z.ltb_spec b 0x80) as [|_]; [done|].
    repeat match type of Hc with (if ?c then _ else _) = _ => destruct c end; congruence.
  - apply IH. by rewrite Hs.
Qed.

Lemma concat_singles (cs : list (list Z)) :
  Forall (fun c => c <> [] /\ (length c = 1%nat -> Forall (fun b => b < 0x80) c)) cs ->
  (length cs <= length (concat cs))%nat /\ (length (concat cs) = length cs -> Forall (fun b => b < 0x80) (concat cs)).
Proof.
  induction 1 as [|c cs [Hne Hone] _ [Hle Hall]]; [by split; [cbn; lia|constructor]|]. cbn [concat length].
  rewrite length_app. destruct c as [|b c]; [done|]. cbn [length] in *. split; [lia|]. intros Heq.
  apply Forall_app. split; [apply Hone|apply Hall]; lia.
Qed.

Lemma chars_ascii q r : Forall (fun b => b < 0x80) q -> Str.chars (q ++ r) = ((fun b => [b]) <$> q) ++ Str.chars r.
Proof.
  induction 1 as [|b q Hb _ IH]; [done|]. cbn [app fmap list_fmap]. rewrite chars_step.
  assert (char_step (b :: q ++ r) = (true, 1%nat)) as ->.
  { unfold char_step. cbv zeta. change (byte_at (b :: q ++ r) 0) with b. by rewrite (proj2 (Z.ltb_lt b 0x80)). }
  cbn [snd]. change (drop 1 (b :: q ++ r)) with (q ++ r). by rewrite IH.
Qed.

(** The first [n] characters are a given text of [n] bytes exactly when they
    are the whole text or the given text is ASCII and a prefix. *)
Lemma chars_prefix p q : is_utf8 p = true ->
  bytes_of_chars (length q) p = q <-> p = q \/ (Forall (fun b => b < 0x80) q /\ exists r, p = q ++ r).
Proof.
  intros Hp. unfold bytes_of_chars. pose proof (chars_sizes p Hp) as Hs. split.
  - intros Hq. destruct (le_lt_dec (length (Str.chars p)) (length q)) as [Hle|Hlt].
    + left. by rewrite take_ge, chars_concat in Hq by done.
    + right. pose proof (concat_singles (take (length q) (Str.chars p))) as [_ Hall]; [by apply Forall_take|].
      rewrite Hq, length_take in Hall. split; [apply Hall; lia|]. exists (concat (drop (length q) (Str.chars p))).
      rewrite <- Hq at 1. by rewrite <- concat_app, take_drop, chars_concat.
  - intros [->|[Ha [r ->]]].
    + destruct (concat_singles _ Hs) as [Hle _]. rewrite chars_concat in Hle. by rewrite take_ge, chars_concat.
    + rewrite chars_ascii by done. rewrite <- (length_fmap (fun b => [b]) q), take_app_length.
      clear. induction q as [|b q IH]; [done|]. cbn. by rewrite IH.
Qed.

(** ** The namespace

    The files of the database, what the engine does with the four statements,
    and what the tools promise.  [may_fail] says whether the engine may report
    errors of its own (full disk, I/O). *)
Abbreviation files := (gmap (list Z) (list Z)).

Fixpoint bytes_le (a b : list Z) : bool :=
  match a, b with
  | [], _ => true
  | _ :: _, [] => false
  | x :: a, y :: b => (x <? y) || ((x =? y) && bytes_le a b)
  end.
Definition listed (fs : files) (p : list Z -> Prop) (ps : list (list Z)) : Prop :=
  NoDup ps /\ Sorted bytes_le ps /\ forall path, path ∈ ps <-> path ∈ dom fs /\ p path.
Definition content_rows (fs : files) (path : list Z) : list (list Sqlite.cell) :=
  match fs !! path with Some c => [[Sqlite.CText c]] | None => [] end.

Class Namespace (W : Type) {HE : Sqlite.Engine W} {HS : @Sqlite.EngineSpec W files HE} := {
  may_fail : bool;
  select_law db sql path w : lex None sql = Some (tokens_of (read_form path) []) ->
    let '((rc, stmt), w') := Sqlite.sqlite3_prepare_v2 db sql w in
    (may_fail = false -> rc = Sqlite.SQLITE_OK) /\
    (rc = Sqlite.SQLITE_OK -> stmt <> 0 /\ exists c, Sqlite.stmts w' !! stmt = Some c /\ Sqlite.writes c = false /\
       Sqlite.rest c = content_rows (Sqlite.data w) path /\ (may_fail = false -> Sqlite.fails c = false));
  list_law db sql prefix w : lex None sql = Some (tokens_of (list_form prefix) (str " ORDER BY path")) ->
    let '((rc, stmt), w') := Sqlite.sqlite3_prepare_v2 db sql w in
    (may_fail = false -> rc = Sqlite.SQLITE_OK) /\
    (rc = Sqlite.SQLITE_OK -> stmt <> 0 /\ exists c ps, Sqlite.stmts w' !! stmt = Some c /\ Sqlite.writes c = false /\
       Sqlite.rest c = (fun p => [Sqlite.CText p]) <$> ps /\
       listed (Sqlite.data w) (fun p => bytes_of_chars (length prefix) p = prefix) ps /\
       (may_fail = false -> Sqlite.fails c = false));
  insert_law db sql path kind content w : lex None sql = Some (tokens_of (insert_form path kind content) (str "))")) ->
    let '((rc, _), w') := Sqlite.sqlite3_exec db sql w in
    (may_fail = false -> rc = Sqlite.SQLITE_OK) /\ Sqlite.stmts w' = Sqlite.stmts w /\
    Sqlite.data w' = if rc =? Sqlite.SQLITE_OK then <[path := content]> (Sqlite.data w) else Sqlite.data w;
  update_law db sql path content w : lex None sql = Some (tokens_of (update_form path content) []) ->
    let '((rc, _), w') := Sqlite.sqlite3_exec db sql w in
    (may_fail = false -> rc = Sqlite.SQLITE_OK) /\ Sqlite.stmts w' = Sqlite.stmts w /\
    Sqlite.data w' = if rc =? Sqlite.SQLITE_OK then alter (fun _ => content) path (Sqlite.data w) else Sqlite.data w;
  open_select_law db sql w : lex None sql = None -> fst (fst (Sqlite.sqlite3_prepare_v2 db sql w)) <> Sqlite.SQLITE_OK;
  open_exec_law db sql w : lex None sql = None ->
    let '((rc, _), w') := Sqlite.sqlite3_exec db sql w in
    rc <> Sqlite.SQLITE_OK /\ Sqlite.stmts w' = Sqlite.stmts w /\ Sqlite.data w' = Sqlite.data w;
  free_law p w : Sqlite.stmts (Sqlite.sqlite3_free p w) = Sqlite.stmts w /\ Sqlite.data (Sqlite.sqlite3_free p w) = Sqlite.data w;
}.

Inductive op :=
| ReadFile (path : list Z)
| WriteFile (path content : list Z)
| ListDir (path : list Z)
| StrReplace (path old_str new_str : list Z).

(** The operation a call asks for. *)
Definition asked (name : list Z) (input : Json.JsonValue) : option op :=
  if bool_decide (name = str "read_file") then p ← get_str input "path"; Some (ReadFile p)
  else if bool_decide (name = str "write_file") then p ← get_str input "path"; c ← get_str input "content"; Some (WriteFile p c)
  else if bool_decide (name = str "list_dir") then p ← get_str input "path"; Some (ListDir p)
  else if bool_decide (name = str "str_replace") then
    p ← get_str input "path"; o ← get_str input "old_str"; n ← get_str input "new_str"; Some (StrReplace p o n)
  else None.
Definition op_texts (o : op) : list (list Z) :=
  match o with
  | ReadFile p | ListDir p => [p]
  | WriteFile p c => [p; c]
  | StrReplace p o n => [p; o; n]
  end.

(** The text [a ++ o ++ b] with [o] at its first occurrence. *)
Definition first_at (o a b c : list Z) : Prop :=
  c = a ++ o ++ b /\ forall a' b', c = a' ++ o ++ b' -> (length a <= length a')%nat.
Definition dir_prefix (path : list Z) : list Z := if ends_with_slash path then path else path ++ [47].
Definition list_text (path : list Z) (ps : list (list Z)) : list Z :=
  match ps with [] => str "no entries under " ++ path | _ => Str.join [10] ps end.

(** Why an operation cannot be done. *)
Definition refused (fs : files) (o : op) : Prop :=
  match o with
  | ReadFile p => has_nul p = true \/ fs !! p = None
  | WriteFile p c => has_nul p = true \/ has_nul c = true
  | ListDir p => has_nul p = true
  | StrReplace p o n =>
      has_nul p = true \/ fs !! p = None \/ has_nul n = true \/
      exists c, fs !! p = Some c /\ forall a b, c <> a ++ o ++ b
  end.

Inductive effect (may_fail : bool) (fs : files) : op -> files -> list Z * bool -> Prop :=
| E_read p c : fs !! p = Some c -> effect may_fail fs (ReadFile p) fs (c, false)
| E_write p c msg : has_nul p = false -> has_nul c = false ->
    effect may_fail fs (WriteFile p c) (<[p := c]> fs) (msg, false)
| E_list p ps :
    listed fs (fun q => q = dir_prefix p \/ Forall (fun b => b < 0x80) (dir_prefix p) /\ exists r, q = dir_prefix p ++ r) ps ->
    effect may_fail fs (ListDir p) fs (list_text p ps, false)
| E_replace p o n a b c msg : fs !! p = Some c -> first_at o a b c -> has_nul n = false ->
    effect may_fail fs (StrReplace p o n) (<[p := a ++ n ++ b]> fs) (msg, false)
| E_error o msg : refused fs o \/ may_fail = true -> effect may_fail fs o fs (msg, true).

(** Names and contents are text without NULs. *)
Definition text (s : list Z) : Prop := is_utf8 s = true /\ has_nul s = false.
Definition files_ok (fs : files) : Prop := map_Forall (fun p c => text p /\ text c) fs.

Lemma text_cell s : text s -> from_utf8_lossy (Sqlite.c_text s) = s.
Proof.
  intros [Hu Hn]. rewrite <- (app_nil_r s) at 1. rewrite c_text_app by done. cbn. rewrite app_nil_r. by apply lossy_valid_id.
Qed.

(** ** First occurrences *)
Lemma find_first o c i : Str.find o c = Some i ->
  exists a b, first_at o a b c /\ length a = i /\ take i c = a /\ drop (i + length o) c = b.
Proof.
  revert i. induction c as [|x c IH]; intros i Hf; cbn [Str.find] in Hf.
  - destruct (starts_with [] o) eqn:Hs; [|done]. injection Hf as <-. apply Str.starts_with_iff in Hs as [r Hr].
    exists [], r. split_and!; [split; [done|cbn; lia]|done|done|]. cbn [Nat.add]. rewrite Hr. by rewrite drop_app_length.
  - destruct (starts_with (x :: c) o) eqn:Hs.
    + injection Hf as <-. apply Str.starts_with_iff in Hs as [r Hr]. exists [], r.
      split_and!; [split; [done|cbn; lia]|done|done|]. cbn [Nat.add]. rewrite Hr. by rewrite drop_app_length.
    + destruct (Str.find o c) as [k|] eqn:Hk; [|done]. injection Hf as <-. destruct (IH k eq_refl) as (a & b & [Hc Hmin] & Hl & Ht & Hd).
      exists (x :: a), b. split_and!; [|cbn; lia|cbn; by rewrite Ht|cbn; by rewrite Hd]. split; [cbn; by rewrite <- Hc|].
      intros [|y a'] b' Hc'; [|injection Hc' as _ Hc'; cbn; by apply le_n_S, (Hmin a' b')].
      cbn [app] in Hc'. by rewrite (proj2 (Str.starts_with_iff _ _)) in Hs by (by exists b').
Qed.

Lemma find_absent o c : Str.find o c = None -> forall a b, c <> a ++ o ++ b.
Proof.
  intros Hf a b ->. induction a as [|x a IH]; cbn [app Str.find] in Hf.
  - by rewrite Str.find_here in Hf.
  - apply IH. cbn [Str.find] in Hf. destruct (starts_with _ _); [done|]. by destruct (Str.find o (a ++ o ++ b)).
Qed.

Section refinement.
Context {W : Type} {HE : Sqlite.Engine W} {HS : @Sqlite.EngineSpec W files HE} {HN : @Namespace W HE HS}.
Variable f64_text : Json.f64 -> list Z.

Lemma exec_run db sql w :
  let '((rc, _), w1) := Sqlite.sqlite3_exec db (Sqlite.c_text (sql ++ [0])) w in
  exists r w', Sqlite.exec db sql w = (r, w') /\ Sqlite.stmts w' = Sqlite.stmts w1 /\ Sqlite.data w' = Sqlite.data w1 /\
  if rc =? Sqlite.SQLITE_OK then r = Ok tt else exists m, r = Err m.
Proof.
  unfold Sqlite.exec, mbind, st_bind, Sqlite.call. destruct (Sqlite.sqlite3_exec _ _ w) as [[rc e] w1].
  destruct (rc =? Sqlite.SQLITE_OK); cbn [negb]; [by eexists _, w1|]. destruct (e =? 0); cbn [negb].
  - destruct (Sqlite.errmsg_pure db w1) as [m Hm]. rewrite Hm. eexists _, w1. split_and!; [reflexivity|done|done|by eexists].
  - destruct (free_law e w1) as [Hs Hd]. eexists _, (Sqlite.sqlite3_free e w1). split_and!; [reflexivity|done|done|by eexists].
Qed.

Lemma lex_read p : lex None (Sqlite.c_text (read_query p ++ [0])) =
  if has_nul p then None else Some (tokens_of (read_form p) []).
Proof.
  destruct (tools_statements p p p) as [-> _]. rewrite lex_statement by (try done; by repeat constructor).
  cbn [existsb snd read_form]. by rewrite orb_false_r.
Qed.

Lemma lex_write p c : lex None (Sqlite.c_text (write_query p c ++ [0])) =
  if has_nul p || has_nul c then None else Some (tokens_of (write_form p c) (str "))")).
Proof.
  destruct (tools_statements p c p) as (_ & -> & _). rewrite lex_statement by (try done; by repeat constructor).
  cbn [existsb snd write_form insert_form]. by destruct (has_nul p), (has_nul c).
Qed.

Lemma lex_update p c : lex None (Sqlite.c_text (update_query p c ++ [0])) =
  if has_nul p || has_nul c then None else Some (tokens_of (update_form p c) []).
Proof.
  destruct (tools_statements p c p) as (_ & _ & -> & _). rewrite lex_statement by (try done; by repeat constructor).
  cbn [existsb snd update_form]. by destruct (has_nul p), (has_nul c).
Qed.

Lemma plain_app a b : plain (a ++ b) = plain a && plain b.
Proof. apply forallb_app. Qed.

Lemma lex_list q : lex None (Sqlite.c_text (list_query q ++ [0])) =
  if has_nul q then None else Some (tokens_of (list_form q) (str " ORDER BY path")).
Proof.
  destruct (tools_statements q q q) as (_ & _ & _ & ->). rewrite lex_statement; [|done|].
  - cbn [existsb snd list_form]. by rewrite orb_false_r.
  - constructor; [|constructor]. cbn [fst]. rewrite !plain_app, dec_plain by apply zlen_nonneg. done.
Qed.

(** A query runs: it returns the rows the engine promises, or an error. *)
Lemma run_query turns (db : Z) (sql : list Z) (bad : bool) (promised : list (list Sqlite.cell) -> Prop) (w : W) :
  (let '((rc, stmt), w1) := Sqlite.sqlite3_prepare_v2 db (Sqlite.c_text (sql ++ [0])) w in
   if bad then rc <> Sqlite.SQLITE_OK
   else (may_fail = false -> rc = Sqlite.SQLITE_OK) /\
     (rc = Sqlite.SQLITE_OK -> stmt <> 0 /\ exists c, Sqlite.stmts w1 !! stmt = Some c /\ Sqlite.writes c = false /\
        (length (Sqlite.rest c) < turns)%nat /\ promised (Sqlite.rest c) /\ (may_fail = false -> Sqlite.fails c = false))) ->
  exists r w', Sqlite.query turns db sql w = (r, w') /\ Sqlite.stmts w' = Sqlite.stmts w /\ Sqlite.data w' = Sqlite.data w /\
  ((exists a cells, r = Ok a /\ bad = false /\ promised cells /\ Sqlite.rows a = Sqlite.row_values <$> cells) \/
   (exists e, r = Err e) /\ (bad = true \/ may_fail = true)).
Proof.
  destruct (Sqlite.sqlite3_prepare_v2 db (Sqlite.c_text (sql ++ [0])) w) as [[rc stmt] w1] eqn:Hp. intros Hlaw.
  assert (rc <> Sqlite.SQLITE_OK -> exists e w', Sqlite.query turns db sql w = (Err e, w') /\
    Sqlite.stmts w' = Sqlite.stmts w /\ Sqlite.data w' = Sqlite.data w) as Hbad.
  { intros Hrc. edestruct @Sqlite.not_prepared as (e & He & Hs); [exact Hp|done|]. exists e, w1. by split; [exact He|]. }
  destruct bad.
  - destruct (Hbad Hlaw) as (e & w' & Hq & Hs & Hd). exists (Err e), w'. split_and!; [done..|]. right. split; [by exists e|by left].
  - destruct Hlaw as [Hrel Hgood]. destruct (Z.eq_dec rc Sqlite.SQLITE_OK) as [->|Hrc].
    + destruct (Hgood eq_refl) as (Hst & c & Hc & Hwr & Hlen & Hrows & Hf).
      destruct (Sqlite.prepared turns db sql w stmt w1 c Hp Hst Hc Hlen) as [(r & w' & Hq & Hs & Hd & Hr) _].
      exists r, w'. split_and!; [done|done|by apply Hd|]. destruct (Sqlite.fails c).
      * right. split; [done|]. right. destruct may_fail; [done|]. by discriminate Hf.
      * left. by exists (Sqlite.answer c), (Sqlite.rest c).
    + destruct (Hbad Hrc) as (e & w' & Hq & Hs & Hd). exists (Err e), w'.
      split_and!; [done..|]. right. split; [by exists e|]. right. destruct may_fail; [done|]. by destruct Hrc; apply Hrel.
Qed.

(** The four statements run. *)
Lemma run_select turns (db : Z) path (w : W) : (2 <= turns)%nat -> files_ok (Sqlite.data w) ->
  exists r w', Sqlite.query_value f64_text turns db (read_query path) w = (r, w') /\
  Sqlite.stmts w' = Sqlite.stmts w /\ Sqlite.data w' = Sqlite.data w /\
  (r = Ok (Sqlite.data w !! path) /\ has_nul path = false \/ (exists e, r = Err e) /\ (has_nul path = true \/ may_fail = true)).
Proof.
  intros Ht Hok. pose proof (lex_read path) as Hlex. unfold Sqlite.query_value, mbind, st_bind.
  destruct (run_query turns db (read_query path) (has_nul path) (fun rows => rows = content_rows (Sqlite.data w) path) w)
    as (r & w' & -> & Hs & Hd & Hr).
  - destruct (has_nul path).
    + pose proof (open_select_law db _ w Hlex). by destruct (Sqlite.sqlite3_prepare_v2 _ _ w) as [[rc stmt] w1].
    + pose proof (select_law db _ path w Hlex) as Hl. destruct (Sqlite.sqlite3_prepare_v2 _ _ w) as [[rc stmt] w1].
      destruct Hl as [Hrel Hgood]. split; [done|]. intros Hrc. destruct (Hgood Hrc) as (Hst & c & Hc & Hwr & Hrest & Hf).
      split; [done|]. exists c. split_and!; try done. rewrite Hrest. unfold content_rows. case_match; cbn; lia.
  - destruct Hr as [(a & cells & -> & -> & -> & Ha)|[[e ->] Hr]].
    + eexists _, w'. split_and!; [reflexivity|done..|]. left. split; [|done]. rewrite Ha. unfold content_rows.
      destruct (Sqlite.data w !! path) as [x|] eqn:Hx; [|done]. cbn.
      destruct (Hok path x Hx) as [_ Htx]. by rewrite text_cell.
    + exists (Err e), w'. split_and!; [done..|]. right. by split; [exists e|].
Qed.

Lemma run_exec (db : Z) (sql : list Z) (bad : bool) (f : files -> files) (ts : list token) (w : W) :
  lex None (Sqlite.c_text (sql ++ [0])) = (if bad then None else Some ts) ->
  (forall s, lex None s = Some ts -> let '((rc, _), w') := Sqlite.sqlite3_exec db s w in
    (may_fail = false -> rc = Sqlite.SQLITE_OK) /\ Sqlite.stmts w' = Sqlite.stmts w /\
    Sqlite.data w' = if rc =? Sqlite.SQLITE_OK then f (Sqlite.data w) else Sqlite.data w) ->
  exists r w', Sqlite.exec db sql w = (r, w') /\ Sqlite.stmts w' = Sqlite.stmts w /\
  (r = Ok tt /\ bad = false /\ Sqlite.data w' = f (Sqlite.data w) \/
   (exists e, r = Err e) /\ Sqlite.data w' = Sqlite.data w /\ (bad = true \/ may_fail = true)).
Proof.
  intros Hlex Hlaw. pose proof (exec_run db sql w) as He. destruct bad.
  - pose proof (open_exec_law db _ w Hlex) as Ho. destruct (Sqlite.sqlite3_exec _ _ w) as [[rc e] w1].
    destruct Ho as (Hrc & Hs & Hd), He as (r & w' & Hr & Hs' & Hd' & Hcase). exists r, w'. split; [done|]. split; [congruence|].
    right. rewrite (proj2 (Z.eqb_neq _ _) Hrc) in Hcase. split_and!; [done|congruence|by left].
  - pose proof (Hlaw _ Hlex) as Ho. destruct (Sqlite.sqlite3_exec _ _ w) as [[rc e] w1].
    destruct Ho as (Hrel & Hs & Hd), He as (r & w' & Hr & Hs' & Hd' & Hcase). exists r, w'. split; [done|]. split; [congruence|].
    destruct (Z.eqb_spec rc Sqlite.SQLITE_OK) as [->|Hrc].
    + left. split_and!; [done|done|congruence].
    + right. split_and!; [done|congruence|]. right. destruct may_fail; [done|]. by destruct Hrc; apply Hrel.
Qed.

Lemma listed_impl fs (P Q : list Z -> Prop) ps : (forall p, p ∈ dom fs -> P p <-> Q p) -> listed fs P ps -> listed fs Q ps.
Proof. intros Hpq (Hnd & Hs & Hin). split_and!; [done..|]. intros p. rewrite Hin. specialize (Hpq p). tauto. Qed.

Lemma listed_length fs P ps : listed fs P ps -> (length ps <= size fs)%nat.
Proof.
  intros (Hnd & _ & Hin). rewrite <- (size_dom (D := gset (list Z))). rewrite <- (size_list_to_set (C := gset (list Z)) ps) by done.
  apply subseteq_size. intros p. rewrite elem_of_list_to_set, Hin. tauto.
Qed.

Lemma column_texts (ps acc : list (list Z)) :
  foldl (fun out row => match row with
    | val :: _ => match Sqlite.value_string f64_text val with Some s => out ++ [s] | None => out end
    | [] => out end) acc ((fun p => [Sqlite.SqlText p]) <$> ps) = acc ++ ps.
Proof.
  revert acc. induction ps as [|p ps IH]; intros acc; cbn; [by rewrite app_nil_r|]. by rewrite IH, <- app_assoc.
Qed.

Lemma run_list turns (db : Z) q (w : W) : (size (Sqlite.data w) < turns)%nat -> files_ok (Sqlite.data w) ->
  exists r w', Sqlite.query_column f64_text turns db (list_query q) w = (r, w') /\
  Sqlite.stmts w' = Sqlite.stmts w /\ Sqlite.data w' = Sqlite.data w /\
  ((exists ps, r = Ok ps /\
      listed (Sqlite.data w) (fun p => p = q \/ Forall (fun b => b < 0x80) q /\ exists r, p = q ++ r) ps) \/
   (exists e, r = Err e) /\ (has_nul q = true \/ may_fail = true)).
Proof.
  intros Ht Hok. pose proof (lex_list q) as Hlex. unfold Sqlite.query_column, mbind, st_bind.
  set (chosen ps := listed (Sqlite.data w) (fun p => bytes_of_chars (length q) p = q) ps).
  destruct (run_query turns db (list_query q) (has_nul q)
    (fun rows => exists ps, rows = (fun p => [Sqlite.CText p]) <$> ps /\ chosen ps) w) as (r & w' & -> & Hs & Hd & Hr).
  - destruct (has_nul q).
    + pose proof (open_select_law db _ w Hlex). by destruct (Sqlite.sqlite3_prepare_v2 _ _ w) as [[rc stmt] w1].
    + pose proof (list_law db _ q w Hlex) as Hl. destruct (Sqlite.sqlite3_prepare_v2 _ _ w) as [[rc stmt] w1].
      destruct Hl as [Hrel Hgood]. split; [done|]. intros Hrc.
      destruct (Hgood Hrc) as (Hst & c & ps & Hc & Hwr & Hrest & Hls & Hf). pose proof (listed_length _ _ _ Hls) as Hlen.
      split; [done|]. exists c. split_and!; try done; [rewrite Hrest, length_fmap; lia|by exists ps].
  - destruct Hr as [(a & cells & -> & Hn & (ps & -> & Hls) & Ha)|[[e ->] Hr]].
    + eexists _, w'. split_and!; [reflexivity|done..|]. left. exists ps.
      assert (forall p, p ∈ ps -> text p) as Htx.
      { intros p Hin. apply Hls in Hin as [[x Hx]%elem_of_dom _]. by apply (Hok p x). }
      split.
      * f_equal. rewrite Ha, <- list_fmap_compose. rewrite <- (column_texts ps []) at 2. f_equal. apply list_fmap_ext.
        intros i p Hi. cbn. by rewrite text_cell by (apply Htx; by eapply list_elem_of_lookup_2).
      * eapply listed_impl; [|exact Hls]. intros p [x Hx]%elem_of_dom. apply chars_prefix. by apply (Hok p x).
    + exists (Err e), w'. split_and!; [done..|]. right. by split; [exists e|].
Qed.

(** ** The tools *)
Definition runs (turns : nat) (m : st W (list Z) (list Z * bool)) (o : op) (w : W) : Prop :=
  exists r w', m w = (Ok r, w') /\ effect may_fail (Sqlite.data w) o (Sqlite.data w') r /\ Sqlite.stmts w' = Sqlite.stmts w.

Lemma try_bind {A B} (m : Sqlite.L A) (k : A + list Z -> st W (list Z) B) w r w' : m w = (r, w') ->
  (_x ← st_try m; k _x) w = match r with Ok a => k (inl a) w' | Err e => k (inr e) w' | Panic => (Panic, w') end.
Proof. intros Hm. unfold mbind, st_bind, st_try. rewrite Hm. by destruct r. Qed.

Lemma read_file_runs turns db input p w : get_str input "path" = Some p -> (size (Sqlite.data w) + 2 <= turns)%nat ->
  files_ok (Sqlite.data w) -> runs turns (tool_read_file f64_text turns (Some db) input) (ReadFile p) w.
Proof.
  intros Hp Ht Hok. unfold runs, tool_read_file. rewrite Hp. cbn [with_db].
  destruct (run_select turns db p w ltac:(lia) Hok) as (r & w' & Hq & Hs & Hd & Hr). rewrite (try_bind _ _ _ _ _ Hq).
  destruct Hr as [[-> Hn]|[[e ->] Hr]].
  - destruct (Sqlite.data w !! p) as [c|] eqn:Hc; eexists _, w'; (split; [reflexivity|]); rewrite Hd; split; try done.
    + by apply E_read.
    + apply E_error. left. by right.
  - eexists _, w'. split; [reflexivity|]. rewrite Hd. split; [|done]. apply E_error. cbn. tauto.
Qed.

Lemma write_file_runs turns db input p c w : get_str input "path" = Some p -> get_str input "content" = Some c ->
  runs turns (tool_write_file (Some db) input) (WriteFile p c) w.
Proof.
  intros Hp Hc. unfold runs, tool_write_file. rewrite Hp, Hc. cbn [with_db].
  destruct (run_exec db (write_query p c) _ (fun fs => <[p := c]> fs) _ w (lex_write p c)) as (r & w' & Hq & Hs & Hr).
  { intros s. apply (insert_law db s p _ c w). }
  rewrite (try_bind _ _ _ _ _ Hq). destruct Hr as [(-> & [Hn1 Hn2]%orb_false_iff & Hd)|([e ->] & Hd & Hr)].
  - eexists _, w'. split; [reflexivity|]. rewrite Hd. split; [|done]. by apply E_write.
  - eexists _, w'. split; [reflexivity|]. rewrite Hd. split; [|done]. apply E_error. cbn. rewrite orb_true_iff in Hr. tauto.
Qed.

Lemma list_dir_runs turns db input p w : get_str input "path" = Some p -> (size (Sqlite.data w) + 2 <= turns)%nat ->
  files_ok (Sqlite.data w) -> runs turns (tool_list_dir f64_text turns (Some db) input) (ListDir p) w.
Proof.
  intros Hp Ht Hok. unfold runs, tool_list_dir. rewrite Hp. cbn [with_db]. fold (dir_prefix p).
  destruct (run_list turns db (dir_prefix p) w ltac:(lia) Hok) as (r & w' & Hq & Hs & Hd & Hr). rewrite (try_bind _ _ _ _ _ Hq).
  destruct Hr as [(ps & -> & Hls)|[[e ->] Hr]].
  - exists (list_text p ps, false), w'. split; [by destruct ps|]. rewrite Hd. split; [|done]. by apply E_list.
  - eexists _, w'. split; [reflexivity|]. rewrite Hd. split; [|done]. apply E_error. cbn.
    destruct Hr as [Hr|Hr]; [|by right]. left. unfold dir_prefix in Hr. destruct (ends_with_slash p); [done|].
    rewrite has_nul_app in Hr. cbn in Hr. by rewrite orb_false_r in Hr.
Qed.

Lemma has_nul_replaced a o b n : has_nul (a ++ o ++ b) = false -> has_nul (a ++ n ++ b) = has_nul n.
Proof. rewrite !has_nul_app. intros [-> [_ ->]%orb_false_iff]%orb_false_iff. by rewrite orb_false_r. Qed.

Lemma str_replace_runs turns db input p o n w :
  get_str input "path" = Some p -> get_str input "old_str" = Some o -> get_str input "new_str" = Some n ->
  (size (Sqlite.data w) + 2 <= turns)%nat -> files_ok (Sqlite.data w) ->
  runs turns (tool_str_replace f64_text turns (Some db) input) (StrReplace p o n) w.
Proof.
  intros Hp Ho Hn Ht Hok. unfold runs, tool_str_replace. rewrite Hp, Ho, Hn. cbn [with_db].
  destruct (run_select turns db p w ltac:(lia) Hok) as (r & w1 & Hq & Hs & Hd & Hr). rewrite (try_bind _ _ _ _ _ Hq).
  destruct Hr as [[-> Hnp]|[[e ->] Hr]].
  2: { eexists _, w1. split; [reflexivity|]. rewrite Hd. split; [|done]. apply E_error. cbn. tauto. }
  destruct (Sqlite.data w !! p) as [c|] eqn:Hc.
  2: { eexists _, w1. split; [reflexivity|]. rewrite Hd. split; [|done]. apply E_error. cbn. tauto. }
  unfold Str.contains, replacen_one. destruct (Str.find o c) as [i|] eqn:Hf; cbn.
  2: { eexists _, w1. split; [reflexivity|]. rewrite Hd. split; [|done]. apply E_error. left. do 3 right.
       exists c. split; [done|]. by apply find_absent. }
  destruct (find_first o c i Hf) as (a & b & Hfirst & _ & -> & ->). set (c' := a ++ n ++ b).
  destruct (Hok p c Hc) as [_ [_ Hcn]]. pose proof Hfirst as [-> _]. assert (has_nul c' = has_nul n) as Hn' by (by apply has_nul_replaced with o).
  destruct (run_exec db (update_query p c') _ (alter (fun _ => c') p) _ w1 (lex_update p c')) as (r & w' & Hq' & Hs' & Hr).
  { intros s. apply (update_law db s p c' w1). }
  rewrite (try_bind _ _ _ _ _ Hq'). rewrite Hnp, Hn' in Hr. cbn [orb] in Hr.
  destruct Hr as [(-> & Hnn & Hd')|([e ->] & Hd' & Hr)].
  - eexists _, w'. split; [reflexivity|]. rewrite Hd', Hd. split; [|congruence].
    replace (alter (fun _ => c') p (Sqlite.data w)) with (<[p := c']> (Sqlite.data w)); [by eapply E_replace|].
    apply map_eq. intros q. destruct (decide (q = p)) as [->|Hqp].
    + by rewrite lookup_insert_eq, lookup_alter_eq, Hc.
    + by rewrite lookup_insert_ne, lookup_alter_ne by done.
  - eexists _, w'. split; [reflexivity|]. rewrite Hd', Hd. split; [|congruence]. apply E_error. cbn. tauto.
Qed.

Lemma effect_ok mf fs o fs' r : effect mf fs o fs' r -> files_ok fs -> Forall (fun s => is_utf8 s = true) (op_texts o) -> files_ok fs'.
Proof.
  intros [] Hok Ho; try done; cbn [op_texts] in Ho.
  - apply Forall_cons in Ho as [Hp Ho]. apply Forall_cons in Ho as [Hc _]. by apply map_Forall_insert_2.
  - repeat (apply Forall_cons in Ho as [? Ho]). apply map_Forall_insert_2; [|done]. destruct (Hok p c H) as [Htp [Hcu Hcn]].
    split; [done|]. destruct H0 as [-> Hmin]. split; [|by rewrite (has_nul_replaced a o0 b n)].
    destruct (decide (o0 = [])) as [->|Hne].
    + assert (a = []) as ->. { apply length_zero_iff_nil. pose proof (Hmin [] (a ++ b) eq_refl). cbn in *. lia. }
      cbn [app] in *. by apply is_utf8_app.
    + destruct (is_utf8_occurrence a o0 b Hcu ltac:(done) Hne) as [Ha Hb]. by repeat apply is_utf8_app.
Qed.

(** ** Properties of the tools *)

(** C23. The SQL texts of the tools cannot be subverted by their arguments.
    Whatever the path, the content and the prefix, the text that reaches the
    engine has exactly the tokens of the intended statement, with each
    argument inside one string literal; or, when an argument holds a NUL, it
    ends inside a literal and is no statement at all. *)
Theorem agent_sql_literals path content prefix :
  lex None (Sqlite.c_text (read_query path ++ [0])) =
    (if has_nul path then None else Some (tokens_of (read_form path) [])) /\
  lex None (Sqlite.c_text (write_query path content ++ [0])) =
    (if has_nul path || has_nul content then None else Some (tokens_of (write_form path content) (str "))"))) /\
  lex None (Sqlite.c_text (update_query path content ++ [0])) =
    (if has_nul path || has_nul content then None else Some (tokens_of (update_form path content) [])) /\
  lex None (Sqlite.c_text (list_query prefix ++ [0])) =
    (if has_nul prefix then None else Some (tokens_of (list_form prefix) (str " ORDER BY path"))).
Proof. split_and!; [apply lex_read|apply lex_write|apply lex_update|apply lex_list]. Qed.

End refinement.

(** ** The conversation *)
Section conversation.
Context {W : Type} `{HE : Sqlite.Engine W}.
Variable f64_text : Json.f64 -> list Z.
Variable rows : nat.
Variable network : list ClaudeRequest -> nat -> ApiClient.session.
Variable guard : option Z.

(** What the service answers to the last request of a log. *)
Definition reply (log : list ClaudeRequest) (req : ClaudeRequest) : out ApiError ClaudeResponse :=
  fst (ApiClient.claude_request_agentic req (network log)).

Definition answers (tc : ToolCall) (b : ContentBlock) : Prop := exists r e, b = ToolResult (tc_id tc) r e.

(** One turn of tool use, and a conversation of [n] turns. *)
Definition turn_messages (text : list Z) (calls : list ToolCall) (results : list ContentBlock) : list Message :=
  [assistant_tool_use text calls; mkMessage (str "user") [] results].
Inductive conversation (prompt : list Z) : nat -> list Message -> Prop :=
| Prompt : conversation prompt 0 [text_message (str "user") prompt]
| Turn n msgs text calls results :
    conversation prompt n msgs -> calls <> [] -> Forall2 answers calls results ->
    conversation prompt (S n) (msgs ++ turn_messages text calls results).

Lemma clone_id msgs : clone_messages msgs = msgs.
Proof. unfold clone_messages. rewrite <- (list_fmap_id msgs) at 2. apply list_fmap_ext. by intros i []. Qed.

(** A tool's result is never a Rust error. *)
Definition answering {A} (m : st W (list Z) A) : Prop := forall w, match fst (m w) with Err _ => False | _ => True end.

Lemma answering_ret {A} (a : A) : answering (mret a).
Proof. done. Qed.

Lemma answering_try {A B} (m : Sqlite.L A) (k : A + list Z -> st W (list Z) B) :
  (forall x, answering (k x)) -> answering (x ← st_try m; k x).
Proof.
  intros Hk w. unfold mbind, st_bind, st_try. destruct (m w) as [[a|e|] w']; cbn; [apply (Hk (inl a) w')|apply (Hk (inr e) w')|done].
Qed.

Lemma answering_db (g : option Z) (f : Z -> st W (list Z) (list Z * bool)) : (forall db, answering (f db)) -> answering (with_db g f).
Proof. intros Hf. destruct g; [apply Hf|apply answering_ret]. Qed.

Lemma dispatch_answering g name json : answering (dispatch_tool f64_text rows g name json).
Proof.
  unfold dispatch_tool, tool_read_file, tool_write_file, tool_sql_query, tool_list_dir, tool_str_replace, missing.
  repeat first [case_match | apply answering_ret | (by intros w) | apply answering_db; intros | apply answering_try; intros].
Qed.

Lemma run_call_spec tc blocks (w : world) :
  let '(r, w') := run_call f64_text rows guard tc blocks w in
  sent w' = sent w /\ match r with Ok bs => exists b, bs = blocks ++ [b] /\ answers tc b | Err _ => False | Panic => True end.
Proof.
  unfold run_call, mbind, st_bind, on_database, st_zoom.
  pose proof (dispatch_answering guard (tc_name tc) (tc_input_json tc) (database w)) as Ha.
  destruct (dispatch_tool _ _ _ _ _ (database w)) as [[[result err]|e|] d]; cbn in Ha |- *; [|done|done].
  unfold st_lift, display. destruct (200 <? zlen result); [destruct (is_char_boundary result 200)|]; cbn; try done;
    (split; [done|]; eexists; split; [done|by exists result, err]).
Qed.

Lemma run_calls_spec calls blocks (w : world) :
  let '(r, w') := st_fold (run_call f64_text rows guard) calls blocks w in
  sent w' = sent w /\ match r with Ok bs => exists l, bs = blocks ++ l /\ Forall2 answers calls l | Err _ => False | Panic => True end.
Proof.
  revert blocks w. induction calls as [|tc calls IH]; intros blocks w; cbn [st_fold].
  - cbn. split; [done|]. exists []. by rewrite app_nil_r.
  - unfold mbind, st_bind at 1. pose proof (run_call_spec tc blocks w) as Hc.
    destruct (run_call _ _ _ tc blocks w) as [[bs|e|] w1]; [|done|done]. destruct Hc as [Hs (b & -> & Hb)].
    specialize (IH (blocks ++ [b]) w1). destruct (st_fold _ calls (blocks ++ [b]) w1) as [r w2]. destruct IH as [Hs' Hr].
    split; [congruence|]. destruct r as [bs|e|]; [|done|done]. destruct Hr as (l & -> & Hl). exists (b :: l).
    rewrite <- app_assoc. split; [done|by constructor].
Qed.

Variable config : ClaudeConfig.
Definition turn_request (msgs : list Message) : ClaudeRequest :=
  mkRequest (mkConfig (api_key config) (target_ip config) (target_port config) (model config) (Api.use_tls config))
    (Some AGENT_SYSTEM) msgs true.

(** The requests of a run from a log and a conversation on, and its result. *)
Inductive run : nat -> list ClaudeRequest -> list Message -> list ClaudeRequest -> out (list Z) (list Z) -> Prop :=
| Run_limit log msgs : run 0 log msgs [] (Ok [])
| Run_panic n log msgs : run (S n) log msgs [turn_request msgs] Panic
| Run_error n log msgs e : reply (log ++ [turn_request msgs]) (turn_request msgs) = Err e ->
    run (S n) log msgs [turn_request msgs] (Err (str "API error: " ++ api_error_text e))
| Run_final n log msgs resp : reply (log ++ [turn_request msgs]) (turn_request msgs) = Ok resp -> resp_tool_calls resp = [] ->
    run (S n) log msgs [turn_request msgs] (Ok (resp_text resp))
| Run_turn n log msgs resp results reqs r :
    reply (log ++ [turn_request msgs]) (turn_request msgs) = Ok resp -> resp_tool_calls resp <> [] ->
    Forall2 answers (resp_tool_calls resp) results ->
    run n (log ++ [turn_request msgs]) (msgs ++ turn_messages (resp_text resp) (resp_tool_calls resp) results) reqs r ->
    run (S n) log msgs (turn_request msgs :: reqs) r.

Lemma turns_loop_run n msgs (w : world) :
  let '(r, w') := turns_loop f64_text rows network guard n config msgs w in
  exists reqs, sent w' = sent w ++ reqs /\ run n (sent w) msgs reqs r.
Proof.
  revert msgs w. induction n as [|n IH]; intros msgs w; cbn [turns_loop].
  - cbn. exists []. rewrite app_nil_r. split; [done|constructor].
  - rewrite clone_id. fold (turn_request msgs). unfold mbind, st_bind at 1, request. fold (reply (sent w ++ [turn_request msgs]) (turn_request msgs)).
    destruct (reply _ _) as [resp|e|] eqn:Hr; [|exists [turn_request msgs]; split; [done|by constructor]..].
    destruct (bool_decide_reflect (resp_tool_calls resp = [])) as [He|He].
    { exists [turn_request msgs]. split; [done|by constructor]. }
    unfold st_bind. set (w1 := mkWorld (database w) (sent w ++ [turn_request msgs])).
    pose proof (run_calls_spec (resp_tool_calls resp) [] w1) as Hc.
    destruct (st_fold _ (resp_tool_calls resp) [] w1) as [[bs|e|] w2]; [|by destruct Hc|].
    + destruct Hc as [Hs (l & -> & Hl)]. cbn [app]. rewrite <- app_assoc. cbn [app].
      fold (turn_messages (resp_text resp) (resp_tool_calls resp) l).
      specialize (IH (msgs ++ turn_messages (resp_text resp) (resp_tool_calls resp) l) w2).
      destruct (turns_loop _ _ _ _ n config _ w2) as [r w3]. destruct IH as (reqs & Hs3 & Hrun).
      exists (turn_request msgs :: reqs). rewrite Hs3, Hs. cbn [w1 sent]. rewrite <- app_assoc. split; [done|].
      rewrite Hs in Hrun. by eapply Run_turn.
    + destruct Hc as [Hs _]. exists [turn_request msgs]. rewrite Hs. split; [done|constructor].
Qed.

(** What the requests of a run have in common. *)
Record good_run (prompt : list Z) (k n : nat) (log : list ClaudeRequest) (reqs : list ClaudeRequest) (r : out (list Z) (list Z)) : Prop := {
  at_most : (length reqs <= n)%nat;
  well_formed : forall i req, reqs !! i = Some req ->
    exists msgs, req = turn_request msgs /\ conversation prompt (k + i) msgs;
  extends : forall i a b, reqs !! i = Some a -> reqs !! S i = Some b ->
    exists resp results, reply (log ++ take (S i) reqs) a = Ok resp /\ Forall2 answers (resp_tool_calls resp) results /\
      messages b = messages a ++ turn_messages (resp_text resp) (resp_tool_calls resp) results;
  ends : match r with
    | Ok t => (exists req resp, last reqs = Some req /\ reply (log ++ reqs) req = Ok resp /\ resp_tool_calls resp = [] /\ t = resp_text resp) \/
              (length reqs = n /\ t = [])
    | Err e => exists req x, last reqs = Some req /\ reply (log ++ reqs) req = Err x /\ e = str "API error: " ++ api_error_text x
    | Panic => True
    end;
}.

Lemma last_cons_ne {A} (x : A) l y : last l = Some y -> last (x :: l) = Some y.
Proof. intros H. by destruct l. Qed.

Lemma run_head n log msgs reqs r b : run n log msgs reqs r -> reqs !! 0%nat = Some b -> b = turn_request msgs.
Proof. intros Hrun Hb. destruct Hrun; cbn in Hb; [done|by injection Hb as <-..]. Qed.

Lemma run_good prompt n k log msgs reqs r : run n log msgs reqs r -> conversation prompt k msgs -> good_run prompt k n log reqs r.
Proof.
  intros Hrun. revert k. induction Hrun as [log msgs|n log msgs|n log msgs e He|n log msgs resp Hr Hc|n log msgs resp results reqs r Hr Hc Ha Hrun IH];
    intros k Hconv.
  2-4: split; [cbn; lia
    |intros [|i] req Hi; [injection Hi as <-; exists msgs; rewrite Nat.add_0_r; done|done]
    |by intros [|i] a b Ha Hb|].
  - split; [cbn; lia|done..|by right].
  - done.
  - by exists (turn_request msgs), e.
  - left. by exists (turn_request msgs), resp.
  - specialize (IH (S k)). destruct IH as [Hlen Hwf Hext Hend]; [by constructor|]. split.
    + cbn. lia.
    + intros [|i] req Hi; [injection Hi as <-; exists msgs; by rewrite Nat.add_0_r|]. destruct (Hwf i req Hi) as (m & -> & Hm).
      exists m. by rewrite Nat.add_succ_r.
    + intros [|i] a b Ha' Hb.
      * injection Ha' as <-. cbn in Hb. exists resp, results. split_and!; [done..|].
        by rewrite (run_head _ _ _ _ _ _ Hrun Hb).
      * destruct (Hext i a b Ha' Hb) as (resp' & results' & Hr' & Ha2 & Hm). exists resp', results'.
        split_and!; [|done..]. cbn [take]. by rewrite <- app_assoc in Hr'.
    + destruct r as [t|e|]; [|destruct Hend as (req & x & Hl & Hx & ->)|done].
      * destruct Hend as [(req & resp' & Hl & Hx & Hc' & ->)|[Hl ->]]; [|right; cbn; split; [lia|done]].
        left. exists req, resp'. rewrite <- app_assoc in Hx. split_and!; [by apply last_cons_ne|done..].
      * exists req, x. rewrite <- app_assoc in Hx. split_and!; [by apply last_cons_ne|done..].
Qed.
End conversation.

(** The configuration a run works with. *)
Definition agent_config (key : list Z) (MODEL : option (list Z)) (base : ClaudeConfig) : ClaudeConfig :=
  mkConfig key (target_ip base) (target_port base) (get_model MODEL) (Api.use_tls base).


(** The display of a long result cuts inside a character. *)
Lemma agent_display_panics : exists s, is_utf8 s = true /\ @display (list Z) s = Panic.
Proof. exists (replicate 199 97 ++ [0xC3; 0xA9]). split; vm_compute; reflexivity. Qed.

(** ** A database that answers the statements; the audit rows are not kept *)
#[export] Instance token_eq_dec : EqDecision token.
Proof. solve_decision. Defined.

Definition literals (ts : list token) : list (list Z) := omap (fun t => match t with Lit s => Some s | Code _ => None end) ts.
Definition sorted_names (p : list Z -> bool) (fs : files) : list (list Z) :=
  merge_sort bytes_le (filter (fun q => p q) (map_to_list fs).*1).
Definition rows_cursor (name : list Z) (rows : list (list Z)) : Sqlite.cursor :=
  Sqlite.mkCursor [name] ((fun r => [Sqlite.CText r]) <$> rows) false [] false.

Module Small.

Definition compile (sql : list Z) (fs : files) : option Sqlite.cursor :=
  ts ← lex None sql;
  match literals ts with
  | [p] =>
      if bool_decide (ts = tokens_of (read_form p) []) then Some (rows_cursor (str "content") (option_list (fs !! p)))
      else if bool_decide (ts = tokens_of (list_form p) (str " ORDER BY path"))
      then Some (rows_cursor (str "path") (sorted_names (fun q => bool_decide (bytes_of_chars (length p) q = p)) fs))
      else None
  | _ => None
  end.
Definition execute (sql : list Z) (fs : files) : option files :=
  ts ← lex None sql;
  match literals ts with
  | [p; k; c; _; _] => if bool_decide (ts = tokens_of (insert_form p k c) (str "))")) then Some (<[p := c]> fs) else None
  | [c; _; _; p] => if bool_decide (ts = tokens_of (update_form p c) []) then Some (alter (fun _ => c) p fs) else None
  | [agent; action; target] => if bool_decide (ts = tokens_of (audit_form agent action target) (str ")")) then Some fs else None
  | _ => None
  end.

#[local] Instance small : Sqlite.Engine (Sqlite.state (D := files)) := Sqlite.engine compile execute.
#[local] Instance small_spec : @Sqlite.EngineSpec Sqlite.state files small := Sqlite.engine_spec compile execute.

Lemma literals_app a b : literals (a ++ b) = literals a ++ literals b.
Proof. apply omap_app. Qed.

Lemma literals_code l : literals (Code <$> l) = [].
Proof. by induction l. Qed.

Lemma literals_tokens ps final : literals (tokens_of ps final) = snd <$> ps.
Proof.
  induction ps as [|[code s] ps IH]; [apply literals_code|]. cbn [tokens_of].
  rewrite literals_app, literals_code. change (Lit s :: tokens_of ps final) with ([Lit s] ++ tokens_of ps final).
  by rewrite literals_app, IH.
Qed.

Lemma compile_prepare db sql w c : compile sql (Sqlite.stored w) = Some c -> Sqlite.sound c = true ->
  let '((rc, stmt), w') := Sqlite.sqlite3_prepare_v2 db sql w in
  rc = Sqlite.SQLITE_OK /\ stmt <> 0 /\ Sqlite.stmts w' !! stmt = Some c.
Proof.
  intros Hc Hs. cbn. unfold Sqlite.prepare_small. rewrite Hc, Hs. destruct (Sqlite.next_id_fresh (Sqlite.scans w)).
  split_and!; [done|lia|]. rewrite Sqlite.live_insert by done. by rewrite lookup_insert_eq.
Qed.

Lemma compile_read sql p fs : lex None sql = Some (tokens_of (read_form p) []) ->
  compile sql fs = Some (rows_cursor (str "content") (option_list (fs !! p))).
Proof.
  intros Hl. unfold compile. rewrite Hl. cbn [mbind option_bind]. rewrite literals_tokens. cbn [fmap list_fmap read_form snd].
  by rewrite bool_decide_eq_true_2.
Qed.

Lemma compile_list sql p fs : lex None sql = Some (tokens_of (list_form p) (str " ORDER BY path")) ->
  compile sql fs = Some (rows_cursor (str "path") (sorted_names (fun q => bool_decide (bytes_of_chars (length p) q = p)) fs)).
Proof.
  intros Hl. unfold compile. rewrite Hl. cbn [mbind option_bind]. rewrite literals_tokens. cbn [fmap list_fmap list_form snd].
  rewrite bool_decide_eq_false_2 by done. by rewrite bool_decide_eq_true_2.
Qed.

Lemma rows_cursor_sound name rows : has_nul name = false -> Sqlite.sound (rows_cursor name rows) = true.
Proof.
  intros Hn. unfold Sqlite.sound. apply andb_true_iff. split; [apply andb_true_iff; split|done].
  - apply forallb_forall. by intros r [x [-> _]]%list_elem_of_In%list_elem_of_fmap.
  - cbn. rewrite bool_decide_eq_true_2; [done|]. rewrite <- (app_nil_r name) at 1. rewrite c_text_app by done. cbn. by rewrite app_nil_r.
Qed.

Lemma bytes_le_order : Total bytes_le /\ Transitive bytes_le.
Proof.
  split.
  - intros a. induction a as [|x a IH]; intros [|y b]; cbn; [by left..|by right|]. destruct (IH b) as [H|H].
    + destruct (Z.lt_trichotomy x y) as [?|[->|?]]; [left; by rewrite (proj2 (Z.ltb_lt _ _))|left; rewrite Z.eqb_refl; by destruct (_ <? _)|
        right; by rewrite (proj2 (Z.ltb_lt _ _))].
    + destruct (Z.lt_trichotomy x y) as [?|[->|?]]; [left; by rewrite (proj2 (Z.ltb_lt _ _))|right; rewrite Z.eqb_refl; by destruct (_ <? _)|
        right; by rewrite (proj2 (Z.ltb_lt _ _))].
  - intros a. induction a as [|x a IH]; intros [|y b] [|z c]; cbn; try done. rewrite !Is_true_true, !orb_true_iff, !andb_true_iff.
    intros [?%Z.ltb_lt|[->%Z.eqb_eq H1]] [?%Z.ltb_lt|[->%Z.eqb_eq H2]]; [left; apply Z.ltb_lt; lia..|]. right. split; [apply Z.eqb_refl|].
    apply Is_true_true. apply (IH b c); by apply Is_true_true.
Qed.

Lemma sorted_names_listed p (P : list Z -> Prop) fs : (forall q, p q = true <-> P q) -> listed fs P (sorted_names p fs).
Proof.
  intros Hp. destruct bytes_le_order as [Htot Htr]. unfold listed, sorted_names.
  pose proof (merge_sort_Permutation bytes_le (filter (fun q => p q) (map_to_list fs).*1)) as Hperm. split_and!.
  - rewrite Hperm. apply NoDup_filter, NoDup_fst_map_to_list.
  - by apply Sorted_merge_sort.
  - intros q. rewrite Hperm, list_elem_of_filter, Is_true_true, Hp. rewrite list_elem_of_fmap. rewrite elem_of_dom. split.
    + intros [Hq [[k c] [-> Hin]]]. split; [|done]. exists c. by apply elem_of_map_to_list.
    + intros [[c Hc] Hq]. split; [done|]. exists (q, c). split; [done|]. by apply elem_of_map_to_list.
Qed.

#[local, refine] Instance small_namespace : Namespace Sqlite.state := { may_fail := false }.
Proof.
  - intros db sql path w Hl. pose proof (compile_prepare db sql w _ (compile_read sql path _ Hl)) as Hp.
    destruct (Sqlite.sqlite3_prepare_v2 db sql w) as [[rc stmt] w1].
    destruct Hp as (-> & Hst & Hc); [by apply rows_cursor_sound|]. split; [done|]. intros _. split; [done|].
    eexists. split; [exact Hc|]. split_and!; [done| |done]. unfold content_rows. cbn [Sqlite.rest rows_cursor]. change Sqlite.data with (@Sqlite.stored files).
    by destruct (Sqlite.stored w !! path).
  - intros db sql prefix w Hl. pose proof (compile_prepare db sql w _ (compile_list sql prefix _ Hl)) as Hp.
    destruct (Sqlite.sqlite3_prepare_v2 db sql w) as [[rc stmt] w1].
    destruct Hp as (-> & Hst & Hc); [by apply rows_cursor_sound|]. split; [done|]. intros _. split; [done|].
    eexists _, _. split; [exact Hc|]. split_and!; [done|reflexivity| |done]. apply sorted_names_listed. intros q. apply bool_decide_eq_true.
  - intros db sql path kind content w Hl. cbn. unfold Sqlite.exec_small, execute. rewrite Hl. cbn [mbind option_bind].
    rewrite literals_tokens. cbn [fmap list_fmap insert_form snd]. by rewrite bool_decide_eq_true_2.
  - intros db sql path content w Hl. cbn. unfold Sqlite.exec_small, execute. rewrite Hl. cbn [mbind option_bind].
    rewrite literals_tokens. cbn [fmap list_fmap update_form snd]. by rewrite bool_decide_eq_true_2.
  - intros db sql w Hl. cbn. unfold Sqlite.prepare_small, compile. by rewrite Hl.
  - intros db sql w Hl. cbn. unfold Sqlite.exec_small, execute. by rewrite Hl.
  - done.
Defined.

Definition start : Sqlite.state (D := files) := Sqlite.mkState {[ str "/etc/motd" := str "hello 'world', hello" ]} ∅ [].
Definition replace_json : list Z := jstr "{'path':'/etc/motd','old_str':'hello','new_str':'bye'}".


(** A service that asks for one replacement and then says it is done. *)
Import ApiClient.
Definition tool_turn : list (list Z * tree) := [
  ev "message_start" [];
  ev "content_block_start" [(str "content_block",
    TObj [(str "type", TStr (str "tool_use")); (str "id", TStr (str "t1")); (str "name", TStr (str "str_replace"))])];
  (str "content_block_delta", TObj [(str "type", TStr (str "content_block_delta"));
    (str "delta", TObj [(str "type", TStr (str "input_json_delta")); (str "partial_json", TStr replace_json)])]);
  ev "content_block_stop" [];
  ev "message_stop" []].
Definition final_turn : list (list Z * tree) := [
  ev "message_start" [];
  ev "content_block_start" [(str "content_block", TObj [(str "type", TStr (str "text"))])];
  ev "content_block_delta" (delta_of "text_delta" "text" "Done.");
  ev "content_block_stop" [];
  ev "message_stop" []].
Definition answer_to (events : list (list Z * tree)) : session :=
  let body := stream (prod_map id print <$> events) in
  let head := Http.mkResponse 200 (str "OK") [(str "Content-Type", str "text/event-stream")] body in
  mkSession true true true [Some 20000] true [Some (Http.render head); Some []].
Definition service (log : list ClaudeRequest) (attempt : nat) : session :=
  if (length log =? 1)%nat then answer_to tool_turn else answer_to final_turn.

Definition agent_start : world := mkWorld start [].
Definition agent_result : out (list Z) (list Z) * world :=
  run_agent_loop (fun _ => []) 3 service (Some 1) (Some (str "key")) None true [] (Dns.mkSession 0 true true []) Dns.DNS_CACHE
    (str "please edit") false agent_start.


End Small.
End AgentSpec.
