(* ===== verification/Shm.v ===== *)
(** * Shared memory of the write-ahead log ([vfs/sqlite_vfs.rs])

    The lock slots with [shm_lock], and the mapped regions with [shm_map] and
    [shm_unmap] over the kernel heap. *)
From S2P Require Import Prelude.
From S2P Require Import Bytes.
From S2P Require Import Phys.
From S2P Require Import Mem.
From S2P Require Import Heap.

Module Shm.

Definition SQLITE_OK : Z := 0.
Definition SQLITE_ERROR : Z := 1.
Definition SQLITE_BUSY : Z := 5.
Definition SQLITE_IOERR_NOMEM : Z := 3082.
Definition SQLITE_SHM_NLOCK : nat := 8.
Definition SQLITE_SHM_UNLOCK : Z := 1.
Definition SQLITE_SHM_LOCK : Z := 2.
Definition SQLITE_SHM_SHARED : Z := 4.
Definition SQLITE_SHM_EXCLUSIVE : Z := 8.

(** ** Lock slots *)
Record ShmLockState := mkLock { shared_count : Z; exclusive : bool }.
Definition default_lock : ShmLockState := mkLock 0 false.
#[export] Instance lock_inhabited : Inhabited ShmLockState := populate default_lock.

Definition try_shared (l : ShmLockState) : bool * ShmLockState :=
  if exclusive l then (false, l) else (true, mkLock (wrap32 (shared_count l + 1)) (exclusive l)).
Definition try_exclusive (l : ShmLockState) : bool * ShmLockState :=
  if exclusive l || (0 <? shared_count l) then (false, l) else (true, mkLock (shared_count l) true).
Definition release_shared (l : ShmLockState) : ShmLockState := mkLock (wrap32 (shared_count l - 1)) (exclusive l).
Definition release_exclusive (l : ShmLockState) : ShmLockState := mkLock (shared_count l) false.

Definition try_lock (is_exclusive : bool) : ShmLockState -> bool * ShmLockState :=
  if is_exclusive then try_exclusive else try_shared.
Definition release (is_exclusive : bool) : ShmLockState -> ShmLockState :=
  if is_exclusive then release_exclusive else release_shared.

(** [for j in offset..i { state.locks[j].release() }]. *)
Definition rollback (is_exclusive : bool) (offset i : nat) (locks : list ShmLockState) : list ShmLockState :=
  foldl (fun locks j => alter (release is_exclusive) j locks) locks (seq offset (i - offset)).

(** [for i in offset..offset + n], from [i] on. *)
Fixpoint lock_loop (is_lock is_exclusive : bool) (offset i n : nat) (locks : list ShmLockState) : Z * list ShmLockState :=
  match n with
  | O => (SQLITE_OK, locks)
  | S n =>
      if (SQLITE_SHM_NLOCK <=? i)%nat then (SQLITE_ERROR, locks)
      else if is_lock then
        let '(ok, l) := try_lock is_exclusive (locks !!! i) in
        if ok then lock_loop is_lock is_exclusive offset (S i) n (<[i := l]> locks)
        else (SQLITE_BUSY, rollback is_exclusive offset i locks)
      else lock_loop is_lock is_exclusive offset (S i) n (alter (release is_exclusive) i locks)
  end.

(** ** The shared state *)
Record ShmState := mkShm { regions : list (Z * Z); locks : list ShmLockState }.
Definition new_shm : ShmState := mkShm [] (replicate SQLITE_SHM_NLOCK default_lock).

(** The static [SHM] and the heap its regions live in. *)
Record world := mkWorld { shm : option ShmState; heap : Heap.heap }.

Definition shm_lock (offset n : nat) (flags : Z) (w : world) : Z * world :=
  match shm w with
  | None => (SQLITE_ERROR, w)
  | Some s =>
      let is_lock := negb (Z.land flags SQLITE_SHM_LOCK =? 0) in
      let is_exclusive := negb (Z.land flags SQLITE_SHM_EXCLUSIVE =? 0) in
      let '(rc, ls) := lock_loop is_lock is_exclusive offset offset n (locks s) in
      (rc, mkWorld (Some (mkShm (regions s) ls)) (heap w))
  end.

Section memory.
Variable hhdm : Z.

(** [GlobalAlloc::alloc_zeroed], the provided method. *)
Definition alloc_zeroed (size align : Z) : st Heap.heap Empty_set Z :=
  ptr ← Heap.alloc hhdm size align;
  if ptr =? 0 then mret ptr
  else
    s ← st_get;
    _ ← st_put (Heap.mkHeap (Mem.store (Heap.memory s) ptr (replicate (Z.to_nat size) 0)) (Heap.inner s) (Heap.pages s));
    mret ptr.

(** [Layout::from_size_align(size, 4096)]. *)
Definition page_layout_ok (size : Z) : bool := size <=? 2 ^ 63 - 4096.

Definition on_heap {A} (m : st Heap.heap Empty_set A) : st world Z A := fun w =>
  let '(r, h) := m (heap w) in
  (match r with Ok a => Ok a | Err e => match e with end | Panic => Panic end, mkWorld (shm w) h).
Definition set_shm (s : option ShmState) : st world Z unit := fun w => (Ok tt, mkWorld s (heap w)).

(** [while state.regions.len() <= region]: [n] turns are left. *)
Fixpoint extend (n : nat) (region_size : Z) (s : ShmState) : st world Z ShmState :=
  match n with
  | O => mret s
  | S n =>
      if negb (page_layout_ok region_size) then st_err SQLITE_IOERR_NOMEM
      else
        ptr ← on_heap (alloc_zeroed region_size 4096);
        if ptr =? 0 then st_err SQLITE_IOERR_NOMEM
        else
          let s := mkShm (regions s ++ [(ptr, region_size)]) (locks s) in
          _ ← set_shm (Some s);
          extend n region_size s
  end.

Definition shm_map (region : nat) (region_size : Z) : st world Z Z :=
  w ← st_get;
  let s := default new_shm (shm w) in
  _ ← set_shm (Some s);
  s ← extend (S region - length (regions s)) region_size s;
  match regions s !! region with
  | Some (ptr, _) => mret ptr
  | None => st_panic
  end.

Definition shm_unmap (delete : bool) : st world Z Z :=
  if delete then
    w ← st_get;
    match shm w with
    | Some s =>
        _ ← set_shm None;
        _ ← st_for (fun r => if page_layout_ok (snd r) then on_heap (Heap.dealloc hhdm (fst r)) else st_panic) (regions s);
        mret SQLITE_OK
    | None => mret SQLITE_OK
    end
  else mret SQLITE_OK.
End memory.

(** ** The slots one at a time *)
Lemma rollback_lookup x offset i ls k :
  rollback x offset i ls !! k = (if decide (offset <= k < i)%nat then release x <$> ls !! k else ls !! k).
Proof.
  unfold rollback. destruct (le_lt_dec i offset) as [Hle|Hlt].
  { replace (i - offset)%nat with 0%nat by lia. cbn. by rewrite decide_False by lia. }
  remember (i - offset)%nat as n eqn:Hn. revert i Hlt Hn ls. 
  induction n as [|n IH] using nat_ind; [intros; lia|]. intros i Hlt Hn ls.
  destruct n as [|n].
  - cbn. destruct (decide (offset = k)) as [->|Hk].
    + rewrite list_lookup_alter_eq, decide_True by lia. done.
    + rewrite list_lookup_alter_ne, decide_False by lia. done.
  - rewrite seq_S, foldl_app. cbn [foldl]. destruct (decide (offset + S n = k)%nat) as [<-|Hk].
    + rewrite list_lookup_alter_eq, (IH (i - 1)%nat), decide_False, decide_True by lia. done.
    + rewrite list_lookup_alter_ne by done. rewrite (IH (i - 1)%nat) by lia.
      destruct (decide (offset <= k < i)%nat); [rewrite decide_True by lia|rewrite decide_False by lia]; done.
Qed.

Definition in_range (offset n k : nat) : bool := bool_decide (offset <= k < offset + n)%nat.

(** Acquiring every slot of a range. *)
Lemma acquire_all x offset n : forall i ls ls', (i + n <= SQLITE_SHM_NLOCK)%nat -> length ls = SQLITE_SHM_NLOCK -> length ls' = SQLITE_SHM_NLOCK ->
  (forall k l, (i <= k < i + n)%nat -> ls !! k = Some l -> exists l', ls' !! k = Some l' /\ try_lock x l = (true, l')) ->
  (forall k, ~ (i <= k < i + n)%nat -> ls' !! k = ls !! k) ->
  lock_loop true x offset i n ls = (SQLITE_OK, ls').
Proof.
  induction n as [|n IH]; intros i ls ls' Hn Hl Hl' Hin Hout; cbn [lock_loop].
  - f_equal. apply list_eq. intros k. symmetry. apply Hout. lia.
  - rewrite (proj2 (Nat.leb_gt _ _)) by lia. destruct (lookup_lt_is_Some_2 ls i) as [l Hli]; [lia|].
    destruct (Hin i l ltac:(lia) Hli) as (l' & Hl'i & Ht). rewrite (list_lookup_total_correct _ _ _ Hli), Ht.
    apply IH; [lia|by rewrite length_insert|done| |].
    + intros k lk Hk Hlk. rewrite list_lookup_insert_ne in Hlk by lia. by apply Hin; [lia|].
    + intros k Hk. destruct (decide (k = i)) as [->|Hne]; [rewrite list_lookup_insert_eq by lia; done|].
      rewrite list_lookup_insert_ne by done. apply Hout. lia.
Qed.

(** A slot of the range refuses: the slots taken before it are given back. *)
Lemma acquire_busy x offset n : forall i ls ls0 b, (offset <= i)%nat -> (i <= b < i + n)%nat -> (i + n <= SQLITE_SHM_NLOCK)%nat ->
  length ls = SQLITE_SHM_NLOCK -> length ls0 = SQLITE_SHM_NLOCK ->
  (forall l, ls0 !! b = Some l -> fst (try_lock x l) = false) ->
  (forall k l, ls0 !! k = Some l -> fst (try_lock x l) = true -> release x (snd (try_lock x l)) = l) ->
  (forall k l, ls0 !! k = Some l -> fst (try_lock x l) = false -> snd (try_lock x l) = l) ->
  (forall k, (i <= k)%nat \/ (k < offset)%nat -> ls !! k = ls0 !! k) ->
  (forall k, (offset <= k < i)%nat -> release x <$> ls !! k = ls0 !! k) ->
  lock_loop true x offset i n ls = (SQLITE_BUSY, ls0).
Proof.
  induction n as [|n IH]; intros i ls ls0 b Hoi Hb Hn Hl Hl0 Hbusy Hrel Hfail Hout Hin; [lia|]. cbn [lock_loop].
  rewrite (proj2 (Nat.leb_gt _ _)) by lia. destruct (lookup_lt_is_Some_2 ls0 i) as [l Hli]; [lia|].
  assert (ls !! i = Some l) as Hlsi by (rewrite Hout by lia; done). rewrite (list_lookup_total_correct _ _ _ Hlsi).
  destruct (try_lock x l) as [ok l'] eqn:Ht. destruct ok.
  - apply (IH (S i) _ ls0 b); try done; try lia.
    + destruct (decide (b = i)) as [->|]; [|lia]. specialize (Hbusy l Hli). by rewrite Ht in Hbusy.
    + by rewrite length_insert.
    + intros k Hk. rewrite list_lookup_insert_ne by lia. apply Hout. lia.
    + intros k Hk. destruct (decide (k = i)) as [->|Hne].
      * rewrite list_lookup_insert_eq by lia. cbn. rewrite Hli. f_equal. specialize (Hrel i l Hli). rewrite Ht in Hrel. by apply Hrel.
      * rewrite list_lookup_insert_ne by done. apply Hin. lia.
  - f_equal. apply list_eq. intros k. rewrite rollback_lookup. case_decide as Hk; [by apply Hin|apply Hout; lia].
Qed.

Lemma release_all x offset n : forall i ls ls', (i + n <= SQLITE_SHM_NLOCK)%nat ->
  (forall k, ls' !! k = if in_range i n k then release x <$> ls !! k else ls !! k) ->
  lock_loop false x offset i n ls = (SQLITE_OK, ls').
Proof.
  induction n as [|n IH]; intros i ls ls' Hn Hls; cbn [lock_loop].
  - f_equal. apply list_eq. intros k. rewrite Hls. unfold in_range. by rewrite bool_decide_eq_false_2 by lia.
  - rewrite (proj2 (Nat.leb_gt _ _)) by lia. apply IH; [lia|]. intros k. rewrite Hls. unfold in_range.
    destruct (decide (k = i)) as [->|Hne].
    + rewrite bool_decide_eq_true_2, bool_decide_eq_false_2 by lia. by rewrite list_lookup_alter_eq.
    + rewrite list_lookup_alter_ne by done. destruct (decide (S i <= k < S i + n)%nat).
      * by rewrite !bool_decide_eq_true_2 by lia.
      * by rewrite !bool_decide_eq_false_2 by lia.
Qed.

(** ** Who holds what

    A grant is a client and whether it is exclusive. *)
Abbreviation grants := (gset (nat * bool)).

Definition free (x : bool) (h : grants) : bool :=
  if x then bool_decide (h = ∅) else bool_decide (set_Forall (fun p => snd p = false) h).

Record slot_ok (N : nat) (l : ShmLockState) (h : grants) : Prop := {
  clients : forall p, p ∈ h -> (fst p < N)%nat;
  counted : if exclusive l then shared_count l = 0 /\ exists c, h = {[(c, true)]}
            else shared_count l = Z.of_nat (size h) /\ forall p, p ∈ h -> snd p = false;
}.

Lemma grants_size (N : nat) (h : grants) : (forall p, p ∈ h -> (fst p < N)%nat) -> (forall p, p ∈ h -> snd p = false) -> (size h <= N)%nat.
Proof.
  intros Hc Hs. set (all := (fun c => (c, false)) <$> seq 0 N).
  assert (h ⊆ list_to_set all) as Hsub.
  { intros [c b] Hp. pose proof (Hs _ Hp) as Hb. cbn in Hb. subst b. apply elem_of_list_to_set, list_elem_of_fmap.
    exists c. split; [done|]. apply elem_of_seq. pose proof (Hc _ Hp). cbn in *. lia. }
  apply subseteq_size in Hsub. rewrite size_list_to_set in Hsub.
  - unfold all in Hsub. by rewrite length_fmap, length_seq in Hsub.
  - apply NoDup_fmap_2; [by intros ?? [= ->]|apply NoDup_seq].
Qed.

Lemma slot_try (N c : nat) (x : bool) (l : ShmLockState) (h : grants) : Z.of_nat N < 2 ^ 32 -> slot_ok N l h -> (c < N)%nat -> (x = false -> (c, false) ∉ h) ->
  if free x h then exists l', try_lock x l = (true, l') /\ slot_ok N l' ({[(c, x)]} ∪ h) /\ release x l' = l
  else try_lock x l = (false, l).
Proof.
  intros HN [Hcl Hcnt] Hc Hx. destruct l as [cnt ex]. cbn [exclusive shared_count] in Hcnt. unfold free. destruct x.
  - unfold try_lock, try_exclusive. cbn [exclusive shared_count]. case_bool_decide as Hh.
    + subst h. destruct ex; [destruct Hcnt as [_ [c' Hc']]; set_solver|]. destruct Hcnt as [-> _]. cbn.
      eexists. split; [done|]. split; [|done]. split; [set_solver|]. cbn. split; [done|]. exists c. by rewrite union_empty_r_L.
    + destruct ex; [done|]. destruct Hcnt as [-> Hs]. cbn [orb]. rewrite (proj2 (Z.ltb_lt 0 _)); [done|].
      assert (size h <> 0%nat) by (intros H0%size_empty_inv; apply Hh; by apply leibniz_equiv). lia.
  - specialize (Hx eq_refl). unfold try_lock, try_shared. cbn [exclusive shared_count]. case_bool_decide as Hh.
    + destruct ex; [destruct Hcnt as [_ [c' Hc']]; exfalso; rewrite Hc' in Hh; by specialize (Hh (c', true) ltac:(set_solver))|].
      destruct Hcnt as [-> Hs].
      assert (size ({[(c, false)]} ∪ h) = S (size h)) as Hsz by (rewrite size_union by set_solver; by rewrite size_singleton).
      assert (size ({[(c, false)]} ∪ h) <= N)%nat as Hle by (apply grants_size; set_solver).
      eexists. split; [done|]. split.
      * split; [set_solver|]. cbn. split; [rewrite wrap32_small by lia; lia|set_solver].
      * unfold release, release_shared. cbn. f_equal. rewrite (wrap32_small (_ + 1)) by lia. rewrite wrap32_small; lia.
    + destruct ex; [done|]. destruct Hcnt as [_ Hs]. by destruct Hh.
Qed.

Lemma slot_release (N c : nat) (x : bool) (l : ShmLockState) (h : grants) : Z.of_nat N < 2 ^ 32 -> slot_ok N l h -> (c, x) ∈ h -> slot_ok N (release x l) (h ∖ {[(c, x)]}).
Proof.
  intros HN [Hcl Hcnt] Hin. destruct l as [cnt ex]. cbn [exclusive shared_count] in Hcnt. destruct ex.
  - destruct Hcnt as [-> [c' ->]]. apply elem_of_singleton in Hin. injection Hin as -> ->. split; [set_solver|]. cbn.
    rewrite difference_diag_L. split; [done|set_solver].
  - destruct Hcnt as [-> Hs]. pose proof (Hs _ Hin) as Hx. cbn in Hx. subst x.
    assert (size h <= N)%nat as Hle by (by apply grants_size).
    assert (size (h ∖ {[(c, false)]}) = size h - 1)%nat as Hsz by (rewrite size_difference by set_solver; by rewrite size_singleton).
    assert (size h <> 0%nat) as Hne by (intros H0%size_empty_inv; set_solver).
    split; [set_solver|]. cbn. rewrite Hsz. split; [rewrite wrap32_small by lia; lia|set_solver].
Qed.


(** ** Clients and locks together *)
Record sys := mkSys { memory : world; held : nat -> grants }.

Definition lock_flags (lock x : bool) : Z :=
  Z.lor (if lock then SQLITE_SHM_LOCK else SQLITE_SHM_UNLOCK) (if x then SQLITE_SHM_EXCLUSIVE else SQLITE_SHM_SHARED).

Definition locks_ok (N : nat) (ls : list ShmLockState) (held : nat -> grants) : Prop :=
  length ls = SQLITE_SHM_NLOCK /\ (forall k l, ls !! k = Some l -> slot_ok N l (held k)) /\
  (forall k, (SQLITE_SHM_NLOCK <= k)%nat -> held k = ∅).
Definition shm_ok (N : nat) (s : sys) : Prop :=
  match shm (memory s) with
  | Some m => locks_ok N (locks m) (held s)
  | None => forall k, held s k = ∅
  end.

(** The grants after client [c] got, or gave back, a range. *)
Definition granted (c offset n : nat) (x : bool) (h : nat -> grants) : nat -> grants :=
  fun k => if in_range offset n k then {[(c, x)]} ∪ h k else h k.
Definition returned (c offset n : nat) (x : bool) (h : nat -> grants) : nat -> grants :=
  fun k => if in_range offset n k then h k ∖ {[(c, x)]} else h k.
(** No grant in the range stands in the way. *)
Definition available (offset n : nat) (x : bool) (h : nat -> grants) : bool :=
  forallb (fun k => free x (h k)) (seq offset n).

Lemma shm_lock_flags lock x offset n w m : shm w = Some m ->
  shm_lock offset n (lock_flags lock x) w =
  (let '(rc, ls) := lock_loop lock x offset offset n (locks m) in (rc, mkWorld (Some (mkShm (regions m) ls)) (heap w))).
Proof. intros Hm. unfold shm_lock. rewrite Hm. by destruct lock, x. Qed.

Lemma shm_lock_spec (N c : nat) (x : bool) offset n ls h :
  Z.of_nat N < 2 ^ 32 -> locks_ok N ls h -> (c < N)%nat -> (offset + n <= SQLITE_SHM_NLOCK)%nat ->
  (x = false -> forall k, (offset <= k < offset + n)%nat -> (c, false) ∉ h k) ->
  if available offset n x h
  then exists ls', lock_loop true x offset offset n ls = (SQLITE_OK, ls') /\ locks_ok N ls' (granted c offset n x h)
  else lock_loop true x offset offset n ls = (SQLITE_BUSY, ls).
Proof.
  intros HN (Hlen & Hok & Hfar) Hc Hn Hx.
  assert (forall k l, (offset <= k < offset + n)%nat -> ls !! k = Some l ->
    if free x (h k) then exists l', try_lock x l = (true, l') /\ slot_ok N l' ({[(c, x)]} ∪ h k) /\ release x l' = l
    else try_lock x l = (false, l)) as Htry.
  { intros k l Hk Hl. apply slot_try; [done|by apply Hok|done|]. intros ->. by apply Hx. }
  unfold available. destruct (forallb _ _) eqn:Hav.
  - rewrite forallb_forall in Hav.
    set (ls' := imap (fun k l => if in_range offset n k then snd (try_lock x l) else l) ls).
    assert (forall k, ls' !! k = (fun l => if in_range offset n k then snd (try_lock x l) else l) <$> ls !! k) as Hls'
      by (intros k; unfold ls'; by rewrite list_lookup_imap).
    exists ls'. split.
    + apply acquire_all; [done|done|unfold ls'; by rewrite length_imap| |].
      * intros k l Hk Hl. specialize (Htry k l Hk Hl). rewrite Hav in Htry by (apply in_seq; lia).
        destruct Htry as (l' & Ht & _). exists l'. rewrite Hls', Hl. cbn. unfold in_range.
        rewrite bool_decide_eq_true_2, Ht by done. done.
      * intros k Hk. rewrite Hls'. unfold in_range. rewrite bool_decide_eq_false_2 by lia. by destruct (ls !! k).
    + split; [unfold ls'; by rewrite length_imap|]. split.
      * intros k l'. rewrite Hls'. destruct (ls !! k) as [l|] eqn:Hl; [|done]. cbn. unfold granted, in_range.
        case_bool_decide as Hk; [|intros [= <-]; by apply Hok]. specialize (Htry k l Hk Hl).
        rewrite Hav in Htry by (apply in_seq; lia). destruct Htry as (l2 & Ht & Hs & _). rewrite Ht. by intros [= <-].
      * intros k Hk. unfold granted, in_range. rewrite bool_decide_eq_false_2 by lia. by apply Hfar.
  - apply not_true_iff_false in Hav. rewrite forallb_forall in Hav.
    destruct (decide (Exists (fun k => free x (h k) = false) (seq offset n))) as [He|He].
    2: { exfalso. apply Hav. intros k Hk%list_elem_of_In. destruct (free x (h k)) eqn:Hf; [done|].
         destruct He. apply Exists_exists. by exists k. }
    apply Exists_exists in He as (b & Hb%elem_of_seq & Hfb).
    assert (forall k l, ls !! k = Some l -> (x = false -> fst (try_lock x l) = true -> 0 <= shared_count l < 2 ^ 32)) as Hu32.
    { intros k l Hl -> Ht. destruct (Hok k l Hl) as [Hcl Hcnt]. destruct l as [cnt ex]. cbn in *. destruct ex; [done|].
      destruct Hcnt as [-> Hs]. pose proof (grants_size N (h k) Hcl Hs). lia. }
    apply (acquire_busy x offset n offset ls ls b); try done; try lia.
    + intros l Hl. specialize (Htry b l Hb Hl). rewrite Hfb in Htry. by rewrite Htry.
    + intros k [cnt ex] Hl Ht. specialize (Hu32 k _ Hl). destruct x.
      * unfold try_lock, try_exclusive in *. cbn in *. by destruct ex, (0 <? cnt).
      * specialize (Hu32 eq_refl Ht). unfold try_lock, try_shared in *. cbn in *. destruct ex; [done|]. unfold release, release_shared. cbn.
        f_equal. unfold wrap32. rewrite Zminus_mod_idemp_l, Z.add_simpl_r. by apply Z.mod_small.
    + intros k [cnt ex] Hl Ht. destruct x; unfold try_lock, try_exclusive, try_shared in *; cbn in *; by destruct ex, (0 <? cnt).
Qed.

Lemma shm_unlock_spec (N c : nat) (x : bool) offset n ls h :
  Z.of_nat N < 2 ^ 32 -> locks_ok N ls h -> (offset + n <= SQLITE_SHM_NLOCK)%nat ->
  (forall k, (offset <= k < offset + n)%nat -> (c, x) ∈ h k) ->
  exists ls', lock_loop false x offset offset n ls = (SQLITE_OK, ls') /\ locks_ok N ls' (returned c offset n x h).
Proof.
  intros HN (Hlen & Hok & Hfar) Hn Hh.
  set (ls' := imap (fun k l => if in_range offset n k then release x l else l) ls).
  assert (forall k, ls' !! k = (fun l => if in_range offset n k then release x l else l) <$> ls !! k) as Hls'
    by (intros k; unfold ls'; by rewrite list_lookup_imap).
  exists ls'. split.
  - apply release_all; [done|]. intros k. rewrite Hls'. destruct (in_range offset n k); [done|by destruct (ls !! k)].
  - split; [unfold ls'; by rewrite length_imap|]. split.
    + intros k l'. rewrite Hls'. destruct (ls !! k) as [l|] eqn:Hl; [|done]. cbn. unfold returned, in_range.
      case_bool_decide as Hk; [|intros [= <-]; by apply Hok]. intros [= <-]. apply slot_release; [done|by apply Hok|by apply Hh].
    + intros k Hk. unfold returned, in_range. rewrite bool_decide_eq_false_2 by lia. by apply Hfar.
Qed.

Section clients.
Variable hhdm : Z.
Variable N : nat.

(** Clients lock only what they do not share already and unlock what they
    hold, and the memory is dropped when nothing is held. *)
Inductive step : sys -> sys -> Prop :=
| Step_lock s c offset n x rc w' :
    (c < N)%nat -> (offset + n <= SQLITE_SHM_NLOCK)%nat ->
    (x = false -> forall k, (offset <= k < offset + n)%nat -> (c, false) ∉ held s k) ->
    shm_lock offset n (lock_flags true x) (memory s) = (rc, w') ->
    step s (mkSys w' (if rc =? SQLITE_OK then granted c offset n x (held s) else held s))
| Step_unlock s c offset n x rc w' :
    (offset + n <= SQLITE_SHM_NLOCK)%nat -> (forall k, (offset <= k < offset + n)%nat -> (c, x) ∈ held s k) ->
    shm_lock offset n (lock_flags false x) (memory s) = (rc, w') ->
    step s (mkSys w' (returned c offset n x (held s)))
| Step_map s region size r w' : shm_map hhdm region size (memory s) = (r, w') -> step s (mkSys w' (held s))
| Step_unmap s delete r w' : (delete = true -> forall k, held s k = ∅) ->
    shm_unmap hhdm delete (memory s) = (r, w') -> step s (mkSys w' (held s)).

Inductive reachable : sys -> Prop :=
| Start h : reachable (mkSys (mkWorld None h) (fun _ => ∅))
| Next s s' : reachable s -> step s s' -> reachable s'.

Lemma extend_locks n size s w : shm w = Some s ->
  let '(_, w') := extend hhdm n size s w in exists s', shm w' = Some s' /\ locks s' = locks s.
Proof.
  revert s w. induction n as [|n IH]; intros s w Hs; cbn [extend]; [by exists s|].
  destruct (negb (page_layout_ok size)); [by exists s|]. unfold mbind, st_bind at 1, on_heap.
  destruct (alloc_zeroed hhdm size 4096 (heap w)) as [[p|[]|] h]; [|by exists s].
  destruct (p =? 0); [by exists s|]. unfold st_bind, set_shm.
  specialize (IH (mkShm (regions s ++ [(p, size)]) (locks s)) (mkWorld (Some (mkShm (regions s ++ [(p, size)]) (locks s))) h) eq_refl).
  cbn [heap]. by destruct (extend _ n size _ _) as [r w'].
Qed.

Lemma shm_map_locks region size w :
  let '(_, w') := shm_map hhdm region size w in exists s', shm w' = Some s' /\ locks s' = locks (default new_shm (shm w)).
Proof.
  unfold shm_map, mbind, st_bind, st_get, set_shm. set (s := default new_shm (shm w)).
  pose proof (extend_locks (S region - length (regions s)) size s (mkWorld (Some s) (heap w)) eq_refl) as He.
  destruct (extend _ _ size s _) as [[s'|e|] w']; try done. destruct (regions s' !! region) as [[p z]|]; done.
Qed.

Lemma shm_unmap_shm delete w :
  let '(_, w') := shm_unmap hhdm delete w in shm w' = if delete then None else shm w.
Proof.
  unfold shm_unmap. destruct delete; [|done]. unfold mbind, st_bind, st_get. destruct (shm w) as [s|] eqn:Hs; [|done].
  unfold set_shm. set (body := fun r : Z * Z => if page_layout_ok (snd r) then on_heap (Heap.dealloc hhdm (fst r)) else st_panic).
  assert (forall l w1, shm w1 = None -> shm (snd (st_for body l w1)) = None) as Hfor.
  { induction l as [|r l IH]; intros w1 H1; [done|]. cbn [st_for]. unfold mbind, st_bind, body at 1.
    destruct (page_layout_ok (snd r)); [|done]. unfold on_heap. destruct (Heap.dealloc hhdm (fst r) (heap w1)) as [[[]|[]|] h]; [|done].
    by apply IH. }
  specialize (Hfor (regions s) (mkWorld None (heap w)) eq_refl).
  by destruct (st_for body (regions s) (mkWorld None (heap w))) as [[[]|e|] w'].
Qed.

Lemma locks_ok_new : locks_ok N (replicate SQLITE_SHM_NLOCK default_lock) (fun _ => ∅).
Proof.
  split; [done|]. split; [|done]. intros k l [-> _]%lookup_replicate. by split; cbn.
Qed.

Lemma locks_ok_ext ls h h' : locks_ok N ls h -> (forall k, h' k = h k) -> locks_ok N ls h'.
Proof. intros (H1 & H2 & H3) Heq. split; [done|]. split; intros; rewrite Heq; auto. Qed.

Lemma reachable_ok s : Z.of_nat N < 2 ^ 32 -> reachable s -> shm_ok N s.
Proof.
  intros HN Hr. induction Hr as [h|s s' _ IH Hstep]; [done|]. unfold shm_ok in *.
  destruct Hstep as [s c offset n x rc w' Hc Hn Hx Hl|s c offset n x rc w' Hn Hh Hl|s region size r w' Hm|s delete r w' He Hu]; cbn [memory held].
  - destruct (shm (memory s)) as [m|] eqn:Hm.
    + rewrite (shm_lock_flags _ _ _ _ _ _ Hm) in Hl. pose proof (shm_lock_spec N c x offset n _ _ HN IH Hc Hn Hx) as Hspec.
      destruct (available _ _ _ _); [destruct Hspec as (ls' & He & Hok)|]; rewrite ?He, ?Hspec in Hl; injection Hl as <- <-; done.
    + unfold shm_lock in Hl. rewrite Hm in Hl. injection Hl as <- <-. by rewrite Hm.
  - destruct (shm (memory s)) as [m|] eqn:Hm.
    + rewrite (shm_lock_flags _ _ _ _ _ _ Hm) in Hl. destruct (shm_unlock_spec N c x offset n _ _ HN IH Hn Hh) as (ls' & He & Hok).
      rewrite He in Hl. by injection Hl as <- <-.
    + unfold shm_lock in Hl. rewrite Hm in Hl. injection Hl as <- <-. rewrite Hm. intros k. unfold returned. rewrite IH.
      destruct (in_range _ _ _); set_solver.
  - pose proof (shm_map_locks region size (memory s)) as Hl. rewrite Hm in Hl. destruct Hl as (s' & -> & ->).
    destruct (shm (memory s)) as [m|]; [done|]. by eapply locks_ok_ext; [apply locks_ok_new|].
  - pose proof (shm_unmap_shm delete (memory s)) as Hs. rewrite Hu in Hs. rewrite Hs. destruct delete; [by apply He|done].
Qed.

End clients.

(** ** Regions *)
Section regions.
Variable hhdm : Z.
Hypothesis hhdm_pos : 0 < hhdm.
Hypothesis hhdm_page : (4096 | hhdm).
Hypothesis hhdm_top : hhdm + Phys.MAX_PAGES * 4096 <= 2 ^ 64.

Definition pointers (w : world) : list Z := fst <$> default [] (regions <$> shm w).

(** The regions are blocks of the heap of their size, apart from each other
    and from the blocks of [others]. *)
Record owns (others : gset Z) (w : world) : Prop := {
  owned : exists fr, Heap.inv hhdm (heap w) fr (list_to_set (pointers w) ∪ others);
  own_distinct : NoDup (pointers w);
  own_apart : forall p, p ∈ pointers w -> p ∉ others;
  own_sizes : forall r, r ∈ default [] (regions <$> shm w) ->
    0 < snd r <= 2 ^ 62 /\ snd r <= Heap.bsize (Heap.memory (heap w)) (fst r);
}.

Definition same_blocks (w w' : world) (live : gset Z) : Prop := Heap.live_same (heap w) (heap w') live.

Lemma alloc_zeroed_ok s fr live size :
  Heap.inv hhdm s fr live -> 0 < size <= 2 ^ 62 ->
  wp (alloc_zeroed hhdm size 4096) (fun p s' => (exists fr', Heap.inv hhdm s' fr' (if p =? 0 then live else {[p]} ∪ live)) /\
      Heap.live_same s s' live /\
      (p <> 0 -> p ∉ live /\ size <= Heap.bsize (Heap.memory s') p /\ Mem.load (Heap.memory s') p size = replicate (Z.to_nat size) 0))
    (fun _ _ => False) s.
Proof.
  intros Hi Hsize. unfold alloc_zeroed. apply wp_bind. eapply wp_mono; [apply (Heap.heap_alloc_ok hhdm hhdm_pos hhdm_page hhdm_top s fr live size 12 Hi); lia| |done].
  intros p s1 Ha. unfold Heap.allocated in Ha. destruct (Z.eqb_spec p 0) as [->|Hp].
  - destruct Ha as (_ & Hm & _ & Hi1). apply wp_ret. split; [by exists fr|]. split; [|done].
    intros q Hq. rewrite Hm. apply Mem.same_at_refl.
  - destruct Ha as (Hnew & Hb & _ & [fr' Hi1] & Hsame). apply wp_bind, wp_get, wp_bind, wp_put, wp_ret.
    set (m' := Mem.store (Heap.memory s1) p (replicate (Z.to_nat size) 0)).
    assert (zlen (replicate (Z.to_nat size) 0) = size) as Hz by (unfold zlen; rewrite length_replicate; lia).
    destruct (Heap.write_live hhdm hhdm_page s1 fr' ({[p]} ∪ live) p m' size Hi1) as (Hi2 & Hoth & Hbs);
      [set_solver|unfold m'; rewrite <- Hz at 2; apply Mem.store_same_but|lia|].
    rewrite (proj2 (Z.eqb_neq p 0) Hp). split; [by exists fr'|]. split.
    + intros q Hq x Hx. rewrite <- (Hsame q Hq x Hx). cbn [Heap.memory].
      assert (Heap.bsize (Heap.memory s1) q = Heap.bsize (Heap.memory s) q) as Hbq by (by eapply Heap.live_same_bsize).
      apply (Hoth q); [set_solver|by intros ->|]. by rewrite Hbq.
    + intros _. cbn [Heap.memory]. rewrite Hbs. split_and!; [done|lia|]. unfold m'. by apply Mem.load_store.
Qed.

Definition zeroed (w : world) (size : Z) (r : Z * Z) : Prop :=
  snd r = size /\ Mem.load (Heap.memory (heap w)) (fst r) size = replicate (Z.to_nat size) 0.

Lemma same_blocks_trans others w1 w2 w3 ps1 ps2 :
  owns others w1 -> pointers w1 = ps1 -> pointers w2 = ps2 -> list_to_set (C := gset Z) ps1 ⊆ list_to_set ps2 ->
  same_blocks w1 w2 (list_to_set ps1 ∪ others) -> same_blocks w2 w3 (list_to_set ps2 ∪ others) ->
  same_blocks w1 w3 (list_to_set ps1 ∪ others).
Proof.
  intros [[fr Hi] _ _ _] <- <- Hsub H12 H23.
  eapply (Heap.live_same_trans hhdm hhdm_page); [exact H12| |done|].
  - intros q Hq. apply H23. set_solver.
  - intros q Hq. pose proof (Heap.inv_size_bound hhdm hhdm_page _ _ _ q Hi (or_intror Hq)). lia.
Qed.

(** One more region. *)
Lemma add_region others sh w p size h fr :
  shm w = Some sh -> owns others w -> 0 < size <= 2 ^ 62 -> p ∉ list_to_set (C := gset Z) (pointers w) ∪ others ->
  Heap.inv hhdm h fr ({[p]} ∪ (list_to_set (pointers w) ∪ others)) -> size <= Heap.bsize (Heap.memory h) p ->
  Heap.live_same (heap w) h (list_to_set (pointers w) ∪ others) ->
  owns others (mkWorld (Some (mkShm (regions sh ++ [(p, size)]) (locks sh))) h).
Proof.
  intros Hs [[fr0 Hi] Hd Ha Hz] Hsize Hp Hi' Hb Hsame.
  assert (pointers w = fst <$> regions sh) as Hps by (unfold pointers; by rewrite Hs).
  assert (pointers (mkWorld (Some (mkShm (regions sh ++ [(p, size)]) (locks sh))) h) = pointers w ++ [p]) as Hps'
    by (unfold pointers at 1; cbn; by rewrite fmap_app, Hps).
  split; rewrite ?Hps'.
  - exists fr. cbn [heap]. rewrite list_to_set_app_L. cbn. rewrite union_empty_r_L.
    replace (list_to_set (pointers w) ∪ {[p]} ∪ others) with ({[p]} ∪ (list_to_set (pointers w) ∪ others)) by set_solver. done.
  - apply NoDup_app. split; [done|]. split; [|apply NoDup_singleton]. intros q Hq ->%list_elem_of_singleton. set_solver.
  - intros q [Hq| ->%list_elem_of_singleton]%elem_of_app; [by apply Ha|set_solver].
  - cbn. intros r [Hr| ->%list_elem_of_singleton]%elem_of_app; [|by split].
    assert (r ∈ default [] (regions <$> shm w)) as Hr' by (by rewrite Hs). destruct (Hz r Hr') as [Hr0 Hrb]. split; [done|].
    rewrite (Heap.live_same_bsize hhdm hhdm_page _ _ _ _ _ Hi Hsame); [done|].
    apply elem_of_union_l, elem_of_list_to_set. rewrite Hps. by apply list_elem_of_fmap_2.
Qed.

Definition extended (others : gset Z) (w : world) (sh : ShmState) (size : Z) (k : nat) (w' : world) : Prop :=
  exists new s', shm w' = Some s' /\ regions s' = regions sh ++ new /\ length new = k /\ locks s' = locks sh /\
    owns others w' /\ Forall (zeroed w' size) new /\ same_blocks w w' (list_to_set (pointers w) ∪ others).

Lemma extended_refl others w sh size : shm w = Some sh -> owns others w -> extended others w sh size 0 w.
Proof.
  intros Hs Ho. exists [], sh. rewrite app_nil_r. by split_and!.
Qed.

Lemma on_heap_wp {A} (m : st Heap.heap Empty_set A) (Q : A -> Heap.heap -> Prop) w :
  wp m Q (fun _ _ => False) (heap w) -> wp (on_heap m) (fun a w' => shm w' = shm w /\ Q a (heap w')) (fun _ _ => False) w.
Proof. unfold wp, on_heap. by destruct (m (heap w)) as [[a|[]|] h]. Qed.

Lemma extend_ok others n size sh w :
  shm w = Some sh -> owns others w -> 0 < size <= 2 ^ 62 ->
  wp (extend hhdm n size sh)
    (fun s' w' => shm w' = Some s' /\ extended others w sh size n w')
    (fun e w' => e = SQLITE_IOERR_NOMEM /\ exists k, extended others w sh size k w') w.
Proof.
  revert sh w. induction n as [|n IH]; intros sh w Hs Ho Hsize; cbn [extend].
  - apply wp_ret. split; [done|by apply extended_refl].
  - unfold page_layout_ok. rewrite (proj2 (Z.leb_le _ _)) by lia. cbn [negb]. destruct (owned _ _ Ho) as [fr Hi].
    apply wp_bind. eapply wp_mono; [apply on_heap_wp; by apply (alloc_zeroed_ok (heap w) fr)| |done].
    intros p w1 (Hs1 & [fr' Hi1] & Hsame & Hnew). destruct (Z.eqb_spec p 0) as [->|Hp].
    + apply wp_err. split; [done|]. exists 0%nat, [], sh. rewrite app_nil_r.
      assert (pointers w1 = pointers w) as Hps by (unfold pointers; by rewrite Hs1).
      split_and!; try done; [by rewrite Hs1|]. destruct Ho as [_ Hd Ha Hz]. split; rewrite ?Hps; try done; [by exists fr'|].
      rewrite Hs1. intros r Hr. destruct (Hz r Hr) as [Hr0 Hrb]. split; [done|].
      rewrite (Heap.live_same_bsize hhdm hhdm_page _ _ _ _ _ Hi Hsame); [done|].
      apply elem_of_union_l, elem_of_list_to_set. unfold pointers. by apply list_elem_of_fmap_2.
    + destruct (Hnew Hp) as (Hfresh & Hb & Hload). apply wp_bind. unfold wp at 1, set_shm.
      set (sh1 := mkShm (regions sh ++ [(p, size)]) (locks sh)). set (w2 := mkWorld (Some sh1) (heap w1)).
      assert (owns others w2) as Ho2 by (by apply (add_region others sh w p size (heap w1) fr')).
      assert (pointers w2 = pointers w ++ [p]) as Hps by (unfold pointers; rewrite Hs; cbn; by rewrite fmap_app).
      assert (same_blocks w w2 (list_to_set (pointers w) ∪ others)) as Hsame2 by done.
      assert (forall k w', extended others w2 sh1 size k w' -> extended others w sh size (S k) w') as Hmore.
      { intros k w' (new & s' & Hs' & Hr & Hl & Hlk & Ho' & Hz & Hsm). exists ((p, size) :: new), s'.
        split_and!; try done; [by rewrite Hr; cbn; rewrite <- app_assoc|cbn; lia| |].
        - constructor; [|done]. split; [done|]. cbn [fst]. rewrite <- Hload. apply Mem.load_same.
          assert (p ∈ list_to_set (C := gset Z) (pointers w2) ∪ others) as Hin by (rewrite Hps; set_solver).
          intros x Hx. apply (Hsm p Hin). cbn [heap w2]. lia.
        - eapply same_blocks_trans; [exact Ho|reflexivity|exact Hps|set_solver|exact Hsame2|rewrite <- Hps; exact Hsm]. }
      eapply wp_mono; [by apply (IH sh1 w2)| |].
      * intros s' w' [Hs' He]. split; [done|by apply Hmore].
      * intros e w' [-> [k He]]. split; [done|]. exists (S k). by apply Hmore.
Qed.

(** Every region is given back. *)
Lemma unmap_ok others rs w :
  shm w = None -> (exists fr, Heap.inv hhdm (heap w) fr (list_to_set (fst <$> rs) ∪ others)) -> NoDup (fst <$> rs) ->
  (forall p, p ∈ fst <$> rs -> p ∉ others) -> Forall (fun r => 0 < snd r <= 2 ^ 62) rs ->
  wp (st_for (fun r => if page_layout_ok (snd r) then on_heap (Heap.dealloc hhdm (fst r)) else st_panic) rs)
    (fun _ w' => owns others w' /\ shm w' = None /\ same_blocks w w' others) (fun _ _ => False) w.
Proof.
  revert w. induction rs as [|[p size] rs IH]; intros w Hs [fr Hi] Hd Ha Hz; cbn [st_for].
  - apply wp_ret. split; [|split; [done|intros q Hq; apply Mem.same_at_refl]]. split; unfold pointers; rewrite Hs; cbn.
    + by exists fr.
    + constructor.
    + by intros p Hp%elem_of_nil.
    + by intros r Hr%elem_of_nil.
  - apply Forall_cons in Hz as [Hp Hz]. cbn [fmap list_fmap fst] in *. apply NoDup_cons in Hd as [Hpd Hd]. cbn [snd] in Hp.
    unfold page_layout_ok. cbn [snd]. rewrite (proj2 (Z.leb_le size _)) by lia.
    assert (list_to_set (p :: (fst <$> rs)) ∪ others = {[p]} ∪ (list_to_set (fst <$> rs) ∪ others)) as Hset by set_solver.
    destruct (Heap.dealloc_ok hhdm hhdm_pos hhdm_page hhdm_top (heap w) fr _ p Hi) as (h' & fr' & He & Hi' & Hsame & _); [set_solver|].
    assert (p ∉ others) as Hpo by (apply Ha; set_solver).
    replace ((list_to_set (p :: (fst <$> rs)) ∪ others) ∖ {[p]}) with (list_to_set (fst <$> rs) ∪ others) in Hi', Hsame.
    2: { apply leibniz_equiv. intros q. rewrite elem_of_difference, !elem_of_union, !elem_of_list_to_set, elem_of_cons, elem_of_singleton.
         split; [|tauto]. intros [Hq|Hq]; (split; [tauto|]); intros ->; tauto. }
    apply wp_bind. unfold wp at 1, on_heap. rewrite He. eapply wp_mono; [apply IH| |done]; try done.
    + by exists fr'.
    + intros q Hq. apply Ha. set_solver.
    + cbn [heap]. intros _ w' (Ho' & Hs' & Hsm). split_and!; [done..|].
      eapply (Heap.live_same_trans hhdm hhdm_page); [|exact Hsm|done|].
      * intros q Hq. apply Hsame. set_solver.
      * intros q Hq. assert (8 <= Heap.bsize (Heap.memory (heap w)) q); [|lia]. apply (Heap.inv_size_bound hhdm hhdm_page _ _ _ q Hi). right. set_solver.
Qed.

(** The regions of the shared memory are what the write-ahead log needs.
    [shm_map] returns the address of the region it is asked for: the one it
    gave before if the region was mapped, else a new block of at least the
    region's size whose bytes are zero; regions are apart from each other and
    from every other block of the heap, and neither earlier regions nor other
    blocks change.  It fails only for lack of memory, keeping what it has.
    [shm_unmap] gives every region back to the heap and touches nothing else. *)
Theorem shm_regions_correct others w region size :
  owns others w -> 0 < size <= 2 ^ 62 ->
  let sh := default new_shm (shm w) in
  wp (shm_map hhdm region size)
    (fun p w' => exists k, extended others w sh size k w' /\
       (exists sz, default [] (regions <$> shm w') !! region = Some (p, sz)) /\ (region < length (regions sh) -> k = 0)%nat)
    (fun e w' => e = SQLITE_IOERR_NOMEM /\ exists k, extended others w sh size k w') w /\
  wp (shm_unmap hhdm true)
    (fun rc w' => rc = SQLITE_OK /\ shm w' = None /\ owns others w' /\ same_blocks w w' others) (fun _ _ => False) w.
Proof.
  intros Ho Hsize sh. split.
  - set (w1 := mkWorld (Some sh) (heap w)).
    assert (pointers w1 = pointers w) as Hps by (unfold pointers, w1, sh; by destruct (shm w)).
    assert (owns others w1) as Ho1.
    { destruct Ho as [Hi Hd Ha Hz]. split; rewrite ?Hps; try done. unfold w1, sh. cbn. by destruct (shm w). }
    assert (forall k w', extended others w1 sh size k w' -> extended others w sh size k w') as Hback.
    { intros k w' (new & s' & H1 & H2 & H3 & H4 & H5 & H6 & H7). exists new, s'. split_and!; try done. by rewrite <- Hps. }
    unfold shm_map. apply wp_bind, wp_get, wp_bind. unfold wp at 1, set_shm. fold sh. apply wp_bind.
    eapply wp_mono; [by apply (extend_ok others (S region - length (regions sh)) size sh w1)| |].
    + intros s' w' [Hs' He]. pose proof He as (new & s2 & H1 & H2 & H3 & _). rewrite Hs' in H1. injection H1 as <-.
      destruct (lookup_lt_is_Some_2 (regions s') region) as [[p sz] Hr]; [rewrite H2, length_app; lia|]. rewrite Hr.
      apply wp_ret. exists (S region - length (regions sh))%nat. split; [by apply Hback|]. split; [|lia]. exists sz. by rewrite Hs'.
    + intros e w' [-> [k He]]. split; [done|]. exists k. by apply Hback.
  - unfold shm_unmap. apply wp_bind, wp_get. unfold sh in *. destruct (shm w) as [s|] eqn:Hs.
    + apply wp_bind. unfold wp at 1, set_shm. apply wp_bind. destruct Ho as [Hi Hd Ha Hz].
      assert (pointers w = fst <$> regions s) as Hps by (unfold pointers; by rewrite Hs). rewrite Hps in Hi, Hd, Ha. rewrite Hs in Hz.
      eapply wp_mono; [apply (unmap_ok others (regions s) (mkWorld None (heap w))); try done| |done].
      * apply Forall_forall. intros r Hr. by apply Hz.
      * intros _ w' (Ho' & Hs' & Hsm). by apply wp_ret.
    + apply wp_ret. by split_and!.
Qed.
End regions.

(** ** Concrete runs *)
Definition idle : world := mkWorld None Heap.demo_heap.

Lemma idle_owns : owns Heap.demo_hhdm ∅ idle.
Proof.
  split; cbn.
  - exists (replicate 10 []). exact Heap.demo_heap_inv.
  - constructor.
  - by intros p Hp%elem_of_nil.
  - by intros r Hr%elem_of_nil.
Qed.

(** The first map of the log takes the first region. *)
Lemma shm_regions_correct_witness :
  wp (shm_map Heap.demo_hhdm 0 32768)
    (fun p w' => exists k, extended Heap.demo_hhdm ∅ idle new_shm 32768 k w' /\
       (exists sz, default [] (regions <$> shm w') !! 0%nat = Some (p, sz)) /\ (0 < 0 -> k = 0)%nat)
    (fun e w' => e = SQLITE_IOERR_NOMEM /\ exists k, extended Heap.demo_hhdm ∅ idle new_shm 32768 k w') idle.
Proof.
  destruct Heap.demo_hhdm_ok as (H1 & H2 & H3).
  refine (proj1 (shm_regions_correct Heap.demo_hhdm H1 H2 H3 ∅ idle 0 32768 idle_owns _)). lia.
Defined.

(** A reader shares slots 3 and 4; a writer then wants slots 2 and 3. *)
Definition mapped : sys := mkSys (snd (shm_map Heap.demo_hhdm 0 (2 ^ 63) idle)) (fun _ => ∅).
Definition after_reader : sys :=
  mkSys (snd (shm_lock 3 2 (lock_flags true false) (memory mapped)))
    (if fst (shm_lock 3 2 (lock_flags true false) (memory mapped)) =? SQLITE_OK then granted 0 3 2 false (fun _ => ∅) else fun _ => ∅).

Lemma after_reader_reachable : reachable Heap.demo_hhdm 2 after_reader.
Proof.
  apply (Next _ _ mapped).
  - apply (Next _ _ (mkSys idle (fun _ => ∅))); [constructor|].
    apply (Step_map _ _ (mkSys idle (fun _ => ∅)) 0 (2 ^ 63) (fst (shm_map Heap.demo_hhdm 0 (2 ^ 63) idle))).
    apply surjective_pairing.
  - apply (Step_lock _ _ mapped 0 3 2 false); [lia|unfold SQLITE_SHM_NLOCK; lia|set_solver|].
    apply surjective_pairing.
Qed.


(** A range past the last slot stops with an error and keeps what it took. *)
Lemma shm_lock_leaks :
  let '(rc, w) := shm_lock 7 2 (lock_flags true true) (memory mapped) in
  rc = SQLITE_ERROR /\ (fun s => exclusive (locks s !!! 7%nat)) <$> shm w = Some true.
Proof. vm_compute. split; reflexivity. Qed.

End Shm.
