(* ===== verification/Clock.v ===== *)
(** * Clock of the VFS ([vfs/sqlite_vfs.rs])

    The reading of the real-time clock and the Julian day in milliseconds
    that SQLite asks for, with the calendar it must agree with. *)
From S2P Require Import Prelude.

Module Clock.

(** ** The clock chip *)
(** Ports 0x70 and 0x71 as the chip answers: what register [reg] holds at the
    [t]-th read. *)
Definition chip : Type := nat -> Z -> Z.
Abbreviation R := (st nat Empty_set).

Section rtc.
Variable rtc : chip.
(** How many turns each of the two unbounded loops may take: [Panic] stands
    for a loop that has not ended. *)
Variable turns : nat.

Definition cmos_read (reg : Z) : R Z := fun t => (Ok (rtc t reg), S t).

(** [u8] arithmetic. *)
Definition bcd_to_bin (val : Z) : Z := wrap8 (wrap8 (Z.land val 0x0F) + wrap8 (Z.shiftr val 4 * 10)).

Record snapshot := mkSnap { sec : Z; min : Z; hour : Z; day : Z; month : Z; year : Z; century : Z }.
#[export] Instance snapshot_eq_dec : EqDecision snapshot.
Proof. solve_decision. Defined.

Fixpoint wait_update (n : nat) : R unit :=
  match n with
  | O => st_panic
  | S n => a ← cmos_read 0x0A; if negb (Z.land a 0x80 =? 0) then wait_update n else mret tt
  end.

Definition read_rtc_snapshot : R snapshot :=
  _ ← wait_update turns;
  s ← cmos_read 0x00; m ← cmos_read 0x02; h ← cmos_read 0x04; d ← cmos_read 0x07;
  mo ← cmos_read 0x08; y ← cmos_read 0x09; c ← cmos_read 0x32;
  mret (mkSnap s m h d mo y c).

Fixpoint settle (n : nat) (prev : snapshot) : R snapshot :=
  match n with
  | O => st_panic
  | S n => curr ← read_rtc_snapshot; if bool_decide (curr = prev) then mret curr else settle n curr
  end.

(** Year, month, day, hour, minute, second. *)
Definition datetime : Type := Z * Z * Z * Z * Z * Z.

(** The values of a snapshot, given status register B. *)
Definition decode (status_b : Z) (s : snapshot) : datetime :=
  let is_bcd := Z.land status_b 0x04 =? 0 in
  let s := if is_bcd
           then mkSnap (bcd_to_bin (sec s)) (bcd_to_bin (min s)) (bcd_to_bin (Z.land (hour s) 0x7F)) (bcd_to_bin (day s))
                  (bcd_to_bin (month s)) (bcd_to_bin (year s)) (bcd_to_bin (century s))
           else mkSnap (sec s) (min s) (Z.land (hour s) 0x7F) (day s) (month s) (year s) (century s) in
  let h := if (Z.land status_b 0x02 =? 0) && negb (Z.land (hour s) 0x80 =? 0)
           then wrap8 (Z.land (hour s) 0x7F mod 12 + 12) else hour s in
  let full_year := if 0 <? century s then wrap32 (century s * 100 + year s) else wrap32 (2000 + year s) in
  (full_year, month s, day s, h, min s, sec s).

Definition read_cmos_rtc : R datetime :=
  prev ← read_rtc_snapshot;
  s ← settle turns prev;
  status_b ← cmos_read 0x0B;
  mret (decode status_b s).
End rtc.

(** ** The Julian day *)
(** [i64] wraps; the operands of the divisions are far inside its range. *)
Definition wrap_i64 (z : Z) : Z := (z + 2 ^ 63) mod 2 ^ 64 - 2 ^ 63.

Definition julian_day (y m d : Z) : Z :=
  let a := (14 - m) ÷ 12 in
  let adj_y := y + 4800 - a in
  let adj_m := m + 12 * a - 3 in
  d + (153 * adj_m + 2) ÷ 5 + 365 * adj_y + adj_y ÷ 4 - adj_y ÷ 100 + adj_y ÷ 400 - 32045.

Definition julian_ms (t : datetime) : Z :=
  let '(year, month, day, hour, minute, second) := t in
  let day_ms := 86400000 in
  let time_ms := hour * 3600000 + minute * 60000 + second * 1000 in
  wrap_i64 ((julian_day year month day - 1) * day_ms + day_ms ÷ 2 + time_ms).

Definition current_time_ms (rtc : chip) (turns : nat) : R Z :=
  t ← read_cmos_rtc rtc turns; mret (julian_ms t).

(** ** The calendar *)
Definition leap (y : Z) : bool := (y mod 4 =? 0) && (negb (y mod 100 =? 0) || (y mod 400 =? 0)).
Definition month_days (y m : Z) : Z :=
  if m =? 2 then if leap y then 29 else 28
  else if (m =? 4) || (m =? 6) || (m =? 9) || (m =? 11) then 30 else 31.
Definition year_days (y : Z) : Z := if leap y then 366 else 365.
(** The days since the first day of year 0, counted year by year and month by
    month. *)
Definition sum_days (f : Z -> Z) (lo n : Z) : Z := foldr (fun i s => f i + s) 0 (seqZ lo n).
Definition days_since (y m d : Z) : Z := sum_days year_days 0 y + sum_days (month_days y) 1 (m - 1) + (d - 1).

Definition valid_date (y m d : Z) : Prop := 0 <= y /\ 1 <= m <= 12 /\ 1 <= d <= month_days y m.
Definition valid_time (h mi s : Z) : Prop := 0 <= h < 24 /\ 0 <= mi < 60 /\ 0 <= s < 60.

Lemma sum_days_S f lo n : 0 <= n -> sum_days f lo (n + 1) = sum_days f lo n + f (lo + n).
Proof.
  intros Hn. unfold sum_days. rewrite seqZ_app by lia.
  replace (seqZ (lo + n) 1) with [lo + n] by (unfold seqZ; cbn; f_equal; lia). rewrite foldr_app. cbn [foldr]. generalize (f (lo + n)) as x. generalize (seqZ lo n) as l.
  induction l as [|a l IH]; intros x; cbn; [lia|]. rewrite IH. lia.
Qed.

(** The years before [y] have 365 days each, and the leap days. *)
Definition leaps (y : Z) : Z := (y + 3) / 4 - (y + 99) / 100 + (y + 399) / 400.

Lemma leap_step y : 0 <= y -> leaps (y + 1) = leaps y + (if leap y then 1 else 0).
Proof.
  intros Hy. unfold leaps, leap.
  destruct (Z.eqb_spec (y mod 4) 0), (Z.eqb_spec (y mod 100) 0), (Z.eqb_spec (y mod 400) 0); cbn [negb andb orb];
    Z.to_euclidean_division_equations; lia.
Qed.

Lemma years_closed y : 0 <= y -> sum_days year_days 0 y = 365 * y + leaps y.
Proof.
  intros Hy. pattern y. apply natlike_ind; [done| |done]. clear y Hy. intros y Hy IH.
  rewrite <- Z.add_1_r, sum_days_S, IH, leap_step by done. unfold year_days. rewrite Z.add_0_l. destruct (leap y); lia.
Qed.

Lemma leaps_shift y : 0 <= y -> (y + 4799) / 4 - (y + 4799) / 100 + (y + 4799) / 400 = leaps y + 1163.
Proof.
  intros Hy. unfold leaps. replace (y + 4799) with (y + 3 + 1199 * 4) at 1 by lia. replace (y + 4799) with (y + 99 + 47 * 100) at 1 by lia.
  replace (y + 4799) with (y + 399 + 11 * 400) by lia. rewrite !Z.div_add by lia. lia.
Qed.

Lemma julian_day_counts y m d : valid_date y m d -> julian_day y m d = days_since y m d + 1721060.
Proof.
  intros (Hy & Hm & Hd). unfold days_since. rewrite years_closed by done. unfold julian_day.
  assert (m = 1 \/ m = 2 \/ m = 3 \/ m = 4 \/ m = 5 \/ m = 6 \/ m = 7 \/ m = 8 \/ m = 9 \/ m = 10 \/ m = 11 \/ m = 12) as Hcase by lia.
  pose proof (leaps_shift y Hy) as H0. pose proof (leaps_shift (y + 1) ltac:(lia)) as H1. rewrite leap_step in H1 by done.
  replace (y + 1 + 4799) with (y + 4800) in H1 by lia. clear Hm Hd.
  assert (forall k, 0 <= k -> k ÷ 4 = k / 4 /\ k ÷ 100 = k / 100 /\ k ÷ 400 = k / 400) as Hq
    by (intros k Hk; rewrite !Z.quot_div_nonneg by lia; done).
  destruct (Hq (y + 4800 - 1)) as (Ha & Hb & Hc); [lia|]. destruct (Hq (y + 4800 - 0)) as (Hd & He & Hf); [lia|].
  replace (y + 4800 - 1) with (y + 4799) in Ha, Hb, Hc by lia. replace (y + 4800 - 0) with (y + 4800) in Hd, He, Hf by lia.
  destruct Hcase as [->|[->|[->|[->|[->|[->|[->|[->|[->|[->|[->| ->]]]]]]]]]]];
    unfold sum_days, month_days; cbn -[Z.mul Z.div Z.quot Z.add Z.sub leap leaps];
    match goal with |- context [(14 - ?m) ÷ 12] => let a := eval vm_compute in ((14 - m) ÷ 12) in change ((14 - m) ÷ 12) with a end;
    first [replace (y + 4800 - 1) with (y + 4799) by lia | replace (y + 4800 - 0) with (y + 4800) by lia];
    rewrite ?Ha, ?Hb, ?Hc, ?Hd, ?He, ?Hf;
    match goal with |- context [(153 * ?k + 2) ÷ 5] => let v := eval vm_compute in ((153 * k + 2) ÷ 5) in change ((153 * k + 2) ÷ 5) with v end;
    destruct (leap y);
    match goal with |- context [foldr ?f 0 ?l] => let v := eval vm_compute in (foldr f 0 l) in change (foldr f 0 l) with v end; lia.
Qed.

(** ** Reading the chip *)
(** What the registers hold at the date and time: in binary or in decimal
    digits, with the century, on a 24-hour clock. *)
Definition bcd (n : Z) : Z := 16 * (n / 10) + n mod 10.
Definition shows (rtc : chip) (y m d h mi s : Z) : Prop :=
  exists status_b : Z, Z.land status_b 0x02 <> 0 /\ 1 <= y / 100 /\ y < 10000 /\
  let enc := if Z.land status_b 0x04 =? 0 then bcd else (fun n => n) in
  forall t, rtc t 0x0B = status_b /\ Z.land (rtc t 0x0A) 0x80 = 0 /\
    rtc t 0x00 = enc s /\ rtc t 0x02 = enc mi /\ rtc t 0x04 = enc h /\ rtc t 0x07 = enc d /\
    rtc t 0x08 = enc m /\ rtc t 0x09 = enc (y mod 100) /\ rtc t 0x32 = enc (y / 100).

Lemma check_range (p : Z -> bool) n k : forallb p (seqZ 0 n) = true -> 0 <= k < n -> p k = true.
Proof. rewrite forallb_forall. intros H Hk. apply H, list_elem_of_In, elem_of_seqZ. lia. Qed.

Lemma bcd_roundtrip n : 0 <= n < 100 -> bcd_to_bin (bcd n) = n.
Proof. intros Hn. apply Z.eqb_eq. by apply (check_range (fun n => bcd_to_bin (bcd n) =? n) 100). Qed.

Lemma hour_mask h : 0 <= h < 24 -> Z.land h 0x7F = h /\ Z.land (bcd h) 0x7F = bcd h.
Proof.
  intros Hh. split; apply Z.eqb_eq.
  - by apply (check_range (fun h => Z.land h 0x7F =? h) 24).
  - by apply (check_range (fun h => Z.land (bcd h) 0x7F =? bcd h) 24).
Qed.

Definition stable (rtc : chip) (s : snapshot) : Prop :=
  forall t, Z.land (rtc t 0x0A) 0x80 = 0 /\ rtc t 0x00 = sec s /\ rtc t 0x02 = min s /\ rtc t 0x04 = hour s /\
    rtc t 0x07 = day s /\ rtc t 0x08 = month s /\ rtc t 0x09 = year s /\ rtc t 0x32 = century s.

Lemma read_stable rtc turns s t : (1 <= turns)%nat -> stable rtc s -> exists t', read_rtc_snapshot rtc turns t = (Ok s, t').
Proof.
  intros Hn Hs. destruct turns as [|n]; [lia|]. unfold read_rtc_snapshot, mbind, st_bind, cmos_read. cbn [wait_update].
  unfold mbind, st_bind, cmos_read. rewrite (proj1 (Hs t)). cbn.
  assert (forall k, rtc k 0 = sec s) as -> by apply Hs. assert (forall k, rtc k 2 = min s) as -> by apply Hs.
  assert (forall k, rtc k 4 = hour s) as -> by apply Hs. assert (forall k, rtc k 7 = day s) as -> by apply Hs.
  assert (forall k, rtc k 8 = month s) as -> by apply Hs. assert (forall k, rtc k 9 = year s) as -> by apply Hs.
  assert (forall k, rtc k 50 = century s) as -> by apply Hs. eexists. destruct s. reflexivity.
Qed.

Lemma decode_shows b y m d h mi s :
  Z.land b 0x02 <> 0 -> 100 <= y < 10000 -> valid_date y m d -> valid_time h mi s ->
  let enc := if Z.land b 0x04 =? 0 then bcd else (fun n => n) in
  decode b (mkSnap (enc s) (enc mi) (enc h) (enc d) (enc m) (enc (y mod 100)) (enc (y / 100))) = (y, m, d, h, mi, s).
Proof.
  intros H24 Hy (_ & Hm & Hd) (Hh & Hmi & Hs) enc. destruct (hour_mask h Hh) as [Hmask Hmask'].
  assert (d <= 31) as Hd31 by (unfold month_days in Hd; repeat case_match; lia).
  assert (0 <= y mod 100 < 100 /\ 1 <= y / 100 < 100 /\ y / 100 * 100 + y mod 100 = y) as (Hlo & Hhi & Heq)
    by (Z.to_euclidean_division_equations; lia).
  unfold decode, enc. rewrite (proj2 (Z.eqb_neq _ 0) H24). cbn [andb sec min hour day month year century].
  destruct (Z.land b 0x04 =? 0); cbn [sec min hour day month year century];
    rewrite ?Hmask, ?Hmask', ?bcd_roundtrip by lia; rewrite (proj2 (Z.ltb_lt 0 _)) by lia; rewrite Heq, wrap32_small by lia; done.
Qed.

Lemma days_bound y m d : valid_date y m d -> y < 10000 -> 0 <= days_since y m d <= 4000000.
Proof.
  intros Hv Hy. pose proof (julian_day_counts y m d Hv) as Hj. destruct Hv as (Hy0 & Hm & Hd). unfold days_since in *.
  rewrite years_closed in * by done.
  assert (0 <= leaps y <= 10000) by (unfold leaps; Z.to_euclidean_division_equations; lia).
  assert (forall n : nat, 0 <= sum_days (month_days y) 1 (Z.of_nat n) <= 31 * Z.of_nat n) as Hsum.
  { induction n as [|n IH]; [done|]. rewrite Nat2Z.inj_succ, <- Z.add_1_r, sum_days_S by lia.
    assert (28 <= month_days y (1 + Z.of_nat n) <= 31) by (unfold month_days; repeat case_match; lia). lia. }
  specialize (Hsum (Z.to_nat (m - 1))). rewrite Z2Nat.id in Hsum by lia.
  assert (month_days y m <= 31) by (unfold month_days; repeat case_match; lia). lia.
Qed.


(** Ten at night on the last day of February 2024. *)
Definition sample_chip : chip := fun _ reg =>
  if reg =? 0x0B then 0x02 else if reg =? 0x04 then 0x22 else if reg =? 0x07 then 0x29 else if reg =? 0x08 then 0x02
  else if reg =? 0x09 then 0x24 else if reg =? 0x32 then 0x20 else 0.


(** On a 12-hour clock, ten in the evening reads as ten in the morning: the
    mask removes the afternoon bit before it is tested. *)
Lemma clock_loses_pm :
  decode 0 (mkSnap 0 0 (Z.lor 0x80 0x10) 0x29 0x02 0x24 0x20) = (2024, 2, 29, 10, 0, 0).
Proof. vm_compute. reflexivity. Qed.

End Clock.
