(* ===== verification/Bridge.v ===== *)
(** * SQLite's VFS interface ([sqlite/vfs_bridge.rs])

    The C functions registered with SQLite: each finds the open file behind
    the [sqlite3_file] pointer it is given, converts the C integers, and calls
    the VFS of [Vfs.v].  [shelf] is what the interface promises, a map from
    names to contents; the theorem says that every history of calls is one of
    it. *)
From S2P Require Import Prelude Bytes Phys Block BlockAlloc FileTable Fmt Json Vfs VfsSpec.

Module Bridge.

(** ** C integers *)
Definition wrap_i32 (z : Z) : Z := (z + 2 ^ 31) mod 2 ^ 32 - 2 ^ 31.
Definition wrap_i64 (z : Z) : Z := (z + 2 ^ 63) mod 2 ^ 64 - 2 ^ 63.

Definition SQLITE_OK : Z := 0.
Definition SQLITE_NOTFOUND : Z := 12.
Definition SQLITE_CANTOPEN : Z := 14.

(** [pMethods] says whether the method table has been set. *)
Record HeavenSqliteFile := mkCFile {
  pMethods : bool;
  file_table_index : nat;
  start_lba : Z;
  block_count : Z;
  byte_length : Z;
  block_size : Z;
}.

Definition heaven_file_to_vfs_file (file : HeavenSqliteFile) : Vfs.HeavenFile :=
  Vfs.mkFile (file_table_index file) (start_lba file) (block_count file) (byte_length file)
    (block_size file).

(** The fields [heaven_write] and [heaven_truncate] write back. *)
Definition write_back (file : HeavenSqliteFile) (hfile : Vfs.HeavenFile) : HeavenSqliteFile :=
  mkCFile (pMethods file) (file_table_index file) (Vfs.start_lba hfile) (Vfs.block_count hfile)
    (Vfs.byte_length hfile) (block_size file).

(** [VFS_INSTANCE] and the file structures SQLite has allocated, by address. *)
Record cstate (D : Type) := mkC {
  vfs_instance : option (Vfs.vfs D);
  structs : gmap Z HeavenSqliteFile;
}.
Arguments mkC {D} _ _.
Arguments vfs_instance {D} _.
Arguments structs {D} _.

(** The bytes at a pointer up to the terminator; a null pointer is [None], and
    running off the memory is undefined behaviour. *)
Fixpoint until_nul {E} (l : list Z) : out E (list Z) :=
  match l with
  | [] => Panic
  | b :: l => if b =? 0 then Ok [] else s ← until_nul l; Ok (b :: s)
  end.

Definition cstr_to_bytes {E} (s : option (list Z)) : out E (list Z) :=
  match s with None => Ok [] | Some l => until_nul l end.

(** [sqlite3_vfs_register] is SQLite's. *)
Definition register_vfs (sqlite3_vfs_register : Z) : unit + list Z :=
  if negb (sqlite3_vfs_register =? SQLITE_OK)
  then inr (str "sqlite3_vfs_register failed: " ++
            (if sqlite3_vfs_register <? 0 then 45 :: dec (- sqlite3_vfs_register)
             else dec sqlite3_vfs_register))
  else inl tt.

Section bridge.
Context `{BlockDevice D}.

Notation C := (st (cstate D) Empty_set).

Definition with_vfs {A} (f : st (Vfs.vfs D) Z A) : C (A + Z) := fun c =>
  match vfs_instance c with
  | None => (Panic, c)
  | Some vfs =>
      let '(r, vfs) := st_try f vfs in (r, mkC (Some vfs) (structs c))
  end.

(** [call_once]: the first instance stays. *)
Definition set_vfs_instance (vfs : Vfs.vfs D) (c : cstate D) : cstate D :=
  mkC (match vfs_instance c with None => Some vfs | Some v => Some v end) (structs c).

Definition get_file (pFile : Z) : C HeavenSqliteFile := fun c =>
  (or_panic (structs c !! pFile), c).
Definition put_file (pFile : Z) (file : HeavenSqliteFile) : C unit := fun c =>
  (Ok tt, mkC (vfs_instance c) (<[pFile := file]> (structs c))).

Definition code_of (r : unit + Z) : Z := match r with inl _ => SQLITE_OK | inr e => e end.

(** The memory at [pFile] exists before the call, with anything in it. *)
Definition heaven_open (zName : option (list Z)) (pFile flags : Z) : C Z :=
  name ← st_lift (cstr_to_bytes zName);
  if bool_decide (name = []) then mret SQLITE_CANTOPEN
  else
    result ← with_vfs (Vfs.open name flags);
    match result with
    | inl hfile =>
        _ ← get_file pFile;
        _ ← put_file pFile (mkCFile true (Vfs.file_table_index hfile) (Vfs.start_lba hfile)
              (Vfs.block_count hfile) (Vfs.byte_length hfile) (Vfs.block_size hfile));
        mret SQLITE_OK
    | inr e => mret e
    end.

Definition heaven_close (pFile : Z) : C Z :=
  file ← get_file pFile;
  r ← with_vfs (Vfs.close (heaven_file_to_vfs_file file));
  mret (code_of r).

(** [from_raw_parts_mut(buf, iAmt as usize)]: the bytes of [buf] beyond the
    slice are left alone; a slice longer than the memory is undefined. *)
Definition heaven_read (pFile : Z) (buf : list Z) (iAmt iOfst : Z) : C (Z * list Z) :=
  file ← get_file pFile;
  slice ← st_lift (index_range buf 0 (wrap64 iAmt));
  r ← with_vfs (Vfs.read (heaven_file_to_vfs_file file) slice (wrap64 iOfst));
  mret (match r with
        | inl (code, slice) => (code, splice buf 0 slice)
        | inr e => (e, buf)
        end).

Definition heaven_write (pFile : Z) (buf : list Z) (iAmt iOfst : Z) : C Z :=
  file ← get_file pFile;
  data ← st_lift (index_range buf 0 (wrap64 iAmt));
  let hfile := heaven_file_to_vfs_file file in
  r ← with_vfs (Vfs.write hfile data (wrap64 iOfst));
  let '(rc, hfile) := match r with inl (rc, hfile) => (rc, hfile) | inr e => (e, hfile) end in
  _ ← put_file pFile (write_back file hfile);
  mret rc.

Definition heaven_truncate (pFile size : Z) : C Z :=
  file ← get_file pFile;
  let hfile := heaven_file_to_vfs_file file in
  r ← with_vfs (Vfs.truncate hfile (wrap64 size));
  let '(rc, hfile) := match r with inl hfile => (SQLITE_OK, hfile) | inr e => (e, hfile) end in
  _ ← put_file pFile (write_back file hfile);
  mret rc.

Definition heaven_sync (pFile : Z) : C Z :=
  file ← get_file pFile;
  r ← with_vfs (Vfs.sync (heaven_file_to_vfs_file file));
  mret (code_of r).

(** The code and [*pSize]. *)
Definition heaven_file_size (pFile : Z) : C (Z * Z) :=
  file ← get_file pFile;
  r ← with_vfs (mret (Vfs.file_size (heaven_file_to_vfs_file file)));
  mret (match r with inl size => (SQLITE_OK, wrap_i64 size) | inr e => (e, 0) end).

Definition heaven_lock (pFile level : Z) : C Z := mret SQLITE_OK.
Definition heaven_unlock (pFile level : Z) : C Z := mret SQLITE_OK.
(** The code and [*pResOut]. *)
Definition heaven_check_reserved_lock (pFile : Z) : C (Z * Z) := mret (SQLITE_OK, 0).
Definition heaven_file_control (pFile op : Z) : C Z := mret SQLITE_NOTFOUND.

Definition heaven_sector_size (pFile : Z) : C Z :=
  file ← get_file pFile;
  let bs := block_size file in
  mret (if 0 <? bs then wrap_i32 bs else 4096).

Definition heaven_device_characteristics (pFile : Z) : C Z := mret 0.

Definition heaven_delete (zName : option (list Z)) : C Z :=
  name ← st_lift (cstr_to_bytes zName);
  r ← with_vfs (Vfs.delete name);
  mret (code_of r).

(** The code and [*pResOut]. *)
Definition heaven_access (zName : option (list Z)) : C (Z * Z) :=
  name ← st_lift (cstr_to_bytes zName);
  r ← with_vfs (s ← st_get; mret (Vfs.access name s));
  mret (SQLITE_OK, match r with inl true => 1 | _ => 0 end).

(** The code and the memory at [zOut]. *)
Definition heaven_full_pathname (zName : option (list Z)) (nOut : Z) (zOut : list Z) : C (Z * list Z) :=
  name ← st_lift (cstr_to_bytes zName);
  let copy_len := Z.min (zlen name) (wrap64 (wrap_i32 (nOut - 1))) in
  out ← st_lift (copy_into zOut 0 copy_len (slice name 0 copy_len));
  out ← st_lift (copy_into out copy_len (copy_len + 1) [0]);
  mret (SQLITE_OK, out).

(** The wait itself has no effect. *)
Definition heaven_sleep (microseconds : Z) : C Z :=
  _ ← with_vfs (mret tt);
  mret microseconds.

(** The code and [*pTime]. *)
Definition heaven_current_time_int64 (ms : Z) : C (Z * Z) :=
  _ ← with_vfs (mret tt);
  mret (SQLITE_OK, ms).

(** The Julian day as a double: [ms as f64 / 86_400_000.0]. *)
Definition heaven_current_time (ms : Z) : C (Z * Json.f64) :=
  _ ← with_vfs (mret tt);
  mret (SQLITE_OK, Json.f64_div (Json.f64_of_Z ms) (Json.f64_of_Z 86400000)).

Definition heaven_get_last_error (nBuf : Z) : C Z := mret SQLITE_OK.
End bridge.

(** ** What SQLite sees: files by name, and the open ones *)
Inductive call :=
| Open (name : list Z) (pFile flags : Z)
| Close (pFile : Z)
| Read (pFile : Z) (buf : list Z) (iAmt iOfst : Z)
| Write (pFile : Z) (buf : list Z) (iAmt iOfst : Z)
| Truncate (pFile size : Z)
| Sync (pFile : Z)
| FileSize (pFile : Z)
| Delete (name : list Z)
| Access (name : list Z).

(** The code, the memory written through a pointer. *)
Record result := mkR { code : Z; number : Z; memory : list Z }.

Section exec.
Context `{BlockDevice D}.
Definition just (m : st (cstate D) Empty_set Z) : st (cstate D) Empty_set result :=
  r ← m; mret (mkR r 0 []).
Definition with_number (m : st (cstate D) Empty_set (Z * Z)) : st (cstate D) Empty_set result :=
  r ← m; mret (mkR r.1 r.2 []).
Definition exec (k : call) : st (cstate D) Empty_set result :=
  match k with
  | Open name p flags => just (heaven_open (Some (name ++ [0])) p flags)
  | Close p => just (heaven_close p)
  | Read p buf n off => r ← heaven_read p buf n off; mret (mkR r.1 0 r.2)
  | Write p buf n off => just (heaven_write p buf n off)
  | Truncate p size => just (heaven_truncate p size)
  | Sync p => just (heaven_sync p)
  | FileSize p => with_number (heaven_file_size p)
  | Delete name => just (heaven_delete (Some (name ++ [0])))
  | Access name => with_number (heaven_access (Some (name ++ [0])))
  end.
End exec.

Record shelf := mkShelf { files : gmap (list Z) (list Z); fds : gmap Z (list Z) }.

(** What SQLite keeps to: names the table can hold, one handle per file,
    offsets and sizes the drive takes ([lim] its transfer limit, [bs] its
    block size), memory that is there. *)
Section contract.
Variables (lim bs : Z) (room : Z -> Prop).

Definition is_open (a : shelf) (name : list Z) : Prop := exists p, fds a !! p = Some name.

Definition io_lawful (a : shelf) (p : Z) (buf : list Z) (n off : Z) : Prop :=
  is_Some (fds a !! p) /\ 0 < n <= zlen buf /\ n < 2 ^ 31 /\ 0 <= off /\ off + n < 2 ^ 62 /\
  n + 2 * bs <= lim.

Definition lawful (a : shelf) (k : call) : Prop :=
  match k with
  | Open name p flags => name <> [] /\ FileTable.name_ok name /\ ~ is_open a name /\
      fds a !! p = None /\ room p
  | Close p | Sync p | FileSize p => is_Some (fds a !! p)
  | Read p buf n off => io_lawful a p buf n off
  | Write p buf n off => io_lawful a p buf n off /\ bytes_ok buf
  | Truncate p size => is_Some (fds a !! p) /\ 0 <= size < 2 ^ 63
  | Delete name => FileTable.name_ok name /\ ~ is_open a name
  | Access name => FileTable.name_ok name
  end.
End contract.

(** The answers [r] the interface allows to the call, with what it leaves.  A
    failed [xSync] promises nothing any more. *)
Inductive answers (a : shelf) : call -> result -> shelf -> Prop :=
| open_ok name p flags bytes :
    files a !! name = Some bytes \/
      files a !! name = None /\ Z.land flags 4 <> 0 /\ bytes = [] ->
    answers a (Open name p flags) (mkR SQLITE_OK 0 [])
      (mkShelf (<[name := bytes]> (files a)) (<[p := name]> (fds a)))
| open_missing name p flags :
    files a !! name = None -> Z.land flags 4 = 0 ->
    answers a (Open name p flags) (mkR SQLITE_CANTOPEN 0 []) a
| open_full name p flags :
    files a !! name = None -> Z.land flags 4 <> 0 ->
    answers a (Open name p flags) (mkR Vfs.SQLITE_FULL 0 []) a
| close_ok p :
    answers a (Close p) (mkR SQLITE_OK 0 []) (mkShelf (files a) (delete p (fds a)))
| read_some p buf n off name bytes c got :
    fds a !! p = Some name -> files a !! name = Some bytes ->
    Vfs.read_result bytes n off = (c, got) ->
    answers a (Read p buf n off) (mkR c 0 (splice buf 0 got)) a
| read_fails p buf n off c :
    c <> SQLITE_OK -> answers a (Read p buf n off) (mkR c 0 buf) a
| write_ok p buf n off name bytes bytes' :
    fds a !! p = Some name -> files a !! name = Some bytes ->
    zlen bytes' = Z.max (zlen bytes) (off + n) ->
    (off <= zlen bytes -> bytes' = splice bytes off (take (Z.to_nat n) buf)) ->
    answers a (Write p buf n off) (mkR SQLITE_OK 0 [])
      (mkShelf (<[name := bytes']> (files a)) (fds a))
| write_fails p buf n off name bytes' c :
    fds a !! p = Some name -> c <> SQLITE_OK ->
    answers a (Write p buf n off) (mkR c 0 []) (mkShelf (<[name := bytes']> (files a)) (fds a))
| truncate_ok p size name bytes :
    fds a !! p = Some name -> files a !! name = Some bytes ->
    answers a (Truncate p size) (mkR SQLITE_OK 0 [])
      (mkShelf (<[name := slice bytes 0 size]> (files a)) (fds a))
| sync_ok p : answers a (Sync p) (mkR SQLITE_OK 0 []) a
| size_ok p name bytes :
    fds a !! p = Some name -> files a !! name = Some bytes ->
    answers a (FileSize p) (mkR SQLITE_OK (zlen bytes) []) a
| delete_ok name :
    answers a (Delete name) (mkR SQLITE_OK 0 []) (mkShelf (delete name (files a)) (fds a))
| access_ok name :
    answers a (Access name)
      (mkR SQLITE_OK (if decide (is_Some (files a !! name)) then 1 else 0) []) a.

(** A history and what it can have left, from the shelf [a]. *)
Inductive accounts (a : shelf) : list (call * result) -> shelf -> Prop :=
| accounts_nil : accounts a [] a
| accounts_snoc h a1 k r a2 :
    accounts a h a1 -> answers a1 k r a2 -> accounts a (h ++ [(k, r)]) a2.

(** The same history made on the code. *)
Inductive drives `{BlockDevice D} (c : cstate D) : list (call * result) -> cstate D -> Prop :=
| drives_nil : drives c [] c
| drives_snoc h c1 k r c2 :
    drives c h c1 -> exec k c1 = (Ok r, c2) -> drives c (h ++ [(k, r)]) c2.

(** ** No operation on an open file renames anything, and errors are not 0 *)
Definition names (t : FileTable.FileTable) : list (list Z * Z) :=
  (fun e => (FileTable.name e, FileTable.flags e)) <$> FileTable.entries t.

Section errs.
Context {S : Type}.
(** [m] never reports success as an error. *)
Definition errs {A} (m : st S Z A) : Prop := forall s e s', m s = (Err e, s') -> e <> 0.

Lemma errs_ret {A} (a : A) : errs (mret a).
Proof. by intros s e s' [=]. Qed.
Lemma errs_bind {A B} (m : st S Z A) (k : A -> st S Z B) :
  errs m -> (forall a, errs (k a)) -> errs (m ≫= k).
Proof.
  intros Hm Hk s e s'. unfold mbind, st_bind. destruct (m s) as [[a|e1|] s1] eqn:Hr; [by apply Hk| |done].
  intros [= -> ->]. by eapply Hm.
Qed.
Lemma errs_lift {A} (x : out Z A) : (forall e, x <> Err e) -> errs (st_lift x).
Proof. intros Hx s e s' [= -> _]. by destruct (Hx e). Qed.
Lemma errs_map_err {E A} c (m : st S E A) : c <> 0 -> errs (st_map_err (fun _ => c) m).
Proof. intros Hc s e s'. unfold st_map_err. destruct (m s) as [[a|e1|] s1]; [done| |done]. by intros [= <- _]. Qed.
Lemma errs_fold {X A} (body : X -> A -> st S Z A) l a :
  (forall x a, errs (body x a)) -> errs (st_fold body l a).
Proof.
  intros Hb. revert a. induction l as [|x l IH]; intros a; [apply errs_ret|].
  cbn [st_fold]. by apply errs_bind.
Qed.
End errs.

Lemma index_range_not_err {A} (l : list A) a b (e : Z) : index_range l a b <> Err e.
Proof. unfold index_range. by destruct (_ && _). Qed.
Lemma copy_into_not_err {A} (l : list A) a b new (e : Z) : copy_into l a b new <> Err e.
Proof. unfold copy_into. by destruct (_ && _). Qed.
Lemma to_slice_not_err b dst off n (e : Z) : Dma.copy_to_slice b dst off n <> Err e.
Proof.
  unfold Dma.copy_to_slice. by destruct (_ <=? _).
Qed.
Lemma from_slice_not_err b src (e : Z) : Dma.copy_from_slice b src <> Err e.
Proof. unfold Dma.copy_from_slice. by destruct (_ <=? _). Qed.

Section keeps.
Context `{BlockDevice D}.

Lemma errs_dma {A} c size (body : DmaBuf -> st (hw D) Z A) :
  c <> 0 -> (forall b, errs (body b)) -> errs (with_dma (fun _ => c) size body).
Proof.
  intros Hc Hb w e w'. unfold with_dma. destruct (Dma.alloc size (pages w)) as [[b|e1|] p]; [| |done].
  - destruct (body b _) as [[a|e1|] w1] eqn:Hr; [| |done]; destruct (Dma.drop_buf b (pages w1)); try done.
    intros [= -> _]. by eapply Hb.
  - by intros [= <- _].
Qed.

Definition keeps {A} (m : st (Vfs.vfs D) Z A) : Prop := forall s r s',
  m s = (r, s') ->
  names (Vfs.file_table s') = names (Vfs.file_table s) /\ forall e, r = Err e -> e <> 0.

Lemma keeps_ret {A} (a : A) : keeps (mret a).
Proof. by intros s r s' [= <- <-]. Qed.
Lemma keeps_get : keeps st_get.
Proof. by intros s r s' [= <- <-]. Qed.
Lemma keeps_err {A} e : e <> 0 -> keeps (A:=A) (st_err e).
Proof. intros He s r s' [= <- <-]. split; [done|]. by intros ? [= <-]. Qed.
Lemma keeps_panic {A} : keeps (A:=A) st_panic.
Proof. by intros s r s' [= <- <-]. Qed.
Lemma keeps_bind {A B} (m : st (Vfs.vfs D) Z A) (k : A -> st (Vfs.vfs D) Z B) :
  keeps m -> (forall a, keeps (k a)) -> keeps (m ≫= k).
Proof.
  intros Hm Hk s r s'. unfold mbind, st_bind. destruct (m s) as [[a|e|] s1] eqn:Hr.
  - intros Hrun. destruct (Hm _ _ _ Hr) as [H1 _]. destruct (Hk a _ _ _ Hrun) as [H2 H3].
    split; [congruence|done].
  - intros [= <- <-]. destruct (Hm _ _ _ Hr) as [H1 H2]. split; [done|]. intros e' [= <-]. by apply H2.
  - intros [= <- <-]. split; [|done]. by destruct (Hm _ _ _ Hr).
Qed.
Lemma keeps_try {A} (m : st (Vfs.vfs D) Z A) : keeps m -> keeps (st_try m).
Proof.
  intros Hm s r s'. unfold st_try. destruct (m s) as [[a|e|] s1] eqn:Hr; intros [= <- <-];
    (split; [by destruct (Hm _ _ _ Hr)|done]).
Qed.
Lemma keeps_catch {A B} (m : st (Vfs.vfs D) Z A) (k : A + Z -> st (Vfs.vfs D) Z B) :
  keeps m -> (forall a, keeps (k (inl a))) -> (forall e, e <> 0 -> keeps (k (inr e))) ->
  keeps (st_try m ≫= k).
Proof.
  intros Hm Ha He s r s'. unfold mbind, st_bind, st_try. destruct (m s) as [[a|e|] s1] eqn:Hr;
    destruct (Hm _ _ _ Hr) as [H1 H2].
  - intros Hk. destruct (Ha a _ _ _ Hk) as [H3 H4]. split; [congruence|done].
  - intros Hk. destruct (He e (H2 e eq_refl) _ _ _ Hk) as [H3 H4]. split; [congruence|done].
  - by intros [= <- <-].
Qed.
Lemma keeps_nvme {A} none (m : st (hw D) Z A) : none <> 0 -> errs m -> keeps (Vfs.with_nvme none m).
Proof.
  intros Hn Hm s r s'. unfold Vfs.with_nvme. destruct (Vfs.nvme s) as [d|].
  - destruct (m _) as [r1 w] eqn:Hr. intros [= <- <-]. split; [done|]. intros e ->. by eapply Hm.
  - intros [= <- <-]. split; [done|]. by intros e [= <-].
Qed.
Lemma keeps_alloc n full : full <> 0 -> keeps (Vfs.alloc_blocks n full).
Proof.
  intros Hf s r s'. unfold Vfs.alloc_blocks.
  destruct (BlockAlloc.alloc _ _) as [[p|e|] a]; intros [= <- <-]; (split; [done|]); by intros ? [= <-].
Qed.
Lemma keeps_free a n : keeps (Vfs.free_blocks a n).
Proof.
  intros s r s'. unfold Vfs.free_blocks. destruct (BlockAlloc.free _ _ _) as [b|e|]; by intros [= <- <-].
Qed.
Lemma keeps_entry i f :
  (forall e, FileTable.name (f e) = FileTable.name e /\ FileTable.flags (f e) = FileTable.flags e) ->
  keeps (Vfs.get_mut i f).
Proof.
  intros Hf s r s'. unfold Vfs.get_mut, Vfs.on_table, FileTable.get_mut.
  destruct (i <? _)%nat; cbn [mbind out_bind]; [|by intros [= <- <-]].
  destruct (_ !! i) as [e|] eqn:He; cbn [or_panic mbind out_bind]; [|by intros [= <- <-]].
  intros [= <- <-]. split; [|done]. destruct (FileTable.is_in_use e); [|done].
  unfold names. cbn [Vfs.file_table Vfs.set_table FileTable.set_entries FileTable.entries].
  rewrite list_fmap_insert. apply list_insert_id. rewrite list_lookup_fmap, He. cbn.
  by destruct (Hf e) as [-> ->].
Qed.
End keeps.

(** Walks through the code of an operation. *)
Ltac codes :=
  repeat first
    [ progress intros
    | discriminate | eassumption
    | by split
    | apply errs_ret | apply errs_map_err | apply errs_dma | apply errs_fold | apply errs_bind
    | apply errs_lift
    | apply index_range_not_err | apply copy_into_not_err | apply to_slice_not_err | apply from_slice_not_err
    | apply keeps_ret | apply keeps_get | apply keeps_err | apply keeps_panic | apply keeps_try
    | apply keeps_nvme | apply keeps_alloc | apply keeps_free | apply keeps_entry | apply keeps_catch | apply keeps_bind
    | match goal with
      | |- errs (if ?b then _ else _) => destruct b
      | |- keeps (if ?b then _ else _) => destruct b
      | |- errs (match ?x with _ => _ end) => destruct x
      | |- keeps (match ?x with _ => _ end) => destruct x
      end ].

Section ops.
Context `{BlockDevice D}.
Lemma keeps_read f buf off : keeps (Vfs.read (D:=D) f buf off).
Proof. unfold Vfs.read. codes. Qed.
Lemma keeps_write f bytes off : keeps (Vfs.write (D:=D) f bytes off).
Proof. unfold Vfs.write, Vfs.grow, Vfs.write_range, Vfs.copy_blocks, st_range. codes; done. Qed.
Lemma keeps_close f : keeps (Vfs.close (D:=D) f).
Proof. unfold Vfs.close. codes. Qed.
Lemma keeps_truncate f size : keeps (Vfs.truncate (D:=D) f size).
Proof. unfold Vfs.truncate. codes. Qed.
End ops.

(** ** The shelf a state of the code shows *)
Section refine.
Context `{BlockDeviceSpec D}.
Variables (lim bs : Z) (room : Z -> Prop).
Hypothesis bs_small : 16 * bs < 2 ^ 63.
Implicit Types (s : Vfs.vfs D) (d : D) (a : shelf) (m : gmap Z HeavenSqliteFile).

Notation vf := heaven_file_to_vfs_file.
Notation lookup_name s := (FileTable.lookup (Vfs.file_table s)).

(** What an open file has to do with its name. *)
Definition opened s d m a (p : Z) (name : list Z) : Prop := exists f e,
  m !! p = Some f /\ Vfs.handle_ok s (vf f) /\
  lookup_name s name = Some (file_table_index f, e) /\
  files a !! name = Some (Vfs.file_bytes d (vf f)).

Record view s d m a : Prop := {
  v_inv : Vfs.inv s d;
  v_lim : io_limit d = lim;
  v_bs : Vfs.bsz s = bs;
  v_room : forall p, room p -> is_Some (m !! p);
  v_missing : forall name, lookup_name s name = None -> files a !! name = None;
  v_closed : forall name i e, lookup_name s name = Some (i, e) -> ~ is_open a name ->
    files a !! name = Some (slice (Vfs.file_region s d e) 0 (FileTable.byte_length e));
  v_open : forall p name, fds a !! p = Some name -> opened s d m a p name;
  v_once : forall p q name, fds a !! p = Some name -> fds a !! q = Some name -> p = q;
}.

Definition related (c : cstate D) (a : shelf) : Prop :=
  exists s d, vfs_instance c = Some s /\ view s d (structs c) a.

(** *** Names and slots *)
Lemma slot_named s d name i e :
  Vfs.inv s d -> lookup_name s name = Some (i, e) -> Vfs.file_at s i e /\ FileTable.name_bytes e = name.
Proof. intros Hi Hl. apply FileTable.lookup_Some in Hl as (He & Hu & Hn); [|apply Hi]. done. Qed.

Lemma slot_name s d n1 n2 i e1 e2 :
  Vfs.inv s d -> lookup_name s n1 = Some (i, e1) -> lookup_name s n2 = Some (i, e2) -> n1 = n2.
Proof.
  intros Hi H1 H2. destruct (slot_named s d _ _ _ Hi H1) as [[He1 _] <-], (slot_named s d _ _ _ Hi H2) as [[He2 _] <-].
  congruence.
Qed.

Lemma names_None t t' n :
  names t' = names t -> FileTable.lookup t n = None -> FileTable.lookup t' n = None.
Proof.
  unfold FileTable.lookup, names. intros Hn. rewrite !list_find_None, !Forall_forall. intros Hno e He [Hu Hnm].
  apply list_elem_of_lookup in He as [i He].
  assert ((fun e => (FileTable.name e, FileTable.flags e)) <$> FileTable.entries t !! i =
    Some (FileTable.name e, FileTable.flags e)) as Hi by (by rewrite <- list_lookup_fmap, <- Hn, list_lookup_fmap, He).
  destruct (FileTable.entries t !! i) as [e0|] eqn:He0; [|done]. cbn in Hi. injection Hi as Hi1 Hi2.
  apply (Hno e0); [by eapply list_elem_of_lookup_2|]. split.
  - unfold FileTable.is_in_use in *. by rewrite Hi2.
  - unfold FileTable.name_bytes in *. by rewrite Hi1.
Qed.

(** An operation on the file in slot [i] leaves the other names alone. *)
Lemma lookups_kept s d s' d' name i e n :
  Vfs.inv s d -> Vfs.inv s' d' -> lookup_name s name = Some (i, e) ->
  Vfs.untouched (fun j => j <> i) s d s' d' ->
  names (Vfs.file_table s') = names (Vfs.file_table s) -> n <> name ->
  lookup_name s' n = lookup_name s n.
Proof.
  intros Hi Hi' Hl (_ & _ & Hu) Hn Hne. destruct (lookup_name s n) as [[j e2]|] eqn:Hl2.
  - destruct (slot_named s d _ _ _ Hi Hl2) as [Hat Hnm].
    destruct (Hu j e2) as [[Hat2 Huse] _]; [|done|].
    { cbn. intros ->. apply Hne. exact (slot_name s d _ _ _ _ _ Hi Hl2 Hl). }
    apply FileTable.lookup_Some; [apply (Vfs.inv_table _ _ Hi')|]. done.
  - by eapply names_None.
Qed.

Lemma bytes_of_region s d f e :
  Vfs.inv s d -> Vfs.handle_ok s f -> Vfs.file_at s (Vfs.file_table_index f) e ->
  Vfs.file_bytes d f = slice (Vfs.file_region s d e) 0 (Vfs.byte_length f).
Proof.
  intros Hi (e0 & [He0 Hu0] & Hs & Hc & Hb & Hl) [He Hu]. assert (e0 = e) as -> by congruence.
  pose proof (Vfs.inv_geometry s d Hi) as (_ & Hb2 & _ & _ & _ & _ & Hds & _).
  destruct (Vfs.inv_owns _ _ Hi _ e (conj He Hu)) as (Ho1 & _). rewrite Hc in Hl.
  unfold Vfs.file_bytes, Vfs.file_region. rewrite Hs, Hb. apply slice_prefix; [|lia].
  apply Z.mul_nonneg_nonneg; lia.
Qed.

(** *** What a step leaves of the other files *)
Lemma others_kept s d m a s' d' m' name i :
  view s d m a -> Vfs.inv s' d' -> Vfs.untouched (fun j => j <> i) s d s' d' ->
  (forall n, n <> name -> lookup_name s' n = lookup_name s n) ->
  (forall n e, n <> name -> lookup_name s n <> Some (i, e)) ->
  (forall q n, n <> name -> fds a !! q = Some n -> m' !! q = m !! q) ->
  forall n, n <> name ->
    (lookup_name s' n = None -> files a !! n = None) /\
    (forall j e, lookup_name s' n = Some (j, e) -> ~ is_open a n ->
       files a !! n = Some (slice (Vfs.file_region s' d' e) 0 (FileTable.byte_length e))) /\
    (forall q, fds a !! q = Some n -> opened s' d' m' a q n).
Proof.
  intros [Hi Hlim Hbs Hroom Hmis Hcl Hop Honce] Hi' Hu Hlk Hslot Hm n Hn. rewrite (Hlk n Hn).
  split; [apply Hmis|]. split.
  - intros j e Hl Ho. rewrite (Hcl n j e Hl Ho). f_equal. f_equal. symmetry.
    destruct Hu as (_ & _ & Hu). apply (Hu j e).
    + intros ->. by apply (Hslot n e Hn).
    + by destruct (slot_named s d n j e Hi Hl).
  - intros q Hq. destruct (Hop q n Hq) as (f & e & Hf & Hok & Hl & Hb).
    assert (file_table_index f <> i) as Hfi by (intros <-; by apply (Hslot n e Hn)).
    destruct (slot_named s d n _ e Hi Hl) as [Hat _].
    assert (Vfs.handle_ok s' (vf f)) as Hok' by (eapply VfsSpec.handle_untouched; [exact Hu|exact Hfi|done]).
    exists f, e. split; [by rewrite (Hm q n Hn Hq)|]. split; [done|]. split; [by rewrite (Hlk n Hn)|].
    rewrite Hb. f_equal. destruct Hu as (_ & _ & Hu). destruct (Hu _ e Hfi Hat) as [Hat' Hreg].
    rewrite (bytes_of_region s d (vf f) e Hi Hok Hat), (bytes_of_region s' d' (vf f) e Hi' Hok' Hat').
    by rewrite Hreg.
Qed.

(** An operation on the open file [name], which then holds what its new handle
    shows. *)
Lemma view_update s d m a p name f s' d' f' :
  view s d m a -> fds a !! p = Some name -> m !! p = Some f ->
  Vfs.step_ok s d (file_table_index f) s' d' ->
  names (Vfs.file_table s') = names (Vfs.file_table s) ->
  Vfs.handle_ok s' (vf f') -> file_table_index f' = file_table_index f ->
  view s' d' (<[p := f']> m) (mkShelf (<[name := Vfs.file_bytes d' (vf f')]> (files a)) (fds a)).
Proof.
  intros Hv Hp Hf (Hi' & Hk & Hu) Hnm Hok' Hidx. pose proof Hv as [Hi Hlim Hbs Hroom Hmis Hcl Hop Honce].
  destruct (Hop p name Hp) as (f0 & e & Hf0 & Hok & Hl & Hb). assert (f0 = f) as -> by congruence.
  assert (forall n, n <> name -> lookup_name s' n = lookup_name s n) as Hlk
    by (intros n Hn; by eapply (lookups_kept s d s' d' name)).
  assert (forall n e', n <> name -> lookup_name s n <> Some (file_table_index f, e')) as Hslot.
  { intros n e' Hn Hl'. apply Hn. exact (slot_name s d _ _ _ _ _ Hi Hl' Hl). }
  pose proof (others_kept s d m a s' d' (<[p := f']> m) name _ Hv Hi' Hu Hlk Hslot
    ltac:(intros q n Hn Hq; rewrite lookup_insert_ne; [done|congruence])) as Hoth.
  destruct Hok' as (e' & Hat' & Hrest).
  assert (lookup_name s' name = Some (file_table_index f', e')) as Hl'.
  { apply FileTable.lookup_Some; [apply (Vfs.inv_table _ _ Hi')|]. destruct Hat' as [He' Hu'].
    split; [done|]. split; [done|]. cbn [heaven_file_to_vfs_file Vfs.file_table_index] in He'.
    destruct (slot_named s d name _ e Hi Hl) as [[He _] Hne]. rewrite <- Hne.
    assert ((fun e => (FileTable.name e, FileTable.flags e)) <$> FileTable.entries (Vfs.file_table s') !! file_table_index f =
      (fun e => (FileTable.name e, FileTable.flags e)) <$> FileTable.entries (Vfs.file_table s) !! file_table_index f) as Heq
      by (unfold names in Hnm; rewrite <- !list_lookup_fmap, Hnm; done).
    rewrite <- Hidx, He' in Heq. rewrite Hidx in Heq. rewrite He in Heq. cbn in Heq. injection Heq as H1 H2.
    unfold FileTable.name_bytes. by rewrite H1. }
  constructor; cbn [files fds].
  - done.
  - destruct Hk as (_ & _ & _ & Hk & _). congruence.
  - destruct Hu as (_ & Hb' & _). congruence.
  - intros q Hq. destruct (decide (p = q)) as [<-|Hne]; [rewrite lookup_insert_eq; by eexists|].
    rewrite lookup_insert_ne by done. by apply Hroom.
  - intros n Hln. destruct (decide (n = name)) as [->|Hn]; [congruence|].
    rewrite lookup_insert_ne by done. apply (Hoth n Hn), Hln.
  - intros n j e2 Hln Ho. destruct (decide (n = name)) as [->|Hn].
    { destruct Ho. by exists p. }
    rewrite lookup_insert_ne by done. eapply (Hoth n Hn); done.
  - intros q n Hq. destruct (decide (n = name)) as [->|Hn].
    + rewrite (Honce q p name Hq Hp). exists f', e'. split; [by rewrite lookup_insert_eq|].
      split; [by exists e'|]. split; [done|]. cbn [files]. by rewrite lookup_insert_eq.
    + destruct (Hoth n Hn) as (_ & _ & Hq').
      destruct (Hq' q Hq) as (g & e2 & H1 & H2 & H3 & H4). exists g, e2. split; [done|]. split; [done|].
      split; [done|]. cbn. by rewrite lookup_insert_ne.
  - exact Honce.
Qed.

(** Only the device has moved. *)
Lemma view_same s d m a s' : view s d m a -> Vfs.same_state s s' d -> exists d', view s' d' m a.
Proof.
  intros Hv (d' & -> & Hk & Hc). pose proof Hv as [Hi Hlim Hbs Hroom Hmis Hcl Hop Honce].
  exists d'. assert (Vfs.same_state s (Vfs.mkVfs (Some d') (Vfs.pool s) (Vfs.allocator s) (Vfs.file_table s)) d) as Hs
    by (by exists d').
  destruct (Vfs.same_state_inv s _ d Hi Hs) as (d2 & Heq & Hi' & _). injection Heq as <-.
  constructor; try done.
  - destruct Hk as (_ & _ & _ & Hk & _). congruence.
  - intros n i e Hl Ho. rewrite (Hcl n i e Hl Ho). unfold Vfs.file_region. by rewrite Hc.
  - intros p n Hp. destruct (Hop p n Hp) as (f & e & H1 & H2 & H3 & H4). exists f, e.
    split; [done|]. split; [exact H2|]. split; [done|]. rewrite H4. unfold Vfs.file_bytes. by rewrite Hc.
Qed.

Lemma view_close s d m a p name f s' :
  view s d m a -> fds a !! p = Some name -> m !! p = Some f ->
  Vfs.step_ok s d (file_table_index f) s' d -> names (Vfs.file_table s') = names (Vfs.file_table s) ->
  Vfs.handle_ok s' (vf f) ->
  (exists e, Vfs.file_at s' (file_table_index f) e /\ FileTable.byte_length e = byte_length f) ->
  view s' d m (mkShelf (files a) (base.delete p (fds a))).
Proof.
  intros Hv Hp Hf Hst Hnm Hok (e' & Hat' & Hlen).
  pose proof (view_update s d m a p name f s' d f Hv Hp Hf Hst Hnm Hok eq_refl) as [Hi Hlim Hbs Hroom Hmis Hcl Hop Honce].
  cbn [files fds] in *. rewrite (insert_id m p f Hf) in *.
  assert (<[name := Vfs.file_bytes d (vf f)]> (files a) = files a) as Hfid.
  { apply insert_id. destruct (v_open _ _ _ _ Hv p name Hp) as (f0 & e & Hf0 & _ & _ & Hb). congruence. }
  rewrite Hfid in *. destruct (Hop p name Hp) as (f0 & e0 & Hf0 & Hok0 & Hl0 & Hb0).
  assert (f0 = f) as -> by congruence. destruct (slot_named s' d name _ e0 Hi Hl0) as [[He0 _] _].
  assert (e0 = e') as -> by (destruct Hat'; congruence).
  constructor; cbn [files fds]; try done.
  - intros n i e Hl Ho. destruct (decide (n = name)) as [->|Hn].
    + rewrite Hl in Hl0. injection Hl0 as -> ->. cbn [files] in Hb0. rewrite Hb0. f_equal. rewrite Hlen.
      by apply bytes_of_region.
    + apply (Hcl n i e Hl). intros [q Hq]. apply Ho. exists q. cbn [fds] in *.
      rewrite lookup_delete_ne; [done|]. intros ->. congruence.
  - intros q n Hq. apply lookup_delete_Some in Hq as [_ Hq]. by apply Hop.
  - intros q r n Hq Hr. apply lookup_delete_Some in Hq as [_ Hq], Hr as [_ Hr]. by apply (Honce q r n).
Qed.

Lemma view_open_file s d m a p name hf s' :
  view s d m a -> ~ is_open a name -> fds a !! p = None -> Vfs.inv s' d -> Vfs.handle_ok s' hf ->
  (exists e, lookup_name s' name = Some (Vfs.file_table_index hf, e)) ->
  Vfs.untouched (fun j => j <> Vfs.file_table_index hf) s d s' d ->
  (forall n, n <> name -> lookup_name s' n = lookup_name s n) ->
  view s' d (<[p := mkCFile true (Vfs.file_table_index hf) (Vfs.start_lba hf) (Vfs.block_count hf)
                      (Vfs.byte_length hf) (Vfs.block_size hf)]> m)
    (mkShelf (<[name := Vfs.file_bytes d hf]> (files a)) (<[p := name]> (fds a))).
Proof.
  intros Hv Hno Hp Hi' Hok [e Hl] Hu Hlk. pose proof Hv as [Hi Hlim Hbs Hroom Hmis Hcl Hop Honce].
  set (f := mkCFile _ _ _ _ _ _). assert (vf f = hf) as Hvf by (by destruct hf).
  assert (forall n e', n <> name -> lookup_name s n <> Some (Vfs.file_table_index hf, e')) as Hslot.
  { intros n e' Hn Hl'. rewrite <- (Hlk n Hn) in Hl'. apply Hn. exact (slot_name s' d _ _ _ _ _ Hi' Hl' Hl). }
  pose proof (others_kept s d m a s' d (<[p := f]> m) name _ Hv Hi' Hu Hlk Hslot
    ltac:(intros q n Hn Hq; rewrite lookup_insert_ne; [done|congruence])) as Hoth.
  constructor; cbn [files fds].
  - done.
  - done.
  - destruct Hu as (_ & Hb & _). congruence.
  - intros q Hq. destruct (decide (p = q)) as [<-|Hne]; [rewrite lookup_insert_eq; by eexists|].
    rewrite lookup_insert_ne by done. by apply Hroom.
  - intros n Hln. destruct (decide (n = name)) as [->|Hn]; [congruence|].
    rewrite lookup_insert_ne by done. by apply (Hoth n Hn).
  - intros n j e2 Hln Ho. destruct (decide (n = name)) as [->|Hn].
    { destruct Ho. exists p. cbn. by rewrite lookup_insert_eq. }
    rewrite lookup_insert_ne by done. eapply (Hoth n Hn); [done|]. intros [q Hq]. apply Ho. exists q.
    cbn. rewrite lookup_insert_ne; [done|]. congruence.
  - intros q n Hq. destruct (decide (p = q)) as [<-|Hne].
    + rewrite lookup_insert_eq in Hq. injection Hq as <-. exists f, e. split; [by rewrite lookup_insert_eq|].
      rewrite Hvf. split; [done|]. split; [done|]. cbn [files]. by rewrite lookup_insert_eq.
    + rewrite lookup_insert_ne in Hq by done. assert (n <> name) as Hn by (intros ->; apply Hno; by exists q).
      destruct (Hoth n Hn) as (_ & _ & Hq'). destruct (Hq' q Hq) as (g & e2 & H1 & H2 & H3 & H4).
      exists g, e2. split; [done|]. split; [done|]. split; [done|]. cbn. by rewrite lookup_insert_ne.
  - intros q r n Hq Hr. destruct (decide (p = q)) as [<-|Hnq], (decide (p = r)) as [<-|Hnr]; try done.
    + rewrite lookup_insert_eq in Hq. rewrite lookup_insert_ne in Hr by done. injection Hq as <-.
      destruct Hno. by exists r.
    + rewrite lookup_insert_eq in Hr. rewrite lookup_insert_ne in Hq by done. injection Hr as <-.
      destruct Hno. by exists q.
    + rewrite lookup_insert_ne in Hq, Hr by done. by apply (Honce q r n).
Qed.

Lemma view_delete s d m a name i e s' :
  view s d m a -> ~ is_open a name -> Vfs.inv s' d -> lookup_name s name = Some (i, e) ->
  lookup_name s' name = None ->
  Vfs.untouched (fun j => j <> i) s d s' d ->
  (forall n, n <> name -> lookup_name s' n = lookup_name s n) ->
  view s' d m (mkShelf (base.delete name (files a)) (fds a)).
Proof.
  intros Hv Hno Hi' Hl Hl' Hu Hlk. pose proof Hv as [Hi Hlim Hbs Hroom Hmis Hcl Hop Honce].
  assert (forall n e', n <> name -> lookup_name s n <> Some (i, e')) as Hslot.
  { intros n e' Hn Hl2. apply Hn. exact (slot_name s d _ _ _ _ _ Hi Hl2 Hl). }
  pose proof (others_kept s d m a s' d m name _ Hv Hi' Hu Hlk Hslot (fun _ _ _ _ => eq_refl)) as Hoth.
  constructor; cbn [files fds]; try done.
  - destruct Hu as (_ & Hb & _). congruence.
  - intros n Hln. destruct (decide (n = name)) as [->|Hn]; [by rewrite lookup_delete_eq|].
    rewrite lookup_delete_ne by done. by apply (Hoth n Hn).
  - intros n j e2 Hln Ho. destruct (decide (n = name)) as [->|Hn]; [congruence|].
    rewrite lookup_delete_ne by done. by eapply (Hoth n Hn).
  - intros q n Hq. assert (n <> name) as Hn by (intros ->; apply Hno; by exists q).
    destruct (Hoth n Hn) as (_ & _ & Hq'). destruct (Hq' q Hq) as (g & e2 & H1 & H2 & H3 & H4).
    exists g, e2. split; [done|]. split; [done|]. split; [done|]. cbn. by rewrite lookup_delete_ne.
Qed.

(** *** Each call *)
Definition sim (c : cstate D) (a : shelf) (k : call) : Prop :=
  wp (exec k)
    (fun r c' => ((exists p, k = Sync p) -> code r = SQLITE_OK) ->
       exists a', answers a k r a' /\ related c' a')
    (fun _ _ => False) c.

Lemma wp_with_vfs {A} (f : st (Vfs.vfs D) Z A) (Q : A + Z -> cstate D -> Prop) (X : Empty_set -> cstate D -> Prop) s m :
  wp f (fun x s' => Q (inl x) (mkC (Some s') m)) (fun e s' => Q (inr e) (mkC (Some s') m)) s ->
  wp (with_vfs f) Q X (mkC (Some s) m).
Proof. unfold wp, with_vfs, st_try. cbn [vfs_instance structs]. by destruct (f s) as [[x|e|] s']. Qed.

Lemma wp_get_file p f s m (Q : HeavenSqliteFile -> cstate D -> Prop) (X : Empty_set -> cstate D -> Prop) :
  m !! p = Some f -> Q f (mkC (Some s) m) -> wp (get_file p) Q X (mkC (Some s) m).
Proof. intros Hf HQ. unfold wp, get_file. cbn [structs]. by rewrite Hf. Qed.

Lemma wp_put_file p f s m (Q : unit -> cstate D -> Prop) (X : Empty_set -> cstate D -> Prop) :
  Q tt (mkC (Some s) (<[p := f]> m)) -> wp (put_file p f) Q X (mkC (Some s) m).
Proof. done. Qed.

(** An operation keeps the names, and its errors are not 0. *)
Lemma wp_keeps {A} (f : st (Vfs.vfs D) Z A) (Q : A -> Vfs.vfs D -> Prop) (X : Z -> Vfs.vfs D -> Prop) s :
  keeps f -> wp f Q X s ->
  wp f (fun x s' => Q x s' /\ names (Vfs.file_table s') = names (Vfs.file_table s))
    (fun e s' => X e s' /\ names (Vfs.file_table s') = names (Vfs.file_table s) /\ e <> 0) s.
Proof.
  unfold wp. intros Hk. destruct (f s) as [[x|e|] s'] eqn:Hr; destruct (Hk _ _ _ Hr) as [H1 H2]; try done.
  intros HX. split; [done|]. split; [done|]. by apply H2.
Qed.

Lemma until_nul_name {E} name : 0 ∉ name -> until_nul (E:=E) (name ++ [0]) = Ok name.
Proof.
  induction name as [|b name IH]; intros Hn; [done|]. cbn [app until_nul].
  rewrite not_elem_of_cons in Hn. destruct Hn as [Hb Hn].
  destruct (Z.eqb_spec b 0); [by subst|]. by rewrite IH.
Qed.

Lemma cstr_name {E} name : FileTable.name_ok name -> cstr_to_bytes (E:=E) (Some (name ++ [0])) = Ok name.
Proof. intros (_ & _ & Hn). by apply until_nul_name. Qed.

Lemma mk_related s d m a : view s d m a -> related (mkC (Some s) m) a.
Proof. intros Hv. by exists s, d. Qed.

Lemma sim_open s d m a name p flags :
  view s d m a -> lawful lim bs room a (Open name p flags) -> sim (mkC (Some s) m) a (Open name p flags).
Proof.
  intros Hv (Hne & Hname & Hno & Hp & Hroom). pose proof Hv as [Hi Hlim Hbs Hrm Hmis Hcl Hop Honce].
  unfold sim, exec, just, heaven_open. apply wp_bind, wp_bind.
  eapply wp_lift; [by apply cstr_name|]. rewrite bool_decide_false by done.
  apply wp_bind, wp_with_vfs.
  eapply wp_mono; [apply (VfsSpec.open_ok s d name flags Hi Hname); by rewrite Hbs| |].
  - intros hf s' (Hi' & _ & Hok & (e & Hl & Hlen) & Hu & Hcase & Hlk).
    destruct (Hrm p Hroom) as [f0 Hf0]. apply wp_bind. eapply wp_get_file; [exact Hf0|].
    apply wp_bind, wp_put_file, wp_ret, wp_ret. intros _.
    pose proof (view_open_file s d m a p name hf s' Hv Hno Hp Hi' Hok (ex_intro _ e Hl) Hu Hlk) as Hv'.
    eexists. split; [|eapply mk_related, Hv'].
    apply open_ok. destruct (lookup_name s name) as [[i e0]|] eqn:Hl0.
    + left. subst s'. rewrite Hl0 in Hl. injection Hl as -> ->.
      destruct (slot_named s d name _ e Hi Hl0) as [Hat _].
      rewrite (Hcl name _ e Hl0 Hno), <- Hlen. f_equal. symmetry. by apply bytes_of_region.
    + right. destruct Hcase as (Hfl & Hz & _). split; [by apply Hmis|]. split; [exact Hfl|].
      unfold Vfs.file_bytes. rewrite Hz. by apply slice_nil.
  - intros code s' (Hi' & _ & Hu & Hft & Hl & Hcode). apply wp_ret, wp_ret. intros _. exists a.
    assert (view s' d m a) as Hv'.
    { constructor; rewrite ?Hft; try done.
      - destruct Hu as (_ & Hb & _). congruence.
      - intros n i e Hln Ho. rewrite (Hcl n i e Hln Ho). do 2 f_equal.
        destruct (slot_named s d n i e Hi Hln) as [Hat _]. destruct Hu as (_ & _ & Hu).
        symmetry. by apply (Hu i e I).
      - intros q n Hq. destruct (Hop q n Hq) as (f & e & H1 & H2 & H3 & H4). exists f, e.
        split; [done|]. assert (Vfs.handle_ok s' (vf f)) as Hok' by (eapply VfsSpec.handle_untouched; [exact Hu|done|done]).
        split; [done|]. split; [by rewrite Hft|done]. }
    split; [|by eapply mk_related].
    destruct Hcode as [(-> & -> & Hfl)|[-> Hfl]]; [apply open_missing|apply open_full]; auto.
Qed.

Lemma sim_close s d m a p :
  view s d m a -> lawful lim bs room a (Close p) -> sim (mkC (Some s) m) a (Close p).
Proof.
  intros Hv [name Hp]. destruct (v_open _ _ _ _ Hv p name Hp) as (f & e & Hf & Hok & Hl & Hb).
  unfold sim, exec, just, heaven_close. apply wp_bind, wp_bind. eapply wp_get_file; [exact Hf|].
  apply wp_bind, wp_with_vfs. pose proof (v_inv _ _ _ _ Hv) as Hi.
  eapply wp_mono; [apply wp_keeps; [apply keeps_close|by apply (VfsSpec.close_ok s d)]| |].
  - intros [] s' [(Hst & _ & Hok' & Hent) Hnm]. apply wp_ret, wp_ret. intros _.
    eexists. split; [apply close_ok|]. apply (mk_related s' d). by eapply view_close.
  - by intros ? ? [? _].
Qed.

Lemma wp_io_slice {E} (buf : list Z) n (Q : list Z -> cstate D -> Prop) (X : E -> cstate D -> Prop) c :
  0 < n <= zlen buf -> n < 2 ^ 31 -> Q (take (Z.to_nat n) buf) c ->
  wp (st_lift (index_range buf 0 (wrap64 n))) Q X c.
Proof.
  intros Hn Hn2 HQ. rewrite wrap64_small by lia. unfold index_range.
  rewrite (proj2 (Z.leb_le 0 n)), (proj2 (Z.leb_le n (zlen buf))) by lia. cbn [andb].
  rewrite Z.sub_0_r. unfold slice. rewrite drop_0. by apply wp_ret.
Qed.

Lemma sim_read s d m a p buf n off :
  view s d m a -> lawful lim bs room a (Read p buf n off) -> sim (mkC (Some s) m) a (Read p buf n off).
Proof.
  intros Hv ([name Hp] & Hn & Hn2 & Hoff & Hov & Hio).
  destruct (v_open _ _ _ _ Hv p name Hp) as (f & e & Hf & Hok & Hl & Hb).
  unfold sim, exec, heaven_read. apply wp_bind, wp_bind. eapply wp_get_file; [exact Hf|].
  apply wp_bind, wp_io_slice; [done|done|]. apply wp_bind, wp_with_vfs.
  set (part := take (Z.to_nat n) buf). assert (zlen part = n) as Hpart by (unfold part, zlen in *; rewrite length_take; lia).
  rewrite wrap64_small by lia. pose proof Hv as [Hi Hlim Hbs _ _ _ _ _].
  eapply wp_mono; [apply wp_keeps; [apply keeps_read|apply (Vfs.read_ok s d (vf f) part off)]; rewrite ?Hpart, ?Hlim, ?Hbs; done || lia| |].
  - intros [c got] s' [(Hs & Hr) _]. apply wp_ret, wp_ret. intros _. exists a.
    rewrite Hpart in Hr. split; [by eapply read_some|].
    destruct (view_same s d m a s' Hv Hs) as [d' Hv']. by eapply mk_related.
  - intros code s' (Hs & _ & Hc). apply wp_ret, wp_ret. intros _. exists a. split; [by apply read_fails|].
    destruct (view_same s d m a s' Hv Hs) as [d' Hv']. by eapply mk_related.
Qed.

Lemma zlen_file_bytes s d f :
  Vfs.inv s d -> Vfs.handle_ok s f -> zlen (Vfs.file_bytes d f) = Vfs.byte_length f.
Proof.
  intros Hi Hok. pose proof (Vfs.handle_range s d f Hi Hok) as (Hr1 & _ & _ & Hr4 & Hr5 & Hr6 & _).
  pose proof (Vfs.inv_geometry s d Hi) as (_ & Hb2 & _ & _ & _ & _ & Hds & _).
  assert (0 <= Vfs.start_lba f * Vfs.bsz s) by (apply Z.mul_nonneg_nonneg; lia).
  unfold Vfs.file_bytes. rewrite Hr5, zlen_slice; lia.
Qed.

Lemma write_back_ok (f : HeavenSqliteFile) (h : Vfs.HeavenFile) s :
  Vfs.handle_ok s h -> Vfs.file_table_index h = file_table_index f -> block_size f = Vfs.bsz s ->
  vf (write_back f h) = h.
Proof. intros (_ & _ & _ & _ & Hb & _) Hi Hbs. destruct h. cbn in *. unfold vf. cbn. congruence. Qed.

Lemma handle_bs s f : Vfs.handle_ok s (vf f) -> block_size f = Vfs.bsz s.
Proof. by intros (_ & _ & _ & _ & Hb & _). Qed.

Lemma sim_write s d m a p buf n off :
  view s d m a -> lawful lim bs room a (Write p buf n off) -> sim (mkC (Some s) m) a (Write p buf n off).
Proof.
  intros Hv (([name Hp] & Hn & Hn2 & Hoff & Hov & Hio) & Hby).
  destruct (v_open _ _ _ _ Hv p name Hp) as (f & e & Hf & Hok & Hl & Hb).
  unfold sim, exec, just, heaven_write. apply wp_bind, wp_bind. eapply wp_get_file; [exact Hf|].
  apply wp_bind, wp_io_slice; [done|done|]. apply wp_bind, wp_with_vfs.
  set (part := take (Z.to_nat n) buf). assert (zlen part = n) as Hpart by (unfold part, zlen in *; rewrite length_take; lia).
  rewrite wrap64_small by lia. pose proof Hv as [Hi Hlim Hbs _ _ _ _ _].
  assert (bytes_ok part) as Hbp by (by apply Forall_take).
  eapply wp_mono; [apply wp_keeps; [apply keeps_write|apply (Vfs.write_ok s d (vf f) part off)]; rewrite ?Hpart, ?Hlim, ?Hbs; done || lia| |].
  - intros [c f'] s' [(d' & Hst & Hok' & Hidx & Hsucc) Hnm]. apply wp_bind, wp_put_file, wp_ret, wp_ret. intros _.
    assert (vf (write_back f f') = f') as Hwb.
    { eapply write_back_ok; [done|done|]. destruct Hst as (_ & _ & _ & Hb' & _). rewrite Hb'. by apply handle_bs. }
    pose proof (view_update s d m a p name f s' d' (write_back f f') Hv Hp Hf Hst Hnm) as Hv'.
    rewrite Hwb in Hv'. specialize (Hv' Hok' eq_refl). eexists. split; [|eapply mk_related, Hv'].
    destruct (decide (c = SQLITE_OK)) as [->|Hc]; [|by apply write_fails].
    destruct (Hsucc eq_refl) as [Hlen Hspl]. rewrite Hpart in Hlen.
    pose proof (zlen_file_bytes s d (vf f)) as Hz. pose proof (zlen_file_bytes s' d' f') as Hz'.
    destruct Hst as (Hi' & _). rewrite <- Hz in Hlen, Hspl by done. rewrite <- Hz' in Hlen by done.
    by eapply write_ok.
  - intros c s' ((d' & Hi' & Hk & Hu & Hok') & Hnm & Hc). apply wp_bind, wp_put_file, wp_ret, wp_ret. intros _.
    assert (vf (write_back f (vf f)) = vf f) as Hwb by (eapply write_back_ok; [exact Hok|done|by apply handle_bs]).
    assert (Vfs.step_ok s d (file_table_index f) s' d') as Hst.
    { split; [done|]. split; [done|]. destruct Hu as (H1 & H2 & H3). split; [done|]. split; [done|]. intros j y _. by apply H3. }
    pose proof (view_update s d m a p name f s' d' (write_back f (vf f)) Hv Hp Hf Hst Hnm) as Hv'.
    rewrite Hwb in Hv'. specialize (Hv' Hok' eq_refl). eexists. split; [|eapply mk_related, Hv'].
    by apply write_fails.
Qed.

Lemma sim_truncate s d m a p size :
  view s d m a -> lawful lim bs room a (Truncate p size) -> sim (mkC (Some s) m) a (Truncate p size).
Proof.
  intros Hv ([name Hp] & Hsz). destruct (v_open _ _ _ _ Hv p name Hp) as (f & e & Hf & Hok & Hl & Hb).
  unfold sim, exec, just, heaven_truncate. apply wp_bind, wp_bind. eapply wp_get_file; [exact Hf|].
  apply wp_bind, wp_with_vfs. rewrite wrap64_small by lia. pose proof (v_inv _ _ _ _ Hv) as Hi.
  eapply wp_mono; [apply wp_keeps; [apply keeps_truncate|by apply (VfsSpec.truncate_ok s d)]| |by intros ? ? [? _]].
  intros f' s' [(Hst & _ & Hok' & Hidx & _ & _ & Hbytes) Hnm]. apply wp_bind, wp_put_file, wp_ret, wp_ret. intros _.
  assert (vf (write_back f f') = f') as Hwb.
  { eapply write_back_ok; [done|done|]. destruct Hst as (_ & _ & _ & Hb' & _). rewrite Hb'. by apply handle_bs. }
  pose proof (view_update s d m a p name f s' d (write_back f f') Hv Hp Hf Hst Hnm) as Hv'.
  rewrite Hwb in Hv'. specialize (Hv' Hok' eq_refl). eexists. split; [|eapply mk_related, Hv'].
  rewrite Hbytes. by eapply truncate_ok.
Qed.

Lemma sim_sync s d m a p :
  view s d m a -> lawful lim bs room a (Sync p) -> sim (mkC (Some s) m) a (Sync p).
Proof.
  intros Hv [name Hp]. destruct (v_open _ _ _ _ Hv p name Hp) as (f & e & Hf & Hok & Hl & Hb).
  unfold sim, exec, just, heaven_sync. apply wp_bind, wp_bind. eapply wp_get_file; [exact Hf|].
  apply wp_bind, wp_with_vfs. pose proof (v_inv _ _ _ _ Hv) as Hi.
  eapply wp_mono; [by apply (VfsSpec.sync_ok s d)| |].
  - intros [] s' (d' & Hi' & Hk & _ & _ & Hu & (e' & Hat & Het) & Hok' & Hbytes). apply wp_ret, wp_ret. intros _.
    destruct Hu as (H1 & H2 & H3).
    assert (Vfs.step_ok s d (file_table_index f) s' d') as Hst.
    { split; [done|]. split; [done|]. split; [exact H1|]. split; [exact H2|]. intros j y Hj Hy.
      destruct (H3 j y I Hy) as [Hy' Hr]. split; [|exact Hr]. destruct Hy as [Hy Hyu]. split; [|done].
      rewrite Het. by rewrite list_lookup_insert_ne. }
    assert (names (Vfs.file_table s') = names (Vfs.file_table s)) as Hnm.
    { unfold names. rewrite Het, list_fmap_insert. apply list_insert_id. rewrite list_lookup_fmap.
      destruct Hat as [Hat _]. by rewrite Hat. }
    pose proof (view_update s d m a p name f s' d' f Hv Hp Hf Hst Hnm Hok' eq_refl) as Hv'.
    rewrite (insert_id m p f Hf), Hbytes, insert_id in Hv' by done. exists a. split; [apply sync_ok|].
    destruct a. by eapply mk_related.
  - intros c s' ->. apply wp_ret, wp_ret. cbn. intros Hc. exfalso. by specialize (Hc (ex_intro _ p eq_refl)).
Qed.

Lemma sim_size s d m a p :
  view s d m a -> lawful lim bs room a (FileSize p) -> sim (mkC (Some s) m) a (FileSize p).
Proof.
  intros Hv [name Hp]. destruct (v_open _ _ _ _ Hv p name Hp) as (f & e & Hf & Hok & Hl & Hb).
  unfold sim, exec, with_number, heaven_file_size. apply wp_bind, wp_bind. eapply wp_get_file; [exact Hf|].
  apply wp_bind, wp_with_vfs, wp_ret, wp_ret, wp_ret. intros _. exists a.
  split; [|by eapply mk_related]. cbn [fst snd]. pose proof (v_inv _ _ _ _ Hv) as Hi.
  assert (wrap_i64 (Vfs.file_size (vf f)) = zlen (Vfs.file_bytes d (vf f))) as ->; [|by eapply size_ok].
  rewrite (zlen_file_bytes s) by done. unfold Vfs.file_size, wrap_i64.
  pose proof (Vfs.handle_range s d (vf f) Hi Hok) as (Hr1 & Hr2 & Hr3 & Hr4 & Hr5 & Hr6 & _).
  pose proof (Vfs.inv_geometry s d Hi) as (_ & Hb2 & _ & Hz & Hz2 & _ & Hds & _).
  assert (0 <= Vfs.start_lba (vf f) * Vfs.bsz s) by (apply Z.mul_nonneg_nonneg; lia).
  rewrite Z.mod_small; lia.
Qed.

Lemma sim_delete s d m a name :
  view s d m a -> lawful lim bs room a (Delete name) -> sim (mkC (Some s) m) a (Delete name).
Proof.
  intros Hv [Hname Hno]. unfold sim, exec, just, heaven_delete. apply wp_bind, wp_bind.
  eapply wp_lift; [by apply cstr_name|]. apply wp_bind, wp_with_vfs.
  eapply wp_mono; [apply (VfsSpec.vfs_delete_ok s d name), Hv| |done].
  intros [] s' (Hi' & Hnone & Hoth & _ & _ & _ & Hcase). apply wp_ret, wp_ret. intros _.
  eexists. split; [apply delete_ok|].
  destruct (lookup_name s name) as [[i e]|] eqn:Hl.
  - destruct Hcase as [Hu _]. eapply mk_related. by eapply view_delete.
  - subst s'. pose proof (v_missing _ _ _ _ Hv name Hl) as Hf.
    rewrite delete_id by done. destruct a. by eapply mk_related.
Qed.

Lemma sim_access s d m a name :
  view s d m a -> lawful lim bs room a (Access name) -> sim (mkC (Some s) m) a (Access name).
Proof.
  intros Hv Hname. unfold sim, exec, with_number, heaven_access. apply wp_bind, wp_bind.
  eapply wp_lift; [by apply cstr_name|]. apply wp_bind, wp_with_vfs, wp_bind, wp_get, wp_ret, wp_ret, wp_ret. intros _.
  exists a. split; [|by eapply mk_related]. cbn [fst snd].
  assert (Vfs.access name s = bool_decide (is_Some (files a !! name))) as ->.
  { unfold Vfs.access. apply bool_decide_ext. pose proof Hv as [Hi _ _ _ Hmis Hcl Hop _].
    destruct (lookup_name s name) as [[i e]|] eqn:Hl.
    - split; [intros _|by eexists]. destruct (files a !! name) eqn:Hf; [by eexists|].
      rewrite (Hcl name i e Hl) in Hf; [done|]. intros [p Hp].
      destruct (Hop p name Hp) as (f & e' & _ & _ & _ & Hf'). congruence.
    - rewrite (Hmis name Hl). split; by intros [? ?]. }
  replace (match bool_decide (is_Some (files a !! name)) with true => 1 | _ => 0 end)
    with (if decide (is_Some (files a !! name)) then 1 else 0) by (by destruct (decide _); [rewrite bool_decide_true|rewrite bool_decide_false]).
  apply access_ok.
Qed.

Lemma simulates c a k : related c a -> lawful lim bs room a k -> sim c a k.
Proof.
  intros (s & d & Hs & Hv) Hk. destruct c as [inst m]. cbn [vfs_instance structs] in *. subst inst.
  destruct k; [by eapply sim_open|by eapply sim_close|by eapply sim_read|by eapply sim_write|
    by eapply sim_truncate|by eapply sim_sync|by eapply sim_size|by eapply sim_delete|by eapply sim_access].
Qed.

(** SQLite keeps to the contract as far as the answers so far let it know, and
    stops at a failed [xSync]. *)
Definition careful (a0 : shelf) (h : list (call * result)) : Prop := forall h1 k r h2,
  h = h1 ++ (k, r) :: h2 ->
  (forall a, accounts a0 h1 a -> lawful lim bs room a k) /\
  ((exists p, k = Sync p) -> code r = SQLITE_OK).

Lemma careful_init a0 h x : careful a0 (h ++ [x]) -> careful a0 h.
Proof. intros Hc h1 k r h2 ->. apply (Hc h1 k r (h2 ++ [x])). by rewrite <- app_assoc. Qed.

Lemma drives_accounted c0 a0 h c :
  related c0 a0 -> drives c0 h c -> careful a0 h -> exists a, accounts a0 h a /\ related c a.
Proof.
  intros Hr0 Hd. induction Hd as [|h c1 k r c2 Hd IH Hx]; intros Hc; [exists a0; split; [constructor|done]|].
  destruct (IH (careful_init a0 h _ Hc)) as (a1 & Ha1 & Hr1).
  destruct (Hc h k r [] eq_refl) as [Hlaw Hsync].
  destruct (wp_eq _ _ _ _ _ (simulates c1 a1 k Hr1 (Hlaw a1 Ha1)) Hx Hsync) as (a2 & Ha2 & Hr2).
  exists a2. split; [by eapply accounts_snoc|done].
Qed.
End refine.

Definition empty_shelf : shelf := mkShelf ∅ ∅.

Section property.
Context `{BlockDeviceSpec D}.

Lemma formatted_related d d0 total p mem :
  dev_ok d -> Phys.wf p -> total = dev_total_blocks d -> 2 <= total ->
  4096 <= dev_block_size d <= io_limit d -> dev_block_size d mod 8 = 0 ->
  zlen (contents d0) = zlen (contents d) -> dev_block_size d0 = dev_block_size d ->
  contents d = splice (contents d0) 0 (BlockAlloc.fmt_bytes total (dev_block_size d)) ->
  related (io_limit d) (dev_block_size d) (fun q => is_Some (mem !! q))
    (mkC (Some (Vfs.mkVfs (Some d) p (BlockAlloc.fmt_alloc total (dev_block_size d))
      (FileTable.new (BlockAlloc.fmt_data_start total (dev_block_size d) - 1) (dev_block_size d)))) mem)
    empty_shelf.
Proof.
  intros Hd Hp Htot Ht Hsz Hm Hz Hb Hc. eexists _, d. split; [done|].
  assert (forall n, FileTable.lookup (FileTable.new (BlockAlloc.fmt_data_start total (dev_block_size d) - 1)
    (dev_block_size d)) n = None) as Hno by (intros n; apply FileTable.lookup_new).
  constructor; cbn [Vfs.file_table files fds empty_shelf structs]; try done.
  by apply (VfsSpec.fmt_inv d d0).
Qed.

(** C3. SQLite's calls see a shelf of files.  From a freshly formatted device,
    for every history of [xOpen], [xClose], [xRead], [xWrite], [xTruncate],
    [xSync], [xFileSize], [xDelete] and [xAccess] that keeps to SQLite's side
    of the contract, the codes, sizes and bytes returned are those of a map
    from names to contents: reads return what was written, across alignment,
    growth and relocation, closing and reopening, and whatever is done to the
    other files; a call that fails leaves every other file as it was.  After
    any such history the next lawful call returns (no panic). *)
Theorem bridge_refines_files d d0 total p mem h c :
  dev_ok d -> Phys.wf p -> total = dev_total_blocks d -> 2 <= total ->
  4096 <= dev_block_size d <= io_limit d -> dev_block_size d mod 8 = 0 -> 16 * dev_block_size d < 2 ^ 63 ->
  zlen (contents d0) = zlen (contents d) -> dev_block_size d0 = dev_block_size d ->
  contents d = splice (contents d0) 0 (BlockAlloc.fmt_bytes total (dev_block_size d)) ->
  let room := fun q => is_Some (mem !! q) in
  drives (mkC (Some (Vfs.mkVfs (Some d) p (BlockAlloc.fmt_alloc total (dev_block_size d))
      (FileTable.new (BlockAlloc.fmt_data_start total (dev_block_size d) - 1) (dev_block_size d)))) mem) h c ->
  careful (io_limit d) (dev_block_size d) room empty_shelf h ->
  (exists a, accounts empty_shelf h a) /\
  forall k, (forall a, accounts empty_shelf h a -> lawful (io_limit d) (dev_block_size d) room a k) ->
    exists r c', exec k c = (Ok r, c').
Proof.
  intros Hd Hp Htot Ht Hsz Hm H16 Hz Hb Hc room Hdr Hca.
  destruct (drives_accounted _ _ _ H16 _ _ h c (formatted_related d d0 total p mem Hd Hp Htot Ht Hsz Hm Hz Hb Hc) Hdr Hca)
    as (a & Ha & Hr).
  split; [by exists a|]. intros k Hk. pose proof (simulates _ _ _ H16 c a k Hr (Hk a Ha)) as Hs.
  unfold sim, wp in Hs. destruct (exec k c) as [[r|e|] c']; [by exists r, c'|destruct e|done].
Qed.
End property.

(** A formatted RAM disk, one file structure at address 1, and the calls that
    create a file and write to it. *)
Definition sample_mem : gmap Z HeavenSqliteFile := {[1 := mkCFile false 0 0 0 0 0]}.
Definition sample : cstate RamDisk.RamDisk := mkC (Some VfsSpec.fresh) sample_mem.
Definition sample_open : call := Open FileTable.main_db 1 4.

Lemma sample_drives : drives sample [(sample_open, mkR 0 0 [])] (snd (exec sample_open sample)).
Proof.
  apply (drives_snoc _ [] sample sample_open (mkR 0 0 [])); [constructor|].
  assert (fst (exec sample_open sample) = Ok (mkR 0 0 [])) as Hf by (vm_compute; exact eq_refl).
  destruct (exec sample_open sample). cbn [fst] in Hf. by subst.
Qed.

Lemma bridge_refines_files_witness :
  drives sample [(sample_open, mkR 0 0 [])] (snd (exec sample_open sample)) /\
  (exists a, accounts empty_shelf [(sample_open, mkR 0 0 [])] a) /\
  forall k, (forall a, accounts empty_shelf [(sample_open, mkR 0 0 [])] a ->
      lawful (io_limit VfsSpec.disk) (dev_block_size VfsSpec.disk) (fun q => is_Some (sample_mem !! q)) a k) ->
    exists r c', exec k (snd (exec sample_open sample)) = (Ok r, c').
Proof.
  split; [exact sample_drives|].
  apply (bridge_refines_files VfsSpec.disk VfsSpec.disk0 40 Phys.demo sample_mem
    [(sample_open, mkR 0 0 [])] (snd (exec sample_open sample)));
    [apply VfsSpec.disk_ok|exact Phys.demo_wf|exact eq_refl|lia|vm_compute; split; congruence|
     vm_compute; exact eq_refl|vm_compute; exact eq_refl|apply VfsSpec.disk_ok|exact eq_refl|exact eq_refl|
     exact sample_drives|].
  intros h1 k r h2 Heq. destruct h1 as [|x [|]]; [|discriminate Heq..]. injection Heq as <- <- <-.
  split; [|intros [? ?]; discriminate].
  intros a Ha. remember [] as h eqn:Hh. destruct Ha as [|h' ? ? ? ? ? ?]; [|by destruct h'].
  split; [discriminate|]. split; [exact FileTable.main_db_ok|]. split; [by intros [? ?]|].
  split; [exact eq_refl|]. eexists. exact eq_refl.
Defined.
End Bridge.
