(* ===== verification/SqliteInit.v ===== *)
(** * Opening the database ([sqlite/mod.rs])

    [sqlite::init]: the sequence that configures the library, installs and
    registers the VFS, opens the database and creates its two tables. *)
From S2P Require Import Prelude.
From S2P Require Import Bytes.
From S2P Require Import Fmt.
From S2P Require Import Block.
From S2P Require Import Vfs.
From S2P Require Import VfsSpec.
From S2P Require Import Json.
From S2P Require Import Sqlite.
From S2P Require Import Bridge.

Module SqliteInit.

(** The library's configuration calls, each with its return code. *)
Class Library (W : Type) := {
  heaven_configure_malloc : W -> Z * W;
  sqlite3_initialize : W -> Z * W;
  sqlite3_vfs_register : W -> Z * W;
}.

(** The library, the bridge's statics, and the static [DB]. *)
Record world (W D : Type) := mkWorld { engine : W; bridge : Bridge.cstate D; DB : option Z }.
Arguments mkWorld {W D} engine bridge DB.
Arguments engine {W D} w.
Arguments bridge {W D} w.
Arguments DB {W D} w.

Section init.
Context {W D : Type} `{Sqlite.Engine W} `{!Library W} `{BlockDevice D}.
Abbreviation I A := (st (world W D) (list Z) A).

Definition on_engine {A} (m : st W (list Z) A) : I A :=
  st_zoom engine (fun e w => mkWorld e (bridge w) (DB w)) m.
Definition rc_of (f : W -> Z * W) : I Z := on_engine (fun e => let '(rc, e') := f e in (Ok rc, e')).
(** The handle of an early return is dropped: the connection is closed. *)
Definition or_close {A} (db : Z) (m : I A) : I A := fun w =>
  match m w with
  | (Err e, w') => (Err e, mkWorld (if negb (db =? 0) then Sqlite.sqlite3_close db (engine w') else engine w') (bridge w') (DB w'))
  | r => r
  end.

Definition namespace_table : list Z := str "CREATE TABLE IF NOT EXISTS namespace (path    TEXT PRIMARY KEY, type    TEXT NOT NULL CHECK(type IN ('data','lua','dir','config','ctl','log')), content BLOB, mode    INTEGER DEFAULT 420, mtime   INTEGER DEFAULT (strftime('%s','now')))".
Definition audit_table : list Z := str "CREATE TABLE IF NOT EXISTS audit (id      INTEGER PRIMARY KEY AUTOINCREMENT, ts      INTEGER DEFAULT (strftime('%s','now')), level   TEXT DEFAULT 'INFO', agent   TEXT, action  TEXT, target  TEXT, detail  TEXT)".

Definition install (vfs : Vfs.vfs D) : I unit := fun w => (Ok tt, mkWorld (engine w) (Bridge.set_vfs_instance vfs (bridge w)) (DB w)).
Definition store (db : Z) : I unit := fun w => (Ok tt, mkWorld (engine w) (bridge w) (Some db)).
Definition init (vfs : Vfs.vfs D) : I unit :=
  rc ← rc_of heaven_configure_malloc;
  if negb (rc =? 0) then st_err (str "heaven_configure_malloc failed: " ++ Sqlite.dec_i64 rc) else
  _ ← install vfs;
  rc ← rc_of sqlite3_initialize;
  if negb (rc =? 0) then st_err (str "sqlite3_initialize failed: " ++ Sqlite.dec_i64 rc) else
  rc ← rc_of sqlite3_vfs_register;
  match Bridge.register_vfs rc with
  | inr e => st_err e
  | inl _ =>
      db ← on_engine (Sqlite.open (str "heaven.db"));
      _ ← or_close db (on_engine (Sqlite.exec db namespace_table));
      _ ← or_close db (on_engine (Sqlite.exec db audit_table));
      store db
  end.
End init.

(** The connections of the library, as its manual describes them: opening may
    give a handle even when it fails, and that handle is to be closed. *)
Class Connections (W : Type) `{Sqlite.Engine W} `{!Library W} := {
  connections : W -> gset Z;
  configure_law w : connections (snd (heaven_configure_malloc w)) = connections w;
  initialize_law w : connections (snd (sqlite3_initialize w)) = connections w;
  register_law w : connections (snd (sqlite3_vfs_register w)) = connections w;
  open_law name flags v w : let '((rc, db), w') := Sqlite.sqlite3_open_v2 name flags v w in
    (rc = Sqlite.SQLITE_OK -> db <> 0) /\
    if db =? 0 then connections w' = connections w
    else db ∉ connections w /\ connections w' = {[ db ]} ∪ connections w;
  close_law db w : connections (Sqlite.sqlite3_close db w) = connections w ∖ {[ db ]};
  exec_law db sql w : connections (snd (Sqlite.sqlite3_exec db sql w)) = connections w;
  free_law p w : connections (Sqlite.sqlite3_free p w) = connections w;
}.

Section init_ok.
Context {W D : Type} `{HE : Sqlite.Engine W} {HL : Library W} {HC : Connections W} `{BlockDevice D}.
Abbreviation conns w := (connections (engine w)).

(** A call that opens and closes nothing, and does not touch the statics. *)
Definition still {A} (m : st (world W D) (list Z) A) : Prop := forall w,
  let '(r, w') := m w in r <> Panic /\ conns w' = conns w /\ DB w' = DB w /\ Bridge.vfs_instance (bridge w') = Bridge.vfs_instance (bridge w).

Lemma still_rc f : (forall e, connections (snd (f e)) = connections e) -> still (rc_of f).
Proof. intros Hf w. unfold rc_of, on_engine, st_zoom. pose proof (Hf (engine w)) as Hw. by destruct (f (engine w)). Qed.

Lemma still_exec db sql : still (on_engine (Sqlite.exec db sql)).
Proof.
  intros w. unfold on_engine, st_zoom, Sqlite.exec, mbind, st_bind, Sqlite.call. pose proof (exec_law db (Sqlite.c_text (sql ++ [0])) (engine w)) as Hx.
  destruct (Sqlite.sqlite3_exec db _ (engine w)) as [[rc errmsg] e]. cbn [snd] in Hx. destruct (negb (rc =? _)); [|done].
  destruct (negb (errmsg =? 0)); cbn [Sqlite.cstr_to_string Sqlite.look Sqlite.errmsg_string].
  - unfold Sqlite.cstr_to_string, Sqlite.look, mret, st_ret, st_err. cbn [engine DB bridge]. by rewrite free_law.
  - unfold Sqlite.errmsg_string, Sqlite.look, Sqlite.cstr_to_string, mbind, st_bind, mret, st_ret. by destruct (Sqlite.sqlite3_errmsg db e =? 0).
Qed.

(** The statics are kept. *)
Definition kept (w w' : world W D) : Prop := DB w' = DB w /\ Bridge.vfs_instance (bridge w') = Bridge.vfs_instance (bridge w).

Lemma added (db : Z) (X : gset Z) : db ∉ X -> ({[db]} ∪ X) ∖ {[db]} = X.
Proof. set_solver. Qed.

Lemma open_db_ok name w :
  match on_engine (Sqlite.open name) w with
  | (Ok db, w') => db <> 0 /\ db ∉ conns w /\ conns w' = {[ db ]} ∪ conns w /\ kept w w'
  | (Err _, w') => conns w' = conns w /\ kept w w'
  | (Panic, _) => False
  end.
Proof.
  unfold on_engine, st_zoom, Sqlite.open, mbind, st_bind, Sqlite.call.
  pose proof (open_law (Sqlite.c_text (name ++ [0])) (Z.lor Sqlite.SQLITE_OPEN_READWRITE Sqlite.SQLITE_OPEN_CREATE) (str "heaven") (engine w)) as Hopen.
  destruct (Sqlite.sqlite3_open_v2 _ _ _ _) as [[rc db] e]. destruct Hopen as [Hok Hconn].
  destruct (Z.eqb_spec rc Sqlite.SQLITE_OK) as [Hrc|Hrc]; cbn [negb].
  - specialize (Hok Hrc). rewrite (proj2 (Z.eqb_neq db 0)) in Hconn by done. by destruct Hconn.
  - destruct (Z.eqb_spec db 0) as [Hz|Hz]; cbn [negb]; [done|]. destruct Hconn as [Hnew Hconn].
    unfold Sqlite.errmsg_string, Sqlite.cstr_to_string, Sqlite.look, mbind, st_bind, mret, st_ret, st_err. cbn [engine DB bridge].
    destruct (Sqlite.sqlite3_errmsg db e =? 0); cbn [engine DB bridge]; rewrite close_law, Hconn, added by done; done.
Qed.

(** A statement on the new connection: on failure it is closed. *)
Lemma exec_or_close db sql w : db <> 0 ->
  match or_close db (on_engine (Sqlite.exec db sql)) w with
  | (Ok _, w') => conns w' = conns w /\ kept w w'
  | (Err _, w') => conns w' = conns w ∖ {[ db ]} /\ kept w w'
  | (Panic, _) => False
  end.
Proof.
  intros Hdb. unfold or_close. pose proof (still_exec db sql w) as Hs.
  destruct (on_engine _ w) as [[u|e|] w']; destruct Hs as (Hp & Hc & Hd & Hv); [done| |done].
  unfold kept. cbn [engine DB bridge]. rewrite (proj2 (Z.eqb_neq db 0)) by done. cbn [negb]. by rewrite close_law, Hc.
Qed.

Definition outcome (vfs : Vfs.vfs D) (w : world W D) (r : out (list Z) unit * world W D) : Prop :=
  match r with
  | (Ok _, w') => exists db, db <> 0 /\ db ∉ conns w /\ DB w' = Some db /\ conns w' = {[ db ]} ∪ conns w /\
      Bridge.vfs_instance (bridge w') = Some (default vfs (Bridge.vfs_instance (bridge w)))
  | (Err _, w') => DB w' = DB w /\ conns w' = conns w
  | (Panic, _) => False
  end.

(** [init] opens one connection or none.  Whatever each call of the library
    returns, [init] comes back; when it succeeds there is exactly one more
    connection, which is the one in [DB], and the VFS is installed, unless one
    already was; when it fails, [DB] is as before and every handle the library
    gave has been closed. *)
Theorem sqlite_init_connects (vfs : Vfs.vfs D) w : outcome vfs w (init vfs w).
Proof.
  unfold init. pose proof (still_rc heaven_configure_malloc configure_law w) as H1. unfold mbind at 1, st_bind at 1.
  destruct (rc_of heaven_configure_malloc w) as [[rc|e|] w1]; destruct H1 as (Hp1 & Hc1 & Hd1 & Hv1); [|done..].
  destruct (negb (rc =? 0)); [done|]. unfold mbind at 1, st_bind at 1, install.
  set (w2 := mkWorld _ _ _). pose proof (still_rc sqlite3_initialize initialize_law w2) as H3. unfold mbind at 1, st_bind at 1.
  destruct (rc_of sqlite3_initialize w2) as [[rc3|e|] w3]; destruct H3 as (Hp3 & Hc3 & Hd3 & Hv3); cbn [w2 engine DB bridge] in *;
    [|split; congruence|done]. destruct (negb (rc3 =? 0)); [split; cbn; congruence|].
  pose proof (still_rc sqlite3_vfs_register register_law w3) as H4. unfold mbind at 1, st_bind at 1.
  destruct (rc_of sqlite3_vfs_register w3) as [[rc4|e|] w4]; destruct H4 as (Hp4 & Hc4 & Hd4 & Hv4); [|split; congruence|done].
  destruct (Bridge.register_vfs rc4) as [_|msg]; [|split; cbn; congruence].
  unfold kept in *. pose proof (open_db_ok (str "heaven.db") w4) as Hopen. unfold mbind at 1, st_bind at 1.
  destruct (on_engine (Sqlite.open (str "heaven.db")) w4) as [[db|e|] w5]; [|destruct Hopen as (Hc & Hd & _); split; congruence|done].
  destruct Hopen as (Hdb & Hnew & Hc5 & Hd5 & Hv5).
  assert (conns w4 = conns w) as Hw4 by congruence. rewrite Hw4 in Hnew, Hc5.
  unfold mbind at 1, st_bind at 1. pose proof (exec_or_close db namespace_table w5 Hdb) as H6.
  destruct (or_close db (on_engine (Sqlite.exec db namespace_table)) w5) as [[u|e|] w6]; [|destruct H6 as (Hc & Hd & _); split; [congruence|by rewrite Hc, Hc5, added]|done].
  destruct H6 as (Hc6 & Hd6 & Hv6).
  unfold mbind at 1, st_bind at 1. pose proof (exec_or_close db audit_table w6 Hdb) as H7.
  destruct (or_close db (on_engine (Sqlite.exec db audit_table)) w6) as [[u'|e|] w7]; [|destruct H7 as (Hc & Hd & _); split; [congruence|by rewrite Hc, Hc6, Hc5, added]|done].
  destruct H7 as (Hc7 & Hd7 & Hv7). unfold store, outcome. cbn [engine DB bridge]. exists db. split_and!; [done|done|done|congruence|].
  rewrite Hv7, Hv6, Hv5, Hv4, Hv3. unfold Bridge.set_vfs_instance. cbn [Bridge.vfs_instance]. rewrite Hv1. by destruct (Bridge.vfs_instance (bridge w)).
Qed.
End init_ok.

(** A library with a connection already open, whose second table fails. *)
Module Small.
#[export] Instance engine_small : Sqlite.Engine (gset Z) := {|
  Sqlite.sqlite3_open_v2 := fun _ _ _ w => let db := 1 + fresh w in
    if bool_decide (db = 0) || bool_decide (db ∈ w) then ((14, 0), w) else ((0, db), {[ db ]} ∪ w);
  Sqlite.sqlite3_close := fun db w => w ∖ {[ db ]};
  Sqlite.sqlite3_exec := fun _ sql w => (if bool_decide (sql = namespace_table) then (0, 0) else (1, 0), w);
  Sqlite.sqlite3_errmsg := fun _ _ => 0; Sqlite.sqlite3_free := fun _ w => w;
  Sqlite.sqlite3_prepare_v2 := fun _ _ w => ((1, 0), w); Sqlite.sqlite3_step := fun _ w => (101, w);
  Sqlite.sqlite3_column_count := fun _ _ => 0; Sqlite.sqlite3_column_name := fun _ _ _ => 0;
  Sqlite.sqlite3_column_type := fun _ _ _ => 5; Sqlite.sqlite3_column_int64 := fun _ _ _ => 0;
  Sqlite.sqlite3_column_double := fun _ _ _ => Json.f64_of_Z 0; Sqlite.sqlite3_column_text := fun _ _ w => (0, w);
  Sqlite.sqlite3_finalize := fun _ w => w; Sqlite.bytes_at := fun _ _ => [0] |}.
#[export] Instance library_small : Library (gset Z) := {|
  heaven_configure_malloc := fun w => (0, w); sqlite3_initialize := fun w => (0, w); sqlite3_vfs_register := fun w => (0, w) |}.
#[export] Instance connections_small : Connections (gset Z).
Proof.
  refine {| connections := fun w => w |}; try done.
  intros name flags v w. cbn. destruct (bool_decide_reflect (1 + fresh w = 0)), (bool_decide_reflect (1 + fresh w ∈ w)); cbn; try done.
  split; [done|]. by rewrite (proj2 (Z.eqb_neq _ _)).
Defined.

Definition before : world (gset Z) RamDisk.RamDisk := mkWorld {[ 5 ]} (Bridge.mkC None ∅) None.

Lemma sqlite_init_connects_witness : exists e w',
  init VfsSpec.fresh before = (Err e, w') /\ DB w' = None /\ connections (engine w') = {[ 5 ]}.
Proof.
  pose proof (sqlite_init_connects VfsSpec.fresh before) as H.
  assert (exists e, fst (init VfsSpec.fresh before) = Err e) as [e He] by (eexists; vm_compute; reflexivity).
  destruct (init VfsSpec.fresh before) as [r w']. cbn [fst] in He. subst r. exists e, w'. by destruct H.
Defined.
End Small.
End SqliteInit.
