(* ===== verification/Line.v ===== *)
(** * Serial console and line editor ([arch/x86_64/serial.rs], [shell/line.rs])

    The console is what the port shows: the answers to the successive polls
    of its data-ready bit, each with the byte that is read when one is there,
    and the bytes sent so far.  [Terminal] is one row of the screen those
    bytes go to; the theorem says what it shows while a line is typed. *)
From S2P Require Import Prelude.
From S2P Require Import Bytes.
From S2P Require Import Utf8.

Module Line.

(** ** The port *)
Record console := mkCon { polls : list (option Z); sent : list Z }.

(** A read at the end of the script waits for ever; [OutOfFuel] is the bound
    of the model's own loop. *)
Inductive stop := Waiting | OutOfFuel.

Definition write_byte (b : Z) : st console stop unit := fun c => (Ok tt, mkCon (polls c) (sent c ++ [b])).

(** [write_str_raw]: a carriage return before every line feed. *)
Definition write_str_raw (s : list Z) : st console stop unit :=
  st_for (fun b => _ ← (if b =? 10 then write_byte 13 else mret tt); write_byte b) s.

Fixpoint next_byte (l : list (option Z)) : option (Z * list (option Z)) :=
  match l with
  | [] => None
  | Some b :: l => Some (b, l)
  | None :: l => next_byte l
  end.

Definition read_byte : st console stop Z := fun c =>
  match next_byte (polls c) with
  | Some (b, l) => (Ok b, mkCon l (sent c))
  | None => (Err Waiting, mkCon [] (sent c))
  end.

(** [for _ in 0..iters { if let Some(b) = try_read_byte() { return Some(b) } }]. *)
Fixpoint spin_polls (iters : Z) (l : list (option Z)) : option (option Z * list (option Z)) :=
  if iters <=? 0 then Some (None, l)
  else
    match l with
    | [] => None
    | Some b :: l => Some (Some b, l)
    | None :: l => spin_polls (iters - 1) l
    end.

Definition spin_try_read (timeout_iters : Z) : st console stop (option Z) := fun c =>
  match spin_polls timeout_iters (polls c) with
  | Some (r, l) => (Ok r, mkCon l (sent c))
  | None => (Err Waiting, mkCon [] (sent c))
  end.

(** ** The editor *)
Definition MAX_LINE : Z := 256.
Definition SPINS : Z := 500000.

Record LineEditor := mkEd { buf : list Z; len : Z }.

Definition new : LineEditor := mkEd (replicate (Z.to_nat MAX_LINE) 0) 0.

(** [self.buf[i]], [self.buf[i] = b] and [&self.buf[..n]]. *)
Definition buf_get (ed : LineEditor) (i : Z) : st console stop Z := st_lift (or_panic (buf ed !! Z.to_nat i)).
Definition buf_set (ed : LineEditor) (i b : Z) : st console stop (list Z) :=
  if i <? zlen (buf ed) then mret (<[Z.to_nat i := b]> (buf ed)) else st_panic.
Definition buf_upto (ed : LineEditor) (n : Z) : st console stop (list Z) :=
  if n <=? zlen (buf ed) then mret (take (Z.to_nat n) (buf ed)) else st_panic.

Definition erase_line (ed : LineEditor) : st console stop unit :=
  _ ← st_for (fun _ => write_byte 8) (seqZ 0 (len ed));
  _ ← st_for (fun _ => write_byte 32) (seqZ 0 (len ed));
  st_for (fun _ => write_byte 8) (seqZ 0 (len ed)).

Definition redraw (ed : LineEditor) : st console stop unit :=
  st_for (fun i => b ← buf_get ed i; write_byte b) (seqZ 0 (len ed)).

(** [c.is_ascii_alphabetic() || c == b'~']. *)
Definition csi_final (c : Z) : bool :=
  ((65 <=? c) && (c <=? 90)) || ((97 <=? c) && (c <=? 122)) || (c =? 126).

(** The parameters of a control sequence, at most [n] bytes. *)
Fixpoint skip_csi (n : nat) : st console stop unit :=
  match n with
  | O => mret tt
  | S n =>
      r ← spin_try_read SPINS;
      match r with
      | Some c => if csi_final c then mret tt else skip_csi n
      | None => mret tt
      end
  end.

Definition skip_escape : st console stop unit :=
  maybe_bracket ← spin_try_read SPINS;
  if bool_decide (maybe_bracket = Some 91) then skip_csi 8 else mret tt.

(** One turn of the loop: the editor after it, and the value returned when
    the line ends. *)
Definition on_byte (ed : LineEditor) (byte : Z) : st console stop (LineEditor * option (option (list Z))) :=
  if (byte =? 13) || (byte =? 10) then
    _ ← write_byte 13;
    _ ← write_byte 10;
    s ← buf_upto ed (len ed);
    mret (ed, Some (Some (if Utf8.is_utf8 s then s else [])))
  else if byte =? 3 then
    _ ← write_byte 94; _ ← write_byte 67; _ ← write_byte 13; _ ← write_byte 10;
    mret (mkEd (buf ed) 0, Some None)
  else if byte =? 4 then
    mret (ed, if len ed =? 0 then Some None else None)
  else if byte =? 0x15 then
    _ ← erase_line ed;
    mret (mkEd (buf ed) 0, None)
  else if byte =? 0x0C then
    _ ← erase_line ed;
    _ ← redraw ed;
    mret (ed, None)
  else if (byte =? 8) || (byte =? 0x7F) then
    if 0 <? len ed then
      _ ← write_byte 8; _ ← write_byte 32; _ ← write_byte 8;
      mret (mkEd (buf ed) (len ed - 1), None)
    else mret (ed, None)
  else if byte =? 0x1B then
    _ ← skip_escape;
    mret (ed, None)
  else if (0x20 <=? byte) && (byte <=? 0x7E) then
    if len ed <? MAX_LINE - 1 then
      b ← buf_set ed (len ed) byte;
      _ ← write_byte byte;
      mret (mkEd b (len ed + 1), None)
    else mret (ed, None)
  else mret (ed, None).

Fixpoint edit_loop (fuel : nat) (ed : LineEditor) : st console stop (LineEditor * option (list Z)) :=
  match fuel with
  | O => st_err OutOfFuel
  | S fuel =>
      byte ← read_byte;
      r ← on_byte ed byte;
      match r.2 with
      | Some line => mret (r.1, line)
      | None => edit_loop fuel r.1
      end
  end.

Definition read_line (fuel : nat) (ed : LineEditor) : st console stop (LineEditor * option (list Z)) :=
  edit_loop fuel (mkEd (buf ed) 0).

(** ** What the person at the keyboard does

    Every key may come after any number of empty polls; the bytes of an escape
    sequence come within the time-out. *)
Inductive csi_end := Final (gap : nat) (b : Z) | Timeout | Full.
Inductive keystroke :=
| Key (b : Z)
| LoneEsc
| Alt (gap : nat) (b : Z)
| Csi (gap : nat) (params : list (nat * Z)) (e : csi_end).

Definition after (gap : nat) (b : Z) : list (option Z) := replicate gap None ++ [Some b].
Definition silence : list (option Z) := replicate (Z.to_nat SPINS) None.

Definition key_polls (k : keystroke) : list (option Z) :=
  match k with
  | Key b => [Some b]
  | LoneEsc => Some 0x1B :: silence
  | Alt g b => Some 0x1B :: after g b
  | Csi g ps e =>
      Some 0x1B :: after g 91 ++ concat ((fun p => after p.1 p.2) <$> ps) ++
      match e with Final g b => after g b | Timeout => silence | Full => [] end
  end.

Definition soon (gap : nat) : Prop := Z.of_nat gap < SPINS.

Definition typed_ok (k : keystroke) : Prop :=
  match k with
  | Key b => b <> 0x1B
  | LoneEsc => True
  | Alt g b => soon g /\ b <> 91
  | Csi g ps e =>
      soon g /\ Forall (fun p => soon p.1 /\ csi_final p.2 = false) ps /\
      match e with
      | Final g b => soon g /\ csi_final b = true /\ (length ps <= 7)%nat
      | Timeout => (length ps <= 7)%nat
      | Full => length ps = 8%nat
      end
  end.

Definition script (ks : list (nat * keystroke)) : list (option Z) :=
  concat ((fun p => replicate p.1 None ++ key_polls p.2) <$> ks).

(** The line a keystroke makes of a line: the reference editor. *)
Definition printable (b : Z) : bool := (0x20 <=? b) && (b <=? 0x7E).
Definition edit (line : list Z) (k : keystroke) : list Z :=
  match k with
  | Key b =>
      if (b =? 8) || (b =? 0x7F) then take (pred (length line)) line
      else if b =? 0x15 then []
      else if printable b && (zlen line <? 255) then line ++ [b]
      else line
  | _ => line
  end.
Definition edited (ks : list (nat * keystroke)) : list Z := foldl edit [] (snd <$> ks).

(** A keystroke that ends the line. *)
Definition ends (line : list Z) (k : keystroke) : bool :=
  match k with
  | Key b => (b =? 13) || (b =? 10) || (b =? 3) || ((b =? 4) && (zlen line =? 0))
  | _ => false
  end.

(** ** The row of the screen *)
Record Terminal := mkTerm { cells : list Z; cursor : nat }.

Definition show (t : Terminal) (b : Z) : Terminal :=
  if b =? 8 then mkTerm (cells t) (pred (cursor t))
  else if printable b then mkTerm (take (cursor t) (cells t) ++ b :: drop (S (cursor t)) (cells t)) (S (cursor t))
  else t.

(** The prompt and the line, blanks after them, and the cursor at its end. *)
Definition displays (t : Terminal) (prompt line : list Z) : Prop :=
  cursor t = length (prompt ++ line) /\ exists n, cells t = prompt ++ line ++ replicate n 32.

(** ** Lemmas *)
Definition holds (ed : LineEditor) (line : list Z) : Prop :=
  len ed = zlen line /\ zlen (buf ed) = MAX_LINE /\ zlen line <= 255 /\
  take (length line) (buf ed) = line /\ forallb printable line = true.

Lemma foldl_show_text pre bs rest :
  forallb printable bs = true ->
  foldl show (mkTerm (pre ++ rest) (length pre)) bs =
  mkTerm (pre ++ bs ++ drop (length bs) rest) (length (pre ++ bs)).
Proof.
  revert pre rest. induction bs as [|b bs IH]; intros pre rest Hb; cbn [foldl].
  - cbn. by rewrite app_nil_r.
  - cbn [forallb] in Hb. apply andb_true_iff in Hb as [Hb Hbs]. unfold show at 2. cbn [cursor cells].
    rewrite Hb. destruct (Z.eqb_spec b 8) as [->|_]; [done|].
    rewrite take_app_length, drop_app_ge by lia. replace (S (length pre) - length pre)%nat with 1%nat by lia.
    replace (pre ++ b :: drop 1 rest) with ((pre ++ [b]) ++ drop 1 rest) by by rewrite <- app_assoc.
    replace (S (length pre)) with (length (pre ++ [b])) by (rewrite length_app; cbn; lia).
    rewrite IH by done. rewrite <- !app_assoc, drop_drop. f_equal.
Qed.

Lemma foldl_show_back n t : foldl show t (replicate n 8) = mkTerm (cells t) (cursor t - n)%nat.
Proof.
  revert t. induction n as [|n IH]; intros [c k]; cbn [replicate foldl].
  - cbn. f_equal. lia.
  - rewrite IH. cbn. f_equal. lia.
Qed.

Lemma printable_blanks n : forallb printable (replicate n 32) = true.
Proof. by induction n. Qed.

Lemma printable_utf8 bs : forallb printable bs = true -> Utf8.is_utf8 bs = true.
Proof.
  induction bs as [|b bs IH]; intros Hb; [done|]. cbn [forallb] in Hb. apply andb_true_iff in Hb as [Hb Hbs].
  rewrite Utf8.is_utf8_step. unfold Utf8.char_step. cbn -[Z.ltb Utf8.is_utf8]. unfold printable in Hb.
  rewrite (proj2 (Z.ltb_lt b 128)) by lia. cbn. rewrite drop_0. by apply IH.
Qed.

(** Erasing a line leaves blanks, with the cursor after the prompt. *)
Lemma show_erase t prompt line :
  displays t prompt line ->
  let n := length line in
  displays (foldl show t (replicate n 8 ++ replicate n 32 ++ replicate n 8)) prompt [].
Proof.
  intros [Hc [k Hk]] n. destruct t as [c cur]. cbn [cells cursor] in *. subst c cur.
  rewrite !foldl_app, (foldl_show_back n (mkTerm _ _)). cbn [cells cursor]. rewrite length_app.
  replace (length prompt + length line - n)%nat with (length prompt) by (subst n; lia).
  rewrite foldl_show_text by apply printable_blanks. rewrite length_replicate.
  rewrite foldl_show_back. cbn [cells cursor]. split; cbn [cells cursor].
  - rewrite !length_app, length_replicate. cbn. lia.
  - exists (n + k)%nat. cbn. rewrite replicate_add. subst n. by rewrite drop_app_length.
Qed.

Lemma show_text t prompt line bs :
  displays t prompt line -> forallb printable bs = true ->
  displays (foldl show t bs) prompt (line ++ bs).
Proof.
  intros [Hc [k Hk]] Hb. destruct t as [c cur]. cbn [cells cursor] in *. subst c cur.
  rewrite app_assoc, foldl_show_text by done. split; cbn [cells cursor].
  - by rewrite <- app_assoc.
  - exists (k - length bs)%nat. rewrite drop_replicate. by rewrite <- !app_assoc.
Qed.

Lemma st_for_write b (l : list Z) c :
  st_for (fun _ => write_byte b) l c = (Ok tt, mkCon (polls c) (sent c ++ replicate (length l) b)).
Proof.
  revert c. induction l as [|x l IH]; intros [p s]; cbn [st_for length replicate].
  - cbn. by rewrite app_nil_r.
  - unfold mbind, st_bind, write_byte at 1. rewrite IH. cbn. by rewrite <- app_assoc.
Qed.

Lemma erase_line_run ed line c :
  holds ed line ->
  erase_line ed c = (Ok tt, mkCon (polls c) (sent c ++ let n := length line in replicate n 8 ++ replicate n 32 ++ replicate n 8)).
Proof.
  intros (Hl & _). unfold erase_line. rewrite Hl. unfold mbind, st_bind. rewrite !st_for_write.
  cbn [polls sent]. rewrite length_seqZ. unfold zlen. rewrite Nat2Z.id, <- !app_assoc. done.
Qed.

Lemma run_bind {A B} (m : st console stop A) (k : A -> st console stop B) c a c' :
  m c = (Ok a, c') -> (m ≫= k) c = k a c'.
Proof. intros H. unfold mbind, st_bind. by rewrite H. Qed.

Lemma redraw_run ed line c :
  holds ed line -> redraw ed c = (Ok tt, mkCon (polls c) (sent c ++ line)).
Proof.
  intros (Hl & Hz & Hle & Ht & _). unfold redraw. rewrite Hl.
  assert (forall n (i : nat) c, (i + n)%nat = length line ->
    st_for (fun i => b ← buf_get ed i; write_byte b) (seqZ (Z.of_nat i) (Z.of_nat n)) c =
    (Ok tt, mkCon (polls c) (sent c ++ drop i line))) as Hgen.
  { induction n as [|n IH]; intros i [p s] Hi.
    - cbn. rewrite drop_ge by lia. by rewrite app_nil_r.
    - rewrite seqZ_cons by lia. cbn [st_for]. replace (Z.pred (Z.of_nat (S n))) with (Z.of_nat n) by lia.
      destruct (lookup_lt_is_Some_2 line i) as [b Hb]; [lia|].
      assert (buf ed !! i = Some b) as Hget by (rewrite <- Ht, lookup_take in Hb; by case_decide).
      rewrite (run_bind _ _ _ tt (mkCon p (s ++ [b]))).
      2: { rewrite (run_bind _ _ _ b (mkCon p s)); [done|]. unfold buf_get, st_lift. by rewrite Nat2Z.id, Hget. }
      replace (Z.succ (Z.of_nat i)) with (Z.of_nat (S i)) by lia. rewrite IH by lia. cbn [polls sent].
      by rewrite <- app_assoc, (drop_S line b i Hb). }
  etransitivity; [apply (Hgen (length line) 0%nat); lia|]. by rewrite drop_0.
Qed.

Lemma next_byte_gap n l : next_byte (replicate n None ++ l) = next_byte l.
Proof. by induction n. Qed.

Lemma spin_gap (n : nat) b l iters :
  Z.of_nat n < iters -> spin_polls iters (after n b ++ l) = Some (Some b, l).
Proof.
  revert iters. induction n as [|n IH]; intros iters Hn.
  - cbn. by rewrite (proj2 (Z.leb_gt iters 0)) by lia.
  - unfold after. cbn [replicate app spin_polls]. rewrite (proj2 (Z.leb_gt iters 0)) by lia. apply IH. lia.
Qed.

Lemma spin_silence (n : nat) l iters :
  iters = Z.of_nat n -> spin_polls iters (replicate n None ++ l) = Some (None, l).
Proof.
  revert iters. induction n as [|n IH]; intros iters ->.
  - destruct l; done.
  - cbn [replicate app spin_polls]. rewrite (proj2 (Z.leb_gt _ 0)) by lia. apply IH. lia.
Qed.

Lemma try_gap g b l s : soon g -> spin_try_read SPINS (mkCon (after g b ++ l) s) = (Ok (Some b), mkCon l s).
Proof. intros Hg. unfold spin_try_read. cbn [polls sent]. by rewrite spin_gap. Qed.

Lemma try_silence l s : spin_try_read SPINS (mkCon (silence ++ l) s) = (Ok None, mkCon l s).
Proof. unfold spin_try_read, silence. cbn [polls sent]. by rewrite spin_silence by (unfold SPINS; lia). Qed.

Opaque SPINS.

Lemma skip_csi_run ps e l s n :
  Forall (fun p => soon p.1 /\ csi_final p.2 = false) ps ->
  match e with
  | Final g b => soon g /\ csi_final b = true /\ (length ps < n)%nat
  | Timeout => (length ps < n)%nat
  | Full => length ps = n
  end ->
  skip_csi n (mkCon ((concat ((fun p => after p.1 p.2) <$> ps) ++
      match e with Final g b => after g b | Timeout => silence | Full => [] end) ++ l) s) = (Ok tt, mkCon l s).
Proof.
  revert n. induction ps as [|[g b] ps IH]; intros n Hps He.
  - cbn [fmap list_fmap concat app length] in *. destruct e as [g b| |].
    + destruct He as (Hg & Hb & Hn). destruct n as [|n]; [lia|]. cbn [skip_csi]. unfold mbind, st_bind.
      rewrite try_gap by done. by rewrite Hb.
    + destruct n as [|n]; [lia|]. cbn [skip_csi]. unfold mbind, st_bind. by rewrite try_silence.
    + by subst n.
  - apply Forall_cons in Hps as [[Hg Hb] Hps]. cbn [fst snd] in *. destruct n as [|n]; [destruct e; cbn in He; lia|].
    cbn [fmap list_fmap concat skip_csi fst snd]. unfold mbind, st_bind. rewrite <- !app_assoc, try_gap, Hb by done.
    rewrite app_assoc. apply IH; [done|]. destruct e; cbn in He; try lia. destruct He as (? & ? & ?). split_and!; [done|done|lia].
Qed.

Lemma skip_escape_run k :
  typed_ok k -> match k with Key _ => False | _ => True end ->
  exists p, key_polls k = Some 0x1B :: p /\ forall l s, skip_escape (mkCon (p ++ l) s) = (Ok tt, mkCon l s).
Proof.
  intros Hok Hk. destruct k as [b| |g b|g ps e]; [done| | |]; eexists; (split; [reflexivity|]); intros l s;
    unfold skip_escape, mbind, st_bind.
  - by rewrite try_silence.
  - destruct Hok as [Hg Hb]. rewrite try_gap by done. by rewrite bool_decide_eq_false_2 by congruence.
  - destruct Hok as (Hg & Hps & He). rewrite <- app_assoc, try_gap by done. rewrite bool_decide_eq_true_2 by done.
    apply skip_csi_run; [done|]. destruct e; [|lia|done]. destruct He as (? & ? & ?). split_and!; [done|done|lia].
Qed.

Lemma holds_nil ed : zlen (buf ed) = MAX_LINE -> holds (mkEd (buf ed) 0) [].
Proof. intros. split_and!; cbn [buf len]; done. Qed.

Lemma holds_back ed line :
  holds ed line -> line <> [] -> holds (mkEd (buf ed) (len ed - 1)) (take (pred (length line)) line).
Proof.
  intros (Hl & Hz & Hle & Ht & Hp) Hne. assert (1 <= length line)%nat by (destruct line; [done|cbn; lia]).
  unfold holds, zlen in *. split_and!; cbn [buf len]; rewrite ?length_take; [lia|done|lia| |].
  - transitivity (take (pred (length line)) (take (length line) (buf ed))); [|by rewrite Ht]. rewrite take_take. f_equal; lia.
  - rewrite <- (take_drop (pred (length line)) line), forallb_app in Hp. by apply andb_true_iff in Hp as [? _].
Qed.

Lemma holds_snoc ed line b :
  holds ed line -> printable b = true -> zlen line < 255 ->
  holds (mkEd (<[Z.to_nat (len ed) := b]> (buf ed)) (len ed + 1)) (line ++ [b]).
Proof.
  intros (Hl & Hz & Hle & Ht & Hp) Hb Hlt. unfold holds, zlen, MAX_LINE in *.
  split_and!; cbn [buf len]; rewrite ?length_app, ?length_insert; [cbn; lia|done|cbn; lia| |].
  - rewrite Hl, Nat2Z.id. rewrite insert_take_drop by lia. rewrite Ht. cbn [length].
    rewrite cons_middle, app_assoc. apply take_app_length'. rewrite length_app. done.
  - rewrite forallb_app, Hp. cbn. by rewrite Hb.
Qed.

Lemma show_rubout t prompt line :
  displays t prompt line -> line <> [] ->
  displays (foldl show t [8; 32; 8]) prompt (take (pred (length line)) line).
Proof.
  intros [Hc [k Hk]] Hne. destruct t as [c cur]. cbn [cells cursor] in *. subst c cur.
  destruct (exists_last Hne) as (line' & x & ->). replace (pred (length (line' ++ [x]))) with (length line') by (rewrite length_app; cbn; lia).
  rewrite take_app_length. cbn [foldl]. unfold show at 3. cbn [cells cursor Z.eqb Pos.eqb].
  replace (pred (length (prompt ++ line' ++ [x]))) with (length (prompt ++ line')) by (rewrite !length_app; cbn; lia).
  replace (prompt ++ (line' ++ [x]) ++ replicate k 32) with ((prompt ++ line') ++ x :: replicate k 32) by by rewrite <- !app_assoc.
  pose proof (foldl_show_text (prompt ++ line') [32] (x :: replicate k 32) eq_refl) as Hs. cbn [foldl] in Hs. rewrite Hs.
  unfold show. cbn [cells cursor Z.eqb Pos.eqb length drop]. split; cbn [cells cursor].
  - rewrite !length_app. cbn. lia.
  - exists (S k). by rewrite <- app_assoc, drop_0.
Qed.

(** One byte that does not end the line. *)
Lemma on_byte_run b line ed :
  b <> 0x1B -> ends line (Key b) = false -> holds ed line ->
  exists ed' o, holds ed' (edit line (Key b)) /\
    (forall l s, on_byte ed b (mkCon l s) = (Ok (ed', None), mkCon l (s ++ o))) /\
    forall t prompt, displays t prompt line -> displays (foldl show t o) prompt (edit line (Key b)).
Proof.
  intros Hb He Hh. pose proof Hh as (Hl & Hz & Hle & _). cbn [ends] in He. unfold on_byte.
  apply orb_false_iff in He as [He He4]. apply orb_false_iff in He as [-> He3]. rewrite He3.
  destruct (Z.eqb_spec b 4) as [->|_].
  { rewrite Hl. cbn in He4. rewrite He4. exists ed, []. split_and!; [done|intros; by rewrite app_nil_r|done]. }
  cbn [edit]. destruct (Z.eqb_spec b 0x15) as [->|_].
  { eexists _, _. split; [by apply holds_nil|]. split; [|intros t prompt Ht; exact (show_erase t prompt line Ht)].
    intros l s. by rewrite (run_bind _ _ _ _ _ (erase_line_run _ _ _ Hh)). }
  destruct (Z.eqb_spec b 0x0C) as [->|_].
  { exists ed. eexists. split; [done|]. split.
    { intros l s. rewrite (run_bind _ _ _ _ _ (erase_line_run _ _ _ Hh)). cbn [polls sent].
      rewrite (run_bind _ _ _ _ _ (redraw_run _ _ _ Hh)). cbn [polls sent]. by rewrite <- app_assoc. }
    intros t prompt Ht. rewrite foldl_app. apply (show_text _ _ []); [by apply show_erase|apply Hh]. }
  destruct ((b =? 8) || (b =? 127)) eqn:Hbs.
  { rewrite Hl. destruct (Z.ltb_spec 0 (zlen line)) as [Hpos|Hzero].
    - assert (line <> []) by (by intros ->). exists (mkEd (buf ed) (len ed - 1)), [8; 32; 8]. split; [by apply holds_back|]. split; [|intros; by apply show_rubout].
      intros l s. rewrite Hl. cbv [mbind st_bind mret st_ret write_byte]. cbn [polls sent]. by rewrite <- !app_assoc.
    - assert (line = []) as -> by (destruct line; [done|rewrite zlen_cons in Hzero; pose proof (zlen_nonneg line); lia]).
      exists ed, []. split_and!; [done|intros; by rewrite app_nil_r|done]. }
  rewrite (proj2 (Z.eqb_neq b 0x1B) Hb). fold (printable b). destruct (printable b) eqn:Hpr; cbn [andb].
  - unfold MAX_LINE. rewrite Hl. replace (256 - 1) with 255 by done. destruct (Z.ltb_spec (zlen line) 255) as [Hlt|Hge].
    + eexists _, _. split; [by apply (holds_snoc ed)|]. split.
      * intros l s. unfold buf_set. rewrite Hz. unfold MAX_LINE. rewrite (proj2 (Z.ltb_lt _ _)) by lia. rewrite Hl. done.
      * intros t prompt Ht. apply show_text; [done|]. cbn. by rewrite Hpr.
    + exists ed, []. split_and!; [done|intros; by rewrite app_nil_r|done].
  - exists ed, []. split_and!; [done|intros; by rewrite app_nil_r|done].
Qed.

(** One keystroke: one turn of the loop, the line edited, the screen with it. *)
Lemma keystroke_run k line ed :
  typed_ok k -> ends line k = false -> holds ed line ->
  exists ed' o, holds ed' (edit line k) /\
    (forall n l s fuel, edit_loop (S fuel) ed (mkCon (replicate n None ++ key_polls k ++ l) s) =
       edit_loop fuel ed' (mkCon l (s ++ o))) /\
    forall t prompt, displays t prompt line -> displays (foldl show t o) prompt (edit line k).
Proof.
  intros Hok He Hh.
  assert (exists b p ed' o, key_polls k = Some b :: p /\ holds ed' (edit line k) /\
    (forall l s, on_byte ed b (mkCon (p ++ l) s) = (Ok (ed', None), mkCon l (s ++ o))) /\
    forall t prompt, displays t prompt line -> displays (foldl show t o) prompt (edit line k))
    as (b & p & ed' & o & Hk & Hh' & Hb & Hd).
  { assert (match k with Key _ => False | _ => True end -> exists p, key_polls k = Some 0x1B :: p /\
      (forall l s, on_byte ed 0x1B (mkCon (p ++ l) s) = (Ok (ed, None), mkCon l (s ++ []))) /\ edit line k = line) as Hesc.
    { intros Hk. destruct (skip_escape_run k Hok Hk) as (p & Hkp & Hrun). exists p. split; [done|].
      split; [|by destruct k]. intros l s. rewrite app_nil_r. cbn -[skip_escape]. by rewrite (run_bind _ _ _ _ _ (Hrun l s)). }
    destruct k as [b| | |].
    { destruct (on_byte_run b line ed Hok He Hh) as (ed' & o & ?). by exists b, [], ed', o. }
    all: destruct Hesc as (p & Hk & Hr & Heq); [done|]; rewrite Heq; by exists 0x1B, p, ed, []. }
  exists ed', o. split; [done|]. split; [|done]. intros n l s fuel. cbn [edit_loop].
  rewrite (run_bind _ _ _ b (mkCon (p ++ l) s)). 2: { unfold read_byte. cbn [polls sent]. by rewrite next_byte_gap, Hk. }
  by rewrite (run_bind _ _ _ _ _ (Hb l s)).
Qed.

(** No keystroke of the list ends the line. *)
Fixpoint stays (line : list Z) (ks : list (nat * keystroke)) : bool :=
  match ks with
  | [] => true
  | (_, k) :: ks => negb (ends line k) && stays (edit line k) ks
  end.

Lemma script_run ks line ed :
  Forall (fun p => typed_ok p.2) ks -> stays line ks = true -> holds ed line ->
  exists ed' o, holds ed' (foldl edit line (snd <$> ks)) /\
    (forall l s fuel, edit_loop (length ks + fuel) ed (mkCon (script ks ++ l) s) = edit_loop fuel ed' (mkCon l (s ++ o))) /\
    forall t prompt, displays t prompt line -> displays (foldl show t o) prompt (foldl edit line (snd <$> ks)).
Proof.
  revert line ed. induction ks as [|[n k] ks IH]; intros line ed Hok Hst Hh.
  - exists ed, []. split_and!; [done|intros; cbn; by rewrite app_nil_r|done].
  - apply Forall_cons in Hok as [Hk Hok]. cbn [stays] in Hst. apply andb_true_iff in Hst as [He Hst].
    apply negb_true_iff in He. cbn [fmap list_fmap fst snd foldl].
    destruct (keystroke_run k line ed Hk He Hh) as (ed1 & o1 & Hh1 & Hr1 & Hd1).
    destruct (IH _ ed1 Hok Hst Hh1) as (ed2 & o2 & Hh2 & Hr2 & Hd2). exists ed2, (o1 ++ o2). split; [done|]. split.
    + intros l s fuel. unfold script. cbn [fmap list_fmap concat fst snd length Nat.add]. fold (script ks).
      rewrite <- !app_assoc, Hr1, Hr2. by rewrite <- app_assoc.
    + intros t prompt Ht. rewrite foldl_app. auto.
Qed.

(** The bytes that end a line. *)
Lemma end_run n b l s fuel ed r c :
  on_byte ed b (mkCon l s) = (Ok r, c) -> is_Some r.2 ->
  edit_loop (S fuel) ed (mkCon (after n b ++ l) s) = (Ok (r.1, default None r.2), c).
Proof.
  intros Hb [line Hr]. cbn [edit_loop]. unfold after. rewrite <- app_assoc.
  rewrite (run_bind _ _ _ b (mkCon l s)). 2: { unfold read_byte. cbn [polls sent]. by rewrite next_byte_gap. }
  rewrite (run_bind _ _ _ _ _ Hb). by rewrite Hr.
Qed.

(** C27. Whatever is typed at the prompt, the screen shows the line: after any
    keystrokes that do not end it, with any pauses between them and escape
    sequences among them, the row is the prompt, the text of the reference
    editor and blanks, and the cursor is at the end of the text, which never
    exceeds 255 bytes.  Return then yields that text, Ctrl-C yields none, and
    Ctrl-D ends an empty line; the rest of the input is left for the next
    reader.  The editor never indexes outside its buffer. *)
Theorem line_edit_correct ks ed s prompt :
  zlen (buf ed) = MAX_LINE -> Forall (fun p => typed_ok p.2) ks -> stays [] ks = true ->
  let text := edited ks in
  zlen text <= 255 /\
  exists ed' o,
    displays (foldl show (mkTerm prompt (length prompt)) o) prompt text /\
    (forall f, read_line (length ks + S f) ed (mkCon (script ks) s) = (Err Waiting, mkCon [] (s ++ o))) /\
    (forall f n l, read_line (length ks + S f) ed (mkCon (script ks ++ after n 13 ++ l) s) =
       (Ok (ed', Some text), mkCon l (s ++ o ++ [13; 10]))) /\
    (forall f n l, read_line (length ks + S f) ed (mkCon (script ks ++ after n 3 ++ l) s) =
       (Ok (mkEd (buf ed') 0, None), mkCon l (s ++ o ++ [94; 67; 13; 10]))) /\
    (text = [] -> forall f n l, read_line (length ks + S f) ed (mkCon (script ks ++ after n 4 ++ l) s) =
       (Ok (ed', None), mkCon l (s ++ o))).
Proof.
  intros Hz Hok Hst text. destruct (script_run ks [] _ Hok Hst (holds_nil ed Hz)) as (ed' & o & Hh & Hrun & Hd).
  fold (edited ks) in Hh, Hd. fold text in Hh, Hd. pose proof Hh as (Hl & Hz' & Hle & Ht & Hp). split; [done|].
  assert (buf_upto ed' (len ed') = mret text) as Hup.
  { unfold buf_upto. rewrite Hz', Hl. unfold MAX_LINE. rewrite (proj2 (Z.leb_le _ _)) by lia. unfold zlen. by rewrite Nat2Z.id, Ht. }
  exists ed', o. unfold read_line. split_and!.
  - apply Hd. split; cbn [cells cursor]; [by rewrite app_nil_r|]. exists 0%nat. cbn. by rewrite app_nil_r.
  - intros f. rewrite <- (app_nil_r (script ks)), Hrun. done.
  - intros f n l. rewrite Hrun. rewrite (end_run n 13 l _ f ed' (ed', Some (Some text)) (mkCon l (s ++ o ++ [13; 10]))); [done| |by eexists].
    unfold on_byte. cbn [Z.eqb Pos.eqb orb]. rewrite Hup. cbv [mbind st_bind mret st_ret write_byte].
    cbn [polls sent]. rewrite (printable_utf8 _ Hp), <- !app_assoc. done.
  - intros f n l. rewrite Hrun. rewrite (end_run n 3 l _ f ed' (mkEd (buf ed') 0, Some None) (mkCon l (s ++ o ++ [94; 67; 13; 10]))); [done| |by eexists].
    unfold on_byte. cbv [mbind st_bind mret st_ret write_byte]. cbn [Z.eqb Pos.eqb orb polls sent]. by rewrite <- !app_assoc.
  - intros Hnil f n l. rewrite Hrun. rewrite (end_run n 4 l _ f ed' (ed', Some None) (mkCon l (s ++ o))); [done| |by eexists].
    unfold on_byte. cbn [Z.eqb Pos.eqb orb]. by rewrite Hl, Hnil.
Qed.

(** "lt", a left arrow, a rubout and "s", with pauses. *)
Definition sample : list (nat * keystroke) :=
  [(0%nat, Key 108); (3%nat, Key 116); (1%nat, Csi 0 [(2%nat, 49)] (Final 0 68)); (0%nat, Key 0x7F); (0%nat, Key 115)].

Lemma line_edit_correct_witness :
  edited sample = [108; 115] /\
  exists ed' o, read_line 7 new (mkCon (script sample ++ after 2 13 ++ [Some 99]) []) =
    (Ok (ed', Some [108; 115]), mkCon [Some 99] ([] ++ o ++ [13; 10])).
Proof.
  split; [reflexivity|].
  destruct (line_edit_correct sample new [] []) as (_ & ed' & o & _ & _ & Hr & _).
  - reflexivity.
  - repeat constructor; done.
  - reflexivity.
  - exists ed', o. apply (Hr 1%nat 2%nat [Some 99]).
Defined.

End Line.
