(* ===== verification/Virtqueue.v ===== *)
(** * Virtqueues ([drivers/virtio/virtqueue.rs])

    The descriptor table and the two rings live in one DMA allocation that
    the device reads and writes too, so they are read and written at their
    byte addresses.  [vstep] interleaves the driver with the device: between
    filling in a buffer and publishing its index the device may run. *)
From S2P Require Import Prelude.
From S2P Require Import Bytes.
From S2P Require Import Bitmap.
From S2P Require Import Phys.
From S2P Require Import Dma.
From S2P Require Import Mem.
From S2P Require Import Nvme.

Module Virtqueue.

Definition VIRTQ_DESC_F_WRITE : Z := 2.

Definition load16 (m : mem) (a : Z) : Z := from_le (load m a 2).
Definition load32 (m : mem) (a : Z) : Z := from_le (load m a 4).
Definition store16 (m : mem) (a v : Z) : mem := store m a (le_bytes 2 v).
Definition store32 (m : mem) (a v : Z) : mem := store m a (le_bytes 4 v).

(** [buf] is the single allocation: the address of its first byte. *)
Record Virtqueue := mkVq {
  buf : Dma.DmaBuf;
  size : Z;
  avail_offset : Z;
  used_offset : Z;
  free_head : Z;
  num_free : Z;
  last_used_idx : Z;
}.

(** (total bytes, offset of the available ring, offset of the used ring). *)
Definition legacy_layout (queue_size : Z) : Z * Z * Z :=
  let desc_size := 16 ⊠ queue_size in
  let avail_size := 6 ⊞ 2 ⊠ queue_size in
  let used_offset := align_up64 (desc_size ⊞ avail_size) 4096 in
  let used_size := 6 ⊞ 8 ⊠ queue_size in
  (used_offset ⊞ used_size, desc_size, used_offset).

(** The fields of descriptor [i] of the table at [base]. *)
Definition desc_addr (base i : Z) : Z := base ⊞ 16 ⊠ i.
Definition next_of (m : mem) (base i : Z) : Z := load16 m (desc_addr base i ⊞ 14).
Definition set_next (m : mem) (base i v : Z) : mem := store16 m (desc_addr base i ⊞ 14) v.
Definition set_flags (m : mem) (base i v : Z) : mem := store16 m (desc_addr base i ⊞ 12) v.
Definition set_len (m : mem) (base i v : Z) : mem := store32 m (desc_addr base i ⊞ 8) v.
Definition set_addr (m : mem) (base i v : Z) : mem := store64 m (desc_addr base i) v.

(** [for i in 0..queue_size] that threads the free list. *)
Definition init_free (base queue_size : Z) (m : mem) : mem :=
  foldl (fun m i =>
    set_flags (set_next m base i (if wrap16 (i + 1) <? queue_size then wrap16 (i + 1) else 0)) base i 0)
    m (seqZ 0 queue_size).

Definition new (queue_size : Z) : st (Dma.hw mem) Phys.AllocError Virtqueue :=
  let '(total_size, avail_offset, used_offset) := legacy_layout queue_size in
  b ← Nvme.dma_alloc total_size;
  w ← st_get;
  _ ← st_put (Dma.mkHw (init_free (Dma.phys b) queue_size (Dma.dev w)) (Dma.pages w));
  mret (mkVq b queue_size avail_offset used_offset 0 queue_size 0).

Definition phys_addr (q : Virtqueue) : Z := Dma.phys (buf q).
Definition pfn (q : Virtqueue) : Z := wrap32 (Dma.phys (buf q) / 4096).

Definition avail_hdr (q : Virtqueue) : Z := Dma.phys (buf q) ⊞ avail_offset q.
Definition avail_ring (q : Virtqueue) : Z := Dma.phys (buf q) ⊞ avail_offset q ⊞ 4.
Definition used_hdr (q : Virtqueue) : Z := Dma.phys (buf q) ⊞ used_offset q.
Definition used_ring (q : Virtqueue) : Z := Dma.phys (buf q) ⊞ used_offset q ⊞ 4.

Definition set_heads (q : Virtqueue) (fh nf lu : Z) : Virtqueue :=
  mkVq (buf q) (size q) (avail_offset q) (used_offset q) fh nf lu.

(** [add_buf] up to the release fence: the descriptor and the ring entry. *)
Definition place {E} (q : Virtqueue) (buf_phys len : Z) (device_writable : bool) (m : mem)
    : out E (option (Z * Virtqueue * mem)) :=
  if num_free q =? 0 then Ok None
  else
    let idx := free_head q in
    let base := Dma.phys (buf q) in
    let free_head := next_of m base idx in
    let m := set_addr m base idx buf_phys in
    let m := set_len m base idx len in
    let m := set_flags m base idx (if device_writable then VIRTQ_DESC_F_WRITE else 0) in
    let m := set_next m base idx 0 in
    let q := set_heads q free_head (wrap16 (num_free q - 1)) (last_used_idx q) in
    let avail_idx := load16 m (avail_hdr q ⊞ 2) in
    if size q =? 0 then Panic
    else Ok (Some (idx, q, store16 m (avail_ring q ⊞ 2 ⊠ (avail_idx mod size q)) idx)).

(** The write the device watches: [avail.idx] one further. *)
Definition publish (q : Virtqueue) (m : mem) : mem :=
  store16 m (avail_hdr q ⊞ 2) (wrap16 (load16 m (avail_hdr q ⊞ 2) + 1)).

Definition add_buf {E} (q : Virtqueue) (buf_phys len : Z) (device_writable : bool) (m : mem)
    : out E (option Z * Virtqueue * mem) :=
  r ← place q buf_phys len device_writable m;
  match r with
  | None => Ok (None, q, m)
  | Some (idx, q, m) => Ok (Some idx, q, publish q m)
  end.

Definition poll_used {E} (q : Virtqueue) (m : mem) : out E (option (Z * Z) * Virtqueue * mem) :=
  let used_idx := load16 m (used_hdr q ⊞ 2) in
  if last_used_idx q =? used_idx then Ok (None, q, m)
  else if size q =? 0 then Panic
  else
    let ring_idx := last_used_idx q mod size q in
    let entry := used_ring q ⊞ 8 ⊠ ring_idx in
    let id := load32 m entry in
    let len := load32 m (entry ⊞ 4) in
    let m := set_next m (Dma.phys (buf q)) id (free_head q) in
    Ok (Some (wrap16 id, len), set_heads q (wrap16 id) (wrap16 (num_free q + 1)) (wrap16 (last_used_idx q + 1)), m).

(** ** The device *)
Record request := mkReq { desc : Z; addr : Z; length : Z; writable : bool }.

(** Its half of the protocol (virtio 0.9.5, section 2.3): it takes the next
    published entry by its own count, and returns a descriptor through the used
    ring, entry first. *)
Definition device_fetch (q : Virtqueue) (seen : Z) (m : mem) : option request :=
  if load16 m (avail_hdr q ⊞ 2) =? wrap16 seen then None
  else
    let i := load16 m (avail_ring q + 2 * (wrap16 seen mod size q)) in
    let d := Dma.phys (buf q) + 16 * i in
    Some (mkReq i (load64 m d) (load32 m (d + 8)) (negb (Z.land (load16 m (d + 12)) VIRTQ_DESC_F_WRITE =? 0))).

Definition device_return (q : Virtqueue) (id len : Z) (m : mem) : mem :=
  let used_idx := load16 m (used_hdr q + 2) in
  let entry := used_ring q + 8 * (used_idx mod size q) in
  let m := store32 (store32 m entry id) (entry + 4) len in
  store16 m (used_hdr q + 2) (wrap16 (used_idx + 1)).

(** ** The queue between driver and device

    [added] and [polled] are what the driver has offered and got back,
    [fetched] and [returned] what the device has taken and given back. *)
Record vsys := mkSys {
  vq : Virtqueue;
  memory : mem;
  staged : option request;
  added : list request;
  fetched : list request;
  holding : list Z;
  returned : list (Z * Z);
  polled : list (Z * Z);
}.

Definition total (q : Virtqueue) : Z := used_offset q + 6 + 8 * size q.

Inductive vstep : vsys -> vsys -> Prop :=
| VPlace s a l w idx q' m' :
    staged s = None -> is_u64 a -> is_u32 l ->
    @place Empty_set (vq s) a l w (memory s) = Ok (Some (idx, q', m')) ->
    vstep s (mkSys q' m' (Some (mkReq idx a l w)) (added s) (fetched s) (holding s) (returned s) (polled s))
| VPublish s r :
    staged s = Some r ->
    vstep s (mkSys (vq s) (publish (vq s) (memory s)) None (added s ++ [r]) (fetched s) (holding s) (returned s) (polled s))
| VPoll s o q' m' :
    staged s = None ->
    @poll_used Empty_set (vq s) (memory s) = Ok (o, q', m') ->
    vstep s (mkSys q' m' None (added s) (fetched s) (holding s) (returned s)
               (polled s ++ match o with Some e => [e] | None => [] end))
| VFetch s r :
    device_fetch (vq s) (zlen (fetched s)) (memory s) = Some r ->
    vstep s (mkSys (vq s) (memory s) (staged s) (added s) (fetched s ++ [r]) (holding s ++ [desc r]) (returned s) (polled s))
| VReturn s h1 id h2 len :
    holding s = h1 ++ id :: h2 -> is_u32 len ->
    vstep s (mkSys (vq s) (device_return (vq s) id len (memory s)) (staged s) (added s) (fetched s) (h1 ++ h2)
               (returned s ++ [(id, len)]) (polled s))
| VOther s m' :
    same_at (memory s) m' (Dma.phys (buf (vq s))) (total (vq s)) ->
    vstep s (mkSys (vq s) m' (staged s) (added s) (fetched s) (holding s) (returned s) (polled s)).

Definition start (q : Virtqueue) (m : mem) : vsys := mkSys q m None [] [] [] [] [].

(** The descriptors the driver has handed out and not got back. *)
Definition in_flight (s : vsys) : list Z :=
  (desc <$> option_list (staged s)) ++ (desc <$> drop (List.length (fetched s)) (added s)) ++ holding s ++
  (drop (List.length (polled s)) (returned s)).*1.

(** ** Lemmas: reads and writes of words *)
Lemma load_store_le (k : nat) m a v : 0 <= v < 256 ^ Z.of_nat k -> from_le (load (store m a (le_bytes k v)) a (Z.of_nat k)) = v.
Proof. intros Hv. rewrite load_store by (by rewrite zlen_le_bytes). by apply from_le_bytes_id. Qed.

Lemma store_le_but (k : nat) m a v n : n = Z.of_nat k -> same_but m (store m a (le_bytes k v)) a n.
Proof. intros -> x Hx. apply store_same_but. by rewrite zlen_le_bytes. Qed.

Lemma load_frame m m' a n b k : same_but m m' a n -> b + k <= a \/ a + n <= b -> load m' b k = load m b k.
Proof. intros Hs Hd. apply load_same. by eapply same_but_at. Qed.

Lemma load16_store16 m a v : is_u16 v -> load16 (store16 m a v) a = v.
Proof. intros Hv. apply (load_store_le 2). exact Hv. Qed.
Lemma load32_store32 m a v : is_u32 v -> load32 (store32 m a v) a = v.
Proof. intros Hv. apply (load_store_le 4). exact Hv. Qed.
Lemma store16_but m a v : same_but m (store16 m a v) a 2.
Proof. by apply store_le_but. Qed.
Lemma store32_but m a v : same_but m (store32 m a v) a 4.
Proof. by apply store_le_but. Qed.

Lemma same_but_join m1 m2 m3 a n a' n' b k :
  same_but m1 m2 a n -> same_but m2 m3 a' n' -> b <= a -> a + n <= b + k -> b <= a' -> a' + n' <= b + k ->
  same_but m1 m3 b k.
Proof. intros H1 H2 ????. eapply same_but_trans; eapply same_but_mono; eauto. Qed.

(** [load] of the goal under a write that is elsewhere. *)
Ltac framed H := unfold load16, load32, load64 in *; rewrite (load_frame _ _ _ _ _ _ H) by lia.

(** The four writes of a descriptor at [d]. *)
Definition fill_desc (m : mem) (d a l f : Z) : mem :=
  store16 (store16 (store32 (store64 m d a) (d + 8) l) (d + 12) f) (d + 14) 0.

Lemma fill_desc_but m d a l f : same_but m (fill_desc m d a l f) d 16.
Proof.
  unfold fill_desc.
  eapply (same_but_join _ _ _ d 14 (d + 14) 2); [|apply store16_but|lia..].
  eapply (same_but_join _ _ _ d 12 (d + 12) 2); [|apply store16_but|lia..].
  eapply (same_but_join _ _ _ d 8 (d + 8) 4); [apply store64_same_but|apply store32_but|lia..].
Qed.

Lemma fill_desc_reads m d a l f :
  is_u64 a -> is_u32 l -> is_u16 f ->
  let m' := fill_desc m d a l f in
  load64 m' d = a /\ load32 m' (d + 8) = l /\ load16 m' (d + 12) = f.
Proof.
  intros Ha Hl Hf m'. subst m'. unfold fill_desc. set (m1 := store64 m d a). set (m2 := store32 m1 (d + 8) l).
  set (m3 := store16 m2 (d + 12) f). pose proof (store16_but m3 (d + 14) 0) as H4.
  pose proof (store16_but m2 (d + 12) f) as H3. fold m3 in H3. pose proof (store32_but m1 (d + 8) l) as H2. fold m2 in H2.
  split_and!.
  - unfold load64. rewrite (load_frame _ _ _ _ _ _ H4), (load_frame _ _ _ _ _ _ H3), (load_frame _ _ _ _ _ _ H2) by lia. by apply load64_store64.
  - unfold load32. rewrite (load_frame _ _ _ _ _ _ H4), (load_frame _ _ _ _ _ _ H3) by lia. by apply load32_store32.
  - unfold load16. rewrite (load_frame _ _ _ _ _ _ H4) by lia. by apply load16_store16.
Qed.

(** ** The shape of a queue: its three parts apart, in one allocation *)
Record shape (q : Virtqueue) (n b u : Z) : Prop := {
  sh_size : size q = n;
  sh_phys : Dma.phys (buf q) = b;
  sh_avail : avail_offset q = 16 * n;
  sh_used : used_offset q = u;
  sh_n : 0 < n < 2 ^ 16;
  sh_pow : (n | 2 ^ 16);
  sh_b : 0 <= b <= 2 ^ 32;
  sh_u : 18 * n + 6 <= u <= 2 ^ 22;
}.

Lemma shape_heads q n b u fh nf lu : shape q n b u -> shape (set_heads q fh nf lu) n b u.
Proof. intros [????????]. by split. Qed.

Lemma wrap_mod n k : 0 < n -> (n | 2 ^ 16) -> wrap16 k mod n = k mod n.
Proof. intros Hn [c Hc]. unfold wrap16. rewrite Hc. rewrite Z.mul_comm. rewrite Z.rem_mul_r by lia.
  rewrite Z.mul_comm, Z.mod_add by lia. apply Z.mod_mod. lia. Qed.

Lemma place_eq q n b u a l (w : bool) (m : mem) :
  shape q n b u -> 0 <= free_head q < n ->
  let d := b + 16 * free_head q in
  let m1 := fill_desc m d a l (if w then 2 else 0) in
  let k := load16 m (b + 16 * n + 2) mod n in
  @place Empty_set q a l w m =
  if num_free q =? 0 then Ok None
  else Ok (Some (free_head q, set_heads q (load16 m (d + 14)) (wrap16 (num_free q - 1)) (last_used_idx q),
                 store16 m1 (b + 16 * n + 4 + 2 * k) (free_head q))).
Proof.
  intros [<- <- Ha <- Hn Hp Hb Hu] Hfh d m1 k. unfold place, next_of, set_addr, set_len, set_flags, set_next, desc_addr.
  destruct (num_free q =? 0); [done|]. unfold avail_hdr, avail_ring. cbn [buf avail_offset set_heads size]. rewrite Ha.
  rewrite (proj2 (Z.eqb_neq (size q) 0)) by lia.
  set (bb := Dma.phys (buf q)) in *. set (nn := size q) in *.
  rewrite !(wrap64_small (16 * free_head q)) by lia. rewrite !(wrap64_small (bb + 16 * free_head q)) by lia.
  rewrite !(wrap64_small (bb + 16 * nn)) by lia. unwrap. fold d.
  unfold VIRTQ_DESC_F_WRITE. fold (fill_desc m d a l (if w then 2 else 0)). fold m1.
  replace (load16 m1 (bb + 16 * nn + 2)) with (load16 m (bb + 16 * nn + 2)); [fold k; unwrap|].
  - assert (0 <= k < nn) by (subst k; lia). by unwrap.
  - pose proof (fill_desc_but m d a l (if w then 2 else 0)) as Hf. fold m1 in Hf. unfold load16. symmetry. f_equal.
    apply (load_frame _ _ _ _ _ _ Hf). subst d. lia.
Qed.

Lemma publish_eq q n b u m :
  shape q n b u -> publish q m = store16 m (b + 16 * n + 2) (wrap16 (load16 m (b + 16 * n + 2) + 1)).
Proof.
  intros [<- <- Ha <- Hn Hp Hb Hu]. unfold publish, avail_hdr. rewrite Ha. by unwrap.
Qed.

Lemma poll_eq q n b u m :
  shape q n b u -> 
  let e := b + u + 4 + 8 * (last_used_idx q mod n) in
  let id := load32 m e in
  0 <= id < n ->
  @poll_used Empty_set q m =
  if last_used_idx q =? load16 m (b + u + 2) then Ok (None, q, m)
  else Ok (Some (id, load32 m (e + 4)), set_heads q id (wrap16 (num_free q + 1)) (wrap16 (last_used_idx q + 1)),
           store16 m (b + 16 * id + 14) (free_head q)).
Proof.
  intros [<- <- Ha <- Hn Hp Hb Hu] e id Hid. unfold poll_used, used_hdr, used_ring, set_next, desc_addr.
  rewrite (proj2 (Z.eqb_neq (size q) 0)) by lia.
  assert (0 <= last_used_idx q mod size q < size q) by lia. unwrap. fold e. fold id. unwrap.
  rewrite (wrap16_small id) by lia. done.
Qed.

Lemma fetch_eq q n b u seen m r :
  shape q n b u -> device_fetch q seen m = Some r ->
  load16 m (b + 16 * n + 2) <> wrap16 seen /\
  let i := load16 m (b + 16 * n + 4 + 2 * (seen mod n)) in
  let d := b + 16 * i in
  r = mkReq i (load64 m d) (load32 m (d + 8)) (negb (Z.land (load16 m (d + 12)) 2 =? 0)).
Proof.
  intros [<- <- Ha <- Hn Hp Hb Hu]. unfold device_fetch, avail_hdr, avail_ring. rewrite Ha, wrap_mod by (lia || done). unwrap.
  destruct (Z.eqb_spec (load16 m (Dma.phys (buf q) + 16 * size q + 2)) (wrap16 seen)) as [|Hne]; [done|].
  intros [= <-]. done.
Qed.

Lemma return_eq q n b u id len m :
  shape q n b u -> let ui := load16 m (b + u + 2) in let e := b + u + 4 + 8 * (ui mod n) in
  device_return q id len m = store16 (store32 (store32 m e id) (e + 4) len) (b + u + 2) (wrap16 (ui + 1)).
Proof. intros [<- <- Ha <- Hn Hp Hb Hu] ui e. unfold device_return, used_hdr, used_ring. by unwrap. Qed.

(** ** The invariant *)
Fixpoint chain (m : mem) (b h : Z) (l : list Z) : Prop :=
  match l with
  | [] => True
  | x :: l => h = x /\ chain m b (load16 m (b + 16 * x + 14)) l
  end.

Lemma chain_ext m m' b h l :
  (forall x, x ∈ l -> load16 m' (b + 16 * x + 14) = load16 m (b + 16 * x + 14)) -> chain m b h l -> chain m' b h l.
Proof.
  revert h. induction l as [|x l IH]; intros h Hx; [done|]. intros [-> Hc]. split; [done|].
  rewrite Hx by left. apply IH; [|done]. intros y Hy. apply Hx. by right.
Qed.

(** Request [r] is in slot [k mod n] of the available ring and in its
    descriptor. *)
Definition offered (m : mem) (n b k : Z) (r : request) : Prop :=
  load16 m (b + 16 * n + 4 + 2 * (k mod n)) = desc r /\ load64 m (b + 16 * desc r) = addr r /\
  load32 m (b + 16 * desc r + 8) = length r /\ load16 m (b + 16 * desc r + 12) = if writable r then 2 else 0.

Definition given (m : mem) (n b u k : Z) (e : Z * Z) : Prop :=
  load32 m (b + u + 4 + 8 * (k mod n)) = e.1 /\ load32 m (b + u + 4 + 8 * (k mod n) + 4) = e.2.

Definition pending (s : vsys) : list request := added s ++ option_list (staged s).

Record inv (n b u : Z) (s : vsys) (fl : list Z) : Prop := {
  i_shape : shape (vq s) n b u;
  i_owned : fl ++ in_flight s ≡ₚ seqZ 0 n;
  i_count : num_free (vq s) = zlen fl;
  i_chain : chain (memory s) b (free_head (vq s)) fl;
  i_aidx : load16 (memory s) (b + 16 * n + 2) = wrap16 (zlen (added s));
  i_offered : forall k r, (List.length (fetched s) <= k)%nat -> pending s !! k = Some r ->
    offered (memory s) n b (Z.of_nat k) r;
  i_fetched : fetched s = take (List.length (fetched s)) (added s);
  i_uidx : load16 (memory s) (b + u + 2) = wrap16 (zlen (returned s));
  i_last : last_used_idx (vq s) = wrap16 (zlen (polled s));
  i_given : forall k e, (List.length (polled s) <= k)%nat -> returned s !! k = Some e ->
    given (memory s) n b u (Z.of_nat k) e;
  i_polled : polled s = take (List.length (polled s)) (returned s);
}.

Lemma prefix_le {A} (l k : list A) : l = take (List.length l) k -> (List.length l <= List.length k)%nat.
Proof. intros H. rewrite H, length_take. lia. Qed.

(** The counts of the four places a descriptor can be. *)
Lemma inv_counts n b u s fl :
  inv n b u s fl ->
  zlen fl + (zlen (pending s) - zlen (fetched s)) + zlen (holding s) + (zlen (returned s) - zlen (polled s)) = n /\
  0 <= zlen (fetched s) <= zlen (added s) /\ zlen (added s) <= zlen (pending s) /\
  0 <= zlen (polled s) <= zlen (returned s) /\ 0 <= zlen fl /\ 0 <= zlen (holding s).
Proof.
  intros Hi. pose proof (prefix_le _ _ (i_fetched _ _ _ _ _ Hi)) as Hf. pose proof (prefix_le _ _ (i_polled _ _ _ _ _ Hi)) as Hp.
  pose proof (Permutation_length (i_owned _ _ _ _ _ Hi)) as Hl. pose proof (sh_n _ _ _ _ (i_shape _ _ _ _ _ Hi)).
  unfold in_flight in Hl. rewrite !length_app, !length_fmap, !length_drop, length_seqZ in Hl.
  unfold pending, zlen. rewrite !length_app. lia.
Qed.

Lemma inv_pending_perm s :
  (List.length (fetched s) <= List.length (added s))%nat ->
  (desc <$> option_list (staged s)) ++ (desc <$> drop (List.length (fetched s)) (added s)) ≡ₚ
  desc <$> drop (List.length (fetched s)) (pending s).
Proof. intros Hf. unfold pending. rewrite drop_app_le, fmap_app by done. apply Permutation_app_comm. Qed.

(** Different entries of the windows are different descriptors, all of them
    in the table. *)
Lemma inv_pending_desc n b u s fl k r :
  inv n b u s fl -> (List.length (fetched s) <= k)%nat -> pending s !! k = Some r ->
  0 <= desc r < n /\ ~ desc r ∈ fl /\ ~ desc r ∈ holding s /\ ~ desc r ∈ (drop (List.length (polled s)) (returned s)).*1 /\
  forall j r', (List.length (fetched s) <= j)%nat -> j <> k -> pending s !! j = Some r' -> desc r' <> desc r.
Proof.
  intros Hi Hk Hr. pose proof (prefix_le _ _ (i_fetched _ _ _ _ _ Hi)) as Hf.
  pose proof (i_owned _ _ _ _ _ Hi) as Hown. unfold in_flight in Hown.
  rewrite (app_assoc (desc <$> option_list (staged s))), inv_pending_perm in Hown by done.
  set (f := List.length (fetched s)) in *. set (pd := desc <$> drop f (pending s)) in *.
  assert (forall j x, (f <= j)%nat -> pending s !! j = Some x -> pd !! (j - f)%nat = Some (desc x)) as Hin.
  { intros j x Hj Hx. subst pd. rewrite list_lookup_fmap, lookup_drop. replace (f + (j - f))%nat with j by lia. by rewrite Hx. }
  assert (NoDup (fl ++ pd ++ holding s ++ (drop (List.length (polled s)) (returned s)).*1)) as Hnd
    by (rewrite Hown; apply NoDup_seqZ).
  assert (desc r ∈ pd) as Hd by exact (list_elem_of_lookup_2 _ _ _ (Hin k r Hk Hr)).
  apply NoDup_app in Hnd as (_ & Hd1 & Hnd). apply NoDup_app in Hnd as (Hnp & Hd2 & Hnd).
  split.
  { assert (desc r ∈ seqZ 0 n) as Hs%elem_of_seqZ by (rewrite <- Hown, !elem_of_app; tauto). lia. }
  split_and!.
  - intros H. apply (Hd1 _ H). rewrite elem_of_app. tauto.
  - intros H. apply (Hd2 _ Hd). rewrite elem_of_app. tauto.
  - intros H. apply (Hd2 _ Hd). rewrite elem_of_app. tauto.
  - intros j r' Hj Hne Hr' Heq. apply Hne.
    pose proof (Hin j r' Hj Hr') as H1. pose proof (Hin k r Hk Hr) as H2. rewrite Heq in H1.
    pose proof (NoDup_lookup _ _ _ _ Hnp H1 H2). lia.
Qed.

(** ** Frames of the views *)
Lemma offered_frame m m' n b k r a w :
  same_but m m' a w ->
  b + 16 * n + 4 + 2 * (k mod n) + 2 <= a \/ a + w <= b + 16 * n + 4 + 2 * (k mod n) ->
  b + 16 * desc r + 14 <= a \/ a + w <= b + 16 * desc r ->
  offered m n b k r -> offered m' n b k r.
Proof.
  intros Hs Ht Hd (H1 & H2 & H3 & H4). unfold offered, load16, load32, load64 in *.
  rewrite !(load_frame _ _ _ _ _ _ Hs) by lia. done.
Qed.

Lemma given_frame m m' n b u k e a w :
  same_but m m' a w ->
  b + u + 4 + 8 * (k mod n) + 8 <= a \/ a + w <= b + u + 4 + 8 * (k mod n) ->
  given m n b u k e -> given m' n b u k e.
Proof.
  intros Hs Ht (H1 & H2). unfold given, load32 in *. rewrite !(load_frame _ _ _ _ _ _ Hs) by lia. done.
Qed.

Lemma load16_frame m m' a w b : same_but m m' a w -> b + 2 <= a \/ a + w <= b -> load16 m' b = load16 m b.
Proof. intros Hs Hd. unfold load16. by rewrite (load_frame _ _ _ _ _ _ Hs) by lia. Qed.

Lemma chain_frame m m' b h l a w :
  same_but m m' a w -> (forall x, x ∈ l -> b + 16 * x + 16 <= a \/ a + w <= b + 16 * x + 14) ->
  chain m b h l -> chain m' b h l.
Proof. intros Hs Hx. apply chain_ext. intros x Hin. apply (load16_frame _ _ _ _ _ Hs). specialize (Hx x Hin). lia. Qed.

Lemma slots_differ n j k : 0 <= j < k -> k - j < n -> j mod n <> k mod n.
Proof.
  intros Hj Hk He. pose proof (Z.div_mod j n ltac:(lia)). pose proof (Z.div_mod k n ltac:(lia)).
  assert (k - j = n * (k / n - j / n)) as Hd by lia. set (q := k / n - j / n) in Hd. clearbody q.
  assert (0 < q) by (apply (Z.mul_pos_cancel_l n); lia). nia.
Qed.

Lemma inv_free_range n b u s fl x : inv n b u s fl -> x ∈ fl -> 0 <= x < n.
Proof.
  intros Hi Hx. assert (x ∈ seqZ 0 n) as H%elem_of_seqZ; [|lia].
  rewrite <- (i_owned _ _ _ _ _ Hi). apply elem_of_app. by left.
Qed.

Lemma inv_place n b u s fl a l (w : bool) idx q' m' :
  inv n b u s fl -> staged s = None -> is_u64 a -> is_u32 l ->
  @place Empty_set (vq s) a l w (memory s) = Ok (Some (idx, q', m')) ->
  exists fl', fl = idx :: fl' /\
  inv n b u (mkSys q' m' (Some (mkReq idx a l w)) (added s) (fetched s) (holding s) (returned s) (polled s)) fl'.
Proof.
  intros Hi Hst Ha Hl Hp. pose proof (inv_counts _ _ _ _ _ Hi) as (Hcnt & Hfa & Hap & Hpr & Hfl & Hho).
  destruct Hi as [Hsh Hown Hnf Hch Hai Hoff Hfe Hui Hlast Hgiv Hpol] eqn:Heq. clear Heq.
  destruct fl as [|x fl'].
  { unfold place in Hp. rewrite Hnf in Hp. done. }
  destruct Hch as [Hfh Hch].
  assert (0 <= x < n) as Hx by (apply (inv_free_range n b u s (x :: fl')); [by split|left]).
  assert (NoDup (x :: fl')) as Hnd.
  { assert (NoDup ((x :: fl') ++ in_flight s)) as [? _]%NoDup_app; [rewrite Hown; apply NoDup_seqZ|done]. }
  apply NoDup_cons in Hnd as [Hxfl Hnd].
  pose proof (sh_n _ _ _ _ Hsh) as Hn. pose proof (sh_pow _ _ _ _ Hsh) as Hpow. pose proof (sh_u _ _ _ _ Hsh) as Hu.
  rewrite (place_eq _ n b u) in Hp by (done || lia). cbv zeta in Hp. rewrite Hfh, Hnf, Hai, wrap_mod in Hp by (done || lia).
  rewrite zlen_cons in Hp, Hcnt. pose proof (zlen_nonneg fl'). rewrite (proj2 (Z.eqb_neq _ _)) in Hp by lia.
  injection Hp as <- <- <-. exists fl'. split; [done|].
  set (k0 := zlen (added s) mod n). assert (0 <= k0 < n) as Hk0 by (subst k0; lia).
  set (d := b + 16 * x). set (m1 := fill_desc (memory s) d a l (if w then 2 else 0)).
  pose proof (fill_desc_but (memory s) d a l (if w then 2 else 0)) as Hf1. fold m1 in Hf1.
  set (slot := b + 16 * n + 4 + 2 * k0). pose proof (store16_but m1 slot x) as Hf2. set (m2 := store16 m1 slot x) in *.
  assert (pending s = added s) as Hpend by (unfold pending; rewrite Hst; cbn; by rewrite app_nil_r).
  split; cbn [vq memory staged added fetched holding returned polled]; try done.
  - by apply shape_heads.
  - rewrite <- Hown. unfold in_flight. rewrite Hst. cbn. symmetry. apply Permutation_middle.
  - cbn. unfold wrap16. rewrite Z.mod_small; lia.
  - cbn [free_head set_heads]. assert (forall y, y ∈ fl' -> 0 <= y < n /\ y <> x) as Hy.
    { intros y Hy. split; [|congruence]. apply (inv_free_range n b u s (x :: fl')); [by split|by right]. }
    eapply chain_frame; [exact Hf2|intros y Hin; specialize (Hy y Hin); subst slot; lia|].
    eapply chain_frame; [exact Hf1|intros y Hin; specialize (Hy y Hin); subst d; lia|done].
  - rewrite (load16_frame _ _ _ _ _ Hf2), (load16_frame _ _ _ _ _ Hf1) by (subst slot d; lia). done.
  - unfold pending. cbn [added staged option_list]. intros k r Hk Hr.
    destruct (decide (k < List.length (added s))%nat) as [Hlt|Hge].
    + rewrite lookup_app_l in Hr by done. rewrite <- Hpend in Hr.
      destruct (inv_pending_desc n b u s (x :: fl') k r) as (Hdr & Hne & _); [by split|done|done|].
      assert (desc r <> x) by (intros Hdx; apply Hne; rewrite Hdx; left).
      assert (Z.of_nat k mod n <> k0) by (unfold zlen in *; apply slots_differ; lia). 
      assert (0 <= Z.of_nat k mod n < n) by lia.
      eapply offered_frame; [exact Hf2|subst slot; lia|subst slot; lia|].
      eapply offered_frame; [exact Hf1|subst d; lia|subst d; lia|]. by apply Hoff.
    + rewrite lookup_app_r in Hr by lia.
      assert (k = List.length (added s)) as -> by (apply lookup_lt_Some in Hr; cbn in Hr; lia).
      rewrite Nat.sub_diag in Hr. injection Hr as <-. unfold offered. cbn [desc addr length writable].
      fold (zlen (added s)). fold k0. fold slot. fold d. split.
      { subst m2. apply load16_store16. unfold is_u16. lia. }
      destruct (fill_desc_reads (memory s) d a l (if w then 2 else 0)) as (H1 & H2 & H3); [done|done|by destruct w|].
      fold m1 in H1, H2, H3. unfold load16, load32, load64 in *.
      rewrite !(load_frame _ _ _ _ _ _ Hf2) by (subst slot d; lia). done.
  - rewrite (load16_frame _ _ _ _ _ Hf2), (load16_frame _ _ _ _ _ Hf1) by (subst slot d; lia). done.
  - intros k e Hk He. assert (0 <= Z.of_nat k mod n < n) by lia.
    eapply given_frame; [exact Hf2|subst slot; lia|]. eapply given_frame; [exact Hf1|subst d; lia|]. by apply Hgiv.
Qed.

Lemma inv_publish n b u s fl r :
  inv n b u s fl -> staged s = Some r ->
  inv n b u (mkSys (vq s) (publish (vq s) (memory s)) None (added s ++ [r]) (fetched s) (holding s) (returned s) (polled s)) fl.
Proof.
  intros Hi Hst. pose proof (inv_counts _ _ _ _ _ Hi) as (Hcnt & Hfa & Hap & Hpr & Hfl & Hho). pose proof Hi as Hi0.
  destruct Hi as [Hsh Hown Hnf Hch Hai Hoff Hfe Hui Hlast Hgiv Hpol].
  pose proof (sh_n _ _ _ _ Hsh) as Hn. pose proof (sh_u _ _ _ _ Hsh) as Hu.
  rewrite (publish_eq _ _ _ _ _ Hsh), Hai. set (a := b + 16 * n + 2). set (v := wrap16 (wrap16 (zlen (added s)) + 1)).
  pose proof (store16_but (memory s) a v) as Hf. set (m := store16 (memory s) a v) in *.
  assert (pending (mkSys (vq s) m None (added s ++ [r]) (fetched s) (holding s) (returned s) (polled s)) = pending s) as Hpend
    by (unfold pending; cbn; rewrite Hst; cbn; by rewrite app_nil_r).
  split; cbn [vq memory staged added fetched holding returned polled]; try done.
  - rewrite <- Hown. unfold in_flight. cbn [staged added fetched holding returned polled]. rewrite Hst.
    apply Permutation_app_head. rewrite drop_app_le by (unfold zlen in *; lia). rewrite fmap_app. cbn.
    rewrite <- app_assoc. cbn. symmetry. apply Permutation_middle.
  - eapply chain_frame; [exact Hf| |done]. intros x Hx. apply (inv_free_range _ _ _ _ _ _ Hi0) in Hx. subst a. lia.
  - subst m. rewrite load16_store16 by apply wrap16_range. subst v. rewrite zlen_app. unfold wrap16, zlen. cbn. by rewrite Zplus_mod_idemp_l.
  - rewrite Hpend. intros k r' Hk Hr. destruct (inv_pending_desc _ _ _ _ _ k r' Hi0 Hk Hr) as (Hdr & _).
    assert (0 <= Z.of_nat k mod n < n) by lia. eapply offered_frame; [exact Hf|subst a; lia|subst a; lia|]. by apply Hoff.
  - rewrite take_app_le by (unfold zlen in *; lia). done.
  - rewrite (load16_frame _ _ _ _ _ Hf) by (subst a; lia). done.
  - intros k e Hk He. assert (0 <= Z.of_nat k mod n < n) by lia. eapply given_frame; [exact Hf|subst a; lia|]. by apply Hgiv.
Qed.

(** What is next for the driver to see, if anything. *)
Lemma poll_cases n b u s fl :
  inv n b u s fl ->
  (@poll_used Empty_set (vq s) (memory s) = Ok (None, vq s, memory s) /\ returned s = polled s) \/
  exists id len rest, drop (List.length (polled s)) (returned s) = (id, len) :: rest /\ 0 <= id < n /\
    @poll_used Empty_set (vq s) (memory s) =
    Ok (Some (id, len), set_heads (vq s) id (wrap16 (num_free (vq s) + 1)) (wrap16 (last_used_idx (vq s) + 1)),
        store16 (memory s) (b + 16 * id + 14) (free_head (vq s))).
Proof.
  intros Hi. pose proof (inv_counts _ _ _ _ _ Hi) as (Hcnt & Hfa & Hap & Hpr & Hfl & Hho).
  pose proof (i_shape _ _ _ _ _ Hi) as Hsh. pose proof (sh_n _ _ _ _ Hsh) as Hn. pose proof (sh_pow _ _ _ _ Hsh) as Hpow.
  destruct (drop (List.length (polled s)) (returned s)) as [|[id len] rest] eqn:Hd.
  - left. assert (returned s = polled s) as He.
    { rewrite (i_polled _ _ _ _ _ Hi), <- (take_drop (List.length (polled s)) (returned s)) at 1. rewrite Hd. by rewrite app_nil_r. }
    split; [|done]. unfold poll_used, used_hdr. destruct Hsh as [<- <- Ha <- _ Hp Hb Hu]. unwrap.
    rewrite (i_uidx _ _ _ _ _ Hi), (i_last _ _ _ _ _ Hi), He, Z.eqb_refl. done.
  - right. exists id, len, rest. split; [done|].
    assert (returned s !! List.length (polled s) = Some (id, len)) as Hl.
    { rewrite <- (Nat.add_0_r (List.length (polled s))), <- lookup_drop, Hd. done. }
    destruct (i_given _ _ _ _ _ Hi _ _ ltac:(done) Hl) as (Hid & Hlen). cbn [fst snd] in *. fold (zlen (polled s)) in *.
    assert (0 <= id < n) as Hrange.
    { assert (id ∈ seqZ 0 n) as H%elem_of_seqZ; [|lia]. rewrite <- (i_owned _ _ _ _ _ Hi). unfold in_flight.
      rewrite Hd. rewrite !elem_of_app. do 4 right. cbn. left. }
    split; [done|]. rewrite (poll_eq _ _ _ _ _ Hsh); rewrite (i_last _ _ _ _ _ Hi), wrap_mod by (done || lia); rewrite Hid; [|done].
    rewrite (i_uidx _ _ _ _ _ Hi), Hlen. rewrite (proj2 (Z.eqb_neq _ _)); [done|].
    apply (f_equal List.length) in Hd. rewrite length_drop in Hd. cbn in Hd. unfold wrap16, zlen in *. lia.
Qed.

Lemma inv_poll n b u s fl o q' m' :
  inv n b u s fl -> staged s = None -> @poll_used Empty_set (vq s) (memory s) = Ok (o, q', m') ->
  inv n b u (mkSys q' m' None (added s) (fetched s) (holding s) (returned s)
               (polled s ++ match o with Some e => [e] | None => [] end))
    (match o with Some e => e.1 :: fl | None => fl end).
Proof.
  intros Hi Hst Hp. pose proof (inv_counts _ _ _ _ _ Hi) as (Hcnt & Hfa & Hap & Hpr & Hfl & Hho). pose proof Hi as Hi0.
  assert (pending s = added s) as Hpend by (unfold pending; rewrite Hst; cbn; by rewrite app_nil_r).
  destruct (poll_cases _ _ _ _ _ Hi) as [[He _]|(id & len & rest & Hd & Hid & He)]; rewrite He in Hp; injection Hp as <- <- <-.
  { rewrite app_nil_r. destruct s. cbn in Hst. subst. done. }
  destruct Hi as [Hsh Hown Hnf Hch Hai Hoff Hfe Hui Hlast Hgiv Hpol].
  pose proof (sh_n _ _ _ _ Hsh) as Hn. pose proof (sh_u _ _ _ _ Hsh) as Hu.
  assert (zlen (returned s) - zlen (polled s) = 1 + zlen rest) as Hrest.
  { apply (f_equal List.length) in Hd. rewrite length_drop in Hd. cbn in Hd. unfold zlen in *. lia. }
  pose proof (zlen_nonneg rest).
  set (a := b + 16 * id + 14). set (v := free_head (vq s)).
  pose proof (store16_but (memory s) a v) as Hf. set (m := store16 (memory s) a v) in *.
  assert (List.length (polled s ++ [(id, len)]) = S (List.length (polled s))) as Hpl by (rewrite length_app; cbn; lia).
  assert (returned s = polled s ++ (id, len) :: rest) as Hret
    by (rewrite <- (take_drop (List.length (polled s)) (returned s)), Hd; by rewrite <- Hpol).
  assert (~ id ∈ fl) as Hnew.
  { intros Hin. assert (NoDup (fl ++ in_flight s)) as (_ & Hdis & _)%NoDup_app by (rewrite Hown; apply NoDup_seqZ).
    apply (Hdis id Hin). unfold in_flight. rewrite Hd. rewrite !elem_of_app. do 3 right. left. }
  split; cbn [vq memory staged added fetched holding returned polled fst]; try done.
  - by apply shape_heads.
  - rewrite <- Hown. unfold in_flight. cbn [staged added fetched holding returned polled]. rewrite Hst, Hpl, Hd.
    replace (drop (S (List.length (polled s))) (returned s)) with rest.
    2: { rewrite Hret. rewrite drop_app_ge by lia. by replace (S (List.length (polled s)) - List.length (polled s))%nat with 1%nat by lia. }
    cbn. rewrite !app_assoc. apply Permutation_middle.
  - cbn. rewrite Hnf, zlen_cons. unfold wrap16. rewrite Z.mod_small; lia.
  - cbn [free_head set_heads chain]. split; [done|]. destruct fl as [|x fl']; [done|]. destruct Hch as [Hx Hch].
    assert (0 <= x < n) by (apply (inv_free_range _ _ _ _ _ _ Hi0); left). split.
    + fold a. subst m v. rewrite load16_store16; [done|]. unfold is_u16. lia.
    + assert (x <> id) by (intros ->; apply Hnew; left).
      rewrite (load16_frame _ _ _ _ _ Hf) by (subst a; lia).
      eapply chain_frame; [exact Hf| |done]. intros y Hy.
      assert (y <> id) by (intros ->; apply Hnew; by right).
      assert (0 <= y < n) by (apply (inv_free_range _ _ _ _ _ _ Hi0); by right). subst a. lia.
  - rewrite (load16_frame _ _ _ _ _ Hf) by (subst a; lia). done.
  - unfold pending. cbn [added staged option_list]. rewrite app_nil_r, <- Hpend. intros k r Hk Hr.
    destruct (inv_pending_desc _ _ _ _ _ k r Hi0 Hk Hr) as (Hdr & _ & _ & Hni & _).
    assert (desc r <> id) by (intros Hdx; apply Hni; rewrite Hd, Hdx; left).
    assert (0 <= Z.of_nat k mod n < n) by lia. eapply offered_frame; [exact Hf|subst a; lia|subst a; lia|]. by apply Hoff.
  - rewrite (load16_frame _ _ _ _ _ Hf) by (subst a; lia). done.
  - cbn. rewrite Hlast, zlen_app. unfold wrap16, zlen. cbn. by rewrite Zplus_mod_idemp_l.
  - rewrite Hpl. intros k e Hk Hke. assert (0 <= Z.of_nat k mod n < n) by lia.
    eapply given_frame; [exact Hf|subst a; lia|]. apply Hgiv; [lia|done].
  - rewrite Hpl, Hret. rewrite take_app_ge by lia.
    by replace (S (List.length (polled s)) - List.length (polled s))%nat with 1%nat by lia.
Qed.

(** What the device finds: the next request, as it was offered. *)
Lemma fetch_next n b u s fl r :
  inv n b u s fl -> device_fetch (vq s) (zlen (fetched s)) (memory s) = Some r ->
  added s !! List.length (fetched s) = Some r.
Proof.
  intros Hi Hf. pose proof (inv_counts _ _ _ _ _ Hi) as (Hcnt & Hfa & Hap & Hpr & Hfl & Hho).
  destruct (fetch_eq _ _ _ _ _ _ _ (i_shape _ _ _ _ _ Hi) Hf) as [Hne Hr]. rewrite (i_aidx _ _ _ _ _ Hi) in Hne.
  assert (List.length (fetched s) < List.length (added s))%nat as Hlt.
  { unfold zlen in *. destruct (decide (List.length (fetched s) = List.length (added s))) as [He|]; [|lia]. rewrite He in Hne. done. }
  destruct (lookup_lt_is_Some_2 _ _ Hlt) as [r0 Hr0]. rewrite Hr0. f_equal.
  destruct (i_offered _ _ _ _ _ Hi (List.length (fetched s)) r0) as (H1 & H2 & H3 & H4); [done|by apply lookup_app_l_Some|].
  fold (zlen (fetched s)) in H1. cbv zeta in Hr. rewrite H1, H2, H3, H4 in Hr. rewrite Hr. destruct r0 as [? ? ? []]; done.
Qed.

Lemma inv_fetch n b u s fl r :
  inv n b u s fl -> device_fetch (vq s) (zlen (fetched s)) (memory s) = Some r ->
  inv n b u (mkSys (vq s) (memory s) (staged s) (added s) (fetched s ++ [r]) (holding s ++ [desc r]) (returned s) (polled s)) fl.
Proof.
  intros Hi Hf. pose proof (fetch_next _ _ _ _ _ _ Hi Hf) as Hr. pose proof (lookup_lt_Some _ _ _ Hr) as Hlt.
  destruct Hi as [Hsh Hown Hnf Hch Hai Hoff Hfe Hui Hlast Hgiv Hpol].
  assert (List.length (fetched s ++ [r]) = S (List.length (fetched s))) as Hl by (rewrite length_app; cbn; lia).
  split; cbn [vq memory staged added fetched holding returned polled]; try done.
  - rewrite <- Hown. unfold in_flight. cbn [staged added fetched holding returned polled]. rewrite Hl.
    apply Permutation_app_head, Permutation_app_head. rewrite (drop_S _ _ _ Hr). cbn [fmap list_fmap].
    rewrite <- app_assoc. cbn [app]. rewrite !(app_assoc (desc <$> _)). symmetry. 
    rewrite <- (Permutation_middle ((desc <$> _) ++ holding s)). done.
  - unfold pending in *. cbn [added staged]. rewrite Hl. intros k r' Hk. apply Hoff. lia.
  - rewrite Hl, (take_S_r _ _ _ Hr). by rewrite <- Hfe.
Qed.

Lemma inv_return n b u s fl h1 id h2 len :
  inv n b u s fl -> holding s = h1 ++ id :: h2 -> is_u32 len ->
  inv n b u (mkSys (vq s) (device_return (vq s) id len (memory s)) (staged s) (added s) (fetched s) (h1 ++ h2)
               (returned s ++ [(id, len)]) (polled s)) fl.
Proof.
  intros Hi Hh Hlen. pose proof (inv_counts _ _ _ _ _ Hi) as (Hcnt & Hfa & Hap & Hpr & Hfl & Hho). pose proof Hi as Hi0.
  destruct Hi as [Hsh Hown Hnf Hch Hai Hoff Hfe Hui Hlast Hgiv Hpol].
  pose proof (sh_n _ _ _ _ Hsh) as Hn. pose proof (sh_pow _ _ _ _ Hsh) as Hpow. pose proof (sh_u _ _ _ _ Hsh) as Hu.
  rewrite Hh, zlen_app, zlen_cons in Hcnt. pose proof (zlen_nonneg h1). pose proof (zlen_nonneg h2).
  assert (0 <= id < n) as Hid.
  { assert (id ∈ seqZ 0 n) as H'%elem_of_seqZ; [|lia]. rewrite <- Hown. unfold in_flight. rewrite Hh, !elem_of_app. do 3 right. left. right. left. }
  rewrite (return_eq _ _ _ _ _ _ _ Hsh), Hui, wrap_mod by (done || lia).
  set (k0 := zlen (returned s) mod n). assert (0 <= k0 < n) as Hk0 by (subst k0; lia).
  set (e := b + u + 4 + 8 * k0). set (m1 := store32 (memory s) e id). set (m2 := store32 m1 (e + 4) len).
  set (a := b + u + 2). set (v := wrap16 (wrap16 (zlen (returned s)) + 1)).
  pose proof (store32_but (memory s) e id) as Hf1. fold m1 in Hf1. pose proof (store32_but m1 (e + 4) len) as Hf2. fold m2 in Hf2.
  pose proof (same_but_join _ _ _ _ _ _ _ e 8 Hf1 Hf2 ltac:(lia) ltac:(lia) ltac:(lia) ltac:(lia)) as Hf12.
  pose proof (store16_but m2 a v) as Hf3. set (m := store16 m2 a v) in *.
  assert (a + 2 <= e /\ e + 8 <= b + u + 6 + 8 * n /\ a = b + u + 2 /\ e = b + u + 4 + 8 * k0) as (Hae & Hbe & Hadef & Hedef) by (subst a e; lia).
  split; cbn [vq memory staged added fetched holding returned polled]; try done.
  - rewrite <- Hown. unfold in_flight. cbn [staged added fetched holding returned polled]. rewrite Hh.
    apply Permutation_app_head, Permutation_app_head, Permutation_app_head.
    rewrite drop_app_le by (unfold zlen in *; lia). rewrite fmap_app. cbn. rewrite <- (app_assoc h1 (id :: h2)). cbn [app].
    rewrite <- app_assoc. apply Permutation_app_head. rewrite app_assoc. symmetry. apply Permutation_cons_append.
  - eapply chain_frame; [exact Hf3|intros x Hx; apply (inv_free_range _ _ _ _ _ _ Hi0) in Hx; lia|].
    eapply chain_frame; [exact Hf12|intros x Hx; apply (inv_free_range _ _ _ _ _ _ Hi0) in Hx; lia|done].
  - rewrite (load16_frame _ _ _ _ _ Hf3), (load16_frame _ _ _ _ _ Hf12) by lia. done.
  - intros k r Hk Hr. destruct (inv_pending_desc _ _ _ _ _ k r Hi0 Hk Hr) as (Hdr & _).
    assert (0 <= Z.of_nat k mod n < n) by lia.
    eapply offered_frame; [exact Hf3|lia|lia|]. eapply offered_frame; [exact Hf12|lia|lia|]. by apply Hoff.
  - subst m. rewrite load16_store16 by apply wrap16_range. subst v. rewrite zlen_app. unfold wrap16, zlen. cbn. by rewrite Zplus_mod_idemp_l.
  - intros k [id' len'] Hk He. destruct (decide (k < List.length (returned s))%nat) as [Hlt|Hge].
    + rewrite lookup_app_l in He by done.
      assert (Z.of_nat k mod n <> k0) by (unfold zlen in *; apply slots_differ; lia). assert (0 <= Z.of_nat k mod n < n) by lia.
      eapply given_frame; [exact Hf3|lia|]. eapply given_frame; [exact Hf12|lia|]. by apply Hgiv.
    + rewrite lookup_app_r in He by lia.
      assert (k = List.length (returned s)) as -> by (apply lookup_lt_Some in He; cbn in He; lia).
      rewrite Nat.sub_diag in He. injection He as <- <-. unfold given. cbn [fst snd]. fold (zlen (returned s)). fold k0. fold e.
      unfold load32. rewrite !(load_frame _ _ _ _ _ _ Hf3) by lia. split.
      * rewrite (load_frame _ _ _ _ _ _ Hf2) by lia. apply load32_store32. unfold is_u32. lia.
      * by apply load32_store32.
  - rewrite take_app_le by (unfold zlen in *; lia). done.
Qed.

Lemma inv_other n b u s fl m' :
  inv n b u s fl -> same_at (memory s) m' (Dma.phys (buf (vq s))) (total (vq s)) ->
  inv n b u (mkSys (vq s) m' (staged s) (added s) (fetched s) (holding s) (returned s) (polled s)) fl.
Proof.
  intros Hi Hs. pose proof Hi as Hi0. destruct Hi as [Hsh Hown Hnf Hch Hai Hoff Hfe Hui Hlast Hgiv Hpol].
  pose proof (sh_n _ _ _ _ Hsh) as Hn. pose proof (sh_u _ _ _ _ Hsh) as Hu.
  unfold total in Hs. rewrite (sh_phys _ _ _ _ Hsh), (sh_size _ _ _ _ Hsh), (sh_used _ _ _ _ Hsh) in Hs.
  assert (forall a k, b <= a -> a + k <= b + u + 6 + 8 * n -> load m' a k = load (memory s) a k) as Hld.
  { intros a k ??. apply load_same. eapply same_at_mono; [exact Hs|lia|lia]. }
  split; cbn [vq memory staged added fetched holding returned polled]; try done.
  - eapply chain_ext; [|exact Hch]. intros x Hx. apply (inv_free_range _ _ _ _ _ _ Hi0) in Hx. unfold load16. by rewrite Hld by lia.
  - unfold load16. by rewrite Hld by lia.
  - intros k r Hk Hr. destruct (inv_pending_desc _ _ _ _ _ k r Hi0 Hk Hr) as (Hdr & _). assert (0 <= Z.of_nat k mod n < n) by lia.
    destruct (Hoff k r Hk Hr) as (H1 & H2 & H3 & H4). unfold offered, load16, load32, load64 in *. by rewrite !Hld by lia.
  - unfold load16. by rewrite Hld by lia.
  - intros k e Hk He. assert (0 <= Z.of_nat k mod n < n) by lia. destruct (Hgiv k e Hk He) as (H1 & H2).
    unfold given, load32 in *. by rewrite !Hld by lia.
Qed.

Lemma inv_step n b u s fl s' : inv n b u s fl -> vstep s s' -> exists fl', inv n b u s' fl'.
Proof.
  intros Hi Hs. inversion Hs; subst; clear Hs.
  - edestruct inv_place as (fl' & _ & ?); eauto.
  - eexists. by apply inv_publish.
  - eexists. eapply inv_poll; eauto.
  - eexists. by apply inv_fetch.
  - eexists. by eapply inv_return.
  - eexists. by apply inv_other.
Qed.

(** ** A new queue *)
Definition zeroed (m : mem) (a n : Z) : Prop := forall x, a <= x < a + n -> load8 m x = 0.

Lemma zeroed_load16 m a n b : zeroed m a n -> a <= b -> b + 2 <= a + n -> load16 m b = 0.
Proof.
  intros Hz ??. unfold load16, load. rewrite (seqZ_cons b 2), (seqZ_cons (Z.succ b)) by lia. change (Z.pred (Z.pred 2)) with 0. cbn [fmap list_fmap].
  by rewrite !Hz by lia.
Qed.

Lemma store_zeroed m a n : 0 <= n -> zeroed (store m a (replicate (Z.to_nat n) 0)) a n.
Proof.
  intros Hn x Hx. rewrite load8_store, zlen_replicate, Z2Nat.id by lia. rewrite bool_decide_eq_true_2 by lia.
  by rewrite lookup_replicate_2 by lia.
Qed.

Lemma layout_ok n :
  0 < n < 2 ^ 16 -> exists u, legacy_layout n = (u + 6 + 8 * n, 16 * n, u) /\ 18 * n + 6 <= u <= 18 * n + 6 + 4096 /\ (4096 | u).
Proof.
  intros Hn. unfold legacy_layout. unwrap. replace (16 * n + (6 + 2 * n)) with (18 * n + 6) by lia.
  pose proof (align_up64_spec (18 * n + 6) 12 ltac:(lia) ltac:(lia) ltac:(lia)) as (Hu & Hdiv & _).
  change (2 ^ 12) with 4096 in *. set (u := align_up64 (18 * n + 6) 4096) in *. exists u. unwrap.
  split; [do 2 f_equal; lia|]. split; [lia|done].
Qed.

Lemma init_free_ok b n m0 :
  0 < n < 2 ^ 16 -> 0 <= b <= 2 ^ 32 ->
  same_but m0 (init_free b n m0) b (16 * n) /\
  forall i, 0 <= i < n -> load16 (init_free b n m0) (b + 16 * i + 14) = if i + 1 <? n then i + 1 else 0.
Proof.
  intros Hn Hb. unfold init_free.
  assert (forall k, Z.of_nat k <= n ->
    let m := foldl (fun m i => set_flags (set_next m b i (if wrap16 (i + 1) <? n then wrap16 (i + 1) else 0)) b i 0)
      m0 (seqZ 0 (Z.of_nat k)) in
    same_but m0 m b (16 * Z.of_nat k) /\
    forall i, 0 <= i < Z.of_nat k -> load16 m (b + 16 * i + 14) = if i + 1 <? n then i + 1 else 0) as Hgen.
  { induction k as [|k IH]; intros Hk; cbv zeta; [split; [by intros x _|lia]|].
    destruct (IH ltac:(lia)) as [Hs Hi]. rewrite Nat2Z.inj_succ, <- Z.add_1_r, seqZ_app by lia. rewrite foldl_app.
    replace (seqZ (0 + Z.of_nat k) 1) with [Z.of_nat k] by (unfold seqZ; cbn; f_equal; lia). cbn [foldl].
    set (m1 := foldl _ m0 (seqZ 0 (Z.of_nat k))) in *. unfold set_flags, set_next, desc_addr. unwrap.
    set (v := if wrap16 (Z.of_nat k + 1) <? n then wrap16 (Z.of_nat k + 1) else 0).
    set (d := b + 16 * Z.of_nat k). pose proof (store16_but m1 (d + 14) v) as H1. set (m2 := store16 m1 (d + 14) v) in *.
    pose proof (store16_but m2 (d + 12) 0) as H2. split.
    - eapply same_but_join; [|eapply (same_but_join _ _ _ _ _ _ _ d 16 H1 H2); lia|..]; [exact Hs|subst d; lia..].
    - intros i Hik. rewrite (load16_frame _ _ _ _ _ H2) by (subst d; lia).
      destruct (decide (i = Z.of_nat k)) as [->|Hne].
      + fold d. subst m2. rewrite load16_store16. { subst v. unfold wrap16. by rewrite Z.mod_small by lia. }
        subst v. unfold wrap16. rewrite Z.mod_small by lia. unfold is_u16. destruct (Z.ltb_spec (Z.of_nat k + 1) n); lia.
      + rewrite (load16_frame _ _ _ _ _ H1) by (subst d; lia). apply Hi. lia. }
  specialize (Hgen (Z.to_nat n)). rewrite Z2Nat.id in Hgen by lia. apply Hgen. lia.
Qed.

Lemma chain_seq m b n :
  (forall i, 0 <= i < n -> load16 m (b + 16 * i + 14) = if i + 1 <? n then i + 1 else 0) -> 0 < n ->
  chain m b 0 (seqZ 0 n).
Proof.
  intros Hi Hn.
  assert (forall (k : nat) h, 0 <= h -> h + Z.of_nat k = n -> chain m b h (seqZ h (Z.of_nat k))) as Hgen.
  { induction k as [|k IH]; intros h Hh Hk; [done|]. rewrite seqZ_cons by lia. split; [done|].
    replace (Z.pred (Z.of_nat (S k))) with (Z.of_nat k) by lia. rewrite Hi by lia.
    destruct k as [|k]; [done|]. rewrite (proj2 (Z.ltb_lt _ _)) by lia. rewrite <- Z.add_1_r. apply IH; lia. }
  specialize (Hgen (Z.to_nat n) 0). rewrite Z2Nat.id in Hgen by lia. apply Hgen; lia.
Qed.

(** ** Memory that is in use stays as it is under an allocation *)
Definition owns (s : Phys.AllocatorInner) (a n : Z) : Prop :=
  forall x, a <= x < a + n -> x / 4096 ∈ Phys.used_pages s.

(** What an allocation that ends in [w'] leaves of the memory in use. *)
Definition keeps (w w' : Dma.hw mem) : Prop :=
  Phys.wf (Dma.pages w') /\
  forall a n, owns (Dma.pages w) a n -> owns (Dma.pages w') a n /\ same_at (Dma.dev w) (Dma.dev w') a n.

(** Region [a, a + n) is new in [w']: apart from everything in use before. *)
Definition fresh_region (w w' : Dma.hw mem) (a n : Z) : Prop :=
  owns (Dma.pages w') a n /\ 0 <= a /\ a + n <= 2 ^ 32 /\ (4096 | a) /\
  forall b k, 0 < k -> owns (Dma.pages w) b k -> a + n <= b \/ b + k <= a.

Lemma keeps_trans w1 w2 w3 : keeps w1 w2 -> keeps w2 w3 -> keeps w1 w3.
Proof.
  intros [_ H12] [Hwf H23]. split; [done|]. intros a n Ho. destruct (H12 a n Ho) as [Ho2 Hs].
  destruct (H23 a n Ho2) as [Ho3 Hs']. split; [done|]. intros x Hx. by rewrite Hs', Hs.
Qed.

Lemma dma_alloc_owned bytes w :
  Phys.wf (Dma.pages w) -> 0 < bytes < 2 ^ 62 ->
  (exists b w', Nvme.dma_alloc bytes w = (Ok b, w') /\ zlen (Dma.data b) = bytes /\ keeps w w' /\
     fresh_region w w' (Dma.phys b) bytes /\ zeroed (Dma.dev w') (Dma.phys b) bytes) \/
  Nvme.dma_alloc bytes w = (Err Phys.OutOfMemory, w).
Proof.
  intros Hwf Hb. destruct (Nvme.dma_alloc_ok bytes w Hwf Hb) as [(p & s' & Hc & Hpost & Heq & _)|[Heq _]]; [|by right].
  left. eexists _, _. split; [exact Heq|]. cbn [Dma.phys Dma.data Dma.dev Dma.pages].
  pose proof (Nvme.candidate_bound _ _ _ Hwf Hc) as [Hp0 Hpe]. destruct Hc as (_ & _ & _ & Hrun).
  destruct Hpost as (Hwf' & Hused & _). set (c := Nvme.pages_needed bytes) in *.
  assert (bytes <= c * 4096) as Hcb by (subst c; unfold Nvme.pages_needed; lia).
  pose proof (run_free_disjoint _ Phys.MAX_PAGES _ _ Hrun) as Hdisj.
  assert (forall x, p * 4096 <= x < (p + c) * 4096 -> x / 4096 ∈ zrange p c) as Hin by (intros x Hx; rewrite elem_of_zrange; lia).
  assert (forall x, x / 4096 ∈ Phys.used_pages w.(Dma.pages) -> ~ p * 4096 <= x < (p + c) * 4096) as Hout.
  { intros x Hx Hr. apply (Hdisj (x / 4096)); [exact Hx|by apply Hin]. }
  split; [rewrite zlen_replicate; lia|]. split; [|split; [split; [|split; [lia|split; [lia|split; [by apply Z.divide_factor_r|]]]]|]].
  - split; [done|]. cbn [Dma.dev Dma.pages]. intros a n Ho. split.
    + intros x Hx. rewrite Hused. apply elem_of_union_l. by apply Ho.
    + intros x Hx. apply store_same_but. rewrite zlen_replicate. specialize (Hout x (Ho x Hx)). lia.
  - intros x Hx. cbn [Dma.pages]. rewrite Hused. apply elem_of_union_r, Hin. lia.
  - intros a k Hk Ho. destruct (decide (p * 4096 + bytes <= a)) as [|H1]; [by left|]. destruct (decide (a + k <= p * 4096)) as [|H2]; [by right|].
    exfalso. apply (Hout (Z.max a (p * 4096))); [apply Ho; lia|lia].
  - intros x Hx. apply store_zeroed; lia.
Qed.

(** [Virtqueue::new] runs out of memory, or makes an empty queue. *)
Lemma queue_new_ok n w :
  Phys.wf (Dma.pages w) -> 0 < n < 2 ^ 16 -> (n | 2 ^ 16) ->
  (exists q w' b u, new n w = (Ok q, w') /\ inv n b u (start q (Dma.dev w')) (seqZ 0 n) /\
     keeps w w' /\ fresh_region w w' b (u + 6 + 8 * n)) \/
  new n w = (Err Phys.OutOfMemory, w).
Proof.
  intros Hwf Hn Hp. destruct (layout_ok n Hn) as (u & Hlay & Hu & Hdiv). unfold new. rewrite Hlay.
  destruct (dma_alloc_owned (u + 6 + 8 * n) w Hwf ltac:(lia)) as [(d & w1 & Heq & Hl & Hk & Hfresh & Hz)|Heq].
  - left. unfold mbind, st_bind. rewrite Heq. cbn -[init_free].
    destruct Hfresh as (Ho & Hb0 & Hb1 & Hb2 & Hap). set (b := Dma.phys d) in *.
    destruct (init_free_ok b n (Dma.dev w1) Hn ltac:(lia)) as [Hs Hnext]. set (m := init_free b n (Dma.dev w1)) in *.
    eexists _, _, b, u. split; [done|]. split; [|split].
    + split; cbn [start vq memory staged added fetched holding returned polled free_head num_free last_used_idx Dma.dev]; try done.
      * split; cbn [size buf Dma.phys avail_offset used_offset]; lia || done.
      * unfold in_flight. cbn. by rewrite app_nil_r.
      * unfold zlen. rewrite length_seqZ. lia.
      * apply chain_seq; [done|lia].
      * rewrite (load16_frame _ _ _ _ _ Hs) by lia. by eapply zeroed_load16; [exact Hz|lia..].
      * rewrite (load16_frame _ _ _ _ _ Hs) by lia. by eapply zeroed_load16; [exact Hz|lia..].
    + split; [apply Hk|]. cbn [Dma.dev Dma.pages]. intros a k Ho'. destruct (proj2 Hk a k Ho') as [H1 H2]. split; [done|].
      intros x Hx. rewrite <- (H2 x Hx). apply Hs. destruct (Hap a k ltac:(lia) Ho'); lia.
    + split_and!; cbn [Dma.pages]; done.
  - right. unfold mbind, st_bind. by rewrite Heq.
Qed.

Lemma inv_reachable n b u s fl s' : inv n b u s fl -> rtc vstep s s' -> exists fl', inv n b u s' fl'.
Proof.
  intros Hi Hr. revert fl Hi. induction Hr as [s|s1 s2 s3 Hs _ IH]; intros fl Hi; [by exists fl|].
  destruct (inv_step _ _ _ _ _ _ Hi Hs) as [fl' Hi']. by apply (IH fl').
Qed.

Lemma fetch_none n b u s fl :
  inv n b u s fl -> device_fetch (vq s) (zlen (fetched s)) (memory s) = None -> fetched s = added s.
Proof.
  intros Hi. pose proof (inv_counts _ _ _ _ _ Hi) as (Hcnt & Hfa & Hap & Hpr & Hfl & Hho).
  pose proof (sh_n _ _ _ _ (i_shape _ _ _ _ _ Hi)) as Hn.
  unfold device_fetch, avail_hdr. destruct (i_shape _ _ _ _ _ Hi) as [_ Hph Ha _ _ _ Hb Hu]. rewrite Hph, Ha. unwrap.
  rewrite (i_aidx _ _ _ _ _ Hi). destruct (Z.eqb_spec (wrap16 (zlen (added s))) (wrap16 (zlen (fetched s)))) as [He|]; [|done].
  intros _. rewrite (i_fetched _ _ _ _ _ Hi). apply take_ge. unfold wrap16, zlen in *. lia.
Qed.

(** C28. A virtqueue is a pair of queues between driver and device.  However
    the driver's adds and polls, the device's fetches and returns and writes
    elsewhere in memory are interleaved, also between filling in a buffer and
    publishing it: the device gets every buffer exactly as it was offered, in
    the order of the offers, and the driver gets every return in the order of
    the returns; a descriptor is in one place at a time, so that a buffer is
    never offered under a descriptor the device still has, and the free count
    is the number of the others.  An add fails only when all descriptors are
    out, and a poll yields nothing only when everything returned was seen. *)
Theorem virtqueue_correct n w q w' s :
  Phys.wf (Dma.pages w) -> 0 < n < 2 ^ 16 -> (n | 2 ^ 16) ->
  new n w = (Ok q, w') -> rtc vstep (start q (Dma.dev w')) s ->
  fetched s `prefix_of` added s /\
  (device_fetch (vq s) (zlen (fetched s)) (memory s) = None <-> fetched s = added s) /\
  polled s `prefix_of` returned s /\
  NoDup (in_flight s) /\ (forall i, i ∈ in_flight s -> 0 <= i < n) /\
  num_free (vq s) = n - zlen (in_flight s) /\
  (staged s = None -> forall a l (wr : bool), is_u64 a -> is_u32 l ->
     exists o q' m', @add_buf Empty_set (vq s) a l wr (memory s) = Ok (o, q', m') /\
       match o with Some i => 0 <= i < n /\ ~ i ∈ in_flight s | None => zlen (in_flight s) = n end) /\
  exists q' m', @poll_used Empty_set (vq s) (memory s) = Ok (returned s !! List.length (polled s), q', m').
Proof.
  intros Hwf Hn Hp Hnew Hr. destruct (queue_new_ok n w Hwf Hn Hp) as [(q0 & w0 & b & u & He & Hi & _)|He]; rewrite He in Hnew; [|done].
  injection Hnew as -> ->. destruct (inv_reachable _ _ _ _ _ _ Hi Hr) as [fl Hs]. clear Hi Hr He.
  pose proof (inv_counts _ _ _ _ _ Hs) as (Hcnt & Hfa & Hap & Hpr & Hfl & Hho).
  pose proof (i_owned _ _ _ _ _ Hs) as Hown.
  assert (NoDup (fl ++ in_flight s)) as (_ & Hdis & Hnd)%NoDup_app by (rewrite Hown; apply NoDup_seqZ).
  assert (zlen fl + zlen (in_flight s) = n) as Hlen.
  { apply Permutation_length in Hown. rewrite length_app, length_seqZ in Hown. unfold zlen. lia. }
  split_and!.
  - rewrite (i_fetched _ _ _ _ _ Hs). apply prefix_take.
  - split; [by apply (fetch_none n b u s fl)|]. intros He.
    destruct (device_fetch _ _ _) as [r|] eqn:Hf; [|done]. apply (fetch_next _ _ _ _ _ _ Hs) in Hf.
    rewrite He, lookup_ge_None_2 in Hf by done. done.
  - rewrite (i_polled _ _ _ _ _ Hs). apply prefix_take.
  - done.
  - intros i Hin. assert (i ∈ seqZ 0 n) as H%elem_of_seqZ by (rewrite <- Hown, elem_of_app; by right). lia.
  - rewrite (i_count _ _ _ _ _ Hs). lia.
  - intros Hst a l wr Ha Hl. unfold add_buf. destruct fl as [|x fl'].
    + unfold place. rewrite (i_count _ _ _ _ _ Hs). cbn. eexists _, _, _. split; [done|]. rewrite zlen_nil in Hlen. lia.
    + assert (0 <= x < n) as Hx by (apply (inv_free_range _ _ _ _ _ _ Hs); left).
      pose proof (i_chain _ _ _ _ _ Hs) as [Hfh _]. rewrite (place_eq _ _ _ _ a l wr (memory s) (i_shape _ _ _ _ _ Hs)) by lia.
      rewrite (i_count _ _ _ _ _ Hs), zlen_cons. rewrite zlen_cons in Hfl. pose proof (zlen_nonneg fl').
      rewrite (proj2 (Z.eqb_neq _ _)) by lia. cbn -[publish]. eexists _, _, _. split; [done|]. rewrite Hfh. split; [done|].
      apply Hdis. left.
  - destruct (poll_cases _ _ _ _ _ Hs) as [[-> He]|(id & len & rest & Hd & _ & ->)].
    + rewrite He, lookup_ge_None_2 by done. by eexists _, _.
    + rewrite <- (Nat.add_0_r (List.length (polled s))), <- lookup_drop, Hd. by eexists _, _.
Qed.

(** A queue of four on the demonstration pool, with one buffer placed: the
    device does not see it yet. *)
Definition placed_index (q : Virtqueue) (m : mem) : option Z :=
  match @place Empty_set q 0x5000 64 true m with Ok (Some (i, _, _)) => Some i | _ => None end.

Lemma virtqueue_correct_witness :
  exists q w' s, new 4 Nvme.sample_pool = (Ok q, w') /\ rtc vstep (start q (Dma.dev w')) s /\
    in_flight s = [0] /\ num_free (vq s) = 3 /\ fetched s `prefix_of` added s /\ NoDup (in_flight s).
Proof.
  assert (match new 4 Nvme.sample_pool with (Ok q, w') => placed_index q (Dma.dev w') | _ => None end = Some 0) as Hrun
    by (vm_compute; reflexivity).
  destruct (new 4 Nvme.sample_pool) as [[q|e|] w'] eqn:Hnew; [|discriminate Hrun..]. unfold placed_index in Hrun.
  destruct (@place Empty_set q 0x5000 64 true (Dma.dev w')) as [[[[i q1] m1]|]| |] eqn:Hplace; [|discriminate Hrun..]. injection Hrun as ->.
  pose proof (VPlace (start q (Dma.dev w')) 0x5000 64 true 0 q1 m1 eq_refl ltac:(unfold is_u64; lia) ltac:(unfold is_u32; lia) Hplace) as Hstep.
  exists q, w'. eexists. split; [reflexivity|]. split; [exact (rtc_once _ _ Hstep)|]. split; [reflexivity|].
  pose proof (virtqueue_correct 4 Nvme.sample_pool q w' _ Phys.demo_wf ltac:(lia) ltac:(by exists 16384) Hnew (rtc_once _ _ Hstep))
    as (Hf & _ & _ & Hnd & _ & Hnum & _).
  split; [exact Hnum|]. split; [exact Hf|exact Hnd].
Defined.

(** The device's word is taken for the descriptor: an index outside the table
    is written through all the same. *)
Lemma poll_trusts_device :
  exists q m q' m', size q = 4 /\ @poll_used Empty_set q m = Ok (Some (9, 1), q', m') /\
    load16 m' (Dma.phys (buf q) + 16 * 9 + 14) = 7 /\ ~ 16 * 9 < 16 * size q.
Proof.
  set (q := mkVq (Dma.mkBuf 0x8000 [] 2) 4 64 4096 7 3 0).
  set (m := store16 (store32 (store32 ∅ 0x9004 9) 0x9008 1) 0x9002 1).
  exists q, m, (set_heads q 9 4 1), (store16 m (0x8000 + 16 * 9 + 14) 7).
  split_and!; [done|vm_compute; reflexivity|vm_compute; reflexivity|done].
Qed.

End Virtqueue.
