(* ===== verification/VirtioNet.v ===== *)
(** * Network card driver ([drivers/virtio/net.rs])

    The driver runs on the shared memory with the page pool and on the card's
    I/O ports.  What a port reads as is a parameter: a function of the port
    and of the writes made so far.  [wstep] is the receive side together with
    the card; its theorem follows a frame from the card to [receive]. *)
From S2P Require Import Prelude.
From S2P Require Import Bytes.
From S2P Require Import Bitmap.
From S2P Require Import Phys.
From S2P Require Import Dma.
From S2P Require Import Mem.
From S2P Require Import Nvme.
From S2P Require Import Virtqueue.

Module VirtioNet.

(** ** Registers, status bits, sizes *)
Definition DEVICE_FEATURES : Z := 0x00.
Definition DRIVER_FEATURES : Z := 0x04.
Definition QUEUE_ADDRESS : Z := 0x08.
Definition QUEUE_SIZE : Z := 0x0C.
Definition QUEUE_SELECT : Z := 0x0E.
Definition QUEUE_NOTIFY : Z := 0x10.
Definition DEVICE_STATUS : Z := 0x12.
Definition MAC_BASE : Z := 0x14.
Definition STATUS_ACKNOWLEDGE : Z := 1.
Definition STATUS_DRIVER : Z := 2.
Definition STATUS_DRIVER_OK : Z := 4.
Definition VIRTIO_NET_F_MAC : Z := 32.
Definition NET_HDR_SIZE : Z := 10.
Definition RX_BUF_SIZE : Z := 1524.
Definition RX_POOL_SIZE : Z := 64.

Inductive NetError := FeatureNegotiationFailed | QueueNotAvailable | QueueFull | OutOfMemory | DeviceNotFound.

Record world := mkWorld { hwm : Dma.hw mem; log : list (Z * Z) }.

Record VirtioNet := mkNet {
  iobase : Z;
  rx_queue : Virtqueue.Virtqueue;
  tx_queue : Virtqueue.Virtqueue;
  mac : list Z;
  rx_buffers : list Dma.DmaBuf;
  tx_inflight : list (option Dma.DmaBuf);
}.

Definition with_rx (d : VirtioNet) (q : Virtqueue.Virtqueue) : VirtioNet :=
  mkNet (iobase d) q (tx_queue d) (mac d) (rx_buffers d) (tx_inflight d).
Definition with_tx (d : VirtioNet) (q : Virtqueue.Virtqueue) : VirtioNet :=
  mkNet (iobase d) (rx_queue d) q (mac d) (rx_buffers d) (tx_inflight d).
Definition with_buffers (d : VirtioNet) (l : list Dma.DmaBuf) : VirtioNet :=
  mkNet (iobase d) (rx_queue d) (tx_queue d) (mac d) l (tx_inflight d).
Definition with_inflight (d : VirtioNet) (l : list (option Dma.DmaBuf)) : VirtioNet :=
  mkNet (iobase d) (rx_queue d) (tx_queue d) (mac d) (rx_buffers d) l.

(** ** Steps on the world *)
Definition on_hw {E A} (m : st (Dma.hw mem) E A) : st world E A :=
  st_zoom hwm (fun h w => mkWorld h (log w)) m.

Definition on_queue {E A} (f : mem -> out E (A * Virtqueue.Virtqueue * mem)) : st world E (A * Virtqueue.Virtqueue) := fun w =>
  match f (Dma.dev (hwm w)) with
  | Ok (a, q, m) => (Ok (a, q), mkWorld (Dma.mkHw m (Dma.pages (hwm w))) (log w))
  | Err e => (Err e, w)
  | Panic => (Panic, w)
  end.

Definition read_mem {E} (a n : Z) : st world E (list Z) := fun w => (Ok (load (Dma.dev (hwm w)) a n), w).
Definition write_mem {E} (a : Z) (bs : list Z) : st world E unit := fun w =>
  (Ok tt, mkWorld (Dma.mkHw (store (Dma.dev (hwm w)) a bs) (Dma.pages (hwm w))) (log w)).

(** [outb], [outw], [outl]: the value is of the width of the call. *)
Definition port_out {E} (port v : Z) : st world E unit := fun w => (Ok tt, mkWorld (hwm w) (log w ++ [(port, v)])).

Definition oom {A} (m : st world Phys.AllocError A) : st world NetError A := st_map_err (fun _ => OutOfMemory) m.

Section card.
Context (io : list (Z * Z) -> Z -> Z).

Definition inb {E} (port : Z) : st world E Z := fun w => (Ok (wrap8 (io (log w) port)), w).
Definition inw {E} (port : Z) : st world E Z := fun w => (Ok (wrap16 (io (log w) port)), w).
Definition inl_ {E} (port : Z) : st world E Z := fun w => (Ok (wrap32 (io (log w) port)), w).

Definition notify_queue {E} (d : VirtioNet) (queue_idx : Z) : st world E unit :=
  port_out (wrap16 (iobase d + QUEUE_NOTIFY)) queue_idx.

Definition setup_queue (iobase queue_idx : Z) : st world NetError Virtqueue.Virtqueue :=
  _ ← port_out (wrap16 (iobase + QUEUE_SELECT)) queue_idx;
  size ← inw (wrap16 (iobase + QUEUE_SIZE));
  if size =? 0 then st_err QueueNotAvailable
  else
    vq ← oom (on_hw (Virtqueue.new size));
    _ ← port_out (wrap16 (iobase + QUEUE_ADDRESS)) (Virtqueue.pfn vq);
    mret vq.

(** The [for] loop of [fill_rx_pool]; an error leaves the driver with the
    buffers it has, which [new] then drops. *)
Fixpoint fill_loop (n : nat) (d : VirtioNet) : st world (NetError * VirtioNet) VirtioNet :=
  match n with
  | O => mret d
  | S n =>
      r ← st_try (oom (on_hw (Nvme.dma_alloc RX_BUF_SIZE)));
      match r with
      | inr e => st_err (e, d)
      | inl b =>
          r ← on_queue (Virtqueue.add_buf (rx_queue d) (Dma.phys b) RX_BUF_SIZE true);
          fill_loop n (with_buffers (with_rx d r.2) (rx_buffers d ++ [b]))
      end
  end.

Definition fill_rx_pool (d : VirtioNet) : st world (NetError * VirtioNet) VirtioNet :=
  d ← fill_loop (Z.to_nat RX_POOL_SIZE) d;
  _ ← notify_queue d 0;
  mret d.

Definition drop_buf {E} (b : Dma.DmaBuf) : st world E unit := on_hw (Nvme.dma_drop b).
Definition drop_queue {E} (q : Virtqueue.Virtqueue) : st world E unit := drop_buf (Virtqueue.buf q).

(** The fields in their order. *)
Definition drop_net {E} (d : VirtioNet) : st world E unit :=
  _ ← drop_queue (rx_queue d);
  _ ← drop_queue (tx_queue d);
  _ ← st_for drop_buf (rx_buffers d);
  st_for (fun o => match o with Some b => drop_buf b | None => mret tt end) (tx_inflight d).

Fixpoint read_mac {E} (iobase : Z) (l : list Z) : st world E (list Z) :=
  match l with
  | [] => mret []
  | i :: l =>
      b ← inb (wrap16 (wrap16 (iobase + MAC_BASE) + i));
      bs ← read_mac iobase l;
      mret (b :: bs)
  end.

Definition new (iobase : Z) : st world NetError VirtioNet :=
  _ ← port_out (wrap16 (iobase + DEVICE_STATUS)) 0;
  _ ← port_out (wrap16 (iobase + DEVICE_STATUS)) STATUS_ACKNOWLEDGE;
  _ ← port_out (wrap16 (iobase + DEVICE_STATUS)) (Z.lor STATUS_ACKNOWLEDGE STATUS_DRIVER);
  device_features ← inl_ (wrap16 (iobase + DEVICE_FEATURES));
  _ ← port_out (wrap16 (iobase + DRIVER_FEATURES)) (Z.land device_features VIRTIO_NET_F_MAC);
  mac ← read_mac iobase (seqZ 0 6);
  rx ← setup_queue iobase 0;
  r ← st_try (setup_queue iobase 1);
  match r with
  | inr e => _ ← drop_queue rx; st_err e
  | inl tx =>
      r ← st_try (fill_rx_pool (mkNet iobase rx tx mac [] []));
      match r with
      | inr (e, d) => _ ← drop_net d; st_err e
      | inl d =>
          _ ← port_out (wrap16 (iobase + DEVICE_STATUS)) (Z.lor (Z.lor STATUS_ACKNOWLEDGE STATUS_DRIVER) STATUS_DRIVER_OK);
          mret d
      end
  end.

(** ** Transmission *)
(** The [while let] of [reclaim_tx_buffers]; the fuel bounds the model's
    loop, and running out of it is [None]. *)
Fixpoint reclaim_loop {E} (fuel : nat) (d : VirtioNet) : st world E (option VirtioNet) :=
  match fuel with
  | O => mret None
  | S fuel =>
      r ← on_queue (Virtqueue.poll_used (tx_queue d));
      let d := with_tx d r.2 in
      match r.1 with
      | None => mret (Some d)
      | Some (desc_idx, _) =>
          match tx_inflight d !! Z.to_nat desc_idx with
          | None => reclaim_loop fuel d
          | Some old =>
              _ ← match old with Some b => drop_buf b | None => mret tt end;
              reclaim_loop fuel (with_inflight d (<[Z.to_nat desc_idx := None]> (tx_inflight d)))
          end
      end
  end.

(** The used index cannot be further than this from the driver's. *)
Definition RECLAIM_FUEL : nat := Z.to_nat (2 ^ 16).

Definition reclaim_tx_buffers {E} (d : VirtioNet) : st world E (option VirtioNet) := reclaim_loop RECLAIM_FUEL d.

(** [resize_with(idx + 1, || None)] when [idx] is past the end. *)
Definition grow_to (l : list (option Dma.DmaBuf)) (idx : nat) : list (option Dma.DmaBuf) :=
  l ++ replicate (S idx - length l) None.

(** [VirtioNetHeader::default()] as bytes. *)
Definition zero_header : list Z := replicate (Z.to_nat NET_HDR_SIZE) 0.

Definition transmit_frame (d : VirtioNet) (frame : list Z) : st world (NetError * VirtioNet) VirtioNet :=
  let total_len := NET_HDR_SIZE ⊞ zlen frame in
  r ← st_try (oom (on_hw (Nvme.dma_alloc total_len)));
  match r with
  | inr e => st_err (e, d)
  | inl b =>
      _ ← write_mem (Dma.phys b) zero_header;
      _ ← write_mem (Dma.phys b ⊞ NET_HDR_SIZE) frame;
      r ← on_queue (Virtqueue.add_buf (tx_queue d) (Dma.phys b) (wrap32 total_len) false);
      let d := with_tx d r.2 in
      match r.1 with
      | None => _ ← drop_buf b; st_err (QueueFull, d)
      | Some desc_idx =>
          _ ← notify_queue d 1;
          let idx := Z.to_nat desc_idx in
          let l := grow_to (tx_inflight d) idx in
          _ ← match l !! idx with Some (Some old) => drop_buf old | _ => mret tt end;
          mret (with_inflight d (<[idx := Some b]> l))
      end
  end.

(** The driver is returned with an error too: it stays in its mutex. *)
Definition transmit (d : VirtioNet) (frame : list Z) : st world (NetError * VirtioNet) (option VirtioNet) :=
  r ← reclaim_tx_buffers d;
  match r with
  | None => mret None
  | Some d => d ← transmit_frame d frame; mret (Some d)
  end.

(** ** Reception *)
Definition receive {E} (d : VirtioNet) : st world E (option (list Z) * VirtioNet) :=
  r ← on_queue (Virtqueue.poll_used (rx_queue d));
  let d := with_rx d r.2 in
  match r.1 with
  | None => mret (None, d)
  | Some (desc_idx, len) =>
      match rx_buffers d !! Z.to_nat desc_idx, NET_HDR_SIZE <? len with
      | Some b, true =>
          if zlen (Dma.data b) <? len then st_panic
          else
            frame ← read_mem (Dma.phys b + NET_HDR_SIZE) (len - NET_HDR_SIZE);
            r ← on_queue (Virtqueue.add_buf (rx_queue d) (Dma.phys b) RX_BUF_SIZE true);
            let d := with_rx d r.2 in
            _ ← notify_queue d 0;
            mret (Some frame, d)
      | _, _ => mret (None, d)
      end
  end.

End card.

(** ** The receive side with the card

    The card takes buffers from the queue and gives each back with a header
    and a frame in it.  Everything else in the machine may write anywhere but
    in the queue and in the buffers the card does not hold. *)
Record wire := mkWire {
  drv : VirtioNet;
  wld : world;
  seen : Z;
  holding : list Virtqueue.request;
  sent : list (list Z);
  got : list (list Z);
}.

Definition memory (s : wire) : mem := Dma.dev (hwm (wld s)).
Definition set_memory (w : world) (m : mem) : world := mkWorld (Dma.mkHw m (Dma.pages (hwm w))) (log w).

Inductive wstep : wire -> wire -> Prop :=
| WReceive s o d w :
    @receive Empty_set (drv s) (wld s) = (Ok (o, d), w) ->
    wstep s (mkWire d w (seen s) (holding s) (sent s) (got s ++ match o with Some f => [f] | None => [] end))
| WFetch s r :
    Virtqueue.device_fetch (rx_queue (drv s)) (seen s) (memory s) = Some r ->
    wstep s (mkWire (drv s) (wld s) (seen s + 1) (holding s ++ [r]) (sent s) (got s))
| WDeliver s h1 r h2 header frame :
    holding s = h1 ++ r :: h2 -> zlen header = NET_HDR_SIZE -> 0 < zlen frame <= Virtqueue.length r - NET_HDR_SIZE ->
    wstep s (mkWire (drv s)
      (set_memory (wld s) (Virtqueue.device_return (rx_queue (drv s)) (Virtqueue.desc r) (NET_HDR_SIZE + zlen frame)
         (store (memory s) (Virtqueue.addr r) (header ++ frame))))
      (seen s) (h1 ++ h2) (sent s ++ [frame]) (got s))
| WOther s m pages' :
    let q := rx_queue (drv s) in
    same_at (memory s) m (Dma.phys (Virtqueue.buf q)) (Virtqueue.total q) ->
    (forall i b, rx_buffers (drv s) !! i = Some b -> (forall r, r ∈ holding s -> Z.to_nat (Virtqueue.desc r) <> i) ->
       same_at (memory s) m (Dma.phys b) (zlen (Dma.data b))) ->
    wstep s (mkWire (drv s) (mkWorld (Dma.mkHw m pages') (log (wld s))) (seen s) (holding s) (sent s) (got s)).

Definition live (d : VirtioNet) (w : world) : wire := mkWire d w 0 [] [] [].

(** ** The invariant *)
(** The buffers, apart from each other and from the [n] bytes of the queue at
    [b]. *)
Record pool_ok (b n : Z) (bufs : list Dma.DmaBuf) : Prop := {
  po_len : forall i x, bufs !! i = Some x -> zlen (Dma.data x) = RX_BUF_SIZE /\ 0 <= Dma.phys x <= 2 ^ 32;
  po_queue : forall i x, bufs !! i = Some x -> Dma.phys x + RX_BUF_SIZE <= b \/ b + n <= Dma.phys x;
  po_apart : forall i j x y, bufs !! i = Some x -> bufs !! j = Some y -> i <> j ->
    Dma.phys x + RX_BUF_SIZE <= Dma.phys y \/ Dma.phys y + RX_BUF_SIZE <= Dma.phys x;
}.

(** Request [r] is for the buffer of its descriptor. *)
Definition own_request (bufs : list Dma.DmaBuf) (r : Virtqueue.request) : Prop :=
  exists b, bufs !! Z.to_nat (Virtqueue.desc r) = Some b /\ Virtqueue.addr r = Dma.phys b /\ Virtqueue.length r = RX_BUF_SIZE.

Record winv (n b u : Z) (s : wire) (g : Virtqueue.vsys) (fl : list Z) : Prop := {
  w_inv : Virtqueue.inv n b u g fl;
  w_q : Virtqueue.vq g = rx_queue (drv s);
  w_mem : Virtqueue.memory g = memory s;
  w_staged : Virtqueue.staged g = None;
  w_pool : pool_ok b (u + 6 + 8 * n) (rx_buffers (drv s));
  w_hold : Virtqueue.holding g = Virtqueue.desc <$> holding s;
  w_seen : seen s = zlen (Virtqueue.fetched g);
  w_added : Forall (own_request (rx_buffers (drv s))) (Virtqueue.added g);
  w_held : Forall (own_request (rx_buffers (drv s))) (holding s);
  w_got : got s = take (length (Virtqueue.polled g)) (sent s);
  w_len : length (sent s) = length (Virtqueue.returned g);
  w_sent : forall k e f, Virtqueue.returned g !! k = Some e -> sent s !! k = Some f ->
    e.2 = NET_HDR_SIZE + zlen f /\ 0 < zlen f <= RX_BUF_SIZE - NET_HDR_SIZE /\
    exists x, rx_buffers (drv s) !! Z.to_nat e.1 = Some x /\
      ((length (Virtqueue.polled g) <= k)%nat -> load (memory s) (Dma.phys x + NET_HDR_SIZE) (zlen f) = f);
}.

(** A descriptor is not held, returned and free at once. *)
Lemma held_not_returned n b u g fl i k e :
  Virtqueue.inv n b u g fl -> i ∈ Virtqueue.holding g -> (length (Virtqueue.polled g) <= k)%nat ->
  Virtqueue.returned g !! k = Some e -> 0 <= e.1 < n /\ 0 <= i < n /\ e.1 <> i.
Proof.
  intros Hi Hh Hk He. pose proof (Virtqueue.i_owned _ _ _ _ _ Hi) as Hown.
  assert (NoDup (fl ++ Virtqueue.in_flight g)) as (_ & _ & Hnd)%NoDup_app by (rewrite Hown; apply NoDup_seqZ).
  unfold Virtqueue.in_flight in *. set (pl := length (Virtqueue.polled g)) in *.
  apply NoDup_app in Hnd as (_ & _ & Hnd). apply NoDup_app in Hnd as (_ & _ & Hnd). apply NoDup_app in Hnd as (_ & Hd & _).
  assert (e.1 ∈ (drop pl (Virtqueue.returned g)).*1) as Hin.
  { apply list_elem_of_fmap_2. apply (list_elem_of_lookup_2 _ (k - pl)%nat). rewrite lookup_drop. by replace (pl + (k - pl))%nat with k by lia. }
  assert (e.1 ∈ seqZ 0 n) as H1%elem_of_seqZ by (rewrite <- Hown, !elem_of_app; tauto).
  assert (i ∈ seqZ 0 n) as H2%elem_of_seqZ by (rewrite <- Hown, !elem_of_app; tauto).
  split; [lia|]. split; [lia|]. intros Heq. apply (Hd i Hh). by rewrite <- Heq.
Qed.

Lemma returned_apart n b u g fl j k e e' :
  Virtqueue.inv n b u g fl -> (length (Virtqueue.polled g) <= j)%nat -> (length (Virtqueue.polled g) <= k)%nat -> j <> k ->
  Virtqueue.returned g !! j = Some e -> Virtqueue.returned g !! k = Some e' -> e.1 <> e'.1.
Proof.
  intros Hi Hj Hk Hne He He'. pose proof (Virtqueue.i_owned _ _ _ _ _ Hi) as Hown.
  assert (NoDup (fl ++ Virtqueue.in_flight g)) as (_ & _ & Hnd)%NoDup_app by (rewrite Hown; apply NoDup_seqZ).
  unfold Virtqueue.in_flight in *. set (pl := length (Virtqueue.polled g)) in *.
  apply NoDup_app in Hnd as (_ & _ & Hnd). apply NoDup_app in Hnd as (_ & _ & Hnd). apply NoDup_app in Hnd as (_ & _ & Hnd).
  intros Heq. apply Hne.
  assert (forall i x, (pl <= i)%nat -> Virtqueue.returned g !! i = Some x -> (drop pl (Virtqueue.returned g)).*1 !! (i - pl)%nat = Some x.1) as Hin.
  { intros i x Hi' Hx. rewrite list_lookup_fmap, lookup_drop. replace (pl + (i - pl))%nat with i by lia. by rewrite Hx. }
  pose proof (Hin j e Hj He) as H1. pose proof (Hin k e' Hk He') as H2. rewrite Heq in H1.
  pose proof (NoDup_lookup _ _ _ _ Hnd H1 H2). lia.
Qed.

Lemma winv_fetch n b u s g fl r :
  winv n b u s g fl -> Virtqueue.device_fetch (rx_queue (drv s)) (seen s) (memory s) = Some r ->
  exists g', winv n b u (mkWire (drv s) (wld s) (seen s + 1) (holding s ++ [r]) (sent s) (got s)) g' fl.
Proof.
  intros [Hi Hq Hm Hst Hp Hh Hse Ha Hhe Hg Hl Hs] Hf. rewrite <- Hq, <- Hm, Hse in Hf.
  eexists. split; cbn [drv wld seen holding sent got]; [exact (Virtqueue.inv_fetch _ _ _ _ _ _ Hi Hf)|..];
    cbn [Virtqueue.vq Virtqueue.memory Virtqueue.staged Virtqueue.holding Virtqueue.fetched Virtqueue.added Virtqueue.polled Virtqueue.returned];
    try done.
  - by rewrite fmap_app, Hh.
  - rewrite Hse, zlen_app. done.
  - apply Forall_app. split; [done|]. apply Forall_singleton. eapply Forall_lookup_1; [exact Ha|].
    by apply (Virtqueue.fetch_next _ _ _ _ _ _ Hi Hf).
Qed.

Lemma store_app m a l1 l2 : store m a (l1 ++ l2) = store (store m a l1) (a + zlen l1) l2.
Proof.
  revert m a. induction l1 as [|x l1 IH]; intros m a; cbn [app store]; [by rewrite zlen_nil, Z.add_0_r|].
  rewrite IH, zlen_cons. f_equal. lia.
Qed.

Lemma return_but q n b u id len m :
  Virtqueue.shape q n b u -> same_but m (Virtqueue.device_return q id len m) b (u + 6 + 8 * n).
Proof.
  intros Hs. rewrite (Virtqueue.return_eq _ _ _ _ _ _ _ Hs).
  pose proof (Virtqueue.sh_n _ _ _ _ Hs) as Hn. pose proof (Virtqueue.sh_u _ _ _ _ Hs) as Hu. cbv zeta.
  set (v := Virtqueue.load16 m (b + u + 2)). set (e := b + u + 4 + 8 * (v mod n)).
  assert (0 <= v mod n < n) as Hv by lia. assert (b + u + 4 <= e /\ e + 8 <= b + u + 6 + 8 * n) as He by (subst e; lia). clearbody e.
  eapply (Virtqueue.same_but_join _ _ _ e 8 (b + u + 2) 2); [|apply Virtqueue.store16_but|lia..].
  eapply (Virtqueue.same_but_join _ _ _ e 4 (e + 4) 4 e 8); [apply Virtqueue.store32_but|apply Virtqueue.store32_but|lia..].
Qed.

(** The queue of a wire: where it is. *)
Lemma winv_region n b u s g fl :
  winv n b u s g fl -> Dma.phys (Virtqueue.buf (Virtqueue.vq g)) = b /\ Virtqueue.total (Virtqueue.vq g) = u + 6 + 8 * n.
Proof.
  intros Hw. pose proof (Virtqueue.i_shape _ _ _ _ _ (w_inv _ _ _ _ _ _ Hw)) as Hs.
  unfold Virtqueue.total. by rewrite (Virtqueue.sh_phys _ _ _ _ Hs), (Virtqueue.sh_used _ _ _ _ Hs), (Virtqueue.sh_size _ _ _ _ Hs).
Qed.

Lemma winv_deliver n b u s g fl h1 r h2 header frame :
  winv n b u s g fl -> holding s = h1 ++ r :: h2 -> zlen header = NET_HDR_SIZE ->
  0 < zlen frame <= Virtqueue.length r - NET_HDR_SIZE ->
  exists g', winv n b u (mkWire (drv s)
      (set_memory (wld s) (Virtqueue.device_return (rx_queue (drv s)) (Virtqueue.desc r) (NET_HDR_SIZE + zlen frame)
         (store (memory s) (Virtqueue.addr r) (header ++ frame))))
      (seen s) (h1 ++ h2) (sent s ++ [frame]) (got s)) g' fl.
Proof.
  intros Hw Hhold Hhdr Hfr. pose proof (winv_region _ _ _ _ _ _ Hw) as [Hrb Hrt].
  destruct Hw as [Hi Hq Hm Hst Hp Hh Hse Ha Hhe Hg Hl Hs]. rewrite Hhold in Hh, Hhe.
  apply Forall_app in Hhe as [Hh1 Hhe]. apply Forall_cons in Hhe as [(x & Hx & Hax & Hlx) Hh2]. rewrite Hlx in Hfr.
  destruct (po_len _ _ _ Hp _ _ Hx) as [Hxl Hxp]. pose proof (po_queue _ _ _ Hp _ _ Hx) as Hxq.
  set (m1 := store (memory s) (Virtqueue.addr r) (header ++ frame)). set (len := NET_HDR_SIZE + zlen frame).
  assert (same_but (memory s) m1 (Dma.phys x) len) as Hm1.
  { rewrite <- Hax. subst m1 len. rewrite <- Hhdr, <- zlen_app. apply store_same_but. }
  rewrite <- Hm in Hm1.
  assert (same_at (Virtqueue.memory g) m1 (Dma.phys (Virtqueue.buf (Virtqueue.vq g))) (Virtqueue.total (Virtqueue.vq g))) as Hat.
  { eapply same_but_at; [exact Hm1|]. rewrite Hrb, Hrt. subst len. lia. }
  pose proof (Virtqueue.inv_other _ _ _ _ _ _ Hi Hat) as Hi1.
  pose proof (Virtqueue.inv_return _ _ _ _ _ (Virtqueue.desc <$> h1) (Virtqueue.desc r) (Virtqueue.desc <$> h2) len Hi1) as Hi2.
  cbn [Virtqueue.vq Virtqueue.memory Virtqueue.staged Virtqueue.holding Virtqueue.fetched Virtqueue.added Virtqueue.polled Virtqueue.returned] in Hi2.
  rewrite Hh, fmap_app in Hi2. specialize (Hi2 eq_refl ltac:(unfold is_u32; subst len; unfold NET_HDR_SIZE, RX_BUF_SIZE in *; lia)).
  pose proof (return_but (Virtqueue.vq g) n b u (Virtqueue.desc r) len m1 (Virtqueue.i_shape _ _ _ _ _ Hi)) as Hret.
  rewrite Hq in Hret, Hi2. set (m2 := Virtqueue.device_return (rx_queue (drv s)) (Virtqueue.desc r) len m1) in *.
  eexists. split; cbn [drv wld seen holding sent got]; [exact Hi2|..];
    cbn [Virtqueue.vq Virtqueue.memory Virtqueue.staged Virtqueue.holding Virtqueue.fetched Virtqueue.added Virtqueue.polled Virtqueue.returned];
    try done.
  - by rewrite fmap_app.
  - by apply Forall_app.
  - rewrite take_app_le; [done|]. pose proof (Virtqueue.prefix_le _ _ (Virtqueue.i_polled _ _ _ _ _ Hi)). lia.
  - rewrite !length_app, Hl. done.
  - assert (forall y (f : list Z), (exists i, rx_buffers (drv s) !! i = Some y) -> zlen f <= RX_BUF_SIZE - NET_HDR_SIZE ->
      load m2 (Dma.phys y + NET_HDR_SIZE) (zlen f) = load m1 (Dma.phys y + NET_HDR_SIZE) (zlen f)) as Hk2.
    { intros y f [i Hy] Hf. apply (Virtqueue.load_frame _ _ _ _ _ _ Hret). pose proof (po_queue _ _ _ Hp _ _ Hy). unfold NET_HDR_SIZE in *. lia. }
    intros k e f He Hf. change (memory _) with m2. destruct (decide (k < length (Virtqueue.returned g))%nat) as [Hlt|Hge].
    + rewrite lookup_app_l in He by done. rewrite lookup_app_l in Hf by lia.
      destruct (Hs k e f He Hf) as (He2 & Hfl & y & Hy & Hld). split; [done|]. split; [done|]. exists y. split; [done|].
      intros Hk. rewrite Hk2 by (eauto; lia). transitivity (load (Virtqueue.memory g) (Dma.phys y + NET_HDR_SIZE) (zlen f)); [|rewrite Hm; by apply Hld].
      assert (Virtqueue.desc r ∈ Virtqueue.holding g) as Hin by (rewrite Hh, fmap_app; cbn; rewrite elem_of_app; right; left).
      destruct (held_not_returned _ _ _ _ _ _ _ _ Hi Hin Hk He) as (? & ? & Hne).
      apply (Virtqueue.load_frame _ _ _ _ _ _ Hm1).
      destruct (po_apart _ _ _ Hp _ _ _ _ Hx Hy) as [?|?]; [lia|subst len; unfold NET_HDR_SIZE in *; lia..].
    + rewrite lookup_app_r in He by lia. rewrite lookup_app_r in Hf by lia. rewrite Hl in Hf.
      assert (k = length (Virtqueue.returned g)) as -> by (apply lookup_lt_Some in He; cbn in He; lia).
      rewrite Nat.sub_diag in He, Hf. injection He as <-. injection Hf as <-. cbn [fst snd]. split; [done|]. split; [done|].
      exists x. split; [done|]. intros _. rewrite Hk2 by (eauto; lia). subst m1. rewrite Hax, store_app, Hhdr. by apply load_store.
Qed.

Lemma winv_other n b u s g fl m pages' :
  winv n b u s g fl ->
  same_at (memory s) m (Dma.phys (Virtqueue.buf (rx_queue (drv s)))) (Virtqueue.total (rx_queue (drv s))) ->
  (forall i x, rx_buffers (drv s) !! i = Some x -> (forall r, r ∈ holding s -> Z.to_nat (Virtqueue.desc r) <> i) ->
     same_at (memory s) m (Dma.phys x) (zlen (Dma.data x))) ->
  exists g', winv n b u (mkWire (drv s) (mkWorld (Dma.mkHw m pages') (log (wld s))) (seen s) (holding s) (sent s) (got s)) g' fl.
Proof.
  intros [Hi Hq Hm Hst Hp Hh Hse Ha Hhe Hg Hl Hs] Hat Hb. rewrite <- Hq, <- Hm in Hat.
  eexists. split; cbn [drv wld seen holding sent got]; [exact (Virtqueue.inv_other _ _ _ _ _ _ Hi Hat)|..];
    cbn [Virtqueue.vq Virtqueue.memory Virtqueue.staged Virtqueue.holding Virtqueue.fetched Virtqueue.added Virtqueue.polled Virtqueue.returned];
    try done.
  intros k e f He Hf. change (memory _) with m. destruct (Hs k e f He Hf) as (He2 & Hfl & y & Hy & Hld).
  split; [done|]. split; [done|]. exists y. split; [done|]. intros Hk. etransitivity; [|exact (Hld Hk)]. apply load_same.
  destruct (po_len _ _ _ Hp _ _ Hy) as [Hyl _].
  eapply same_at_mono; [apply (Hb _ _ Hy)|unfold NET_HDR_SIZE; lia|rewrite Hyl; lia].
  intros r Hr. destruct (held_not_returned _ _ _ _ _ (Virtqueue.desc r) k e Hi) as (? & ? & Hne); [|done|done|lia].
  rewrite Hh. by apply list_elem_of_fmap_2.
Qed.

(** Adding to a queue that has a free descriptor: what it does to the queue and
    that it writes nothing else. *)
Lemma add_some n b u g x fl a l (w : bool) :
  Virtqueue.inv n b u g (x :: fl) -> Virtqueue.staged g = None -> is_u64 a -> is_u32 l ->
  exists q' m', @Virtqueue.add_buf Empty_set (Virtqueue.vq g) a l w (Virtqueue.memory g) = Ok (Some x, q', m') /\
    same_but (Virtqueue.memory g) m' b (u + 6 + 8 * n) /\
    Virtqueue.inv n b u (Virtqueue.mkSys q' m' None (Virtqueue.added g ++ [Virtqueue.mkReq x a l w]) (Virtqueue.fetched g)
      (Virtqueue.holding g) (Virtqueue.returned g) (Virtqueue.polled g)) fl.
Proof.
  intros Hi Hst Ha Hl. pose proof (Virtqueue.i_shape _ _ _ _ _ Hi) as Hsh.
  pose proof (Virtqueue.sh_n _ _ _ _ Hsh) as Hn. pose proof (Virtqueue.sh_u _ _ _ _ Hsh) as Hu.
  assert (0 <= x < n) as Hx by (apply (Virtqueue.inv_free_range _ _ _ _ _ _ Hi); left).
  pose proof (Virtqueue.i_chain _ _ _ _ _ Hi) as [Hfh _]. pose proof (zlen_nonneg fl).
  assert (exists q' m', @Virtqueue.place Empty_set (Virtqueue.vq g) a l w (Virtqueue.memory g) = Ok (Some (x, q', m')) /\
    same_but (Virtqueue.memory g) m' b (u + 6 + 8 * n)) as (q' & m' & Hp & Hs).
  { rewrite (Virtqueue.place_eq _ _ _ _ a l w _ Hsh) by lia. rewrite Hfh, (Virtqueue.i_count _ _ _ _ _ Hi), zlen_cons.
    rewrite (proj2 (Z.eqb_neq _ _)) by lia. eexists _, _. split; [done|].
    set (k := Virtqueue.load16 (Virtqueue.memory g) (b + 16 * n + 2) mod n). assert (0 <= k < n) by (subst k; lia). clearbody k.
    set (d := b + 16 * x). assert (b <= d /\ d + 16 <= b + 16 * n) by (subst d; lia). clearbody d.
    eapply (Virtqueue.same_but_join _ _ _ d 16 (b + 16 * n + 4 + 2 * k) 2); [apply Virtqueue.fill_desc_but|apply Virtqueue.store16_but|lia..]. }
  destruct (Virtqueue.inv_place _ _ _ _ _ _ _ _ _ _ _ Hi Hst Ha Hl Hp) as (fl' & [= <-] & Hi1).
  pose proof (Virtqueue.inv_publish _ _ _ _ _ _ Hi1 eq_refl) as Hi2.
  cbn [Virtqueue.vq Virtqueue.memory Virtqueue.staged Virtqueue.holding Virtqueue.fetched Virtqueue.added Virtqueue.polled Virtqueue.returned] in Hi2.
  exists q', (Virtqueue.publish q' m'). split; [unfold Virtqueue.add_buf; by rewrite Hp|]. split; [|done].
  rewrite (Virtqueue.publish_eq q' n b u m' (Virtqueue.i_shape _ _ _ _ _ Hi1)).
  eapply (Virtqueue.same_but_join _ _ _ b (u + 6 + 8 * n) (b + 16 * n + 2) 2); [exact Hs|apply Virtqueue.store16_but|lia..].
Qed.

Lemma add_buf_at {E} q a l (w : bool) m r :
  @Virtqueue.add_buf Empty_set q a l w m = Ok r -> @Virtqueue.add_buf E q a l w m = Ok r.
Proof.
  unfold Virtqueue.add_buf, Virtqueue.place. destruct (Virtqueue.num_free q =? 0); [by intros [= <-]|].
  cbn -[Virtqueue.publish]. destruct (Virtqueue.size q =? 0); [done|by intros [= <-]].
Qed.

Lemma receive_run {E} (d : VirtioNet) w id len q1 m1 x o q2 m2 :
  @Virtqueue.poll_used E (rx_queue d) (Dma.dev (hwm w)) = Ok (Some (id, len), q1, m1) ->
  rx_buffers d !! Z.to_nat id = Some x -> NET_HDR_SIZE < len <= zlen (Dma.data x) ->
  @Virtqueue.add_buf E q1 (Dma.phys x) RX_BUF_SIZE true m1 = Ok (o, q2, m2) ->
  receive (E := E) d w =
  (Ok (Some (load m1 (Dma.phys x + NET_HDR_SIZE) (len - NET_HDR_SIZE)), with_rx d q2),
   mkWorld (Dma.mkHw m2 (Dma.pages (hwm w))) (log w ++ [(wrap16 (iobase d + QUEUE_NOTIFY), 0)])).
Proof.
  intros Hpoll Hx Hlen Hadd. unfold receive, on_queue, mbind, st_bind. rewrite Hpoll.
  cbn [fst snd with_rx rx_buffers rx_queue]. rewrite Hx, (proj2 (Z.ltb_lt _ _)), (proj2 (Z.ltb_ge _ _)) by lia.
  cbn [read_mem hwm Dma.dev Dma.pages]. rewrite Hadd. done.
Qed.

(** A completion too short to hold a frame is swallowed: nothing is returned,
    and its buffer is not posted again. *)
Lemma receive_short {E} (d : VirtioNet) w id len q1 m1 :
  @Virtqueue.poll_used E (rx_queue d) (Dma.dev (hwm w)) = Ok (Some (id, len), q1, m1) -> len <= NET_HDR_SIZE ->
  receive (E := E) d w = (Ok (None, with_rx d q1), mkWorld (Dma.mkHw m1 (Dma.pages (hwm w))) (log w)).
Proof.
  intros Hpoll Hlen. unfold receive, on_queue, mbind, st_bind. rewrite Hpoll. cbn [fst snd with_rx rx_buffers].
  rewrite (proj2 (Z.ltb_ge _ _)) by lia. by destruct (rx_buffers d !! _).
Qed.

(** One that claims more than the buffer holds is a panic. *)
Lemma receive_long {E} (d : VirtioNet) w id len q1 m1 x :
  @Virtqueue.poll_used E (rx_queue d) (Dma.dev (hwm w)) = Ok (Some (id, len), q1, m1) ->
  rx_buffers d !! Z.to_nat id = Some x -> NET_HDR_SIZE < len -> zlen (Dma.data x) < len ->
  (receive (E := E) d w).1 = Panic.
Proof.
  intros Hpoll Hx Hlen Hlong. unfold receive, on_queue, mbind, st_bind. rewrite Hpoll. cbn [fst snd with_rx rx_buffers].
  by rewrite Hx, (proj2 (Z.ltb_lt _ _)), (proj2 (Z.ltb_lt _ _)) by lia.
Qed.

Lemma winv_receive n b u s g fl :
  winv n b u s g fl ->
  exists o d w g', @receive Empty_set (drv s) (wld s) = (Ok (o, d), w) /\ o = sent s !! length (got s) /\
    winv n b u (mkWire d w (seen s) (holding s) (sent s) (got s ++ match o with Some f => [f] | None => [] end)) g' fl.
Proof.
  intros Hw. destruct Hw as [Hi Hq Hm Hst Hp Hh Hse Ha Hhe Hg Hl Hs] eqn:Heq. clear Heq.
  pose proof (Virtqueue.prefix_le _ _ (Virtqueue.i_polled _ _ _ _ _ Hi)) as Hpl.
  assert (length (got s) = length (Virtqueue.polled g)) as Hgl by (rewrite Hg, length_take; lia). rewrite Hgl.
  pose proof (Virtqueue.i_shape _ _ _ _ _ Hi) as Hsh. pose proof (Virtqueue.sh_n _ _ _ _ Hsh) as Hn. pose proof (Virtqueue.sh_u _ _ _ _ Hsh) as Hu.
  destruct (Virtqueue.poll_cases _ _ _ _ _ Hi) as [[Hpoll He]|(id & len & rest & Hd & Hid & Hpoll)].
  - exists None. eexists (with_rx (drv s) (rx_queue (drv s))), _, g. rewrite Hq, Hm in Hpoll. split.
    { unfold receive, on_queue, mbind, st_bind. fold (memory s). rewrite Hpoll. reflexivity. }
    split; [rewrite lookup_ge_None_2; [done|rewrite Hl, He; lia]|]. rewrite app_nil_r. by split.
  - set (k := length (Virtqueue.polled g)) in *.
    assert (Virtqueue.returned g !! k = Some (id, len)) as Hret by (rewrite <- (Nat.add_0_r k), <- lookup_drop, Hd; done).
    destruct (lookup_lt_is_Some_2 (sent s) k) as [f Hf]; [rewrite Hl; by eapply lookup_lt_Some|]. rewrite Hf.
    destruct (Hs k _ f Hret Hf) as (Hlen & Hfl & x & Hx & Hld). cbn [fst snd] in *. specialize (Hld ltac:(lia)).
    destruct (po_len _ _ _ Hp _ _ Hx) as [Hxl Hxp]. pose proof (po_queue _ _ _ Hp _ _ Hx) as Hxq.
    pose proof (Virtqueue.inv_poll _ _ _ _ _ _ _ _ Hi Hst Hpoll) as Hi1. cbn [fst] in Hi1.
    set (q1 := Virtqueue.set_heads _ _ _ _) in *. set (m1 := Virtqueue.store16 (Virtqueue.memory g) _ _) in *.
    assert (same_but (Virtqueue.memory g) m1 b (u + 6 + 8 * n)) as Hs1
      by (eapply same_but_mono; [apply Virtqueue.store16_but|lia|lia]).
    destruct (add_some _ _ _ _ _ _ (Dma.phys x) RX_BUF_SIZE true Hi1 eq_refl) as (q2 & m2 & Hadd & Hs2 & Hi2);
      [unfold is_u64; lia|unfold is_u32, RX_BUF_SIZE; lia|].
    cbn [Virtqueue.vq Virtqueue.memory Virtqueue.staged Virtqueue.holding Virtqueue.fetched Virtqueue.added Virtqueue.polled Virtqueue.returned] in *.
    rewrite Hq, Hm in Hpoll.
    assert (forall y (f : list Z), (exists i, rx_buffers (drv s) !! i = Some y) -> zlen f <= RX_BUF_SIZE - NET_HDR_SIZE ->
      load m1 (Dma.phys y + NET_HDR_SIZE) (zlen f) = load (memory s) (Dma.phys y + NET_HDR_SIZE) (zlen f) /\
      load m2 (Dma.phys y + NET_HDR_SIZE) (zlen f) = load m1 (Dma.phys y + NET_HDR_SIZE) (zlen f)) as Hframe.
    { intros y f' [i Hy] Hf'. pose proof (po_queue _ _ _ Hp _ _ Hy). rewrite <- Hm.
      split; [apply (Virtqueue.load_frame _ _ _ _ _ _ Hs1)|apply (Virtqueue.load_frame _ _ _ _ _ _ Hs2)]; unfold NET_HDR_SIZE in *; lia. }
    exists (Some f), (with_rx (drv s) q2). eexists _, _. split; [|split; [done|]].
    { rewrite (receive_run _ _ _ _ _ _ _ _ _ _ Hpoll Hx ltac:(lia) Hadd). repeat f_equal.
      replace (len - NET_HDR_SIZE) with (zlen f) by lia. rewrite (proj1 (Hframe x f ltac:(eauto) ltac:(lia))). exact Hld. }
    split; cbn [drv wld seen holding sent got with_rx rx_queue rx_buffers]; [exact Hi2|..];
      cbn [Virtqueue.vq Virtqueue.memory Virtqueue.staged Virtqueue.holding Virtqueue.fetched Virtqueue.added Virtqueue.polled Virtqueue.returned];
      try done.
    + apply Forall_app. split; [done|]. apply Forall_singleton. by exists x.
    + replace (length (Virtqueue.polled g ++ [(id, len)])) with (S k) by (rewrite length_app; cbn; subst k; lia).
      rewrite (take_S_r _ _ _ Hf). by rewrite <- Hg.
    + intros j e' f' He' Hf'. change (memory _) with m2. destruct (Hs j e' f' He' Hf') as (H1 & H2 & y & Hy & Hld').
      split; [done|]. split; [done|]. exists y. split; [done|]. rewrite length_app. cbn. intros Hj.
      destruct (Hframe y f' ltac:(eauto) ltac:(lia)) as [Hf1 Hf2]. rewrite Hf2, Hf1. apply Hld'. lia.
Qed.

(** ** Setting the card up *)
Record filled (n b u : Z) (d : VirtioNet) (w : world) (added : list Virtqueue.request) : Prop := {
  f_wf : Phys.wf (Dma.pages (hwm w));
  f_inv : Virtqueue.inv n b u (Virtqueue.mkSys (rx_queue d) (Dma.dev (hwm w)) None added [] [] [] [])
            (seqZ (zlen (rx_buffers d)) (n - zlen (rx_buffers d)));
  f_pool : pool_ok b (u + 6 + 8 * n) (rx_buffers d);
  f_added : Forall (own_request (rx_buffers d)) added;
  f_queue : Virtqueue.owns (Dma.pages (hwm w)) b (u + 6 + 8 * n);
  f_bufs : Forall (fun x => Virtqueue.owns (Dma.pages (hwm w)) (Dma.phys x) RX_BUF_SIZE) (rx_buffers d);
}.

Lemma region_of n b u q : Virtqueue.shape q n b u -> Dma.phys (Virtqueue.buf q) = b /\ Virtqueue.total q = u + 6 + 8 * n.
Proof. intros [<- <- _ <- _ _ _ _]. done. Qed.

(** An allocation elsewhere changes nothing for the receive side. *)
Lemma filled_keeps n b u d w added h :
  filled n b u d w added -> Virtqueue.keeps (hwm w) h -> filled n b u d (mkWorld h (log w)) added.
Proof.
  intros [Hwf Hi Hp Ha Hq Hb] [Hwf' Hk]. split; cbn [hwm]; try done.
  - apply (Virtqueue.inv_other _ _ _ _ _ (Dma.dev h) Hi). cbn [Virtqueue.vq Virtqueue.memory].
    destruct (region_of n b u (rx_queue d) (Virtqueue.i_shape _ _ _ _ _ Hi)) as [-> ->]. by apply Hk.
  - by apply Hk.
  - eapply Forall_impl; [exact Hb|]. intros x Hx. by apply Hk.
Qed.

Lemma own_request_app bufs x r : own_request bufs r -> own_request (bufs ++ [x]) r.
Proof. intros (y & Hy & ?). exists y. split; [by apply lookup_app_l_Some|done]. Qed.

Lemma pool_snoc b n bufs x w w' :
  pool_ok b n bufs -> 0 < n -> Virtqueue.owns (Dma.pages w) b n ->
  Forall (fun y => Virtqueue.owns (Dma.pages w) (Dma.phys y) RX_BUF_SIZE) bufs ->
  zlen (Dma.data x) = RX_BUF_SIZE -> Virtqueue.fresh_region w w' (Dma.phys x) RX_BUF_SIZE ->
  pool_ok b n (bufs ++ [x]).
Proof.
  intros Hp Hn Hq Hb Hx (_ & Hx0 & Hx1 & _ & Hap).
  assert (forall i y, (bufs ++ [x]) !! i = Some y -> bufs !! i = Some y \/ (i = length bufs /\ y = x)) as Hcase.
  { intros i y Hy. apply lookup_app_Some in Hy as [Hy|[Hi Hy]]; [by left|]. right.
    destruct (i - length bufs)%nat eqn:Hk; [injection Hy as <-; split; [lia|done]|done]. }
  assert (forall y i, bufs !! i = Some y -> Dma.phys x + RX_BUF_SIZE <= Dma.phys y \/ Dma.phys y + RX_BUF_SIZE <= Dma.phys x) as Hxy.
  { intros y i Hy. apply Hap; [done|]. by eapply Forall_lookup_1 in Hb. }
  unfold RX_BUF_SIZE in *. split.
  - intros i y Hy. destruct (Hcase i y Hy) as [Hi|[-> ->]]; [by eapply (po_len _ _ _ Hp)|]. split; [done|lia].
  - intros i y Hy. destruct (Hcase i y Hy) as [Hi|[-> ->]]; [by eapply (po_queue _ _ _ Hp)|]. destruct (Hap b n Hn Hq); [by left|by right].
  - intros i j y z Hy Hz Hne. destruct (Hcase i y Hy) as [Hi|[-> ->]], (Hcase j z Hz) as [Hj|[-> ->]].
    + by eapply (po_apart _ _ _ Hp).
    + destruct (Hxy _ _ Hi); [by right|by left].
    + by eapply Hxy.
    + done.
Qed.

Lemma fill_loop_ok n b u k d w added d' w' :
  filled n b u d w added -> fill_loop k d w = (Ok d', w') ->
  exists added', filled n b u d' w' added' /\ zlen (rx_buffers d') = zlen (rx_buffers d) + Z.of_nat k.
Proof.
  revert d w added. induction k as [|k IH]; intros d w added Hf Hrun.
  { injection Hrun as <- <-. exists added. split; [done|lia]. }
  cbn [fill_loop] in Hrun. unfold mbind, st_bind, st_try, oom, st_map_err, on_hw, st_zoom in Hrun.
  destruct (Virtqueue.dma_alloc_owned RX_BUF_SIZE (hwm w) (f_wf _ _ _ _ _ _ Hf) ltac:(unfold RX_BUF_SIZE; lia))
    as [(x & h & Ha & Hxl & Hk & Hfr & _)|Ha]; rewrite Ha in Hrun; [|done].
  cbn [map_err fst snd] in Hrun.
  pose proof (filled_keeps _ _ _ _ _ _ _ Hf Hk) as Hf1.
  pose proof (f_inv _ _ _ _ _ _ Hf1) as Hi. pose proof (Virtqueue.i_shape _ _ _ _ _ Hi) as Hsh.
  pose proof (Virtqueue.sh_n _ _ _ _ Hsh) as Hn. pose proof (Virtqueue.sh_u _ _ _ _ Hsh) as Hu. cbn [hwm] in Hi.
  pose proof (pool_snoc _ _ _ x _ _ (f_pool _ _ _ _ _ _ Hf) ltac:(lia) (f_queue _ _ _ _ _ _ Hf) (f_bufs _ _ _ _ _ _ Hf) Hxl Hfr) as Hp.
  destruct Hfr as (Hxo & Hx0 & Hx1 & _). pose proof (zlen_nonneg (rx_buffers d)).
  assert (Forall (fun y => Virtqueue.owns (Dma.pages h) (Dma.phys y) RX_BUF_SIZE) (rx_buffers d ++ [x])) as Hb.
  { apply Forall_app. split; [exact (f_bufs _ _ _ _ _ _ Hf1)|by apply Forall_singleton]. }
  assert (zlen (rx_buffers d ++ [x]) = zlen (rx_buffers d) + 1) as Hl by (rewrite zlen_app; done).
  destruct (decide (zlen (rx_buffers d) < n)) as [Hlt|Hge].
  - rewrite seqZ_cons in Hi by lia.
    destruct (add_some _ _ _ _ _ _ (Dma.phys x) RX_BUF_SIZE true Hi eq_refl) as (q2 & m2 & Hadd & _ & Hi2);
      [unfold is_u64, RX_BUF_SIZE in *; lia|unfold is_u32, RX_BUF_SIZE; lia|].
    cbn [Virtqueue.vq Virtqueue.memory Virtqueue.staged Virtqueue.holding Virtqueue.fetched Virtqueue.added Virtqueue.polled Virtqueue.returned] in *.
    assert (filled n b u (with_buffers (with_rx d q2) (rx_buffers d ++ [x])) (mkWorld (Dma.mkHw m2 (Dma.pages h)) (log w))
      (added ++ [Virtqueue.mkReq (zlen (rx_buffers d)) (Dma.phys x) RX_BUF_SIZE true])) as Hf2.
    { split; cbn [hwm Dma.dev Dma.pages rx_queue rx_buffers with_rx with_buffers]; try done.
      - apply (f_wf _ _ _ _ _ _ Hf1).
      - rewrite Hl. replace (n - (zlen (rx_buffers d) + 1)) with (Z.pred (n - zlen (rx_buffers d))) by lia.
        rewrite <- Z.add_1_r in Hi2. exact Hi2.
      - apply Forall_app. split; [eapply Forall_impl; [exact (f_added _ _ _ _ _ _ Hf1)|]; intros; by apply own_request_app|].
        apply Forall_singleton. exists x. cbn [Virtqueue.desc Virtqueue.addr Virtqueue.length]. split; [|done].
        unfold zlen. rewrite Nat2Z.id. by apply list_lookup_middle.
      - apply (f_queue _ _ _ _ _ _ Hf1). }
    unfold on_queue in Hrun. cbn [hwm] in Hrun. rewrite (add_buf_at _ _ _ _ _ _ Hadd) in Hrun. cbn [fst snd] in Hrun.
    destruct (IH _ _ _ Hf2 Hrun) as (added' & Hf' & Hl'). exists added'. split; [done|].
    rewrite Hl'. cbn [rx_buffers with_buffers]. lia.
  - assert (forall m, seqZ m (n - zlen (rx_buffers d)) = [] /\ seqZ m (n - (zlen (rx_buffers d) + 1)) = []) as Hnil
      by (intros m; rewrite !seqZ_nil by lia; done).
    assert (num_free_zero : Virtqueue.num_free (rx_queue d) = 0).
    { rewrite (proj1 (Hnil _)) in Hi. exact (Virtqueue.i_count _ _ _ _ _ Hi). }
    unfold on_queue, Virtqueue.add_buf, Virtqueue.place in Hrun. rewrite num_free_zero in Hrun. cbn in Hrun.
    assert (filled n b u (with_buffers (with_rx d (rx_queue d)) (rx_buffers d ++ [x])) (mkWorld (Dma.mkHw (Dma.dev h) (Dma.pages h)) (log w)) added) as Hf2.
    { split; cbn [hwm Dma.dev Dma.pages rx_queue rx_buffers with_rx with_buffers]; try done.
      - apply (f_wf _ _ _ _ _ _ Hf1).
      - rewrite Hl, (proj2 (Hnil _)). by rewrite (proj1 (Hnil _)) in Hi.
      - eapply Forall_impl; [exact (f_added _ _ _ _ _ _ Hf1)|]; intros; by apply own_request_app.
      - apply (f_queue _ _ _ _ _ _ Hf1). }
    destruct (IH _ _ _ Hf2 Hrun) as (added' & Hf' & Hl'). exists added'. split; [done|].
    rewrite Hl'. cbn [rx_buffers with_buffers]. lia.
Qed.

(** What [new] needs of the card: its queue sizes are powers of two. *)
Definition good_sizes (io : list (Z * Z) -> Z -> Z) (iobase : Z) : Prop :=
  forall l, let n := wrap16 (io l (wrap16 (iobase + QUEUE_SIZE))) in n = 0 \/ (n | 2 ^ 16).

Lemma setup_queue_ok io iobase i w q w' :
  Phys.wf (Dma.pages (hwm w)) -> good_sizes io iobase -> setup_queue io iobase i w = (Ok q, w') ->
  exists n b u, Virtqueue.inv n b u (Virtqueue.start q (Dma.dev (hwm w'))) (seqZ 0 n) /\
    Virtqueue.keeps (hwm w) (hwm w') /\ Virtqueue.fresh_region (hwm w) (hwm w') b (u + 6 + 8 * n).
Proof.
  intros Hwf Hsize Hrun. unfold setup_queue, mbind, st_bind, port_out, inw in Hrun. cbn [hwm log] in Hrun.
  specialize (Hsize (log w ++ [(wrap16 (iobase + QUEUE_SELECT), i)])). cbv zeta in Hsize.
  set (n := wrap16 _) in *. destruct (Z.eqb_spec n 0) as [|Hn0]; [done|].
  destruct Hsize as [|Hdiv]; [done|]. pose proof (wrap16_range (io (log w ++ [(wrap16 (iobase + QUEUE_SELECT), i)]) (wrap16 (iobase + QUEUE_SIZE)))) as Hr.
  fold n in Hr. unfold oom, st_map_err, on_hw, st_zoom in Hrun. cbn [hwm log] in Hrun.
  destruct (Virtqueue.queue_new_ok n (hwm w) Hwf ltac:(lia) Hdiv) as [(q0 & h & b & u & Hnew & Hi & Hk & Hf)|Hnew]; rewrite Hnew in Hrun; [|done].
  cbn in Hrun. injection Hrun as <- <-. exists n, b, u. done.
Qed.

Lemma read_mac_state {E} io iobase l w : exists bs, @read_mac io E iobase l w = (Ok bs, w).
Proof.
  induction l as [|i l [bs IH]]; [by exists []|]. cbn [read_mac]. unfold mbind, st_bind, inb. rewrite IH. by eexists.
Qed.

Lemma bind_inv {S E A B} (m : st S E A) (k : A -> st S E B) s b s' :
  (m ≫= k) s = (Ok b, s') -> exists a s1, m s = (Ok a, s1) /\ k a s1 = (Ok b, s').
Proof. unfold mbind, st_bind. destruct (m s) as [[a|e|] s1]; [by exists a, s1|done..]. Qed.

Lemma try_inv {S E F A} (m : st S E A) s (r : A + E) s' :
  st_try (F := F) m s = (Ok r, s') ->
  (exists a, m s = (Ok a, s') /\ r = inl a) \/ (exists e, m s = (Err e, s') /\ r = inr e).
Proof. unfold st_try. destruct (m s) as [[a|e|] s1]; intros [= <- <-]; [left|right]; eauto. Qed.

Lemma port_out_inv {E} p v w a w' : @port_out E p v w = (Ok a, w') -> hwm w' = hwm w.
Proof. by intros [= _ <-]. Qed.

Strategy 1000 [RX_POOL_SIZE fill_loop].

(** A driver that [new] returns is ready: the pool is posted, every
    descriptor beyond it free, and the card told so. *)
Lemma new_ready io iobase w d w' :
  Phys.wf (Dma.pages (hwm w)) -> good_sizes io iobase -> new io iobase w = (Ok d, w') ->
  exists n b u g, winv n b u (live d w') g (seqZ 64 (n - 64)) /\
    last (log w') = Some (wrap16 (iobase + DEVICE_STATUS), 7).
Proof.
  intros Hwf Hsize Hrun. unfold new in Hrun.
  apply bind_inv in Hrun as (a1 & w1 & H1%port_out_inv & Hrun). apply bind_inv in Hrun as (a2 & w2 & H2%port_out_inv & Hrun).
  apply bind_inv in Hrun as (a3 & w3 & H3%port_out_inv & Hrun). apply bind_inv in Hrun as (ft & w4 & H4 & Hrun). injection H4 as _ <-.
  apply bind_inv in Hrun as (a5 & w5 & H5%port_out_inv & Hrun). apply bind_inv in Hrun as (mac & w6 & H6 & Hrun).
  destruct (@read_mac_state NetError io iobase (seqZ 0 6) w5) as [bs Hbs]. rewrite Hbs in H6. injection H6 as _ <-. clear Hbs.
  apply bind_inv in Hrun as (rx & w7 & H7 & Hrun). apply bind_inv in Hrun as (r & w8 & H8 & Hrun).
  assert (hwm w5 = hwm w) as Hw5 by congruence. rewrite <- Hw5 in Hwf. clear H1 H2 H3 H5 Hw5 a1 a2 a3 a5 w1 w2 w3 w.
  destruct (setup_queue_ok _ _ _ _ _ _ Hwf Hsize H7) as (n & b & u & Hi & Hk1 & Hf1).
  apply try_inv in H8 as [(tx & Htx & ->)|(e & _ & ->)]; [|by apply bind_inv in Hrun as (? & ? & _ & ?)].
  destruct (setup_queue_ok _ _ _ _ _ _ (proj1 Hk1) Hsize Htx) as (_ & _ & _ & _ & Hk2 & _).
  apply bind_inv in Hrun as (r & w9 & H9 & Hrun). apply try_inv in H9 as [(d9 & Hfill & ->)|([e ?] & _ & ->)];
    [|by apply bind_inv in Hrun as (? & ? & _ & ?)].
  unfold fill_rx_pool in Hfill. apply bind_inv in Hfill as (d10 & w10 & Hloop & Hfill). apply bind_inv in Hfill as (a11 & w11 & H11%port_out_inv & [= <- <-]).
  apply bind_inv in Hrun as (a12 & w12 & H12 & [= <- <-]). pose proof H12 as [= _ <-].
  assert (filled n b u (mkNet iobase rx tx mac [] []) w7 []) as H0.
  { destruct Hf1 as (Ho & _). split; cbn [rx_queue rx_buffers]; try done; [apply Hk1|]. rewrite zlen_nil, Z.sub_0_r. exact Hi. }
  pose proof (filled_keeps _ _ _ _ _ _ _ H0 Hk2) as H1.
  assert (filled n b u (mkNet iobase rx tx mac [] []) w8 []) as H2 by (destruct H1; split; done).
  destruct (fill_loop_ok _ _ _ _ _ _ _ _ _ H2 Hloop) as (added & Hd & Hl). cbn [rx_buffers] in Hl. rewrite zlen_nil in Hl.
  change (0 + Z.of_nat (Z.to_nat RX_POOL_SIZE)) with 64 in Hl.
  exists n, b, u, (Virtqueue.mkSys (rx_queue d10) (Dma.dev (hwm w10)) None added [] [] [] []). split.
  - pose proof (f_inv _ _ _ _ _ _ Hd) as Hinv. rewrite Hl in Hinv.
    split; cbn [live drv wld seen holding sent got]; try done.
    + unfold memory. cbn [wld hwm live]. by rewrite H11.
    + apply (f_pool _ _ _ _ _ _ Hd).
    + apply (f_added _ _ _ _ _ _ Hd).
  - cbn [log]. by rewrite last_snoc.
Qed.

Lemma winv_reachable n b u s g fl s' :
  winv n b u s g fl -> rtc wstep s s' -> exists g', winv n b u s' g' fl.
Proof.
  intros Hi Hr. revert g Hi. induction Hr as [s|s1 s2 s3 Hs _ IH]; intros g Hi; [by exists g|].
  assert (exists g', winv n b u s2 g' fl) as [g' Hi']; [|by apply (IH g')]. clear IH. destruct Hs.
  - destruct (winv_receive _ _ _ _ _ _ Hi) as (o' & d' & w' & g' & Hr & _ & Hi'). rewrite H in Hr.
    injection Hr as -> -> ->. by exists g'.
  - by apply (winv_fetch _ _ _ _ g).
  - eapply winv_deliver; eauto.
  - eapply winv_other; eauto.
Qed.

(** C29. What the card receives, the driver gets: once [new] has returned a
    driver, and however the card's taking of buffers and delivery of frames,
    calls of [receive], and the writes of the rest of the kernel are
    interleaved, the frames [receive] has returned are the first of the frames
    delivered, byte for byte and in order.  The next call does not panic and
    returns the next frame, or nothing when all have been returned; and no
    buffer is ever lost: the descriptors in circulation stay the pool's. *)
Theorem virtio_receive_in_order io iobase w d w' s :
  Phys.wf (Dma.pages (hwm w)) -> good_sizes io iobase -> new io iobase w = (Ok d, w') ->
  rtc wstep (live d w') s ->
  got s `prefix_of` sent s /\
  (exists d1 w1, @receive Empty_set (drv s) (wld s) = (Ok (sent s !! length (got s), d1), w1)) /\
  Virtqueue.num_free (rx_queue (drv s)) = Z.max 0 (Virtqueue.size (rx_queue (drv s)) - RX_POOL_SIZE).
Proof.
  intros Hwf Hsize Hnew Hr. destruct (new_ready _ _ _ _ _ Hwf Hsize Hnew) as (n & b & u & g & Hi & _).
  destruct (winv_reachable _ _ _ _ _ _ _ Hi Hr) as [g' Hi']. split; [|split].
  - rewrite (w_got _ _ _ _ _ _ Hi'). apply prefix_take.
  - destruct (winv_receive _ _ _ _ _ _ Hi') as (o & d1 & w1 & _ & Hrun & -> & _). by eexists _, _.
  - rewrite <- (w_q _ _ _ _ _ _ Hi'), (Virtqueue.i_count _ _ _ _ _ (w_inv _ _ _ _ _ _ Hi')).
    rewrite (Virtqueue.sh_size _ _ _ _ (Virtqueue.i_shape _ _ _ _ _ (w_inv _ _ _ _ _ _ Hi'))).
    unfold zlen, RX_POOL_SIZE. rewrite length_seqZ. lia.
Qed.

(** A ready driver has a buffer for the card. *)
Lemma ready_fetch n b u d w g :
  winv n b u (live d w) g (seqZ 64 (n - 64)) ->
  exists r, Virtqueue.device_fetch (rx_queue d) 0 (Dma.dev (hwm w)) = Some r /\ Virtqueue.length r = RX_BUF_SIZE.
Proof.
  intros Hw. pose proof (w_inv _ _ _ _ _ _ Hw) as Hi. pose proof (Virtqueue.inv_counts _ _ _ _ _ Hi) as (Hc & _).
  pose proof (w_seen _ _ _ _ _ _ Hw) as Hf. pose proof (w_hold _ _ _ _ _ _ Hw) as Hh. pose proof (w_len _ _ _ _ _ _ Hw) as Hl.
  pose proof (w_q _ _ _ _ _ _ Hw) as Hq. pose proof (w_mem _ _ _ _ _ _ Hw) as Hm. pose proof (w_staged _ _ _ _ _ _ Hw) as Hst.
  cbn [live seen holding sent drv] in *. unfold memory in Hm. cbn [live wld] in Hm.
  destruct (Virtqueue.device_fetch (rx_queue d) 0 (Dma.dev (hwm w))) as [r|] eqn:Hfetch; rewrite Hf, <- Hq, <- Hm in Hfetch.
  - exists r. split; [done|]. apply (Virtqueue.fetch_next _ _ _ _ _ _ Hi) in Hfetch.
    eapply Forall_lookup_1 in Hfetch; [|exact (w_added _ _ _ _ _ _ Hw)]. by destruct Hfetch as (x & _ & _ & ?).
  - exfalso. apply (Virtqueue.fetch_none _ _ _ _ _ Hi) in Hfetch. unfold Virtqueue.pending in Hc. rewrite Hst, <- Hfetch, Hh in Hc.
    pose proof (Virtqueue.sh_n _ _ _ _ (Virtqueue.i_shape _ _ _ _ _ Hi)).
    pose proof (Virtqueue.prefix_le _ _ (Virtqueue.i_polled _ _ _ _ _ Hi)).
    cbn [option_list] in Hc. rewrite app_nil_r in Hc. unfold zlen in Hc. rewrite length_seqZ in Hc. cbn in Hc, Hl. lia.
Qed.

(** A card with queues of four on an 80-page machine. *)
Definition sample_io : list (Z * Z) -> Z -> Z := fun _ port => if port =? 0xC00C then 4 else 0x52.
Definition sample_pages : Phys.AllocatorInner :=
  match Phys.init [(4096, 80 * 4096)] Phys.new with Ok s => s | _ => Phys.new end.
Definition sample_world : world := mkWorld (Dma.mkHw ∅ sample_pages) [].

Lemma sample_wf : Phys.wf sample_pages.
Proof.
  unfold sample_pages. destruct (Phys.init_ok Phys.new [(4096, 80 * 4096)]) as (s & -> & Hwf & _); [apply Phys.new_wf| |done].
  repeat constructor; simpl; lia.
Qed.

Definition is_ok {E A S} (r : out E A * S) : bool := match r.1 with Ok _ => true | _ => false end.

Lemma virtio_receive_in_order_witness :
  exists d w' s d1 w1, new sample_io 0xC000 sample_world = (Ok d, w') /\ rtc wstep (live d w') s /\
    sent s = [[1; 2; 3]] /\ got s = [] /\ @receive Empty_set (drv s) (wld s) = (Ok (Some [1; 2; 3], d1), w1).
Proof.
  assert (is_ok (new sample_io 0xC000 sample_world) = true) as Hok by (vm_compute; reflexivity).
  destruct (new sample_io 0xC000 sample_world) as [[d|e|] w'] eqn:Hnew; [clear Hok|discriminate Hok..].
  assert (good_sizes sample_io 0xC000) as Hsizes by (intros l; right; exists 16384; reflexivity).
  destruct (new_ready sample_io 0xC000 sample_world d w' sample_wf Hsizes Hnew) as (n & b & u & g & Hw & _).
  destruct (ready_fetch _ _ _ _ _ _ Hw) as (r & Hr & Hlen).
  pose proof (WFetch (live d w') r Hr) as H1.
  pose proof (WDeliver _ [] r [] (replicate 10 0) [1; 2; 3] (eq_refl : holding (mkWire d w' 1 [r] [] []) = [] ++ r :: []) eq_refl
    ltac:(rewrite Hlen; unfold RX_BUF_SIZE, NET_HDR_SIZE, zlen; cbn; lia)) as H2.
  pose proof (rtc_l _ _ _ _ H1 (rtc_once _ _ H2)) as Hrun.
  destruct (virtio_receive_in_order sample_io 0xC000 sample_world d w' _ sample_wf Hsizes Hnew Hrun) as (_ & (d1 & w1 & Hrecv) & _).
  exists d, w'. eexists. exists d1, w1. split; [reflexivity|]. split; [exact Hrun|]. split; [reflexivity|]. split; [reflexivity|exact Hrecv].
Defined.

End VirtioNet.
