(* ===== verification/Pci.v ===== *)
(** * PCI configuration space ([drivers/pci.rs], [drivers/nvme/pci.rs], the
    scan of [drivers/virtio/net.rs])

    Configuration space is reached through two ports: the address goes to
    0xCF8 and the data through 0xCFC.  The devices behind the ports are a
    parameter ([Bus]). *)
From S2P Require Import Prelude.
From S2P Require Import Bytes.
From S2P Require Import Fmt.

Module Pci.

(** [outl] and [inl]. *)
Class Bus (S : Type) := {
  outl : Z -> Z -> S -> S;
  inl_ : Z -> S -> Z * S;
}.

Section access.
Context {S : Type} `{HB : Bus S}.

(** No access fails. *)
Definition P (A : Type) : Type := st S unit A.
Definition out_port (port val : Z) : P unit := fun s => (Ok tt, outl port val s).
Definition in_port (port : Z) : P Z := fun s => let '(v, s) := inl_ port s in (Ok v, s).

Definition config_address (bus device func offset : Z) : Z :=
  Z.lor (Z.lor (Z.lor (Z.lor 0x80000000 (Z.shiftl bus 16)) (Z.shiftl device 11)) (Z.shiftl func 8)) (Z.land offset 0xFC).
Definition pci_read32 (bus device func offset : Z) : P Z :=
  _ ← out_port 0xCF8 (config_address bus device func offset); in_port 0xCFC.
Definition pci_write32 (bus device func offset val : Z) : P unit :=
  _ ← out_port 0xCF8 (config_address bus device func offset); out_port 0xCFC val.

(** A loop whose body may return from the function. *)
Fixpoint first {A X} (body : X -> P (option A)) (l : list X) : P (option A) :=
  match l with
  | [] => mret None
  | x :: l => r ← body x; match r with Some a => mret (Some a) | None => first body l end
  end.

(** [x as u8], [x as u16]. *)
Definition u8 (x : Z) : Z := Z.land x 0xFF.
Definition u16 (x : Z) : Z := Z.land x 0xFFFF.

Definition is_multi_function (bus device : Z) : P bool :=
  header_type ← pci_read32 bus device 0 0x0C;
  mret (negb (Z.land (Z.shiftr header_type 16) 0x80 =? 0)).

(** ** NVMe controllers *)
Record PciDevice := mkDevice {
  bus : Z; device : Z; function : Z;
  vendor_id : Z; device_id : Z;
  class_code : Z; subclass : Z; prog_if : Z;
  bar0 : Z;
}.

Definition read_bar0 (bus device func : Z) : P Z :=
  bar0_low ← pci_read32 bus device func 0x10;
  if Z.land bar0_low 0x06 =? 0x04 then
    bar0_high ← pci_read32 bus device func 0x14;
    mret (Z.lor (Z.shiftl bar0_high 32) (Z.ldiff bar0_low 0xF))
  else mret (Z.ldiff bar0_low 0xF).

Definition enable_device (bus device func : Z) : P unit :=
  cmd ← pci_read32 bus device func 0x04;
  pci_write32 bus device func 0x04 (Z.lor cmd 0x06).

Definition nvme_function (bus device vendor_device func : Z) : P (option PciDevice) :=
  skip ← (if 0 <? func then
            vd ← pci_read32 bus device func 0x00; mret (u16 vd =? 0xFFFF)
          else mret false);
  if (skip : bool) then mret None
  else
    class_reg ← pci_read32 bus device func 0x08;
    let class_code := u8 (Z.shiftr class_reg 24) in
    let subclass := u8 (Z.shiftr class_reg 16) in
    let prog_if := u8 (Z.shiftr class_reg 8) in
    if (class_code =? 0x01) && (subclass =? 0x08) && (prog_if =? 0x02) then
      vd ← (if func =? 0 then mret vendor_device else pci_read32 bus device func 0x00);
      _ ← enable_device bus device func;
      bar0 ← read_bar0 bus device func;
      mret (Some (mkDevice bus device func (u16 vd) (u16 (Z.shiftr vd 16)) class_code subclass prog_if bar0))
    else mret None.

Definition nvme_device (bus device : Z) : P (option PciDevice) :=
  vendor_device ← pci_read32 bus device 0 0x00;
  if u16 vendor_device =? 0xFFFF then mret None
  else
    multi ← is_multi_function bus device;
    first (nvme_function bus device vendor_device) (seqZ 0 (if multi : bool then 8 else 1)).

Definition find_nvme_controller : P (option PciDevice) :=
  first (fun bus => first (nvme_device bus) (seqZ 0 32)) (seqZ 0 256).
Definition nvme_bar0_phys (dev : PciDevice) : Z := bar0 dev.

(** ** Network cards *)
Record VirtioNetPciInfo := mkInfo { net_bus : Z; net_device : Z; net_device_id : Z; iobase : Z }.

Definition net_function (bus device vendor_device func : Z) : P (option VirtioNetPciInfo) :=
  vd ← (if func =? 0 then mret (Some vendor_device)
        else vd ← pci_read32 bus device func 0x00; mret (if u16 vd =? 0xFFFF then None else Some vd));
  match vd with
  | None => mret None
  | Some vd =>
      let vid := u16 vd in
      let did := u16 (Z.shiftr vd 16) in
      if negb (vid =? 0x1AF4) || negb (did =? 0x1000) then mret None
      else
        subsys ← pci_read32 bus device func 0x2C;
        if negb (u16 (Z.shiftr subsys 16) =? 1) then mret None
        else
          cmd ← pci_read32 bus device func 0x04;
          _ ← pci_write32 bus device func 0x04 (Z.lor cmd 0x05);
          bar0_raw ← pci_read32 bus device func 0x10;
          mret (Some (mkInfo bus device did (u16 (Z.ldiff bar0_raw 0x3))))
  end.

Definition net_slot (bus device : Z) : P (option VirtioNetPciInfo) :=
  vendor_device ← pci_read32 bus device 0 0x00;
  if u16 vendor_device =? 0xFFFF then mret None
  else
    multi ← is_multi_function bus device;
    first (net_function bus device vendor_device) (seqZ 0 (if multi : bool then 8 else 1)).

Definition find_virtio_net : P (option VirtioNetPciInfo) :=
  first (fun bus => first (net_slot bus) (seqZ 0 32)) (seqZ 0 256).
End access.

(** ** The bus as the specification of mechanism #1 has it

    [view] is what the configuration dword at an address reads as, [written]
    the writes so far.  A write may change the dword it names in any way the
    device likes (read-only bits), and no other. *)
Class BusSpec (S : Type) {HB : Bus S} := {
  view : S -> Z -> Z;
  written : S -> list (Z * Z);
  view_bound s a : 0 <= view s a < 2 ^ 32;
  read_law a s : let '(v, s') := inl_ 0xCFC (outl 0xCF8 a s) in
    v = view s a /\ view s' = view s /\ written s' = written s;
  write_law a v s : let s' := outl 0xCFC v (outl 0xCF8 a s) in
    written s' = written s ++ [(a, v)] /\ forall b, b <> a -> view s' b = view s b;
}.

(** The functions there are, in the order of the scan. *)
Definition cell (cfg : Z -> Z) (bus device func offset : Z) : Z := cfg (config_address bus device func offset).
Definition present (cfg : Z -> Z) (bus device func : Z) : bool := negb (u16 (cell cfg bus device func 0x00) =? 0xFFFF).
Definition multi (cfg : Z -> Z) (bus device : Z) : bool := negb (Z.land (Z.shiftr (cell cfg bus device 0 0x0C) 16) 0x80 =? 0).
Definition functions_of (cfg : Z -> Z) (bus device : Z) : list (Z * Z * Z) :=
  if present cfg bus device 0 then
    (fun f => (bus, device, f)) <$> filter (fun f => present cfg bus device f = true) (seqZ 0 (if multi cfg bus device then 8 else 1))
  else [].
Definition functions (cfg : Z -> Z) : list (Z * Z * Z) :=
  bus ← seqZ 0 256; device ← seqZ 0 32; functions_of cfg bus device.

Definition is_nvme (cfg : Z -> Z) (x : Z * Z * Z) : bool :=
  let '(b, d, f) := x in Z.shiftr (cell cfg b d f 0x08) 8 =? 0x010802.
Definition is_net (cfg : Z -> Z) (x : Z * Z * Z) : bool :=
  let '(b, d, f) := x in
  (cell cfg b d f 0x00 =? 0x10001AF4) && (Z.shiftr (cell cfg b d f 0x2C) 16 =? 1).
Definition find_first {A} (p : A -> bool) (l : list A) : option A := head (filter (fun x => p x = true) l).

(** The address in a memory BAR, 64 bits wide when its type says so. *)
Definition memory_bar (cfg : Z -> Z) (b d f : Z) : Z :=
  let low := cell cfg b d f 0x10 in
  if Z.land (Z.shiftr low 1) 3 =? 2 then cell cfg b d f 0x14 * 2 ^ 32 + low / 16 * 16 else low / 16 * 16.

Lemma head_omap {A B} (f : A -> option B) x l : head (omap f (x :: l)) = match f x with Some y => Some y | None => head (omap f l) end.
Proof. cbn. by destruct (f x). Qed.
Lemma find_first_bind {A B} (p : B -> bool) (F : A -> list B) l :
  find_first p (l ≫= F) = head (omap (fun x => find_first p (F x)) l).
Proof.
  unfold find_first. induction l as [|x l IH]; [done|]. rewrite head_omap. cbn [mbind list_bind]. rewrite filter_app, <- IH.
  by destruct (filter _ (F x)).
Qed.
Lemma find_first_filter {A B} (p : B -> bool) (g : A -> B) (q : A -> bool) l :
  find_first p (g <$> filter (fun x => q x = true) l) = head (omap (fun x => if q x && p (g x) then Some (g x) else None) l).
Proof.
  unfold find_first. induction l as [|x l IH]; [done|]. rewrite head_omap. destruct (q x) eqn:Hq; cbn [andb].
  - rewrite filter_cons_True by done. cbn [fmap list_fmap]. destruct (p (g x)) eqn:Hp.
    + by rewrite filter_cons_True.
    + rewrite filter_cons_False by (by rewrite Hp). exact IH.
  - rewrite filter_cons_False by (by rewrite Hq). exact IH.
Qed.

(** Bits as arithmetic. *)
Lemma lor_disjoint a b k : 0 <= k -> 0 <= a < 2 ^ k -> Z.lor (b * 2 ^ k) a = b * 2 ^ k + a.
Proof. intros Hk Ha. rewrite <- (Z.shiftl_mul_pow2 b k) at 1 by done. by apply lor_shiftl_add. Qed.

Lemma config_address_eq b d f o : 0 <= b < 256 -> 0 <= d < 32 -> 0 <= f < 8 -> Z.land o 0xFC = o -> 0 <= o < 256 ->
  config_address b d f o = 2 ^ 31 + b * 2 ^ 16 + d * 2 ^ 11 + f * 2 ^ 8 + o.
Proof.
  intros Hb Hd Hf Ho Ho'. unfold config_address. rewrite Ho, !Z.shiftl_mul_pow2 by lia.
  change 0x80000000 with (2 ^ 15 * 2 ^ 16).
  rewrite <- !Z.lor_assoc. rewrite (lor_disjoint o f 8), (lor_disjoint _ d 11), (lor_disjoint _ b 16) by lia.
  replace (b * 2 ^ 16 + (d * 2 ^ 11 + (f * 2 ^ 8 + o))) with (b * 2 ^ 16 + (d * 2 ^ 11 + (f * 2 ^ 8 + o))) by lia.
  change (2 ^ 15 * 2 ^ 16) with (1 * 2 ^ 31). rewrite lor_disjoint by lia. lia.
Qed.

Lemma u16_small x : 0 <= x < 2 ^ 16 -> u16 x = x.
Proof. intros Hx. unfold u16. change 0xFFFF with (Z.ones 16). rewrite Z.land_ones by lia. by apply Z.mod_small. Qed.
Lemma u16_mod x : u16 x = x mod 2 ^ 16.
Proof. unfold u16. change 0xFFFF with (Z.ones 16). by rewrite Z.land_ones. Qed.
Lemma u8_mod x : u8 x = x mod 2 ^ 8.
Proof. unfold u8. change 0xFF with (Z.ones 8). by rewrite Z.land_ones. Qed.
Lemma class_check c : 0 <= c < 2 ^ 32 ->
  (u8 (Z.shiftr c 24) =? 0x01) && (u8 (Z.shiftr c 16) =? 0x08) && (u8 (Z.shiftr c 8) =? 0x02) = (Z.shiftr c 8 =? 0x010802).
Proof.
  intros Hc. rewrite !u8_mod, !Z.shiftr_div_pow2 by lia. apply eq_true_iff_eq. rewrite !andb_true_iff, !Z.eqb_eq.
  change (2 ^ 32) with 4294967296 in Hc. change (2 ^ 24) with 16777216. change (2 ^ 16) with 65536. change (2 ^ 8) with 256.
  Z.div_mod_to_equations. lia.
Qed.
Lemma net_check vd : 0 <= vd < 2 ^ 32 -> negb (u16 vd =? 0x1AF4) || negb (u16 (Z.shiftr vd 16) =? 0x1000) = negb (vd =? 0x10001AF4).
Proof.
  intros Hv. rewrite !u16_mod, !Z.shiftr_div_pow2 by lia. rewrite <- negb_andb. f_equal.
  apply eq_true_iff_eq. rewrite !andb_true_iff, !Z.eqb_eq.
  change (2 ^ 32) with 4294967296 in Hv. change (2 ^ 16) with 65536. Z.div_mod_to_equations. lia.
Qed.
Lemma bar_type x : Z.land x 0x06 =? 0x04 = (Z.land (Z.shiftr x 1) 3 =? 2).
Proof.
  assert (Z.land x 6 = Z.land (x mod 8) 6) as ->.
  { change (Z.land x 6) with (Z.land x (Z.land (Z.ones 3) 6)). by rewrite Z.land_assoc, Z.land_ones. }
  assert (Z.land (Z.shiftr x 1) 3 = x / 2 mod 4) as ->.
  { change 3 with (Z.ones 2). by rewrite Z.land_ones, Z.shiftr_div_pow2. }
  replace (x / 2 mod 4) with (x mod 8 / 2) by (Z.div_mod_to_equations; lia).
  pose proof (Z.mod_pos_bound x 8 ltac:(lia)) as Hr. set (r := x mod 8) in *. clearbody r.
  assert (r = 0 \/ r = 1 \/ r = 2 \/ r = 3 \/ r = 4 \/ r = 5 \/ r = 6 \/ r = 7) as H by lia.
  by destruct H as [H|[H|[H|[H|[H|[H|[H|H]]]]]]]; rewrite H.
Qed.
Lemma ldiff_ones x k : 0 <= k -> Z.ldiff x (Z.ones k) = x / 2 ^ k * 2 ^ k.
Proof. intros Hk. by rewrite Z.ldiff_ones_r, Z.shiftl_mul_pow2, Z.shiftr_div_pow2. Qed.

Section spec.
Context {S : Type} {HB : Bus S} {HS : BusSpec S}.

Lemma wp_config_read b d f o (Q : Z -> S -> Prop) (X : unit -> S -> Prop) s :
  (forall s', view s' = view s -> written s' = written s -> Q (cell (view s) b d f o) s') ->
  wp (pci_read32 b d f o) Q X s.
Proof.
  intros HQ. unfold pci_read32. apply wp_bind. unfold wp, out_port, in_port.
  pose proof (read_law (config_address b d f o) s) as Hr. destruct (inl_ 0xCFC _) as [v s'].
  destruct Hr as (-> & Hv & Hw). by apply HQ.
Qed.
Lemma wp_config_write b d f o v (Q : unit -> S -> Prop) (X : unit -> S -> Prop) s :
  (forall s', written s' = written s ++ [(config_address b d f o, v)] ->
     (forall a, a <> config_address b d f o -> view s' a = view s a) -> Q tt s') ->
  wp (pci_write32 b d f o v) Q X s.
Proof.
  intros HQ. unfold pci_write32. apply wp_bind. unfold wp, out_port.
  destruct (write_law (config_address b d f o) v s) as [Hw Hv]. by apply HQ.
Qed.

(** From a bus that reads as [cfg], with the writes [w0]: the search finds
    nothing and changes nothing, or it returns what [found] says of [want]. *)
Context (cfg : Z -> Z) (w0 : list (Z * Z)).
Definition finds {A X} (m : P (S := S) (option A)) (want : option X) (found : X -> A -> S -> Prop) : Prop :=
  forall s, view s = cfg -> written s = w0 ->
  wp m (fun r s' => match want with
                    | None => r = None /\ view s' = cfg /\ written s' = w0
                    | Some x => exists a, r = Some a /\ found x a s'
                    end) (fun _ _ => False) s.

Lemma finds_first {A X Y} (body : Y -> P (option A)) (want : Y -> option X) (found : X -> A -> S -> Prop) l :
  (forall y, y ∈ l -> finds (body y) (want y) found) -> finds (first body l) (head (omap want l)) found.
Proof.
  induction l as [|y l IH]; intros Hl; [by intros s Hv Hw|]. intros s Hv Hw. cbn [first]. rewrite head_omap. apply wp_bind.
  eapply wp_mono; [apply (Hl y); [left|done|done]| |done]. intros r s' Hr. destruct (want y) as [x|].
  - destruct Hr as (a & -> & Hf). apply wp_ret. by exists a.
  - destruct Hr as (-> & Hv' & Hw'). apply IH; [|done|done]. intros z Hz. apply Hl. by right.
Qed.

(** The scan over the slots, and over the buses. *)
Lemma finds_bus {A} (slot : Z -> Z -> P (option A)) (p : Z * Z * Z -> bool) (found : Z * Z * Z -> A -> S -> Prop) :
  (forall b d, 0 <= b < 256 -> 0 <= d < 32 -> finds (slot b d) (find_first p (functions_of cfg b d)) found) ->
  finds (first (fun b => first (slot b) (seqZ 0 32)) (seqZ 0 256)) (find_first p (functions cfg)) found.
Proof.
  intros Hslot. unfold functions. rewrite find_first_bind. apply finds_first. intros b Hb%elem_of_seqZ.
  rewrite find_first_bind. apply finds_first. intros d Hd%elem_of_seqZ. apply Hslot; lia.
Qed.

(** A slot: nothing there, or its functions in order. *)
Lemma finds_slot {A} (func : Z -> Z -> P (option A)) (p : Z * Z * Z -> bool) (found : Z * Z * Z -> A -> S -> Prop) b d :
  (forall f, 0 <= f < 8 -> (f = 0 -> present cfg b d 0 = true) ->
     finds (func (cell cfg b d 0 0) f) (if present cfg b d f && p (b, d, f) then Some (b, d, f) else None) found) ->
  finds (vendor_device ← pci_read32 b d 0 0x00;
         if u16 vendor_device =? 0xFFFF then mret None
         else multi ← is_multi_function b d; first (func vendor_device) (seqZ 0 (if multi : bool then 8 else 1)))
    (find_first p (functions_of cfg b d)) found.
Proof.
  intros Hf s Hv Hw. apply wp_bind, wp_config_read. intros s1 Hv1 Hw1. rewrite Hv. unfold functions_of.
  destruct (u16 (cell cfg b d 0 0) =? 0xFFFF) eqn:Hp.
  - replace (present cfg b d 0) with false by (unfold present; by rewrite Hp). apply wp_ret. split; [done|]. split; congruence.
  - assert (present cfg b d 0 = true) as Hp0 by (unfold present; by rewrite Hp). rewrite Hp0. apply wp_bind. unfold is_multi_function.
    apply wp_bind, wp_config_read. intros s2 Hv2 Hw2. apply wp_ret. rewrite Hv1, Hv. fold (multi cfg b d).
    rewrite (find_first_filter p (fun f => (b, d, f))). apply finds_first; [|congruence|congruence].
    intros f Hr%elem_of_seqZ. apply Hf; [destruct (multi cfg b d); lia|done].
Qed.

(** What a search that finds a function leaves: its command register written
    once, with the bits [bits] set, and no other dword changed. *)
Definition enabled (bits : Z) (x : Z * Z * Z) (s' : S) : Prop :=
  let '(b, d, f) := x in
  written s' = w0 ++ [(config_address b d f 4, Z.lor (cell cfg b d f 4) bits)] /\
  forall a, a <> config_address b d f 4 -> view s' a = cfg a.
Definition nvme_at (x : Z * Z * Z) (dev : PciDevice) (s' : S) : Prop :=
  let '(b, d, f) := x in
  dev = mkDevice b d f (cell cfg b d f 0 mod 2 ^ 16) (cell cfg b d f 0 / 2 ^ 16) 1 8 2 (memory_bar cfg b d f) /\ enabled 6 x s'.
Definition net_at (x : Z * Z * Z) (info : VirtioNetPciInfo) (s' : S) : Prop :=
  let '(b, d, f) := x in
  info = mkInfo b d 0x1000 (cell cfg b d f 0x10 / 4 * 4 mod 2 ^ 16) /\ enabled 5 x s'.

Hypothesis Hcfg : forall a, 0 <= cfg a < 2 ^ 32.

Lemma bar0_runs b d f (Q : Z -> S -> Prop) (X : unit -> S -> Prop) s :
  (forall o, o = 0x10 \/ o = 0x14 -> cell (view s) b d f o = cell cfg b d f o) ->
  (forall s', view s' = view s -> written s' = written s -> Q (memory_bar cfg b d f) s') ->
  wp (read_bar0 b d f) Q X s.
Proof.
  intros Hv HQ. unfold read_bar0. apply wp_bind, wp_config_read. intros s1 Hv1 Hw1. rewrite Hv by tauto. unfold memory_bar in HQ.
  rewrite bar_type, (ldiff_ones _ 4) by lia. destruct (_ =? 2).
  - apply wp_bind, wp_config_read. intros s2 Hv2 Hw2. rewrite Hv1, Hv by tauto. apply wp_ret.
    pose proof (Hcfg (config_address b d f 0x10)) as Hlow. fold (cell cfg b d f 0x10) in Hlow.
    rewrite Z.shiftl_mul_pow2 by lia. rewrite lor_disjoint; [apply HQ; congruence|lia|].
    change (2 ^ 4) with 16. Z.div_mod_to_equations. lia.
  - apply wp_ret. by apply HQ.
Qed.

(** Different registers of a function have different addresses. *)
Lemma register_ne b d f o : 0 <= b < 256 -> 0 <= d < 32 -> 0 <= f < 8 -> o = 0x10 \/ o = 0x14 ->
  config_address b d f o <> config_address b d f 4.
Proof. intros Hb Hd Hf Ho. by destruct Ho as [-> | ->]; rewrite !config_address_eq by (done || lia); lia. Qed.

(** The command register of a function, and its base address after it. *)
Lemma enable_runs b d f bits (Q : unit -> S -> Prop) (X : unit -> S -> Prop) s : view s = cfg -> written s = w0 ->
  (forall s', enabled bits (b, d, f) s' -> Q tt s') ->
  wp (cmd ← pci_read32 b d f 0x04; pci_write32 b d f 0x04 (Z.lor cmd bits)) Q X s.
Proof.
  intros Hv Hw HQ. apply wp_bind, wp_config_read. intros s1 Hv1 Hw1. rewrite Hv. apply wp_config_write. intros s2 Hw2 Hv2.
  apply HQ. split; [by rewrite Hw2, Hw1, Hw|]. intros a Ha. by rewrite Hv2, Hv1, Hv.
Qed.

Lemma nvme_function_finds b d f : 0 <= b < 256 -> 0 <= d < 32 -> 0 <= f < 8 -> (f = 0 -> present cfg b d 0 = true) ->
  finds (nvme_function b d (cell cfg b d 0 0) f) (if present cfg b d f && is_nvme cfg (b, d, f) then Some (b, d, f) else None) nvme_at.
Proof.
  intros Hb Hd Hf H0 s Hv Hw. unfold nvme_function. apply wp_bind.
  eapply (wp_mono _ (fun skip s' => skip = negb (present cfg b d f) /\ view s' = cfg /\ written s' = w0) _ (fun _ _ => False)); [| |done].
  { destruct (Z.ltb_spec 0 f).
    - apply wp_bind, wp_config_read. intros s1 Hv1 Hw1. apply wp_ret. unfold present. rewrite negb_involutive, Hv. split_and!; congruence.
    - assert (f = 0) as -> by lia. apply wp_ret. by rewrite H0. }
  intros skip s1 (-> & Hv1 & Hw1). destruct (present cfg b d f); cbn [negb andb]; [|by apply wp_ret].
  apply wp_bind, wp_config_read. intros s2 Hv2 Hw2. rewrite Hv1.
  pose proof (Hcfg (config_address b d f 8)) as Hclass. fold (cell cfg b d f 8) in Hclass.
  rewrite class_check by done. change (Z.shiftr (cell cfg b d f 8) 8 =? 0x010802) with (is_nvme cfg (b, d, f)).
  destruct (is_nvme cfg (b, d, f)) eqn:Hnvme; [|apply wp_ret; split_and!; congruence].
  apply wp_bind.
  eapply (wp_mono _ (fun vd s' => vd = cell cfg b d f 0 /\ view s' = cfg /\ written s' = w0) _ (fun _ _ => False)); [| |done].
  { destruct (Z.eqb_spec f 0) as [->|]; [apply wp_ret; split_and!; congruence|].
    apply wp_config_read. intros s3 Hv3 Hw3. rewrite Hv2, Hv1. split_and!; congruence. }
  intros vd s3 (-> & Hv3 & Hw3). apply wp_bind, (enable_runs b d f 6); [done|done|].
  intros s4 [Hw4 Hv4]. apply wp_bind, bar0_runs.
  { intros o Ho. unfold cell. apply Hv4, register_ne; done. }
  intros s5 Hv5 Hw5. apply wp_ret. eexists. split; [done|]. split; [|split; [congruence|by rewrite Hv5]].
  pose proof (Hcfg (config_address b d f 0)) as Hid. fold (cell cfg b d f 0) in Hid.
  unfold is_nvme in Hnvme. rewrite <- class_check in Hnvme by done. rewrite !andb_true_iff, !Z.eqb_eq in Hnvme.
  destruct Hnvme as [[-> ->] ->]. rewrite !u16_mod, Z.shiftr_div_pow2 by lia. f_equal. apply Z.mod_small.
  change (2 ^ 32) with 4294967296 in Hid. change (2 ^ 16) with 65536. Z.div_mod_to_equations. lia.
Qed.

Lemma net_function_finds b d f : 0 <= b < 256 -> 0 <= d < 32 -> 0 <= f < 8 -> (f = 0 -> present cfg b d 0 = true) ->
  finds (net_function b d (cell cfg b d 0 0) f) (if present cfg b d f && is_net cfg (b, d, f) then Some (b, d, f) else None) net_at.
Proof.
  intros Hb Hd Hf H0 s Hv Hw. unfold net_function. apply wp_bind.
  eapply (wp_mono _ (fun vd s' => vd = (if present cfg b d f then Some (cell cfg b d f 0) else None) /\ view s' = cfg /\ written s' = w0)
    _ (fun _ _ => False)); [| |done].
  { destruct (Z.eqb_spec f 0) as [->|].
    - apply wp_ret. by rewrite H0.
    - apply wp_bind, wp_config_read. intros s1 Hv1 Hw1. apply wp_ret. rewrite Hv. unfold present.
      split; [by destruct (_ =? _)|]. split; congruence. }
  intros vd s1 (-> & Hv1 & Hw1). destruct (present cfg b d f); cbn [andb]; [|by apply wp_ret].
  pose proof (Hcfg (config_address b d f 0)) as Hid. fold (cell cfg b d f 0) in Hid.
  pose proof (Hcfg (config_address b d f 0x2C)) as Hsub. fold (cell cfg b d f 0x2C) in Hsub.
  rewrite net_check by done. unfold is_net. destruct (Z.eqb_spec (cell cfg b d f 0) 0x10001AF4) as [Heq|]; cbn [negb andb]; [|by apply wp_ret].
  apply wp_bind, wp_config_read. intros s2 Hv2 Hw2. rewrite Hv1.
  assert (u16 (Z.shiftr (cell cfg b d f 0x2C) 16) = Z.shiftr (cell cfg b d f 0x2C) 16) as ->.
  { apply u16_small. rewrite Z.shiftr_div_pow2 by lia. change (2 ^ 32) with 4294967296 in Hsub. change (2 ^ 16) with 65536.
    Z.div_mod_to_equations. lia. }
  destruct (_ =? 1); cbn [negb]; [|apply wp_ret; split_and!; congruence].
  apply wp_bind, wp_config_read. intros s3 Hv3 Hw3. rewrite Hv2, Hv1. apply wp_bind, wp_config_write. intros s4 Hw4 Hv4.
  assert (enabled 5 (b, d, f) s4) as [Hw5 Hv5].
  { split; [by rewrite Hw4, Hw3, Hw2, Hw1|]. intros a Ha. by rewrite Hv4, Hv3, Hv2, Hv1. }
  apply wp_bind, wp_config_read. intros s5 Hv6 Hw6. apply wp_ret. eexists. split; [done|].
  assert (cell (view s4) b d f 0x10 = cell cfg b d f 0x10) as -> by (apply Hv5, register_ne; tauto).
  rewrite Heq, (ldiff_ones _ 2), !u16_mod by lia. split; [done|]. split; [congruence|by rewrite Hv6].
Qed.
End spec.

(** C34. The scan of the bus finds the first NVMe controller there is, and
    disturbs nothing else.  On a bus that keeps to the two-port protocol, with
    the functions taken in order of bus, device and function number (function
    0, and the other seven of a device whose header says so): when some
    function has the class, subclass and interface of an NVMe controller the
    first such is returned, with its identity and the address in its first
    base register, 32 or 64 bits wide; its command register is written once,
    adding memory access and bus mastering, and nothing else is; when there is
    none nothing is written.  Likewise the scan for the network card, by
    vendor, device and subsystem, which adds port access. *)
Theorem pci_scan_correct {S : Type} {HB : Bus S} {HS : BusSpec S} (s : S) :
  wp find_nvme_controller (fun r s' =>
    match find_first (is_nvme (view s)) (functions (view s)) with
    | None => r = None /\ view s' = view s /\ written s' = written s
    | Some x => exists dev, r = Some dev /\ nvme_at (view s) (written s) x dev s'
    end) (fun _ _ => False) s /\
  wp find_virtio_net (fun r s' =>
    match find_first (is_net (view s)) (functions (view s)) with
    | None => r = None /\ view s' = view s /\ written s' = written s
    | Some x => exists info, r = Some info /\ net_at (view s) (written s) x info s'
    end) (fun _ _ => False) s.
Proof.
  pose proof (view_bound s) as Hcfg. split.
  - apply (finds_bus (view s) (written s) nvme_device (is_nvme (view s))); [|done|done]. intros b d Hb Hd.
    apply (finds_slot (view s) (written s) (fun vd => nvme_function b d vd)). intros f Hf H0. by apply nvme_function_finds.
  - apply (finds_bus (view s) (written s) net_slot (is_net (view s))); [|done|done]. intros b d Hb Hd.
    apply (finds_slot (view s) (written s) (fun vd => net_function b d vd)). intros f Hf H0. by apply net_function_finds.
Qed.

Lemma wp_total {S E A} (m : st S E A) (Q : A -> S -> Prop) s : wp m Q (fun _ _ => False) s -> exists a s', m s = (Ok a, s') /\ Q a s'.
Proof. unfold wp. destruct (m s) as [[a|e|] s']; [|done..]. by exists a, s'. Qed.

(** ** A bus in memory *)
Module Small.
Record sim := mkSim { latch : Z; dwords : gmap Z Z; log : list (Z * Z) }.
Definition look (s : sim) (a : Z) : Z := default 0xFFFFFFFF (dwords s !! a) mod 2 ^ 32.
#[export] Instance small_bus : Bus sim := {
  outl port val s :=
    if port =? 0xCF8 then mkSim val (dwords s) (log s)
    else if port =? 0xCFC then mkSim (latch s) (<[latch s := val]> (dwords s)) (log s ++ [(latch s, val)])
    else s;
  inl_ port s := (if port =? 0xCFC then look s (latch s) else 0xFFFFFFFF, s);
}.
#[export, refine] Instance small_spec : BusSpec sim := { view := look; written := log }.
Proof.
  - intros s a. by apply Z.mod_pos_bound.
  - done.
  - intros a v s. cbn. split; [done|]. intros b Hb. unfold look. cbn. by rewrite lookup_insert_ne.
Defined.

(** Slot 1 is a bridge; slot 3 has two functions, the second an NVMe
    controller with a 64-bit base address. *)
Definition board : sim := mkSim 0 (list_to_map [
  (config_address 0 1 0 0x00, 0x12378086); (config_address 0 1 0 0x08, 0x06000000); (config_address 0 1 0 0x0C, 0);
  (config_address 0 3 0 0x00, 0x10001234); (config_address 0 3 0 0x08, 0x02000000); (config_address 0 3 0 0x0C, 0x00800000);
  (config_address 0 3 1 0x00, 0x00101B36); (config_address 0 3 1 0x08, 0x01080202); (config_address 0 3 1 0x04, 0x00100001);
  (config_address 0 3 1 0x10, 0xFEBD4004); (config_address 0 3 1 0x14, 0x00000001)]) [].

Lemma pci_scan_correct_witness : exists s',
  find_nvme_controller board = (Ok (Some (mkDevice 0 3 1 0x1B36 0x0010 1 8 2 0x1FEBD4000)), s') /\
  written s' = [(config_address 0 3 1 4, 0x00100007)] /\ fst (find_virtio_net board) = Ok None.
Proof.
  destruct (pci_scan_correct board) as [H1 H2].
  assert (find_first (is_nvme (view board)) (functions (view board)) = Some (0, 3, 1)) as Hn by (vm_compute; reflexivity).
  assert (find_first (is_net (view board)) (functions (view board)) = None) as Hv by (vm_compute; reflexivity).
  destruct (wp_total _ _ _ H1) as (r1 & s1 & Hr1 & Hq1). destruct (wp_total _ _ _ H2) as (r2 & s2 & Hr2 & Hq2).
  rewrite Hn in Hq1. rewrite Hv in Hq2. destruct Hq1 as (dev & -> & -> & Hw & _). destruct Hq2 as (-> & _).
  exists s1. split; [exact Hr1|]. split; [exact Hw|]. rewrite Hr2. reflexivity.
Defined.
End Small.
End Pci.
