(* ===== verification/Paging.v ===== *)
(** * Page tables ([mem/paging.rs])

    Unmapping one page, and the guarded kernel stack, over the words of
    physical memory.  A pointer of the direct map is a physical address plus
    the offset; [translate] is what the processor makes of the same words. *)
From S2P Require Import Prelude.
From S2P Require Import Bitmap.
From S2P Require Import Phys.

Module Paging.

Definition PTE_PRESENT : Z := 1.
Definition PTE_ADDR_MASK : Z := 0x000FFFFFFFFFF000.

(** The words of memory by physical address, and the pages flushed. *)
Record space := mkSpace { mem : Z -> Z; flushed : list Z }.

Section paging.
(** The control register, and the offset of the direct map. *)
Variables cr3 hhdm : Z.

Definition M (A : Type) : Type := st space unit A.
Definition read_cr3 : Z := Z.land cr3 PTE_ADDR_MASK.
Definition invlpg (vaddr : Z) : M unit := fun s => (Ok tt, mkSpace (mem s) (flushed s ++ [vaddr])).
Definition table_index (vaddr level : Z) : Z := Z.land (Z.shiftr vaddr (12 + 9 * (level - 1))) 0x1FF.
Definition phys_to_virt (phys : Z) : Z := phys ⊞ hhdm.
(** [ptr.add(idx)], [read_volatile], [write_volatile]. *)
Definition add (table idx : Z) : Z := table ⊞ idx * 8.
Definition read_volatile (ptr : Z) : M Z := fun s => (Ok (mem s (ptr ⊟ hhdm)), s).
Definition write_volatile (ptr v : Z) : M unit := fun s =>
  (Ok tt, mkSpace (fun a => if a =? ptr ⊟ hhdm then v else mem s a) (flushed s)).

(** The loop over the levels: [None] is the early return. *)
Fixpoint walk (levels : list Z) (vaddr table : Z) : M (option Z) :=
  match levels with
  | [] => mret (Some table)
  | level :: levels =>
      entry ← read_volatile (add table (table_index vaddr level));
      if Z.land entry PTE_PRESENT =? 0 then mret None
      else walk levels vaddr (phys_to_virt (Z.land entry PTE_ADDR_MASK))
  end.

Definition unmap_page (vaddr : Z) : M bool :=
  table ← walk [4; 3; 2] vaddr (phys_to_virt read_cr3);
  match table with
  | None => mret false
  | Some table =>
      let pte_ptr := add table (table_index vaddr 1) in
      pte ← read_volatile pte_ptr;
      if Z.land pte PTE_PRESENT =? 0 then mret false
      else
        _ ← write_volatile pte_ptr (Z.land pte (not64 PTE_PRESENT));
        _ ← invlpg vaddr;
        mret true
  end.

(** The stack of a task: the page allocator beside the tables. *)
Definition alloc_guarded_stack (stack_pages : Z) : st (Phys.AllocatorInner * space) unit (option (Z * Z)) := fun '(pa, s) =>
  match Phys.alloc_pages_contiguous (1 ⊞ stack_pages) 1 pa with
  | (Ok phys, pa') =>
      let base_virt := phys ⊞ hhdm in
      let guard_vaddr := base_virt in
      let stack_bottom := base_virt ⊞ Phys.PAGE_SIZE in
      let stack_top := stack_bottom ⊞ stack_pages * Phys.PAGE_SIZE in
      match unmap_page guard_vaddr s with
      | (Panic, s') => (Panic, (pa', s'))
      | (_, s') => (Ok (Some (guard_vaddr, stack_top)), (pa', s'))
      end
  | (Err _, pa') => (Ok None, (pa', s))
  | (Panic, pa') => (Panic, (pa', s))
  end.
End paging.

(** ** Translation by the processor

    Four levels; an entry of the third or second level with bit 7 set maps a
    page of 1 GiB or 2 MiB itself. *)
Definition is_present (e : Z) : bool := Z.testbit e 0.
Definition is_huge (e : Z) : bool := Z.testbit e 7.
Definition frame (e : Z) : Z := Z.land e PTE_ADDR_MASK.
Definition index (v level : Z) : Z := v / 2 ^ (3 + 9 * level) mod 512.
Definition slot (table v level : Z) : Z := table + 8 * index v level.

Section mmu.
Variable m : Z -> Z.
(** The entries of a walk: the word each level reads, when it comes to it. *)
Definition entry4 (root v : Z) : Z := m (slot root v 4).
Definition entry3 (root v : Z) : Z := m (slot (frame (entry4 root v)) v 3).
Definition entry2 (root v : Z) : Z := m (slot (frame (entry3 root v)) v 2).
Definition entry1 (root v : Z) : Z := m (slot (frame (entry2 root v)) v 1).
Definition points (e : Z) : bool := is_present e && negb (is_huge e).

Definition translate (root v : Z) : option Z :=
  if negb (is_present (entry4 root v)) then None
  else if negb (is_present (entry3 root v)) then None
  else if is_huge (entry3 root v) then Some (frame (entry3 root v) / 2 ^ 30 * 2 ^ 30 + v mod 2 ^ 30)
  else if negb (is_present (entry2 root v)) then None
  else if is_huge (entry2 root v) then Some (frame (entry2 root v) / 2 ^ 21 * 2 ^ 21 + v mod 2 ^ 21)
  else if negb (is_present (entry1 root v)) then None
  else Some (frame (entry1 root v) + v mod 4096).

(** The tables the walk of [v] reads, with their levels. *)
Inductive reaches (root v : Z) : Z -> Z -> Prop :=
| R4 : reaches root v 4 root
| R3 : is_present (entry4 root v) = true -> reaches root v 3 (frame (entry4 root v))
| R2 : is_present (entry4 root v) = true -> points (entry3 root v) = true -> reaches root v 2 (frame (entry3 root v))
| R1 : is_present (entry4 root v) = true -> points (entry3 root v) = true -> points (entry2 root v) = true ->
    reaches root v 1 (frame (entry2 root v)).

(** The addresses a table of level [l] on the way to [v] serves. *)
Definition region (v l : Z) : Z := v / 2 ^ (12 + 9 * l) mod 2 ^ (36 - 9 * l).
(** No table is used in two places. *)
Definition tree (root : Z) : Prop :=
  forall v w l k t, reaches root v l t -> reaches root w k t -> l = k /\ region v l = region w k.
(** [v] is not in a huge page. *)
Definition fine (root v : Z) : Prop :=
  is_present (entry4 root v) = true -> is_present (entry3 root v) = true ->
  is_huge (entry3 root v) = false /\ (is_present (entry2 root v) = true -> is_huge (entry2 root v) = false).
End mmu.
Definition page (v : Z) : Z := v / 4096 mod 2 ^ 36.

(** ** Lemmas *)
Lemma present_bit e : (Z.land e PTE_PRESENT =? 0) = negb (is_present e).
Proof.
  unfold is_present, PTE_PRESENT. change 1 with (Z.ones 1). rewrite Z.land_ones, Z.bit0_odd by lia. change (2 ^ 1) with 2.
  rewrite Zmod_odd. by destruct (Z.odd e).
Qed.
Lemma table_index_eq v l : 1 <= l -> table_index v l = index v l.
Proof.
  intros Hl. unfold table_index, index. change 0x1FF with (Z.ones 9). rewrite Z.land_ones, Z.shiftr_div_pow2 by lia.
  by replace (12 + 9 * (l - 1)) with (3 + 9 * l) by lia.
Qed.
Lemma index_bound v l : 0 <= index v l < 512.
Proof. by apply Z.mod_pos_bound. Qed.
Lemma mask_eq e : 0 <= e < 2 ^ 64 -> frame e = e mod 2 ^ 52 / 4096 * 4096.
Proof.
  intros He. unfold frame. change PTE_ADDR_MASK with (Z.land (Z.ones 52) (not64 (2 ^ 12 - 1))).
  rewrite Z.land_assoc, Z.land_ones by lia. rewrite land_not_ones; [done|lia|].
  pose proof (Z.mod_pos_bound e (2 ^ 52) ltac:(lia)). lia.
Qed.
Lemma frame_ok e : 0 <= e < 2 ^ 64 -> 0 <= frame e < 2 ^ 52 /\ (4096 | frame e).
Proof.
  intros He. rewrite mask_eq by done. pose proof (Z.mod_pos_bound e (2 ^ 52) ltac:(lia)).
  split; [|by apply Z.divide_factor_r]. pose proof (Z.mul_div_le (e mod 2 ^ 52) 4096 ltac:(lia)).
  pose proof (Z.div_pos (e mod 2 ^ 52) 4096). lia.
Qed.

(** A table entry is read and written where the processor reads it. *)
Lemma direct hhdm t v l : 1 <= l -> 0 <= t < 2 ^ 52 -> add (phys_to_virt hhdm t) (table_index v l) ⊟ hhdm = slot t v l.
Proof.
  intros Hl Ht. rewrite table_index_eq by done. pose proof (index_bound v l). unfold add, phys_to_virt, wrap64, slot.
  rewrite Zplus_mod_idemp_l, Zminus_mod_idemp_l. rewrite Z.mod_small; lia.
Qed.

Definition set_word (a e : Z) (m : Z -> Z) : Z -> Z := fun b => if b =? a then e else m b.
Definition clear (e : Z) : Z := Z.land e (not64 PTE_PRESENT).

Lemma walk_step hhdm l ls v t s : 1 <= l -> 0 <= t < 2 ^ 52 ->
  walk hhdm (l :: ls) v (phys_to_virt hhdm t) s =
  if negb (is_present (mem s (slot t v l))) then (Ok None, s)
  else walk hhdm ls v (phys_to_virt hhdm (frame (mem s (slot t v l)))) s.
Proof.
  intros Hl Ht. cbn [walk]. unfold mbind, st_bind, read_volatile. rewrite direct, present_bit by done.
  by destruct (is_present _).
Qed.

Section correct.
Variables cr3 hhdm : Z.
Notation root := (read_cr3 cr3).
Notation words_ok m := (forall a, 0 <= m a < 2 ^ 64).

Lemma root_ok : 0 <= cr3 < 2 ^ 64 -> 0 <= root < 2 ^ 52 /\ (4096 | root).
Proof. apply frame_ok. Qed.

(** What the code does to the words. *)
Lemma unmap_runs v s : 0 <= cr3 < 2 ^ 64 -> words_ok (mem s) ->
  let m := mem s in
  let a := slot (frame (entry2 m root v)) v 1 in
  unmap_page cr3 hhdm v s =
  if is_present (entry4 m root v) && is_present (entry3 m root v) && is_present (entry2 m root v) && is_present (entry1 m root v)
  then (Ok true, mkSpace (set_word a (clear (m a)) m) (flushed s ++ [v]))
  else (Ok false, s).
Proof.
  intros Hcr Hm m a. unfold unmap_page. unfold mbind at 1, st_bind at 1. pose proof (root_ok Hcr) as [Hr _].
  rewrite walk_step by (done || lia). fold (entry4 (mem s) root v). fold m. destruct (is_present (entry4 m root v)); [|done].
  assert (forall e, 0 <= frame (m e) < 2 ^ 52) as Hf by (intros e; by apply frame_ok).
  cbn [negb andb]. rewrite walk_step by (try apply Hf; lia). fold m. fold (entry3 m root v). destruct (is_present (entry3 m root v)); [|done].
  cbn [negb andb]. rewrite walk_step by (try apply Hf; lia). fold m. fold (entry2 m root v). destruct (is_present (entry2 m root v)); [|done].
  cbn [negb andb walk mret st_ret]. unfold mbind, st_bind, read_volatile. rewrite direct by (try apply Hf; lia). fold a m. rewrite present_bit.
  fold (entry1 m root v). change (m a) with (entry1 m root v). destruct (is_present (entry1 m root v)); [|done].
  cbn [negb]. unfold write_volatile, invlpg. rewrite direct by (try apply Hf; lia). fold a m. done.
Qed.

(** Two walks that read the same word are in the same table at the same place. *)
Lemma same_slot t t' v w l k : (4096 | t) -> (4096 | t') -> slot t v l = slot t' w k -> t = t' /\ index v l = index w k.
Proof.
  intros [x ->] [y ->] Hs. unfold slot in Hs. pose proof (index_bound v l). pose proof (index_bound w k). lia.
Qed.
Lemma reaches_aligned m v l t : 0 <= cr3 < 2 ^ 64 -> words_ok m -> reaches m root v l t -> (4096 | t).
Proof. intros Hcr Hm Hr. destruct Hr; [exact (proj2 (root_ok Hcr))|apply (proj2 (frame_ok _ (Hm _)))..]. Qed.

Lemma page_eq v w : region v 1 = region w 1 -> index v 1 = index w 1 -> page v = page w.
Proof.
  unfold region, index, page. intros Hr Hi. change (2 ^ (12 + 9 * 1)) with 2097152 in Hr. change (2 ^ (36 - 9 * 1)) with 134217728 in Hr.
  change (2 ^ (3 + 9 * 1)) with 4096 in Hi. change (2 ^ 36) with 68719476736. Z.div_mod_to_equations. lia.
Qed.

Lemma page_index v w l : 1 <= l <= 4 -> page v = page w -> index v l = index w l.
Proof.
  intros Hl Hp. unfold page in Hp. unfold index.
  assert (forall x, x / 2 ^ (3 + 9 * l) mod 512 = x / 4096 mod 2 ^ 36 / 2 ^ (9 * (l - 1)) mod 512) as Hx; [|by rewrite !Hx, Hp].
  intros x. assert (l = 1 \/ l = 2 \/ l = 3 \/ l = 4) as [-> |[-> |[-> | ->]]] by lia.
  all: match goal with |- ?y / ?a mod _ = _ / ?b mod _ => let a' := eval vm_compute in a in let b' := eval vm_compute in b in
    change a with a'; change b with b' end; change (2 ^ 36) with 68719476736; Z.div_mod_to_equations; lia.
Qed.

(** [v] is mapped by a 4 KiB page, in tables that form a tree. *)
Section leaf.
Variables (m : Z -> Z) (v : Z).
Hypothesis Hcr : 0 <= cr3 < 2 ^ 64.
Hypothesis Hm : words_ok m.
Hypothesis Htree : tree m root.
Hypothesis H4 : is_present (entry4 m root v) = true.
Hypothesis H3 : points (entry3 m root v) = true.
Hypothesis H2 : points (entry2 m root v) = true.
Definition leaf : Z := slot (frame (entry2 m root v)) v 1.

Lemma leaf_only w k t : reaches m root w k t -> slot t w k = leaf -> k = 1 /\ page w = page v.
Proof.
  intros Hw Hs. pose proof (R1 m root v H4 H3 H2) as Hv.
  destruct (same_slot _ _ _ _ _ _ (reaches_aligned _ _ _ _ Hcr Hm Hw) (reaches_aligned _ _ _ _ Hcr Hm Hv) Hs) as [-> Hi].
  destruct (Htree _ _ _ _ _ Hw Hv) as [-> Hreg]. split; [done|]. by apply page_eq.
Qed.

Variable e : Z.
Let m' := set_word leaf e m.
Lemma word_kept w k t : reaches m root w k t -> (k = 1 -> page w <> page v) -> m' (slot t w k) = m (slot t w k).
Proof.
  intros Hw Hk. unfold m', set_word. destruct (Z.eqb_spec (slot t w k) leaf) as [Hs|]; [|done].
  destruct (leaf_only w k t Hw Hs) as [-> Hp]. by destruct Hk.
Qed.
Lemma entry4_kept w : entry4 m' root w = entry4 m root w.
Proof. apply word_kept; [apply R4|lia]. Qed.
Lemma entry3_kept w : is_present (entry4 m root w) = true -> entry3 m' root w = entry3 m root w.
Proof. intros Hp. unfold entry3. rewrite entry4_kept. apply word_kept; [by apply R3|lia]. Qed.
Lemma entry2_kept w : is_present (entry4 m root w) = true -> points (entry3 m root w) = true -> entry2 m' root w = entry2 m root w.
Proof. intros Hp H. unfold entry2. rewrite entry3_kept by done. apply word_kept; [by apply R2|lia]. Qed.
Lemma entry1_kept w : is_present (entry4 m root w) = true -> points (entry3 m root w) = true -> points (entry2 m root w) = true ->
  page w <> page v -> entry1 m' root w = entry1 m root w.
Proof. intros Hp H H' Hne. unfold entry1. rewrite entry2_kept by done. apply word_kept; [by apply R1|done]. Qed.

Lemma other_pages w : page w <> page v -> translate m' root w = translate m root w.
Proof.
  intros Hne. unfold translate. rewrite entry4_kept. destruct (is_present (entry4 m root w)) eqn:Hp4; [|done]. cbn [negb].
  rewrite entry3_kept by done. destruct (is_present (entry3 m root w)) eqn:Hp3; [|done]. cbn [negb].
  destruct (is_huge (entry3 m root w)) eqn:Hh3; [done|].
  assert (points (entry3 m root w) = true) as Ho3 by (unfold points; by rewrite Hp3, Hh3).
  rewrite entry2_kept by done. destruct (is_present (entry2 m root w)) eqn:Hp2; [|done]. cbn [negb].
  destruct (is_huge (entry2 m root w)) eqn:Hh2; [done|].
  assert (points (entry2 m root w) = true) as Ho2 by (unfold points; by rewrite Hp2, Hh2).
  by rewrite entry1_kept.
Qed.

Lemma same_walk w : page w = page v -> entry4 m root w = entry4 m root v /\ entry3 m root w = entry3 m root v /\ entry2 m root w = entry2 m root v.
Proof.
  intros Hp. unfold entry2, entry3, entry4, slot. rewrite !(page_index w v) by (done || lia). done.
Qed.
Lemma this_page w : is_present e = false -> page w = page v -> translate m' root w = None.
Proof.
  intros He Hp. destruct (same_walk w Hp) as (E4 & E3 & E2). unfold translate. rewrite entry4_kept, E4, H4. cbn [negb].
  rewrite entry3_kept, E3 by (by rewrite E4). pose proof H3 as H3'. unfold points in H3'. apply andb_true_iff in H3' as [-> Hh3].
  apply negb_true_iff in Hh3. rewrite Hh3. cbn [negb]. rewrite entry2_kept, E2 by (by rewrite ?E4, ?E3).
  pose proof H2 as H2'. unfold points in H2'. apply andb_true_iff in H2' as [-> Hh2]. apply negb_true_iff in Hh2. rewrite Hh2. cbn [negb].
  assert (entry1 m' root w = e) as ->; [|by rewrite He]. unfold entry1. rewrite entry2_kept, E2 by (by rewrite ?E4, ?E3).
  unfold m', set_word. replace (slot (frame (entry2 m root v)) w 1) with leaf; [by rewrite Z.eqb_refl|].
  unfold leaf, slot. by rewrite (page_index w v) by (done || lia).
Qed.
End leaf.

Lemma clear_absent e : is_present (clear e) = false.
Proof. unfold is_present, clear. rewrite Z.land_spec. by rewrite andb_false_r. Qed.

(** Unmapping a page that no huge page covers. *)
Lemma unmap_effect v s : 0 <= cr3 < 2 ^ 64 -> words_ok (mem s) -> tree (mem s) root -> fine (mem s) root v ->
  exists b s', unmap_page cr3 hhdm v s = (Ok b, s') /\
  (b = false -> s' = s /\ translate (mem s) root v = None) /\
  (b = true -> translate (mem s) root v <> None /\ flushed s' = flushed s ++ [v] /\
     (forall w, page w = page v -> translate (mem s') root w = None) /\
     forall w, page w <> page v -> translate (mem s') root w = translate (mem s) root w).
Proof.
  intros Hcr Hm Htree Hfine. rewrite unmap_runs by done. cbn zeta. set (m := mem s) in *. unfold fine in Hfine.
  assert (translate m root v = None <-> is_present (entry4 m root v) && is_present (entry3 m root v) && is_present (entry2 m root v) && is_present (entry1 m root v) = false) as Hiff.
  { unfold translate. destruct (is_present (entry4 m root v)), (is_present (entry3 m root v)); cbn [negb andb]; try tauto.
    destruct Hfine as [-> Hh2]; [done..|]. destruct (is_present (entry2 m root v)); cbn [negb andb]; [|tauto]. rewrite Hh2 by done.
    by destruct (is_present (entry1 m root v)). }
  destruct (_ && _) eqn:Hall; eexists _, _; (split; [reflexivity|]); (split; [intros [=]|intros [=]]).
  - rewrite !andb_true_iff in Hall. destruct Hall as [[[H4 H3] H2] H1]. destruct (Hfine H4 H3) as [Hh3 Hh2].
    assert (points (entry3 m root v) = true) as Ho3 by (unfold points; by rewrite H3, Hh3).
    assert (points (entry2 m root v) = true) as Ho2 by (unfold points; by rewrite H2, Hh2).
    split; [by rewrite Hiff|]. split; [done|]. cbn [mem]. split; intros w Hw.
    + apply (this_page m v); try done. apply clear_absent.
    + by apply (other_pages m v).
  - split; [done|]. by apply Hiff.
Qed.
End correct.

(** The direct map of the pages the allocator manages, in 4 KiB pages. *)
Definition direct_map (m : Z -> Z) (root hhdm pages : Z) : Prop :=
  0 <= hhdm /\ (4096 | hhdm) /\ hhdm + pages * 4096 < 2 ^ 64 /\
  forall a, 0 <= a < pages * 4096 -> translate m root (a + hhdm) = Some a /\ fine m root (a + hhdm).

(** The guarded stack has its guard.  With page tables that form a tree and
    map the memory of the allocator directly in 4 KiB pages, asking for [n]
    pages of stack either fails with nothing changed, and then there is no run
    of [n + 1] free pages; or it takes the lowest such run and returns the
    address of its first page and the address past its last: no address of the
    first page is translated any more and its old translation is flushed, while
    every other address of the direct map, the stack's pages among them, is
    translated as before.  It never panics. *)
Lemma guarded_stack_ok cr3 hhdm n (pa : Phys.AllocatorInner) (s : space) :
  let root := read_cr3 cr3 in
  Phys.wf pa -> 0 <= n < 2 ^ 20 -> 0 <= cr3 < 2 ^ 64 -> (forall a, 0 <= mem s a < 2 ^ 64) -> tree (mem s) root ->
  direct_map (mem s) root hhdm (Phys.total_pages pa) ->
  (alloc_guarded_stack cr3 hhdm n (pa, s) = (Ok None, (pa, s)) /\ forall q, ~ Phys.candidate_run pa (n + 1) 1 q) \/
  exists p pa' s', let guard := p * 4096 + hhdm in let top := guard + (n + 1) * 4096 in
    alloc_guarded_stack cr3 hhdm n (pa, s) = (Ok (Some (guard, top)), (pa', s')) /\
    Phys.candidate_run pa (n + 1) 1 p /\ (forall q, Phys.candidate_run pa (n + 1) 1 q -> p <= q) /\ Phys.alloc_post pa (n + 1) p pa' /\
    (forall v, guard <= v < guard + 4096 -> translate (mem s') root v = None) /\ flushed s' = flushed s ++ [guard] /\
    forall a, 0 <= a < Phys.total_pages pa * 4096 -> a / 4096 <> p -> translate (mem s') root (a + hhdm) = Some a.
Proof.
  intros root Hwf Hn Hcr Hm Htree (Hh & [h Hal] & Hend & Hmap). unfold alloc_guarded_stack.
  assert (1 ⊞ n = n + 1) as -> by (unfold wrap64; rewrite Z.mod_small; lia).
  destruct (Phys.alloc_cases pa (n + 1) 1 Hwf) as [(p & pa' & -> & Hrun & Hlow & Hpost)|[-> Hnone]]; [lia|unfold is_u64; lia|done| |by left].
  right. destruct Hrun as (Hp & Hdiv & Htop & Hfree). pose proof (proj2 Hwf) as Htot.
  assert (p * 4096 ⊞ hhdm = p * 4096 + hhdm) as -> by (unfold wrap64; rewrite Z.mod_small; lia).
  assert (fine (mem s) root (p * 4096 + hhdm) /\ translate (mem s) root (p * 4096 + hhdm) = Some (p * 4096)) as [Hfine Hsome].
  { destruct (Hmap (p * 4096)); [lia|done]. }
  destruct (unmap_effect cr3 hhdm (p * 4096 + hhdm) s Hcr Hm Htree Hfine) as (b & s' & Hrun & Hno & Hyes).
  exists p, pa', s'. cbn zeta. rewrite Hrun. fold root in Hno, Hyes. destruct b; [|by destruct (Hno eq_refl) as [_ Ha]; rewrite Hsome in Ha].
  destruct (Hyes eq_refl) as (_ & Hfl & Hgone & Hkept). unfold Phys.PAGE_SIZE.
  assert (p * 4096 + hhdm ⊞ 4096 ⊞ n * 4096 = p * 4096 + hhdm + (n + 1) * 4096) as ->.
  { unfold wrap64. rewrite Zplus_mod_idemp_l. rewrite Z.mod_small; lia. }
  split; [done|]. split; [done|]. split; [exact Hlow|]. split; [exact Hpost|]. split; [|split; [exact Hfl|]].
  - intros v Hv. apply Hgone. unfold page. f_equal. subst hhdm. Z.div_mod_to_equations. lia.
  - intros a Ha Hne. destruct (Hmap a Ha) as [<- _]. apply Hkept. unfold page. subst hhdm.
    pose proof Phys.MAX_PAGES_eq. rewrite !Z.add_assoc in *. rewrite <- Z.mul_add_distr_r, Z.div_mul, Z.div_add by lia.
    intros Heq. apply Hne.
    assert (a / 4096 - p = 0) as Hz; [|lia].
    assert (0 <= a / 4096 < Phys.total_pages pa) by (Z.div_mod_to_equations; lia).
    assert ((a / 4096 + h - (p + h)) mod 2 ^ 36 = 0) as Hd by (rewrite Zminus_mod, Heq, Z.sub_diag; done).
    replace (a / 4096 + h - (p + h)) with (a / 4096 - p) in Hd by lia.
    destruct (Z.le_gt_cases 0 (a / 4096 - p)).
    + rewrite Z.mod_small in Hd; lia.
    + rewrite <- (Z.mod_add _ 1) in Hd by lia. rewrite Z.mod_small in Hd; lia.
Qed.

(** ** Tables in memory *)
Module Small.
Definition offset : Z := 0xFFFF800000000000.
Definition base : Z := 0x100000.
(** One table a level; [last] is the entry of the second level. *)
Definition words (last : Z) (a : Z) : Z :=
  if a =? 0x100000 + 8 * 256 then 0x101003
  else if a =? 0x101000 then 0x102003
  else if a =? 0x102000 then last
  else if (0x103000 <=? a) && (a <? 0x104000) then (a - 0x103000) / 8 * 4096 + 3
  else 0.
Definition tables : Z -> Z := words 0x103003.

Lemma tables_ok a : 0 <= tables a < 2 ^ 64.
Proof. unfold tables, words. repeat case_match; Z.div_mod_to_equations; lia. Qed.

Lemma at4 v : tables (slot base v 4) = if index v 4 =? 256 then 0x101003 else 0.
Proof. unfold tables, words, slot, base. pose proof (index_bound v 4). repeat case_match; lia. Qed.
Lemma at3 v : tables (slot 0x101000 v 3) = if index v 3 =? 0 then 0x102003 else 0.
Proof. unfold tables, words, slot. pose proof (index_bound v 3). repeat case_match; lia. Qed.
Lemma at2 v : tables (slot 0x102000 v 2) = if index v 2 =? 0 then 0x103003 else 0.
Proof. unfold tables, words, slot. pose proof (index_bound v 2). repeat case_match; lia. Qed.
Lemma at1 v : tables (slot 0x103000 v 1) = index v 1 * 4096 + 3.
Proof.
  unfold tables, words, slot. pose proof (index_bound v 1). repeat case_match; Z.div_mod_to_equations; lia.
Qed.

(** The path to [v]. *)
Lemma path v l t : reaches tables base v l t ->
  l = 4 /\ t = base \/ l = 3 /\ t = 0x101000 /\ index v 4 = 256 \/
  l = 2 /\ t = 0x102000 /\ index v 4 = 256 /\ index v 3 = 0 \/
  l = 1 /\ t = 0x103000 /\ index v 4 = 256 /\ index v 3 = 0 /\ index v 2 = 0.
Proof.
  assert (is_present (entry4 tables base v) = true -> entry4 tables base v = 0x101003 /\ index v 4 = 256) as H4.
  { unfold entry4. rewrite at4. destruct (Z.eqb_spec (index v 4) 256); [done|]. intros [=]. }
  assert (is_present (entry4 tables base v) = true -> points (entry3 tables base v) = true ->
    entry3 tables base v = 0x102003 /\ index v 3 = 0) as H3.
  { intros [He _]%H4. unfold entry3. rewrite He. change (frame 0x101003) with 0x101000. rewrite at3.
    destruct (Z.eqb_spec (index v 3) 0); [done|]. intros [=]. }
  intros Hr. destruct Hr as [|Hp|Hp Hq|Hp Hq Hs].
  - by left.
  - destruct (H4 Hp) as [-> ?]. right; left. done.
  - destruct (H4 Hp) as [_ ?], (H3 Hp Hq) as [-> ?]. right; right; left. done.
  - destruct (H4 Hp) as [_ ?], (H3 Hp Hq) as [He ?]. right; right; right. unfold entry2 in *. rewrite He in *.
    change (frame 0x102003) with 0x102000 in *. rewrite at2 in *. destruct (Z.eqb_spec (index v 2) 0); [done|]. discriminate Hs.
Qed.

Lemma tables_tree : tree tables base.
Proof.
  intros v w l k t [[-> ->]|[(-> & -> & Hv)|[(-> & -> & Hv & Hv3)|(-> & -> & Hv & Hv3 & Hv2)]]]%path
    [[-> Ht]|[(-> & Ht & Hw)|[(-> & Ht & Hw & Hw3)|(-> & Ht & Hw & Hw3 & Hw2)]]]%path; try done; split; try done.
  all: unfold region, index in *.
  - by rewrite !Z.mod_1_r.
  - change (12 + 9 * 3) with (3 + 9 * 4). change (2 ^ (36 - 9 * 3)) with 512. congruence.
  - change (2 ^ (3 + 9 * 4)) with 549755813888 in *. change (2 ^ (3 + 9 * 3)) with 1073741824 in *.
    change (2 ^ (12 + 9 * 2)) with 1073741824. change (2 ^ (36 - 9 * 2)) with 262144. Z.div_mod_to_equations. lia.
  - change (2 ^ (3 + 9 * 4)) with 549755813888 in *. change (2 ^ (3 + 9 * 3)) with 1073741824 in *. change (2 ^ (3 + 9 * 2)) with 2097152 in *.
    change (2 ^ (12 + 9 * 1)) with 2097152. change (2 ^ (36 - 9 * 1)) with 134217728. Z.div_mod_to_equations. lia.
Qed.

Lemma tables_map pages : 0 <= pages <= 512 -> direct_map tables base offset pages.
Proof.
  intros Hp. split; [done|]. split; [by exists (offset / 4096)|]. split; [unfold offset; lia|]. intros a Ha.
  assert (index (a + offset) 4 = 256 /\ index (a + offset) 3 = 0 /\ index (a + offset) 2 = 0 /\ index (a + offset) 1 = a / 4096) as (I4 & I3 & I2 & I1).
  { unfold index, offset. change (2 ^ (3 + 9 * 4)) with 549755813888. change (2 ^ (3 + 9 * 3)) with 1073741824.
    change (2 ^ (3 + 9 * 2)) with 2097152. change (2 ^ (3 + 9 * 1)) with 4096. Z.div_mod_to_equations. lia. }
  assert (entry4 tables base (a + offset) = 0x101003) as E4 by (unfold entry4; rewrite at4, I4; done).
  assert (entry3 tables base (a + offset) = 0x102003) as E3 by (unfold entry3; rewrite E4; change (frame 0x101003) with 0x101000; rewrite at3, I3; done).
  assert (entry2 tables base (a + offset) = 0x103003) as E2 by (unfold entry2; rewrite E3; change (frame 0x102003) with 0x102000; rewrite at2, I2; done).
  assert (entry1 tables base (a + offset) = a / 4096 * 4096 + 3) as E1 by (unfold entry1; rewrite E2; change (frame 0x103003) with 0x103000; rewrite at1, I1; done).
  split; [|unfold fine; rewrite E3, E2; done]. unfold translate. rewrite E4, E3, E2, E1.
  change (is_present 0x101003) with true. change (is_present 0x102003) with true. change (is_huge 0x102003) with false.
  change (is_present 0x103003) with true. change (is_huge 0x103003) with false. cbn [negb].
  assert (is_present (a / 4096 * 4096 + 3) = true) as ->.
  { unfold is_present. rewrite Z.bit0_odd, Z.odd_add, Z.odd_mul. by rewrite andb_false_r. }
  cbn [negb]. rewrite mask_eq by (Z.div_mod_to_equations; lia).
  assert (offset mod 4096 = 0) as Ho by done. unfold offset in *. f_equal. change (2 ^ 52) with 4503599627370496. Z.div_mod_to_equations. lia.
Qed.

(** A stack of two pages on a machine of sixteen: page 1 is the guard. *)
Example guarded_stack_small : exists pa' s',
  alloc_guarded_stack base offset 2 (Phys.demo, mkSpace tables []) = (Ok (Some (offset + 0x1000, offset + 0x4000)), (pa', s')) /\
  translate (mem s') base (offset + 0x1000) = None /\ translate (mem s') base (offset + 0x2000) = Some 0x2000.
Proof.
  assert (Phys.total_pages Phys.demo = 17) as Ht by (vm_compute; reflexivity).
  destruct (guarded_stack_ok base offset 2 Phys.demo (mkSpace tables [])) as [[Hnone _]|(p & pa' & s' & Hrun & _ & _ & _ & Hgone & _ & Hkept)].
  - apply Phys.demo_wf.
  - lia.
  - unfold base. lia.
  - apply tables_ok.
  - change (read_cr3 base) with base. apply tables_tree.
  - change (read_cr3 base) with base. rewrite Ht. apply tables_map. lia.
  - exfalso. assert (fst (alloc_guarded_stack base offset 2 (Phys.demo, mkSpace tables [])) = Ok (Some (offset + 0x1000, offset + 0x4000))) as Hr
      by (vm_compute; reflexivity). rewrite Hnone in Hr. discriminate Hr.
  - assert (fst (alloc_guarded_stack base offset 2 (Phys.demo, mkSpace tables [])) = Ok (Some (offset + 0x1000, offset + 0x4000))) as Hr
      by (vm_compute; reflexivity). rewrite Hrun in Hr. cbn [fst] in Hr. injection Hr as Hg Htop.
    assert (p = 1) as -> by (unfold offset in *; lia). exists pa', s'. split; [exact Hrun|].
    change (read_cr3 base) with base in *. split; [apply Hgone; unfold offset; lia|].
    change (offset + 0x2000) with (0x2000 + offset). apply Hkept; [rewrite Ht; lia|]. vm_compute. discriminate.
Qed.

(** Where the direct map uses a 2 MiB page, [unmap_page] takes the page for a
    table: it reports success, the address stays mapped, and a bit of whatever
    the page holds is cleared. *)
Definition huge : space := mkSpace (fun a => if a =? 8 * 5 then 7 else words 0x83 a) [].
Example unmap_in_huge_page :
  let s' := snd (unmap_page base offset (offset + 0x5000) huge) in
  fst (unmap_page base offset (offset + 0x5000) huge) = Ok true /\
  translate (mem s') base (offset + 0x5000) = Some 0x5000 /\ mem huge (8 * 5) = 7 /\ mem s' (8 * 5) = 6.
Proof. vm_compute. done. Qed.
End Small.
End Paging.
