(* ===== verification/Interrupts.v ===== *)
(** * Descriptor tables and interrupt delivery ([arch/x86_64/gdt.rs],
    [idt.rs], [pic.rs])

    The tables the kernel fills in, as the bytes in memory the processor
    reads, and the programming of the interrupt controllers.  What the
    processor and the controllers do is written from their manuals. *)
From S2P Require Import Prelude.
From S2P Require Import Bytes.
From S2P Require Import Fmt.
From S2P Require Import Api.

Module Interrupts.

(** ** The GDT and the TSS *)
Definition KERNEL_CS : Z := 0x08.
Definition KERNEL_DS : Z := 0x10.
Definition TSS_SEL : Z := 0x18.
Definition null_entry : Z := 0.
Definition kernel_code : Z := 0x00209A0000000000.
Definition kernel_data : Z := 0x0000920000000000.

Record Tss := mkTss {
  rsp0 : Z; rsp1 : Z; rsp2 : Z;
  ist1 : Z; ist2 : Z; ist3 : Z; ist4 : Z; ist5 : Z; ist6 : Z; ist7 : Z;
  iopb : Z;
}.
Definition SIZE_OF_TSS : Z := 104.
(** The packed layout, reserved words included. *)
Definition tss_bytes (t : Tss) : list Z :=
  le_bytes 4 0 ++ le_bytes 8 (rsp0 t) ++ le_bytes 8 (rsp1 t) ++ le_bytes 8 (rsp2 t) ++ le_bytes 8 0 ++
  le_bytes 8 (ist1 t) ++ le_bytes 8 (ist2 t) ++ le_bytes 8 (ist3 t) ++ le_bytes 8 (ist4 t) ++
  le_bytes 8 (ist5 t) ++ le_bytes 8 (ist6 t) ++ le_bytes 8 (ist7 t) ++ le_bytes 8 0 ++ le_bytes 2 0 ++ le_bytes 2 (iopb t).

(** The statics, and the two pointer registers ([limit], [base]). *)
Record tables := mkTables { TSS : Tss; GDT : list Z; IST1_STACK_TOP : Z }.
Definition tables0 : tables :=
  mkTables (mkTss 0 0 0 0 0 0 0 0 0 0 SIZE_OF_TSS) [null_entry; kernel_code; kernel_data; null_entry; null_entry] 0.

Definition tss_descriptor (base limit : Z) : Z * Z :=
  let base_low := Z.land base 0xFFFF in
  let base_mid := Z.land (Z.shiftr base 16) 0xFF in
  let base_high_byte := Z.land (Z.shiftr base 24) 0xFF in
  let base_upper := Z.land (Z.shiftr base 32) 0xFFFFFFFF in
  let limit_low := Z.land limit 0xFFFF in
  let limit_high := Z.land (Z.shiftr limit 16) 0xF in
  let access := 0x89 in
  let low := Z.lor (Z.lor (Z.lor (Z.lor (Z.lor limit_low (Z.shiftl base_low 16)) (Z.shiftl base_mid 32)) (Z.shiftl access 40))
               (Z.shiftl limit_high 48)) (Z.shiftl base_high_byte 56) in
  (low, base_upper).

(** [gdt::init]: the table, and the limit in the register. *)
Definition gdt_init (tss_addr : Z) (t : tables) : tables * Z :=
  let '(tss_low, tss_high) := tss_descriptor tss_addr (SIZE_OF_TSS - 1) in
  let gdt := <[4%nat := tss_high]> (<[3%nat := tss_low]> (GDT t)) in
  (mkTables (TSS t) gdt (IST1_STACK_TOP t), 8 * zlen gdt - 1).

Definition set_ist1 (stack_top : Z) (t : tables) : tables :=
  let s := TSS t in
  mkTables (mkTss (rsp0 s) (rsp1 s) (rsp2 s) stack_top (ist2 s) (ist3 s) (ist4 s) (ist5 s) (ist6 s) (ist7 s) (iopb s)) (GDT t) stack_top.

(** ** The IDT *)
Record IdtEntry := mkEntry { offset_low : Z; selector : Z; ist : Z; type_attr : Z; offset_mid : Z; offset_high : Z }.
Definition missing : IdtEntry := mkEntry 0 0 0 0 0 0.
(** [handler as u16], [(handler >> 16) as u16], [(handler >> 32) as u32]. *)
Definition gate (handler ist_index attr : Z) : IdtEntry :=
  mkEntry (handler mod 2 ^ 16) KERNEL_CS ist_index attr (Z.shiftr handler 16 mod 2 ^ 16) (Z.shiftr handler 32 mod 2 ^ 32).
Definition interrupt_gate (handler : Z) : IdtEntry := gate handler 0 0x8E.
Definition interrupt_gate_ist (handler ist_index : Z) : IdtEntry := gate handler (Z.land ist_index 0x7) 0x8E.
Definition trap_gate (handler : Z) : IdtEntry := gate handler 0 0x8F.
Definition entry_bytes (e : IdtEntry) : list Z :=
  le_bytes 2 (offset_low e) ++ le_bytes 2 (selector e) ++ le_bytes 1 (ist e) ++ le_bytes 1 (type_attr e) ++
  le_bytes 2 (offset_mid e) ++ le_bytes 4 (offset_high e) ++ le_bytes 4 0.

Inductive isr := isr_de | isr_db | isr_nmi | isr_bp | isr_of | isr_br | isr_ud | isr_nm | isr_df | isr_gp | isr_pf | isr_irq_stub.

Section idt.
(** Where the linker put the handlers. *)
Variable address : isr -> Z.

Definition idt_init : list IdtEntry :=
  let idt := replicate 256 missing in
  let idt := <[0%nat := interrupt_gate (address isr_de)]> idt in
  let idt := <[1%nat := interrupt_gate (address isr_db)]> idt in
  let idt := <[2%nat := interrupt_gate (address isr_nmi)]> idt in
  let idt := <[3%nat := trap_gate (address isr_bp)]> idt in
  let idt := <[4%nat := interrupt_gate (address isr_of)]> idt in
  let idt := <[5%nat := interrupt_gate (address isr_br)]> idt in
  let idt := <[6%nat := interrupt_gate (address isr_ud)]> idt in
  let idt := <[7%nat := interrupt_gate (address isr_nm)]> idt in
  let idt := <[8%nat := interrupt_gate_ist (address isr_df) 1]> idt in
  let idt := <[13%nat := interrupt_gate (address isr_gp)]> idt in
  let idt := <[14%nat := interrupt_gate (address isr_pf)]> idt in
  foldl (fun idt i => <[i := interrupt_gate (address isr_irq_stub)]> idt) idt (seq 32 16).
End idt.

(** ** The handlers' reports *)
Fixpoint hex_loop (fuel : nat) (n : Z) : list Z :=
  match fuel with
  | O => []
  | S fuel => (if n <? 16 then [] else hex_loop fuel (n / 16)) ++ [Api.hex_digit (n mod 16)]
  end.
(** [{:#x}] of a 64-bit number. *)
Definition hex (n : Z) : list Z := str "0x" ++ hex_loop 16 n.

Record InterruptFrame := mkFrame { rip : Z; cs : Z; rflags : Z; frame_rsp : Z; ss : Z }.
Definition line (label : string) (v : list Z) : list Z := str label ++ v ++ [10].

(** What a handler prints; all but [isr_bp] and the IRQ stub halt then. *)
Definition exception_handler (name : string) (f : InterruptFrame) (error_code : option Z) : list Z :=
  str "!!! CPU EXCEPTION: " ++ str name ++ str " !!!" ++ [10] ++
  match error_code with Some code => line "  Error code: " (hex code) | None => [] end ++
  line "  RIP:     " (hex (rip f)) ++ line "  CS:      " (hex (cs f)) ++
  line "  RFLAGS:  " (hex (rflags f)) ++ line "  RSP:     " (hex (frame_rsp f)).

Section reports.
Variables GUARD_PAGE_ADDR KERNEL_STACK_TOP : Z.
Definition report_df (f : InterruptFrame) (error_code : Z) : list Z :=
  line "!!! DOUBLE FAULT (running on IST1 stack) !!!" [] ++
  line "  Error code: " (hex error_code) ++ line "  RIP:     " (hex (rip f)) ++ line "  RSP:     " (hex (frame_rsp f)) ++
  if negb (GUARD_PAGE_ADDR =? 0) then
    str "  Guard page: " ++ hex GUARD_PAGE_ADDR ++ str ", Stack top: " ++ hex KERNEL_STACK_TOP ++ [10] ++
    if (GUARD_PAGE_ADDR <=? frame_rsp f) && (frame_rsp f <? GUARD_PAGE_ADDR ⊞ 4096)
    then line "  >>> KERNEL STACK OVERFLOW DETECTED <<<" [] else []
  else [].
Definition report_pf (cr2 : Z) (f : InterruptFrame) (error_code : Z) : list Z :=
  let guard := GUARD_PAGE_ADDR in
  if negb (guard =? 0) && (guard <=? cr2) && (cr2 <? guard ⊞ 4096) then
    line "!!! KERNEL STACK OVERFLOW !!!" [] ++
    line "  Stack hit guard page at " (hex guard) ++ line "  Faulting address: " (hex cr2) ++
    line "  RIP:     " (hex (rip f)) ++ line "  RSP:     " (hex (frame_rsp f)) ++
    if negb (KERNEL_STACK_TOP =? 0) then
      str "  Stack used: ~" ++ dec (KERNEL_STACK_TOP ⊟ frame_rsp f) ++ str " bytes (of " ++
      dec (KERNEL_STACK_TOP ⊟ guard ⊟ 4096) ++ str " available)" ++ [10]
    else []
  else
    line "!!! PAGE FAULT !!!" [] ++ line "  Address: " (hex cr2) ++ line "  Error:   " (hex error_code) ++
    line "  RIP:     " (hex (rip f)) ++ line "  CS:      " (hex (cs f)) ++
    line "  RFLAGS:  " (hex (rflags f)) ++ line "  RSP:     " (hex (frame_rsp f)).
(** The error code and the faulting address are those of the vector. *)
Definition report (h : isr) (f : InterruptFrame) (error_code cr2 : Z) : list Z :=
  match h with
  | isr_de => exception_handler "Division by zero (#DE)" f None
  | isr_db => exception_handler "Debug (#DB)" f None
  | isr_nmi => exception_handler "Non-maskable interrupt (#NMI)" f None
  | isr_bp => line "[int] Breakpoint at " (hex (rip f))
  | isr_of => exception_handler "Overflow (#OF)" f None
  | isr_br => exception_handler "Bound range exceeded (#BR)" f None
  | isr_ud => exception_handler "Invalid opcode (#UD)" f None
  | isr_nm => exception_handler "Device not available (#NM)" f None
  | isr_df => report_df f error_code
  | isr_gp => exception_handler "General protection fault (#GP)" f (Some error_code)
  | isr_pf => report_pf cr2 f error_code
  | isr_irq_stub => []
  end.
End reports.

(** ** The interrupt controllers: the writes to their ports *)
Definition PIC1_CMD : Z := 0x20.
Definition PIC1_DATA : Z := 0x21.
Definition PIC2_CMD : Z := 0xA0.
Definition PIC2_DATA : Z := 0xA1.
Definition ICW1_INIT : Z := 0x11.
Definition ICW4_8086 : Z := 0x01.
Definition EOI : Z := 0x20.
Definition io_wait : Z * Z := (0x80, 0).
Definition pic_init : list (Z * Z) := [
  (PIC1_CMD, ICW1_INIT); io_wait; (PIC2_CMD, ICW1_INIT); io_wait;
  (PIC1_DATA, 32); io_wait; (PIC2_DATA, 40); io_wait;
  (PIC1_DATA, 4); io_wait; (PIC2_DATA, 2); io_wait;
  (PIC1_DATA, ICW4_8086); io_wait; (PIC2_DATA, ICW4_8086); io_wait;
  (PIC1_DATA, 0xFF); (PIC2_DATA, 0xFF)].
Definition send_eoi_both : list (Z * Z) := [(PIC2_CMD, EOI); (PIC1_CMD, EOI)].

(** ** What the hardware does *)
Definition image (words : list Z) : list Z := words ≫= le_bytes 8.
Definition field (b : list Z) (off n : Z) : Z := from_le (slice b off n).

(** A gate of the IDT: its handler, code selector and stack index. *)
Definition gate_of (idt : list Z) (v : Z) : option (Z * Z * Z) :=
  let b := slice idt (16 * v) 16 in
  let kind := field b 5 1 in
  if Z.testbit kind 7 && ((Z.land kind 0xF =? 0xE) || (Z.land kind 0xF =? 0xF)) then
    Some (field b 0 2 + field b 6 2 * 2 ^ 16 + field b 8 4 * 2 ^ 32, field b 2 2, Z.land (field b 4 1) 7)
  else None.
(** A 64-bit code segment of ring 0. *)
Definition code_segment (gdt : list Z) (sel : Z) : bool :=
  let d := field gdt sel 8 in
  Z.testbit d 47 && Z.testbit d 44 && Z.testbit d 43 && Z.testbit d 53 && negb (Z.testbit d 54) && (Z.land (Z.shiftr d 45) 3 =? 0).
(** Base and limit of the task state segment. *)
Definition task_segment (gdt : list Z) (sel : Z) : option (Z * Z) :=
  let b := slice gdt sel 16 in
  if Z.land (field b 5 1) 0x9D =? 0x89 then
    Some (field b 2 2 + field b 4 1 * 2 ^ 16 + field b 7 1 * 2 ^ 24 + field b 8 4 * 2 ^ 32,
          field b 0 2 + Z.land (field b 6 1) 0xF * 2 ^ 16)
  else None.

(** An interrupt with the tables loaded: the handler entered, and the stack
    switched to.  [at_address] is the memory. *)
Definition deliver (at_address : Z -> list Z) (gdt idt : list Z) (v : Z) : option (Z * option Z) :=
  g ← gate_of idt v;
  let '(offset, sel, n) := g in
  if negb (code_segment gdt sel) then None
  else if n =? 0 then Some (offset, None)
  else
    t ← task_segment gdt TSS_SEL;
    let '(base, limit) := t in
    if limit <? 36 + 8 * n - 1 then None else Some (offset, Some (field (at_address base) (36 + 8 * (n - 1)) 8)).

(** The vectors of the architecture manual, and the sixteen of the IRQs. *)
Definition handler_of (v : Z) : option isr :=
  if v =? 0 then Some isr_de else if v =? 1 then Some isr_db else if v =? 2 then Some isr_nmi else if v =? 3 then Some isr_bp
  else if v =? 4 then Some isr_of else if v =? 5 then Some isr_br else if v =? 6 then Some isr_ud else if v =? 7 then Some isr_nm
  else if v =? 8 then Some isr_df else if v =? 13 then Some isr_gp else if v =? 14 then Some isr_pf
  else if (32 <=? v) && (v <? 48) then Some isr_irq_stub else None.

(** An 8259A: the command word it expects next (0 in operation), its first
    vector, its place in the cascade, and its mask. *)
Record chip := mkChip { expects : Z; vector : Z; cascade : Z; mask : Z }.
Definition command (val : Z) (c : chip) : chip :=
  if Z.testbit val 4 then mkChip 2 (vector c) (cascade c) 0 else c.
Definition datum (val : Z) (c : chip) : chip :=
  if expects c =? 2 then mkChip 3 (Z.land val 0xF8) (cascade c) (mask c)
  else if expects c =? 3 then mkChip 4 (vector c) val (mask c)
  else if expects c =? 4 then mkChip 0 (vector c) (cascade c) (mask c)
  else mkChip 0 (vector c) (cascade c) val.
Definition port_write (w : Z * Z) (cs : chip * chip) : chip * chip :=
  let '(port, val) := w in
  let '(c1, c2) := cs in
  if port =? PIC1_CMD then (command val c1, c2)
  else if port =? PIC1_DATA then (datum val c1, c2)
  else if port =? PIC2_CMD then (c1, command val c2)
  else if port =? PIC2_DATA then (c1, datum val c2)
  else cs.

(** ** Lemmas *)
Lemma field_mid pre w post off n k : zlen pre = off -> n = Z.of_nat k -> 0 <= w < 256 ^ n ->
  field (pre ++ le_bytes k w ++ post) off n = w.
Proof.
  intros Hp -> Hw. unfold field. pose proof (zlen_le_bytes k w). pose proof (zlen_nonneg pre).
  rewrite slice_app_r by lia. rewrite slice_app_l by lia. rewrite Hp, Z.sub_diag, slice_all by lia. by apply from_le_bytes_id.
Qed.

Lemma zlen_words words : zlen (image words) = 8 * zlen words.
Proof. induction words as [|w words IH]; [done|]. unfold image in *. cbn [mbind list_bind]. rewrite zlen_app, IH, zlen_cons, zlen_le_bytes. lia. Qed.

Lemma handler_parts h : 0 <= h < 2 ^ 64 -> h mod 2 ^ 16 + Z.shiftr h 16 mod 2 ^ 16 * 2 ^ 16 + Z.shiftr h 32 mod 2 ^ 32 * 2 ^ 32 = h.
Proof.
  intros Hh. rewrite !Z.shiftr_div_pow2 by lia. change (2 ^ 64) with 18446744073709551616 in Hh.
  change (2 ^ 16) with 65536. change (2 ^ 32) with 4294967296. Z.div_mod_to_equations. lia.
Qed.

(** The bytes of a table of entries. *)
Definition idt_image (idt : list IdtEntry) : list Z := idt ≫= entry_bytes.
Lemma zlen_entry e : zlen (entry_bytes e) = 16.
Proof. unfold entry_bytes. by rewrite !zlen_app, !zlen_le_bytes. Qed.
Lemma slice_idt idt i e : idt !! i = Some e -> slice (idt_image idt) (16 * Z.of_nat i) 16 = entry_bytes e.
Proof.
  intros Hi. rewrite <- (take_drop_middle _ _ _ Hi). apply lookup_lt_Some in Hi. unfold idt_image.
  rewrite bind_app. cbn [mbind list_bind].
  assert (zlen (take i idt ≫= entry_bytes) = 16 * Z.of_nat i) as Hlen.
  { assert (forall l, zlen (l ≫= entry_bytes) = 16 * zlen l) as Hz.
    { intros l. induction l as [|x l IH]; [done|]. cbn [mbind list_bind] in *. rewrite zlen_app, IH, zlen_entry, zlen_cons. lia. }
    rewrite Hz, zlen_take. unfold zlen. lia. }
  rewrite slice_app_r by lia. rewrite Hlen, Z.sub_diag. pose proof (zlen_entry e). rewrite slice_app_l by lia. rewrite slice_all by lia. done.
Qed.

Lemma entry_gate idt i h n attr : idt !! i = Some (gate h n attr) -> 0 <= h < 2 ^ 64 -> 0 <= n < 8 -> attr = 0x8E \/ attr = 0x8F ->
  gate_of (idt_image idt) (Z.of_nat i) = Some (h, KERNEL_CS, n).
Proof.
  intros Hi Hh Hn Ha. unfold gate_of. rewrite (slice_idt _ _ _ Hi). unfold gate, entry_bytes. cbn [offset_low selector ist type_attr offset_mid offset_high].
  pose proof (Z.mod_pos_bound h (2 ^ 16) ltac:(lia)). pose proof (Z.mod_pos_bound (Z.shiftr h 16) (2 ^ 16) ltac:(lia)).
  pose proof (Z.mod_pos_bound (Z.shiftr h 32) (2 ^ 32) ltac:(lia)).
  pose proof (handler_parts h Hh) as Hparts.
  set (a := h mod _) in *. set (b := Z.shiftr h 16 mod _) in *. set (c := Z.shiftr h 32 mod _) in *.
  set (bytes := le_bytes 2 a ++ _).
  assert (field bytes 0 2 = a) as -> by (apply (field_mid [] a _ 0 2 2); lia || done).
  assert (field bytes 2 2 = KERNEL_CS) as -> by (apply (field_mid (le_bytes 2 a) KERNEL_CS _ 2 2 2); unfold KERNEL_CS; lia || done).
  assert (field bytes 4 1 = n) as -> by (apply (field_mid (le_bytes 2 a ++ le_bytes 2 KERNEL_CS) n _ 4 1 1); lia || done).
  assert (field bytes 5 1 = attr) as -> by (apply (field_mid (le_bytes 2 a ++ le_bytes 2 KERNEL_CS ++ le_bytes 1 n) attr _ 5 1 1); lia || done).
  assert (field bytes 6 2 = b) as ->
    by (apply (field_mid (le_bytes 2 a ++ le_bytes 2 KERNEL_CS ++ le_bytes 1 n ++ le_bytes 1 attr) b _ 6 2 2); lia || done).
  assert (field bytes 8 4 = c) as ->
    by (apply (field_mid (le_bytes 2 a ++ le_bytes 2 KERNEL_CS ++ le_bytes 1 n ++ le_bytes 1 attr ++ le_bytes 2 b) c _ 8 4 4); lia || done).
  assert (Z.land n 7 = n) as ->.
  { change 7 with (Z.ones 3). rewrite Z.land_ones by lia. apply Z.mod_small. lia. }
  rewrite Hparts. by destruct Ha as [-> | ->].
Qed.
Lemma missing_gate idt i : idt !! i = Some missing -> gate_of (idt_image idt) (Z.of_nat i) = None.
Proof. intros Hi. unfold gate_of. by rewrite (slice_idt _ _ _ Hi). Qed.

(** Every vector has the entry of its handler. *)
Definition entry_of (address : isr -> Z) (v : Z) : IdtEntry :=
  match handler_of v with
  | Some h => match h with
              | isr_bp => trap_gate (address h)
              | isr_df => interrupt_gate_ist (address h) 1
              | _ => interrupt_gate (address h)
              end
  | None => missing
  end.
Lemma idt_entries address i : (i < 256)%nat -> idt_init address !! i = Some (entry_of address (Z.of_nat i)).
Proof.
  intros Hi. do 48 (destruct i as [|i]; [reflexivity|]).
  assert (idt_init address !! (48 + i)%nat = Some missing) as Hm.
  { unfold idt_init. cbn [foldl seq]. rewrite !list_lookup_insert_ne by lia. apply lookup_replicate. split; [done|lia]. }
  change (S _) with (48 + i)%nat. rewrite Hm. unfold entry_of, handler_of.
  repeat (rewrite (proj2 (Z.eqb_neq _ _)) by lia). by rewrite (proj2 (Z.ltb_ge _ 48)), andb_false_r by lia.
Qed.

(** A field of a little-endian word. *)
Lemma le_bytes_split a b z : 0 <= z -> le_bytes (a + b) z = le_bytes a z ++ le_bytes b (z / 256 ^ Z.of_nat a).
Proof.
  revert z. induction a as [|a IH]; intros z Hz; [by rewrite Z.div_1_r|].
  cbn [Nat.add le_bytes app]. f_equal. rewrite IH by (apply Z.div_pos; lia). do 2 f_equal.
  rewrite Z.div_div by lia. f_equal. rewrite Nat2Z.inj_succ, Z.pow_succ_r by lia. done.
Qed.
Lemma field_word x post a n : 0 <= x -> (a + n <= 8)%nat ->
  field (le_bytes 8 x ++ post) (Z.of_nat a) (Z.of_nat n) = x / 256 ^ Z.of_nat a mod 256 ^ Z.of_nat n.
Proof.
  intros Hx Hn. replace 8%nat with (a + (n + (8 - a - n)))%nat by lia.
  assert (0 <= x / 256 ^ Z.of_nat a) by (apply Z.div_pos; lia).
  rewrite le_bytes_split, le_bytes_split by done. rewrite <- !app_assoc. set (y := x / _) in *.
  unfold field. pose proof (zlen_le_bytes a x). pose proof (zlen_le_bytes n y).
  rewrite slice_app_r by lia. rewrite slice_app_l by lia. replace (Z.of_nat a - zlen (le_bytes a x)) with 0 by lia.
  rewrite slice_all by lia. apply from_le_bytes.
Qed.

(** The descriptor of the task state segment, as a sum. *)
Lemma land_ones_pow x k n : 0 <= k -> n = Z.ones k -> Z.land x n = x mod 2 ^ k.
Proof. intros Hk ->. by apply Z.land_ones. Qed.
Lemma lor_above v d k : 0 <= k -> 0 <= d < 2 ^ k -> Z.lor d (Z.shiftl v k) = d + v * 2 ^ k.
Proof. intros Hk Hd. rewrite Z.lor_comm, lor_shiftl_add by done. lia. Qed.
Lemma tss_descriptor_eq base limit : 0 <= base < 2 ^ 64 -> 0 <= limit < 2 ^ 20 ->
  tss_descriptor base limit =
  (limit mod 2 ^ 16 + base mod 2 ^ 16 * 2 ^ 16 + base / 2 ^ 16 mod 2 ^ 8 * 2 ^ 32 + 0x89 * 2 ^ 40 + limit / 2 ^ 16 * 2 ^ 48 +
   base / 2 ^ 24 mod 2 ^ 8 * 2 ^ 56, base / 2 ^ 32).
Proof.
  intros Hb Hl. unfold tss_descriptor.
  rewrite !(land_ones_pow _ 16 0xFFFF), !(land_ones_pow _ 8 0xFF), (land_ones_pow _ 32 0xFFFFFFFF), (land_ones_pow _ 4 0xF) by done.
  rewrite !Z.shiftr_div_pow2 by lia.
  assert (limit / 2 ^ 16 mod 2 ^ 4 = limit / 2 ^ 16) as -> by (apply Z.mod_small; Z.div_mod_to_equations; lia).
  assert (base / 2 ^ 32 mod 2 ^ 32 = base / 2 ^ 32) as -> by (apply Z.mod_small; Z.div_mod_to_equations; lia).
  pose proof (Z.mod_pos_bound limit (2 ^ 16) ltac:(lia)). pose proof (Z.mod_pos_bound base (2 ^ 16) ltac:(lia)).
  pose proof (Z.mod_pos_bound (base / 2 ^ 16) (2 ^ 8) ltac:(lia)). pose proof (Z.mod_pos_bound (base / 2 ^ 24) (2 ^ 8) ltac:(lia)).
  assert (0 <= limit / 2 ^ 16 < 2 ^ 4) by (Z.div_mod_to_equations; lia).
  rewrite (lor_above _ _ 16) by lia. rewrite (lor_above _ _ 32) by lia. rewrite (lor_above _ _ 40) by lia.
  rewrite (lor_above _ _ 48) by lia. rewrite (lor_above _ _ 56) by lia. done.
Qed.

Lemma word_parts l0 b0 b1 lh b2 : 0 <= l0 < 2 ^ 16 -> 0 <= b0 < 2 ^ 16 -> 0 <= b1 < 2 ^ 8 -> 0 <= lh < 2 ^ 4 -> 0 <= b2 < 2 ^ 8 ->
  let w := l0 + b0 * 2 ^ 16 + b1 * 2 ^ 32 + 0x89 * 2 ^ 40 + lh * 2 ^ 48 + b2 * 2 ^ 56 in
  w / 2 ^ 40 mod 2 ^ 8 = 0x89 /\ w / 2 ^ 16 mod 2 ^ 16 = b0 /\ w / 2 ^ 32 mod 2 ^ 8 = b1 /\ w / 2 ^ 56 mod 2 ^ 8 = b2 /\
  w / 1 mod 2 ^ 16 = l0 /\ w / 2 ^ 48 mod 2 ^ 8 = lh.
Proof.
  intros H1 H2 H3 H4 H5 w.
  assert (forall k n hi mid lo, 0 <= lo < 2 ^ k -> 0 <= mid < 2 ^ n -> 0 <= k -> 0 <= n ->
    (lo + mid * 2 ^ k + hi * 2 ^ (k + n)) / 2 ^ k mod 2 ^ n = mid) as Hpart.
  { intros k n hi mid lo Hlo Hmid Hk Hn. rewrite Z.pow_add_r by done.
    replace (lo + mid * 2 ^ k + hi * (2 ^ k * 2 ^ n)) with (lo + (mid + hi * 2 ^ n) * 2 ^ k) by lia.
    rewrite Z.div_add, Z.div_small by lia. rewrite Z.add_0_l, Z.mod_add by lia. by apply Z.mod_small. }
  split_and!.
  - rewrite <- (Hpart 40 8 (lh + b2 * 2 ^ 8) 0x89 (l0 + b0 * 2 ^ 16 + b1 * 2 ^ 32)) at 1 by lia. do 2 f_equal; unfold w; lia.
  - rewrite <- (Hpart 16 16 (b1 + 0x89 * 2 ^ 8 + lh * 2 ^ 16 + b2 * 2 ^ 24) b0 l0) at 1 by lia. do 2 f_equal; unfold w; lia.
  - rewrite <- (Hpart 32 8 (0x89 + lh * 2 ^ 8 + b2 * 2 ^ 16) b1 (l0 + b0 * 2 ^ 16)) at 1 by lia. do 2 f_equal; unfold w; lia.
  - rewrite <- (Hpart 56 8 0 b2 (l0 + b0 * 2 ^ 16 + b1 * 2 ^ 32 + 0x89 * 2 ^ 40 + lh * 2 ^ 48)) at 1 by lia. do 2 f_equal; unfold w; lia.
  - change 1 with (2 ^ 0). rewrite <- (Hpart 0 16 (b0 + b1 * 2 ^ 16 + 0x89 * 2 ^ 24 + lh * 2 ^ 32 + b2 * 2 ^ 40) l0 0) at 1 by lia. do 2 f_equal; unfold w; lia.
  - rewrite <- (Hpart 48 8 b2 lh (l0 + b0 * 2 ^ 16 + b1 * 2 ^ 32 + 0x89 * 2 ^ 40)) at 1 by lia. do 2 f_equal; unfold w; lia.
Qed.

Lemma task_found pre base limit : zlen pre = TSS_SEL -> 0 <= base < 2 ^ 64 -> 0 <= limit < 2 ^ 20 ->
  task_segment (pre ++ le_bytes 8 (fst (tss_descriptor base limit)) ++ le_bytes 8 (snd (tss_descriptor base limit))) TSS_SEL = Some (base, limit).
Proof.
  intros Hp Hb Hl. unfold task_segment. rewrite slice_app_r by lia. rewrite Hp, Z.sub_diag.
  set (low := fst _). set (high := snd _). pose proof (zlen_le_bytes 8 low). pose proof (zlen_le_bytes 8 high).
  rewrite slice_all by (rewrite zlen_app; lia).
  unfold low, high in *. rewrite tss_descriptor_eq in * by done. cbn [fst snd] in *.
  pose proof (Z.mod_pos_bound limit (2 ^ 16) ltac:(lia)). pose proof (Z.mod_pos_bound base (2 ^ 16) ltac:(lia)).
  pose proof (Z.mod_pos_bound (base / 2 ^ 16) (2 ^ 8) ltac:(lia)). pose proof (Z.mod_pos_bound (base / 2 ^ 24) (2 ^ 8) ltac:(lia)).
  assert (0 <= limit / 2 ^ 16 < 2 ^ 4) by (Z.div_mod_to_equations; lia).
  assert (0 <= base / 2 ^ 32 < 2 ^ 32) by (Z.div_mod_to_equations; lia).
  clear low high.
  destruct (word_parts (limit mod 2 ^ 16) (base mod 2 ^ 16) (base / 2 ^ 16 mod 2 ^ 8) (limit / 2 ^ 16) (base / 2 ^ 24 mod 2 ^ 8))
    as (W5 & W2 & W4 & W7 & W0 & W6); [done..|].
  match goal with |- context [le_bytes 8 ?x ++ le_bytes 8 (base / 2 ^ 32)] => set (w := x) in * end.
  assert (0 <= w) as Hw by (unfold w; lia). set (b := le_bytes 8 w ++ _).
  assert (field b 5 1 = 0x89) as -> by (unfold b; rewrite (field_word w _ 5 1) by (done || lia); exact W5).
  assert (field b 2 2 = base mod 2 ^ 16) as -> by (unfold b; rewrite (field_word w _ 2 2) by (done || lia); exact W2).
  assert (field b 4 1 = base / 2 ^ 16 mod 2 ^ 8) as -> by (unfold b; rewrite (field_word w _ 4 1) by (done || lia); exact W4).
  assert (field b 7 1 = base / 2 ^ 24 mod 2 ^ 8) as -> by (unfold b; rewrite (field_word w _ 7 1) by (done || lia); exact W7).
  assert (field b 0 2 = limit mod 2 ^ 16) as -> by (unfold b; rewrite (field_word w _ 0 2) by (done || lia); exact W0).
  assert (field b 6 1 = limit / 2 ^ 16) as -> by (unfold b; rewrite (field_word w _ 6 1) by (done || lia); exact W6).
  assert (field b 8 4 = base / 2 ^ 32) as ->.
  { unfold b. pose proof (zlen_le_bytes 8 w). rewrite <- (app_nil_r (le_bytes 8 (base / 2 ^ 32))). unfold field. rewrite slice_app_r by lia.
    replace (8 - zlen (le_bytes 8 w)) with 0 by lia. fold (field (le_bytes 8 (base / 2 ^ 32) ++ []) 0 4).
    rewrite (field_word _ _ 0 4) by (lia || done). change (256 ^ Z.of_nat 0) with 1. rewrite Z.div_1_r. by apply Z.mod_small. }
  change (Z.land 0x89 0x9D =? 0x89) with true. cbv iota. rewrite (land_ones_pow _ 4 0xF) by done. rewrite (Z.mod_small (limit / 2 ^ 16)) by lia.
  clear -Hb Hl. f_equal. f_equal; [|pose proof (Z.div_mod limit (2 ^ 16)); lia].
  change (2 ^ 64) with 18446744073709551616 in Hb. change (2 ^ 32) with 4294967296. change (2 ^ 24) with 16777216.
  change (2 ^ 16) with 65536. change (2 ^ 8) with 256. Z.div_mod_to_equations. lia.
Qed.

(** The GDT after [gdt::init]. *)
Definition booted (tss_addr top : Z) : tables := set_ist1 top (fst (gdt_init tss_addr tables0)).
Lemma booted_gdt tss_addr top :
  image (GDT (booted tss_addr top)) = (le_bytes 8 0 ++ le_bytes 8 kernel_code ++ le_bytes 8 kernel_data) ++
    le_bytes 8 (fst (tss_descriptor tss_addr (SIZE_OF_TSS - 1))) ++ le_bytes 8 (snd (tss_descriptor tss_addr (SIZE_OF_TSS - 1))).
Proof.
  unfold booted, gdt_init. destruct (tss_descriptor tss_addr (SIZE_OF_TSS - 1)) as [low high]. cbn [fst snd GDT set_ist1].
  unfold image, tables0. cbn [GDT mbind list_bind insert list_insert]. by rewrite app_nil_r, <- !app_assoc.
Qed.
Lemma kernel_cs tss_addr top : code_segment (image (GDT (booted tss_addr top))) KERNEL_CS = true.
Proof. rewrite booted_gdt. generalize (le_bytes 8 (fst (tss_descriptor tss_addr (SIZE_OF_TSS - 1))) ++ le_bytes 8 (snd (tss_descriptor tss_addr (SIZE_OF_TSS - 1)))). intros l. reflexivity. Qed.
Lemma kernel_tss tss_addr top : 0 <= tss_addr < 2 ^ 64 -> task_segment (image (GDT (booted tss_addr top))) TSS_SEL = Some (tss_addr, 103).
Proof. intros Ha. rewrite booted_gdt. by apply task_found. Qed.
Lemma ist1_field tss_addr top : 0 <= top < 2 ^ 64 -> field (tss_bytes (TSS (booted tss_addr top))) 36 8 = top.
Proof.
  intros Ht. unfold booted. destruct (gdt_init tss_addr tables0) as [t limit] eqn:Hg. unfold gdt_init in Hg.
  destruct (tss_descriptor _ _). injection Hg as <- <-. cbn [fst set_ist1 TSS].
  unfold tss_bytes. cbn [rsp0 rsp1 rsp2 ist1 ist2 ist3 ist4 ist5 ist6 ist7 iopb TSS tables0].
  apply (field_mid (le_bytes 4 0 ++ le_bytes 8 0 ++ le_bytes 8 0 ++ le_bytes 8 0 ++ le_bytes 8 0) top _ 36 8 8); done.
Qed.

Lemma flag_prefix a b l r : a <> b -> starts_with (a :: l) (b :: r) = false.
Proof. intros Hab. unfold starts_with. cbn [length take]. apply bool_decide_eq_false_2. congruence. Qed.

Lemma overflow_reported guard stack_top cr2 f code : 0 < guard -> guard + 4096 < 2 ^ 64 ->
  starts_with (report guard stack_top isr_pf f code cr2) (str "!!! KERNEL STACK OVERFLOW !!!") = true <-> guard <= cr2 < guard + 4096.
Proof.
  intros Hg0 Hg. cbn [report]. unfold report_pf. assert (guard ⊞ 4096 = guard + 4096) as -> by (unfold wrap64; rewrite Z.mod_small; lia).
  rewrite (proj2 (Z.eqb_neq guard 0)) by lia. cbn [negb andb].
  destruct (Z.leb_spec guard cr2), (Z.ltb_spec cr2 (guard + 4096)); cbn [andb]; (split; [intros Hs|intros Hs]); try lia; try done.
Qed.

(** A vector on the kernel's tables, the double fault on its own stack. *)
Lemma delivered (address : isr -> Z) tss_addr top (memory : Z -> list Z) v :
  (forall h, 0 <= address h < 2 ^ 64) -> 0 <= tss_addr < 2 ^ 64 -> 0 <= top < 2 ^ 64 ->
  memory tss_addr = tss_bytes (TSS (booted tss_addr top)) -> 0 <= v < 256 ->
  deliver memory (image (GDT (booted tss_addr top))) (idt_image (idt_init address)) v =
  match handler_of v with
  | Some h => Some (address h, if decide (v = 8) then Some top else None)
  | None => None
  end.
Proof.
  intros Hadr Htss Htop Hmem Hv. unfold deliver. assert (v = Z.of_nat (Z.to_nat v)) as Hvn by lia.
  pose proof (idt_entries address (Z.to_nat v) ltac:(lia)) as He. rewrite <- Hvn in He. unfold entry_of in He.
  destruct (handler_of v) as [h|] eqn:Hh.
  + assert (gate_of (idt_image (idt_init address)) v = Some (address h, KERNEL_CS, if decide (v = 8) then 1 else 0)) as ->.
    { destruct (decide (v = 8)) as [Hv8|Hne]; rewrite Hvn.
      - rewrite Hv8 in Hh. injection Hh as <-. change (interrupt_gate_ist (address isr_df) 1) with (gate (address isr_df) 1 0x8E) in He.
        eapply entry_gate; [exact He|apply Hadr|lia|by left].
      - assert (h <> isr_df) as Hdf by (intros ->; unfold handler_of in Hh; rewrite (proj2 (Z.eqb_neq v 8)) in Hh by done; repeat case_match; discriminate Hh).
        destruct h; first [done|eapply (entry_gate _ _ _ 0 0x8F); [exact He|apply Hadr|lia|by right]|
          eapply (entry_gate _ _ _ 0 0x8E); [exact He|apply Hadr|lia|by left]]. }
    cbn [mbind option_bind]. rewrite kernel_cs. cbn [negb]. destruct (decide (v = 8)) as [->|]; [|done].
    change (1 =? 0) with false. cbv iota. rewrite kernel_tss by done. cbn [mbind option_bind]. change (103 <? 36 + 8 * 1 - 1) with false. cbv iota.
    rewrite Hmem. change (36 + 8 * (1 - 1)) with 36. by rewrite ist1_field.
  + rewrite Hvn, missing_gate by done. done.
Qed.

(** C35. Every interrupt reaches its handler.  After [gdt::init], [set_ist1] and
    [idt::init], reading the tables in memory the way the processor does, a
    vector with a handler enters that very handler, in the 64-bit code segment
    of the kernel, on the interrupted stack but for the double fault, which
    switches to the stack [set_ist1] was given; every other vector has no gate;
    and the registers' limits are the sizes of the tables.  After [pic::init],
    from any state of the two controllers, all sixteen requests are masked and
    their vectors are the ones the kernel answers, apart from the exceptions.
    A page fault is reported as a stack overflow exactly when the address is in
    the guard page. *)
Theorem interrupts_delivered (address : isr -> Z) tss_addr top (memory : Z -> list Z) chips guard stack_top cr2 f code :
  (forall h, 0 <= address h < 2 ^ 64) -> 0 <= tss_addr < 2 ^ 64 -> 0 <= top < 2 ^ 64 ->
  let t := booted tss_addr top in
  memory tss_addr = tss_bytes (TSS t) -> 0 < guard -> guard + 4096 < 2 ^ 64 ->
  (forall v, 0 <= v < 256 ->
     deliver memory (image (GDT t)) (idt_image (idt_init address)) v =
     match handler_of v with
     | Some h => Some (address h, if decide (v = 8) then Some top else None)
     | None => None
     end) /\
  zlen (image (GDT t)) - 1 = snd (gdt_init tss_addr tables0) /\ zlen (idt_image (idt_init address)) = 4096 /\
  (let '(c1, c2) := foldl (fun cs w => port_write w cs) chips pic_init in
   expects c1 = 0 /\ expects c2 = 0 /\ mask c1 = 0xFF /\ mask c2 = 0xFF /\ cascade c1 = 2 ^ 2 /\ cascade c2 = 2 /\
   forall irq, 0 <= irq < 8 -> handler_of (vector c1 + irq) = Some isr_irq_stub /\ handler_of (vector c2 + irq) = Some isr_irq_stub) /\
  (starts_with (report guard stack_top isr_pf f code cr2) (str "!!! KERNEL STACK OVERFLOW !!!") = true <-> guard <= cr2 < guard + 4096).
Proof.
  intros Hadr Htss Htop t Hmem Hg0 Hg. split; [|split; [|split; [|split]]].
  - intros v Hv. by apply delivered.
  - unfold t. rewrite booted_gdt, !zlen_app, !zlen_le_bytes. unfold gdt_init. by destruct (tss_descriptor _ _).
  - assert (forall l, zlen (l ≫= entry_bytes) = 16 * zlen l) as Hz.
    { intros l. induction l as [|x l IH]; [done|]. cbn [mbind list_bind] in *. rewrite zlen_app, IH, zlen_entry, zlen_cons. lia. }
    unfold idt_image. rewrite Hz. unfold idt_init. cbn [foldl seq]. unfold zlen. rewrite !length_insert, length_replicate. done.
  - destruct chips as [c1 c2]. cbn. split_and!; try done. intros irq Hirq. change (Z.land 32 248) with 32. change (Z.land 40 248) with 40.
    unfold handler_of. repeat (rewrite (proj2 (Z.eqb_neq _ _)) by lia).
    by rewrite !(proj2 (Z.leb_le _ _)), !(proj2 (Z.ltb_lt _ _)) by lia.
  - by apply overflow_reported.
Qed.

(** A double fault on a kernel linked at the top of the address space. *)
Definition linked (h : isr) : Z :=
  0xFFFFFFFF80001000 + 64 * match h with
  | isr_de => 0 | isr_db => 1 | isr_nmi => 2 | isr_bp => 3 | isr_of => 4 | isr_br => 5 | isr_ud => 6 | isr_nm => 7
  | isr_df => 8 | isr_gp => 9 | isr_pf => 10 | isr_irq_stub => 11
  end.
Definition tss_home : Z := 0xFFFFFFFF80123450.
Definition ist_top : Z := 0xFFFF800000205000.
Lemma interrupts_delivered_witness :
  deliver (fun _ => tss_bytes (TSS (booted tss_home ist_top))) (image (GDT (booted tss_home ist_top))) (idt_image (idt_init linked)) 8 =
  Some (0xFFFFFFFF80001200, Some 0xFFFF800000205000).
Proof.
  destruct (interrupts_delivered linked tss_home ist_top (fun _ => tss_bytes (TSS (booted tss_home ist_top)))
    (mkChip 0 8 0 0, mkChip 0 0x70 0 0) 0xFFFF800000300000 0xFFFF800000311000 0xFFFF800000300008 (mkFrame 0 0 0 0 0) 2) as [H _].
  - intros h. unfold linked. destruct h; lia.
  - unfold tss_home. lia.
  - unfold ist_top. lia.
  - reflexivity.
  - lia.
  - lia.
  - rewrite (H 8) by lia. reflexivity.
Defined.
End Interrupts.
