(* ===== verification/Boot.v ===== *)
(** * Boot ([main.rs])

    [kmain] from the loader's answers to the jump to [continue_boot]: the
    offset of the direct map, the descriptor tables, the page allocator fed
    with the memory map, the stack of the double fault and the guarded kernel
    stack.  It composes [Phys], [Paging] and [Interrupts]. *)
From S2P Require Import Prelude.
From S2P Require Import Bytes.
From S2P Require Import Fmt.
From S2P Require Import Bitmap.
From S2P Require Import Phys.
From S2P Require Import Paging.
From S2P Require Import Interrupts.

Module Boot.

(** The statics boot writes, the tables of the processor, the console, and
    the stack the kernel has switched to. *)
Record machine := mkMachine {
  HHDM_OFFSET : Z;
  descriptors : Interrupts.tables;
  IDT : list Interrupts.IdtEntry;
  port_writes : list (Z * Z);
  PHYS_ALLOCATOR : Phys.AllocatorInner;
  words : Paging.space;
  GUARD_PAGE_ADDR : Z;
  KERNEL_STACK_TOP : Z;
  rsp : option Z;
  console : list Z;
}.

Section boot.
(** An entry of the loader's memory map has a type, a base and a length. *)
Variable EntryType : Type.
Context `{!EqDecision EntryType}.
Variable USABLE : EntryType.
(** Where the linker put the handlers and the TSS; the control register. *)
Variable address : Interrupts.isr -> Z.
Variables tss_addr cr3 : Z.

Record Entry := mkEntry { entry_type : EntryType; base : Z; len : Z }.

Abbreviation M := (st machine unit).
Definition println (s : list Z) : M unit := fun m =>
  (Ok tt, mkMachine (HHDM_OFFSET m) (descriptors m) (IDT m) (port_writes m) (PHYS_ALLOCATOR m) (words m)
            (GUARD_PAGE_ADDR m) (KERNEL_STACK_TOP m) (rsp m) (console m ++ s ++ [10])).
Definition set_hhdm_offset (v : Z) : M unit := fun m =>
  (Ok tt, mkMachine v (descriptors m) (IDT m) (port_writes m) (PHYS_ALLOCATOR m) (words m)
            (GUARD_PAGE_ADDR m) (KERNEL_STACK_TOP m) (rsp m) (console m)).
Definition hhdm_offset : M Z := fun m => (Ok (HHDM_OFFSET m), m).
Definition on_descriptors (f : Interrupts.tables -> Interrupts.tables) : M unit := fun m =>
  (Ok tt, mkMachine (HHDM_OFFSET m) (f (descriptors m)) (IDT m) (port_writes m) (PHYS_ALLOCATOR m) (words m)
            (GUARD_PAGE_ADDR m) (KERNEL_STACK_TOP m) (rsp m) (console m)).
Definition load_idt (t : list Interrupts.IdtEntry) : M unit := fun m =>
  (Ok tt, mkMachine (HHDM_OFFSET m) (descriptors m) t (port_writes m) (PHYS_ALLOCATOR m) (words m)
            (GUARD_PAGE_ADDR m) (KERNEL_STACK_TOP m) (rsp m) (console m)).
Definition write_ports (w : list (Z * Z)) : M unit := fun m =>
  (Ok tt, mkMachine (HHDM_OFFSET m) (descriptors m) (IDT m) (port_writes m ++ w) (PHYS_ALLOCATOR m) (words m)
            (GUARD_PAGE_ADDR m) (KERNEL_STACK_TOP m) (rsp m) (console m)).
(** [GUARD_PAGE_ADDR.store], [KERNEL_STACK_TOP.store]. *)
Definition store_stack (guard top : Z) : M unit := fun m =>
  (Ok tt, mkMachine (HHDM_OFFSET m) (descriptors m) (IDT m) (port_writes m) (PHYS_ALLOCATOR m) (words m)
            guard top (rsp m) (console m)).
Definition switch_stack (new_stack_top : Z) : M unit := fun m =>
  (Ok tt, mkMachine (HHDM_OFFSET m) (descriptors m) (IDT m) (port_writes m) (PHYS_ALLOCATOR m) (words m)
            (GUARD_PAGE_ADDR m) (KERNEL_STACK_TOP m) (Some new_stack_top) (console m)).
(** A computation on the page allocator and the page tables. *)
Definition on_memory {E A} (f : st (Phys.AllocatorInner * Paging.space) E A) : st machine E A :=
  st_zoom (fun m => (PHYS_ALLOCATOR m, words m))
    (fun '(pa, w) m => mkMachine (HHDM_OFFSET m) (descriptors m) (IDT m) (port_writes m) pa w
       (GUARD_PAGE_ADDR m) (KERNEL_STACK_TOP m) (rsp m) (console m)) f.
Definition on_pages {E A} (f : st Phys.AllocatorInner E A) : st machine E A :=
  on_memory (st_zoom fst (fun pa p => (pa, snd p)) f).
Definition expect {E A} (f : st machine E A) : M A := fun m =>
  match f m with
  | (Ok a, m') => (Ok a, m')
  | (_, m') => (Panic, m')
  end.

(** The array of regions, how many are filled, and their bytes. *)
Record collected := mkCollected { usable_regions : list (Z * Z); region_count : Z; total_usable : Z }.
Definition collect (c : collected) (entry : Entry) : collected :=
  if decide (entry_type entry = USABLE) then
    if region_count c <? zlen (usable_regions c) then
      mkCollected (<[Z.to_nat (region_count c) := (base entry, len entry)]> (usable_regions c)) (region_count c ⊞ 1) (total_usable c ⊞ len entry)
    else c
  else c.
Definition collect_all (entries : list Entry) : collected :=
  foldl collect (mkCollected (replicate 64 (0, 0)) 0 0) entries.

Definition init_pages (regions : list (Z * Z)) : st machine Empty_set unit :=
  on_pages (fun pa => match Phys.init regions pa with Ok pa' => (Ok tt, pa') | Err e => (Err e, pa) | Panic => (Panic, pa) end).

(** The stack for double faults, then the guarded stack and the switch. *)
Definition set_up_stacks : M unit :=
  ist_phys ← expect (on_pages (Phys.alloc_pages_contiguous 1 1));
  offset ← hhdm_offset;
  let ist_top := ist_phys ⊞ offset ⊞ 4096 in
  _ ← on_descriptors (Interrupts.set_ist1 ist_top);
  _ ← println (str "[cpu] IST1 stack at " ++ Interrupts.hex ist_top);
  r ← on_memory (Paging.alloc_guarded_stack cr3 offset 16);
  match r with
  | Some (guard_vaddr, stack_top) =>
      _ ← store_stack guard_vaddr stack_top;
      _ ← println (str "[mem] Kernel stack: " ++ Interrupts.hex (guard_vaddr ⊞ 4096) ++ str ".." ++ Interrupts.hex stack_top ++
                   str " (guard at " ++ Interrupts.hex guard_vaddr ++ str ")");
      switch_stack stack_top
  | None => println (str "[mem] WARNING: Could not allocate guarded stack, using Limine stack")
  end.

(** [kmain], with the loader's answers, up to [continue_boot]. *)
Definition kmain (base_revision : bool) (hhdm_response : option Z) (memmap_response : option (list Entry)) : M unit :=
  _ ← println (str "HeavenOS v0.1.0 — booting...");
  if negb base_revision then st_panic else
  _ ← println (str "[boot] Limine protocol OK");
  match hhdm_response with
  | None => st_panic
  | Some hhdm_offset =>
      _ ← set_hhdm_offset hhdm_offset;
      _ ← println (str "[boot] HHDM offset: " ++ Interrupts.hex hhdm_offset);
      _ ← on_descriptors (fun t => fst (Interrupts.gdt_init tss_addr t));
      _ ← println (str "[cpu] GDT loaded");
      _ ← write_ports Interrupts.pic_init;
      _ ← println (str "[cpu] PIC remapped (IRQs masked)");
      _ ← load_idt (Interrupts.idt_init address);
      _ ← println (str "[cpu] IDT loaded (exception handlers active)");
      match memmap_response with
      | None => st_panic
      | Some entries =>
          let c := collect_all entries in
          _ ← println (str "[mem] " ++ dec (region_count c) ++ str " usable regions, " ++
                       dec (total_usable c / (1024 * 1024)) ++ str " MiB total");
          _ ← st_map_err (fun e : Empty_set => match e with end) (init_pages (take (Z.to_nat (region_count c)) (usable_regions c)));
          m ← st_get;
          _ ← println (str "[mem] Physical allocator: " ++ dec (Phys.free_count (PHYS_ALLOCATOR m)) ++ str " pages free");
          set_up_stacks
      end
  end.

(** ** Lemmas *)
(** The usable entries, as ranges. *)
Definition usable (entries : list Entry) : list (Z * Z) :=
  (fun e => (base e, len e)) <$> filter (fun e => entry_type e = USABLE) entries.

(** The machine when the loader jumps to the kernel. *)
Definition loaded (w : Paging.space) : machine :=
  mkMachine 0 Interrupts.tables0 (replicate 256 Interrupts.missing) [] Phys.new w 0 0 None [].

Lemma collect_fold entries done_ c :
  (exists t, c = mkCollected (take 64 done_ ++ replicate (64 - length done_) (0, 0)) (Z.of_nat (length done_ `min` 64)) t) ->
  exists t, foldl collect c entries =
    mkCollected (take 64 (done_ ++ usable entries) ++ replicate (64 - length (done_ ++ usable entries)) (0, 0))
      (Z.of_nat (length (done_ ++ usable entries) `min` 64)) t.
Proof.
  revert done_ c. induction entries as [|e entries IH]; intros done_ c [t ->].
  - exists t. unfold usable. cbn [foldl filter list_filter fmap list_fmap]. by rewrite app_nil_r.
  - cbn [foldl]. unfold collect at 2. cbn [usable_regions region_count total_usable].
    assert (zlen (take 64 done_ ++ replicate (64 - length done_) (0, 0)) = 64) as ->.
    { unfold zlen. rewrite length_app, length_take, length_replicate. lia. }
    unfold usable. rewrite filter_cons. destruct (decide (entry_type e = USABLE)) as [He|He]; [|by apply IH; exists t].
    cbn [fmap list_fmap]. fold (usable entries). rewrite cons_middle, app_assoc. apply IH. rewrite length_app. cbn [length].
    destruct (Z.ltb_spec (Z.of_nat (length done_ `min` 64)) 64) as [Hlt|Hge].
    + eexists. f_equal; [|unfold wrap64; rewrite Z.mod_small; lia].
      rewrite (take_ge done_), (take_ge (done_ ++ _)) by (rewrite ?length_app; cbn [length]; lia).
      assert (64 - length done_ = S (64 - (length done_ + 1)))%nat as -> by lia. cbn [replicate].
      rewrite Nat.min_l, Nat2Z.id by lia. rewrite <- (Nat.add_0_r (length done_)) at 1. rewrite insert_app_r.
      cbn [insert list_insert]. by rewrite <- app_assoc.
    + exists t. f_equal; [|lia]. rewrite take_app_le by lia. f_equal. f_equal. lia.
Qed.

Lemma collect_ok entries :
  take (Z.to_nat (region_count (collect_all entries))) (usable_regions (collect_all entries)) = take 64 (usable entries).
Proof.
  unfold collect_all. destruct (collect_fold entries [] (mkCollected (replicate 64 (0, 0)) 0 0)) as [t ->]; [by exists 0|].
  cbn [app usable_regions region_count]. rewrite Nat2Z.id, take_app_le by (rewrite length_take; lia). rewrite take_take.
  rewrite Nat.min_l by lia. destruct (decide (length (usable entries) <= 64)%nat).
  - by rewrite Nat.min_l, !take_ge by lia.
  - by rewrite Nat.min_r by lia.
Qed.

(** Free pages as a set. *)
Definition free_run (F : gset Z) (count p : Z) : Prop := forall q, p <= q < p + count -> q ∈ F.

Lemma used_new : Phys.used_pages Phys.new = zrange 0 Phys.MAX_PAGES.
Proof.
  assert (forall n, Phys.MAX_PAGES = 64 * Z.of_nat n -> used (replicate n (Z.ones 64)) Phys.MAX_PAGES = zrange 0 Phys.MAX_PAGES) as H.
  { intros n ->. apply Phys.replicate_ones_used. }
  apply (H (Z.to_nat Phys.BITMAP_WORDS)). done.
Qed.

Definition within (F : gset Z) (total : Z) : Prop := forall q, q ∈ F -> 0 <= q < total.

Lemma run_iff pa F count p : Phys.wf pa -> 0 < count -> Phys.used_pages pa = zrange 0 Phys.MAX_PAGES ∖ F -> within F (Phys.total_pages pa) ->
  Phys.candidate_run pa count 1 p <-> free_run F count p.
Proof.
  intros [_ Htot] Hc Hu Hin.
  assert (forall q, 0 <= q < Phys.MAX_PAGES -> bit_at (Phys.bitmap pa) q = false <-> q ∈ F) as Hq.
  { intros q Hq. assert (q ∈ Phys.used_pages pa <-> bit_at (Phys.bitmap pa) q = true) as Hb by (unfold Phys.used_pages; rewrite elem_of_used; tauto).
    rewrite Hu, elem_of_difference, elem_of_zrange in Hb. destruct (decide (q ∈ F)), (bit_at (Phys.bitmap pa) q); intuition congruence. }
  unfold Phys.candidate_run, run_free. rewrite ?Forall_forall. split.
  - intros (H0 & _ & Hend & Hrun) q Hpq. apply Hq; [lia|]. apply Hrun. lia.
  - intros Hrun. pose proof (Hin p (Hrun p ltac:(lia))). pose proof (Hin (p + count - 1) (Hrun (p + count - 1) ltac:(lia))).
    split; [lia|]. split; [apply Z.divide_1_l|]. split; [lia|]. intros q Hpq. apply Hq; [lia|]. apply Hrun. lia.
Qed.

Lemma regions_within rs : Forall Phys.region_ok rs -> within (⋃ (Phys.region_pages <$> rs)) (Z.min (Phys.regions_max rs / 4096) Phys.MAX_PAGES).
Proof.
  intros Hrs q Hq. induction Hrs as [|r rs (H1 & H2 & _) Hrs IH]; cbn [fmap list_fmap] in Hq; [change (q ∈ (∅ : gset Z)) in Hq; by rewrite elem_of_empty in Hq|].
  rewrite union_list_cons, elem_of_union in Hq.
  unfold Phys.regions_max. cbn [foldr]. fold (Phys.regions_max rs). destruct Hq as [Hq|Hq].
  - unfold Phys.region_pages in Hq. rewrite elem_of_zrange in Hq. unfold Phys.region_first, Phys.region_end in Hq. Z.div_mod_to_equations. lia.
  - specialize (IH Hq). Z.div_mod_to_equations. lia.
Qed.

Lemma take_run F pa pa' count p : Phys.wf pa -> 0 < count -> Phys.used_pages pa = zrange 0 Phys.MAX_PAGES ∖ F -> within F (Phys.total_pages pa) ->
  Phys.candidate_run pa count 1 p -> Phys.alloc_post pa count p pa' ->
  Phys.wf pa' /\ Phys.used_pages pa' = zrange 0 Phys.MAX_PAGES ∖ (F ∖ zrange p count) /\ within (F ∖ zrange p count) (Phys.total_pages pa').
Proof.
  intros Hwf Hc Hu Hin Hrun (Hwf' & Hu' & _ & Ht). split; [done|]. split.
  - rewrite Hu', Hu. apply (run_iff pa F) in Hrun; [|done..]. pose proof (proj2 Hwf) as Htot.
    assert (forall q, p <= q < p + count -> 0 <= q < Phys.MAX_PAGES) as Hb by (intros q Hq; pose proof (Hin q (Hrun q Hq)); lia).
    apply set_eq. intros q. rewrite !elem_of_union, !elem_of_difference, !elem_of_zrange. specialize (Hb q). specialize (Hrun q).
    destruct (decide (q ∈ F)), (decide (p <= q < p + count)); intuition.
  - intros q [Hq _]%elem_of_difference. rewrite Ht. by apply Hin.
Qed.

(** The memory after [PHYS_ALLOCATOR.init]: nothing but [F] is free. *)
Definition free_set (m : machine) (F : gset Z) (total : Z) : Prop :=
  Phys.wf (PHYS_ALLOCATOR m) /\ Phys.used_pages (PHYS_ALLOCATOR m) = zrange 0 Phys.MAX_PAGES ∖ F /\
  within F total /\ Phys.total_pages (PHYS_ALLOCATOR m) = total.

(** What [set_up_stacks] leaves, from the machine [m] with [F] free. *)
Definition stacks_set (offset total : Z) (F : gset Z) (m m' : machine) : Prop :=
  let root := Paging.read_cr3 cr3 in
  exists i, i ∈ F /\ (forall q, q ∈ F -> i <= q) /\
  descriptors m' = Interrupts.set_ist1 ((i + 1) * 4096 + offset) (descriptors m) /\ IDT m' = IDT m /\
  let F := F ∖ zrange i 1 in
  (words m' = words m /\ GUARD_PAGE_ADDR m' = GUARD_PAGE_ADDR m /\ rsp m' = rsp m /\
     (forall p, ~ free_run F 17 p) /\ free_set m' F total \/
   exists p, free_run F 17 p /\ (forall q, free_run F 17 q -> p <= q) /\ free_set m' (F ∖ zrange p 17) total /\
     GUARD_PAGE_ADDR m' = p * 4096 + offset /\ KERNEL_STACK_TOP m' = (p + 17) * 4096 + offset /\ rsp m' = Some (KERNEL_STACK_TOP m') /\
     (forall v, GUARD_PAGE_ADDR m' <= v < GUARD_PAGE_ADDR m' + 4096 -> Paging.translate (Paging.mem (words m')) root v = None) /\
     forall a, 0 <= a < total * 4096 -> a / 4096 <> p -> Paging.translate (Paging.mem (words m')) root (a + offset) = Some a).

Lemma set_up_stacks_ok F total m :
  let root := Paging.read_cr3 cr3 in
  free_set m F total -> 0 <= cr3 < 2 ^ 64 -> (forall a, 0 <= Paging.mem (words m) a < 2 ^ 64) -> Paging.tree (Paging.mem (words m)) root ->
  Paging.direct_map (Paging.mem (words m)) root (HHDM_OFFSET m) total ->
  match set_up_stacks m with
  | (Panic, _) => F = ∅
  | (Err _, _) => False
  | (Ok _, m') => stacks_set (HHDM_OFFSET m) total F m m'
  end.
Proof.
  intros root (Hwf & Hu & Hin & Ht) Hcr Hm Htree Hmap. pose proof Hmap as (Hh & _ & Hend & _).
  unfold set_up_stacks, expect, on_pages, on_memory, st_zoom. unfold mbind, st_bind. cbn [fst snd].
  destruct (Phys.alloc_cases (PHYS_ALLOCATOR m) 1 1 Hwf) as [(i & pa & -> & Hrun & Hlow & Hpost)|[-> Hnone]]; [lia|done|done| |].
  2: { apply set_eq. intros q. rewrite elem_of_empty. split; [|done]. intros Hq. destruct (Hnone q).
       apply (run_iff _ F); try done; [by rewrite Ht|]. intros q' Hq'. by replace q' with q by lia. }
  destruct (take_run F (PHYS_ALLOCATOR m) pa 1 i Hwf ltac:(lia) Hu ltac:(by rewrite Ht) Hrun Hpost) as (Hwf1 & Hu1 & Hin1).
  assert (forall q, Phys.candidate_run (PHYS_ALLOCATOR m) 1 1 q <-> q ∈ F) as Hone.
  { intros q. rewrite (run_iff _ F) by (try done; by rewrite Ht). split; [intros Hq; apply Hq; lia|].
    intros Hq q' Hq'. by replace q' with q by lia. }
  pose proof (Hin i ltac:(by apply Hone)) as Hi.
  assert (Phys.total_pages pa = total) as Ht1 by (destruct Hpost as (_ & _ & _ & ->); done). rewrite Ht1 in Hin1.
  unfold hhdm_offset. cbn [HHDM_OFFSET].
  assert (i * 4096 ⊞ HHDM_OFFSET m ⊞ 4096 = (i + 1) * 4096 + HHDM_OFFSET m) as ->.
  { unfold wrap64. rewrite Zplus_mod_idemp_l. rewrite Z.mod_small; lia. }
  unfold on_descriptors, println. cbn [HHDM_OFFSET descriptors IDT port_writes PHYS_ALLOCATOR words GUARD_PAGE_ADDR KERNEL_STACK_TOP rsp console].
  destruct (Paging.guarded_stack_ok cr3 (HHDM_OFFSET m) 16 pa (words m)) as [[-> Hno]|(p & pa' & w & -> & Hrun' & Hlow' & Hpost' & Hgone & _ & Hkept)];
    [done|lia|done|done|done|by rewrite Ht1| |].
  - exists i. split; [by apply Hone|]. split; [intros q Hq; by apply Hlow, Hone|]. split; [done|]. split; [done|]. left. do 3 (split; [done|]).
    split; [|done]. intros p Hp. apply (Hno p). apply (run_iff _ (F ∖ zrange i 1)); [done|lia|done|by rewrite Ht1|done].
  - assert (forall q, Phys.candidate_run pa (16 + 1) 1 q <-> free_run (F ∖ zrange i 1) 17 q) as Hmany.
    { intros q. by rewrite (run_iff _ (F ∖ zrange i 1)) by (try done; by rewrite Ht1). }
    destruct (take_run (F ∖ zrange i 1) pa pa' 17 p Hwf1 ltac:(lia) Hu1 ltac:(by rewrite Ht1) Hrun' Hpost') as (Hwf2 & Hu2 & Hin2).
    assert (Phys.total_pages pa' = total) as Ht2 by (destruct Hpost' as (_ & _ & _ & ->); done). rewrite Ht2 in Hin2.
    unfold store_stack, switch_stack. cbn [HHDM_OFFSET descriptors IDT port_writes PHYS_ALLOCATOR words GUARD_PAGE_ADDR KERNEL_STACK_TOP rsp console].
    exists i. split; [by apply Hone|]. split; [intros q Hq; by apply Hlow, Hone|]. split; [done|]. split; [done|]. right.
    exists p. split; [by apply Hmany|]. split; [intros q Hq; by apply Hlow', Hmany|]. split; [done|].
    cbn [GUARD_PAGE_ADDR KERNEL_STACK_TOP rsp words]. split; [done|]. split; [lia|]. split; [done|]. rewrite Ht1 in Hkept. by split.
Qed.

Ltac run_step :=
  erewrite bind_step by reflexivity;
  cbn [negb HHDM_OFFSET descriptors IDT port_writes PHYS_ALLOCATOR words GUARD_PAGE_ADDR KERNEL_STACK_TOP rsp console].

(** The machine when [kmain] comes to the stacks. *)
Lemma kmain_memory_ok entries offset w :
  let rs := take 64 (usable entries) in
  Forall Phys.region_ok rs ->
  exists m, kmain true (Some offset) (Some entries) (loaded w) = set_up_stacks m /\
    free_set m (⋃ (Phys.region_pages <$> rs)) (Z.min (Phys.regions_max rs / 4096) Phys.MAX_PAGES) /\
    HHDM_OFFSET m = offset /\ words m = w /\ GUARD_PAGE_ADDR m = 0 /\ rsp m = None /\
    descriptors m = fst (Interrupts.gdt_init tss_addr Interrupts.tables0) /\ IDT m = Interrupts.idt_init address /\
    port_writes m = Interrupts.pic_init.
Proof.
  intros rs Hrs. destruct (Phys.init_ok Phys.new rs Phys.new_wf Hrs) as (pa & Hinit & Hwf & Htot & Hu).
  eexists. split; [|split_and!].
  - unfold kmain, loaded. do 11 run_step. erewrite bind_step.
    2: { unfold st_map_err, init_pages, on_pages, on_memory, st_zoom. cbn [fst snd PHYS_ALLOCATOR words]. rewrite collect_ok. fold rs.
         rewrite Hinit. reflexivity. }
    do 2 run_step. reflexivity.
  - unfold free_set. cbn [PHYS_ALLOCATOR words]. split; [done|]. split; [by rewrite Hu, used_new|]. split; [by apply regions_within|done].
  - done.
  - done.
  - done.
  - done.
  - done.
  - done.
  - done.
Qed.

End boot.

(** A machine of 132 KiB: 32 usable pages after the first. *)
Module Small.
Definition entries : list (Entry Z) := [mkEntry Z 1 0 4096; mkEntry Z 0 4096 0x20000; mkEntry Z 5 0xFFFC0000 0x40000].
Definition F : gset Z := ⋃ (Phys.region_pages <$> take 64 (usable Z 0 entries)).
Lemma usable_pages q : q ∈ F <-> 1 <= q < 33.
Proof.
  unfold F. change (take 64 (usable Z 0 entries)) with [(4096, 0x20000)]. cbn [fmap list_fmap]. rewrite union_list_singleton.
  unfold Phys.region_pages. rewrite elem_of_zrange. unfold Phys.region_first, Phys.region_end. cbn [fst snd]. rewrite Phys.MAX_PAGES_eq. lia.
Qed.
Notation boot := (kmain Z 0 Interrupts.linked Interrupts.tss_home Paging.Small.base true (Some Paging.Small.offset) (Some entries)
  (loaded (Paging.mkSpace Paging.Small.tables []))).

End Small.
End Boot.
