(* ===== verification/Timer.v ===== *)
(** * The clock ([arch/x86_64/timer.rs], [rdtsc] of [cpu.rs])

    The time stamp counter, its calibration against channel 2 of the interval
    timer, and what is computed from it.  The instructions that read a clock or
    a port take time: each one some number of ticks of the counter. *)
From S2P Require Import Prelude.
From S2P Require Import Bitmap.

Module Timer.

Definition PIT_CH2_DATA : Z := 0x42.
Definition PIT_CMD : Z := 0x43.
Definition PIT_GATE : Z := 0x61.
Definition PIT_FREQ : Z := 1193182.

(** Channel 2 of an 8254 in mode 0: the low byte of a count half loaded, the
    count, the ticks it has been counting for, and since when it counts. *)
Record channel := mkChannel { latch : option Z; count : option Z; counted : Z; since : option Z }.

(** The counter, the instructions run so far, the two low bits of port 0x61,
    the channel, and the statics. *)
Record machine := mkMachine {
  tsc : Z; instrs : nat; port61 : Z; channel2 : channel;
  TSC_FREQ_HZ : Z; TSC_PER_MS : Z; BOOT_TSC : Z;
}.

Section timer.
(** The ticks the [n]-th instruction takes, what the other bits of port 0x61
    read then, and the true frequency of the counter. *)
Variables cost noise : nat -> Z.
Variable F : Z.

(** ** The hardware *)
(** An error is a spin that outlives its fuel. *)
Abbreviation M := (st machine unit).
Definition tick : M unit := fun m =>
  (Ok tt, mkMachine (tsc m + cost (instrs m)) (S (instrs m)) (port61 m) (channel2 m) (TSC_FREQ_HZ m) (TSC_PER_MS m) (BOOT_TSC m)).
Definition counting (t : Z) (c : channel) : Z := counted c + match since c with Some s => t - s | None => 0 end.
(** The output: high from the [count + 1]-th clock of the timer on. *)
Definition out_high (m : machine) : bool :=
  match count (channel2 m) with
  | Some n => (n + 1) * F <=? counting (tsc m) (channel2 m) * PIT_FREQ
  | None => false
  end.
Definition gate_high (m : machine) : bool := Z.testbit (port61 m) 0.
Definition set_port (v : Z) (c : channel) : M unit := fun m =>
  (Ok tt, mkMachine (tsc m) (instrs m) v c (TSC_FREQ_HZ m) (TSC_PER_MS m) (BOOT_TSC m)).
(** The gate starts and stops the count. *)
Definition gated (t : Z) (high : bool) (c : channel) : channel :=
  mkChannel (latch c) (count c) (counting t c) (if high then match count c with Some _ => Some t | None => None end else None).
(** The command 0xB0 programs the channel; two bytes load the count. *)
Definition port_write (port val : Z) : M unit := fun m =>
  let c := channel2 m in
  if port =? PIT_GATE then set_port (Z.land val 3) (gated (tsc m) (Z.testbit val 0) c) m
  else if (port =? PIT_CMD) && (val =? 0xB0) then set_port (port61 m) (mkChannel None None 0 None) m
  else if port =? PIT_CH2_DATA then
    match latch c with
    | None => set_port (port61 m) (mkChannel (Some val) (count c) (counted c) (since c)) m
    | Some low => set_port (port61 m) (mkChannel None (Some (low + 256 * val)) 0 (if gate_high m then Some (tsc m) else None)) m
    end
  else (Ok tt, m).
Definition port_read (port : Z) : M Z := fun m =>
  (Ok (if port =? PIT_GATE then Z.lor (Z.lor (Z.land (noise (instrs m)) 0xDC) (port61 m)) (if out_high m then 0x20 else 0) else 0), m).

(** ** The code *)
Definition rdtsc : M Z := _ ← tick; m ← st_get; mret (wrap64 (tsc m)).
Definition inb (port : Z) : M Z := _ ← tick; port_read port.
Definition outb (port val : Z) : M unit := _ ← tick; port_write port val.
Definition store (freq_hz per_ms boot : Z) : M unit := fun m =>
  (Ok tt, mkMachine (tsc m) (instrs m) (port61 m) (channel2 m) freq_hz per_ms boot).

Fixpoint wait_out (fuel : nat) : M unit :=
  match fuel with
  | O => st_err tt
  | S fuel =>
      v ← inb PIT_GATE;
      if negb (Z.land v 0x20 =? 0) then mret tt else wait_out fuel
  end.

Definition calibrate_tsc (fuel : nat) : M unit :=
  let pit_count := 11932 in
  let expected_us := (pit_count ⊠ 1000000) / PIT_FREQ in
  gate ← inb PIT_GATE;
  _ ← outb PIT_GATE (Z.lor (Z.land gate 0xFD) 0x01);
  _ ← outb PIT_CMD 0xB0;
  _ ← outb PIT_CH2_DATA (Z.land pit_count 0xFF);
  _ ← outb PIT_CH2_DATA (Z.land (Z.shiftr pit_count 8) 0xFF);
  gate ← inb PIT_GATE;
  _ ← outb PIT_GATE (Z.land gate 0xFE);
  _ ← outb PIT_GATE (Z.lor gate 0x01);
  tsc_start ← rdtsc;
  _ ← wait_out fuel;
  tsc_end ← rdtsc;
  let delta := tsc_end ⊟ tsc_start in
  let freq_hz := (delta ⊠ 1000000) / expected_us in
  let per_ms := freq_hz / 1000 in
  store freq_hz per_ms tsc_end.

Definition tsc_freq_hz (m : machine) : Z := TSC_FREQ_HZ m.
Definition tsc_per_ms (m : machine) : Z := TSC_PER_MS m.
Definition monotonic_ms : M Z :=
  m ← st_get;
  let boot := BOOT_TSC m in
  now ← rdtsc;
  m ← st_get;
  let per_ms := TSC_PER_MS m in
  if per_ms =? 0 then mret 0 else mret ((now ⊟ boot) / per_ms).
Definition uptime_secs : M Z := ms ← monotonic_ms; mret (ms / 1000).

Fixpoint spin_until (fuel : nat) (start target_ticks : Z) : M unit :=
  match fuel with
  | O => st_err tt
  | S fuel =>
      now ← rdtsc;
      if (now ⊟ start) <? target_ticks then spin_until fuel start target_ticks else mret tt
  end.
Definition delay_us (fuel : nat) (us : Z) : M unit :=
  m ← st_get;
  let per_ms := TSC_PER_MS m in
  let target_ticks := (us ⊠ per_ms) / 1000 in
  start ← rdtsc;
  spin_until fuel start target_ticks.

(** ** Calibration *)
Variable C : Z.
Hypothesis cost_ok : forall n, 1 <= cost n <= C.

Lemma spin_bit v b : Z.testbit v 5 = b -> negb (Z.land v 0x20 =? 0) = b.
Proof. intros <-. change 0x20 with (Z.shiftl 1 5). by apply land_bit_testbit. Qed.

(** Time has passed, nothing else has changed. *)
Definition at_time (m : machine) (t : Z) (i : nat) : machine :=
  mkMachine t i (port61 m) (channel2 m) (TSC_FREQ_HZ m) (TSC_PER_MS m) (BOOT_TSC m).

Lemma rdtsc_run m : rdtsc m = (Ok (wrap64 (tsc m + cost (instrs m))), at_time m (tsc m + cost (instrs m)) (S (instrs m))).
Proof. done. Qed.

Lemma gate_read m : 0 <= port61 m < 4 -> exists v, inb PIT_GATE m = (Ok v, at_time m (tsc m + cost (instrs m)) (S (instrs m))) /\
  Z.testbit v 5 = out_high (at_time m (tsc m + cost (instrs m)) (S (instrs m))) /\ Z.testbit v 0 = gate_high m.
Proof.
  intros Hp. set (m1 := at_time m (tsc m + cost (instrs m)) (S (instrs m))).
  exists (Z.lor (Z.lor (Z.land (noise (S (instrs m))) 0xDC) (port61 m)) (if out_high m1 then 0x20 else 0)). split; [reflexivity|]. rewrite !Z.lor_spec, !Z.land_spec.
  change (Z.testbit 0xDC 5) with false. change (Z.testbit 0xDC 0) with false. rewrite !andb_false_r. cbn [orb]. split.
  - assert (Z.testbit (port61 m) 5 = false) as -> by (apply Z.bits_above_log2; [lia|]; assert (port61 m = 0 \/ port61 m = 1 \/ port61 m = 2 \/ port61 m = 3) as [-> |[-> |[-> | ->]]] by lia; done).
    cbn [orb]. by destruct (out_high _).
  - unfold gate_high. destruct (out_high _); by rewrite ?orb_false_r.
Qed.

(** A spin ends as soon as the output is high. *)
Lemma wait_out_ok n s goal fuel m : count (channel2 m) = Some n -> since (channel2 m) = Some s -> 0 <= port61 m < 4 -> goal = (n + 1) * F ->
  goal <= (counted (channel2 m) + tsc m - s + Z.of_nat fuel) * PIT_FREQ -> (0 < fuel)%nat ->
  exists t i, wait_out fuel m = (Ok tt, at_time m t i) /\ tsc m < t /\
    goal <= (counted (channel2 m) + t - s) * PIT_FREQ /\
    (t <= tsc m + C \/ (counted (channel2 m) + t - s - C) * PIT_FREQ < goal).
Proof.
  intros Hn Hs Hp Hg. revert m Hn Hs Hp. induction fuel as [|fuel IH]; intros m Hn Hs Hp Hfuel Hpos; [lia|].
  cbn [wait_out]. destruct (gate_read m Hp) as (v & Hread & Hbit & _). unfold mbind, st_bind. rewrite Hread, (spin_bit _ _ Hbit).
  set (m1 := at_time m (tsc m + cost (instrs m)) (S (instrs m))) in *. pose proof (cost_ok (instrs m)) as Hc.
  assert (out_high m1 = (goal <=? (counted (channel2 m) + tsc m1 - s) * PIT_FREQ)) as ->.
  { unfold out_high. cbn [m1 at_time channel2 tsc]. rewrite Hn. unfold counting. rewrite Hs, Hg. f_equal. lia. }
  destruct (Z.leb_spec goal ((counted (channel2 m) + tsc m1 - s) * PIT_FREQ)) as [Hhigh|Hlow]; cbn [m1 at_time tsc] in *.
  - exists (tsc m + cost (instrs m)), (S (instrs m)). split; [done|]. split; [lia|]. split; [done|]. left. lia.
  - assert (0 < fuel)%nat as Hf.
    { destruct fuel as [|fuel]; [|lia]. unfold PIT_FREQ in *. nia. }
    destruct (IH m1) as (t & i & -> & Ht & Hdone & Hbound); [done..| |done|]; cbn [m1 at_time channel2 tsc] in *.
    { unfold PIT_FREQ in *. nia. }
    exists t, i. split; [done|]. split; [lia|]. split; [done|]. right. unfold PIT_FREQ in *. destruct Hbound; nia.
Qed.

Ltac run_step :=
  erewrite bind_step by reflexivity; cbn [tsc instrs port61 channel2 TSC_FREQ_HZ TSC_PER_MS BOOT_TSC at_time latch count counted since].

Lemma port_bits v : 0 <= Z.land v 3 < 4.
Proof. change 3 with (Z.ones 2). rewrite Z.land_ones by lia. by apply Z.mod_pos_bound. Qed.

Lemma calibrate_ok fuel m : 0 < F < 2 ^ 40 -> C < 2 ^ 30 -> 0 <= port61 m < 4 -> F <= 99 * Z.of_nat fuel ->
  exists m', calibrate_tsc fuel m = (Ok tt, m') /\ tsc m < tsc m' /\ BOOT_TSC m' = wrap64 (tsc m') /\ TSC_PER_MS m' = TSC_FREQ_HZ m' / 1000 /\
    F - 300 * C <= TSC_FREQ_HZ m' <= F + F / 10000 + 300 * C.
Proof.
  intros HF HC Hp Hfuel. unfold calibrate_tsc. destruct (gate_read m Hp) as (v & Hread & _ & _). erewrite bind_step by exact Hread.
  do 4 run_step. change (Z.land 11932 255 + 256 * Z.land (11932 ≫ 8) 255) with 11932.
  assert (Z.testbit (Z.land (Z.lor (Z.land v 253) 1) 3) 0 = true) as Hgate by (rewrite Z.land_spec, Z.lor_spec, orb_true_r; done).
  unfold gate_high. cbn [port61]. rewrite Hgate. set (p := Z.land _ 3) in *.
  assert (0 <= p < 4) as Hp2 by apply port_bits. clearbody p. set (t0 := tsc m + cost (instrs m) + _ + _ + _ + _).
  assert (tsc m < t0) as Ht0 by (pose proof (fun k => proj1 (cost_ok k)) as H1; unfold t0; pose proof (H1 (instrs m)); pose proof (H1 (S (instrs m)));
    pose proof (H1 (S (S (instrs m)))); pose proof (H1 (S (S (S (instrs m))))); pose proof (H1 (S (S (S (S (instrs m)))))); lia).
  clearbody t0. set (i := S (S (S (S (S (instrs m)))))). clearbody i.
  match goal with |- context [(inb PIT_GATE ≫= _) ?x] => destruct (gate_read x) as (v2 & Hread2 & _ & Hbit2); [done|]; erewrite bind_step by exact Hread2 end.
  unfold gate_high in Hbit2. cbn [port61] in Hbit2. rewrite Hgate in Hbit2. do 2 run_step.
  assert (Z.testbit (Z.land v2 254) 0 = false) as -> by (rewrite Z.land_spec; apply andb_false_r).
  assert (Z.testbit (Z.lor v2 1) 0 = true) as -> by (rewrite Z.lor_spec; apply orb_true_r).
  unfold gated. cbn [count counted since latch counting]. unfold counting. cbn [counted since].
  run_step.
  match goal with |- context [(wait_out fuel ≫= _) ?x] =>
    destruct (wait_out_ok 11932 (t0 + cost i + cost (S i) + cost (S (S i))) (11933 * F) fuel x) as (t & j & Hwait & Ht & Hdone & Hbound) end.
  1-4: first [done|apply port_bits].
  all: cbn [tsc channel2 counted] in *.
  all: pose proof (cost_ok i) as H1; pose proof (cost_ok (S i)) as H2; pose proof (cost_ok (S (S i))) as H3; pose proof (cost_ok (S (S (S i)))) as H4.
  1: unfold PIT_FREQ; nia. 1: lia.
  erewrite bind_step by exact Hwait. cbn [at_time tsc instrs port61 channel2 TSC_FREQ_HZ TSC_PER_MS BOOT_TSC]. run_step.
  eexists. split; [reflexivity|]. cbn [tsc BOOT_TSC TSC_PER_MS TSC_FREQ_HZ]. pose proof (cost_ok j) as H5.
  split; [lia|]. split; [done|]. split; [done|].
  change ((11932 ⊠ 1000000) / PIT_FREQ) with 10000. set (d := t0 + cost i + cost (S i) + cost (S (S i)) + cost (S (S (S i)))) in *.
  assert (wrap64 (t + cost j) ⊟ wrap64 d = t + cost j - d) as ->.
  { unfold wrap64. rewrite Zminus_mod_idemp_l, Zminus_mod_idemp_r. apply Z.mod_small. unfold PIT_FREQ in *. lia. }
  set (delta := t + cost j - d) in *.
  assert (11933 * F - 3 * C * PIT_FREQ <= delta * PIT_FREQ <= 11933 * F + 2 * C * PIT_FREQ) as Hdelta by (unfold PIT_FREQ, delta, d in *; lia).
  unfold PIT_FREQ in *. assert (0 <= delta) by (unfold delta; lia). unfold wrap64. rewrite Z.mod_small by lia.
  replace (delta * 1000000) with (delta * 100 * 10000) by lia. rewrite Z.div_mul by lia. clearbody delta d. Z.div_mod_to_equations. lia.
Qed.

(** ** The calibrated clock *)
Lemma monotonic_ok m b : BOOT_TSC m = wrap64 b -> 0 < TSC_PER_MS m -> b <= tsc m -> tsc m + C < b + 2 ^ 64 ->
  exists t i, monotonic_ms m = (Ok ((t - b) / TSC_PER_MS m), at_time m t i) /\ tsc m < t <= tsc m + C.
Proof.
  intros Hb Hper Hle Hlt. pose proof (cost_ok (instrs m)) as Hc. exists (tsc m + cost (instrs m)), (S (instrs m)). split; [|lia].
  unfold monotonic_ms. do 2 run_step. run_step. rewrite (proj2 (Z.eqb_neq _ _)) by lia.
  assert (wrap64 (tsc m + cost (instrs m)) ⊟ BOOT_TSC m = tsc m + cost (instrs m) - b) as ->; [|done].
  rewrite Hb. unfold wrap64. rewrite Zminus_mod_idemp_l, Zminus_mod_idemp_r. apply Z.mod_small. lia.
Qed.

Lemma spin_until_ok fuel start target m : 0 <= start <= tsc m -> 0 <= target -> target + C + C < 2 ^ 64 -> tsc m - start < target + C ->
  target <= tsc m - start + Z.of_nat fuel -> (0 < fuel)%nat ->
  exists t i, spin_until fuel (wrap64 start) target m = (Ok tt, at_time m t i) /\ tsc m < t /\ target <= t - start /\
    (t <= tsc m + C \/ t - start < target + C).
Proof.
  intros Hs Htarget Hmax. revert m Hs. induction fuel as [|fuel IH]; intros m Hs Hnow Hfuel Hpos; [lia|].
  pose proof (cost_ok (instrs m)) as Hc. cbn [spin_until]. run_step.
  assert (wrap64 (tsc m + cost (instrs m)) ⊟ wrap64 start = tsc m + cost (instrs m) - start) as ->.
  { unfold wrap64. rewrite Zminus_mod_idemp_l, Zminus_mod_idemp_r. apply Z.mod_small. lia. }
  destruct (Z.ltb_spec (tsc m + cost (instrs m) - start) target) as [Hlt|Hge].
  - match goal with |- context [spin_until _ _ _ ?x] => change x with (at_time m (tsc m + cost (instrs m)) (S (instrs m))) end.
    destruct (IH (at_time m (tsc m + cost (instrs m)) (S (instrs m)))) as (t & i & -> & Ht & Hdone & Hb); cbn [at_time tsc] in *; try lia.
    exists t, i. split; [done|]. lia.
  - exists (tsc m + cost (instrs m)), (S (instrs m)). split; [done|]. lia.
Qed.

Lemma delay_ok fuel us m : 0 <= tsc m -> 0 <= us -> 0 <= TSC_PER_MS m -> C < 2 ^ 30 -> us * TSC_PER_MS m < 2 ^ 64 ->
  us * TSC_PER_MS m / 1000 < Z.of_nat fuel ->
  exists t i, delay_us fuel us m = (Ok tt, at_time m t i) /\
    us * TSC_PER_MS m / 1000 <= t - tsc m <= us * TSC_PER_MS m / 1000 + 2 * C.
Proof.
  intros Ht Hus Hper HC Hmax Hfuel. unfold delay_us. run_step. run_step.
  assert (0 <= us * TSC_PER_MS m) by nia. pose proof (cost_ok (instrs m)) as Hc.
  assert (us ⊠ TSC_PER_MS m = us * TSC_PER_MS m) as -> by (apply Z.mod_small; lia).
  destruct (spin_until_ok fuel (tsc m + cost (instrs m)) (us * TSC_PER_MS m / 1000)
    (at_time m (tsc m + cost (instrs m)) (S (instrs m)))) as (t & i & Hrun & Hlt & Hge & Hb); cbn [at_time tsc]; try lia.
  unfold at_time in Hrun. cbn [port61 channel2 TSC_FREQ_HZ TSC_PER_MS BOOT_TSC] in Hrun. rewrite Hrun. exists t, i. split; [done|].
  cbn [at_time tsc] in *. lia.
Qed.

(** C37. The clock tells the time.  On a counter of [F] ticks a second, against an
    interval timer that follows its data sheet, whatever the port reads
    between and however long each instruction takes up to [C] ticks, the
    calibration ends and finds the frequency to within [E] = F / 10000 + 300 C
    + 1000.  From then on [monotonic_ms] is the milliseconds since then, and
    [delay_us] returns after the microseconds asked for, both to the relative
    error [E / F], a tick and the time of two instructions. *)
Theorem clock_calibrated fuel m :
  let E := F / 10000 + 300 * C + 1000 in
  0 < F < 2 ^ 40 -> C < 2 ^ 30 -> E < F -> 0 <= port61 m < 4 -> 0 <= tsc m -> F <= 99 * Z.of_nat fuel ->
  exists m', calibrate_tsc fuel m = (Ok tt, m') /\ tsc m < tsc m' /\ F - E <= tsc_freq_hz m' <= F + E /\
    forall m2, BOOT_TSC m2 = BOOT_TSC m' -> TSC_PER_MS m2 = TSC_PER_MS m' -> tsc m' <= tsc m2 ->
      (tsc m2 + C < tsc m' + 2 ^ 64 -> exists ms t i, monotonic_ms m2 = (Ok ms, at_time m2 t i) /\ tsc m2 < t <= tsc m2 + C /\
         ms * (F - E) <= 1000 * (t - tsc m') < (ms + 1) * (F + E)) /\
      forall us fuel', 0 <= us -> us * (F + E) < 2 ^ 64 -> us * (F + E) < 1000000 * Z.of_nat fuel' ->
        exists t i, delay_us fuel' us m2 = (Ok tt, at_time m2 t i) /\
          us * (F - E) - 1000000 <= 1000000 * (t - tsc m2) <= us * (F + E) + 2000000 * C.
Proof.
  intros E HF HC HE Hp Htsc Hfuel. destruct (calibrate_ok fuel m HF HC Hp Hfuel) as (m' & -> & Hlt & Hboot & Hper & Hfreq).
  pose proof (proj1 (cost_ok 0)) as HC0. pose proof (proj2 (cost_ok 0)) as HC1.
  assert (F - E <= 1000 * TSC_PER_MS m' <= F + E) as Hms by (rewrite Hper; unfold E in *; Z.div_mod_to_equations; lia).
  exists m'. split; [done|]. split; [done|]. split; [unfold tsc_freq_hz, E in *; Z.div_mod_to_equations; lia|].
  intros m2 Hb2 Hp2 Ht2. split.
  - intros Hwrap. destruct (monotonic_ok m2 (tsc m')) as (t & i & -> & Ht); [by rewrite Hb2|lia|done|done|].
    eexists _, t, i. split; [done|]. split; [done|]. rewrite Hp2. set (ms := (t - tsc m') / TSC_PER_MS m').
    assert (0 <= ms /\ ms * TSC_PER_MS m' <= t - tsc m' < (ms + 1) * TSC_PER_MS m') as (H0 & H1 & H2).
    { unfold ms. split; [apply Z.div_pos; lia|]. pose proof (Z.mod_pos_bound (t - tsc m') (TSC_PER_MS m') ltac:(lia)).
      pose proof (Z.div_mod (t - tsc m') (TSC_PER_MS m') ltac:(lia)). lia. }
    pose proof (Z.mul_le_mono_nonneg_l _ _ ms H0 (proj1 Hms)). pose proof (Z.mul_le_mono_nonneg_l _ _ (ms + 1) ltac:(lia) (proj2 Hms)).
    clearbody ms E. clear Hboot Hper Hfreq. lia.
  - intros us fuel' Hus Hmax Hf. rewrite <- Hp2 in Hms.
    pose proof (Z.mul_le_mono_nonneg_l _ _ us Hus (proj1 Hms)) as Hge. pose proof (Z.mul_le_mono_nonneg_l _ _ us Hus (proj2 Hms)) as Hle.
    assert (0 <= us * TSC_PER_MS m2) by (apply Z.mul_nonneg_nonneg; lia).
    clearbody E. clear Hboot Hper Hfreq.
    destruct (delay_ok fuel' us m2) as (t & i & -> & Ht); [lia|done|lia|done|lia|Z.div_mod_to_equations; lia|].
    exists t, i. split; [done|]. Z.div_mod_to_equations. lia.
Qed.
End timer.

(** A counter of 20 kHz; instructions of one or two ticks. *)
Module Small.
Definition cost (n : nat) : Z := 1 + Z.of_nat (n mod 2).
Definition noise (n : nat) : Z := Z.of_nat n * 37.
Definition start : machine := mkMachine 1000 0 0 (mkChannel (Some 7) (Some 3) 5 None) 0 2000000 0.
Definition calibrated : machine := snd (calibrate_tsc cost noise 20000 203 start).
Lemma cost_ok n : 1 <= cost n <= 2.
Proof. unfold cost. pose proof (Nat.mod_upper_bound n 2 ltac:(lia)). lia. Qed.

Lemma clock_calibrated_witness :
  fst (calibrate_tsc cost noise 20000 203 start) = Ok tt /\ 18398 <= tsc_freq_hz calibrated <= 21602 /\
  exists t i, delay_us cost 11 500 calibrated = (Ok tt, at_time calibrated t i) /\ 9 <= t - tsc calibrated <= 14.
Proof.
  destruct (clock_calibrated cost noise 20000 2 cost_ok 203 start) as (m' & Hrun & Hlt & Hfreq & Hlater); try (vm_compute; intuition congruence).
  unfold calibrated. rewrite Hrun. cbn [fst snd]. split; [done|]. change (20000 / 10000 + 300 * 2 + 1000) with 1602 in *.
  split; [lia|]. destruct (Hlater m' eq_refl eq_refl ltac:(lia)) as [_ Hdelay].
  destruct (Hdelay 500 11%nat) as (t & i & Hr & Hb); [lia..|]. exists t, i. split; [exact Hr|]. lia.
Defined.
End Small.
End Timer.
