(* ===== verification/Net.v ===== *)
(** * The network stack ([net/stack.rs], [net/tls.rs])

    The wrapper of the TCP/IP library with its waits, the local ports, and the
    blocking stream the TLS library reads and writes.  The library's interface
    and sockets are a state of their own with the operations called on them. *)
From S2P Require Import Prelude.
From S2P Require Import Bytes.
From S2P Require Import Timer.

Module Net.

Inductive TcpError := Closed | Timeout.

(** The TCP/IP library: the interface, the card and the sockets as one state,
    and the operations the wrapper calls. *)
Class Library (sockets handle : Type) := {
  iface_poll : Z -> sockets -> sockets;
  add_tcp : sockets -> handle * sockets;
  add_udp : sockets -> handle * sockets;
  connect : handle -> Z -> Z -> Z -> sockets -> bool * sockets;
  is_active : handle -> sockets -> bool;
  can_send : handle -> sockets -> bool;
  can_recv : handle -> sockets -> bool;
  send_slice : handle -> list Z -> sockets -> option Z * sockets;
  recv_slice : handle -> Z -> sockets -> option (list Z) * sockets;
  close : handle -> sockets -> sockets;
  remove : handle -> sockets -> sockets;
  bind : handle -> Z -> sockets -> bool * sockets;
  udp_send_slice : handle -> list Z -> Z -> sockets -> bool * sockets;
  udp_recv_slice : handle -> Z -> sockets -> option (list Z) * sockets;
}.

Record NetStack (sockets : Type) := mkStack { clock : Timer.machine; net : sockets; EPHEMERAL_PORT : Z }.
Arguments mkStack {sockets} clock net EPHEMERAL_PORT.
Arguments clock {sockets} n.
Arguments net {sockets} n.
Arguments EPHEMERAL_PORT {sockets} n.

(** Comparing milliseconds bounds the ticks between two readings. *)
Lemma elapsed_ok b P ts t timeout_ms : 0 < P -> b <= ts <= t -> t < b + 2 ^ 64 -> 0 <= timeout_ms ->
  let elapsed := (t - b) / P ⊟ (ts - b) / P in
  (timeout_ms < elapsed -> timeout_ms * P < t - ts) /\ (elapsed <= timeout_ms -> t - ts < (timeout_ms + 1) * P).
Proof.
  intros HP Ht Hmax Hto. cbn zeta.
  pose proof (Z.mod_pos_bound (t - b) P HP) as Hm. pose proof (Z.mod_pos_bound (ts - b) P HP) as Hm0.
  pose proof (Z.div_mod (t - b) P ltac:(clear -HP; lia)) as Hd. pose proof (Z.div_mod (ts - b) P ltac:(clear -HP; lia)) as Hd0.
  pose proof (Z.div_pos (ts - b) P ltac:(clear -Ht; lia) HP) as Hp0.
  pose proof (Z.div_le_mono (ts - b) (t - b) P HP ltac:(clear -Ht; lia)) as Hle.
  assert ((t - b) / P <= t - b) as Hself.
  { apply Z.div_le_upper_bound; [done|]. rewrite <- (Z.mul_1_l (t - b)) at 1. apply Z.mul_le_mono_nonneg_r; clear -Ht HP; lia. }
  generalize dependent ((t - b) / P). intros q. generalize dependent ((ts - b) / P). intros q0.
  generalize dependent ((t - b) mod P). intros r. generalize dependent ((ts - b) mod P). intros r0 Hr0 Hd0 Hq0 Hr Hd Hle Hself.
  assert (q ⊟ q0 = q - q0) as -> by (apply Z.mod_small; lia). split; intros H.
  - assert (P * (q0 + timeout_ms + 1) <= P * q) by (apply Z.mul_le_mono_nonneg_l; lia). lia.
  - assert (P * q <= P * (q0 + timeout_ms)) by (apply Z.mul_le_mono_nonneg_l; lia). lia.
Qed.

Section net.
(** The ticks each call or instruction takes. *)
Variable cost : nat -> Z.
Context {sockets handle : Type} {lib : Library sockets handle}.
Abbreviation NetStack := (NetStack sockets).

(** An error is a wait that outlives its fuel. *)
Abbreviation N := (st NetStack unit).
Definition on_clock {A} (f : st Timer.machine unit A) : N A := st_zoom clock (fun c s => mkStack c (net s) (EPHEMERAL_PORT s)) f.
(** A call into the library. *)
Definition call {A} (f : sockets -> A * sockets) : N A := fun s =>
  let '(a, n) := f (net s) in
  match Timer.tick cost (clock s) with
  | (_, c) => (Ok a, mkStack c n (EPHEMERAL_PORT s))
  end.
Definition ask {A} (f : sockets -> A) : N A := call (fun n => (f n, n)).

Definition monotonic_ms : N Z := on_clock (Timer.monotonic_ms cost).
(** The library's [Instant] carries the milliseconds unchanged. *)
Definition now : N Z := monotonic_ms.
Definition poll : N unit :=
  timestamp ← now;
  call (fun n => (tt, iface_poll timestamp n)).

Definition fetch_add_port : N Z := fun s => (Ok (EPHEMERAL_PORT s), mkStack (clock s) (net s) (wrap16 (EPHEMERAL_PORT s + 1))).
Definition local_port (port_offset : Z) : Z := wrap16 (49152 + port_offset mod 16384).
Definition tcp_connect (remote_ip remote_port : Z) : N (option handle) :=
  handle ← call add_tcp;
  port_offset ← fetch_add_port;
  ok ← call (connect handle remote_ip remote_port (local_port port_offset));
  mret (if (ok : bool) then Some handle else None).
Definition next_ephemeral_port : N Z :=
  offset ← fetch_add_port;
  mret (local_port offset).

Definition tcp_send (h : handle) (data : list Z) : N Z := r ← call (send_slice h data); mret (default 0 r).
Definition tcp_recv (h : handle) (buf : Z) : N (list Z) := r ← call (recv_slice h buf); mret (default [] r).
Definition tcp_is_active (h : handle) : N bool := ask (is_active h).
Definition tcp_can_send (h : handle) : N bool := ask (can_send h).
Definition tcp_can_recv (h : handle) : N bool := ask (can_recv h).
Definition tcp_close (h : handle) : N unit := call (fun n => (tt, close h n)).
Definition add_udp_socket : N handle := call add_udp.
Definition udp_bind (h : handle) (port : Z) : N bool := call (bind h port).
Definition udp_send (h : handle) (data : list Z) (endpoint : Z) : N bool :=
  ok ← call (udp_send_slice h data endpoint);
  if (ok : bool) then _ ← poll; mret true else mret false.
Definition udp_recv (h : handle) (buf : Z) : N (option (list Z)) := call (udp_recv_slice h buf).
Definition remove_socket (h : handle) : N unit := call (fun n => (tt, remove h n)).

(** The ports are handed out in turn: 16384 in a row are all different. *)
Lemma local_port_turn k : 0 <= k -> local_port (wrap16 (49152 + k)) = 49152 + k mod 16384.
Proof.
  intros Hk. unfold local_port, wrap16. change (2 ^ 16) with 65536. Z.div_mod_to_equations. lia.
Qed.
Lemma next_port_turn k s : 0 <= k -> EPHEMERAL_PORT s = wrap16 (49152 + k) ->
  exists s', next_ephemeral_port s = (Ok (49152 + k mod 16384), s') /\ EPHEMERAL_PORT s' = wrap16 (49152 + (k + 1)).
Proof.
  intros Hk Hs. unfold next_ephemeral_port. erewrite bind_step by reflexivity. rewrite Hs, local_port_turn by done.
  eexists. split; [reflexivity|]. cbn [EPHEMERAL_PORT]. unfold wrap16. rewrite Zplus_mod_idemp_l. f_equal. lia.
Qed.

(** The waits: rounds until one has an answer or the time is over. *)
Fixpoint wait_loop {A} (fuel : nat) (round : N (option A)) (start timeout_ms : Z) (late : A) : N A :=
  match fuel with
  | O => st_err tt
  | S fuel =>
      r ← round;
      match r with
      | Some a => mret a
      | None =>
          t ← now;
          let elapsed := t ⊟ start in
          if timeout_ms <? elapsed then mret late else wait_loop fuel round start timeout_ms late
      end
  end.

Definition poll_round (condition : N bool) : N (option bool) :=
  _ ← poll;
  b ← condition;
  mret (if (b : bool) then Some true else None).
Definition poll_until (fuel : nat) (condition : N bool) (timeout_ms : Z) : N bool :=
  start ← now;
  wait_loop fuel (poll_round condition) start timeout_ms false.

Definition IO_TIMEOUT_MS : Z := 30000.
Definition end_of_file {A} (h : handle) (r : A) : N (option A) :=
  active ← tcp_is_active h;
  mret (if (active : bool) then None else Some r).
Definition read_round (h : handle) (buf : Z) : N (option (list Z + TcpError)) :=
  _ ← poll;
  ready ← tcp_can_recv h;
  if (ready : bool) then
    data ← tcp_recv h buf;
    if 0 <? zlen data then mret (Some (inl data)) else end_of_file h (inl [])
  else end_of_file h (inl []).
Definition read (fuel : nat) (h : handle) (buf : Z) : N (list Z + TcpError) :=
  start ← monotonic_ms;
  wait_loop fuel (read_round h buf) start IO_TIMEOUT_MS (inr Timeout).

Definition write_round (h : handle) (buf : list Z) : N (option (Z + TcpError)) :=
  _ ← poll;
  ready ← tcp_can_send h;
  if (ready : bool) then
    n ← tcp_send h buf;
    if 0 <? n then mret (Some (inl n)) else end_of_file h (inr Closed)
  else end_of_file h (inr Closed).
Definition write (fuel : nat) (h : handle) (buf : list Z) : N (Z + TcpError) :=
  start ← monotonic_ms;
  wait_loop fuel (write_round h buf) start IO_TIMEOUT_MS (inr Timeout).
Definition flush : N unit := poll.

(** ** Waiting on a calibrated clock *)
Variable C : Z.
Hypothesis cost_ok : forall n, 1 <= cost n <= C.
Variables b P : Z.
Hypothesis HP : 0 < P.

(** The clock is calibrated: [b] is the counter when it was, [P] its ticks a
    millisecond. *)
Definition clocked (s : NetStack) : Prop :=
  Timer.BOOT_TSC (clock s) = wrap64 b /\ Timer.TSC_PER_MS (clock s) = P /\ b <= Timer.tsc (clock s).
Definition at_clock (s : NetStack) : Z := Timer.tsc (clock s).

(** [s'] comes between 1 and [d] ticks after [s], on the same clock. *)
Definition after (s s' : NetStack) (d : Z) : Prop := clocked s' /\ at_clock s < at_clock s' <= at_clock s + d.

Lemma after_trans s s1 s2 d e : after s s1 d -> after s1 s2 e -> after s s2 (d + e).
Proof. unfold after. intros (_ & ?) (? & ?). split; [done|lia]. Qed.
Lemma after_more s s' d e : after s s' d -> d <= e -> after s s' e.
Proof. unfold after. intros (? & ?) ?. split; [done|lia]. Qed.

Lemma call_after {A} (f : sockets -> A * sockets) s : clocked s ->
  exists s', call f s = (Ok (fst (f (net s))), s') /\ net s' = snd (f (net s)) /\ after s s' C.
Proof.
  intros (Hb & Hp & Ht). unfold call. destruct (f (net s)) as [a n]. eexists. split; [reflexivity|]. split; [done|].
  pose proof (cost_ok (Timer.instrs (clock s))). unfold after, clocked, at_clock. cbn [clock Timer.tsc Timer.BOOT_TSC Timer.TSC_PER_MS Timer.tick snd] in *.
  split; [split; [done|split; [done|]]|]; lia.
Qed.
Lemma now_after s : clocked s -> at_clock s + C < b + 2 ^ 64 ->
  exists s', now s = (Ok ((at_clock s' - b) / P), s') /\ net s' = net s /\ after s s' C.
Proof.
  intros (Hb & Hp & Ht) Hmax. destruct (Timer.monotonic_ok cost C cost_ok (clock s) b Hb) as (t & i & Hrun & Hlt); [lia|done|done|].
  unfold now, monotonic_ms, on_clock, st_zoom. rewrite Hrun, Hp.
  exists (mkStack (Timer.at_time (clock s) t i) (net s) (EPHEMERAL_PORT s)). split; [done|]. split; [done|].
  unfold after, clocked, at_clock. cbn. split; [split; [done|split; [done|]]|]; lia.
Qed.

(** A round of at most [D] ticks. *)
Definition round_ok {A} (round : N (option A)) (D : Z) : Prop :=
  forall s, clocked s -> at_clock s + D < b + 2 ^ 64 -> exists r s', round s = (Ok r, s') /\ after s s' D.

(** How a wait that started at [ts] ends. *)
Definition waited {A} (round : N (option A)) (D ts timeout_ms : Z) (late a : A) (s' : NetStack) : Prop :=
  (exists s1, clocked s1 /\ at_clock s1 + D < b + 2 ^ 64 /\ round s1 = (Ok (Some a), s')) \/
  (a = late /\ timeout_ms * P < at_clock s' - ts /\ exists s1 s2, clocked s1 /\ at_clock s1 + D < b + 2 ^ 64 /\ round s1 = (Ok None, s2) /\ net s' = net s2).

Lemma wait_loop_ok {A} (round : N (option A)) D ts timeout_ms late : round_ok round D -> 0 <= D -> b <= ts -> 0 <= timeout_ms ->
  forall fuel s, clocked s -> ts <= at_clock s < ts + (timeout_ms + 1) * P ->
  ts + (timeout_ms + 1) * P + D + C < b + 2 ^ 64 -> ts + (timeout_ms + 1) * P < at_clock s + Z.of_nat fuel ->
  exists a s', wait_loop fuel round ((ts - b) / P) timeout_ms late s = (Ok a, s') /\
    after s s' (ts + (timeout_ms + 1) * P + D + C - at_clock s) /\ waited round D ts timeout_ms late a s'.
Proof.
  intros Hround HD Hts Hto. induction fuel as [|fuel IH]; intros s Hs Hnow Hroom Hfuel; [lia|].
  pose proof (proj1 (cost_ok 0)) as HC1. pose proof (proj2 (cost_ok 0)) as HC2.
  cbn [wait_loop]. destruct (Hround s Hs ltac:(lia)) as (r & s1 & Hr & Hs1). erewrite bind_step by exact Hr. destruct r as [a|].
  { exists a, s1. split; [done|]. split; [eapply after_more; [exact Hs1|lia]|]. left. exists s. split; [done|]. split; [lia|done]. }
  destruct Hs1 as [Hc1 Ht1]. destruct (now_after s1 Hc1 ltac:(lia)) as (s2 & Hn & Hnet & Hc2 & Ht2). erewrite bind_step by exact Hn.
  destruct (elapsed_ok b P ts (at_clock s2) timeout_ms HP ltac:(lia) ltac:(lia) Hto) as [Hlate Hearly]. cbn zeta.
  destruct (Z.ltb_spec timeout_ms ((at_clock s2 - b) / P ⊟ (ts - b) / P)) as [H|H].
  - specialize (Hlate H). clear Hearly H. exists late, s2. split; [done|]. split; [split; [done|]; lia|]. right. split; [done|].
    split; [done|]. exists s, s1. split; [done|]. split; [lia|done].
  - specialize (Hearly H). clear Hlate H. destruct (IH s2) as (a & s' & -> & Ha & Hw); [done|lia|lia|lia|].
    exists a, s'. split; [done|]. split; [|done]. unfold after in *. split; [tauto|]. lia.
Qed.

(** A whole wait, the first reading of the clock included. *)
Lemma wait_ok {A} (round : N (option A)) D fuel timeout_ms late s : round_ok round D -> 0 <= D -> 0 <= timeout_ms -> clocked s ->
  at_clock s + (timeout_ms + 1) * P + D + 2 * C < b + 2 ^ 64 -> (timeout_ms + 1) * P < Z.of_nat fuel ->
  exists a s' ts, (start ← now; wait_loop fuel round start timeout_ms late) s = (Ok a, s') /\
    clocked s' /\ at_clock s < ts /\ at_clock s < at_clock s' <= at_clock s + (timeout_ms + 1) * P + D + 2 * C /\
    waited round D ts timeout_ms late a s'.
Proof.
  intros Hround HD Hto Hs Hroom Hfuel. pose proof (proj1 (cost_ok 0)). pose proof (proj2 (cost_ok 0)).
  assert (0 <= (timeout_ms + 1) * P) by (apply Z.mul_nonneg_nonneg; lia).
  destruct (now_after s Hs ltac:(lia)) as (s0 & Hn & Hnet & Hs0 & Ht0). erewrite bind_step by exact Hn. pose proof Hs as (_ & _ & Hb).
  unfold at_clock in Hb. fold (at_clock s) in Hb.
  destruct (wait_loop_ok round D (at_clock s0) timeout_ms late Hround HD ltac:(lia) Hto fuel s0 Hs0) as (a & s' & -> & [Hc Ht] & Hw); [lia..|].
  exists a, s', (at_clock s0). split; [done|]. split; [done|]. split; [lia|]. split; [lia|done].
Qed.

Lemma poll_after s : clocked s -> at_clock s + C < b + 2 ^ 64 -> exists s', poll s = (Ok tt, s') /\ after s s' (2 * C).
Proof.
  intros Hs Hroom. unfold poll. destruct (now_after s Hs Hroom) as (s1 & Hn & _ & H1). erewrite bind_step by exact Hn.
  destruct (call_after (fun n => (tt, iface_poll ((at_clock s1 - b) / P) n)) s1 (proj1 H1)) as (s2 & -> & _ & H2).
  exists s2. split; [done|]. replace (2 * C) with (C + C) by lia. by eapply after_trans.
Qed.

(** A condition that takes at most [D] ticks. *)
Definition condition_ok (condition : N bool) (D : Z) : Prop :=
  forall s, clocked s -> exists r s', condition s = (Ok r, s') /\ after s s' D.
Lemma poll_round_ok condition D : condition_ok condition D -> 0 <= D -> round_ok (poll_round condition) (2 * C + D).
Proof.
  intros Hcond HD s Hs Hroom. pose proof (proj1 (cost_ok 0)). pose proof (proj2 (cost_ok 0)). unfold poll_round.
  destruct (poll_after s Hs ltac:(lia)) as (s1 & Hp & H1). erewrite bind_step by exact Hp.
  destruct (Hcond s1 (proj1 H1)) as (r & s2 & Hr & H2). erewrite bind_step by exact Hr.
  eexists _, s2. split; [reflexivity|]. by eapply after_trans.
Qed.
Lemma poll_round_inv condition r s s' : poll_round condition s = (Ok r, s') ->
  exists s1, condition s1 = (Ok (bool_decide (r = Some true)), s') /\ (r = None \/ r = Some true).
Proof.
  unfold poll_round, mbind, st_bind. destruct (poll s) as [[[]|e|] s1]; [|done..]. destruct (condition s1) as [[c|e|] s2] eqn:Hc; [|done..].
  unfold mret, st_ret. intros [= <- <-]. exists s1. destruct c; (split; [done|]); [by right|by left].
Qed.

Lemma end_of_file_ok {A} h (r : A) s : clocked s -> exists s', end_of_file h r s = (Ok (if is_active h (net s) then None else Some r), s') /\
  net s' = net s /\ after s s' C.
Proof.
  intros Hs. unfold end_of_file, tcp_is_active, ask. destruct (call_after (fun n => (is_active h n, n)) s Hs) as (s1 & Hc & Hn & H1).
  erewrite bind_step by exact Hc. exists s1. by split.
Qed.

(** What a round of [read] means. *)
Definition read_means (h : handle) (buf : Z) (r : option (list Z + TcpError)) (n : sockets) : Prop :=
  match r with
  | Some (inl (x :: l)) => exists n0, can_recv h n0 = true /\ recv_slice h buf n0 = (Some (x :: l), n)
  | Some (inl []) => is_active h n = false
  | Some (inr _) => False
  | None => is_active h n = true
  end.
Lemma read_round_spec h buf s : clocked s -> at_clock s + 5 * C < b + 2 ^ 64 ->
  exists r s', read_round h buf s = (Ok r, s') /\ after s s' (5 * C) /\ read_means h buf r (net s').
Proof.
  intros Hs Hroom. pose proof (proj1 (cost_ok 0)). pose proof (proj2 (cost_ok 0)). unfold read_round.
  destruct (poll_after s Hs ltac:(lia)) as (s1 & Hp & H1). erewrite bind_step by exact Hp. unfold tcp_can_recv, ask.
  destruct (call_after (fun n => (can_recv h n, n)) s1 (proj1 H1)) as (s2 & Hc & Hn2 & H2). erewrite bind_step by exact Hc. cbn [fst snd] in *.
  pose proof (after_trans _ _ _ _ _ H1 H2) as H12. destruct (can_recv h (net s1)) eqn:Hcan.
  - unfold tcp_recv. destruct (call_after (recv_slice h buf) s2 (proj1 H2)) as (s3 & Hr & Hn3 & H3).
    assert ((r ← call (recv_slice h buf); mret (default [] r)) s2 = (Ok (default [] (recv_slice h buf (net s2)).1), s3)) as Hd
      by (erewrite bind_step by exact Hr; done).
    erewrite bind_step by exact Hd. pose proof (after_trans _ _ _ _ _ H12 H3) as H13.
    destruct (recv_slice h buf (net s2)) as [[[|x l]|] n3] eqn:Hrecv; cbn [fst snd from_option id] in *.
    2: { rewrite (proj2 (Z.ltb_lt 0 (zlen (x :: l)))) by (unfold zlen; cbn [length]; lia). exists (Some (inl (x :: l))), s3. split; [done|].
         split; [eapply after_more; [exact H13|lia]|]. exists (net s2). rewrite Hn2, Hcan, <- Hn2, Hn3. by rewrite Hrecv. }
    all: change (0 <? zlen []) with false; cbv iota.
    all: destruct (end_of_file_ok h (inl [] : list Z + TcpError) s3 (proj1 H3)) as (s4 & -> & Hn4 & H4); exists (if is_active h (net s3) then None else Some (inl [])), s4;
      (split; [done|]); (split; [eapply after_more; [eapply after_trans; [exact H13|exact H4]|lia]|]); rewrite Hn4;
      destruct (is_active h (net s3)) eqn:Ha; exact Ha.
  - destruct (end_of_file_ok h (inl [] : list Z + TcpError) s2 (proj1 H2)) as (s4 & -> & Hn4 & H4); exists (if is_active h (net s2) then None else Some (inl [])), s4.
    split; [done|]. split; [eapply after_more; [eapply after_trans; [exact H12|exact H4]|lia]|]. rewrite Hn4.
    destruct (is_active h (net s2)) eqn:Ha; exact Ha.
Qed.

(** What a round of [write] means. *)
Definition write_means (h : handle) (buf : list Z) (r : option (Z + TcpError)) (n : sockets) : Prop :=
  match r with
  | Some (inl k) => exists n0, 0 < k /\ can_send h n0 = true /\ send_slice h buf n0 = (Some k, n)
  | Some (inr Closed) => is_active h n = false
  | Some (inr Timeout) => False
  | None => is_active h n = true
  end.
Lemma write_round_spec h buf s : clocked s -> at_clock s + 5 * C < b + 2 ^ 64 ->
  exists r s', write_round h buf s = (Ok r, s') /\ after s s' (5 * C) /\ write_means h buf r (net s').
Proof.
  intros Hs Hroom. pose proof (proj1 (cost_ok 0)). pose proof (proj2 (cost_ok 0)). unfold write_round.
  destruct (poll_after s Hs ltac:(lia)) as (s1 & Hp & H1). erewrite bind_step by exact Hp. unfold tcp_can_send, ask.
  destruct (call_after (fun n => (can_send h n, n)) s1 (proj1 H1)) as (s2 & Hc & Hn2 & H2). erewrite bind_step by exact Hc. cbn [fst snd] in *.
  pose proof (after_trans _ _ _ _ _ H1 H2) as H12. destruct (can_send h (net s1)) eqn:Hcan.
  - unfold tcp_send. destruct (call_after (send_slice h buf) s2 (proj1 H2)) as (s3 & Hr & Hn3 & H3).
    assert ((r ← call (send_slice h buf); mret (default 0 r)) s2 = (Ok (default 0 (send_slice h buf (net s2)).1), s3)) as Hd
      by (erewrite bind_step by exact Hr; done).
    erewrite bind_step by exact Hd. pose proof (after_trans _ _ _ _ _ H12 H3) as H13.
    destruct (send_slice h buf (net s2)) as [k n3] eqn:Hsend; cbn [fst snd] in *.
    destruct (Z.ltb_spec 0 (default 0 k)) as [Hk|Hk].
    { destruct k as [k|]; [|by apply Z.lt_irrefl in Hk]. cbn [from_option id] in *. exists (Some (inl k)), s3. split; [done|].
      split; [eapply after_more; [exact H13|lia]|]. exists (net s2). split; [done|]. rewrite Hn2, Hcan, <- Hn2, Hn3. by rewrite Hsend. }
    destruct (end_of_file_ok h (inr Closed : Z + TcpError) s3 (proj1 H3)) as (s4 & -> & Hn4 & H4). exists (if is_active h (net s3) then None else Some (inr Closed)), s4.
    split; [done|]. split; [eapply after_more; [eapply after_trans; [exact H13|exact H4]|lia]|]. rewrite Hn4.
    destruct (is_active h (net s3)) eqn:Ha; exact Ha.
  - destruct (end_of_file_ok h (inr Closed : Z + TcpError) s2 (proj1 H2)) as (s4 & -> & Hn4 & H4). exists (if is_active h (net s2) then None else Some (inr Closed)), s4.
    split; [done|]. split; [eapply after_more; [eapply after_trans; [exact H12|exact H4]|lia]|]. rewrite Hn4.
    destruct (is_active h (net s2)) eqn:Ha; exact Ha.
Qed.
End net.

(** ** Real time *)
Section real_time.
Variables (cost noise : nat -> Z) (C F : Z).
Hypothesis cost_ok : forall n, 1 <= cost n <= C.
Context {sockets handle : Type} {lib : Library sockets handle}.
Abbreviation N := (st (NetStack sockets) unit).
Abbreviation ticks s := (Timer.tsc (clock s)).

(** C38. No wait outlives its time.  Once the clock is calibrated, [poll_until],
    [TcpStream::read] and [TcpStream::write] return, whatever the network does.
    In real time, to the relative error of the clock, they return before the
    time given (30 s for the stream) plus a millisecond and one round.
    [poll_until] says true when the condition holds then, and says false only
    after the time given, when the condition did not hold in that round.
    [read] returns bytes the socket held, an end of file of a socket that is no
    longer active, or gives up after 30 s on an active one; [write] returns how
    many bytes the socket took, at least one, or the like errors. *)
Theorem net_waits_end fuelc m :
  let E := F / 10000 + 300 * C + 1000 in
  0 < F < 2 ^ 40 -> C < 2 ^ 30 -> E < F -> 0 <= Timer.port61 m < 4 -> 0 <= Timer.tsc m -> F <= 99 * Z.of_nat fuelc ->
  exists m', Timer.calibrate_tsc cost noise F fuelc m = (Ok tt, m') /\
  forall s, Timer.BOOT_TSC (clock s) = Timer.BOOT_TSC m' -> Timer.TSC_PER_MS (clock s) = Timer.TSC_PER_MS m' ->
    Timer.tsc m' <= ticks s ->
    (forall condition D timeout_ms fuel, condition_ok (Timer.tsc m') (Timer.TSC_PER_MS m') condition D -> 0 <= D -> 0 <= timeout_ms ->
       1000 * (ticks s - Timer.tsc m' + D + 4 * C) + (timeout_ms + 1) * (F + E) < 1000 * 2 ^ 64 ->
       (timeout_ms + 1) * (F + E) < 1000 * Z.of_nat fuel ->
       exists r s', poll_until cost fuel condition timeout_ms s = (Ok r, s') /\
         1000 * (ticks s' - ticks s) <= (timeout_ms + 1) * (F + E) + 1000 * (D + 4 * C) /\
         (exists s1 s2, condition s1 = (Ok r, s2) /\ net s2 = net s' /\ (r = true -> s2 = s')) /\
         (r = false -> timeout_ms * (F - E) < 1000 * (ticks s' - ticks s))) /\
    forall h fuel, 1000 * (ticks s - Timer.tsc m' + 7 * C) + 30001 * (F + E) < 1000 * 2 ^ 64 -> 30001 * (F + E) < 1000 * Z.of_nat fuel ->
      (forall buf, exists r s', read cost fuel h buf s = (Ok r, s') /\
         1000 * (ticks s' - ticks s) <= 30001 * (F + E) + 7000 * C /\
         match r with
         | inl (x :: l) => exists n, can_recv h n = true /\ recv_slice h buf n = (Some (x :: l), net s')
         | inl [] => is_active h (net s') = false
         | inr Timeout => is_active h (net s') = true /\ 30000 * (F - E) < 1000 * (ticks s' - ticks s)
         | inr Closed => False
         end) /\
      (forall buf, exists r s', write cost fuel h buf s = (Ok r, s') /\
         1000 * (ticks s' - ticks s) <= 30001 * (F + E) + 7000 * C /\
         match r with
         | inl k => exists n, 0 < k /\ can_send h n = true /\ send_slice h buf n = (Some k, net s')
         | inr Closed => is_active h (net s') = false
         | inr Timeout => is_active h (net s') = true /\ 30000 * (F - E) < 1000 * (ticks s' - ticks s)
         end).
Proof.
  intros E HF HC HE Hp Htsc Hfuel. pose proof (proj1 (cost_ok 0)) as HC1. pose proof (proj2 (cost_ok 0)) as HC2.
  destruct (Timer.calibrate_ok cost noise F C cost_ok fuelc m HF HC Hp Hfuel) as (m' & -> & Hlt & Hboot & Hper & Hfreq).
  exists m'. split; [done|]. intros s Hb2 Hp2 Ht2. set (b := Timer.tsc m') in *. set (P := Timer.TSC_PER_MS m') in *.
  assert (F - E <= 1000 * P <= F + E) as HP by (clear Hp2; unfold E in *; clearbody P E b; Z.div_mod_to_equations; lia).
  assert (0 < P) as HP0 by (clearbody E P; lia). clear Hper Hfreq Hfuel Hp. clearbody E.
  assert (clocked b P s) as Hs by (split; [by rewrite Hb2|done]).
  assert (forall t, 0 <= t -> t * (F - E) <= 1000 * (t * P) <= t * (F + E)) as Hscale.
  { intros t Ht. pose proof (Z.mul_le_mono_nonneg_l _ _ t Ht (proj1 HP)). pose proof (Z.mul_le_mono_nonneg_l _ _ t Ht (proj2 HP)). lia. }
  assert (forall A (round : N (option A)) D timeout_ms late fuel, round_ok b P round D -> 0 <= D -> 0 <= timeout_ms ->
    1000 * (ticks s - b + D + 2 * C) + (timeout_ms + 1) * (F + E) < 1000 * 2 ^ 64 -> (timeout_ms + 1) * (F + E) < 1000 * Z.of_nat fuel ->
    exists a s' ts, (start ← now cost; wait_loop cost fuel round start timeout_ms late) s = (Ok a, s') /\
      1000 * (ticks s' - ticks s) <= (timeout_ms + 1) * (F + E) + 1000 * (D + 2 * C) /\
      (timeout_ms * P < ticks s' - ts -> timeout_ms * (F - E) < 1000 * (ticks s' - ticks s)) /\
      waited b P round D ts timeout_ms late a s') as Hwait.
  { intros A round D timeout_ms late fuel Hr HD Hto Hroom Hf. pose proof (Hscale (timeout_ms + 1) ltac:(lia)). pose proof (Hscale timeout_ms Hto).
    destruct (wait_ok cost C cost_ok b P HP0 round D fuel timeout_ms late s Hr HD Hto Hs) as (a & s' & ts & Hrun & _ & Hts & Hend & Hw);
      unfold at_clock in *; [lia..|]. exists a, s', ts. split; [done|]. split; [lia|]. split; [lia|done]. }
  split; [|intros h fuel Hroom Hf; split; intros buf].
  - intros condition D timeout_ms fuel Hcond HD Hto Hroom Hf.
    destruct (Hwait bool (poll_round cost condition) (2 * C + D) timeout_ms false fuel) as (r & s' & ts & Hrun & Hend & Hlate & Hw);
      [by apply (poll_round_ok cost C cost_ok b P HP0)|lia..|].
    exists r, s'. split; [exact Hrun|]. split; [lia|]. destruct Hw as [(s1 & _ & _ & Hr)|(-> & Ht & s1 & s2 & _ & _ & Hr & Hn)];
      destruct (poll_round_inv cost condition _ _ _ Hr) as (s0 & Hc & Hor).
    + destruct Hor as [|[= ->]]; [done|]. split; [by exists s0, s'|done].
    + split; [exists s0, s2; by split|]. intros _. by apply Hlate.
  - destruct (Hwait _ (read_round cost h buf) (5 * C) IO_TIMEOUT_MS (inr Timeout) fuel)
      as (r & s' & ts & Hrun & Hend & Hlate & Hw); [|unfold IO_TIMEOUT_MS; lia..|].
    { intros s1 Hs1 Hr1. destruct (read_round_spec cost C cost_ok b P HP0 h buf s1 Hs1 Hr1)
        as (r & s2 & Hr & H2 & _). by exists r, s2. }
    exists r, s'. split; [exact Hrun|]. unfold IO_TIMEOUT_MS in *. split; [lia|].
    destruct Hw as [(s1 & Hs1 & Hr1 & Hr)|(-> & Ht & s1 & s2 & Hs1 & Hr1 & Hr & Hn)];
      destruct (read_round_spec cost C cost_ok b P HP0 h buf s1 Hs1 Hr1) as (r1 & s3 & Hr' & _ & Hm); rewrite Hr in Hr'; injection Hr' as <- <-.
    + destruct r as [[|x l]|[]]; cbn [read_means] in Hm; [done|done|by destruct Hm..].
    + rewrite Hn. split; [exact Hm|]. by apply Hlate.
  - destruct (Hwait _ (write_round cost h buf) (5 * C) IO_TIMEOUT_MS (inr Timeout) fuel)
      as (r & s' & ts & Hrun & Hend & Hlate & Hw); [|unfold IO_TIMEOUT_MS; lia..|].
    { intros s1 Hs1 Hr1. destruct (write_round_spec cost C cost_ok b P HP0 h buf s1 Hs1 Hr1) as (r & s2 & Hr & H2 & _). by exists r, s2. }
    exists r, s'. split; [exact Hrun|]. unfold IO_TIMEOUT_MS in *. split; [lia|].
    destruct Hw as [(s1 & Hs1 & Hr1 & Hr)|(-> & Ht & s1 & s2 & Hs1 & Hr1 & Hr & Hn)];
      destruct (write_round_spec cost C cost_ok b P HP0 h buf s1 Hs1 Hr1) as (r1 & s3 & Hr' & _ & Hm); rewrite Hr in Hr'; injection Hr' as <- <-.
    + destruct r as [k|[]]; cbn [write_means] in Hm; [done|done|by destruct Hm].
    + rewrite Hn. split; [exact Hm|]. by apply Hlate.
Qed.
End real_time.

(** A peer that has closed its side leaves the socket active with nothing to
    read ([is_active] stays true until both sides have closed): the stream does
    not see the end of file and gives up after 30 seconds. *)
Module Small.
#[export] Instance half_closed : Library unit unit := {|
  iface_poll := fun _ n => n; add_tcp := fun n => (tt, n); add_udp := fun n => (tt, n);
  connect := fun _ _ _ _ n => (true, n);
  is_active := fun _ _ => true; can_send := fun _ _ => true; can_recv := fun _ _ => false;
  send_slice := fun _ l n => (Some (zlen l), n); recv_slice := fun _ _ n => (None, n);
  close := fun _ n => n; remove := fun _ n => n; bind := fun _ _ n => (true, n);
  udp_send_slice := fun _ _ _ n => (true, n); udp_recv_slice := fun _ _ n => (None, n) |}.

Lemma net_waits_end_witness : exists m' s',
  Timer.calibrate_tsc Timer.Small.cost Timer.Small.noise 20000 203 Timer.Small.start = (Ok tt, m') /\
  read Timer.Small.cost (Z.to_nat 700000) tt 100 (mkStack m' tt 49152) = (Ok (inr Timeout), s') /\
  30000 * 18398 < 1000 * (Timer.tsc (clock s') - Timer.tsc m') <= 30001 * 21602 + 14000.
Proof.
  destruct (net_waits_end Timer.Small.cost Timer.Small.noise 2 20000 Timer.Small.cost_ok (lib := half_closed) 203 Timer.Small.start)
    as (m' & Hrun & Hlater); [vm_compute; intuition congruence..|].
  change (20000 / 10000 + 300 * 2 + 1000) with 1602 in Hlater. exists m'.
  destruct (Hlater (mkStack m' tt 49152) eq_refl eq_refl) as [_ Hstream]; cbn [clock] in *; [lia|].
  destruct (Hstream tt (Z.to_nat 700000)) as [Hread _]; [lia..|].
  destruct (Hread 100) as ([[|x l]|[]] & s' & Hr & Hend & H).
  - discriminate H.
  - destruct H as (n & Hcan & _). discriminate Hcan.
  - destruct H.
  - destruct H as [_ Hlate]. exists s'. split; [exact Hrun|]. split; [exact Hr|]. lia.
Defined.
End Small.
End Net.
