(* ===== verification/Rng.v ===== *)
(** * Random bytes ([crypto/mod.rs], [vfs/sqlite_vfs.rs], [sqlite/vfs_bridge.rs])

    The generator of the TLS connections and the [xRandomness] of the VFS.
    The [RDRAND] instruction is a sequence of draws, each a 64-bit value or a
    failure; the state is how many have been made. *)
From S2P Require Import Prelude.
From S2P Require Import Bytes.

Module Rng.

Section rng.
(** The [n]-th draw of the processor. *)
Variable draw : nat -> option Z.

(** ** The code *)
Definition instruction {E} : st nat E (option Z) := fun n => (Ok (draw n), S n).

Fixpoint draw_retry {E} (tries : nat) : st nat E (option Z) :=
  match tries with
  | O => mret None
  | S tries =>
      r ← instruction;
      match r with
      | Some val => mret (Some val)
      | None => draw_retry tries
      end
  end.
Definition rdrand64 {E} : st nat E (option Z) := draw_retry 32.
Definition expect {E A} (r : option A) : st nat E A := match r with Some a => mret a | None => st_panic end.

Definition next_u32 : st nat unit Z := r ← rdrand64; val ← expect r; mret (wrap32 val).
Definition next_u64 : st nat unit Z := r ← rdrand64; expect r.

(** The loop of [fill_bytes] and [try_fill_bytes] over [dest], from [offset]
    on: they differ in what a failure does. *)
Fixpoint fill_loop {E} (fuel : nat) (failed : out E Z) (dest : list Z) (offset : Z) : st nat E (list Z) :=
  if offset <? zlen dest then
    match fuel with
    | O => st_panic
    | S fuel =>
        r ← rdrand64;
        val ← st_lift (match r with Some val => Ok val | None => failed end);
        let bytes := le_bytes 8 val in
        let remaining := zlen dest - offset in
        let copy_len := Z.min remaining 8 in
        dest' ← st_lift (copy_into dest offset (offset + copy_len) (take (Z.to_nat copy_len) bytes));
        fill_loop fuel failed dest' (offset + copy_len)
    end
  else mret dest.
Definition fill_bytes (dest : list Z) : st nat unit (list Z) := fill_loop (length dest) Panic dest 0.
Definition try_fill_bytes (dest : list Z) : st nat unit (list Z) := fill_loop (length dest) (Err tt) dest 0.

(** [HeavenVfs::randomness]: the instruction is repeated until it succeeds.
    An error is a repetition that outlives its fuel. *)
Definition rdrand_u64 (fuel : nat) : st nat unit Z :=
  r ← draw_retry fuel;
  match r with Some val => mret val | None => st_err tt end.
Definition rdrand_u8 (fuel : nat) : st nat unit Z := val ← rdrand_u64 fuel; mret (Z.land val 0xFF).
Fixpoint randomness (fuel : nat) (buf : list Z) : st nat unit (list Z) :=
  match buf with
  | [] => mret []
  | _ :: buf => b ← rdrand_u8 fuel; rest ← randomness fuel buf; mret (b :: rest)
  end.
Definition heaven_randomness (fuel : nat) (nByte : Z) (zOut : list Z) : st nat unit (Z * list Z) :=
  out ← randomness fuel (take (Z.to_nat nByte) zOut);
  mret (nByte, out ++ drop (Z.to_nat nByte) zOut).

(** ** The values drawn *)
(** The values among [m] draws from the [n]-th on. *)
Definition drawn (n m : nat) : list Z := omap draw (seq n m).
Definition fails (n m : nat) : Prop := forall i, (n <= i < n + m)%nat -> draw i = None.

Lemma drawn_app n m k : drawn n (m + k) = drawn n m ++ drawn (n + m) k.
Proof. unfold drawn. by rewrite seq_app, omap_app. Qed.

Lemma draw_retry_ok {E} tries n :
  (exists v m, draw_retry (E := E) tries n = (Ok (Some v), n + m)%nat /\ (0 < m <= tries)%nat /\ drawn n m = [v]) \/
  (draw_retry (E := E) tries n = (Ok None, n + tries)%nat /\ fails n tries).
Proof.
  revert n. induction tries as [|tries IH]; intros n; cbn [draw_retry].
  - right. rewrite Nat.add_0_r. split; [done|]. intros i Hi. lia.
  - erewrite bind_step by reflexivity. destruct (draw n) as [v|] eqn:Hv.
    + left. exists v, 1%nat. rewrite Nat.add_1_r. split; [done|]. split; [lia|]. unfold drawn. cbn [seq omap list_omap]. by rewrite Hv.
    + destruct (IH (S n)) as [(v & m & -> & Hm & Hd)|[-> Hf]]; [left; exists v, (S m)|right]; rewrite <- Nat.add_succ_comm.
      * split; [done|]. split; [lia|]. unfold drawn in *. cbn [seq omap list_omap]. by rewrite Hv.
      * split; [done|]. intros i Hi. destruct (decide (i = n)) as [->|]; [done|]. apply Hf. lia.
Qed.

(** How many 8-byte values [k] bytes take. *)
Lemma words_of k : 0 < k -> (k + 7) / 8 = 1 + (Z.max 0 (k - 8) + 7) / 8.
Proof. intros Hk. Z.div_mod_to_equations. lia. Qed.

Lemma draws_fill_ok {E} (failed : out E Z) fuel pre rest n : (forall v, failed <> Ok v) -> (length rest <= fuel)%nat ->
  (exists m, fill_loop fuel failed (pre ++ rest) (zlen pre) n = (Ok (pre ++ take (length rest) (drawn n m ≫= le_bytes 8)), n + m)%nat /\
     zlen (drawn n m) = (zlen rest + 7) / 8) \/
  (exists m, fails (n + m) 32 /\ fill_loop fuel failed (pre ++ rest) (zlen pre) n = (failed ≫= (fun _ => Panic), n + m + 32)%nat).
Proof.
  intros Hfailed. revert pre rest n. induction fuel as [|fuel IH]; intros pre rest n Hfuel; cbn [fill_loop]; rewrite zlen_app.
  - destruct rest; [|cbn [length] in Hfuel; lia]. left. exists 0%nat. rewrite (proj2 (Z.ltb_ge _ _)) by (unfold zlen; cbn; lia).
    rewrite app_nil_r, Nat.add_0_r. split; [|done]. cbn [length take]. by rewrite app_nil_r.
  - destruct (Z.ltb_spec (zlen pre) (zlen pre + zlen rest)) as [Hlt|Hge].
    2: { destruct rest; [|unfold zlen in Hge; cbn [length] in Hge; lia]. left. exists 0%nat.
         rewrite app_nil_r, Nat.add_0_r. split; [|done]. cbn [length take]. by rewrite app_nil_r. }
    destruct (draw_retry_ok (E := E) 32 n) as [(v & m & Hr & Hm & Hd)|[Hr Hf]]; (erewrite bind_step by exact Hr); cycle 1.
    { right. exists 0%nat. rewrite Nat.add_0_r. split; [exact Hf|]. unfold mbind, st_bind, st_lift. by destruct failed as [v|e|]; [destruct (Hfailed v)|..]. }
    erewrite bind_step by reflexivity. set (c := Z.min (zlen pre + zlen rest - zlen pre) 8).
    assert (take (Z.to_nat c) (le_bytes 8 v) = take (length rest) (le_bytes 8 v)) as Htake.
    { unfold c, zlen. destruct (decide (length rest <= 8)%nat); [f_equal; lia|]. rewrite !take_ge; [done|rewrite length_le_bytes; lia..]. }
    assert (zlen (take (Z.to_nat c) (le_bytes 8 v)) = c) as Hc by (rewrite zlen_take, zlen_le_bytes; unfold c, zlen; lia).
    assert (st_lift (E := E) (copy_into (pre ++ rest) (zlen pre) (zlen pre + c) (take (Z.to_nat c) (le_bytes 8 v))) (n + m)%nat =
      (Ok ((pre ++ take (Z.to_nat c) (le_bytes 8 v)) ++ drop (Z.to_nat c) rest), n + m)%nat) as Hcopy.
    { unfold st_lift. pose proof (zlen_nonneg pre). rewrite copy_into_ok; [|unfold c; pose proof (zlen_nonneg rest); lia|rewrite zlen_app; unfold c; lia|lia].
      unfold splice. rewrite <- app_assoc. f_equal. f_equal.
      rewrite take_app_le by (unfold zlen; lia). rewrite take_ge by (unfold zlen; lia). f_equal. f_equal.
      unfold zlen in *. rewrite drop_app_ge by lia. f_equal. lia. }
    erewrite bind_step by exact Hcopy. clear Hcopy.
    replace (zlen pre + c) with (zlen (pre ++ take (Z.to_nat c) (le_bytes 8 v))) by (rewrite zlen_app; lia).
    assert (length (drop (Z.to_nat c) rest) <= fuel)%nat as Hf by (rewrite length_drop; unfold c, zlen in *; lia).
    destruct (IH (pre ++ take (Z.to_nat c) (le_bytes 8 v)) (drop (Z.to_nat c) rest) (n + m)%nat Hf) as [(k & -> & Hk)|(k & Hk & Hfail)].
    + left. exists (m + k)%nat. rewrite drawn_app, Hd, Nat.add_assoc. cbn [app]. rewrite bind_cons, zlen_cons, Hk. split.
      * f_equal. f_equal. rewrite <- app_assoc. f_equal. rewrite Htake, length_drop.
        rewrite take_app. f_equal. rewrite length_le_bytes. f_equal. unfold c, zlen. lia.
      * rewrite (words_of (zlen rest)) by lia. rewrite zlen_drop. do 3 f_equal. unfold c, zlen in *. lia.
    + right. exists (m + k)%nat. rewrite Nat.add_assoc. done.
Qed.

Lemma fill_ok {E} (failed : out E Z) dest n : (forall v, failed <> Ok v) ->
  (exists m, fill_loop (length dest) failed dest 0 n = (Ok (take (length dest) (drawn n m ≫= le_bytes 8)), n + m)%nat /\
     zlen (drawn n m) = (zlen dest + 7) / 8) \/
  (exists m, fails (n + m) 32 /\ fill_loop (length dest) failed dest 0 n = (failed ≫= (fun _ => Panic), n + m + 32)%nat).
Proof. intros Hf. exact (draws_fill_ok failed (length dest) [] dest n Hf (le_n _)). Qed.

(** A failure panics where the other loop returns an error. *)
Definition or_die {A} (r : out unit A * nat) : out unit A * nat := (match fst r with Ok a => Ok a | _ => Panic end, snd r).
Lemma fill_panics fuel dest off n : fill_loop fuel (Panic : out unit Z) dest off n = or_die (fill_loop fuel (Err tt) dest off n).
Proof.
  revert dest off n. induction fuel as [|fuel IH]; intros dest off n; cbn [fill_loop]; destruct (off <? zlen dest); try done.
  destruct (draw_retry_ok (E := unit) 32 n) as [(v & m & Hr & _)|[Hr _]];
    unfold mbind, st_bind, st_lift, rdrand64; rewrite Hr; [|done]. unfold copy_into. destruct (_ && _ && _); [apply IH|done].
Qed.

Lemma randomness_ok fuel buf n : (forall i, exists j, (j < fuel)%nat /\ draw (i + j) <> None) ->
  exists m, randomness fuel buf n = (Ok ((fun v => Z.land v 0xFF) <$> drawn n m), n + m)%nat /\ length (drawn n m) = length buf.
Proof.
  intros Hgood. revert n. induction buf as [|x buf IH]; intros n; cbn [randomness].
  - exists 0%nat. by rewrite Nat.add_0_r.
  - assert (exists v m, rdrand_u8 fuel n = (Ok (Z.land v 0xFF), n + m)%nat /\ drawn n m = [v]) as (v & m & Hr & Hd).
    { unfold rdrand_u8, rdrand_u64. destruct (draw_retry_ok (E := unit) fuel n) as [(v & m & Hr & _ & Hd)|[_ Hf]].
      - exists v, m. split; [|done]. erewrite (bind_step (_ ≫= _)); [|erewrite bind_step by exact Hr; reflexivity]. done.
      - destruct (Hgood n) as (j & Hj & Hno). destruct Hno. apply Hf. lia. }
    erewrite bind_step by exact Hr. destruct (IH (n + m)%nat) as (k & Hk & Hlen). erewrite bind_step by exact Hk.
    exists (m + k)%nat. rewrite drawn_app, Hd, Nat.add_assoc. cbn [app fmap list_fmap length]. by rewrite Hlen.
Qed.
End rng.

(** C39. Random bytes are the processor's, each used once.  Whatever the draws,
    filling [dest] succeeds with the little-endian bytes of the values drawn
    from then on, in order, as many values as it takes and none of them
    skipped or repeated, or it fails, and then after 32 failing draws in a
    row: [try_fill_bytes] with an error, [fill_bytes] by a panic; [next_u64]
    and [next_u32] return the next value and its low half, or panic likewise.
    The [xRandomness] of SQLite takes the low byte of one value per byte; it
    ends if the processor does not fail for ever. *)
Theorem rng_correct draw n dest :
  match try_fill_bytes draw dest n with
  | (Ok d, n') => exists m, n' = (n + m)%nat /\ d = take (length dest) (drawn draw n m ≫= le_bytes 8) /\
                   zlen (drawn draw n m) = (zlen dest + 7) / 8
  | (Err _, n') => exists m, n' = (n + m + 32)%nat /\ fails draw (n + m) 32
  | (Panic, _) => False
  end /\
  fill_bytes draw dest n = (match fst (try_fill_bytes draw dest n) with Ok d => Ok d | _ => Panic end, snd (try_fill_bytes draw dest n)) /\
  match next_u64 draw n with
  | (Ok v, n') => exists m, n' = (n + m)%nat /\ drawn draw n m = [v] /\ next_u32 draw n = (Ok (wrap32 v), n')
  | (Err _, _) => False
  | (Panic, n') => n' = (n + 32)%nat /\ fails draw n 32 /\ next_u32 draw n = (Panic, n')
  end /\
  forall fuel zOut, (forall i, exists j, (j < fuel)%nat /\ draw (i + j)%nat <> None) ->
    exists m, heaven_randomness draw fuel (zlen zOut) zOut n = (Ok (zlen zOut, (fun v => Z.land v 0xFF) <$> drawn draw n m), n + m)%nat /\
      zlen (drawn draw n m) = zlen zOut.
Proof.
  split; [|split; [|split]].
  - unfold try_fill_bytes. destruct (fill_ok draw (Err tt : out unit Z) dest n) as [(m & -> & Hm)|(m & Hf & ->)]; [done|by exists m|by exists m].
  - apply fill_panics.
  - unfold next_u64, next_u32. destruct (draw_retry_ok draw (E := unit) 32 n) as [(v & m & Hr & _ & Hd)|[Hr Hf]];
      unfold mbind, st_bind, rdrand64; rewrite Hr; cbn [expect].
    + exists m. split; [done|]. by split.
    + done.
  - intros fuel zOut Hgood. unfold heaven_randomness. rewrite take_ge, drop_ge by (unfold zlen; lia).
    destruct (randomness_ok draw fuel zOut n Hgood) as (m & Hr & Hlen). erewrite bind_step by exact Hr. exists m.
    rewrite app_nil_r. split; [done|]. unfold zlen. by rewrite Hlen.
Qed.

(** Every third draw fails. *)
Module Small.
Definition draw (n : nat) : option Z := if Nat.eqb (n mod 3) 0 then None else Some (0x0123456789ABCD00 + Z.of_nat n).
Lemma rng_correct_witness : exists m,
  heaven_randomness draw 2 3 [0; 0; 0] 6%nat = (Ok (3, [7; 8; 10]), (6 + m)%nat) /\
  fst (try_fill_bytes draw (replicate 11 0) 6%nat) = Ok [7; 0xCD; 0xAB; 0x89; 0x67; 0x45; 0x23; 0x01; 8; 0xCD; 0xAB].
Proof.
  destruct (rng_correct draw 6 (replicate 11 0)) as (_ & _ & _ & H).
  destruct (H 2%nat [0; 0; 0]) as (m & Hr & Hlen).
  - intros i. unfold draw. destruct (Nat.eqb_spec (i mod 3) 0) as [Hi|Hi].
    + exists 1%nat. split; [lia|]. rewrite Nat.Div0.add_mod, Hi. done.
    + exists 0%nat. split; [lia|]. rewrite Nat.add_0_r. by destruct (Nat.eqb_spec (i mod 3) 0).
  - exists m. split; [|vm_compute; reflexivity]. assert (heaven_randomness draw 2 3 [0; 0; 0] 6%nat = (Ok (3, [7; 8; 10]), 11%nat)) as Hc by (vm_compute; reflexivity).
    change (zlen [0; 0; 0]) with 3 in Hr. rewrite Hc in Hr. rewrite Hc. injection Hr as _ Hm. by rewrite <- Hm.
Defined.
End Small.
End Rng.
