(* ===== verification/LuaAlloc.v ===== *)
(** * Lua's memory ([lua/alloc.rs])

    [heaven_lua_alloc] is the allocation function of a Lua state: it counts
    what the state holds against a limit and passes the calls on to the kernel
    heap.  [lstep] runs Lua's calls, under Lua's contract, among those of the
    heap's other clients. *)
From S2P Require Import Prelude.
From S2P Require Import Bytes.
From S2P Require Import Bitmap.
From S2P Require Import Phys.
From S2P Require Import Mem.
From S2P Require Import Heap.

Module LuaAlloc.

Definition LUA_MEM_LIMIT : Z := 1024 * 1024.

Record LuaAllocState := mkState { used : Z; limit : Z }.

Definition new (limit : Z) : LuaAllocState := mkState 0 limit.

Section alloc.
Context (hhdm_offset : Z).

(** A call that leaves the accounting to the caller. *)
Definition on_heap {A} (m : st Heap.heap Empty_set A) : st (LuaAllocState * Heap.heap) Empty_set A :=
  st_zoom snd (fun h s => (s.1, h)) m.
Definition set_used (n : Z) : st (LuaAllocState * Heap.heap) Empty_set unit := fun s =>
  (Ok tt, (mkState n (limit s.1), s.2)).

Definition heaven_lua_alloc (ptr osize nsize : Z) : st (LuaAllocState * Heap.heap) Empty_set Z :=
  s ← st_get;
  let state := s.1 in
  if nsize =? 0 then
    if ptr =? 0 then mret 0
    else
      _ ← set_used (sat_sub (used state) osize);
      _ ← on_heap (Heap.heavenos_free hhdm_offset ptr);
      mret 0
  else if ptr =? 0 then
    if limit state <? used state ⊞ nsize then mret 0
    else
      p ← on_heap (Heap.heavenos_malloc hhdm_offset nsize);
      _ ← if p =? 0 then mret tt else set_used (used state ⊞ nsize);
      mret p
  else if (osize <? nsize) && (limit state <? used state ⊞ (nsize ⊟ osize)) then mret 0
  else
    p ← on_heap (Heap.heavenos_realloc hhdm_offset ptr nsize);
    _ ← if p =? 0 then mret tt else set_used (sat_sub (used state) osize ⊞ nsize);
    mret p.

End alloc.

(** ** A Lua state among the heap's clients

    [live] are all blocks of the heap, [mine] those of this Lua state with
    the sizes it asked for. *)
Record lsys := mkSys { acc : LuaAllocState; hp : Heap.heap; live : gset Z; mine : gmap Z Z }.

Definition total (m : gmap Z Z) : Z := map_fold (fun _ n acc => n + acc) 0 m.

(** Lua's contract: it passes a block it holds with the size it asked for. *)
Definition lawful (m : gmap Z Z) (ptr osize : Z) : Prop := ptr = 0 \/ m !! ptr = Some osize.

(** The blocks after a call that returned [p]. *)
Definition live_after (l : gset Z) (ptr nsize p : Z) : gset Z :=
  if nsize =? 0 then l ∖ {[ptr]} else if p =? 0 then l else {[p]} ∪ l ∖ {[ptr]}.
Definition mine_after (m : gmap Z Z) (ptr nsize p : Z) : gmap Z Z :=
  if nsize =? 0 then delete ptr m else if p =? 0 then m else <[p := nsize]> (delete ptr m).

Inductive lstep (hhdm : Z) : lsys -> lsys -> Prop :=
| LCall s ptr osize nsize p a h :
    lawful (mine s) ptr osize -> is_u64 nsize ->
    heaven_lua_alloc hhdm ptr osize nsize (acc s, hp s) = (Ok p, (a, h)) ->
    lstep hhdm s (mkSys a h (live_after (live s) ptr nsize p) (mine_after (mine s) ptr nsize p))
| LOther s h l :
    Heap.step hhdm (hp s, live s) (h, l) ->
    (forall p, p ∈ dom (mine s) -> p ∈ l /\
       same_at (Heap.memory (hp s)) (Heap.memory h) (p - 16) (16 + Heap.bsize (Heap.memory (hp s)) p)) ->
    lstep hhdm s (mkSys (acc s) h l (mine s)).

(** ** The invariant *)
Record linv (hhdm lim : Z) (s : lsys) : Prop := {
  l_heap : exists fr, Heap.inv hhdm (hp s) fr (live s);
  l_limit : limit (acc s) = lim;
  l_used : used (acc s) = total (mine s);
  l_bound : total (mine s) <= lim;
  l_mine : forall p n, mine s !! p = Some n ->
    p ∈ live s /\ 0 < n <= Heap.bsize (Heap.memory (hp s)) p;
}.

Lemma total_insert m p n : m !! p = None -> total (<[p := n]> m) = n + total m.
Proof. intros Hp. unfold total. apply map_fold_insert_L; [|done]. intros. lia. Qed.

Lemma total_delete m p n : m !! p = Some n -> total m = n + total (delete p m).
Proof.
  intros Hp. rewrite <- (insert_delete_id m p n Hp) at 1. apply total_insert, lookup_delete_eq.
Qed.

Lemma total_nonneg m : (forall p n, m !! p = Some n -> 0 < n) -> 0 <= total m.
Proof.
  induction m as [|p n m Hp IH] using map_ind; intros Hm; [done|].
  rewrite total_insert by done. assert (0 < n) by (apply (Hm p), lookup_insert_eq).
  assert (0 <= total m); [|lia]. apply IH. intros q k Hq. apply (Hm q). rewrite lookup_insert_ne; [done|congruence].
Qed.

Lemma total_after m ptr osize nsize p :
  lawful m ptr osize -> m !! 0 = None -> nsize <> 0 -> p <> 0 -> (delete ptr m) !! p = None ->
  total (mine_after m ptr nsize p) = total m - (if ptr =? 0 then 0 else osize) + nsize.
Proof.
  intros Hl H0 Hn Hp Hd. unfold mine_after. rewrite (proj2 (Z.eqb_neq nsize 0) Hn), (proj2 (Z.eqb_neq p 0) Hp).
  rewrite total_insert by done. destruct (Z.eqb_spec ptr 0) as [->|Hp0].
  - rewrite delete_id by done. lia.
  - destruct Hl as [|Hl]; [done|]. pose proof (total_delete m ptr osize Hl). lia.
Qed.

(** ** The heap's answers *)
Section spec.
Variables (hhdm lim : Z).
Hypothesis Hhdm : Heap.hhdm_ok hhdm.

Lemma block_small h fr l p : Heap.inv hhdm h fr l -> p ∈ l -> 16 < p /\ 8 <= Heap.bsize (Heap.memory h) p <= 2 ^ 33.
Proof.
  intros Hi Hp. destruct Hhdm as (H1 & H2 & H3). pose proof (Heap.inv_block _ _ _ _ Hi p (or_intror Hp)) as Hb.
  pose proof (Heap.block_size_bound hhdm H2 _ _ _ Hb). destruct (Heap.block_addr hhdm H1 H2 H3 _ _ _ Hb). split; [done|].
  destruct Hb as (Hge & Hsub & Hle & _).
  assert (Heap.first_page hhdm p + Heap.npages (Heap.memory h) p - 1 ∈ Phys.used_pages (Heap.pages h)) as Hu%elem_of_used.
  { apply Hsub, elem_of_zrange. unfold Heap.npages. lia. }
  pose proof Phys.MAX_PAGES_eq. unfold Heap.first_page in *. lia.
Qed.

Lemma huge_malloc h n : 2 ^ 63 - 8 < n -> Heap.heavenos_malloc hhdm n h = (Ok 0, h).
Proof.
  intros Hn. unfold Heap.heavenos_malloc, Heap.layout_ok. rewrite (proj2 (Z.eqb_neq n 0)), (proj2 (Z.leb_gt _ _)) by lia. done.
Qed.

Lemma huge_realloc h fr l p n : Heap.inv hhdm h fr l -> p ∈ l -> 2 ^ 63 - 8 < n -> Heap.heavenos_realloc hhdm p n h = (Ok 0, h).
Proof.
  intros Hi Hp Hn. destruct (block_small _ _ _ _ Hi Hp). unfold Heap.heavenos_realloc.
  rewrite (proj2 (Z.eqb_neq p 0)), (proj2 (Z.eqb_neq n 0)) by lia. unfold mbind, st_bind, st_get.
  change (Heap.header_size (Heap.memory h) (p - Heap.HEADER_SIZE)) with (Heap.bsize (Heap.memory h) p).
  rewrite (proj2 (Z.leb_gt _ _)) by lia. rewrite huge_malloc by done. done.
Qed.

Lemma small_realloc h fr l p n :
  Heap.inv hhdm h fr l -> p ∈ l -> 0 < n <= Heap.bsize (Heap.memory h) p -> Heap.heavenos_realloc hhdm p n h = (Ok p, h).
Proof.
  intros Hi Hp Hn. destruct (block_small _ _ _ _ Hi Hp). unfold Heap.heavenos_realloc.
  rewrite (proj2 (Z.eqb_neq p 0)), (proj2 (Z.eqb_neq n 0)) by lia. unfold mbind, st_bind, st_get.
  change (Heap.header_size (Heap.memory h) (p - Heap.HEADER_SIZE)) with (Heap.bsize (Heap.memory h) p).
  by rewrite (proj2 (Z.leb_le _ _)) by lia.
Qed.

Lemma load_prefix m m' p q n k : 0 <= k <= n -> load m' q n = load m p n -> load m' q k = load m p k.
Proof.
  intros Hk. replace n with (k + (n - k)) by lia. unfold load. rewrite !seqZ_app, !fmap_app by lia.
  intros H. apply app_inj_1 in H as [H _]; [done|]. by rewrite !length_fmap, !length_seqZ.
Qed.

Lemma linv_facts s : linv hhdm lim s -> mine s !! 0 = None /\ 0 <= total (mine s).
Proof.
  intros [[fr Hi] _ _ _ Hm]. split.
  - apply eq_None_not_Some. intros [n Hn]. destruct (Hm _ _ Hn) as [Hp _]. destruct (block_small _ _ _ _ Hi Hp). lia.
  - apply total_nonneg. intros p n Hp. destruct (Hm _ _ Hp) as [_ ?]. lia.
Qed.

Lemma linv_eta s : linv hhdm lim s -> linv hhdm lim (mkSys (acc s) (hp s) (live s) (mine s)).
Proof. by intros []. Qed.

(** What one call promises: [p] is the pointer it returns. *)
Definition promised (s : lsys) (ptr osize nsize p : Z) (a : LuaAllocState) (h : Heap.heap) : Prop :=
  let keep := if ptr =? 0 then 0 else osize in
  (nsize = 0 -> p = 0) /\
  (0 < nsize -> lim < total (mine s) - keep + nsize -> p = 0 /\ a = acc s /\ h = hp s) /\
  (ptr <> 0 -> 0 < nsize <= osize -> p = ptr) /\
  (p <> 0 -> p ∉ live s ∖ {[ptr]} /\
     (ptr <> 0 -> load (Heap.memory h) p (Z.min osize nsize) = load (Heap.memory (hp s)) ptr (Z.min osize nsize))) /\
  (forall q, q ∈ live s -> q <> ptr \/ (p = 0 /\ 0 < nsize) ->
     same_at (Heap.memory (hp s)) (Heap.memory h) (q - 16) (16 + Heap.bsize (Heap.memory (hp s)) q)).

(** A call that changes nothing. *)
Lemma refused s ptr osize nsize :
  linv hhdm lim s -> 0 < nsize ->
  (ptr = 0 \/ osize < nsize) ->
  linv hhdm lim (mkSys (acc s) (hp s) (live_after (live s) ptr nsize 0) (mine_after (mine s) ptr nsize 0)) /\
  promised s ptr osize nsize 0 (acc s) (hp s).
Proof.
  intros Hl Hn Ho. unfold live_after, mine_after. rewrite (proj2 (Z.eqb_neq nsize 0)) by lia. cbn [Z.eqb].
  split; [by apply linv_eta|]. unfold promised. split_and!; [done|done|lia|by intros|]. intros q _ _. apply same_at_refl.
Qed.

Lemma free_call s ptr osize :
  linv hhdm lim s -> lawful (mine s) ptr osize ->
  exists p a h, heaven_lua_alloc hhdm ptr osize 0 (acc s, hp s) = (Ok p, (a, h)) /\
    linv hhdm lim (mkSys a h (live_after (live s) ptr 0 p) (mine_after (mine s) ptr 0 p)) /\
    promised s ptr osize 0 p a h.
Proof.
  intros Hl Hlaw. destruct (linv_facts s Hl) as [H0 Hpos]. pose proof Hl as [[fr Hi] Hlim Hu Hb Hm].
  unfold heaven_lua_alloc, live_after, mine_after. cbn [Z.eqb]. destruct (Z.eqb_spec ptr 0) as [->|Hp0].
  - exists 0, (acc s), (hp s). split; [done|].
    assert (live s ∖ {[0]} = live s) as Hls.
    { apply set_eq. intros q. rewrite elem_of_difference, elem_of_singleton. split; [tauto|]. intros Hq. split; [done|].
      intros ->. destruct (block_small _ _ _ _ Hi Hq). lia. }
    rewrite Hls, delete_id by done. split; [by apply linv_eta|]. unfold promised. split_and!; [done|lia|lia|by intros|]. intros q _ _. apply same_at_refl.
  - destruct Hlaw as [|Hlaw]; [done|]. destruct (Hm _ _ Hlaw) as [Hlive Hsz]. destruct Hhdm as (G1 & G2 & G3).
    destruct (Heap.dealloc_ok hhdm G1 G2 G3 (hp s) fr (live s) ptr Hi Hlive) as (h & fr' & Hd & Hi' & Hs & _).
    pose proof (total_delete _ _ _ Hlaw) as Htd.
    assert (0 <= total (delete ptr (mine s))) as Hpos'.
    { apply total_nonneg. intros q k [_ Hq]%lookup_delete_Some. destruct (Hm _ _ Hq) as [_ ?]. lia. }
    exists 0, (mkState (sat_sub (used (acc s)) osize) (limit (acc s))), h. split.
    { unfold mbind, st_bind, st_get, set_used, on_heap, st_zoom, Heap.heavenos_free. cbn [fst snd].
      rewrite (proj2 (Z.eqb_neq ptr 0)), Hd by done. done. }
    split; [|unfold promised; split_and!; [done|lia|lia|by intros|]].
    + split; cbn [hp live acc mine used limit]; [by exists fr'|done|unfold sat_sub; lia|lia|].
      intros q k [Hq Hk]%lookup_delete_Some. destruct (Hm _ _ Hk) as [Hql Hqs].
      assert (q ∈ live s ∖ {[ptr]}) as Hq' by (apply elem_of_difference; split; [done|by rewrite elem_of_singleton]).
      split; [done|]. rewrite (Heap.bsize_same (Heap.memory (hp s))); [done|].
      eapply same_at_mono; [by apply Hs|lia|]. destruct (block_small _ _ _ _ Hi Hql). lia.
    + intros q Hq [Hne|[_ ?]]; [|lia]. apply Hs. apply elem_of_difference. by rewrite elem_of_singleton.
Qed.

Hypothesis Hlim : 0 <= lim <= 2 ^ 62.

(** The blocks of this state after a call that kept them all but [ptr]. *)
Lemma mine_kept s ptr nsize p h :
  linv hhdm lim s -> nsize <> 0 -> p <> 0 -> p ∉ live s ∖ {[ptr]} -> 0 < nsize <= Heap.bsize (Heap.memory h) p ->
  (forall q, q ∈ live s -> q <> ptr ->
     same_at (Heap.memory (hp s)) (Heap.memory h) (q - 16) (16 + Heap.bsize (Heap.memory (hp s)) q)) ->
  delete ptr (mine s) !! p = None /\
  forall q n, mine_after (mine s) ptr nsize p !! q = Some n ->
    q ∈ live_after (live s) ptr nsize p /\ 0 < n <= Heap.bsize (Heap.memory h) q.
Proof.
  intros [[fr Hi] _ _ _ Hm] Hn Hp Hnew Hsz Hs.
  assert (delete ptr (mine s) !! p = None) as Hd.
  { apply eq_None_not_Some. intros [k [Hne Hk]%lookup_delete_Some]. apply Hnew. destruct (Hm _ _ Hk) as [Hq _].
    apply elem_of_difference. rewrite elem_of_singleton. split; [done|congruence]. }
  split; [done|]. unfold mine_after, live_after. rewrite (proj2 (Z.eqb_neq nsize 0) Hn), (proj2 (Z.eqb_neq p 0) Hp).
  intros q n [[<- <-]|[Hne [Hne' Hq]%lookup_delete_Some]]%lookup_insert_Some.
  - split; [apply elem_of_union_l; by apply elem_of_singleton|done].
  - destruct (Hm _ _ Hq) as [Hql Hqs]. split.
    + apply elem_of_union_r, elem_of_difference. rewrite elem_of_singleton. split; [done|congruence].
    + rewrite (Heap.bsize_same (Heap.memory (hp s))); [done|]. eapply same_at_mono; [by apply Hs|lia|].
      destruct (block_small _ _ _ _ Hi Hql). lia.
Qed.

Lemma malloc_call s osize nsize :
  linv hhdm lim s -> 0 < nsize < 2 ^ 64 ->
  exists p a h, heaven_lua_alloc hhdm 0 osize nsize (acc s, hp s) = (Ok p, (a, h)) /\
    linv hhdm lim (mkSys a h (live_after (live s) 0 nsize p) (mine_after (mine s) 0 nsize p)) /\
    promised s 0 osize nsize p a h.
Proof.
  intros Hl Hn. destruct (linv_facts s Hl) as [H0 Hpos]. pose proof Hl as [[fr Hi] Hlm Hu Hb Hm].
  assert (live s ∖ {[0]} = live s) as Hls.
  { apply set_eq. intros q. rewrite elem_of_difference, elem_of_singleton. split; [tauto|]. intros Hq. split; [done|].
    intros ->. destruct (block_small _ _ _ _ Hi Hq). lia. }
  destruct (refused s 0 osize nsize Hl ltac:(lia) (or_introl eq_refl)) as [Hr1 Hr2].
  unfold heaven_lua_alloc, mbind, st_bind, st_get. cbn [fst Z.eqb]. rewrite (proj2 (Z.eqb_neq nsize 0)), Hlm, Hu by lia.
  destruct (Z.ltb_spec lim (total (mine s) ⊞ nsize)) as [Hover|Hfit]; [by exists 0, (acc s), (hp s)|].
  unfold on_heap, st_zoom. cbn [snd]. destruct (decide (2 ^ 63 - 8 < nsize)) as [Hhuge|Hsmall].
  { rewrite huge_malloc by done. by exists 0, (acc s), (hp s). }
  rewrite (wrap64_small (total (mine s) + nsize)) in Hfit by lia. destruct Hhdm as (G1 & G2 & G3).
  destruct (Heap.heavenos_malloc hhdm nsize (hp s)) as [r h] eqn:Hrun.
  pose proof (wp_eq _ _ _ _ _ (Heap.malloc_ok hhdm G1 G2 G3 (hp s) fr (live s) nsize Hi) Hrun) as Hpost.
  destruct r as [p|e|]; [|done|done].
  destruct Hpost as [(-> & Hmem & _ & fr' & Hi')|(Hp & Hnew & Hsz & _ & [fr' Hi'] & Hsame)].
  - exists 0, (acc s), h. split; [done|]. split.
    + unfold live_after, mine_after. rewrite (proj2 (Z.eqb_neq nsize 0)) by lia. cbn [Z.eqb].
      split; cbn [acc hp live mine]; [by exists fr'|done|done|done|]. intros q k Hq. rewrite Hmem. by apply Hm.
    + unfold promised. cbn [Z.eqb]. split_and!; [done|lia|done|done|]. intros q _ _. rewrite Hmem. apply same_at_refl.
  - rewrite (proj2 (Z.eqb_neq p 0) Hp). exists p, (mkState (total (mine s) + nsize) lim), h.
    split; [unfold set_used; cbn; rewrite Hlm; unwrap; done|].
    destruct (mine_kept s 0 nsize p h Hl ltac:(lia) Hp ltac:(by rewrite Hls) ltac:(lia)) as [Hd Hm']; [intros; by apply Hsame|].
    split.
    + pose proof (total_after (mine s) 0 osize nsize p (or_introl eq_refl) H0 ltac:(lia) Hp Hd) as Ht. cbn [Z.eqb] in Ht.
      split; cbn [acc hp live mine used limit]; [|done|lia|lia|exact Hm'].
      exists fr'. unfold live_after. rewrite (proj2 (Z.eqb_neq nsize 0)), (proj2 (Z.eqb_neq p 0) Hp), Hls by lia. done.
    + unfold promised. cbn [Z.eqb]. split_and!; [lia|lia|done|intros _; by rewrite Hls|]. intros q Hq _. by apply Hsame.
Qed.

Lemma realloc_call s ptr osize nsize :
  linv hhdm lim s -> mine s !! ptr = Some osize -> 0 < nsize < 2 ^ 64 ->
  exists p a h, heaven_lua_alloc hhdm ptr osize nsize (acc s, hp s) = (Ok p, (a, h)) /\
    linv hhdm lim (mkSys a h (live_after (live s) ptr nsize p) (mine_after (mine s) ptr nsize p)) /\
    promised s ptr osize nsize p a h.
Proof.
  intros Hl Hptr Hn. destruct (linv_facts s Hl) as [H0 Hpos]. pose proof Hl as [[fr Hi] Hlm Hu Hb Hm].
  destruct (Hm _ _ Hptr) as [Hlive Hos]. destruct (block_small _ _ _ _ Hi Hlive) as [Hp16 Hbs].
  assert (0 <= total (delete ptr (mine s))) as Hrest.
  { apply total_nonneg. intros q k [_ Hq]%lookup_delete_Some. destruct (Hm _ _ Hq) as [_ ?]. lia. }
  pose proof (total_delete _ _ _ Hptr) as Htd.
  unfold heaven_lua_alloc, mbind, st_bind, st_get. cbn [fst]. rewrite (proj2 (Z.eqb_neq nsize 0)), (proj2 (Z.eqb_neq ptr 0)), Hlm, Hu by lia.
  destruct ((osize <? nsize) && (lim <? total (mine s) ⊞ (nsize ⊟ osize))) eqn:Hover.
  { apply andb_true_iff in Hover as [H1%Z.ltb_lt H2%Z.ltb_lt].
    destruct (refused s ptr osize nsize Hl ltac:(lia) (or_intror H1)) as [Hr1 Hr2]. by exists 0, (acc s), (hp s). }
  unfold on_heap, st_zoom. cbn [snd]. destruct (decide (2 ^ 63 - 8 < nsize)) as [Hhuge|Hsmall].
  { destruct (refused s ptr osize nsize Hl ltac:(lia) ltac:(right; lia)) as [Hr1 Hr2].
    rewrite (huge_realloc _ _ _ _ _ Hi Hlive) by done. by exists 0, (acc s), (hp s). }
  assert (total (mine s) - osize + nsize <= lim) as Hfit.
  { apply andb_false_iff in Hover as [H%Z.ltb_ge|H%Z.ltb_ge]; [lia|].
    destruct (decide (nsize <= osize)); [lia|]. rewrite (wrap64_small (nsize - osize)), wrap64_small in H by lia. lia. }
  assert (sat_sub (total (mine s)) osize ⊞ nsize = total (mine s) - osize + nsize) as Hacc
    by (unfold sat_sub; rewrite Z.max_r by lia; by unwrap).
  assert (forall p h fr', p <> 0 -> p ∉ live s ∖ {[ptr]} -> nsize <= Heap.bsize (Heap.memory h) p ->
    Heap.inv hhdm h fr' ({[p]} ∪ live s ∖ {[ptr]}) ->
    (forall q, q ∈ live s -> q <> ptr -> same_at (Heap.memory (hp s)) (Heap.memory h) (q - 16) (16 + Heap.bsize (Heap.memory (hp s)) q)) ->
    load (Heap.memory h) p (Z.min osize nsize) = load (Heap.memory (hp s)) ptr (Z.min osize nsize) ->
    (nsize <= osize -> p = ptr) ->
    let a := mkState (total (mine s) - osize + nsize) lim in
    linv hhdm lim (mkSys a h (live_after (live s) ptr nsize p) (mine_after (mine s) ptr nsize p)) /\
    promised s ptr osize nsize p a h) as Hdone.
  { intros p h fr' Hp Hnew Hsz Hi' Hsame Hload Hshrink a.
    destruct (mine_kept s ptr nsize p h Hl ltac:(lia) Hp Hnew ltac:(lia) Hsame) as [Hd Hm'].
    pose proof (total_after (mine s) ptr osize nsize p (or_intror Hptr) H0 ltac:(lia) Hp Hd) as Ht.
    rewrite (proj2 (Z.eqb_neq ptr 0)) in Ht by lia. subst a. split.
    - split; cbn [acc hp live mine used limit]; [|done|lia|lia|exact Hm'].
      exists fr'. unfold live_after. rewrite (proj2 (Z.eqb_neq nsize 0)), (proj2 (Z.eqb_neq p 0) Hp) by lia. done.
    - unfold promised. rewrite (proj2 (Z.eqb_neq ptr 0)) by lia. split_and!; [lia|lia|intros _ ?; apply Hshrink; lia|done|].
      intros q Hq [Hne|[? _]]; [by apply Hsame|done]. }
  destruct (decide (nsize <= Heap.bsize (Heap.memory (hp s)) ptr)) as [Hin|Hout].
  { rewrite (small_realloc _ _ _ _ _ Hi Hlive), (proj2 (Z.eqb_neq ptr 0)) by lia.
    exists ptr. eexists _, (hp s). split; [unfold set_used; cbn [fst snd]; rewrite Hacc, Hlm; reflexivity|].
    apply (Hdone ptr (hp s) fr); [lia| |exact Hin| |intros; apply same_at_refl|done|done].
    - intros [_ H]%elem_of_difference. by apply H, elem_of_singleton.
    - replace ({[ptr]} ∪ live s ∖ {[ptr]}) with (live s); [done|]. apply union_difference_L. by intros j ->%elem_of_singleton. }
  destruct Hhdm as (G1 & G2 & G3). destruct (Heap.heavenos_realloc hhdm ptr nsize (hp s)) as [r h] eqn:Hrun.
  pose proof (wp_eq _ _ _ _ _ (Heap.realloc_ok hhdm G1 G2 G3 (hp s) fr (live s) ptr nsize Hi Hlive ltac:(lia)) Hrun) as Hpost.
  destruct r as [p|e|]; [|done|done].
  destruct Hpost as [(_ & _ & Hsz)|[(-> & [fr' Hi'] & Hsame)|(Hp & Hnew & Hsz & _ & Hload & [fr' Hi'] & Hsame)]]; [lia|..].
  - exists 0, (acc s), h. split; [done|]. split.
    + unfold live_after, mine_after. rewrite (proj2 (Z.eqb_neq nsize 0)) by lia. cbn [Z.eqb].
      split; cbn [acc hp live mine]; [by exists fr'|done|done|done|]. intros q k Hq. destruct (Hm _ _ Hq) as [Hql Hqs]. split; [done|].
      rewrite (Heap.bsize_same (Heap.memory (hp s))); [done|]. eapply same_at_mono; [by apply Hsame|lia|].
      destruct (block_small _ _ _ _ Hi Hql). lia.
    + unfold promised. rewrite (proj2 (Z.eqb_neq ptr 0)) by lia. split_and!; [done|lia|lia|done|]. intros q Hq _. by apply Hsame.
  - rewrite (proj2 (Z.eqb_neq p 0) Hp). exists p. eexists _, h. split; [unfold set_used; cbn [fst snd]; rewrite Hacc, Hlm; reflexivity|].
    apply (Hdone p h fr'); [done| |done|done| | |lia].
    + by intros [? _]%elem_of_difference.
    + intros q Hq Hne. apply Hsame. apply elem_of_difference. by rewrite elem_of_singleton.
    + eapply load_prefix; [|exact Hload]. lia.
Qed.

Lemma call_ok s ptr osize nsize :
  linv hhdm lim s -> lawful (mine s) ptr osize -> is_u64 nsize ->
  exists p a h, heaven_lua_alloc hhdm ptr osize nsize (acc s, hp s) = (Ok p, (a, h)) /\
    linv hhdm lim (mkSys a h (live_after (live s) ptr nsize p) (mine_after (mine s) ptr nsize p)) /\
    promised s ptr osize nsize p a h.
Proof.
  intros Hl Hlaw Hn. unfold is_u64 in Hn. destruct (decide (nsize = 0)) as [->|Hn0]; [by apply free_call|].
  destruct (decide (ptr = 0)) as [->|Hp0]; [apply malloc_call; [done|lia]|].
  destruct Hlaw as [|Hlaw]; [done|]. apply realloc_call; [done|done|lia].
Qed.

Lemma step_ok s s' : linv hhdm lim s -> lstep hhdm s s' -> linv hhdm lim s'.
Proof.
  intros Hl Hs. destruct Hs as [s ptr osize nsize p a h Hlaw Hn Hrun|s h l Hs Hmine].
  - destruct (call_ok s ptr osize nsize Hl Hlaw Hn) as (p' & a' & h' & Hrun' & Hl' & _). rewrite Hrun in Hrun'.
    by injection Hrun' as <- <- <-.
  - pose proof Hl as [[fr Hi] Hlm Hu Hb Hm]. destruct Hhdm as (G1 & G2 & G3).
    destruct (Heap.heap_step_inv hhdm G1 G2 G3 _ _ Hs) as [fr' Hi']; [by exists fr|]. cbn [fst snd] in Hi'.
    split; cbn [acc hp live mine]; [by exists fr'|done|done|done|]. intros q k Hq. destruct (Hm _ _ Hq) as [Hql Hqs].
    destruct (Hmine q) as [Hq' Hsame]; [by eapply elem_of_dom_2|]. split; [done|].
    rewrite (Heap.bsize_same (Heap.memory (hp s))); [done|]. eapply same_at_mono; [exact Hsame|lia|].
    destruct (block_small _ _ _ _ Hi Hql). lia.
Qed.

End spec.

(** C30. A Lua state never holds more than its limit.  Whatever calls it makes
    under Lua's contract, with any sizes, and whatever the heap's other
    clients do in between, the counter is the exact total of the sizes of the
    blocks it holds, at most the limit, and each of them is a live heap block
    large enough.  The next call frees, refuses what would exceed the limit
    without touching anything, never refuses to shrink, keeps the contents of
    a block it moves, and leaves every other block alone. *)
Theorem lua_alloc_bounded hhdm lim h fr live0 s :
  Heap.hhdm_ok hhdm -> 0 <= lim <= 2 ^ 62 -> Heap.inv hhdm h fr live0 ->
  rtc (lstep hhdm) (mkSys (new lim) h live0 ∅) s ->
  used (acc s) = total (mine s) /\ total (mine s) <= lim /\
  (forall p n, mine s !! p = Some n -> p ∈ live s /\ n <= Heap.heavenos_malloc_size p (hp s)) /\
  forall ptr osize nsize, lawful (mine s) ptr osize -> is_u64 nsize ->
    exists p a h, heaven_lua_alloc hhdm ptr osize nsize (acc s, hp s) = (Ok p, (a, h)) /\
      promised lim s ptr osize nsize p a h.
Proof.
  intros Hhdm Hlim Hi Hr.
  assert (linv hhdm lim s) as Hl.
  { assert (linv hhdm lim (mkSys (new lim) h live0 ∅)) as H0
      by (split; cbn [acc hp live mine]; [by exists fr|done|done|change (total ∅) with 0; lia|by intros ?? ?%lookup_empty_Some]).
    clear Hi. induction Hr as [s|s1 s2 s3 Hs _ IH]; [done|]. by apply IH, (step_ok hhdm lim Hhdm Hlim s1). }
  split; [apply (l_used _ _ _ Hl)|]. split; [apply (l_bound _ _ _ Hl)|]. split.
  - intros p n Hp. destruct (l_mine _ _ _ Hl p n Hp) as [Hp1 Hp2]. split; [done|].
    destruct (l_heap _ _ _ Hl) as [fr' Hi']. destruct (block_small hhdm Hhdm _ _ _ _ Hi' Hp1).
    unfold Heap.heavenos_malloc_size. rewrite (proj2 (Z.eqb_neq p 0)) by lia. by apply Hp2.
  - intros ptr osize nsize Hlaw Hn. destruct (call_ok hhdm lim Hhdm Hlim s ptr osize nsize Hl Hlaw Hn) as (p & a & h' & Hrun & _ & Hpr).
    by exists p, a, h'.
Qed.

(** A state with a limit of 1000 bytes asks for 600, then for 600 more. *)
Lemma lua_alloc_bounded_witness :
  exists p a h s, heaven_lua_alloc Heap.demo_hhdm 0 5 600 (new 1000, Heap.demo_heap) = (Ok p, (a, h)) /\ p <> 0 /\
    rtc (lstep Heap.demo_hhdm) (mkSys (new 1000) Heap.demo_heap ∅ ∅) s /\ mine s = {[p := 600]} /\ used (acc s) = 600 /\
    exists a' h', heaven_lua_alloc Heap.demo_hhdm 0 5 600 (acc s, hp s) = (Ok 0, (a', h')).
Proof.
  destruct (heaven_lua_alloc Heap.demo_hhdm 0 5 600 (new 1000, Heap.demo_heap)) as [[p|e|] [a h]] eqn:Hrun.
  2, 3: apply (f_equal (fun r => match r.1 with Ok _ => true | _ => false end)) in Hrun; vm_compute in Hrun; discriminate Hrun.
  assert (p <> 0) as Hp.
  { intros ->. apply (f_equal (fun r => match r.1 with Ok x => negb (x =? 0) | _ => false end)) in Hrun. vm_compute in Hrun. discriminate Hrun. }
  assert (Heap.hhdm_ok Heap.demo_hhdm) as Hh by (split_and!; [done|by exists (Heap.demo_hhdm / 4096)|done]).
  pose proof (Heap.init_inv Heap.demo_hhdm ∅ Phys.demo Phys.demo_wf) as Hi.
  pose proof (LCall Heap.demo_hhdm (mkSys (new 1000) Heap.demo_heap ∅ ∅) 0 5 600 p a h (or_introl eq_refl) ltac:(unfold is_u64; lia) Hrun) as Hstep.
  pose proof (rtc_once _ _ Hstep) as Hr.
  destruct (lua_alloc_bounded Heap.demo_hhdm 1000 Heap.demo_heap _ ∅ _ Hh ltac:(lia) Hi Hr) as (Hu & _ & _ & Hcall).
  cbn [acc hp live mine] in *. unfold mine_after in *. cbn [Z.eqb] in *. rewrite (proj2 (Z.eqb_neq p 0) Hp) in *.
  assert (total (<[p := 600]> (delete 0 (∅ : gmap Z Z))) = 600) as Ht by (rewrite delete_empty, total_insert by apply lookup_empty; reflexivity).
  rewrite Ht in Hu.
  exists p, a, h. eexists. split; [reflexivity|]. split; [exact Hp|]. split; [exact Hr|].
  split; [cbn [mine]; rewrite delete_empty; reflexivity|]. split; [exact Hu|].
  destruct (Hcall 0 5 600 (or_introl eq_refl) ltac:(unfold is_u64; lia)) as (q & a' & h' & Hq & _ & Hno & _).
  exists a', h'. cbn [acc hp]. rewrite Hq. destruct Hno as [-> _]; [lia|cbn [mine Z.eqb]; rewrite Ht; lia|reflexivity].
Defined.

End LuaAlloc.
