(* ===== verification/Lua.v ===== *)
(** * The functions Lua scripts call ([lua/builtins.rs])

    The interpreter is third-party code: [LuaApi] is the part of its C
    interface the functions use.  A call of the interface that runs out of
    memory, or runs a metamethod that fails, does not return: it leaves the
    function by a long jump ([LuaError]), and the destructors of the function
    do not run.  The locks held are therefore part of the state, and taking
    one that is held never ends ([Deadlock]). *)
From S2P Require Import Prelude.
From S2P Require Import Bytes.
From S2P Require Import Utf8.
From S2P Require Import Fmt.
From S2P Require Import Str.
From S2P Require Import Json.
From S2P Require Import Api.
From S2P Require Import ApiClient.
From S2P Require Import Dns.
From S2P Require Import Sqlite.
From S2P Require Import Agent.
From S2P Require Import AgentSpec.

Module Lua.
Export Utf8 Fmt.
Import Api.

Definition LUA_TNIL : Z := 0.
Definition LUA_TBOOLEAN : Z := 1.
Definition LUA_TNUMBER : Z := 3.
Definition LUA_TSTRING : Z := 4.
Definition LUA_TTABLE : Z := 5.
Definition LUA_REGISTRYINDEX : Z := - ((2 ^ 31 - 1) / 2 + 1000).
Definition MAX_SLEEP_MS : Z := 60000.
Definition ASK_MIN_INTERVAL_MS : Z := 10000.

(** A function that may long-jump returns [None] when it does.  Strings that
    C reads up to their terminator are given with the memory they are in. *)
Class LuaApi (L : Type) := {
  lua_gettop : L -> Z;
  lua_settop : Z -> L -> L;
  lua_pushnil : L -> L;
  lua_pushboolean : Z -> L -> L;
  lua_pushinteger : Z -> L -> L;
  lua_pushnumber : Json.f64 -> L -> L;
  lua_pushstring : list Z -> L -> option L;
  lua_pushlstring : list Z -> L -> option L;
  lua_createtable : Z -> Z -> L -> option L;
  lua_setfield : Z -> list Z -> L -> option L;
  lua_getfield : Z -> list Z -> L -> option L;
  lua_rawseti : Z -> Z -> L -> option L;
  lua_next : Z -> L -> option (Z * L);
  lua_tolstring : Z -> L -> option (option (list Z) * L);
  lua_toboolean : Z -> L -> Z;
  lua_tointegerx : Z -> L -> Z;
  lua_type : Z -> L -> Z;
}.

Inductive stop := LuaError | Deadlock.

(** [sqlite::DB], [net::NET_STACK] and [LAST_ASK_MS]. *)
Inductive lock := DB | NET_STACK | LAST_ASK_MS.
#[export] Instance lock_eq_dec : EqDecision lock.
Proof. solve_decision. Defined.

Record world (L W : Type) := mkWorld {
  lua : L;
  database : W;
  held : list lock;
  last_ask : Z;
  requests : list ClaudeRequest;
  cache : Dns.Cache;
  console : list Z;
}.
Arguments mkWorld {L W} _ _ _ _ _ _ _.
Arguments lua {L W} _.
Arguments database {L W} _.
Arguments held {L W} _.
Arguments last_ask {L W} _.
Arguments requests {L W} _.
Arguments cache {L W} _.
Arguments console {L W} _.

Section builtins.
Context {L W : Type} `{HL : LuaApi L} `{HE : Sqlite.Engine W}.
Variable f64_text : Json.f64 -> list Z.
Variable turns : nat.
(** The content of the static [DB]. *)
Variable guard : option Z.

Definition B (A : Type) : Type := st (world L W) stop A.

Definition set_lua (l : L) (w : world L W) : world L W :=
  mkWorld l (database w) (held w) (last_ask w) (requests w) (cache w) (console w).
Definition set_database (d : W) (w : world L W) : world L W :=
  mkWorld (lua w) d (held w) (last_ask w) (requests w) (cache w) (console w).
Definition set_held (h : list lock) (w : world L W) : world L W :=
  mkWorld (lua w) (database w) h (last_ask w) (requests w) (cache w) (console w).
Definition set_last_ask (t : Z) (w : world L W) : world L W :=
  mkWorld (lua w) (database w) (held w) t (requests w) (cache w) (console w).

(** ** Calls of the interpreter *)
Definition pure (f : L -> L) : B unit := fun w => (Ok tt, set_lua (f (lua w)) w).
Definition ask {A} (f : L -> A) : B A := fun w => (Ok (f (lua w)), w).
Definition jump (f : L -> option L) : B unit := fun w =>
  match f (lua w) with
  | Some l => (Ok tt, set_lua l w)
  | None => (Err LuaError, w)
  end.

Definition lua_to_str (idx : Z) : B (option (list Z)) := fun w =>
  match lua_tolstring idx (lua w) with
  | Some (s, l) => (Ok s, set_lua l w)
  | None => (Err LuaError, w)
  end.
Definition next (idx : Z) : B Z := fun w =>
  match lua_next idx (lua w) with
  | Some (r, l) => (Ok r, set_lua l w)
  | None => (Err LuaError, w)
  end.
Definition lua_pop (n : Z) : B unit := pure (lua_settop (- n - 1)).
Definition push_rust_string (s : list Z) : B unit := jump (lua_pushstring (s ++ [0])).
(** [lua_pushnil] and a message: the two results of a failure. *)
Definition fails (msg : string) : B Z :=
  _ ← pure lua_pushnil; _ ← jump (lua_pushstring (str msg ++ [0])); mret 2.
Definition fails_with (msg : list Z) : B Z :=
  _ ← pure lua_pushnil; _ ← push_rust_string msg; mret 2.

(** [core::str::from_utf8(b).ok()]. *)
Definition as_utf8 (b : option (list Z)) : option (list Z) :=
  b ← b; if is_utf8 b then Some b else None.

(** ** The database *)
Definition acquire (x : lock) : B unit := fun w =>
  if bool_decide (x ∈ held w) then (Err Deadlock, w) else (Ok tt, set_held (x :: held w) w).
Definition release (x : lock) : B unit := fun w => (Ok tt, set_held (filter (fun y => y <> x) (held w)) w).
(** [return a] with the guard still alive. *)
Definition leave {A} (x : lock) (a : A) : B A := _ ← release x; mret a.

Definition lock_db : B (option Z) := _ ← acquire DB; mret guard.
Definition drop_guard : B unit := release DB.
Definition on_db {A} (m : Sqlite.L A) : B (A + list Z) := fun w =>
  let '(r, d) := st_try m (database w) in (r, set_database d w).

Definition get_agent_name : B (list Z) :=
  _ ← jump (lua_getfield LUA_REGISTRYINDEX (str "_AGENT_NAME" ++ [0]));
  b ← lua_to_str (-1);
  let name := match b with Some b => from_utf8_lossy b | None => str "unknown" end in
  _ ← lua_pop 1;
  mret name.

Definition is_sql_restricted : B bool :=
  _ ← jump (lua_getfield LUA_REGISTRYINDEX (str "_SQL_READONLY" ++ [0]));
  restricted ← ask (lua_toboolean (-1));
  _ ← lua_pop 1;
  mret (negb (restricted =? 0)).

Definition set_sql_readonly (readonly : bool) : B unit :=
  _ ← pure (lua_pushboolean (if readonly then 1 else 0));
  jump (lua_setfield LUA_REGISTRYINDEX (str "_SQL_READONLY" ++ [0])).

Definition audit_query (agent action target : list Z) : list Z :=
  str "INSERT INTO audit (agent, action, target) VALUES ('" ++ Agent.sql_escape agent ++ str "', '" ++
  Agent.sql_escape action ++ str "', '" ++ Agent.sql_escape target ++ str "')".
Definition audit_row_query (level agent action detail : list Z) : list Z :=
  str "INSERT INTO audit (level, agent, action, detail) VALUES ('" ++ Agent.sql_escape level ++ str "', '" ++
  Agent.sql_escape agent ++ str "', '" ++ Agent.sql_escape action ++ str "', '" ++ Agent.sql_escape detail ++ str "')".

(** [if let Some(db) = DB.lock().as_ref() { let _ = db.exec(&query); }]. *)
Definition exec_quietly (query : list Z) : B unit :=
  db ← lock_db;
  _ ← match db with
      | Some db => _ ← on_db (Sqlite.exec db query); mret tt
      | None => mret tt
      end;
  drop_guard.

Definition audit_log (action target : list Z) : B unit :=
  agent ← get_agent_name;
  exec_quietly (audit_query agent action target).

(** ** sql *)
Definition push_sql_value (v : Sqlite.SqlValue) : B unit :=
  match v with
  | Sqlite.SqlNull => pure lua_pushnil
  | Sqlite.SqlInteger n => pure (lua_pushinteger n)
  | Sqlite.SqlReal n => pure (lua_pushnumber n)
  | Sqlite.SqlText s => jump (lua_pushlstring s)
  end.

Definition set_cell (columns : list (list Z)) (col_idx : nat) (v : Sqlite.SqlValue) : B unit :=
  _ ← push_sql_value v;
  match columns !! col_idx with
  | Some name => jump (lua_setfield (-2) (name ++ [0]))
  | None => mret tt
  end.

Definition set_row (columns : list (list Z)) (row_idx : nat) (row : list Sqlite.SqlValue) : B unit :=
  _ ← jump (lua_createtable 0 (zlen columns));
  _ ← st_for (fun '(i, v) => set_cell columns i v) (imap pair row);
  jump (lua_rawseti (-2) (Z.of_nat row_idx + 1)).

Definition allowed (query : list Z) : bool :=
  let trimmed := Str.trim_start query in
  Agent.starts_with_ic trimmed (str "SELECT") || Agent.starts_with_ic trimmed (str "EXPLAIN") ||
  Agent.starts_with_ic trimmed (str "PRAGMA").

Definition run_sql (query : list Z) : B Z :=
  db ← lock_db;
  match db with
  | None => n ← fails "database not open"; leave DB n
  | Some db =>
      r ← on_db (Sqlite.query turns db query);
      match r with
      | inl result =>
          if bool_decide (Sqlite.columns result = []) then
            _ ← drop_guard;
            _ ← audit_log (str "SQL_EXEC") query;
            _ ← pure (lua_pushboolean 1);
            mret 1
          else
            _ ← jump (lua_createtable (zlen (Sqlite.rows result)) 0);
            _ ← st_for (fun '(i, row) => set_row (Sqlite.columns result) i row) (imap pair (Sqlite.rows result));
            _ ← drop_guard;
            _ ← audit_log (str "SQL_EXEC") query;
            mret 1
      | inr e =>
          _ ← drop_guard;
          fails_with e
      end
  end.

Definition lua_sql : B Z :=
  b ← lua_to_str 1;
  match b with
  | None => fails "sql() requires a string argument"
  | Some b =>
      if is_utf8 b then
        restricted ← is_sql_restricted;
        if restricted && negb (allowed b) then fails "sql() is read-only for agents"
        else run_sql b
      else fails "invalid UTF-8 in query"
  end.

(** ** read, write, ls *)
Definition push_nil_one : B Z := _ ← pure lua_pushnil; mret 1.

Definition lua_read : B Z :=
  b ← lua_to_str 1;
  match as_utf8 b with
  | None => push_nil_one
  | Some path =>
      db ← lock_db;
      match db with
      | None => n ← push_nil_one; leave DB n
      | Some db =>
          r ← on_db (Sqlite.query_value f64_text turns db (Agent.read_query path));
          match r with
          | inl (Some content) =>
              _ ← jump (lua_pushlstring content);
              _ ← drop_guard;
              _ ← audit_log (str "FILE_READ") path;
              mret 1
          | _ => n ← push_nil_one; leave DB n
          end
      end
  end.

Definition push_flag (b : bool) : B Z := _ ← pure (lua_pushboolean (if b then 1 else 0)); mret 1.

Definition lua_write : B Z :=
  b ← lua_to_str 1;
  match as_utf8 b with
  | None => push_flag false
  | Some path =>
      b ← lua_to_str 2;
      match as_utf8 b with
      | None => push_flag false
      | Some data =>
          db ← lock_db;
          match db with
          | None => n ← push_flag false; leave DB n
          | Some db =>
              r ← on_db (Sqlite.exec db (Agent.write_query path data));
              _ ← drop_guard;
              _ ← audit_log (str "FILE_WRITE") path;
              push_flag (match r with inl _ => true | inr _ => false end)
          end
      end
  end.

Definition lua_ls : B Z :=
  b ← lua_to_str 1;
  let path := default (str "/") (as_utf8 b) in
  db ← lock_db;
  match db with
  | None => _ ← jump (lua_createtable 0 0); leave DB 1
  | Some db =>
      let prefix := if Agent.ends_with_slash path then path else path ++ str "/" in
      r ← on_db (Sqlite.query_column f64_text turns db (Agent.list_query prefix));
      match r with
      | inl paths =>
          _ ← jump (lua_createtable (zlen paths) 0);
          _ ← st_for (fun '(i, p) => _ ← jump (lua_pushlstring p); jump (lua_rawseti (-2) (Z.of_nat i + 1)))
                (imap pair paths);
          leave DB 1
      | inr _ => _ ← jump (lua_createtable 0 0); leave DB 1
      end
  end.

(** ** log, sleep, now, audit *)
Definition print (s : list Z) : B unit := fun w =>
  (Ok tt, mkWorld (lua w) (database w) (held w) (last_ask w) (requests w) (cache w) (console w ++ s)).

Definition type_name (t : Z) : list Z :=
  if t =? LUA_TNIL then str "nil"
  else if t =? LUA_TBOOLEAN then str "boolean"
  else if t =? LUA_TNUMBER then str "number"
  else if t =? LUA_TSTRING then str "string"
  else if t =? LUA_TTABLE then str "table"
  else str "other".

Definition log_arg (i : Z) : B unit :=
  _ ← (if 1 <? i then print [9] else mret tt);
  b ← lua_to_str i;
  match b with
  | Some bytes => if is_utf8 bytes then print bytes else mret tt
  | None =>
      t ← ask (lua_type i);
      if t =? LUA_TNIL then print (str "nil")
      else if t =? LUA_TBOOLEAN then
        b ← ask (lua_toboolean i);
        print (if negb (b =? 0) then str "true" else str "false")
      else print (str "(" ++ type_name t ++ str " value)")
  end.

Definition lua_log : B Z :=
  nargs ← ask lua_gettop;
  _ ← st_for log_arg (seqZ 1 nargs);
  _ ← print [10];
  mret 0.

(** The time waited, in microseconds. *)
Definition lua_sleep : B (Z * Z) :=
  ms ← ask (lua_tointegerx 1);
  mret (0, if 0 <? ms then (if MAX_SLEEP_MS <? ms then MAX_SLEEP_MS else ms) * 1000 else 0).

Definition wrap_i64 (z : Z) : Z := (z + 2 ^ 63) mod 2 ^ 64 - 2 ^ 63.

Definition lua_now (monotonic_ms : Z) : B Z :=
  _ ← pure (lua_pushinteger (wrap_i64 monotonic_ms)); mret 1.

Definition lua_audit : B Z :=
  b ← lua_to_str 1; let level := default (str "INFO") (as_utf8 b) in
  b ← lua_to_str 2; let action := default [] (as_utf8 b) in
  b ← lua_to_str 3; let detail := default [] (as_utf8 b) in
  agent ← get_agent_name;
  _ ← exec_quietly (audit_row_query level agent action detail);
  mret 0.

(** ** ask *)
(** The entry on the top of the stack, as a message. *)
Definition parse_message : B Message :=
  msg_idx ← ask lua_gettop;
  _ ← jump (lua_getfield msg_idx (str "role" ++ [0]));
  b ← lua_to_str (-1); let role := default (str "user") (as_utf8 b) in
  _ ← lua_pop 1;
  _ ← jump (lua_getfield msg_idx (str "content" ++ [0]));
  b ← lua_to_str (-1); let content := default [] (as_utf8 b) in
  _ ← lua_pop 1;
  let static_role := if bool_decide (role = str "assistant") then str "assistant" else str "user" in
  mret (text_message static_role content).

(** [while lua_next(..) != 0]: with fewer turns than the table has entries
    the call has not returned. *)
Fixpoint messages_loop (n : nat) (table_idx : Z) (messages : list Message) : B (list Message) :=
  match n with
  | O => st_panic
  | S n =>
      more ← next table_idx;
      if more =? 0 then mret messages
      else
        t ← ask (lua_type (-1));
        messages ← (if t =? LUA_TTABLE then m ← parse_message; mret (messages ++ [m]) else mret messages);
        _ ← lua_pop 1;
        messages_loop n table_idx messages
  end.

Definition parse_messages_table (table_idx : Z) : B (list Message) :=
  _ ← pure lua_pushnil; messages_loop turns table_idx [].

(** The system text and the messages, or the message of a failure. *)
Definition parse_prompt : B (option (list Z) * list Message + string) :=
  arg_type ← ask (lua_type 1);
  if arg_type =? LUA_TSTRING then
    b ← lua_to_str 1;
    mret (match b with
          | Some b => if is_utf8 b then inl (None, [text_message (str "user") b]) else inr "invalid UTF-8 in prompt"%string
          | None => inr "ask() requires a string or table argument"%string
          end)
  else if arg_type =? LUA_TTABLE then
    _ ← jump (lua_getfield 1 (str "system" ++ [0]));
    t ← ask (lua_type (-1));
    system ← (if t =? LUA_TNIL then mret None else b ← lua_to_str (-1); mret (as_utf8 b));
    _ ← lua_pop 1;
    _ ← jump (lua_getfield 1 (str "messages" ++ [0]));
    t ← ask (lua_type (-1));
    messages ← (if t =? LUA_TTABLE then idx ← ask lua_gettop; parse_messages_table idx else mret []);
    _ ← lua_pop 1;
    mret (if bool_decide (messages = []) then inr "ask() table must contain 'messages' array"%string
          else inl (system, messages))
  else mret (inr "ask() requires a string or table argument"%string).

(** What the network answers may depend on the requests so far. *)
Definition send (network : list ClaudeRequest -> nat -> ApiClient.session) (req : ClaudeRequest) : B (list Z + ApiError) := fun w =>
  let log := requests w ++ [req] in
  let w' := mkWorld (lua w) (database w) (held w) (last_ask w) log (cache w) (console w) in
  match fst (ApiClient.claude_request_multi req (network log)) with
  | Ok text => (Ok (inl text), w')
  | Err e => (Ok (inr e), w')
  | Panic => (Panic, w')
  end.

(** [None]: the resolver's session ends before it answers. *)
Definition resolve (s : Dns.session) : B (list Z + Dns.DnsError) := fun w =>
  match Dns.resolve_a s (str "api.anthropic.com") (cache w) with
  | None | Some (Panic, _) => (Panic, w)
  | Some (r, c) =>
      (Ok (match r with Ok ip => inl ip | Err e => inr e | Panic => inl [] end),
       mkWorld (lua w) (database w) (held w) (last_ask w) (requests w) c (console w))
  end.

Definition lua_ask (now_ms : Z) (API_KEY MODEL : option (list Z)) (net : bool) (s : Dns.session)
    (network : list ClaudeRequest -> nat -> ApiClient.session) : B Z :=
  _ ← acquire LAST_ASK_MS;
  w ← st_get;
  if now_ms ⊟ last_ask w <? ASK_MIN_INTERVAL_MS then
    n ← fails_with (str "ask() rate limited (10s between calls)"); leave LAST_ASK_MS n
  else
    _ ← st_put (set_last_ask now_ms w);
    _ ← release LAST_ASK_MS;
    match API_KEY with
    | None => fails_with (str "API key not set")
    | Some api_key =>
        p ← parse_prompt;
        match p with
        | inr msg => fails_with (str msg)
        | inl (system, messages) =>
            _ ← acquire NET_STACK;
            if negb net then n ← fails_with (str "network stack not initialized"); leave NET_STACK n
            else
              ip ← resolve s;
              match ip with
              | inr e => n ← fails_with (str "DNS resolution failed: " ++ Dns.display e); leave NET_STACK n
              | inl ip =>
                  let base := direct_tls (Agent.ip_of ip) in
                  let config := mkConfig api_key (target_ip base) (target_port base) (Agent.get_model MODEL) (use_tls base) in
                  r ← send network (mkRequest config system messages false);
                  _ ← release NET_STACK;
                  match r with
                  | inl text =>
                      _ ← audit_log (str "API_CALL") (str "ask()");
                      _ ← jump (lua_pushlstring text);
                      mret 1
                  | inr e => fails_with (Agent.api_error_text e)
                  end
              end
        end
    end.
End builtins.

(** ** What the functions rely on

    The interpreter as its reference manual describes it: a stack of values
    per call, tables by identity, the registry.  [tables] has the tables
    without a metatable. *)
Inductive value :=
| VNil
| VBoolean (b : bool)
| VInteger (n : Z)
| VNumber (x : Json.f64)
| VString (s : list Z)
| VTable (id : Z)
| VOther (t : Z).
Abbreviation key := (Z + list Z)%type.
Abbreviation table := (gmap key value).

Definition assign (k : key) (v : value) (t : table) : table :=
  match v with VNil => delete k t | _ => <[k := v]> t end.
Definition is_number (v : value) : bool := match v with VInteger _ | VNumber _ => true | _ => false end.
Definition type_of (v : option value) : Z :=
  match v with
  | None => -1
  | Some VNil => 0
  | Some (VBoolean _) => 1
  | Some (VInteger _) | Some (VNumber _) => 3
  | Some (VString _) => 4
  | Some (VTable _) => 5
  | Some (VOther t) => t
  end.
Definition truth (v : option value) : bool :=
  match v with None | Some VNil | Some (VBoolean false) => false | _ => true end.
(** The place of an index in a stack of [n] values. *)
Definition place (n : nat) (i : Z) : nat := Z.to_nat (if 0 <? i then i - 1 else Z.of_nat n + i).
Definition at_index (s : list value) (i : Z) : option value := s !! place (length s) i.

Class LuaSpec (L : Type) `{LuaApi L} := {
  stack : L -> list value;
  tables : L -> gmap Z table;
  registry : L -> list Z -> value;
  gettop_law l : lua_gettop l = zlen (stack l);
  pop_law l n : 0 <= n <= zlen (stack l) ->
    let l' := lua_settop (- n - 1) l in
    stack l' = take (length (stack l) - Z.to_nat n) (stack l) /\ tables l' = tables l /\ registry l' = registry l;
  pushnil_law l : let l' := lua_pushnil l in
    stack l' = stack l ++ [VNil] /\ tables l' = tables l /\ registry l' = registry l;
  pushboolean_law b l : let l' := lua_pushboolean b l in
    stack l' = stack l ++ [VBoolean (negb (b =? 0))] /\ tables l' = tables l /\ registry l' = registry l;
  pushinteger_law n l : let l' := lua_pushinteger n l in
    stack l' = stack l ++ [VInteger n] /\ tables l' = tables l /\ registry l' = registry l;
  pushnumber_law x l : let l' := lua_pushnumber x l in
    stack l' = stack l ++ [VNumber x] /\ tables l' = tables l /\ registry l' = registry l;
  pushlstring_law s l l' : lua_pushlstring s l = Some l' ->
    stack l' = stack l ++ [VString s] /\ tables l' = tables l /\ registry l' = registry l;
  pushstring_law p l l' : lua_pushstring p l = Some l' ->
    stack l' = stack l ++ [VString (Sqlite.c_text p)] /\ tables l' = tables l /\ registry l' = registry l;
  createtable_law a r l l' : lua_createtable a r l = Some l' ->
    exists id, tables l !! id = None /\ stack l' = stack l ++ [VTable id] /\
      tables l' = <[id := ∅]> (tables l) /\ registry l' = registry l;
  setfield_law k l l' s id v t : lua_setfield (-2) k l = Some l' ->
    stack l = s ++ [VTable id; v] -> tables l !! id = Some t ->
    stack l' = s ++ [VTable id] /\ tables l' = <[id := assign (inr (Sqlite.c_text k)) v t]> (tables l) /\
    registry l' = registry l;
  rawseti_law n l l' s id v t : lua_rawseti (-2) n l = Some l' ->
    stack l = s ++ [VTable id; v] -> tables l !! id = Some t ->
    stack l' = s ++ [VTable id] /\ tables l' = <[id := assign (inl n) v t]> (tables l) /\ registry l' = registry l;
  registry_law k l l' : lua_getfield LUA_REGISTRYINDEX k l = Some l' ->
    stack l' = stack l ++ [registry l (Sqlite.c_text k)] /\ tables l' = tables l /\ registry l' = registry l;
  tolstring_law i l s l' : lua_tolstring i l = Some (s, l') ->
    tables l' = tables l /\ registry l' = registry l /\
    match at_index (stack l) i with
    | Some (VString b) => s = Some b /\ stack l' = stack l
    | Some (VInteger _) | Some (VNumber _) =>
        exists b, s = Some b /\ stack l' = <[place (length (stack l)) i := VString b]> (stack l)
    | _ => s = None /\ stack l' = stack l
    end;
  toboolean_law i l : negb (lua_toboolean i l =? 0) = truth (at_index (stack l) i);
  type_law i l : lua_type i l = type_of (at_index (stack l) i);
}.

(** The statements that add to the audit trail leave the files alone. *)
Abbreviation files := (gmap (list Z) (list Z)).

Class Audited (W : Type) {HE : Sqlite.Engine W} {HS : @Sqlite.EngineSpec W files HE}
    {HN : @AgentSpec.Namespace W HE HS} := {
  audit_law db sql agent action target w :
    AgentSpec.lex None sql = Some (AgentSpec.tokens_of (AgentSpec.audit_form agent action target) (str ")")) ->
    let '((rc, _), w') := Sqlite.sqlite3_exec db sql w in
    (AgentSpec.may_fail = false -> rc = Sqlite.SQLITE_OK) /\ Sqlite.stmts w' = Sqlite.stmts w /\
    Sqlite.data w' = Sqlite.data w;
}.

Section spec.
Context {L W : Type} `{HL : LuaApi L} {HLS : LuaSpec L}.
Context {HE : Sqlite.Engine W} {HS : @Sqlite.EngineSpec W files HE} {HN : @AgentSpec.Namespace W HE HS} {HA : @Audited W HE HS HN}.
Variable f64_text : Json.f64 -> list Z.
Variable turns : nat.
Variable guard : option Z.

Notation stk w := (stack (lua w)).
Notation fs w := (Sqlite.data (database w)).

(** Nothing but the interpreter's stack and tables has changed. *)
Definition rest_same (w w' : world L W) : Prop :=
  database w' = database w /\ held w' = held w /\ last_ask w' = last_ask w /\ requests w' = requests w /\
  cache w' = cache w /\ registry (lua w') = registry (lua w).

(** Nor have these; the database may have gained an audit row. *)
Definition calm (w w' : world L W) : Prop :=
  stk w' = stk w /\ tables (lua w') = tables (lua w) /\ registry (lua w') = registry (lua w) /\
  fs w' = fs w /\ Sqlite.stmts (database w') = Sqlite.stmts (database w) /\ held w' = held w.

Lemma wp_pure f (Q : unit -> world L W -> Prop) (X : stop -> world L W -> Prop) w :
  Q tt (set_lua (f (lua w)) w) -> wp (pure f) Q X w.
Proof. done. Qed.
Lemma wp_jump f (Q : unit -> world L W -> Prop) (X : stop -> world L W -> Prop) w :
  (forall l, f (lua w) = Some l -> Q tt (set_lua l w)) -> X LuaError w -> wp (jump f) Q X w.
Proof. intros HQ HX. unfold wp, jump. destruct (f (lua w)); [by apply HQ|done]. Qed.
Lemma wp_to_str i (Q : option (list Z) -> world L W -> Prop) (X : stop -> world L W -> Prop) w :
  (forall s l, lua_tolstring i (lua w) = Some (s, l) -> Q s (set_lua l w)) -> X LuaError w ->
  wp (lua_to_str i) Q X w.
Proof. intros HQ HX. unfold wp, lua_to_str. destruct (lua_tolstring i (lua w)) as [[s l]|]; [by apply HQ|done]. Qed.
Lemma wp_release x (Q : unit -> world L W -> Prop) (X : stop -> world L W -> Prop) w :
  Q tt (set_held (filter (fun y => y <> x) (held w)) w) -> wp (release x) Q X w.
Proof. done. Qed.
Lemma wp_lock_db (Q : option Z -> world L W -> Prop) (X : stop -> world L W -> Prop) w :
  DB ∉ held w -> Q guard (set_held (DB :: held w) w) -> wp (lock_db guard) Q X w.
Proof. intros Hn HQ. unfold wp, lock_db, mbind, st_bind, acquire. by rewrite bool_decide_false. Qed.

Lemma release_held (x : lock) h : x ∉ h -> filter (fun y => y <> x) (x :: h) = h.
Proof.
  intros Hx. rewrite filter_cons_False by (intros Hn; by apply Hn). induction h as [|y h IH]; [done|].
  apply not_elem_of_cons in Hx as [Hxy Hx]. rewrite filter_cons_True by congruence. by rewrite IH.
Qed.

Lemma at_last (s : list value) v : at_index (s ++ [v]) (-1) = Some v.
Proof.
  unfold at_index, place. cbn. rewrite length_app. cbn.
  replace (Z.to_nat _) with (length s) by lia. by rewrite lookup_app_r, Nat.sub_diag by lia.
Qed.

Lemma place_last (s : list value) v v' : <[place (length (s ++ [v])) (-1) := v']> (s ++ [v]) = s ++ [v'].
Proof.
  unfold place. cbn. rewrite length_app. cbn. replace (Z.to_nat _) with (length s) by lia.
  rewrite insert_app_r_alt by lia. by rewrite Nat.sub_diag.
Qed.

(** The name of the agent is read off the registry, and the stack is as it was. *)
Lemma wp_agent_name w :
  wp get_agent_name
    (fun _ w' => stk w' = stk w /\ tables (lua w') = tables (lua w) /\ rest_same w w' /\ console w' = console w)
    (fun e w' => e = LuaError /\ database w' = database w /\ held w' = held w) w.
Proof.
  unfold get_agent_name. apply wp_bind, wp_jump; [|done]. intros l Hl.
  destruct (registry_law _ _ _ Hl) as (Hs & Ht & Hr). apply wp_bind, wp_to_str; [|done].
  cbn [set_lua lua]. intros s l2 Hl2. destruct (tolstring_law _ _ _ _ Hl2) as (Ht2 & Hr2 & Hcase).
  rewrite Hs, at_last in Hcase. set (v := registry (lua w) _) in *.
  assert (exists v', stack l2 = stk w ++ [v']) as [v' Hs2].
  { destruct v; first [destruct Hcase as (b & _ & Hc); rewrite place_last in Hc|destruct Hcase as [_ Hc]];
      eexists; exact Hc. }
  apply wp_bind. unfold lua_pop. apply wp_pure, wp_ret. cbn [set_lua lua].
  destruct (pop_law l2 1) as (Hp & Hpt & Hpr); [rewrite Hs2, zlen_app; unfold zlen; cbn; lia|].
  rewrite Hp, Hs2, length_app. cbn [length]. replace (length (stk w) + 1 - Z.to_nat 1)%nat with (length (stk w)) by lia.
  rewrite take_app_length. split; [done|]. split; [congruence|]. split; [|done].
  unfold rest_same. cbn. split_and!; try done. congruence.
Qed.

(** *** The database under the lock *)
Lemma wp_on_db {A} (m : Sqlite.L A) (Q : A + list Z -> world L W -> Prop) (X : stop -> world L W -> Prop) w r d :
  m (database w) = (r, d) ->
  match r with Ok a => Q (inl a) (set_database d w) | Err e => Q (inr e) (set_database d w) | Panic => False end ->
  wp (on_db m) Q X w.
Proof. intros Hm. unfold wp, on_db, st_try. rewrite Hm. by destruct r. Qed.

Lemma audit_lex agent action target :
  AgentSpec.lex None (Sqlite.c_text (audit_query agent action target ++ [0])) =
  if AgentSpec.has_nul agent || AgentSpec.has_nul action || AgentSpec.has_nul target then None
  else Some (AgentSpec.tokens_of (AgentSpec.audit_form agent action target) (str ")")).
Proof.
  assert (audit_query agent action target = AgentSpec.statement (AgentSpec.audit_form agent action target) (str ")")) as ->.
  { unfold audit_query, AgentSpec.audit_form. cbn [AgentSpec.statement].
    change (str "INSERT INTO audit (agent, action, target) VALUES ('")
      with (str "INSERT INTO audit (agent, action, target) VALUES (" ++ [39]).
    change (str "', '") with (39 :: str ", " ++ [39]). change (str "')") with (39 :: str ")"). by rewrite <- !app_assoc. }
  rewrite AgentSpec.lex_statement; [|done|by repeat constructor].
  cbn [existsb snd AgentSpec.audit_form]. by rewrite orb_false_r, orb_assoc.
Qed.

Lemma wp_audit action target w :
  DB ∉ held w ->
  wp (audit_log guard action target) (fun _ w' => calm w w')
    (fun e w' => e = LuaError /\ fs w' = fs w /\ held w' = held w) w.
Proof.
  intros Hh. unfold audit_log. apply wp_bind. eapply wp_mono; [apply wp_agent_name| |].
  2:{ intros e w' (-> & Hd & Hl). by rewrite Hd. }
  intros agent w1 (Hs & Ht & (Hd & Hl & _ & _ & _ & Hr) & _). unfold exec_quietly. apply wp_bind.
  apply wp_lock_db; [by rewrite Hl|]. apply wp_bind.
  assert (calm w (set_held (held w) w1)) as Hcalm by (by unfold calm; cbn; rewrite Hd).
  destruct guard as [db|].
  - apply wp_bind.
    destruct (AgentSpec.run_exec db (audit_query agent action target)
      (AgentSpec.has_nul agent || AgentSpec.has_nul action || AgentSpec.has_nul target) (fun f => f)
      (AgentSpec.tokens_of (AgentSpec.audit_form agent action target) (str ")")) (database w1)) as (r & d & Hrun & Hst & Hcase).
    { apply audit_lex. } { intros sql Hsql. pose proof (audit_law db sql _ _ _ (database w1) Hsql) as Ha.
      destruct (Sqlite.sqlite3_exec db sql (database w1)) as [[rc ?] ?]. destruct Ha as (H1 & H2 & H3). by destruct (rc =? _). }
    assert (Sqlite.data d = fs w1) as Hdata by (by destruct Hcase as [(_ & _ & ?)|(_ & ? & _)]).
    eapply wp_on_db; [exact Hrun|].
    assert (calm w (set_held (held w) (set_database d w1))) as Hcalm2.
    { destruct Hcalm as (H1 & H2 & H3 & H4 & H5 & H6). unfold calm. cbn in *. rewrite Hdata, Hst, Hd. by split_and!. }
    destruct Hcase as [(-> & _)|((e & ->) & _)]; apply wp_ret, wp_release; cbn [held set_held set_database]; rewrite Hl, release_held by done; exact Hcalm2.
  - apply wp_ret, wp_release. cbn [held set_held]. rewrite Hl, release_held by done. exact Hcalm.
Qed.

(** *** Arguments and results *)
(** What a string argument gives: the text of a string, some text for a
    number, nothing for the rest. *)
Definition gives (v : option value) (o : option (list Z)) : Prop :=
  match v with
  | Some (VString b) => o = if is_utf8 b then Some b else None
  | Some (VInteger _) | Some (VNumber _) => True
  | _ => o = None
  end.

(** Reading an argument as a string may turn a number into one. *)
Definition same_value (v v' : value) : Prop := v' = v \/ is_number v = true /\ exists b, v' = VString b.
Definition same_args (s s' : list value) : Prop := Forall2 same_value s s'.

Lemma same_args_refl s : same_args s s.
Proof. apply Forall2_same_length_lookup. split; [done|]. intros i x y Hx Hy. left. congruence. Qed.
Lemma same_args_trans s1 s2 s3 : same_args s1 s2 -> same_args s2 s3 -> same_args s1 s3.
Proof.
  intros H12. revert s3. induction H12 as [|x y s1 s2 Hxy _ IH]; intros s3 H23; [done|].
  apply Forall2_cons_inv_l in H23 as (z & s3' & Hyz & H23 & ->). constructor; [|by apply IH].
  destruct Hxy as [->|[Hn [b ->]]], Hyz as [->|[Hn' [b' ->]]]; try (by left); right; split; try done; by eexists.
Qed.

(** Reads the argument [i] of a call. *)
Lemma wp_arg i w : 0 < i ->
  wp (lua_to_str i)
    (fun b w' => gives (stk w !! Z.to_nat (i - 1)) (as_utf8 b) /\ same_args (stk w) (stk w') /\
       (forall j, j <> Z.to_nat (i - 1) -> stk w' !! j = stk w !! j) /\
       tables (lua w') = tables (lua w) /\ rest_same w w')
    (fun e w' => e = LuaError /\ w' = w) w.
Proof.
  intros Hi. apply wp_to_str; [|done]. intros s l Hl. destruct (tolstring_law _ _ _ _ Hl) as (Ht & Hr & Hcase).
  unfold at_index in Hcase. assert (place (length (stk w)) i = Z.to_nat (i - 1)) as Hp.
  { unfold place. by rewrite (proj2 (Z.ltb_lt 0 i)). }
  rewrite Hp in Hcase. cbn [set_lua lua].
  assert (gives (stk w !! Z.to_nat (i - 1)) (as_utf8 s) /\ same_args (stk w) (stack l) /\
    (forall j, j <> Z.to_nat (i - 1) -> stack l !! j = stk w !! j)) as (H1 & H2 & H3).
  { destruct (stk w !! Z.to_nat (i - 1)) as [v|] eqn:Hv;
      [|destruct Hcase as [-> ->]; split_and!; [done|apply same_args_refl|done]].
    destruct v as [|b|n|x|b|id|t]; try (destruct Hcase as [-> ->]; split_and!; [done|apply same_args_refl|done]).
    1,2: destruct Hcase as (b & -> & ->); split_and!;
      [done|rewrite <- (list_insert_id (stk w) _ _ Hv) at 1;
            apply Forall2_insert; [apply same_args_refl|right; split; [done|by exists b]]
      |intros j Hj; by rewrite list_lookup_insert_ne]. }
  split_and!; [done..|]. unfold rest_same. by cbn.
Qed.

Inductive op := ReadOp | WriteOp | LsOp.
Definition run_op (o : op) : st (world L W) stop Z :=
  match o with
  | ReadOp => lua_read f64_text turns guard
  | WriteOp => lua_write guard
  | LsOp => lua_ls f64_text turns guard
  end.

(** The table [1 = p1, 2 = p2, ..]. *)
Definition sequence (ps : list (list Z)) : table :=
  list_to_map (imap (fun i p => (inl (Z.of_nat i + 1), VString p)) ps).
Definition dir (a : option (list Z)) : list Z := AgentSpec.dir_prefix (default (str "/") a).

(** What an operation does to the files, by the texts [a] and [b] of its first
    two arguments, and the value it returns. *)
Inductive does (may_fail : bool) (f : files) (a b : option (list Z)) : op -> files -> gmap Z table -> value -> Prop :=
| D_read path content t : a = Some path -> f !! path = Some content ->
    does may_fail f a b ReadOp f t (VString content)
| D_no_file t : match a with None => True | Some p => AgentSpec.has_nul p = true \/ f !! p = None \/ may_fail = true end ->
    does may_fail f a b ReadOp f t VNil
| D_write path data t : a = Some path -> b = Some data -> AgentSpec.has_nul path = false -> AgentSpec.has_nul data = false ->
    does may_fail f a b WriteOp (<[path := data]> f) t (VBoolean true)
| D_not_written t : match a, b with
      | Some p, Some c => AgentSpec.has_nul p = true \/ AgentSpec.has_nul c = true \/ may_fail = true
      | _, _ => True
      end -> does may_fail f a b WriteOp f t (VBoolean false)
| D_list ps t id : t !! id = Some (sequence ps) ->
    AgentSpec.listed f (fun q => q = dir a \/ Forall (fun x => x < 0x80) (dir a) /\ exists r, q = dir a ++ r) ps ->
    does may_fail f a b LsOp f t (VTable id)
| D_no_list t id : t !! id = Some ∅ -> AgentSpec.has_nul (dir a) = true \/ may_fail = true ->
    does may_fail f a b LsOp f t (VTable id).

(** How a call ends: with one result above the arguments and all locks given
    back; or by a jump, with the files before or after the operation. *)
Definition ends (o : op) (w : world L W) (r : Z) (w' : world L W) : Prop :=
  exists a b args v, gives (stk w !! 0%nat) a /\ gives (stk w !! 1%nat) b /\
    does AgentSpec.may_fail (fs w) a b o (fs w') (tables (lua w')) v /\ r = 1 /\
    same_args (stk w) args /\ stk w' = args ++ [v] /\ held w' = held w /\
    Sqlite.stmts (database w') = Sqlite.stmts (database w) /\ registry (lua w') = registry (lua w).
Definition jumps (o : op) (w : world L W) (e : stop) (w' : world L W) : Prop :=
  e = LuaError /\
  (fs w' = fs w \/ exists a b t v, gives (stk w !! 0%nat) a /\ gives (stk w !! 1%nat) b /\
     does AgentSpec.may_fail (fs w) a b o (fs w') t v).

Lemma gives_total v : exists o, gives v o.
Proof. destruct v as [[| | | |b| |]|]; try by exists None. by exists (if is_utf8 b then Some b else None). Qed.

(** The jump after the operation, and before it. *)
Lemma jumps_before o w w' : fs w' = fs w -> jumps o w LuaError w'.
Proof. intros Hf. split; [done|by left]. Qed.

(** Pushing the result [v]. *)
Lemma wp_push_nil (Q : unit -> world L W -> Prop) (X : stop -> world L W -> Prop) w :
  (forall w', stk w' = stk w ++ [VNil] -> tables (lua w') = tables (lua w) -> rest_same w w' -> Q tt w') ->
  wp (pure lua_pushnil) Q X w.
Proof.
  intros HQ. apply wp_pure, HQ; destruct (pushnil_law (lua w)) as (H1 & H2 & H3); [exact H1|exact H2|].
  unfold rest_same. by cbn.
Qed.
Lemma wp_push_flag (b : bool) (Q : Z -> world L W -> Prop) (X : stop -> world L W -> Prop) w :
  (forall w', stk w' = stk w ++ [VBoolean b] -> tables (lua w') = tables (lua w) -> rest_same w w' -> Q 1 w') ->
  wp (push_flag b) Q X w.
Proof.
  intros HQ. unfold push_flag. apply wp_bind, wp_pure, wp_ret, HQ;
    destruct (pushboolean_law (if b then 1 else 0) (lua w)) as (H1 & H2 & H3); [|exact H2|unfold rest_same; by cbn].
  cbn [set_lua lua]. rewrite H1. by destruct b.
Qed.
Lemma wp_push_string s (Q : unit -> world L W -> Prop) (X : stop -> world L W -> Prop) w :
  (forall w', stk w' = stk w ++ [VString s] -> tables (lua w') = tables (lua w) -> rest_same w w' -> Q tt w') ->
  X LuaError w -> wp (jump (lua_pushlstring s)) Q X w.
Proof.
  intros HQ HX. apply wp_jump; [|exact HX]. intros l Hl. destruct (pushlstring_law _ _ _ Hl) as (H1 & H2 & H3).
  apply HQ; [exact H1|exact H2|unfold rest_same; by cbn].
Qed.
Lemma wp_leave {A} x (a : A) (Q : A -> world L W -> Prop) (X : stop -> world L W -> Prop) w :
  Q a (set_held (filter (fun y => y <> x) (held w)) w) -> wp (leave x a) Q X w.
Proof. done. Qed.

Lemma read_runs db w : guard = Some db -> DB ∉ held w ->
  (size (fs w) + 2 <= turns)%nat -> AgentSpec.files_ok (fs w) ->
  wp (run_op ReadOp) (ends ReadOp w) (jumps ReadOp w) w.
Proof.
  intros Hg Hh Ht Hok. destruct (gives_total (stk w !! 1%nat)) as [b2 Hb2]. unfold run_op, lua_read.
  apply wp_bind. eapply wp_mono; [by apply wp_arg| |].
  2:{ intros e w' [-> ->]. by apply jumps_before. }
  intros b w1 (Hga & Hargs & _ & Htab & Hsame). set (a := as_utf8 b) in *. clearbody a.
  destruct Hsame as (Hd & Hl & _ & _ & _ & Hr). change (Z.to_nat (1 - 1)) with 0%nat in Hga.
  assert (forall w', fs w' = fs w -> Sqlite.stmts (database w') = Sqlite.stmts (database w) -> held w' = held w ->
    registry (lua w') = registry (lua w) -> stk w' = stk w1 ++ [VNil] ->
    match a with None => True | Some p => AgentSpec.has_nul p = true \/ fs w !! p = None \/ AgentSpec.may_fail = true end ->
    ends ReadOp w 1 w') as Hnil.
  { intros w' Hf Hs Hl' Hr' Hst Hwhy. exists a, b2, (stk w1), VNil. rewrite Hf. split_and!; try done. by constructor. }
  destruct a as [path|].
  2:{ apply wp_bind, wp_push_nil. intros w' Hs _ (Hd' & Hl' & _ & _ & _ & Hr').
      apply wp_ret, Hnil; [by rewrite Hd', Hd|by rewrite Hd', Hd|by rewrite Hl', Hl|by rewrite Hr', Hr|done|done]. }
  apply wp_bind, wp_lock_db; [by rewrite Hl|]. rewrite Hg. apply wp_bind.
  destruct (AgentSpec.run_select f64_text turns db path (database w)) as (r & d & Hrun & Hst & Hdat & Hcase); [lia|done|].
  eapply wp_on_db; [cbn [set_held database]; rewrite Hd; exact Hrun|].
  assert (match Some path with None => True | Some p => AgentSpec.has_nul p = true \/ fs w !! p = None \/ AgentSpec.may_fail = true end ->
    wp (n ← push_nil_one; leave DB n) (ends ReadOp w) (jumps ReadOp w) (set_database d (set_held (DB :: held w1) w1))) as Hnil2.
  { intros Hwhy. apply wp_bind. unfold push_nil_one. apply wp_bind, wp_push_nil.
    intros w' Hs _ (Hd' & Hl' & _ & _ & _ & Hr'). apply wp_ret, wp_leave, Hnil; cbn in *.
    - by rewrite Hd'.
    - by rewrite Hd'.
    - by rewrite Hl', Hl, release_held.
    - by rewrite Hr'.
    - exact Hs.
    - done. }
  destruct Hcase as [[-> Hn]|[[e ->] Hwhy]]; [|apply Hnil2; tauto].
  destruct (fs w !! path) as [content|] eqn:Hf; [|apply Hnil2; tauto].
  apply wp_bind, wp_push_string; [|by apply jumps_before].
  intros w2 Hs2 Ht2 (Hd2 & Hl2 & _ & _ & _ & Hr2). apply wp_bind, wp_release. cbn in Hs2, Ht2, Hd2, Hl2, Hr2.
  rewrite <- Hg. apply wp_bind. eapply wp_mono; [apply wp_audit| |].
  - cbn. by rewrite Hl2, Hl, release_held.
  - intros [] w3 (H1 & H2 & H3 & H4 & H5 & H6). cbn in H1, H2, H3, H4, H5, H6. apply wp_ret.
    exists (Some path), b2, (stk w1), (VString content). rewrite H4, Hd2, Hdat. split_and!; try done.
    + by eapply D_read.
    + by rewrite H1.
    + by rewrite H6, Hl2, Hl, release_held.
    + by rewrite H5, Hd2, Hst.
    + by rewrite H3, Hr2, Hr.
  - intros e w3 (-> & Hf3 & _). apply jumps_before. cbn in Hf3. by rewrite Hf3, Hd2, Hdat.
Qed.

Lemma write_runs db w : guard = Some db -> DB ∉ held w ->
  wp (run_op WriteOp) (ends WriteOp w) (jumps WriteOp w) w.
Proof.
  intros Hg Hh. unfold run_op, lua_write. apply wp_bind. eapply wp_mono; [by apply wp_arg| |].
  2:{ intros e w' [-> ->]. by apply jumps_before. }
  intros b1 w1 (Hga & Hargs & Hrest & _ & Hsame). set (a := as_utf8 b1) in *. clearbody a.
  destruct Hsame as (Hd & Hl & _ & _ & _ & Hr). change (Z.to_nat (1 - 1)) with 0%nat in *.
  destruct a as [path|].
  2:{ destruct (gives_total (stk w !! 1%nat)) as [b2 Hb2].
      apply wp_push_flag. intros w' Hs _ (Hd' & Hl' & _ & _ & _ & Hr'). exists None, b2, (stk w1), (VBoolean false).
      rewrite Hd', Hd, Hl', Hl, Hr', Hr. split_and!; try done. by constructor. }
  apply wp_bind. eapply wp_mono; [by apply wp_arg| |].
  2:{ intros e w' [-> ->]. apply jumps_before. by rewrite Hd. }
  intros b2 w2 (Hgb & Hargs2 & _ & _ & Hsame). set (b := as_utf8 b2) in *. clearbody b.
  destruct Hsame as (Hd2 & Hl2 & _ & _ & _ & Hr2). change (Z.to_nat (2 - 1)) with 1%nat in *.
  rewrite (Hrest 1%nat) in Hgb by done. assert (same_args (stk w) (stk w2)) as Ha2 by (by eapply same_args_trans).
  destruct b as [data|].
  2:{ apply wp_push_flag. intros w' Hs _ (Hd' & Hl' & _ & _ & _ & Hr'). exists (Some path), None, (stk w2), (VBoolean false).
      rewrite Hd', Hd2, Hd, Hl', Hl2, Hl, Hr', Hr2, Hr. split_and!; try done. by constructor. }
  apply wp_bind, wp_lock_db; [by rewrite Hl2, Hl|]. rewrite Hg. apply wp_bind.
  destruct (AgentSpec.run_exec db (Agent.write_query path data) (AgentSpec.has_nul path || AgentSpec.has_nul data)
    (<[path := data]>) (AgentSpec.tokens_of (AgentSpec.write_form path data) (str "))")) (database w))
    as (r & d & Hrun & Hst & Hcase).
  { apply AgentSpec.lex_write. } { intros sql Hsql. by eapply AgentSpec.insert_law. }
  eapply (wp_on_db _ _ _ _ r d); [cbn [set_held database]; rewrite Hd2, Hd; exact Hrun|].
  set (ok := match r with Ok _ => true | _ => false end).
  assert (forall t, does AgentSpec.may_fail (fs w) (Some path) (Some data) WriteOp (Sqlite.data d) t (VBoolean ok)) as Hdoes.
  { intros t. destruct Hcase as [(-> & Hn & ->)|((e & ->) & -> & Hwhy)].
    - apply orb_false_iff in Hn as [? ?]. by eapply D_write.
    - constructor. destruct Hwhy as [Hn|]; [|tauto]. apply orb_true_iff in Hn. tauto. }
  assert (wp (_ ← drop_guard; _ ← audit_log guard (str "FILE_WRITE") path; push_flag ok)
    (ends WriteOp w) (jumps WriteOp w) (set_database d (set_held (DB :: held w2) w2))) as Hrest2.
  { apply wp_bind, wp_release. cbn [held set_database set_held]. rewrite release_held by (by rewrite Hl2, Hl).
    apply wp_bind. eapply wp_mono; [apply wp_audit; cbn; by rewrite Hl2, Hl| |].
    - intros [] w3 (H1 & H2 & H3 & H4 & H5 & H6). cbn in H1, H2, H3, H4, H5, H6.
      apply wp_push_flag. intros w4 Hs4 _ (Hd4 & Hl4 & _ & _ & _ & Hr4).
      exists (Some path), (Some data), (stk w2), (VBoolean ok). rewrite Hd4, H4, H5, Hst, Hl4, H6, Hl2, Hl, Hr4, H3, Hr2, Hr, Hs4, H1.
      by split_and!.
    - intros e w3 (-> & Hf3 & _). cbn in Hf3. split; [done|]. right. exists (Some path), (Some data), ∅, (VBoolean ok).
      rewrite Hf3. by split_and!. }
  rewrite <- Hg. destruct Hcase as [(-> & _)|((e & ->) & _)]; exact Hrest2.
Qed.

Lemma wp_for {S E X} (body : X -> st S E unit) (l : list X) (I : nat -> S -> Prop) (P : E -> S -> Prop) s :
  (forall i x s, l !! i = Some x -> I i s -> wp (body x) (fun _ => I (Datatypes.S i)) P s) ->
  I 0%nat s -> wp (st_for body l) (fun _ => I (length l)) P s.
Proof.
  revert I s. induction l as [|x l IH]; intros I s Hstep H0; [done|]. cbn [st_for length].
  apply wp_bind. eapply wp_mono; [by apply (Hstep 0%nat)| |done]. intros u s1 H1.
  apply (IH (fun i => I (Datatypes.S i))); [|done]. intros i y s2 Hy. by apply (Hstep (Datatypes.S i)).
Qed.

Lemma sequence_take ps i p : ps !! i = Some p ->
  sequence (take (S i) ps) = <[inl (Z.of_nat i + 1) := VString p]> (sequence (take i ps)).
Proof.
  intros Hp. unfold sequence. rewrite (take_S_r _ _ _ Hp), imap_app. cbn [imap].
  rewrite length_take_le by (apply lookup_lt_Some in Hp; lia). rewrite Nat.add_0_r, list_to_map_snoc; [done|].
  rewrite list_elem_of_fmap. intros ([k v] & Hk & Hin). cbn in Hk. subst k.
  apply list_elem_of_lookup in Hin as [j Hj]. rewrite list_lookup_imap_Some in Hj.
  destruct Hj as (q & Hq & [= Hij _]). apply lookup_take_Some in Hq as [_ ?]. lia.
Qed.

(** The table of the names. *)
Lemma wp_fill ps id base w :
  stk w = base ++ [VTable id] -> tables (lua w) !! id = Some ∅ ->
  wp (st_for (fun '(i, p) => _ ← jump (lua_pushlstring p); jump (lua_rawseti (-2) (Z.of_nat i + 1))) (imap pair ps))
    (fun _ w' => stk w' = base ++ [VTable id] /\ tables (lua w') !! id = Some (sequence ps) /\ rest_same w w')
    (fun e w' => e = LuaError /\ database w' = database w) w.
Proof.
  intros Hs Ht.
  pose proof (wp_for (fun '(i, p) => _ ← jump (lua_pushlstring p); jump (lua_rawseti (-2) (Z.of_nat i + 1)))
    (imap pair ps) (fun i w' => stk w' = base ++ [VTable id] /\
      tables (lua w') !! id = Some (sequence (take i ps)) /\ rest_same w w')
    (fun e w' => e = LuaError /\ database w' = database w) w) as Hw.
  rewrite length_imap, firstn_all in Hw. apply Hw; [|by split_and!]. clear Hw.
  intros i [j p] w1 Hx (Hs1 & Ht1 & (Hd1 & Hl1 & Ha1 & Hq1 & Hc1 & Hr1)).
  rewrite list_lookup_imap_Some in Hx. destruct Hx as (q & Hq & [= -> ->]).
  apply wp_bind, wp_push_string; [|by split].
  intros w2 Hs2 Ht2 (Hd2 & Hl2 & Ha2 & Hq2 & Hc2 & Hr2). apply wp_jump; [|by split; [done|rewrite Hd2]].
  intros l Hl. rewrite Hs1, <- app_assoc in Hs2. rewrite <- Ht2 in Ht1.
  destruct (rawseti_law _ _ _ _ _ _ _ Hl Hs2 Ht1) as (Hs3 & Ht3 & Hr3). cbn [set_lua lua].
  rewrite Hs3, Ht3, (sequence_take _ _ _ Hq), lookup_insert_eq. split_and!; [done|done|].
  unfold rest_same. cbn. split_and!; congruence.
Qed.

Lemma wp_new_table narr (Q : unit -> world L W -> Prop) (X : stop -> world L W -> Prop) w :
  (forall w' id, stk w' = stk w ++ [VTable id] -> tables (lua w') !! id = Some ∅ ->
     tables (lua w) !! id = None -> tables (lua w') = <[id := ∅]> (tables (lua w)) -> rest_same w w' -> Q tt w') ->
  X LuaError w -> wp (jump (lua_createtable narr 0)) Q X w.
Proof.
  intros HQ HX. apply wp_jump; [|exact HX]. intros l Hl. destruct (createtable_law _ _ _ _ Hl) as (id & Hid & Hs & Ht & Hr).
  apply (HQ _ id); [exact Hs|cbn; by rewrite Ht, lookup_insert_eq|exact Hid|exact Ht|unfold rest_same; by cbn].
Qed.

Lemma ls_runs db w : guard = Some db -> DB ∉ held w ->
  (size (fs w) + 2 <= turns)%nat -> AgentSpec.files_ok (fs w) ->
  wp (run_op LsOp) (ends LsOp w) (jumps LsOp w) w.
Proof.
  intros Hg Hh Ht Hok. destruct (gives_total (stk w !! 1%nat)) as [b2 Hb2]. unfold run_op, lua_ls.
  apply wp_bind. eapply wp_mono; [by apply wp_arg| |].
  2:{ intros e w' [-> ->]. by apply jumps_before. }
  intros b w1 (Hga & Hargs & _ & Htab & Hsame). set (a := as_utf8 b) in *. clearbody a.
  destruct Hsame as (Hd & Hl & _ & _ & _ & Hr). change (Z.to_nat (1 - 1)) with 0%nat in Hga.
  assert (forall t id w', does AgentSpec.may_fail (fs w) a b2 LsOp (fs w) t (VTable id) -> tables (lua w') = t ->
    fs w' = fs w -> Sqlite.stmts (database w') = Sqlite.stmts (database w) -> held w' = held w ->
    registry (lua w') = registry (lua w) -> stk w' = stk w1 ++ [VTable id] -> ends LsOp w 1 w') as Hends.
  { intros t id w' Hdo <- Hf Hs Hl' Hr' Hst. exists a, b2, (stk w1), (VTable id). rewrite Hf. by split_and!. }
  apply wp_bind, wp_lock_db; [by rewrite Hl|]. rewrite Hg. apply wp_bind.
  change (if Agent.ends_with_slash _ then _ else _) with (dir a).
  destruct (AgentSpec.run_list f64_text turns db (dir a) (database w)) as (r & d & Hrun & Hst & Hdat & Hcase); [lia|done|].
  eapply wp_on_db; [cbn [set_held database]; rewrite Hd; exact Hrun|].
  destruct Hcase as [(ps & -> & Hls)|[[e ->] Hwhy]].
  - apply wp_bind, wp_new_table; [|apply jumps_before; cbn; by rewrite Hdat].
    intros w2 id Hs2 Hid _ _ (Hd2 & Hl2 & _ & _ & _ & Hr2). cbn in Hs2, Hd2, Hl2, Hr2.
    apply wp_bind. eapply wp_mono; [by apply (wp_fill ps id (stk w1))| |].
    + intros [] w3 (Hs3 & Ht3 & (Hd3 & Hl3 & _ & _ & _ & Hr3)). apply wp_leave.
      eapply (Hends _ id); cbn; [by eapply D_list|done|by rewrite Hd3, Hd2|by rewrite Hd3, Hd2| |congruence|done].
      by rewrite Hl3, Hl2, Hl, release_held.
    + intros e w3 [-> Hd3]. apply jumps_before. by rewrite Hd3, Hd2.
  - apply wp_bind, wp_new_table; [|apply jumps_before; cbn; by rewrite Hdat].
    intros w2 id Hs2 Hid _ _ (Hd2 & Hl2 & _ & _ & _ & Hr2). cbn in Hs2, Hd2, Hl2, Hr2.
    apply wp_leave. eapply (Hends _ id); cbn; [by eapply D_no_list|done|by rewrite Hd2|by rewrite Hd2| |congruence|done].
    by rewrite Hl2, Hl, release_held.
Qed.
End spec.


(** ** The tables of [sql] *)
Definition lua_value (v : Sqlite.SqlValue) : value :=
  match v with
  | Sqlite.SqlNull => VNil
  | Sqlite.SqlInteger n => VInteger n
  | Sqlite.SqlReal x => VNumber x
  | Sqlite.SqlText s => VString s
  end.
(** A row: the columns in order, a later one of the same name over an earlier. *)
Definition row_table (cells : list (list Z * Sqlite.SqlValue)) : table :=
  foldl (fun t '(name, v) => assign (inr (Sqlite.c_text (name ++ [0]))) (lua_value v) t) ∅ cells.

Section sql.
Context {L W : Type} `{HL : LuaApi L} {HLS : LuaSpec L}.
Context {HE : Sqlite.Engine W} {HS : @Sqlite.EngineSpec W files HE} {HN : @AgentSpec.Namespace W HE HS} {HA : @Audited W HE HS HN}.
Variable turns : nat.
Variable guard : option Z.
Notation stk w := (stack (lua w)).

Lemma wp_push_value v (Q : unit -> world L W -> Prop) (X : stop -> world L W -> Prop) w :
  (forall w', stk w' = stk w ++ [lua_value v] -> tables (lua w') = tables (lua w) -> rest_same w w' -> Q tt w') ->
  X LuaError w -> wp (push_sql_value v) Q X w.
Proof.
  intros HQ HX. destruct v as [|n|x|s]; cbn [push_sql_value lua_value] in *.
  - by apply wp_push_nil.
  - apply wp_pure, HQ; destruct (pushinteger_law n (lua w)) as (H1 & H2 & H3); [exact H1|exact H2|unfold rest_same; by cbn].
  - apply wp_pure, HQ; destruct (pushnumber_law x (lua w)) as (H1 & H2 & H3); [exact H1|exact H2|unfold rest_same; by cbn].
  - by apply wp_push_string.
Qed.

Lemma row_table_snoc cells name v :
  row_table (cells ++ [(name, v)]) = assign (inr (Sqlite.c_text (name ++ [0]))) (lua_value v) (row_table cells).
Proof. unfold row_table. by rewrite foldl_app. Qed.

Lemma rest_same_trans (w1 w2 w3 : world L W) : rest_same w1 w2 -> rest_same w2 w3 -> rest_same w1 w3.
Proof. unfold rest_same. intros (?&?&?&?&?&?) (?&?&?&?&?&?). split_and!; congruence. Qed.

(** The cells of a row, into the table on top of the stack. *)
Lemma wp_cells columns row id base (w : world L W) :
  length row = length columns -> stk w = base ++ [VTable id] -> tables (lua w) !! id = Some ∅ ->
  wp (st_for (fun '(i, v) => set_cell columns i v) (imap pair row))
    (fun _ w' => stk w' = base ++ [VTable id] /\ rest_same w w' /\
       tables (lua w') = <[id := row_table (zip columns row)]> (tables (lua w)))
    (fun e w' => e = LuaError /\ rest_same w w') w.
Proof.
  intros Hlen Hs Ht.
  pose proof (wp_for (fun '(i, v) => set_cell columns i v) (imap pair row)
    (fun i w' => stk w' = base ++ [VTable id] /\ rest_same w w' /\
       tables (lua w') = <[id := row_table (take i (zip columns row))]> (tables (lua w)))
    (fun e w' => e = LuaError /\ rest_same w w') w) as Hw.
  rewrite length_imap in Hw. rewrite (take_ge (zip columns row) (length row)) in Hw by (rewrite length_zip; lia).
  apply Hw; [|split_and!; [done|done|by rewrite insert_id]]. clear Hw.
  intros i [j x] w1 Hx (Hs1 & Hr1 & Ht1). rewrite list_lookup_imap_Some in Hx. destruct Hx as (v & Hv & [= -> ->]).
  destruct (lookup_lt_is_Some_2 columns i) as [name Hname]; [rewrite <- Hlen; by eapply lookup_lt_Some|].
  unfold set_cell. apply wp_bind, wp_push_value; [|by split].
  intros w2 Hs2 Ht2 Hr2. rewrite Hname. apply wp_jump; [|split; [done|by eapply rest_same_trans]].
  intros l Hl. rewrite Hs1, <- app_assoc in Hs2. cbn [app] in Hs2.
  assert (tables (lua w2) !! id = Some (row_table (take i (zip columns row)))) as Hid by (rewrite Ht2, Ht1; apply lookup_insert_eq).
  destruct (setfield_law _ _ _ _ _ _ _ Hl Hs2 Hid) as (Hs3 & Ht3 & Hr3). cbn [set_lua lua].
  assert (zip columns row !! i = Some (name, v)) as Hz by (apply lookup_zip_with_Some; by eexists _, _).
  split; [done|]. split.
  - eapply rest_same_trans; [exact Hr1|]. eapply rest_same_trans; [exact Hr2|]. unfold rest_same. by cbn.
  - rewrite Ht3, Ht2, Ht1, insert_insert_eq, (take_S_r _ _ _ Hz), row_table_snoc. done.
Qed.

(** The table [outer] holds [t], which is the rows [rows], a table each. *)
Definition filled (columns : list (list Z)) (rows : list (list Sqlite.SqlValue)) (m : gmap Z table) (outer : Z) (t : table) : Prop :=
  (forall k v, t !! k = Some v -> exists i, (i < length rows)%nat /\ k = inl (Z.of_nat i + 1)) /\
  forall i row, rows !! i = Some row -> exists id, t !! inl (Z.of_nat i + 1) = Some (VTable id) /\
    id <> outer /\ m !! id = Some (row_table (zip columns row)).

Lemma wp_sql_rows columns rows id base (w : world L W) :
  Forall (fun r : list Sqlite.SqlValue => length r = length columns) rows ->
  stk w = base ++ [VTable id] -> tables (lua w) !! id = Some ∅ ->
  wp (st_for (fun '(i, row) => set_row columns i row) (imap pair rows))
    (fun _ w' => stk w' = base ++ [VTable id] /\ rest_same w w' /\
       (forall j t, tables (lua w) !! j = Some t -> j <> id -> tables (lua w') !! j = Some t) /\
       exists t, tables (lua w') !! id = Some t /\ filled columns rows (tables (lua w')) id t)
    (fun e w' => e = LuaError /\ rest_same w w') w.
Proof.
  intros Hwid Hs Ht.
  pose proof (wp_for (fun '(i, row) => set_row columns i row) (imap pair rows)
    (fun i w' => stk w' = base ++ [VTable id] /\ rest_same w w' /\
       (forall j t, tables (lua w) !! j = Some t -> j <> id -> tables (lua w') !! j = Some t) /\
       exists t, tables (lua w') !! id = Some t /\ filled columns (take i rows) (tables (lua w')) id t)
    (fun e w' => e = LuaError /\ rest_same w w') w) as Hw.
  rewrite length_imap, firstn_all in Hw. apply Hw.
  2:{ split_and!; [done|done|by intros j t Hj|]. exists ∅. split; [done|]. split; [by intros k v ?|by intros i row ?]. }
  clear Hw. intros i [j x] w1 Hx (Hs1 & Hr1 & Hold & (t & Hid & Hdom & Hrows)).
  rewrite list_lookup_imap_Some in Hx. destruct Hx as (row & Hrow & [= -> ->]).
  unfold set_row. apply wp_bind, wp_jump; [|by split]. intros l Hl.
  destruct (createtable_law _ _ _ _ Hl) as (rid & Hfresh & Hs2 & Ht2 & Hreg2).
  assert (rid <> id) as Hne by congruence.
  apply wp_bind. eapply wp_mono; [apply (wp_cells columns row rid (base ++ [VTable id]))| |].
  - by apply (Forall_lookup_1 _ _ _ _ Hwid Hrow).
  - cbn [set_lua lua]. by rewrite Hs2, Hs1.
  - cbn [set_lua lua]. by rewrite Ht2, lookup_insert_eq.
  - intros [] w3 (Hs3 & Hr3 & Ht3). cbn [set_lua lua] in Ht3. rewrite Ht2, insert_insert_eq in Ht3.
    assert (rest_same w w3) as Hr03.
    { eapply rest_same_trans; [exact Hr1|]. eapply rest_same_trans; [|exact Hr3]. unfold rest_same. by cbn. }
    apply wp_jump; [|by split]. intros l4 Hl4. rewrite <- app_assoc in Hs3. cbn [app] in Hs3.
    assert (tables (lua w3) !! id = Some t) as Hid3 by (by rewrite Ht3, lookup_insert_ne).
    destruct (rawseti_law _ _ _ _ _ _ _ Hl4 Hs3 Hid3) as (Hs4 & Ht4 & Hreg4). cbn [set_lua lua assign] in *.
    split_and!; [done|eapply rest_same_trans; [exact Hr03|unfold rest_same; by cbn]| |].
    + intros j u Hj Hji. rewrite Ht4, lookup_insert_ne by done. rewrite Ht3, lookup_insert_ne; [by apply Hold|].
      intros ->. rewrite (Hold j u Hj Hji) in Hfresh. done.
    + eexists. split; [rewrite Ht4; apply lookup_insert_eq|]. split.
      * intros k v Hk. rewrite (take_S_r _ _ _ Hrow), length_app. cbn.
        destruct (decide (k = inl (Z.of_nat i + 1))) as [->|Hki].
        -- exists i. split; [|done]. rewrite length_take. pose proof (lookup_lt_Some _ _ _ Hrow). lia.
        -- rewrite lookup_insert_ne in Hk by done. destruct (Hdom k v Hk) as (n & Hn & ->). exists n. split; [lia|done].
      * intros n r Hn. rewrite (take_S_r _ _ _ Hrow) in Hn.
        assert (length (take i rows) = i) as Hlen by (rewrite length_take; pose proof (lookup_lt_Some _ _ _ Hrow); lia).
        apply lookup_app_Some in Hn as [Hn|[Hge Hn]].
        -- destruct (Hrows n r Hn) as (k & Hk & Hkid & Hm). exists k. apply lookup_lt_Some in Hn.
           rewrite lookup_insert_ne by (intros [=]; lia). split; [done|]. split; [done|].
           rewrite Ht4, lookup_insert_ne by done. rewrite Ht3, lookup_insert_ne; [done|]. congruence.
        -- apply list_lookup_singleton_Some in Hn as [Hn ->]. exists rid. assert (n = i) as -> by lia.
           rewrite lookup_insert_eq. split; [done|]. split; [done|].
           by rewrite Ht4, lookup_insert_ne, Ht3, lookup_insert_eq by done.
  - intros e w3 [-> Hr3]. split; [done|]. eapply rest_same_trans; [exact Hr1|]. eapply rest_same_trans; [|exact Hr3]. unfold rest_same. by cbn.
Qed.

Lemma wp_fails (msg : string) (Q : Z -> world L W -> Prop) (X : stop -> world L W -> Prop) (w : world L W) :
  (forall w', stk w' = stk w ++ [VNil; VString (Sqlite.c_text (str msg ++ [0]))] -> tables (lua w') = tables (lua w) ->
     rest_same w w' -> Q 2 w') ->
  (forall w', rest_same w w' -> X LuaError w') -> wp (fails msg) Q X w.
Proof.
  intros HQ HX. unfold fails. apply wp_bind, wp_push_nil. intros w1 Hs1 Ht1 Hr1. apply wp_bind, wp_jump; [|by apply HX].
  intros l Hl. destruct (pushstring_law _ _ _ Hl) as (Hs2 & Ht2 & Hg2). apply wp_ret, HQ; cbn [set_lua lua].
  - by rewrite Hs2, Hs1, <- app_assoc.
  - by rewrite Ht2.
  - eapply rest_same_trans; [exact Hr1|]. unfold rest_same. by cbn.
Qed.
Lemma wp_fails_with msg (Q : Z -> world L W -> Prop) (X : stop -> world L W -> Prop) (w : world L W) :
  (forall w', stk w' = stk w ++ [VNil; VString (Sqlite.c_text (msg ++ [0]))] -> tables (lua w') = tables (lua w) ->
     rest_same w w' -> Q 2 w') ->
  (forall w', rest_same w w' -> X LuaError w') -> wp (fails_with msg) Q X w.
Proof.
  intros HQ HX. unfold fails_with. apply wp_bind, wp_push_nil. intros w1 Hs1 Ht1 Hr1. apply wp_bind, wp_jump; [|by apply HX].
  intros l Hl. destruct (pushstring_law _ _ _ Hl) as (Hs2 & Ht2 & Hg2). apply wp_ret, HQ; cbn [set_lua lua].
  - by rewrite Hs2, Hs1, <- app_assoc.
  - by rewrite Ht2.
  - eapply rest_same_trans; [exact Hr1|]. unfold rest_same. by cbn.
Qed.

Definition readonly (w : world L W) : bool := truth (Some (registry (lua w) (str "_SQL_READONLY"))).

Lemma wp_restricted (w : world L W) :
  wp is_sql_restricted
    (fun b w' => b = readonly w /\ stk w' = stk w /\ tables (lua w') = tables (lua w) /\ rest_same w w')
    (fun e w' => e = LuaError /\ w' = w) w.
Proof.
  unfold is_sql_restricted. apply wp_bind, wp_jump; [|done]. intros l Hl.
  destruct (registry_law _ _ _ Hl) as (Hs & Ht & Hr). apply wp_bind.
  change (wp (ask (lua_toboolean (-1))) ?Q ?X (set_lua l w)) with (Q (lua_toboolean (-1) l) (set_lua l w)).
  apply wp_bind. unfold lua_pop. apply wp_pure, wp_ret. cbn [set_lua lua].
  destruct (pop_law l 1) as (Hp & Hpt & Hpr); [rewrite Hs, zlen_app; unfold zlen; cbn; lia|].
  rewrite toboolean_law, Hs, at_last. split; [done|]. rewrite Hp, Hs, length_app. cbn [length].
  replace (length (stk w) + 1 - Z.to_nat 1)%nat with (length (stk w)) by lia. rewrite take_app_length.
  split; [done|]. split; [congruence|]. unfold rest_same. cbn. split_and!; try done. congruence.
Qed.

(** What the call leaves: the values it returns, the database and the rest. *)
Definition told (db : Z) (q : list Z) (w : world L W) (n : Z) (w' : world L W) : Prop :=
  held w' = held w /\ registry (lua w') = registry (lua w) /\
  (forall id t, tables (lua w) !! id = Some t -> tables (lua w') !! id = Some t) /\
  exists vs, stk w' = stk w ++ vs /\ n = zlen vs /\
  if readonly w && negb (allowed q) then database w' = database w /\ vs = [VNil; VString (str "sql() is read-only for agents")]
  else let '(r, d) := Sqlite.query turns db q (database w) in
    Sqlite.data (database w') = Sqlite.data d /\ Sqlite.stmts (database w') = Sqlite.stmts d /\
    match r with
    | Ok r => if bool_decide (Sqlite.columns r = []) then vs = [VBoolean true]
              else exists id t, vs = [VTable id] /\ tables (lua w) !! id = None /\ tables (lua w') !! id = Some t /\
                filled (Sqlite.columns r) (Sqlite.rows r) (tables (lua w')) id t
    | Err e => vs = [VNil; VString (Sqlite.c_text (e ++ [0]))]
    | Panic => False
    end.
Definition breaks (db : Z) (q : list Z) (w : world L W) (e : stop) (w' : world L W) : Prop :=
  e = LuaError /\
  (database w' = database w \/ (readonly w && negb (allowed q) = false /\
     Sqlite.data (database w') = Sqlite.data (snd (Sqlite.query turns db q (database w))))).

(** A string argument is read as it is. *)
Lemma wp_string_arg q (Q : option (list Z) -> world L W -> Prop) (X : stop -> world L W -> Prop) (w : world L W) :
  stk w !! 0%nat = Some (VString q) ->
  (forall w', stk w' = stk w -> tables (lua w') = tables (lua w) -> rest_same w w' -> Q (Some q) w') ->
  X LuaError w -> wp (lua_to_str 1) Q X w.
Proof.
  intros Hq HQ HX. apply wp_to_str; [|exact HX]. intros s l Hl.
  destruct (tolstring_law _ _ _ _ Hl) as (Ht & Hr & Hcase). assert (at_index (stk w) 1 = Some (VString q)) as Ha by exact Hq.
  rewrite Ha in Hcase. destruct Hcase as [-> Hs].
  apply HQ; [exact Hs|exact Ht|unfold rest_same; by cbn].
Qed.

(** The audit row after a statement, and the results the call leaves. *)
Lemma wp_audited {A} action target (k : B A) (Q : A -> world L W -> Prop) (X : stop -> world L W -> Prop) (w : world L W) :
  DB ∉ held w -> (forall w', calm w w' -> wp k Q X w') ->
  (forall w', Sqlite.data (database w') = Sqlite.data (database w) -> X LuaError w') ->
  wp (_ ← audit_log guard action target; k) Q X w.
Proof.
  intros Hh HQ HX. apply wp_bind. eapply wp_mono; [by apply wp_audit|intros [] w1 Hc; by apply HQ|].
  intros e w1 (-> & Hd & _). by apply HX.
Qed.

Lemma answered db q w : guard = Some db -> DB ∉ held w -> readonly w && negb (allowed q) = false ->
  fst (Sqlite.query turns db q (database w)) <> Panic ->
  (forall r, fst (Sqlite.query turns db q (database w)) = Ok r ->
     Forall (fun row : list Sqlite.SqlValue => length row = length (Sqlite.columns r)) (Sqlite.rows r)) ->
  forall w1, stk w1 = stk w -> tables (lua w1) = tables (lua w) -> rest_same w w1 ->
  wp (run_sql turns guard q) (told db q w) (breaks db q w) w1.
Proof.
  intros Hg Hh Hro Hnp Hwid w1 Hs1 Ht1 (Hd1 & Hl1 & _ & _ & _ & Hr1). unfold told, breaks. rewrite Hro.
  destruct (Sqlite.query turns db q (database w)) as [r d] eqn:Hq. cbn [fst snd] in *. rewrite <- Hd1 in Hq.
  unfold run_sql. apply wp_bind, wp_lock_db; [by rewrite Hl1|]. rewrite Hg. apply wp_bind.
  eapply wp_on_db; [exact Hq|]. destruct r as [r|e|]; [|clear Hwid|done].
  - specialize (Hwid r eq_refl). case_bool_decide as Hcol.
    + apply wp_bind, wp_release. cbn [held set_database set_held]. rewrite Hl1, release_held, <- Hg by done.
      apply wp_audited; [done| |intros w' Hd'; split; [done|by right]].
      intros w2 (H1 & H2 & H3 & H4 & H5 & H6). cbn in H1, H2, H3, H4, H5, H6.
      apply wp_bind, wp_pure, wp_ret. destruct (pushboolean_law 1 (lua w2)) as (Hs & Ht & Hr). cbn [set_lua held lua database].
      rewrite Ht, Hr, H2, H3, Ht1, Hr1. split_and!; try done. exists [VBoolean true].
      rewrite Hs, H1, Hs1, H4, H5. by split_and!.
    + apply wp_bind, wp_new_table; [|by split; [|right]].
      intros w2 id Hs2 Hid Hfresh Hts (Hd2 & Hl2 & _ & _ & _ & Hr2). cbn in Hs2, Hid, Hfresh, Hts, Hd2, Hl2, Hr2.
      apply wp_bind. eapply wp_mono; [by apply (wp_sql_rows (Sqlite.columns r) (Sqlite.rows r) id (stk w1))| |].
      2:{ intros e w3 (-> & Hd3 & _). split; [done|]. right. by rewrite Hd3, Hd2. }
      intros [] w3 (Hs3 & (Hd3 & Hl3 & _ & _ & _ & Hr3) & Hold & t & Hid3 & Hfill).
      apply wp_bind, wp_release. rewrite Hl3, Hl2, Hl1, release_held, <- Hg by done.
      apply wp_audited; [done| |intros w' Hd'; split; [done|right; split; [done|]]; cbn in Hd'; by rewrite Hd', Hd3, Hd2].
      intros w4 (H1 & H2 & H3 & H4 & H5 & H6). cbn in H1, H2, H3, H4, H5, H6. apply wp_ret.
      split; [done|]. split; [congruence|]. split.
      * intros j u Hj. rewrite H2. rewrite <- Ht1 in Hj. apply Hold; [rewrite Hts, lookup_insert_ne; [done|]|]; congruence.
      * exists [VTable id]. rewrite H1, H2, H4, H5, Hs3, Hs1, Hd3, Hd2. split; [done|]. split; [done|].
        split; [done|]. split; [done|]. exists id, t.
        split_and!; [done|by rewrite <- Ht1|done|done].
  - apply wp_bind, wp_release. cbn [held set_database set_held]. rewrite Hl1, release_held by done.
    apply wp_fails_with; [|intros w' (Hd' & _); cbn in Hd'; split; [done|right; split; [done|by rewrite Hd']]].
    intros w2 Hs2 Ht2 (Hd2 & Hl2 & _ & _ & _ & Hr2). cbn in Hs2, Ht2, Hd2, Hl2, Hr2.
    split; [done|]. split; [congruence|]. split; [intros id t; by rewrite Ht2, Ht1|].
    eexists. rewrite Hs2, Hs1, Hd2. by split_and!.
Qed.
End sql.


(** ** How often [ask] asks *)
Section spacing.
Context {L W : Type} `{HL : LuaApi L} `{HE : Sqlite.Engine W}.
Variable f64_text : Json.f64 -> list Z.
Variable turns : nat.
Variable guard : option Z.

(** Neither the time of the last question nor the requests change. *)
Definition silent {A} (m : B (L := L) (W := W) A) : Prop :=
  forall w, last_ask (snd (m w)) = last_ask w /\ requests (snd (m w)) = requests w.

Lemma silent_ret {A} (a : A) : silent (mret a).
Proof. done. Qed.
Lemma silent_bind {A C} (m : B A) (k : A -> B C) : silent m -> (forall a, silent (k a)) -> silent (m ≫= k).
Proof.
  intros Hm Hk w. destruct (Hm w) as [H1 H2]. unfold mbind, st_bind. destruct (m w) as [[a|e|] w1]; cbn in *; [|done..].
  destruct (Hk a w1) as [H3 H4]. split; congruence.
Qed.
Lemma silent_pure f : silent (pure f).
Proof. done. Qed.
Lemma silent_ask {A} (f : L -> A) : silent (ask f).
Proof. done. Qed.
Lemma silent_jump f : silent (jump f).
Proof. intros w. unfold jump. by destruct (f (lua w)). Qed.
Lemma silent_to_str i : silent (lua_to_str i).
Proof. intros w. unfold lua_to_str. by destruct (lua_tolstring i (lua w)) as [[]|]. Qed.
Lemma silent_next i : silent (next i).
Proof. intros w. unfold next. by destruct (lua_next i (lua w)) as [[]|]. Qed.
Lemma silent_acquire x : silent (acquire x).
Proof. intros w. unfold acquire. by case_bool_decide. Qed.
Lemma silent_release x : silent (release x).
Proof. done. Qed.
Lemma silent_panic {A} : silent (@st_panic (world L W) stop A).
Proof. done. Qed.
Lemma silent_on_db {A} (m : Sqlite.L A) : silent (on_db m).
Proof. intros w. unfold on_db. by destruct (st_try m (database w)). Qed.
Lemma silent_resolve s : silent (resolve s).
Proof. intros w. unfold resolve. by destruct (Dns.resolve_a s _ (cache w)) as [[[] ?]|]. Qed.

Create HintDb silent discriminated.
#[local] Hint Constants Opaque : silent.
#[local] Hint Resolve silent_ret silent_bind silent_pure silent_ask silent_jump silent_to_str silent_next silent_acquire
  silent_release silent_panic silent_on_db silent_resolve : silent.
Ltac quiet := repeat (first [progress auto with silent|apply silent_bind; [|intros]|case_match]).

Lemma silent_fails_with msg : silent (fails_with msg).
Proof. unfold fails_with, push_rust_string. quiet. Qed.
Lemma silent_leave {A} x (a : A) : silent (leave x a).
Proof. unfold leave. quiet. Qed.
Lemma silent_audit_log action target : silent (audit_log guard action target).
Proof. unfold audit_log, get_agent_name, exec_quietly, lock_db, drop_guard, lua_pop. quiet. Qed.
Lemma silent_parse_message : silent parse_message.
Proof. unfold parse_message, lua_pop. quiet. Qed.
#[local] Hint Resolve silent_fails_with silent_leave silent_audit_log silent_parse_message : silent.
Lemma silent_messages n idx messages : silent (messages_loop n idx messages).
Proof. revert messages. induction n as [|n IH]; intros messages; cbn [messages_loop]; [quiet|]. unfold lua_pop. quiet. Qed.
#[local] Hint Resolve silent_messages : silent.
Lemma silent_parse_prompt : silent (parse_prompt turns).
Proof. unfold parse_prompt, parse_messages_table, lua_pop. quiet. Qed.

(** At most one request. *)
Definition once {A} (m : B (L := L) (W := W) A) : Prop :=
  forall w, last_ask (snd (m w)) = last_ask w /\
    (requests (snd (m w)) = requests w \/ exists r, requests (snd (m w)) = requests w ++ [r]).
Lemma once_silent {A} (m : B A) : silent m -> once m.
Proof. intros Hm w. destruct (Hm w) as [H1 H2]. split; [done|by left]. Qed.
Lemma once_after {A C} (m : B A) (k : A -> B C) : silent m -> (forall a, once (k a)) -> once (m ≫= k).
Proof.
  intros Hm Hk w. destruct (Hm w) as [H1 H2]. unfold mbind, st_bind. destruct (m w) as [[a|e|] w1]; cbn in *; [|by split; [|left]..].
  destruct (Hk a w1) as [H3 H4]. rewrite <- H1, <- H2. by split.
Qed.
Lemma once_send network req : once (send network req).
Proof. intros w. unfold send. cbn. destruct (fst _); (split; [done|]); right; by eexists. Qed.
Lemma once_before {A C} (m : B A) (k : A -> B C) : once m -> (forall a, silent (k a)) -> once (m ≫= k).
Proof.
  intros Hm Hk w. destruct (Hm w) as [H1 H2]. unfold mbind, st_bind. destruct (m w) as [[a|e|] w1]; cbn in *; [|done..].
  destruct (Hk a w1) as [H3 H4]. rewrite H3, H4. by split.
Qed.

Lemma after_bind {A C} (m : B (L := L) (W := W) A) (k : A -> B C) (P : world L W -> Prop) w :
  (forall a, P (snd (k a (snd (m w))))) -> P (snd (m w)) -> P (snd ((m ≫= k) w)).
Proof. intros HP HQ. unfold mbind, st_bind. by destruct (m w) as [[a|e|] w1]. Qed.

Lemma ask_step now_ms key model net s network w :
  let w' := snd (lua_ask turns guard now_ms key model net s network w) in
  last_ask w' = last_ask w /\ requests w' = requests w \/
  last_ask w' = now_ms /\ ASK_MIN_INTERVAL_MS <= now_ms ⊟ last_ask w /\
    (requests w' = requests w \/ exists r, requests w' = requests w ++ [r]).
Proof.
  cbn zeta. unfold lua_ask. pose proof (silent_acquire LAST_ASK_MS w) as [H1 H2].
  apply (after_bind _ _ (fun w' => last_ask w' = last_ask w /\ requests w' = requests w \/
    last_ask w' = now_ms /\ ASK_MIN_INTERVAL_MS <= now_ms ⊟ last_ask w /\
      (requests w' = requests w \/ exists r, requests w' = requests w ++ [r]))); [intros []|by left].
  set (w1 := snd (acquire LAST_ASK_MS w)) in *.
  change ((st_get ≫= ?k) w1) with (k w1 w1). cbn beta. rewrite <- H1, <- H2.
  case_match eqn:Hlt.
  - left. enough (silent (n ← fails_with (str "ask() rate limited (10s between calls)"); leave LAST_ASK_MS n))
      as Hs by apply Hs. quiet.
  - right. apply Z.ltb_ge in Hlt. change ((st_put ?w2 ≫= ?k) w1) with (k tt w2). cbn beta.
    match goal with |- context [snd (?m (set_last_ask _ _))] => assert (once m) as Hm; [|revert Hm; generalize m; intros m' Hm] end.
    { apply once_after; [quiet|intros _]. case_match; [|apply once_silent; quiet].
      apply once_after; [apply silent_parse_prompt|intros [[system messages]|msg]]; [|apply once_silent; quiet].
      apply once_after; [quiet|intros _]. destruct (negb net); [apply once_silent; quiet|].
      apply once_after; [quiet|intros [ip|e]]; [|apply once_silent; quiet].
      apply once_before; [apply once_send|]. intros r. quiet. }
    destruct (Hm (set_last_ask now_ms w1)) as [H3 H4]. cbn in H3, H4. by rewrite H3.
Qed.

(** A history: questions at given times, and in between whatever else runs. *)
Record question := mkQuestion {
  at_ms : Z;
  api_key : option (list Z);
  model : option (list Z);
  net_up : bool;
  dns : Dns.session;
  network : list ClaudeRequest -> nat -> ApiClient.session;
}.
Inductive event := Question (q : question) | Other (f : world L W -> world L W).
Definition happen (e : event) (w : world L W) : world L W :=
  match e with
  | Question q => snd (lua_ask turns guard (at_ms q) (api_key q) (model q) (net_up q) (dns q) (network q) w)
  | Other f => f w
  end.
(** The times of the requests that are sent. *)
Fixpoint sent (es : list event) (w : world L W) : list Z :=
  match es with
  | [] => []
  | e :: es =>
      let w' := happen e w in
      match e with
      | Question q => if zlen (requests w) <? zlen (requests w') then [at_ms q] else []
      | Other _ => []
      end ++ sent es w'
  end.

(** The clock goes on from [t]; the rest of the kernel does not touch [ask]. *)
Fixpoint orderly (t : Z) (es : list event) : Prop :=
  match es with
  | [] => True
  | Question q :: es => t <= at_ms q < 2 ^ 64 /\ orderly (at_ms q) es
  | Other f :: es => (forall w, last_ask (f w) = last_ask w /\ requests (f w) = requests w) /\ orderly t es
  end.
Fixpoint spaced (t : Z) (ts : list Z) : Prop :=
  match ts with [] => True | t' :: ts => t + ASK_MIN_INTERVAL_MS <= t' /\ spaced t' ts end.

Lemma spaced_weaken t t' ts : t' <= t -> spaced t ts -> spaced t' ts.
Proof. destruct ts as [|u ts]; [done|]. intros Ht [H1 H2]. split; [lia|done]. Qed.

Lemma sent_spaced es : forall t w, 0 <= last_ask w <= t -> orderly t es -> spaced (last_ask w) (sent es w).
Proof.
  induction es as [|[q|f] es IH]; intros t w Hw; [done| |].
  - intros [Hq Hes]. cbn [sent happen].
    pose proof (ask_step (at_ms q) (api_key q) (model q) (net_up q) (dns q) (network q) w) as Hstep. cbn zeta in Hstep.
    set (w' := snd _) in *. destruct Hstep as [[H1 H2]|(H1 & H2 & H3)].
    + rewrite H2, Z.ltb_irrefl. cbn. rewrite <- H1. by apply (IH (at_ms q)); [lia|].
    + assert (last_ask w + ASK_MIN_INTERVAL_MS <= at_ms q) as Hgap.
      { unfold wrap64 in H2. rewrite Z.mod_small in H2; lia. }
      pose proof (IH (at_ms q) w' ltac:(lia) Hes) as Hrest. rewrite H1 in Hrest.
      destruct (zlen (requests w) <? zlen (requests w')); cbn; [done|].
      eapply spaced_weaken; [|exact Hrest]. unfold ASK_MIN_INTERVAL_MS in *. lia.
  - intros [Hf Hes]. cbn [sent happen app]. destruct (Hf w) as [H1 _]. rewrite <- H1. apply (IH t); [lia|done].
Qed.
End spacing.


(** ** An interpreter

    It has room for [room] more allocations. *)
Module Small.
Record interp := mkInterp { vals : list value; tabs : gmap Z table; names : gmap (list Z) value; room : nat }.

Definition set_vals (s : list value) (l : interp) : interp := mkInterp s (tabs l) (names l) (room l).
Definition push (v : value) (l : interp) : interp := set_vals (vals l ++ [v]) l.
Definition alloc (l : interp) : option interp :=
  match room l with O => None | S n => Some (mkInterp (vals l) (tabs l) (names l) n) end.
Definition named (l : interp) (k : list Z) : value := default VNil (names l !! k).

Definition settop (n : Z) (l : interp) : interp :=
  set_vals (if n <? 0 then take (Z.to_nat (zlen (vals l) + n + 1)) (vals l) else resize (Z.to_nat n) VNil (vals l)) l.
Definition createtable (l : interp) : option interp :=
  l ← alloc l;
  let id := fresh (dom (tabs l)) in
  Some (mkInterp (vals l ++ [VTable id]) (<[id := ∅]> (tabs l)) (names l) (room l)).
(** [t[k] = v] with [v] on top of the stack, which is popped. *)
Definition set (idx : Z) (k : key) (l : interp) : option interp :=
  l ← alloc l;
  v ← last (vals l);
  let s := take (length (vals l) - 1) (vals l) in
  if idx =? LUA_REGISTRYINDEX then
    match k with
    | inr name => Some (mkInterp s (tabs l) (<[name := v]> (names l)) (room l))
    | inl _ => None
    end
  else
    match at_index (vals l) idx with
    | Some (VTable id) => t ← tabs l !! id; Some (mkInterp s (<[id := assign k v t]> (tabs l)) (names l) (room l))
    | _ => None
    end.
Definition getfield (idx : Z) (k : list Z) (l : interp) : option interp :=
  l ← alloc l;
  if idx =? LUA_REGISTRYINDEX then Some (push (named l (Sqlite.c_text k)) l)
  else
    match at_index (vals l) idx with
    | Some (VTable id) => t ← tabs l !! id; Some (push (default VNil (t !! inr (Sqlite.c_text k))) l)
    | _ => None
    end.
Definition key_value (k : key) : value := match k with inl n => VInteger n | inr s => VString s end.
Fixpoint entry_after (k : value) (es : list (key * value)) : list (key * value) :=
  match es with
  | [] => []
  | (k', _) :: es => match k, k' with
                     | VNil, _ => []
                     | VInteger n, inl m => if n =? m then es else entry_after k es
                     | VString s, inr t => if bool_decide (s = t) then es else entry_after k es
                     | _, _ => entry_after k es
                     end
  end.
Definition next (idx : Z) (l : interp) : option (Z * interp) :=
  match at_index (vals l) idx, last (vals l) with
  | Some (VTable id), Some k =>
      t ← tabs l !! id;
      let es := map_to_list t in
      let s := take (length (vals l) - 1) (vals l) in
      match (match k with VNil => es | _ => entry_after k es end) with
      | [] => Some (0, set_vals s l)
      | (k, v) :: _ => Some (1, set_vals (s ++ [key_value k; v]) l)
      end
  | _, _ => None
  end.
Definition tolstring (idx : Z) (l : interp) : option (option (list Z) * interp) :=
  let become b := l ← alloc l; Some (Some b, set_vals (<[place (length (vals l)) idx := VString b]> (vals l)) l) in
  match at_index (vals l) idx with
  | Some (VString b) => Some (Some b, l)
  | Some (VInteger n) => become (Sqlite.dec_i64 n)
  | Some (VNumber _) => become (str "0.0")
  | _ => Some (None, l)
  end.

#[export] Instance small_api : LuaApi interp := {
  lua_gettop l := zlen (vals l);
  lua_settop := settop;
  lua_pushnil := push VNil;
  lua_pushboolean b := push (VBoolean (negb (b =? 0)));
  lua_pushinteger n := push (VInteger n);
  lua_pushnumber x := push (VNumber x);
  lua_pushstring p l := push (VString (Sqlite.c_text p)) <$> alloc l;
  lua_pushlstring s l := push (VString s) <$> alloc l;
  lua_createtable _ _ := createtable;
  lua_setfield idx k := set idx (inr (Sqlite.c_text k));
  lua_getfield := getfield;
  lua_rawseti idx n := set idx (inl n);
  lua_next := next;
  lua_tolstring := tolstring;
  lua_toboolean idx l := if truth (at_index (vals l) idx) then 1 else 0;
  lua_tointegerx idx l := match at_index (vals l) idx with Some (VInteger n) => n | _ => 0 end;
  lua_type idx l := type_of (at_index (vals l) idx);
}.

Lemma alloc_same l l' : alloc l = Some l' -> vals l' = vals l /\ tabs l' = tabs l /\ named l' = named l.
Proof. unfold alloc. destruct (room l); [done|]. by intros [= <-]. Qed.
Lemma push_some v l l' : push v <$> alloc l = Some l' ->
  vals l' = vals l ++ [v] /\ tabs l' = tabs l /\ named l' = named l.
Proof.
  intros Hp. apply fmap_Some in Hp as (l1 & Hl1 & ->). destruct (alloc_same _ _ Hl1) as (H1 & H2 & H3).
  cbn. rewrite H1, H2. by rewrite <- H3.
Qed.
Lemma set_some k l l' s id v t : set (-2) k l = Some l' -> vals l = s ++ [VTable id; v] -> tabs l !! id = Some t ->
  vals l' = s ++ [VTable id] /\ tabs l' = <[id := assign k v t]> (tabs l) /\ named l' = named l.
Proof.
  unfold set. intros Hl Hs Ht. apply bind_Some in Hl as (l1 & Hl1 & Hl). destruct (alloc_same _ _ Hl1) as (H1 & H2 & H3).
  rewrite H1, Hs in Hl. replace (s ++ [VTable id; v]) with ((s ++ [VTable id]) ++ [v]) in Hl by (by rewrite <- app_assoc).
  rewrite last_snoc in Hl. cbn [mbind option_bind] in Hl. change (-2 =? LUA_REGISTRYINDEX) with false in Hl.
  assert (at_index ((s ++ [VTable id]) ++ [v]) (-2) = Some (VTable id)) as Hat.
  { unfold at_index, place. cbn. rewrite !length_app. cbn. replace (Z.to_nat _) with (length s) by lia.
    rewrite <- app_assoc. by apply list_lookup_middle. }
  rewrite Hat, H2, Ht in Hl. cbn [mbind option_bind] in Hl. injection Hl as <-. cbn. split; [|split; [done|by rewrite <- H3]].
  rewrite length_app. cbn. replace (_ + 1 - 1)%nat with (length (s ++ [VTable id])) by lia. apply take_app_length.
Qed.

#[export, refine] Instance small_spec : LuaSpec interp := { stack := vals; tables := tabs; registry := named }.
Proof.
  - done.
  - intros l n Hn. cbn. unfold settop, set_vals. cbn. split; [|done].
    destruct (decide (n = zlen (vals l))) as [->|Hne].
    + case_match; [f_equal; unfold zlen in *; lia|]. unfold zlen in *. lia.
    + rewrite (proj2 (Z.ltb_lt _ _)) by lia. f_equal. unfold zlen in *. lia.
  - done.
  - done.
  - done.
  - done.
  - intros s l l'. apply push_some.
  - intros p l l'. apply push_some.
  - intros a r l l' Hl. apply bind_Some in Hl as (l1 & Hl1 & [= <-]). destruct (alloc_same _ _ Hl1) as (H1 & H2 & H3).
    exists (fresh (dom (tabs l1))). cbn. rewrite <- H3, H1, <- H2. split; [|done].
    apply not_elem_of_dom, is_fresh.
  - intros k l l' s id v t. apply set_some.
  - intros n l l' s id v t. apply set_some.
  - intros k l l' Hl. apply bind_Some in Hl as (l1 & Hl1 & Hl). destruct (alloc_same _ _ Hl1) as (H1 & H2 & H3).
    change (LUA_REGISTRYINDEX =? LUA_REGISTRYINDEX) with true in Hl. injection Hl as <-. cbn. by rewrite <- H3, H1, H2.
  - intros i l s l' Hl. cbn in Hl. unfold tolstring in Hl.
    destruct (at_index (vals l) i) as [v|]; [|by injection Hl as <- <-].
    destruct v as [|b|n|x|b|id|t]; try (by injection Hl as <- <-).
    1,2: apply bind_Some in Hl as (l1 & Hl1 & [= <- <-]); destruct (alloc_same _ _ Hl1) as (H1 & H2 & H3); cbn;
      split; [exact H2|split; [by rewrite <- H3|eexists; split; [reflexivity|by rewrite H1]]].
  - intros i l. cbn. by destruct (truth _).
  - done.
Defined.

#[local] Existing Instances AgentSpec.Small.small AgentSpec.Small.small_spec AgentSpec.Small.small_namespace.
#[local, refine] Instance small_audited : Audited (Sqlite.state (D := files)) := { }.
Proof.
  intros db sql agent action target w Hl. cbn. unfold Sqlite.exec_small, AgentSpec.Small.execute. rewrite Hl.
  cbn [mbind option_bind]. rewrite AgentSpec.Small.literals_tokens. cbn [fmap list_fmap AgentSpec.audit_form snd].
  by rewrite bool_decide_eq_true_2.
Defined.

(** A script that calls [f] with [args], on a disk with one file. *)
Definition calling (args : list value) (registry : gmap (list Z) value) (room : nat) : world interp (Sqlite.state (D := files)) :=
  mkWorld (mkInterp args ∅ registry room) AgentSpec.Small.start [] 0 [] [] [].


Example read_jumps_with_lock :
  let w' := snd (lua_read (fun _ => []) 3 (Some 1) (calling [VString (str "/etc/motd")] ∅ 0)) in
  fst (lua_read (fun _ => []) 3 (Some 1) (calling [VString (str "/etc/motd")] ∅ 0)) = Err LuaError /\
  held w' = [DB] /\ fst (lua_read (fun _ => []) 3 (Some 1) w') = Err Deadlock.
Proof. vm_compute. done. Qed.

(** With the mark in the registry a deletion is refused; a question is
    answered with the table of its rows. *)
Definition marked : gmap (list Z) value := {[ str "_SQL_READONLY" := VBoolean true ]}.
Definition deletion : list Z := str "DELETE FROM namespace".


(** Asked at 12, 15 and 23 seconds, the model gets the first and the last
    question. *)
Definition known_host : list (option Dns.CacheEntry) := [Some (Dns.mkEntry (str "api.anthropic.com") [10; 1; 2; 3] (2 ^ 40))].
Definition asking : world interp (Sqlite.state (D := files)) :=
  mkWorld (mkInterp [VString (str "hello")] ∅ ∅ 50) AgentSpec.Small.start [] 0 [] known_host [].
Definition question_at (t : Z) : event (L := interp) (W := Sqlite.state (D := files)) :=
  Question (mkQuestion t (Some (str "key")) None true (Dns.mkSession t true true [])
    (fun _ _ => ApiClient.mkSession false true true [] true [])).
Definition afternoon : list event :=
  [question_at 12000; question_at 15000; Other (fun w => set_lua (set_vals [VString (str "more")] (lua w)) w); question_at 23000].

End Small.
End Lua.
