(* ===== verification/LuaRun.v ===== *)
(** * Running scripts ([lua/mod.rs], [lua/repl.rs])

    A script's run from the new interpreter state to its close, the hook that
    ends long ones, and the interactive loop.  Outside [lua_pcall] a long jump
    has nowhere to go: the interpreter calls [abort], which is a kernel
    panic. *)
From S2P Require Import Prelude.
From S2P Require Import Bytes.
From S2P Require Import Utf8.
From S2P Require Import Fmt.
From S2P Require Import Str.
From S2P Require Import LuaAlloc.
From S2P Require Import Sqlite.
From S2P Require Import Lua.

Module LuaRun.
Import Lua.

Create HintDb opens.
Definition EXEC_TIMEOUT_MS : Z := 30000.
Definition LUA_OK : Z := 0.
Definition LUA_GCINC : Z := 8.
Definition LUA_GCPARAM : Z := 9.
Definition LUA_GCPPAUSE : Z := 3.
Definition LUA_GCPSTEPMUL : Z := 4.
Definition LUA_GCPSTEPSIZE : Z := 5.
Definition LUA_MASKCOUNT : Z := Z.shiftl 1 3.
Definition LUA_TLIGHTUSERDATA : Z := 2.
Definition wrap_i64 (z : Z) : Z := (z + 2 ^ 63) mod 2 ^ 64 - 2 ^ 63.

(** The rest of the interpreter's interface: states are made and closed,
    chunks are loaded and run.  [None] is a long jump. *)
Class Runtime (L W : Type) `{LuaApi L} := {
  lua_newstate : Z -> world L W -> option L * world L W;
  lua_close : world L W -> world L W;
  luaL_openselectedlibs : Z -> Z -> L -> option L;
  lua_gc : Z -> list Z -> L -> L;
  lua_register : list Z -> L -> option L;
  lua_pushlightuserdata : Z -> L -> L;
  lua_touserdata : Z -> L -> Z;
  lua_sethook : Z -> Z -> L -> L;
  luaL_loadbufferx : list Z -> list Z -> L -> Z * L;
  lua_pcall : world L W -> Z * world L W;
}.

Section run.
Context {L W : Type} `{HL : LuaApi L} `{!Runtime L W}.
Abbreviation U E A := (st (world L W) E A).

(** A call of the interpreter outside [lua_pcall]. *)
Definition unprotected {E A} (m : B (L := L) (W := W) A) : U E A := fun w =>
  match m w with
  | (Ok a, w') => (Ok a, w')
  | (_, w') => (Panic, w')
  end.

Definition builtins : list (list Z) :=
  str <$> ["sql"; "read"; "write"; "ls"; "log"; "sleep"; "now"; "audit"; "ask"]%string.
Definition register_builtins : B (L := L) (W := W) unit := st_for (fun name => jump (lua_register (name ++ [0]))) builtins.

Definition luaL_openlibs : B (L := L) (W := W) unit := jump (luaL_openselectedlibs (-1) 0).
Definition set_gc : B (L := L) (W := W) unit :=
  _ ← pure (lua_gc LUA_GCINC []);
  _ ← pure (lua_gc LUA_GCPARAM [LUA_GCPPAUSE; 100]);
  _ ← pure (lua_gc LUA_GCPARAM [LUA_GCPSTEPMUL; 200]);
  pure (lua_gc LUA_GCPARAM [LUA_GCPSTEPSIZE; 10]).

Definition store_agent_name (name : list Z) : B (L := L) (W := W) unit :=
  _ ← jump (lua_pushlstring name);
  jump (lua_setfield LUA_REGISTRYINDEX (str "_AGENT_NAME" ++ [0])).

(** [start] is the counter, [per_ms] its ticks a millisecond. *)
Definition deadline_of (start per_ms timeout_ms : Z) : Z :=
  if 0 <? per_ms then sat_add64 start (sat_mul64 timeout_ms per_ms) else 2 ^ 64 - 1.
Definition install_timeout_hook (start per_ms timeout_ms : Z) : B (L := L) (W := W) unit :=
  let deadline := deadline_of start per_ms timeout_ms in
  _ ← pure (lua_pushinteger (wrap_i64 deadline));
  _ ← jump (lua_setfield LUA_REGISTRYINDEX (str "_DEADLINE" ++ [0]));
  pure (lua_sethook LUA_MASKCOUNT 10000).

(** What the hook does when it is called with the counter at [now]. *)
Definition timeout_hook (now : Z) : B (L := L) (W := W) unit :=
  _ ← jump (lua_getfield LUA_REGISTRYINDEX (str "_DEADLINE" ++ [0]));
  deadline ← ask (lua_tointegerx (-1));
  _ ← lua_pop 1;
  if wrap64 deadline <=? now then st_err LuaError else mret tt.

Definition get_lua_error : B (L := L) (W := W) (list Z) :=
  r ← lua_to_str (-1);
  match r with
  | Some bytes => let msg := from_utf8_lossy bytes in _ ← lua_pop 1; mret msg
  | None => _ ← lua_pop 1; mret (str "unknown Lua error")
  end.

Definition load (code name : list Z) : B (L := L) (W := W) Z := fun w =>
  let '(rc, l) := luaL_loadbufferx code (name ++ [0]) (lua w) in (Ok rc, set_lua l w).
Definition pcall : B (L := L) (W := W) Z := fun w => let '(rc, w') := lua_pcall w in (Ok rc, w').

Definition load_and_exec (code name : list Z) : B (L := L) (W := W) (unit + list Z) :=
  rc ← load code name;
  if negb (rc =? LUA_OK) then err ← get_lua_error; mret (inr err)
  else
    rc ← pcall;
    if negb (rc =? LUA_OK) then err ← get_lua_error; mret (inr err)
    else mret (inl tt).

Definition newstate (limit : Z) : B (L := L) (W := W) bool := fun w =>
  match lua_newstate limit w with
  | (None, w') => (Ok false, w')
  | (Some l, w') => (Ok true, set_lua l w')
  end.
Definition close : B (L := L) (W := W) unit := fun w => (Ok tt, lua_close w).

(** What is done to a new state before its script. *)
Definition set_up (name : list Z) (start per_ms : Z) : B (L := L) (W := W) unit :=
  _ ← luaL_openlibs;
  _ ← set_gc;
  _ ← register_builtins;
  _ ← store_agent_name name;
  _ ← set_sql_readonly true;
  install_timeout_hook start per_ms EXEC_TIMEOUT_MS.

Definition run_string (start per_ms : Z) (code name : list Z) : U (list Z) unit :=
  ok ← unprotected (newstate LuaAlloc.LUA_MEM_LIMIT);
  if negb ok then st_err (str "failed to create Lua state (out of memory)")
  else
    _ ← unprotected (set_up name start per_ms);
    result ← unprotected (load_and_exec code name);
    _ ← unprotected close;
    match result with inl _ => mret tt | inr e => st_err e end.

(** [serial_write_bytes], the output of the interpreter's [print]. *)
Definition serial_write_bytes (s : option (list Z)) (len : Z) : B (L := L) (W := W) unit :=
  match s with
  | Some bytes => if len <=? 0 then mret tt
                  else let text := take (Z.to_nat len) bytes in if is_utf8 text then print text else mret tt
  | None => mret tt
  end.

(** ** The interactive loop *)
(** The address of the static [EXIT_SENTINEL]. *)
Variable EXIT_SENTINEL : Z.

Definition lua_exit : B (L := L) (W := W) Z := _ ← pure (lua_pushlightuserdata EXIT_SENTINEL); st_err LuaError.
Definition check_exit_signal : B (L := L) (W := W) bool :=
  t ← ask (lua_type (-1));
  if negb (t =? LUA_TLIGHTUSERDATA) then mret false
  else p ← ask (lua_touserdata (-1)); mret (p =? EXIT_SENTINEL).

Definition print_value (i : Z) : B (L := L) (W := W) unit :=
  _ ← (if 1 <? i then print [9] else mret tt);
  s ← lua_to_str i;
  match s with
  | Some bytes => if is_utf8 bytes then print bytes else mret tt
  | None =>
      t ← ask (lua_type i);
      if t =? LUA_TNIL then print (str "nil")
      else if t =? LUA_TBOOLEAN then b ← ask (lua_toboolean i); print (if negb (b =? 0) then str "true" else str "false")
      else if t =? LUA_TTABLE then print (str "(table)")
      else print (str "(value)")
  end.
Definition print_stack_values (n : Z) : B (L := L) (W := W) unit :=
  _ ← st_for print_value (seqZ 1 n);
  print [10].
Definition print_error : B (L := L) (W := W) unit :=
  s ← lua_to_str (-1);
  _ ← match s with
      | Some bytes => if is_utf8 bytes then print (bytes ++ [10]) else mret tt
      | None => print (str "(unknown error)" ++ [10])
      end;
  lua_pop 1.

(** A line that is not empty; true leaves the loop. *)
Definition repl_line (trimmed : list Z) : B (L := L) (W := W) bool :=
  rc ← load (str "return " ++ trimmed) (str "=stdin");
  if rc =? LUA_OK then
    rc ← pcall;
    if rc =? LUA_OK then
      nresults ← ask lua_gettop;
      _ ← (if 0 <? nresults then _ ← print_stack_values nresults; lua_pop nresults else mret tt);
      mret false
    else
      quit ← check_exit_signal;
      if (quit : bool) then mret true else _ ← print_error; mret false
  else
    _ ← lua_pop 1;
    rc ← load trimmed (str "=stdin");
    if rc =? LUA_OK then
      rc ← pcall;
      if negb (rc =? LUA_OK) then
        quit ← check_exit_signal;
        if (quit : bool) then mret true else _ ← print_error; mret false
      else mret false
    else _ ← print_error; mret false.

(** The lines the editor returns; [None] for ^C and ^D.  An error is a loop
    that waits for more lines. *)
Fixpoint repl_loop (lines : list (option (list Z))) : U unit unit :=
  _ ← unprotected (print (str "> "));
  match lines with
  | [] => st_err tt
  | Some line :: lines =>
      let trimmed := Str.trim line in
      if bool_decide (trimmed = []) then repl_loop lines
      else
        quit ← unprotected (repl_line trimmed);
        if (quit : bool) then unprotected close else repl_loop lines
  | None :: _ => _ ← unprotected (print [10]); unprotected close
  end.

Definition repl (lines : list (option (list Z))) : U unit unit :=
  _ ← unprotected (print (str "Lua 5.5.0  Copyright (C) 1994-2025 Lua.org, PUC-Rio" ++ [10]));
  _ ← unprotected (print (str "Type ^D to exit." ++ [10]));
  ok ← unprotected (newstate (4 * LuaAlloc.LUA_MEM_LIMIT));
  if negb ok then unprotected (print (str "[lua] ERROR: failed to create Lua state (out of memory)" ++ [10]))
  else
    _ ← unprotected luaL_openlibs;
    _ ← unprotected set_gc;
    _ ← unprotected register_builtins;
    _ ← unprotected (store_agent_name (str "<repl>"));
    _ ← unprotected (jump (lua_register (str "exit" ++ [0])));
    repl_loop lines.
End run.

(** ** What the runs rely on: the interpreter's manual.  [states] counts the
    open states; [hook_count] is the number of instructions between two calls
    of the count hook. *)
Class RuntimeSpec (L W : Type) `{HL : LuaApi L} {HLS : LuaSpec L} {HR : Runtime L W} := {
  states : W -> Z;
  hook_count : L -> Z;
  newstate_law limit w : match lua_newstate limit w with
    | (None, w') => states (database w') = states (database w)
    | (Some l, w') => stack l = [] /\ states (database w') = states (database w) + 1
    end;
  close_law w : states (database (lua_close w)) = states (database w) - 1;
  openlibs_law a b l l' : luaL_openselectedlibs a b l = Some l' -> stack l' = stack l;
  gc_law what args l : stack (lua_gc what args l) = stack l;
  register_law name l l' : lua_register name l = Some l' -> stack l' = stack l;
  setregistry_law k l l' s v : lua_setfield LUA_REGISTRYINDEX k l = Some l' -> stack l = s ++ [v] ->
    stack l' = s /\ registry l' (Sqlite.c_text k) = v /\ (forall x, x <> Sqlite.c_text k -> registry l' x = registry l x) ;
  sethook_law n l : 0 <= n -> let l' := lua_sethook LUA_MASKCOUNT n l in
    stack l' = stack l /\ registry l' = registry l /\ hook_count l' = n;
  load_law code name l : let l' := snd (luaL_loadbufferx code name l) in
    registry l' = registry l /\ hook_count l' = hook_count l /\ exists v, stack l' = stack l ++ [v];
  pcall_law w : states (database (snd (lua_pcall w))) = states (database w);
  tointegerx_law i l n : at_index (stack l) i = Some (VInteger n) -> lua_tointegerx i l = n;
}.

Section spec.
Context {L W : Type} `{HL : LuaApi L} {HLS : LuaSpec L} {HR : Runtime L W} {HS : RuntimeSpec L W}.
Abbreviation stk w := (stack (lua w)).
Abbreviation count w := (states (database w)).

(** A state a script may run in: the name, the mark of [sql], the deadline. *)
Definition ready (name : list Z) (deadline : Z) (w : world L W) : Prop :=
  registry (lua w) (str "_AGENT_NAME") = VString name /\ readonly w = true /\
  registry (lua w) (str "_DEADLINE") = VInteger (wrap_i64 deadline) /\ hook_count (lua w) = 10000.

(** Calls that leave the stack and everything but the interpreter alone. *)
Definition steady (m : B (L := L) (W := W) unit) : Prop := forall w Q (X : stop -> world L W -> Prop),
  (forall w', stk w' = stk w -> database w' = database w -> Q tt w') -> (forall e w', X e w') -> wp m Q X w.

Lemma steady_jump f : (forall l l', f l = Some l' -> stack l' = stack l) -> steady (jump f).
Proof. intros Hf w Q X HQ HX. apply wp_jump; [|apply HX]. intros l Hl. apply HQ; [by apply Hf in Hl|done]. Qed.
Lemma steady_pure f : (forall l, stack (f l) = stack l) -> steady (pure f).
Proof. intros Hf w Q X HQ HX. apply wp_pure, HQ; [apply Hf|done]. Qed.
Lemma steady_bind m k : steady m -> steady k -> steady (_ ← m; k).
Proof. intros Hm Hk w Q X HQ HX. apply wp_bind, Hm; [|done]. intros w1 H1 D1. apply Hk; [|done]. intros w2 H2 D2. apply HQ; congruence. Qed.
Lemma steady_for {A} (f : A -> B unit) l : (forall a, steady (f a)) -> steady (st_for f l).
Proof. intros Hf. induction l as [|a l IH]; [intros w Q X HQ HX; by apply HQ|]. cbn [st_for]. by apply steady_bind. Qed.

Lemma steady_begin : steady luaL_openlibs /\ steady set_gc /\ steady register_builtins.
Proof.
  split_and!.
  - apply steady_jump, openlibs_law.
  - unfold set_gc. repeat apply steady_bind; apply steady_pure; intros l; apply gc_law.
  - unfold register_builtins. apply steady_for. intros name. apply steady_jump, register_law.
Qed.

(** A value stored in the registry of a state with an empty stack. *)
Lemma wp_registry k v w (Q : unit -> world L W -> Prop) (X : stop -> world L W -> Prop) : stk w = [v] ->
  (forall w', stk w' = [] -> database w' = database w -> registry (lua w') (Sqlite.c_text k) = v ->
     (forall x, x <> Sqlite.c_text k -> registry (lua w') x = registry (lua w) x) -> Q tt w') ->
  X LuaError w -> wp (jump (lua_setfield LUA_REGISTRYINDEX k)) Q X w.
Proof.
  intros Hs HQ HX. apply wp_jump; [|done]. intros l Hl. destruct (setregistry_law k (lua w) l [] v Hl Hs) as (H1 & H2 & H3).
  by apply HQ.
Qed.

Lemma set_up_ok name start per_ms w : stk w = [] ->
  wp (set_up name start per_ms)
    (fun _ w' => ready name (deadline_of start per_ms EXEC_TIMEOUT_MS) w' /\ stk w' = [] /\ database w' = database w) (fun _ _ => True) w.
Proof.
  intros Hs. destruct steady_begin as (H1 & H2 & H3). unfold set_up.
  apply wp_bind, H1; [|done]. intros w1 S1 D1. apply wp_bind, H2; [|done]. intros w2 S2 D2. apply wp_bind, H3; [|done]. intros w3 S3 D3.
  assert (stk w3 = []) as Hs3 by congruence. assert (database w3 = database w) as Hd3 by congruence. clear S1 D1 S2 D2 S3 D3 w1 w2.
  apply wp_bind. unfold store_agent_name. apply wp_bind, wp_jump; [|done]. intros l Hl. destruct (pushlstring_law _ _ _ Hl) as (Hl1 & _ & _).
  rewrite Hs3 in Hl1. eapply wp_registry; [exact Hl1| |done]. intros w4 S4 D4 R4 _. cbn [set_lua database] in D4.
  apply wp_bind. unfold set_sql_readonly. apply wp_bind, wp_pure. destruct (pushboolean_law 1 (lua w4)) as (P1 & _ & P3). rewrite S4 in P1.
  eapply wp_registry; [exact P1| |done]. intros w5 S5 D5 R5 K5. cbn [set_lua database lua] in D5, K5.
  unfold install_timeout_hook. apply wp_bind, wp_pure.
  set (d := wrap_i64 (deadline_of start per_ms EXEC_TIMEOUT_MS)). destruct (pushinteger_law d (lua w5)) as (I1 & _ & I3). rewrite S5 in I1.
  apply wp_bind. eapply wp_registry; [exact I1| |done]. intros w6 S6 D6 R6 K6. cbn [set_lua database lua] in D6, K6.
  apply wp_pure. destruct (sethook_law 10000 (lua w6) ltac:(lia)) as (H4 & H5 & H6). cbn [set_lua lua database]. unfold ready, readonly. cbn [set_lua lua].
  rewrite H4, H5, H6. split; [|split; [exact S6|congruence]].
  change (Sqlite.c_text (str "_AGENT_NAME" ++ [0])) with (str "_AGENT_NAME") in *.
  change (Sqlite.c_text (str "_SQL_READONLY" ++ [0])) with (str "_SQL_READONLY") in *.
  change (Sqlite.c_text (str "_DEADLINE" ++ [0])) with (str "_DEADLINE") in *.
  split; [|split; [|split; [exact R6|done]]].
  - rewrite K6 by (vm_compute; discriminate). rewrite I3, K5 by (vm_compute; discriminate). by rewrite P3.
  - rewrite K6 by (vm_compute; discriminate). by rewrite I3, R5.
Qed.

Lemma error_ok (w : world L W) : match get_lua_error w with (Ok _, w') => database w' = database w | (Err _, _) => True | (Panic, _) => False end.
Proof.
  unfold get_lua_error, lua_to_str, mbind, st_bind. destruct (lua_tolstring (-1) (lua w)) as [[[b|] l]|]; done.
Qed.

(** The chunk ran in [w1], on a stack with nothing but itself, and left [w2]. *)
Definition ran (name : list Z) (deadline : Z) (before : W) (rc : Z) (w2 : world L W) : Prop :=
  exists w1 chunk, ready name deadline w1 /\ stk w1 = [chunk] /\ database w1 = before /\ lua_pcall w1 = (rc, w2).

Lemma exec_ok code name d (w : world L W) : ready name d w -> stk w = [] ->
  match load_and_exec code name w with
  | (Ok (inl _), w') => ran name d (database w) LUA_OK w'
  | (Ok (inr _), w') => database w' = database w \/ exists rc w2, rc <> LUA_OK /\ ran name d (database w) rc w2 /\ database w' = database w2
  | (Err _, _) => True
  | (Panic, _) => False
  end.
Proof.
  intros (Hn & Hr & Hd & Hh) Hs. unfold load_and_exec, load. unfold mbind at 1, st_bind at 1.
  pose proof (load_law code (name ++ [0]) (lua w)) as Hload. cbn zeta in Hload.
  destruct (luaL_loadbufferx code (name ++ [0]) (lua w)) as [rc l]. cbn [snd] in Hload. destruct Hload as (Hreg & Hcnt & v & Hv).
  rewrite Hs in Hv. destruct (negb (rc =? LUA_OK)).
  - unfold mbind, st_bind. pose proof (error_ok (set_lua l w)) as He. destruct (get_lua_error _) as [[m|e|] w']; [|done..]. by left.
  - unfold pcall. unfold mbind at 1, st_bind at 1. destruct (lua_pcall (set_lua l w)) as [rc2 w2] eqn:Hrun.
    assert (ran name d (database w) rc2 w2) as Hran.
    { exists (set_lua l w), v. unfold ready, readonly in *. cbn [set_lua lua]. by rewrite Hreg, Hcnt. }
    destruct (Z.eqb_spec rc2 LUA_OK) as [->|Hne]; cbn [negb]; [exact Hran|].
    unfold mbind, st_bind. pose proof (error_ok w2) as He. destruct (get_lua_error w2) as [[m|e|] w']; [|done..].
    right. by exists rc2, w2.
Qed.


(** ** The interactive loop closes what it opened *)
(** A call changes the number of open states by [n], if it returns. *)
Definition opens {E A} (n : Z) (m : st (world L W) E A) : Prop := forall w,
  match m w with (Ok _, w') => count w' = count w + n | _ => True end.

Lemma opens_bind {E A B'} n k (m : st (world L W) E A) (f : A -> st (world L W) E B') :
  opens n m -> (forall a, opens k (f a)) -> opens (n + k) (m ≫= f).
Proof.
  intros Hm Hf w. unfold mbind, st_bind. specialize (Hm w). destruct (m w) as [[a|e|] w1]; [|done..].
  specialize (Hf a w1). destruct (f a w1) as [[b|e|] w2]; [|done..]. lia.
Qed.
Lemma opens_then {E A B'} (m : st (world L W) E A) (f : A -> st (world L W) E B') n : opens 0 m -> (forall a, opens n (f a)) -> opens n (m ≫= f).
Proof. apply (opens_bind 0 n). Qed.
Lemma opens_ret {E A} (a : A) : opens 0 (mret a : st (world L W) E A).
Proof. intros w. cbn. lia. Qed.
Lemma opens_free {A} n (m : B (L := L) (W := W) A) E : opens n m -> opens n (unprotected (E := E) m).
Proof. intros Hm w. unfold unprotected. specialize (Hm w). by destruct (m w) as [[a|e|] w']. Qed.
Lemma opens_pure f : opens 0 (pure f : B (L := L) (W := W) unit).
Proof. intros w. cbn. lia. Qed.
Lemma opens_ask {A} (f : L -> A) : opens 0 (ask f : B (L := L) (W := W) A).
Proof. intros w. cbn. lia. Qed.
Lemma opens_jump f : opens 0 (jump f : B (L := L) (W := W) unit).
Proof. intros w. unfold jump. destruct (f (lua w)); [cbn; lia|done]. Qed.
Lemma opens_str i : opens 0 (lua_to_str i : B (L := L) (W := W) _).
Proof. intros w. unfold lua_to_str. destruct (lua_tolstring i (lua w)) as [[s l]|]; [cbn; lia|done]. Qed.
Lemma opens_print s : opens 0 (print s : B (L := L) (W := W) unit).
Proof. intros w. cbn. lia. Qed.
Lemma opens_load code name : opens 0 (load code name).
Proof. intros w. unfold load. destruct (luaL_loadbufferx _ _ _). cbn. lia. Qed.
Lemma opens_pcall : opens 0 pcall.
Proof. intros w. unfold pcall. pose proof (pcall_law w) as Hp. destruct (lua_pcall w). cbn [snd] in Hp. lia. Qed.
Lemma opens_close : opens (- 1) close.
Proof. intros w. cbn. rewrite close_law. lia. Qed.
Lemma opens_for {A} (f : A -> B (L := L) (W := W) unit) l : (forall a, opens 0 (f a)) -> opens 0 (st_for f l).
Proof. intros Hf. induction l as [|a l IH]; [apply opens_ret|]. cbn [st_for]. by apply opens_then. Qed.

Lemma opens_pop n : opens 0 (lua_pop n : B (L := L) (W := W) unit).
Proof. apply opens_pure. Qed.

#[local] Hint Resolve opens_pop opens_ret opens_pure opens_ask opens_jump opens_str opens_print opens_load opens_pcall opens_for : opens.
Ltac opens_tac := repeat first [
  progress eauto 1 with opens
| apply opens_then; [|intros ?]
| case_match ].

Lemma opens_line sentinel trimmed : opens 0 (repl_line sentinel trimmed).
Proof.
  assert (opens 0 print_error) as He by (unfold print_error; opens_tac).
  assert (forall i, opens 0 (print_value i)) as Hv by (intros i; unfold print_value; opens_tac).
  assert (opens 0 (check_exit_signal sentinel)) as Hc by (unfold check_exit_signal; opens_tac).
  unfold repl_line, print_stack_values. opens_tac. by apply opens_for.
Qed.

Lemma loop_closes sentinel lines : opens (- 1) (repl_loop sentinel lines).
Proof.
  induction lines as [|[line|] lines IH]; cbn [repl_loop]; apply opens_then; try (apply opens_free, opens_print); intros _.
  - done.
  - case_match; [exact IH|]. apply opens_then; [apply opens_free, opens_line|]. intros [|]; [apply opens_free, opens_close|exact IH].
  - apply opens_then; [apply opens_free, opens_print|]. intros _. apply opens_free, opens_close.
Qed.

(** Whatever is typed, when the loop returns its state is closed. *)
Lemma repl_closes sentinel lines : opens 0 (repl sentinel lines).
Proof.
  unfold repl. apply opens_then; [apply opens_free, opens_print|intros _]. apply opens_then; [apply opens_free, opens_print|intros _].
  assert (opens (- 1) (E := unit) (_ ← unprotected luaL_openlibs; _ ← unprotected set_gc; _ ← unprotected register_builtins;
    _ ← unprotected (store_agent_name (str "<repl>")); _ ← unprotected (jump (lua_register (str "exit" ++ [0]))); repl_loop sentinel lines)) as Hrest.
  { apply opens_then; [apply opens_free, opens_jump|intros _]. apply opens_then; [apply opens_free; unfold set_gc; opens_tac|intros _].
    apply opens_then; [apply opens_free; unfold register_builtins; apply opens_for; opens_tac|intros _].
    apply opens_then; [apply opens_free; unfold store_agent_name; opens_tac|intros _]. apply opens_then; [apply opens_free, opens_jump|intros _].
    apply loop_closes. }
  intros w. pose proof (newstate_law (4 * LuaAlloc.LUA_MEM_LIMIT) w) as Hnew. unfold mbind at 1, st_bind at 1.
  unfold unprotected at 1, newstate at 1. destruct (lua_newstate _ w) as [[l|] w0]; cbn [negb].
  - destruct Hnew as [_ Hc]. specialize (Hrest (set_lua l w0)). cbn [set_lua database] in Hrest.
    match goal with |- context [match ?x with _ => _ end] => destruct x as [[u|e|] w'] end; [lia|done..].
  - cbn. lia.
Qed.
End spec.

(** ** An interpreter in memory: the chunk is its text, and [boom] fails *)
Module Small.
Import Lua.Small.
Abbreviation world0 := (world interp Z).
Definition count_by (n : Z) (w : world0) : world0 :=
  mkWorld (lua w) (database w + n) (held w) (last_ask w) (requests w) (cache w) (console w).
#[export] Instance runtime_small : Runtime interp Z := {|
  lua_newstate := fun _ w => (Some (mkInterp [] ∅ ∅ 20), count_by 1 w);
  lua_close := count_by (- 1);
  luaL_openselectedlibs := fun _ _ l => Some l; lua_gc := fun _ _ l => l; lua_register := fun _ l => Some l;
  lua_pushlightuserdata := fun _ l => push (VOther 2) l; lua_touserdata := fun _ _ => 0;
  lua_sethook := fun _ n l => mkInterp (vals l) (tabs l) (names l) (Z.to_nat n);
  luaL_loadbufferx := fun code _ l => (if bool_decide (code = str "=") then 3 else 0, push (VString code) l);
  lua_pcall := fun w =>
    match vals (lua w) with
    | [VString s] => if bool_decide (s = str "boom") then (2, w) else (0, set_lua (set_vals [] (lua w)) w)
    | _ => (0, set_lua (set_vals [] (lua w)) w)
    end |}.

#[export, refine] Instance runtime_spec_small : RuntimeSpec interp Z := {| states := fun n => n; hook_count := fun l => Z.of_nat (room l) |}.
Proof.
  - done.
  - intros w. cbn. lia.
  - intros a b l l' [= <-]. done.
  - done.
  - intros name l l' [= <-]. done.
  - intros k l l' s v Hl Hs. cbn in Hl, Hs. unfold set in Hl. apply bind_Some in Hl as (l1 & Hl1 & Hl).
    destruct (alloc_same _ _ Hl1) as (H1 & H2 & H3). rewrite H1, Hs, last_snoc in Hl. cbn [mbind option_bind] in Hl.
    change (LUA_REGISTRYINDEX =? LUA_REGISTRYINDEX) with true in Hl. injection Hl as <-. cbn [stack registry small_spec vals].
    split; [|split].
    + rewrite length_app. cbn [length]. replace (length s + 1 - 1)%nat with (length s) by lia. apply take_app_length.
    + unfold named. cbn [names]. by rewrite lookup_insert_eq.
    + intros x Hx. rewrite <- H3. unfold named. cbn [names]. by rewrite lookup_insert_ne.
  - intros n l Hn. cbn. split_and!; try done. lia.
  - intros code name l. cbn. split_and!; try done. by eexists.
  - intros w. cbn. by repeat case_match.
  - intros i l n Hi. cbn in *. by rewrite Hi.
Defined.

Definition before : world0 := mkWorld (mkInterp [] ∅ ∅ 0) 0 [] 0 [] [] [].
End Small.
End LuaRun.
