(* ===== verification/Commands.v ===== *)
(** * Shell commands ([shell/commands.rs], [shell/mod.rs])

    A line becomes words, the first word chooses a handler, and the handlers
    work on the settings of the client, the database and the console.  The
    hardware they report on, the network of a request and the Lua interpreter
    are arguments ([machine]); what the API client and the interpreter print
    while they run is one piece of output, [Inner]. *)
From S2P Require Import Prelude.
From S2P Require Import Bytes.
From S2P Require Import Utf8.
From S2P Require Import Fmt.
From S2P Require Import Str.
From S2P Require Import Json.
From S2P Require Import Api.
From S2P Require Import ApiClient.
From S2P Require Import Dns.
From S2P Require Import Sqlite.
From S2P Require Import Agent.
From S2P Require Import AgentSpec.
From S2P Require Import NvmeDriver.

Module Commands.
Export Utf8 Fmt.
Import Api.

(** ** Words and numbers *)
Fixpoint words_loop (cs : list (list Z)) (word : list Z) : list (list Z) :=
  match cs with
  | [] => if bool_decide (word = []) then [] else [word]
  | c :: cs =>
      if Str.is_whitespace c then
        if bool_decide (word = []) then words_loop cs [] else word :: words_loop cs []
      else words_loop cs (word ++ c)
  end.
(** [l.split_whitespace()]. *)
Definition split_whitespace (l : list Z) : list (list Z) := words_loop (Str.chars l) [].

(** [{:02x}]. *)
Definition hex2 (b : Z) : list Z := [Api.hex_digit (Z.shiftr b 4); Api.hex_digit (Z.land b 0xF)].

(** [u8::from_str_radix(s, 16)] on a text of at most two bytes: a plus sign
    may come before the digits. *)
Fixpoint radix_loop (l : list Z) (acc : Z) : option Z :=
  match l with
  | [] => Some acc
  | b :: l => d ← Json.hex_val b; let acc := 16 * acc + d in if acc <? 256 then radix_loop l acc else None
  end.
Definition from_str_radix16 (l : list Z) : option Z :=
  match l with
  | [] => None
  | [b] => if (b =? 43) || (b =? 45) then None else radix_loop [b] 0
  | b :: l' => if b =? 43 then radix_loop l' 0 else radix_loop l 0
  end.

(** ** The shell *)
Inductive output := Text (s : list Z) | Inner.
(** [reboot] does not come back. *)
Inductive halt := Reboot.

Record shell (W : Type) := mkShell {
  database : W;
  API_KEY : option (list Z);
  MODEL : option (list Z);
  API_TARGET_IP : list Z;
  PIN_OVERRIDE : option (list Z);
  DNS_CACHE : Dns.Cache;
  console : list output;
}.
Arguments mkShell {W} _ _ _ _ _ _ _.
Arguments database {W} _.
Arguments API_KEY {W} _.
Arguments MODEL {W} _.
Arguments API_TARGET_IP {W} _.
Arguments PIN_OVERRIDE {W} _.
Arguments DNS_CACHE {W} _.
Arguments console {W} _.

Record machine (W : Type) := mkMachine {
  free_count : Z;
  total_count : Z;
  nvme : option (option NvmeDriver.NamespaceInfo);
  mac : option (list Z);
  has_rdrand : bool;
  has_clflushopt : bool;
  has_invariant_tsc : bool;
  uptime_secs : Z;
  net_up : bool;
  dns : Dns.session;
  link : nat -> ApiClient.session;
  agent_link : list ClaudeRequest -> nat -> ApiClient.session;
  interpret : list Z -> list Z -> shell W -> (unit + list Z) * shell W;
  repl : shell W -> shell W;
}.
Arguments free_count {W} _.
Arguments total_count {W} _.
Arguments nvme {W} _.
Arguments mac {W} _.
Arguments has_rdrand {W} _.
Arguments has_clflushopt {W} _.
Arguments has_invariant_tsc {W} _.
Arguments uptime_secs {W} _.
Arguments net_up {W} _.
Arguments dns {W} _.
Arguments link {W} _.
Arguments agent_link {W} _.
Arguments interpret {W} _.
Arguments repl {W} _.

Section commands.
Context {W : Type} `{HE : Sqlite.Engine W}.
Variable f64_text : Json.f64 -> list Z.
Variable turns : nat.
(** The content of the static [DB]. *)
Variable guard : option Z.
Variable m : machine W.

Definition C (A : Type) : Type := st (shell W) halt A.

Definition emit (o : output) : C unit := fun w =>
  (Ok tt, mkShell (database w) (API_KEY w) (MODEL w) (API_TARGET_IP w) (PIN_OVERRIDE w) (DNS_CACHE w) (console w ++ [o])).
Definition print (s : list Z) : C unit := emit (Text s).
Definition println (s : list Z) : C unit := print (s ++ [10]).
Definition put_lines (ls : list string) : C unit := st_for (fun s => println (str s)) ls.

Definition set_api_key (key : list Z) : C unit := fun w =>
  (Ok tt, mkShell (database w) (Some key) (MODEL w) (API_TARGET_IP w) (PIN_OVERRIDE w) (DNS_CACHE w) (console w)).
Definition set_model (model : list Z) : C unit := fun w =>
  (Ok tt, mkShell (database w) (API_KEY w) (Some model) (API_TARGET_IP w) (PIN_OVERRIDE w) (DNS_CACHE w) (console w)).
Definition set_target (ip : list Z) : C unit := fun w =>
  (Ok tt, mkShell (database w) (API_KEY w) (MODEL w) ip (PIN_OVERRIDE w) (DNS_CACHE w) (console w)).
Definition set_pin (pin : option (list Z)) : C unit := fun w =>
  (Ok tt, mkShell (database w) (API_KEY w) (MODEL w) (API_TARGET_IP w) pin (DNS_CACHE w) (console w)).
Definition set_cache (c : Dns.Cache) : C unit := fun w =>
  (Ok tt, mkShell (database w) (API_KEY w) (MODEL w) (API_TARGET_IP w) (PIN_OVERRIDE w) c (console w)).

(** The result of a database operation, its error as a value. *)
Definition on_db {A} (f : st W (list Z) A) : C (A + list Z) :=
  st_zoom database (fun d w => mkShell d (API_KEY w) (MODEL w) (API_TARGET_IP w) (PIN_OVERRIDE w) (DNS_CACHE w) (console w))
    (st_try f).

(** ** The handlers *)
Definition cmd_help : C unit := put_lines [
  "HeavenOS shell commands:"; "";
  "  help          show this help";
  "  mem           physical memory info";
  "  nvme          NVMe controller info";
  "  net           network interface info";
  "  cpu           CPU features";
  "  uptime        system uptime";
  "  ls [path]     list namespace entries";
  "  cat <path>    read a namespace file";
  "  echo <text>   print text";
  "  sql <stmt>    execute SQL on the system database"; "";
  "Lua:";
  "  lua             interactive Lua REPL";
  "  run <path>      execute a Lua agent from namespace";
  "  store <p> <c>   store Lua script at path"; "";
  "Claude API:";
  "  apikey <key>     set Anthropic API key";
  "  resolve <ip>     set api.anthropic.com IP (override DNS)";
  "  ask <prompt>     send message via TLS (auto-resolves DNS)";
  "  askp <prompt>    send message via proxy (plain HTTP)";
  "  agent <prompt>   agentic loop with tool use (read/write/sql)";
  "  agentp <prompt>  agentic loop via proxy";
  "  model <name>     set model (default: claude-sonnet-4-6-20250514)";
  "  pin [show|set]   manage TLS certificate SPKI pin"; "";
  "  clear         clear screen";
  "  panic         trigger a kernel panic (for testing)";
  "  reboot        reset the system"; "";
  "Line editing:";
  "  Backspace     delete character";
  "  Ctrl-C        cancel line";
  "  Ctrl-U        clear line"]%string.

Definition megabytes (pages : Z) : Z := pages * 4096 / (1024 * 1024).
Definition cmd_meminfo : C unit :=
  let free := free_count m in
  let total := total_count m in
  let used := wrap64 (total - free) in
  _ ← println (str "Physical memory:");
  _ ← println (str "  total:  " ++ dec total ++ str " pages (" ++ dec (megabytes total) ++ str " MB)");
  _ ← println (str "  used:   " ++ dec used ++ str " pages (" ++ dec (megabytes used) ++ str " MB)");
  println (str "  free:   " ++ dec free ++ str " pages (" ++ dec (megabytes free) ++ str " MB)").

Definition cmd_nvme_info : C unit :=
  match nvme m with
  | Some (Some ns) =>
      let cap_mb := wrap64 (NvmeDriver.ns_block_count ns * NvmeDriver.ns_block_size ns) / (1024 * 1024) in
      _ ← println (str "NVMe namespace " ++ dec (NvmeDriver.ns_nsid ns) ++ str ":");
      _ ← println (str "  blocks:     " ++ dec (NvmeDriver.ns_block_count ns));
      _ ← println (str "  block size: " ++ dec (NvmeDriver.ns_block_size ns) ++ str " bytes");
      println (str "  capacity:   " ++ dec cap_mb ++ str " MB")
  | Some None => println (str "NVMe: no namespace identified")
  | None => println (str "NVMe: not initialized")
  end.

Definition bool_text (b : bool) : list Z := if b then str "true" else str "false".
Definition cmd_cpu : C unit :=
  _ ← println (str "CPU features:");
  _ ← println (str "  RDRAND:        " ++ bool_text (has_rdrand m));
  _ ← println (str "  CLFLUSHOPT:    " ++ bool_text (has_clflushopt m));
  println (str "  Invariant TSC: " ++ bool_text (has_invariant_tsc m)).

(** [{:02}]. *)
Definition dec2 (n : Z) : list Z := if n <? 10 then 48 :: dec n else dec n.
Definition cmd_uptime : C unit :=
  let total_secs := uptime_secs m in
  println (str "up " ++ dec (total_secs / 3600) ++ str "h " ++ dec2 (total_secs mod 3600 / 60) ++ str "m " ++
           dec2 (total_secs mod 60) ++ str "s").

Definition is_one_of (s : list Z) (names : list string) : bool := existsb (fun n => bool_decide (s = str n)) names.

Definition cmd_ls (path : list Z) : C unit :=
  if is_one_of path ["/"] then put_lines ["db/"; "sys/"; "hw/"; "agents/"]
  else if is_one_of path ["/db"; "db"] then put_lines ["ctl"; "schema"]
  else if is_one_of path ["/sys"; "sys"] then put_lines ["uptime"; "meminfo"; "log"]
  else if is_one_of path ["/hw"; "hw"] then put_lines ["nvme/"; "gpu/"]
  else if is_one_of path ["/hw/nvme"; "hw/nvme"] then put_lines ["info"; "smart"; "stats"]
  else if is_one_of path ["/agents"; "agents"] then put_lines ["(no agents running)"]
  else println (str "ls: " ++ path ++ str ": not found").

Definition cmd_sql_with (error : list Z) (query : list Z) : C unit :=
  r ← on_db (Sqlite.exec_and_format turns guard query);
  match r with
  | inl output => print output
  | inr e => println (error ++ e)
  end.
Definition cmd_sql (query : list Z) : C unit := cmd_sql_with (str "SQL error: ") query.

Definition schema_query : list Z := str "SELECT sql FROM sqlite_master WHERE type='table' ORDER BY name".
Definition cmd_cat (path : list Z) : C unit :=
  if is_one_of path ["/sys/meminfo"; "sys/meminfo"] then cmd_meminfo
  else if is_one_of path ["/sys/uptime"; "sys/uptime"] then cmd_uptime
  else if is_one_of path ["/hw/nvme/info"; "hw/nvme/info"] then cmd_nvme_info
  else if is_one_of path ["/db/schema"; "db/schema"] then cmd_sql_with (str "error: ") schema_query
  else
    content ← (match guard with
               | Some db =>
                   r ← on_db (Sqlite.query_value f64_text turns db (Agent.read_query path));
                   mret (match r with inl (Some content) => Some content | _ => None end)
               | None => mret None
               end);
    match content with
    | Some content => println content
    | None => println (str "cat: " ++ path ++ str ": not found")
    end.

Definition cmd_clear : C unit := print ([27] ++ str "[2J" ++ [27] ++ str "[H").
Definition cmd_panic : C unit := st_panic.
Definition cmd_reboot : C unit := _ ← println (str "Rebooting..."); st_err Reboot.

Definition cmd_net : C unit :=
  match mac m with
  | Some mac =>
      _ ← println (str "Network interface: virtio-net");
      _ ← println (str "  MAC:    " ++ Str.join [58] (hex2 <$> mac));
      put_lines ["  IP:     10.0.2.15 (QEMU default)"; "  GW:     10.0.2.2"; "  Status: up"]
  | None => put_lines ["Network: not initialized"; "  (no virtio-net device found)"]
  end.

(** [&k[a..b]] of a string: a panic outside, or inside a character. *)
Definition str_range (k : list Z) (a b : Z) : C (list Z) :=
  if (a <=? b) && (b <=? zlen k) && is_char_boundary k a && is_char_boundary k b
  then mret (slice k a (b - a)) else st_panic.

Definition cmd_apikey (key : list Z) : C unit :=
  if bool_decide (key = []) then
    w ← st_get;
    match API_KEY w with
    | Some k =>
        if 16 <? zlen k then
          a ← str_range k 0 12;
          b ← str_range k (zlen k - 4) (zlen k);
          println (str "API key: " ++ a ++ str "..." ++ b)
        else println (str "API key: (set, " ++ dec (zlen k) ++ str " chars)")
    | None => println (str "API key: not set. Usage: apikey sk-ant-...")
    end
  else
    _ ← set_api_key key;
    println (str "API key set (" ++ dec (zlen key) ++ str " chars)").

(** An [Ipv4Address] is its four bytes. *)
Definition ip_text (ip : list Z) : list Z := Str.join [46] (dec <$> ip).
Definition UNSPECIFIED : list Z := [0; 0; 0; 0].

(** The octets, or the first that is not one. *)
Fixpoint octets_loop (octets : list (list Z)) : list Z + list Z :=
  match octets with
  | [] => inl []
  | octet :: octets =>
      match Str.parse_uint 256 octet with
      | None => inr octet
      | Some b => match octets_loop octets with inl bs => inl (b :: bs) | inr e => inr e end
      end
  end.

Definition cmd_resolve (ip_str : list Z) : C unit :=
  if bool_decide (ip_str = []) then
    w ← st_get;
    let current := API_TARGET_IP w in
    if bool_decide (current = UNSPECIFIED) then
      put_lines ["API target: not set (will use DNS)"; "usage: resolve <ip>  (manual override)"]
    else println (str "API target: " ++ ip_text current ++ str " (manual override)")
  else
    let octets := Str.split [46] ip_str in
    if negb (zlen octets =? 4) then println (str "Invalid IP format. Use: resolve 1.2.3.4")
    else
      match octets_loop octets with
      | inr octet => println (str "Invalid IP octet: " ++ octet)
      | inl ip => _ ← set_target ip; println (str "API target set to: " ++ ip_text ip)
      end.

Definition cmd_model (name : list Z) : C unit :=
  if bool_decide (name = []) then
    w ← st_get;
    _ ← println (str "current model: " ++ Agent.get_model (MODEL w));
    println (str "usage: model <name>")
  else
    _ ← set_model name;
    println (str "model set to: " ++ name).

(** [parse_hex_hash]: a slice that cuts a character panics. *)
Fixpoint hex_pairs (n : nat) (i : Z) (hex result : list Z) : C (option (list Z)) :=
  match n with
  | O => mret (Some result)
  | S n =>
      byte_str ← str_range hex (i * 2) (i * 2 + 2);
      match from_str_radix16 byte_str with
      | Some b => hex_pairs n (i + 1) hex (result ++ [b])
      | None => mret None
      end
  end.
Definition parse_hex_hash (hex : list Z) : C (option (list Z)) :=
  let hex := Str.trim hex in
  if negb (zlen hex =? 64) then mret None else hex_pairs 32 0 hex [].

Definition ENFORCE_PINNING : bool := false.

Definition cmd_pin (sub arg : list Z) : C unit :=
  if is_one_of sub ["show"; ""] then
    w ← st_get;
    match PIN_OVERRIDE w with
    | Some pin =>
        _ ← println (str "SPKI pin (runtime override):");
        _ ← print (str "  ");
        _ ← st_for (fun b => print (hex2 b)) pin;
        println []
    | None =>
        _ ← println (str "SPKI pin: using compiled-in pins");
        println (str "  Pinning enforcement: " ++ (if ENFORCE_PINNING then str "ON" else str "OFF"))
    end
  else if is_one_of sub ["set"] then
    if bool_decide (arg = []) then put_lines [
      "usage: pin set <64-hex-chars>";
      "  Get pin: openssl s_client -connect api.anthropic.com:443 \";
      "    | openssl x509 -pubkey -noout \";
      "    | openssl pkey -pubin -outform der \";
      "    | openssl dgst -sha256 -binary | xxd -p -c32"]%string
    else
      r ← parse_hex_hash arg;
      match r with
      | Some hash => _ ← set_pin (Some hash); println (str "SPKI pin override set (" ++ dec (zlen hash) ++ str " bytes)")
      | None => println (str "Invalid hex hash. Expected 64 hex characters (32 bytes SHA-256).")
      end
  else if is_one_of sub ["clear"] then
    _ ← set_pin None; println (str "SPKI pin override cleared. Using compiled-in pins.")
  else println (str "usage: pin [show|set <hex>|clear]").

(** The address [ask] uses over TLS: the manual one, or the resolver's.  A
    resolver that has not answered when its session ends has not returned. *)
Definition target : C (option (list Z)) :=
  w ← st_get;
  let manual := API_TARGET_IP w in
  if negb (bool_decide (manual = UNSPECIFIED)) then
    _ ← println (str "[resolve: " ++ ip_text manual ++ str " (manual)]"); mret (Some manual)
  else
    _ ← println (str "[DNS resolve: api.anthropic.com...]");
    match Dns.resolve_a (dns m) (str "api.anthropic.com") (DNS_CACHE w) with
    | None | Some (Panic, _) => st_panic
    | Some (Ok ip, c) =>
        _ ← set_cache c; _ ← println (str "[resolved: " ++ ip_text ip ++ str "]"); mret (Some ip)
    | Some (Err e, c) =>
        _ ← set_cache c;
        _ ← println (str "Error: DNS resolution failed: " ++ Dns.display e);
        _ ← put_lines ["  Fallback: resolve <ip>  (manual)"; "  Get IP on host: dig +short api.anthropic.com"];
        mret None
    end.

Definition ask_config (api_key : list Z) (use_tls : bool) : C (option ClaudeConfig) :=
  w ← st_get;
  let with_base base :=
    mkConfig api_key (target_ip base) (target_port base) (Agent.get_model (MODEL w)) (Api.use_tls base) in
  if use_tls then
    ip ← target;
    match ip with
    | Some ip =>
        _ ← println (str "[TLS to " ++ ip_text ip ++ str ":443...]");
        mret (Some (with_base (direct_tls (Agent.ip_of ip))))
    | None => mret None
    end
  else
    _ ← println (str "[proxy mode: 10.0.2.2:8080...]");
    mret (Some (with_base default_proxy)).

(** [ApiClient.claude_request] prints the tokens of the answer as they come. *)
Definition cmd_ask (prompt : list Z) (use_tls : bool) : C unit :=
  w ← st_get;
  match API_KEY w with
  | None => println (str "Error: API key not set. Run: apikey sk-ant-...")
  | Some api_key =>
      if negb (net_up m) then
        put_lines ["Error: network stack not initialized"; "  (need virtio-net device in QEMU)"]
      else
        config ← ask_config api_key use_tls;
        match config with
        | None => mret tt
        | Some config =>
            _ ← println [];
            _ ← emit Inner;
            match fst (ApiClient.claude_request config prompt (link m)) with
            | Panic => st_panic
            | Ok _ => println []
            | Err e =>
                _ ← println [];
                _ ← println (str "[API error: " ++ Agent.api_error_text e ++ str "]");
                _ ← println [];
                if use_tls then put_lines [
                  "TLS troubleshooting:";
                  "  1. Verify QEMU has internet: -netdev user,id=net0";
                  "  2. Fallback: resolve <ip>  (manual override)";
                  "  3. Fallback: askp <prompt> (uses socat proxy)"]%string
                else put_lines [
                  "Proxy troubleshooting:";
                  "  socat TCP-LISTEN:8080,fork,reuseaddr \";
                  "    OPENSSL:api.anthropic.com:443"]%string
            end
        end
  end.

(** [lua::run_agent]. *)
Definition load_script_from_db (path : list Z) : C (list Z + list Z) :=
  match guard with
  | None => mret (inr (str "database not open"))
  | Some db =>
      r ← on_db (Sqlite.query_value f64_text turns db
            (str "SELECT content FROM namespace WHERE path='" ++ Agent.sql_escape path ++ str "' AND type='lua'"));
      mret (match r with
            | inl (Some content) => inl content
            | inl None => inr (str "agent not found: " ++ path)
            | inr e => inr e
            end)
  end.
(** The interpreter runs the script; what it does is third-party code. *)
Definition run_string (code name : list Z) : C (unit + list Z) := fun w =>
  let '(r, w) := interpret m code name w in (Ok r, w).
Definition run_agent (path : list Z) : C (unit + list Z) :=
  r ← load_script_from_db path;
  match r with
  | inr e => mret (inr e)
  | inl content => _ ← emit Inner; run_string content path
  end.
Definition cmd_run (path : list Z) : C unit :=
  _ ← println (str "[lua] running agent: " ++ path);
  r ← run_agent path;
  match r with
  | inl _ => println (str "[lua] agent finished.")
  | inr e => println (str "[lua] error: " ++ e)
  end.

Definition store_query (path code : list Z) : list Z :=
  str "INSERT OR REPLACE INTO namespace (path, type, content, mtime) VALUES ('" ++ Agent.sql_escape path ++
  str "', 'lua', '" ++ Agent.sql_escape code ++ str "', strftime('%s','now'))".
Definition cmd_store (path code : list Z) : C unit :=
  match guard with
  | None => println (str "error: database not open")
  | Some db =>
      r ← on_db (Sqlite.exec db (store_query path code));
      match r with
      | inl _ => println (str "stored: " ++ path ++ str " (" ++ dec (zlen code) ++ str " bytes)")
      | inr e => println (str "error: " ++ e)
      end
  end.

Definition agent_loop (prompt : list Z) (use_tls : bool) : C (list Z + list Z) := fun w =>
  let '(r, d) := Agent.run_agent_loop f64_text turns (agent_link m) guard (API_KEY w) (MODEL w) (net_up m)
    (API_TARGET_IP w) (dns m) (DNS_CACHE w) prompt use_tls (Agent.mkWorld (database w) []) in
  let cache := match API_KEY w, use_tls && net_up m, Agent.resolve_api_ip (API_TARGET_IP w) (dns m) (DNS_CACHE w) with
               | Some _, true, Some (_, c) => c
               | _, _, _ => DNS_CACHE w
               end in
  let w' := mkShell (Agent.database d) (API_KEY w) (MODEL w) (API_TARGET_IP w) (PIN_OVERRIDE w) cache (console w ++ [Inner]) in
  match r with
  | Ok a => (Ok (inl a), w')
  | Err e => (Ok (inr e), w')
  | Panic => (Panic, w')
  end.
Definition cmd_agent (prompt : list Z) (use_tls : bool) : C unit :=
  _ ← println (str "[agent] Starting agentic loop...");
  r ← agent_loop prompt use_tls;
  match r with
  | inl _ => println (str "[agent] Done.")
  | inr e =>
      _ ← println (str "[agent] Error: " ++ e);
      if use_tls then println (str "  Fallback: agentp <prompt> (uses proxy)") else mret tt
  end.

Definition run_repl : C unit := fun w => (Ok tt, repl m w).
Definition cmd_lua_repl : C unit := _ ← emit Inner; run_repl.

(** ** From a line to a handler *)
Definition spaced (parts : list (list Z)) : list Z := Str.join [32] parts.
Definition with_text (parts : list (list Z)) (usage : list string) (f : list Z -> C unit) : C unit :=
  let rest := spaced parts in if bool_decide (rest = []) then put_lines usage else f rest.

Definition command (cmd : list Z) (parts : list (list Z)) : C unit :=
  if is_one_of cmd ["help"; "?"] then cmd_help
  else if is_one_of cmd ["mem"; "meminfo"] then cmd_meminfo
  else if is_one_of cmd ["nvme"; "disk"] then cmd_nvme_info
  else if is_one_of cmd ["net"] then cmd_net
  else if is_one_of cmd ["ls"] then cmd_ls (default (str "/") (head parts))
  else if is_one_of cmd ["cat"] then
    match parts with path :: _ => cmd_cat path | [] => println (str "usage: cat <path>") end
  else if is_one_of cmd ["uptime"] then cmd_uptime
  else if is_one_of cmd ["cpu"] then cmd_cpu
  else if is_one_of cmd ["echo"] then println (spaced parts)
  else if is_one_of cmd ["apikey"] then cmd_apikey (concat parts)
  else if is_one_of cmd ["ask"] then with_text parts ["usage: ask <prompt>"] (fun p => cmd_ask p true)
  else if is_one_of cmd ["askp"] then with_text parts ["usage: askp <prompt>  (proxy mode)"] (fun p => cmd_ask p false)
  else if is_one_of cmd ["resolve"] then cmd_resolve (concat parts)
  else if is_one_of cmd ["model"] then cmd_model (spaced parts)
  else if is_one_of cmd ["pin"] then cmd_pin (default (str "show") (head parts)) (concat (tail parts))
  else if is_one_of cmd ["sql"] then with_text parts ["usage: sql <statement>"] cmd_sql
  else if is_one_of cmd ["run"] then
    match parts with
    | path :: _ => cmd_run path
    | [] => println (str "usage: run <path>   (execute a Lua agent from namespace)")
    end
  else if is_one_of cmd ["store"] then
    match parts with
    | path :: code => with_text code ["usage: store <path> <lua code>"] (cmd_store path)
    | [] => println (str "usage: store <path> <lua code>")
    end
  else if is_one_of cmd ["agent"] then
    with_text parts ["usage: agent <prompt>"; "  Starts an agentic loop with tool use (read, write, sql, etc.)"]
      (fun p => cmd_agent p true)
  else if is_one_of cmd ["agentp"] then with_text parts ["usage: agentp <prompt>  (proxy mode)"] (fun p => cmd_agent p false)
  else if is_one_of cmd ["lua"] then cmd_lua_repl
  else if is_one_of cmd ["clear"] then cmd_clear
  else if is_one_of cmd ["panic"] then cmd_panic
  else if is_one_of cmd ["reboot"] then cmd_reboot
  else
    _ ← println (str "unknown command: " ++ cmd);
    println (str "type 'help' for available commands").
Definition dispatch (line : list Z) : C unit :=
  match split_whitespace line with
  | [] => mret tt
  | cmd :: parts => command cmd parts
  end.

(** [shell::run] over the lines the editor returns ([None]: Ctrl-C). *)
Definition PROMPT : list Z := str "heaven% ".
Definition run_line (line : option (list Z)) : C unit :=
  _ ← print PROMPT;
  match line with
  | Some line =>
      let trimmed := Str.trim line in
      if bool_decide (trimmed = []) then mret tt else dispatch trimmed
  | None => println []
  end.
Definition run (lines : list (option (list Z))) : C unit :=
  _ ← println [];
  _ ← println (str "HeavenOS shell ready. Type 'help' for commands.");
  st_for run_line lines.
End commands.

(** ** Properties *)
Section properties.
Context {W : Type} {HE : Sqlite.Engine W} {HS : @Sqlite.EngineSpec W AgentSpec.files HE} {HN : @AgentSpec.Namespace W HE HS}.
Variable f64_text : Json.f64 -> list Z.
Variable turns : nat.
Variable guard : option Z.
Variable m : machine W.

Lemma command_store parts : command f64_text turns guard m (str "store") parts =
  match parts with
  | path :: code => with_text code ["usage: store <path> <lua code>"%string] (cmd_store guard path)
  | [] => println (str "usage: store <path> <lua code>")
  end.
Proof. reflexivity. Qed.
Lemma command_cat parts : command f64_text turns guard m (str "cat") parts =
  match parts with path :: _ => cmd_cat f64_text turns guard m path | [] => println (str "usage: cat <path>") end.
Proof. reflexivity. Qed.
Lemma command_resolve parts : command f64_text turns guard m (str "resolve") parts = cmd_resolve (concat parts).
Proof. reflexivity. Qed.
Lemma command_pin parts : command f64_text turns guard m (str "pin") parts =
  cmd_pin (default (str "show") (head parts)) (concat (tail parts)).
Proof. reflexivity. Qed.

Definition with_database (d : W) (w : shell W) : shell W :=
  mkShell d (API_KEY w) (MODEL w) (API_TARGET_IP w) (PIN_OVERRIDE w) (DNS_CACHE w) (console w).
Definition prints (o : list output) (w : shell W) : shell W :=
  mkShell (database w) (API_KEY w) (MODEL w) (API_TARGET_IP w) (PIN_OVERRIDE w) (DNS_CACHE w) (console w ++ o).
(** The text of some output. *)
Definition shown (o : list output) : list Z := o ≫= (fun x => match x with Text s => s | Inner => [] end).

Lemma on_db_runs {A} (f : st W (list Z) A) w r d : f (database w) = (r, d) ->
  on_db f w = (match r with Ok a => Ok (inl a) | Err e => Ok (inr e) | Panic => Panic end, with_database d w).
Proof. intros Hf. unfold on_db, st_zoom, st_try. rewrite Hf. by destruct r. Qed.
Lemma println_runs s w : println s w = (Ok tt, prints [Text (s ++ [10])] w).
Proof. done. Qed.

Lemma lex_store p c : AgentSpec.lex None (Sqlite.c_text (store_query p c ++ [0])) =
  if AgentSpec.has_nul p || AgentSpec.has_nul c then None
  else Some (AgentSpec.tokens_of (AgentSpec.insert_form p (str "lua") c) (str "))")).
Proof.
  assert (store_query p c = AgentSpec.statement (AgentSpec.insert_form p (str "lua") c) (str "))")) as ->.
  { unfold store_query, AgentSpec.insert_form. cbn [AgentSpec.statement].
    change (str "INSERT OR REPLACE INTO namespace (path, type, content, mtime) VALUES ('")
      with (str "INSERT OR REPLACE INTO namespace (path, type, content, mtime) VALUES (" ++ [39]).
    change (str "', 'lua', '") with (39 :: str ", " ++ 39 :: Agent.sql_escape (str "lua") ++ 39 :: str ", " ++ [39]).
    change (str "', strftime('%s','now'))") with
      (39 :: str ", strftime(" ++ 39 :: Agent.sql_escape (str "%s") ++ 39 :: str "," ++ 39 :: Agent.sql_escape (str "now") ++ 39 :: str "))").
    rewrite <- !app_assoc. cbn [app]. rewrite <- !app_assoc. done. }
  rewrite AgentSpec.lex_statement by (try done; by repeat constructor).
  cbn [existsb snd AgentSpec.insert_form]. by destruct (AgentSpec.has_nul p), (AgentSpec.has_nul c).
Qed.

(** The paths [cat] makes up the contents of. *)
Definition synthetic (path : list Z) : bool :=
  is_one_of path ["/sys/meminfo"; "sys/meminfo"] || is_one_of path ["/sys/uptime"; "sys/uptime"] ||
  is_one_of path ["/hw/nvme/info"; "hw/nvme/info"] || is_one_of path ["/db/schema"; "db/schema"].
Definition stored_text (path code : list Z) : list Z :=
  str "stored: " ++ path ++ str " (" ++ dec (zlen code) ++ str " bytes)".

Lemma store_runs db path code w : guard = Some db ->
  exists d s, cmd_store guard path code w = (Ok tt, prints [Text (s ++ [10])] (with_database d w)) /\
  Sqlite.stmts d = Sqlite.stmts (database w) /\
  (s = stored_text path code /\ AgentSpec.has_nul path = false /\ AgentSpec.has_nul code = false /\
     Sqlite.data d = <[path := code]> (Sqlite.data (database w)) \/
   (exists e, s = str "error: " ++ e) /\ Sqlite.data d = Sqlite.data (database w) /\
     (AgentSpec.has_nul path = true \/ AgentSpec.has_nul code = true \/ AgentSpec.may_fail = true)).
Proof.
  intros ->. unfold cmd_store.
  destruct (AgentSpec.run_exec db (store_query path code) (AgentSpec.has_nul path || AgentSpec.has_nul code) (<[path := code]>)
    (AgentSpec.tokens_of (AgentSpec.insert_form path (str "lua") code) (str "))")) (database w)) as (r & d & Hrun & Hst & Hcase).
  { apply lex_store. } { intros sql Hsql. by apply (AgentSpec.insert_law db sql path (str "lua") code). }
  unfold mbind, st_bind. rewrite (on_db_runs _ w _ _ Hrun). exists d.
  destruct Hcase as [(-> & Hn & Hd)|((e & ->) & Hd & Hwhy)].
  - apply orb_false_iff in Hn as [? ?]. eexists. split; [by rewrite println_runs|]. split; [done|]. by left.
  - eexists. split; [by rewrite println_runs|]. split; [done|]. right. split; [by exists e|]. split; [done|].
    rewrite orb_true_iff in Hwhy. tauto.
Qed.

Lemma cat_runs db path w : guard = Some db -> synthetic path = false -> (2 <= turns)%nat ->
  AgentSpec.files_ok (Sqlite.data (database w)) ->
  exists d s, cmd_cat f64_text turns guard m path w = (Ok tt, prints [Text (s ++ [10])] (with_database d w)) /\
  Sqlite.stmts d = Sqlite.stmts (database w) /\ Sqlite.data d = Sqlite.data (database w) /\
  (Sqlite.data (database w) !! path = Some s \/
   s = str "cat: " ++ path ++ str ": not found" /\
     (AgentSpec.has_nul path = true \/ Sqlite.data (database w) !! path = None \/ AgentSpec.may_fail = true)).
Proof.
  intros -> Hsyn Ht Hok. unfold synthetic in Hsyn. rewrite !orb_false_iff in Hsyn. destruct Hsyn as [[[H1 H2] H3] H4].
  unfold cmd_cat. rewrite H1, H2, H3, H4.
  destruct (AgentSpec.run_select f64_text turns db path (database w)) as (r & d & Hrun & Hst & Hd & Hcase); [lia|done|].
  exists d. unfold mbind, st_bind. rewrite (on_db_runs _ w _ _ Hrun).
  destruct Hcase as [[-> Hn]|[[e ->] Hwhy]].
  - destruct (Sqlite.data (database w) !! path) as [c|]; cbn [mret st_ret]; rewrite println_runs; eexists; (split; [done|]);
      (split; [done|]); (split; [done|]); [by left|right; split; [done|tauto]].
  - cbn [mret st_ret]. rewrite println_runs. eexists. split; [done|]. split; [done|]. split; [done|]. right. split; [done|tauto].
Qed.
End properties.

(** ** The settings *)
Definition all_bytes (f : Z -> bool) : bool := forallb f (seqZ 0 256).
Lemma for_bytes (f : Z -> bool) b : all_bytes f = true -> is_u8 b -> f b = true.
Proof.
  unfold all_bytes. intros Hf Hb. rewrite forallb_forall in Hf. apply Hf, list_elem_of_In, elem_of_seqZ.
  unfold is_u8 in Hb. lia.
Qed.

Lemma parse_dec b : is_u8 b -> Str.parse_uint 256 (dec b) = Some b.
Proof.
  intros Hb. apply (for_bytes (fun b => bool_decide (Str.parse_uint 256 (dec b) = Some b))) in Hb; [|vm_compute; reflexivity].
  by apply bool_decide_eq_true in Hb.
Qed.
Lemma parse_hex2 b : is_u8 b -> from_str_radix16 (hex2 b) = Some b.
Proof.
  intros Hb. apply (for_bytes (fun b => bool_decide (from_str_radix16 (hex2 b) = Some b))) in Hb; [|vm_compute; reflexivity].
  by apply bool_decide_eq_true in Hb.
Qed.
Definition graphic (b : Z) : Prop := 33 <= b < 127.
Lemma hex2_graphic b : is_u8 b -> Forall graphic (hex2 b).
Proof.
  intros Hb. apply (for_bytes (fun b => forallb (fun c => (33 <=? c) && (c <? 127)) (hex2 b))) in Hb; [|vm_compute; reflexivity].
  apply Forall_forall. intros c Hc. apply list_elem_of_In in Hc. rewrite forallb_forall in Hb. apply Hb in Hc.
  unfold graphic. lia.
Qed.

Lemma octets_dec ip : Forall is_u8 ip -> octets_loop (dec <$> ip) = inl ip.
Proof. induction 1 as [|b ip Hb _ IH]; [done|]. cbn [fmap list_fmap octets_loop]. by rewrite parse_dec, IH. Qed.

Lemma split_pieces x (ps : list (list Z)) : ps <> [] -> Forall (Forall (fun c => c <> x)) ps ->
  Str.split [x] (Str.join [x] ps) = ps.
Proof.
  intros Hne Hps. unfold Str.split.
  assert (forall fuel, (length (Str.join [x] ps) <= fuel)%nat -> Str.split_loop fuel [x] (Str.join [x] ps) = ps) as Hg; [|by apply Hg].
  induction Hps as [|p ps Hp Hps IH]; intros fuel Hf; [done|]. destruct ps as [|q ps].
  - cbn [Str.join]. destruct fuel; [done|]. cbn [Str.split_loop]. by rewrite Str.split_once_none.
  - change (Str.join [x] (p :: q :: ps)) with (p ++ [x] ++ Str.join [x] (q :: ps)) in *.
    rewrite !length_app in Hf. cbn [length] in Hf. destruct fuel as [|fuel]; [lia|]. cbn [Str.split_loop].
    rewrite Str.split_once_skip by done. cbn. f_equal. apply IH; [done|lia].
Qed.

Lemma graphic_visible b : graphic b -> Str.is_whitespace [b] = false.
Proof.
  intros Hb. assert (is_u8 b) as Hu by (unfold graphic, is_u8 in *; lia).
  apply (for_bytes (fun b => negb ((33 <=? b) && (b <? 127) && Str.is_whitespace [b]))) in Hu; [|vm_compute; reflexivity].
  unfold graphic in Hb. rewrite (proj2 (Z.leb_le _ _)), (proj2 (Z.ltb_lt _ _)) in Hu by lia. by apply negb_true_iff in Hu.
Qed.

(** Trimming a text without white space. *)
Lemma trim_graphic l : Forall graphic l -> Str.trim l = l.
Proof.
  intros Hl.
  assert (forall q, Forall graphic q -> Str.chars q = (fun b => [b]) <$> q) as Hchars.
  { intros q Hq. rewrite <- (app_nil_r q) at 1. rewrite AgentSpec.chars_ascii; [by rewrite app_nil_r|].
    eapply Forall_impl; [exact Hq|]. unfold graphic. intros b Hb. lia. }
  assert (forall q, Forall graphic q -> Str.drop_chars Str.is_whitespace ((fun b => [b]) <$> q) = (fun b => [b]) <$> q) as Hdrop.
  { intros q Hq. destruct Hq as [|b q Hb _]; [done|]. cbn [fmap list_fmap Str.drop_chars]. by rewrite graphic_visible. }
  assert (forall q : list Z, concat ((fun b => [b]) <$> q) = q) as Hc.
  { induction q as [|b q IH]; [done|]. cbn. by rewrite IH. }
  unfold Str.trim, Str.trim_start. rewrite Hchars, Hdrop, Hc by done. unfold Str.trim_end.
  rewrite Hchars, <- fmap_reverse, Hdrop by (first [done|by apply Forall_reverse]).
  by rewrite <- fmap_reverse, reverse_involutive, Hc.
Qed.

Lemma graphic_boundary l i : Forall graphic l -> 0 <= i <= zlen l -> is_char_boundary l i = true.
Proof.
  intros Hl Hi. unfold is_char_boundary. destruct (Z.eqb_spec i 0); [done|]. destruct (Z.eqb_spec i (zlen l)); [done|].
  cbn [orb]. rewrite (proj2 (Z.ltb_lt 0 i)), (proj2 (Z.ltb_lt i _)) by lia. cbn [andb].
  unfold byte_at. destruct (lookup_lt_is_Some_2 l (Z.to_nat i)) as [b Hb]; [unfold zlen in *; lia|].
  rewrite Hb. change (default 0 (Some b)) with b. pose proof (Forall_lookup_1 _ _ _ _ Hl Hb) as Hg. unfold graphic in Hg.
  assert (is_cont b = false) as -> by (unfold is_cont; lia). done.
Qed.
Lemma range_runs {W : Type} k a b (w : shell W) : Forall graphic k -> 0 <= a <= b -> b <= zlen k ->
  str_range k a b w = (Ok (slice k a (b - a)), w).
Proof.
  intros Hk Ha Hb. unfold str_range. rewrite !graphic_boundary by (try done; lia).
  rewrite (proj2 (Z.leb_le a b)), (proj2 (Z.leb_le b _)) by lia. done.
Qed.

Definition hex (pin : list Z) : list Z := pin ≫= hex2.
Lemma hex_graphic pin : Forall is_u8 pin -> Forall graphic (hex pin).
Proof. induction 1 as [|b pin Hb _ IH]; [constructor|]. unfold hex. cbn [mbind list_bind]. apply Forall_app. split; [by apply hex2_graphic|exact IH]. Qed.
Lemma zlen_hex pin : zlen (hex pin) = 2 * zlen pin.
Proof. induction pin as [|b pin IH]; [done|]. change (hex (b :: pin)) with (hex2 b ++ hex pin). rewrite zlen_app, IH, zlen_cons. unfold zlen at 1. cbn [length hex2]. lia. Qed.
Lemma slice_hex pin i b : pin !! i = Some b -> slice (hex pin) (Z.of_nat i * 2) 2 = hex2 b.
Proof.
  intros Hb. rewrite <- (take_drop_middle _ _ _ Hb). apply lookup_lt_Some in Hb.
  assert (forall p q, hex (p ++ q) = hex p ++ hex q) as Happ by (intros p q; apply bind_app).
  rewrite Happ. change (hex (b :: ?q)) with (hex2 b ++ hex q).
  assert (zlen (hex (take i pin)) = Z.of_nat i * 2) as Hlen by (rewrite zlen_hex, zlen_take; unfold zlen; lia).
  rewrite slice_app_r by lia. rewrite Hlen, Z.sub_diag. rewrite slice_app_l by (unfold zlen; cbn; lia). done.
Qed.

Lemma pairs_run {W : Type} pin (w : shell W) : Forall is_u8 pin ->
  forall n i result, (i + n)%nat = length pin ->
  hex_pairs n (Z.of_nat i) (hex pin) result w = (Ok (Some (result ++ drop i pin)), w).
Proof.
  intros Hp n. induction n as [|n IH]; intros i result Hn; cbn [hex_pairs].
  - rewrite drop_ge by lia. by rewrite app_nil_r.
  - destruct (lookup_lt_is_Some_2 pin i) as [b Hb]; [lia|]. unfold mbind, st_bind.
    rewrite range_runs by (try (by apply hex_graphic); rewrite ?zlen_hex; unfold zlen; lia).
    replace (Z.of_nat i * 2 + 2 - Z.of_nat i * 2) with 2 by lia. rewrite (slice_hex _ _ _ Hb).
    rewrite parse_hex2 by (by eapply Forall_lookup_1). replace (Z.of_nat i + 1) with (Z.of_nat (S i)) by lia.
    rewrite IH by lia. by rewrite <- app_assoc, (drop_S _ _ _ Hb).
Qed.
Lemma parse_hash_runs {W : Type} pin (w : shell W) : Forall is_u8 pin -> zlen pin = 32 -> parse_hex_hash (hex pin) w = (Ok (Some pin), w).
Proof.
  intros Hp Hlen. unfold parse_hex_hash. rewrite trim_graphic by (by apply hex_graphic). rewrite zlen_hex, Hlen.
  change (negb (2 * 32 =? 64)) with false. cbv iota. apply (pairs_run pin w Hp 32 0 []). unfold zlen in Hlen. lia.
Qed.

(** A single setting changed, and output added. *)
Definition with_target (ip : list Z) {W} (w : shell W) : shell W :=
  mkShell (database w) (API_KEY w) (MODEL w) ip (PIN_OVERRIDE w) (DNS_CACHE w) (console w).
Definition with_pin (pin : option (list Z)) {W} (w : shell W) : shell W :=
  mkShell (database w) (API_KEY w) (MODEL w) (API_TARGET_IP w) pin (DNS_CACHE w) (console w).

Lemma resolve_sets {W : Type} ip (w : shell W) : zlen ip = 4 -> Forall is_u8 ip ->
  cmd_resolve (ip_text ip) w = (Ok tt, prints [Text (str "API target set to: " ++ ip_text ip ++ [10])] (with_target ip w)).
Proof.
  intros Hlen Hip. assert (ip <> []) as Hne by (intros ->; done).
  assert (Forall (Forall (fun c => c <> 46)) (dec <$> ip)) as Hdots.
  { apply Forall_fmap. eapply Forall_impl; [exact Hip|]. intros b Hb. unfold is_u8 in Hb.
    eapply Forall_impl; [apply dec_digits; lia|]. intros c Hc ->. done. }
  assert (ip_text ip <> []) as Htext.
  { intros He. destruct ip as [|b [|b' ip]]; [done|done|]. unfold ip_text in He. cbn [fmap list_fmap Str.join] in He.
    apply app_eq_nil in He as [He _]. by apply dec_nonempty in He. }
  unfold cmd_resolve. rewrite bool_decide_false by done. unfold ip_text at 1 2.
  rewrite split_pieces by (try done; by destruct ip). rewrite (octets_dec ip Hip).
  assert (zlen (dec <$> ip) = 4) as -> by (unfold zlen in *; by rewrite length_fmap). cbn [negb Z.eqb Pos.eqb].
  unfold mbind, st_bind. cbn [set_target]. rewrite println_runs. by rewrite <- app_assoc.
Qed.

Lemma resolve_shows {W : Type} (w : shell W) : API_TARGET_IP w <> UNSPECIFIED ->
  cmd_resolve [] w = (Ok tt, prints [Text (str "API target: " ++ ip_text (API_TARGET_IP w) ++ str " (manual override)" ++ [10])] w).
Proof.
  intros Hne. unfold cmd_resolve. rewrite bool_decide_true by done. unfold mbind, st_bind, st_get. rewrite bool_decide_false by done.
  rewrite println_runs. by rewrite <- !app_assoc.
Qed.

Lemma print_all {W : Type} (pin : list Z) (w : shell W) :
  st_for (fun b => print (hex2 b)) pin w = (Ok tt, prints ((fun b => Text (hex2 b)) <$> pin) w).
Proof.
  revert w. induction pin as [|b pin IH]; intros w; cbn [st_for fmap list_fmap].
  - unfold prints. rewrite app_nil_r. by destruct w.
  - unfold mbind, st_bind. cbn [print emit]. rewrite IH. unfold prints. cbn. by rewrite <- app_assoc.
Qed.
Lemma pin_sets {W : Type} pin (w : shell W) : zlen pin = 32 -> Forall is_u8 pin ->
  cmd_pin (str "set") (hex pin) w = (Ok tt, prints [Text (str "SPKI pin override set (32 bytes)" ++ [10])] (with_pin (Some pin) w)).
Proof.
  intros Hlen Hp. unfold cmd_pin. change (is_one_of (str "set") ["show"; ""]%string) with false.
  change (is_one_of (str "set") ["set"]%string) with true. cbv iota. rewrite bool_decide_false.
  2:{ intros He. pose proof (zlen_hex pin) as Hz. rewrite He, Hlen in Hz. done. }
  unfold mbind, st_bind. rewrite parse_hash_runs by done. cbn [set_pin]. rewrite println_runs, Hlen. done.
Qed.
Lemma pin_shows {W : Type} pin (w : shell W) : PIN_OVERRIDE w = Some pin ->
  exists o, cmd_pin (str "show") [] w = (Ok tt, prints o w) /\
  shown o = str "SPKI pin (runtime override):" ++ [10] ++ str "  " ++ hex pin ++ [10].
Proof.
  intros Hp. unfold cmd_pin. change (is_one_of (str "show") ["show"; ""]%string) with true. cbv iota.
  unfold mbind, st_bind, st_get. rewrite Hp. rewrite println_runs. cbn [print emit]. rewrite print_all, println_runs.
  eexists. split; [unfold prints; cbn; by rewrite <- !app_assoc|].
  unfold shown. rewrite !bind_app. cbn [mbind list_bind]. rewrite !app_nil_r.
  assert (forall l : list Z, ((fun b => Text (hex2 b)) <$> l) ≫= (fun x => match x with Text s => s | Inner => [] end) = hex l) as ->; [|done].
  induction l as [|b l IH]; [done|]. cbn [fmap list_fmap mbind list_bind] in *. by rewrite IH.
Qed.


(** A setting typed at the shell is the setting used and shown: the line
    [resolve] with the decimal text of four bytes, spaced in any way, sets that
    address (and not 0.0.0.0, which means none) and [resolve] alone prints it
    back; the line [pin set] with the 64 hexadecimal digits of 32 bytes sets
    those bytes and [pin] or [pin show] prints the same digits back; nothing
    else of the shell changes, and the kernel does not panic. *)
Theorem shell_settings_kept {W : Type} {HE : Sqlite.Engine W} (f64_text : Json.f64 -> list Z) turns guard (m : machine W)
    ip pin parts1 parts2 line1 line2 line3 line4 (w : shell W) :
  zlen ip = 4 -> Forall is_u8 ip -> ip <> UNSPECIFIED -> zlen pin = 32 -> Forall is_u8 pin ->
  split_whitespace line1 = str "resolve" :: parts1 -> concat parts1 = ip_text ip -> split_whitespace line2 = [str "resolve"] ->
  split_whitespace line3 = str "pin" :: str "set" :: parts2 -> concat parts2 = hex pin ->
  split_whitespace line4 = [str "pin"] \/ split_whitespace line4 = [str "pin"; str "show"] ->
  let run := dispatch f64_text turns guard m in
  (exists o, (_ ← run line1; run line2) w = (Ok tt, prints o (with_target ip w)) /\
     shown o = str "API target set to: " ++ ip_text ip ++ [10] ++ str "API target: " ++ ip_text ip ++ str " (manual override)" ++ [10]) /\
  (exists o, (_ ← run line3; run line4) w = (Ok tt, prints o (with_pin (Some pin) w)) /\
     shown o = str "SPKI pin override set (32 bytes)" ++ [10] ++ str "SPKI pin (runtime override):" ++ [10] ++ str "  " ++ hex pin ++ [10]).
Proof.
  intros Hl Hip Hne Hlp Hpin H1 Hc1 H2 H3 Hc3 H4. cbn zeta. unfold dispatch. rewrite H1, H2, H3. split.
  - rewrite !command_resolve, Hc1. cbn [concat]. unfold mbind, st_bind. rewrite resolve_sets by done.
    rewrite resolve_shows by exact Hne. eexists. split; [unfold prints; cbn; by rewrite <- app_assoc|].
    unfold shown. cbn [mbind list_bind app]. by rewrite <- !app_assoc.
  - set (w1 := prints [Text (str "SPKI pin override set (32 bytes)" ++ [10])] (with_pin (Some pin) w)).
    destruct (pin_shows pin w1 eq_refl) as (o & Ho & Hs).
    exists (Text (str "SPKI pin override set (32 bytes)" ++ [10]) :: o). split.
    + assert (match split_whitespace line4 with [] => mret tt | cmd :: parts => command f64_text turns guard m cmd parts end =
        cmd_pin (str "show") []) as -> by (by destruct H4 as [-> | ->]; rewrite command_pin).
      rewrite command_pin.
      change (cmd_pin (default (str "show") (head (str "set" :: parts2))) (concat (tail (str "set" :: parts2))))
        with (cmd_pin (W := W) (str "set") (concat parts2)).
      rewrite Hc3. unfold mbind, st_bind.
      rewrite pin_sets by done. fold w1. rewrite Ho. unfold w1, prints. cbn. by rewrite <- app_assoc.
    + unfold shown in *. cbn [mbind list_bind] in *. rewrite Hs. by rewrite <- !app_assoc.
Qed.

Module Small.
#[local] Existing Instances AgentSpec.Small.small AgentSpec.Small.small_spec AgentSpec.Small.small_namespace.
Abbreviation db_state := (Sqlite.state (D := AgentSpec.files)).
Definition booted : shell db_state := mkShell AgentSpec.Small.start None None UNSPECIFIED None Dns.DNS_CACHE [].
Definition box : machine db_state :=
  mkMachine db_state 100 200 None None true true true 60 false (Dns.mkSession 0 false false [])
    (fun _ => ApiClient.mkSession false false false [] false [])
    (fun _ _ => ApiClient.mkSession false false false [] false [])
    (fun _ _ w => (inl tt, w)) (fun w => w).
Abbreviation type := (dispatch (fun _ => []) 5 (Some 1) box).

Definition store_line : list Z := str "store  /bin/hi  log('it''s   me')".

Definition sample_pin : list Z := seqZ 200 32.
Lemma shell_settings_kept_witness :
  (exists o, (_ ← type (str "resolve 10. 1.2.3"); type (str "resolve")) booted = (Ok tt, prints o (with_target [10; 1; 2; 3] booted)) /\
     shown o = str "API target set to: 10.1.2.3" ++ [10] ++ str "API target: 10.1.2.3 (manual override)" ++ [10]) /\
  (exists o, (_ ← type (str "pin set " ++ hex sample_pin); type (str "pin")) booted = (Ok tt, prints o (with_pin (Some sample_pin) booted)) /\
     shown o = str "SPKI pin override set (32 bytes)" ++ [10] ++ str "SPKI pin (runtime override):" ++ [10] ++ str "  " ++ hex sample_pin ++ [10]).
Proof.
  apply (shell_settings_kept (fun _ => []) 5 (Some 1) box [10; 1; 2; 3] sample_pin [str "10."; str "1.2.3"] [hex sample_pin]).
  all: try (vm_compute; reflexivity).
  - repeat (constructor; [unfold is_u8; lia|]). constructor.
  - discriminate.
  - apply Forall_forall. intros b Hb%elem_of_seqZ. unfold is_u8. lia.
  - left. vm_compute. reflexivity.
Defined.

(** A key or a pin with a character across a cut stops the kernel. *)
Definition two_byte : list Z := [0xC3; 0xA9].
Example apikey_panics :
  fst ((_ ← type (str "apikey 12345678901" ++ two_byte ++ str "6789"); type (str "apikey")) booted) = Panic.
Proof. vm_compute. reflexivity. Qed.
Example pin_panics : fst (type (str "pin set 0" ++ two_byte ++ replicate 61 48) booted) = Panic.
Proof. vm_compute. reflexivity. Qed.
Example pin_takes_plus : from_str_radix16 (str "+f") = Some 15.
Proof. reflexivity. Qed.
End Small.
End Commands.
